(* ===== verification/_CoqProject ===== *)
-Q . S2P
Prelude.v
CMem.v
CString.v
Strto.v
Vsprintf.v
Crc.v
Lmb.v
CircBuf.v
AddrMap.v
Rtc.v
Env.v
Mac.v
CmdLine.v
Readline.v
Flash.v
Load.v
MemCmd.v
Elf.v
Bytes.v
Stream.v
Sha.v
Net.v
Tftp.v
Nfs.v
Bootp.v
Image.v
Bootm.v
Srom.v
Pci.v
Dcsrom.v
Board.v
Frames.v
Identity.v
Start.v
Kermit.v
Ymodem.v
