(* ===== verification/Prelude.v ===== *)
(** * Verification library of the BAB740/BAB750 U-Boot tree

    The program is the boot monitor of two PowerPC boards (ELTEC BAB740 and BAB750,
    MPC74xx CPU), the U-Boot of src/u-boot-lab in the configuration
    include/configs/BAB7xx.h: 32-bit, big-endian, [char] unsigned, PREP address
    map, no operating system below and no memory protection.  The monitor starts,
    reads its settings from a battery-backed NVRAM, numbers the PCI bus, takes
    commands from a serial line, loads a system over that line or the network,
    and hands the machine over to it.

    ** The parts and how they meet

    The files are listed in dependency order; C file names are relative to
    src/u-boot-lab.

    - Foundations.  [Prelude]: this text, the C operators, widths, automation
      and the lemmas the rest shares.  [CMem]: byte-addressed memory with
      big-endian words.  [Bytes]: packets and blocks as lists of bytes.
    - The C library.  [CString]: lib/string.c.  [Strto]: lib/ctype.c, the strto*
      family, net_utils.c.  [Vsprintf]: lib/vsprintf.c, lib/div64.c.
    - Algorithms.  [Crc]: lib/crc32.c, lib/crc16.c.  [Stream] and [Sha]: lib/sha1.c,
      lib/sha256.c.  [Lmb]: lib/lmb.c.  [CircBuf]: lib/circbuf.c.  [AddrMap]:
      lib/addr_map.c.
    - The settings.  [Rtc]: drivers/rtc/mk48t59.c and date.c, the clock and
      the NVRAM behind three ISA ports.  [Env]: common/cmd_nvedit.c,
      env_common.c, env_nvram.c, kept in that NVRAM.
    - The command line.  [CmdLine]: common/main.c and command.c.  [Readline]: the
      line editor of main.c on the console array itself.
    - The flash.  [Flash]: board/eltec/bab7xx/flash.c and common/flash.c.
    - Loading.  [Load]: the S-record part of common/cmd_load.c and s_record.c,
      over the memory or the flash.  [Kermit]: k_recv of common/cmd_load.c.
      [Ymodem]: common/xyzModem.c and the commands loadb and loady.
      [Net]: net/net.c and net/eth.c.  [Mac]: the Ethernet addresses of net/eth.c
      and net.h, as text in the environment.  [Tftp]: net/tftp.c and NetLoop, over
      [Net] and [CMem].  [Nfs]: net/nfs.c, over the same loop.  [Bootp]: net/bootp.c,
      net/rarp.c, the choice of the loop between the protocols, and the words and
      variables of common/cmd_net.c.
    - Memory.  [MemCmd]: common/cmd_mem.c and lib/display_options.c, over [CMem] and
      [Flash], or over any machine with loads and stores ([MemCmd.Ram]).
    - Booting.  [Image]: common/image.c.  [Bootm]: common/cmd_bootm.c,
      arch/powerpc/lib/bootm.c, lib/gunzip.c, over [Image], [Lmb], [Crc], [CMem]
      and [CmdLine].  [Elf]: common/cmd_elf.c.
    - The board.  [Srom]: board/eltec/bab7xx/el_srom.c.  [Pci]: drivers/pci/*.c
      and the board's pci.c.  [Dcsrom]: board/eltec/bab7xx/dc_srom.c, over [Pci].
      [Board]: bab7xx.c, l2cache.c and the media part of misc.c, all in
      board/eltec/bab7xx.  [Identity]: misc_init_r of misc.c, the last step of a start,
      over [Readline], [Rtc], [Env], [Mac], [Srom], [Dcsrom] and [Board].
      [Frames]: what each of these drivers leaves alone on their common machine.
      [Start]: misc_init_r against its specification.

    ** How state and operations correspond to the code

    A w-bit unsigned value is a [Z] in range and each conversion C performs is
    written ([u8], [u16], [u32], [s32] ...).  A structure or a group of globals
    of a C file is a Record with the C names of its fields, a C function is a
    Definition or Fixpoint with the C name that takes and returns the state.
    Memory is a total map from addresses to bytes ([CMem.mem]); where
    a C routine walks a string or a packet and only looks at its bytes, the
    cursor is the list of the bytes that are left.  Failures are the C return
    codes; [None] of an option means that fuel ran out, unless a comment
    says otherwise.

    Hardware is never a definition of its own: what a driver can do to it is
    a typeclass of operations on an arbitrary machine state, what the chip
    promises about them is a second typeclass, and the driver's theorems are proved
    against the second.

    - [Rtc.PortIO] (in8/out8 on the ISA bus) with [Rtc.RtcChip]: the cells of
      the MK48T59; [Env] is proved against the same class.
    - [Flash.FlashBus] with [Flash.FlashChip]: the command sequences of
      the AMD parts, their busy time given in polls; an instance built on
      plain memory shows that the promises can be kept.
    - [Pci.PciIO] (32-bit accesses to the bridge registers): no promise at all is
      needed by the scan.  [Dcsrom.SromPort] places an automaton of the Microwire
      chip behind the controller register; [Srom.EepromPort] one of
      the two-wire EEPROM behind the port bits.
    - [Board.SprIO] (special registers) completes the board's machine;
      [Frames.BoardChips] puts the chips above on one machine, each reached through its own
      ports only, and [Frames.bench] is such a machine.
    - [Load.LoadTarget]: where downloaded bytes go, memory or memory and flash.
    - [Bootm]: inflate of zlib is an argument, with its documented contract as a
      hypothesis of the theorems about gzip images.

    Concurrency does not occur (one processor, interrupts only count time), but
    interleaving does: [Net] and [Tftp] model the arrival of frames and the
    expiry of timers as steps, and the invariant of the client holds
    for every sequence of them.

    ** What the theorems show

    - End to end: a TFTP transfer completes ([Tftp.tftp_transfer_completes]), and so does
      an NFS download, from the port of the mount service to the unmounting
      ([Nfs.nfs_download_completes]);
      a file sent with Kermit or Y-modem arrives in memory byte for byte and its
      size is reported, also when packets are damaged, repeated or cut
      ([Kermit.kermit_download], [Ymodem.ymodem_download]);
      bootm of a valid image reaches the kernel with the arguments in place or
      resets, and nothing in between ([Bootm.bootm_boots_linux]);
      a BOOTP exchange leaves the host with what the server said and goes on with
      the transfer ([Bootp.bootp_exchange]); an executable is loaded section by
      section and nothing else is touched ([Elf.elf_load_correct]).
    - The memory commands: mtest finds every stuck bit and every pair of cells that
      read the same ([MemCmd.mtest_detects]); cp and cmp agree ([MemCmd.cp_cmp_correct]).
    - Settings survive: setenv changes what it should and no more, a saved
      environment comes back after a power cycle, one corrupted cell is
      noticed; the two EEPROMs give back what was stored.
    - The start settles the board's identity: whatever the copies of the revision
      record hold, misc_init_r takes one of four specified decisions, after which
      EEPROM, NVRAM and environment agree as far as the operator wanted
      ([Start.misc_init_r_settles]); the next start changes nothing and a damaged shadow
      is noticed and repaired.
    - Refinement and equivalence with references: CRC-32 against the
      bit-serial division, SHA-1 and SHA-256 against FIPS 180, a command line
      against the sequence of its commands, the line editor on its array against the
      one on lists, the ring buffer against a bounded
      queue, do_div against Euclidean division.
    - Allocation: [Lmb] blocks are free and aligned; the PCI scan never hands
      out an address twice whatever the devices answer, and opens
      exactly the right window of every bridge.
    - Round trips: printing and parsing of numbers and addresses, S-record
      upload and download, dates, CPU and PCI addresses, Ethernet addresses.
    - Termination: the command interpreter, the PCI scan, the allocation loops
      and the loops with polling always come back, with the condition under
      which they do.
    - Errors: protected flash, error packets, damaged images, lines that are too
      long, stages out of order are refused without damage.

    What modelling showed to be wrong in the code is stated as theorems too, in
    the file concerned, and listed among the findings of the manifest.

    ** Bounds and fuel

    Loops over a count recurse on the count.  Scans for a NUL byte take fuel one more
    than the length of the string.  Division and printing loops of [Vsprintf]
    take the number of bits or digits of the widest type, and lemmas show that it is
    never used up.  [CmdLine.run_command] recurses at most CONFIG_SYS_CBSIZE
    times because every round consumes a character.  Polling loops take the
    number of polls the chip's class promises.  The recursion of the PCI scan
    over bridges takes the number of bus numbers left, which
    [Pci.pci_scan_returns] shows to be enough when the bridges that answer are finitely
    many.  Each theorem about a result with fuel says that there is a result.

    ** Not modelled, and why

    Start-up, exceptions and caches (mostly assembler); the console and the
    drivers below it (character and register I/O); drivers whose device has no
    description in the tree; progress and error messages; the vendored parts (zlib,
    bzlib, libfdt, dlmalloc, the file systems, the x86 emulator); what this board
    does not compile (hush, FIT images, DHCP, DNS, SNTP, the other boards and
    CPUs); the host tools. *)

From stdpp Require Export base option list numbers.
From Stdlib Require Export ZArith Lia Btauto.
From Stdlib Require Import String Ascii.

#[global] Open Scope Z_scope.

#[global] Arguments Z.of_nat : simpl never.
#[global] Arguments Z.to_nat : simpl never.
#[global] Arguments Z.pow : simpl never.
#[global] Arguments Z.modulo : simpl never.
#[global] Arguments Z.div : simpl never.
#[global] Arguments Z.land : simpl never.
#[global] Arguments Z.lor : simpl never.
#[global] Arguments Z.lxor : simpl never.
#[global] Arguments Z.shiftl : simpl never.
#[global] Arguments Z.shiftr : simpl never.

(** ** Notations: the bit operators of C, with their C precedences *)

Declare Scope cword_scope.
Delimit Scope cword_scope with cw.
Infix ".&" := Z.land (at level 52, left associativity) : cword_scope.
Infix ".|" := Z.lor (at level 54, left associativity) : cword_scope.
Infix ".^" := Z.lxor (at level 53, left associativity) : cword_scope.
Infix ".<<" := Z.shiftl (at level 51, left associativity) : cword_scope.
Infix ".>>" := Z.shiftr (at level 51, left associativity) : cword_scope.
#[global] Open Scope cword_scope.

(** ** Machine integers

    A w-bit unsigned C value is a [Z] in [0, 2^w); [u8], [u16], [u32] and
    [u64] are the conversions C performs on assignment, [s8], [s16] and [s32] the
    two's complement readings.  [char] is unsigned on PowerPC. *)

Definition wrap (w x : Z) : Z := x mod 2 ^ w.
Definition u8 (x : Z) : Z := wrap 8 x.
Definition u16 (x : Z) : Z := wrap 16 x.
Definition u32 (x : Z) : Z := wrap 32 x.
Definition u64 (x : Z) : Z := wrap 64 x.
Definition swrap (w x : Z) : Z :=
  let y := wrap w x in if y <? 2 ^ (w - 1) then y else y - 2 ^ w.
Definition s8 (x : Z) : Z := swrap 8 x.
Definition s16 (x : Z) : Z := swrap 16 x.
Definition s32 (x : Z) : Z := swrap 32 x.

(** Bitwise complement at width 32. *)
Definition not32 (x : Z) : Z := u32 (Z.lnot x).

Definition in_word (w x : Z) : Prop := 0 <= x < 2 ^ w.
Abbreviation is_u8 := (in_word 8).
Abbreviation is_u16 := (in_word 16).
Abbreviation is_u32 := (in_word 32).

#[global] Instance in_word_dec w x : Decision (in_word w x).
Proof. unfold in_word. apply _. Defined.

(** ** The text of C string literals, as bytes *)

Fixpoint str (s : string) : list Z :=
  match s with
  | EmptyString => []
  | String c s' => Z.of_N (N_of_ascii c) :: str s'
  end.
Definition chr (s : string) : Z :=
  match s with
  | EmptyString => 0
  | String c _ => Z.of_N (N_of_ascii c)
  end.

Arguments str s%_string.
Arguments chr s%_string.
Export StringSyntax.

(** ** Hint databases and tactics *)

Create HintDb cbits.
Create HintDb uboot.
Create HintDb cmem.
Create Rewrite HintDb cwords.
Create Rewrite HintDb clen.

(** Equality of words bit by bit. *)
Ltac bit_specs :=
  repeat first
    [ rewrite Z.lxor_spec | rewrite Z.land_spec | rewrite Z.lor_spec
    | rewrite Z.lnot_spec by lia | rewrite Z.shiftr_spec by lia
    | rewrite Z.shiftl_spec by lia ].
Ltac by_bits i :=
  apply Z.bits_inj'; intros i ?; bit_specs.

Ltac unfold_words := unfold in_word in *.
Ltac case_z :=
  repeat match goal with
  | |- context [?a =? ?b] => destruct (Z.eqb_spec a b)
  | |- context [?a <? ?b] => destruct (Z.ltb_spec a b)
  | |- context [?a <=? ?b] => destruct (Z.leb_spec a b)
  end.
Ltac case_z_in H :=
  repeat match type of H with
  | context [?a =? ?b] => destruct (Z.eqb_spec a b)
  | context [?a <? ?b] => destruct (Z.ltb_spec a b)
  | context [?a <=? ?b] => destruct (Z.leb_spec a b)
  end.

(** Destruct the conditions of the code one by one, closing the branches that
    arithmetic refutes. *)
Ltac branches := case_z; try lia; simplify_eq; auto.

(** ** Words *)

Lemma wrap_range w x : 0 <= w -> 0 <= wrap w x < 2 ^ w.
Proof. intros. unfold wrap. apply Z.mod_pos_bound. lia. Qed.
Lemma u8_range x : 0 <= u8 x < 256.
Proof. apply (wrap_range 8); lia. Qed.
Lemma u16_range x : 0 <= u16 x < 65536.
Proof. apply (wrap_range 16); lia. Qed.
Lemma u32_range x : 0 <= u32 x < 4294967296.
Proof. apply (wrap_range 32); lia. Qed.
#[export] Hint Resolve u8_range u16_range u32_range : cbits.

Lemma wrap_small w x : in_word w x -> wrap w x = x.
Proof. intros. apply Z.mod_small. assumption. Qed.
Lemma u8_small x : 0 <= x < 256 -> u8 x = x.
Proof. apply (wrap_small 8). Qed.
Lemma u16_small x : 0 <= x < 65536 -> u16 x = x.
Proof. apply (wrap_small 16). Qed.
Lemma u32_small x : 0 <= x < 4294967296 -> u32 x = x.
Proof. apply (wrap_small 32). Qed.
Lemma s32_small x : - 2147483648 <= x < 2147483648 -> s32 x = x.
Proof.
  intros Hx. unfold s32, swrap, wrap. change (2 ^ 32) with 4294967296. change (2 ^ (32 - 1)) with 2147483648.
  case_z; Z.div_mod_to_equations; lia.
Qed.
Lemma wrap_wrap w x : 0 <= w -> wrap w (wrap w x) = wrap w x.
Proof. intros. apply wrap_small, wrap_range; lia. Qed.
Lemma u8_u8 x : u8 (u8 x) = u8 x.
Proof. apply wrap_wrap. lia. Qed.
Lemma u32_u32 x : u32 (u32 x) = u32 x.
Proof. apply wrap_wrap. lia. Qed.
#[export] Hint Rewrite u8_u8 u32_u32 : cwords.

Lemma wrap_land w x : 0 <= w -> wrap w x = x .& Z.ones w.
Proof. intros. unfold wrap. rewrite Z.land_ones by lia. reflexivity. Qed.
Lemma land_255 x : x .& 255 = u8 x.
Proof. change 255 with (Z.ones 8). apply (Z.land_ones x 8). lia. Qed.

Lemma wrap_spec w x i :
  0 <= w -> 0 <= i -> Z.testbit (wrap w x) i = Z.testbit x i && (i <? w).
Proof.
  intros. unfold wrap. destruct (Z.ltb_spec i w).
  - rewrite Z.mod_pow2_bits_low, andb_true_r by lia. reflexivity.
  - rewrite Z.mod_pow2_bits_high, andb_false_r by lia. reflexivity.
Qed.

(** A nonnegative value is a w-bit word exactly when its high bits are clear. *)
Lemma in_word_bits w x :
  0 <= w -> in_word w x <-> 0 <= x /\ forall i, w <= i -> Z.testbit x i = false.
Proof.
  intros Hw. unfold in_word. split.
  - intros [H1 H2]. split; [lia|]. intros i Hi.
    rewrite <- (Z.mod_small x (2 ^ w)) by lia. apply Z.mod_pow2_bits_high. lia.
  - intros [H1 H2]. split; [lia|].
    assert (x = x mod 2 ^ w) as ->; [|apply Z.mod_pos_bound; lia].
    apply Z.bits_inj'. intros i Hi. destruct (Z.lt_ge_cases i w).
    + rewrite Z.mod_pow2_bits_low by lia. reflexivity.
    + rewrite Z.mod_pow2_bits_high by lia. apply H2. lia.
Qed.

Lemma testbit_high w x i : 0 <= w -> in_word w x -> w <= i -> Z.testbit x i = false.
Proof. intros Hw Hx Hi. apply (proj1 (in_word_bits w x Hw)) in Hx. apply Hx. lia. Qed.

Lemma in_word_lxor w x y : 0 <= w -> in_word w x -> in_word w y -> in_word w (x .^ y).
Proof.
  intros Hw Hx Hy. apply in_word_bits; [lia|]. split.
  - apply Z.lxor_nonneg. unfold in_word in *. lia.
  - intros i Hi. rewrite Z.lxor_spec, !(testbit_high w) by auto. reflexivity.
Qed.
Lemma in_word_lor w x y : 0 <= w -> in_word w x -> in_word w y -> in_word w (x .| y).
Proof.
  intros Hw Hx Hy. apply in_word_bits; [lia|]. split.
  - apply Z.lor_nonneg. unfold in_word in *. lia.
  - intros i Hi. rewrite Z.lor_spec, !(testbit_high w) by auto. reflexivity.
Qed.
Lemma in_word_land w x y : 0 <= w -> 0 <= x -> in_word w y -> in_word w (x .& y).
Proof.
  intros Hw Hx Hy. apply in_word_bits; [lia|]. split.
  - apply Z.land_nonneg. lia.
  - intros i Hi. rewrite Z.land_spec, (testbit_high w y) by auto. apply andb_false_r.
Qed.
Lemma in_word_shiftr w x n : 0 <= w -> 0 <= n -> in_word w x -> in_word w (x .>> n).
Proof.
  intros Hw Hn Hx. apply in_word_bits; [lia|]. split.
  - apply Z.shiftr_nonneg. unfold in_word in *. lia.
  - intros i Hi. rewrite Z.shiftr_spec, (testbit_high w x) by (auto; lia). reflexivity.
Qed.
Lemma in_word_wrap w x : 0 <= w -> in_word w (wrap w x).
Proof. apply wrap_range. Qed.
#[export] Hint Resolve in_word_lxor in_word_lor in_word_land in_word_shiftr in_word_wrap : cbits.

#[export] Hint Extern 1 (_ <= _) => lia : cbits.

(** A field of [n] bits from bit [k] on. *)
Lemma land_field x k n : 0 <= k -> 0 <= n -> x .& (Z.ones n .<< k) = x / 2 ^ k mod 2 ^ n * 2 ^ k.
Proof.
  intros Hk Hn. rewrite <- Z.land_ones, <- Z.shiftr_div_pow2, <- Z.shiftl_mul_pow2 by lia.
  apply Z.bits_inj'. intros i Hi. rewrite Z.land_spec, !Z.shiftl_spec by lia. destruct (Z.ltb_spec i k).
  - rewrite !(Z.testbit_neg_r _ (i - k)) by lia. apply andb_false_r.
  - rewrite Z.land_spec, Z.shiftr_spec by lia. do 2 f_equal. lia.
Qed.
(** Masking never makes a nonnegative number larger. *)
Lemma land_le a b : 0 <= a -> 0 <= a .& b <= a.
Proof.
  intros Ha. assert (0 <= a .& b) by (apply Z.land_nonneg; auto). split; [assumption|].
  assert (Z.ldiff (a .& b) a = 0) as E.
  { apply Z.bits_inj'. intros i Hi. rewrite Z.ldiff_spec, Z.land_spec, Z.bits_0. btauto. }
  pose proof (Z.sub_nocarry_ldiff a (a .& b) E). pose proof (proj2 (Z.ldiff_nonneg a (a .& b)) (or_introl Ha)). lia.
Qed.
(** Or of values with disjoint bits is their sum. *)
Lemma lor_add_disjoint a b k : 0 <= k -> 0 <= b < 2 ^ k -> (a .<< k) .| b = a * 2 ^ k + b.
Proof.
  intros Hk Hb. rewrite <- Z.shiftl_mul_pow2 by lia. symmetry.
  rewrite <- Z.lxor_lor; [apply Z.add_nocarry_lxor|]; by_bits i.
  all: rewrite Z.testbit_0_l; destruct (Z.lt_ge_cases i k).
  all: try (rewrite (Z.testbit_neg_r a) by lia; reflexivity).
  all: rewrite (testbit_high k b) by (unfold in_word; auto; lia); apply andb_false_r.
Qed.

(** ** Lists *)

(** Arithmetic on the lengths of concatenations. *)
Create Rewrite HintDb llen.
#[export] Hint Rewrite @length_app @length_take @length_drop @length_replicate
  @length_insert @length_map @length_rev : llen.
Ltac len_simpl := repeat (progress (autorewrite with llen in *; cbn [Datatypes.length] in *)).
Ltac len_tac := len_simpl; lia.

(** An array cell between a prefix and a suffix. *)
Lemma set_middle {A} (l1 l2 : list A) x y i :
  i = Datatypes.length l1 -> <[i := y]> (l1 ++ x :: l2) = l1 ++ y :: l2.
Proof. intros ->. induction l1; simpl; f_equal; auto. Qed.
Lemma get_middle `{Inhabited A} (l1 l2 : list A) x i :
  i = Datatypes.length l1 -> (l1 ++ x :: l2) !!! i = x.
Proof. intros ->. induction l1; simpl; auto. Qed.

(** Decide the comparisons of characters that hypotheses settle. *)
Ltac eqb_ne := repeat match goal with
  | H : ?a <> ?b |- context [?a =? ?b] => rewrite (proj2 (Z.eqb_neq a b) H)
  | |- context [?a =? ?a] => rewrite Z.eqb_refl
  end.

(** Iterate a step [n] times. *)
Fixpoint iter {A} (n : nat) (f : A -> A) (a : A) : A :=
  match n with O => a | S n' => iter n' f (f a) end.

Lemma iter_inv {A} (P : A -> Prop) n f a :
  (forall x, P x -> P (f x)) -> P a -> P (iter n f a).
Proof. intros Hf. revert a. induction n; simpl; auto. Qed.

Lemma iter_S {A} n (f : A -> A) a : iter (S n) f a = f (iter n f a).
Proof. revert a. induction n; intros; simpl; [reflexivity|]. rewrite <- IHn. reflexivity. Qed.

(** ** Exhaustive checks over a finite range *)

Definition forall_below (n : nat) (P : Z -> bool) : bool :=
  forallb (fun i => P (Z.of_nat i)) (seq 0 n).

Lemma forall_below_spec n P :
  forall_below n P = true -> forall c, 0 <= c < Z.of_nat n -> P c = true.
Proof.
  unfold forall_below. rewrite forallb_forall. intros H c Hc.
  specialize (H (Z.to_nat c)). rewrite Z2Nat.id in H by lia. apply H.
  apply in_seq. lia.
Qed.

(** Prove a decidable fact of every byte by evaluating it on all 256. *)
Ltac by_bytes c :=
  match goal with
  | H : 0 <= c < 256 |- ?P c =>
      exact (forall_below_spec 256 P eq_refl c H)
  end.
