(* ===== verification/CMem.v ===== *)
(** * Byte-addressed memory and C strings

    The memory the bare-metal code runs on: a total map from addresses to
    bytes (there is no MMU fault to model: every address reads as something).
    32-bit accesses are big-endian, as on the MPC74xx.  A C string is a run
    of nonzero bytes followed by a zero byte. *)

From S2P Require Import Prelude.

Definition mem := Z -> Z.

(** ** Accesses *)

Definition upd (m : mem) (a v : Z) : mem := fun x => if x =? a then v else m x.

Definition load32 (m : mem) (a : Z) : Z :=
  (((m a .<< 8 .| m (a + 1)) .<< 8 .| m (a + 2)) .<< 8) .| m (a + 3).

Definition store32 (m : mem) (a w : Z) : mem :=
  upd (upd (upd (upd m a (u8 (w .>> 24))) (a + 1) (u8 (w .>> 16)))
         (a + 2) (u8 (w .>> 8))) (a + 3) (u8 w).

(** Every cell holds a byte. *)
Definition mem_ok (m : mem) : Prop := forall a, is_u8 (m a).

(** ** Regions *)

(** The [length l] bytes at [a] are [l]. *)
Fixpoint bytes_at (m : mem) (a : Z) (l : list Z) : Prop :=
  match l with
  | [] => True
  | c :: l' => m a = c /\ bytes_at m (a + 1) l'
  end.

(** The bytes of a region, in order. *)
Fixpoint read_bytes (m : mem) (a : Z) (n : nat) : list Z :=
  match n with O => [] | S n' => m a :: read_bytes m (a + 1) n' end.

(** Initialise a region. *)
Fixpoint put_bytes (m : mem) (a : Z) (l : list Z) : mem :=
  match l with [] => m | c :: l' => put_bytes (upd m a c) (a + 1) l' end.

(** [m] and [m'] agree outside [lo, hi). *)
Definition same_outside (lo hi : Z) (m m' : mem) : Prop :=
  forall x, ~ (lo <= x < hi) -> m' x = m x.

(** [s] is a NUL-terminated string at [a]. *)
Fixpoint cstr (m : mem) (a : Z) (s : list Z) : Prop :=
  match s with
  | [] => m a = 0
  | c :: s' => m a = c /\ c <> 0 /\ cstr m (a + 1) s'
  end.

Definition zlen {A} (l : list A) : Z := Z.of_nat (length l).

(** ** Lemmas *)

Lemma zlen_cons {A} (c : A) s : zlen (c :: s) = zlen s + 1.
Proof. unfold zlen. simpl length. lia. Qed.
Lemma zlen_app {A} (s t : list A) : zlen (s ++ t) = zlen s + zlen t.
Proof. unfold zlen. rewrite length_app. lia. Qed.
Lemma zlen_nonneg {A} (s : list A) : 0 <= zlen s.
Proof. unfold zlen. lia. Qed.
Lemma zlen_nil {A} : zlen (@nil A) = 0.
Proof. reflexivity. Qed.
#[export] Hint Resolve zlen_nonneg : cmem.
#[export] Hint Rewrite @zlen_cons @zlen_app @zlen_nil : clen.
Ltac zlen_simpl :=
  autorewrite with clen in *;
  repeat match goal with
  | |- context [zlen ?s] =>
      lazymatch goal with
      | _ : 0 <= zlen s |- _ => fail
      | _ => pose proof (zlen_nonneg s)
      end
  | _ : context [zlen ?s] |- _ =>
      lazymatch goal with
      | _ : 0 <= zlen s |- _ => fail
      | _ => pose proof (zlen_nonneg s)
      end
  end.

Lemma upd_eq m a v : upd m a v a = v.
Proof. unfold upd. rewrite Z.eqb_refl. reflexivity. Qed.
Lemma upd_ne m a v x : x <> a -> upd m a v x = m x.
Proof. intros. unfold upd. case_z; congruence. Qed.
Ltac upd_tac :=
  repeat match goal with
  | |- context [upd _ ?a _ ?a] => rewrite upd_eq
  | |- context [upd _ _ _ _] => rewrite upd_ne by lia
  end.

Lemma bytes_at_ext m m' a l :
  (forall x, a <= x < a + zlen l -> m' x = m x) -> bytes_at m a l -> bytes_at m' a l.
Proof.
  revert a. induction l as [|c l IH]; intros a H; simpl; [auto|]. intros [H1 H2].
  zlen_simpl. split; [rewrite H by lia; auto|]. apply IH; auto.
  intros. apply H. lia.
Qed.

Lemma bytes_at_app m a l k :
  bytes_at m a (l ++ k) <-> bytes_at m a l /\ bytes_at m (a + zlen l) k.
Proof.
  revert a. induction l as [|c l IH]; intros a; simpl.
  - rewrite Z.add_0_r. tauto.
  - rewrite IH, zlen_cons. replace (a + 1 + zlen l) with (a + (zlen l + 1)) by lia. tauto.
Qed.

Lemma length_read_bytes m a n : length (read_bytes m a n) = n.
Proof. revert a. induction n; intros; simpl; auto. Qed.
Lemma zlen_read_bytes m a n : zlen (read_bytes m a n) = Z.of_nat n.
Proof. unfold zlen. rewrite length_read_bytes. reflexivity. Qed.

Lemma bytes_at_read m a n : bytes_at m a (read_bytes m a n).
Proof. revert a. induction n; intros; simpl; auto. Qed.

Lemma read_bytes_at m a l : bytes_at m a l -> read_bytes m a (length l) = l.
Proof.
  revert a. induction l as [|c l IH]; intros a; simpl; [auto|].
  intros [<- H]. f_equal. auto.
Qed.

Lemma read_bytes_ext m m' a b n :
  (forall i, 0 <= i < Z.of_nat n -> m' (b + i) = m (a + i)) ->
  read_bytes m' b n = read_bytes m a n.
Proof.
  revert a b. induction n as [|n IH]; intros a b H; simpl; [reflexivity|]. f_equal.
  - specialize (H 0). rewrite !Z.add_0_r in H. apply H. lia.
  - apply IH. intros i Hi. specialize (H (i + 1)).
    replace (b + 1 + i) with (b + (i + 1)) by lia.
    replace (a + 1 + i) with (a + (i + 1)) by lia. apply H. lia.
Qed.

Lemma read_bytes_lookup m a n i :
  (i < n)%nat -> read_bytes m a n !! i = Some (m (a + Z.of_nat i)).
Proof.
  revert a i. induction n as [|n IH]; intros a [|i] H; simpl; try lia.
  - rewrite Z.add_0_r. reflexivity.
  - rewrite IH by lia. do 2 f_equal. lia.
Qed.

Lemma same_outside_refl lo hi m : same_outside lo hi m m.
Proof. intros x _. reflexivity. Qed.
Lemma same_outside_trans lo hi m1 m2 m3 :
  same_outside lo hi m1 m2 -> same_outside lo hi m2 m3 -> same_outside lo hi m1 m3.
Proof. intros H1 H2 x Hx. rewrite H2, H1 by auto. reflexivity. Qed.
Lemma same_outside_upd lo hi m m' a v :
  same_outside lo hi m m' -> lo <= a < hi -> same_outside lo hi m (upd m' a v).
Proof. intros H Ha x Hx. rewrite upd_ne by (intros ->; auto). auto. Qed.
Lemma same_outside_weaken lo hi lo' hi' m m' :
  same_outside lo hi m m' -> lo' <= lo -> hi <= hi' -> same_outside lo' hi' m m'.
Proof. intros H H1 H2 x Hx. apply H. lia. Qed.
#[export] Hint Resolve same_outside_refl same_outside_upd : cmem.

Lemma put_bytes_outside m a l : same_outside a (a + zlen l) m (put_bytes m a l).
Proof.
  revert m a. induction l as [|c l IH]; intros m a; simpl; [apply same_outside_refl|].
  intros x Hx. zlen_simpl. rewrite IH by lia. apply upd_ne. lia.
Qed.
Lemma put_bytes_at m a l : bytes_at (put_bytes m a l) a l.
Proof.
  revert m a. induction l as [|c l IH]; intros m a; simpl; [auto|]. split; [|apply IH].
  rewrite put_bytes_outside by lia. apply upd_eq.
Qed.

Lemma cstr_ext m m' a s :
  (forall x, a <= x <= a + zlen s -> m' x = m x) -> cstr m a s -> cstr m' a s.
Proof.
  revert a. induction s as [|c s IH]; intros a H; simpl; zlen_simpl.
  - intros. rewrite H by lia. auto.
  - intros (H1 & H2 & H3). split; [rewrite H by lia; auto|]. split; [auto|].
    apply IH; auto. intros. apply H. lia.
Qed.
Lemma cstr_same_outside m m' a s lo hi :
  same_outside lo hi m m' -> a + zlen s < lo \/ hi <= a -> cstr m a s -> cstr m' a s.
Proof. intros H1 H2. apply cstr_ext. intros. apply H1. lia. Qed.

(** The string at an address is unique. *)
Lemma cstr_fun m a s t : cstr m a s -> cstr m a t -> s = t.
Proof.
  revert a t. induction s as [|c s IH]; intros a [|d t]; simpl; intros H1 H2; auto.
  - destruct H2 as (? & ? & ?). congruence.
  - destruct H1 as (? & ? & ?). congruence.
  - destruct H1 as (? & ? & ?), H2 as (? & ? & ?). f_equal; [congruence|eauto].
Qed.
Lemma cstr_nonzero m a s : cstr m a s -> Forall (fun c => c <> 0) s.
Proof.
  revert a. induction s as [|c s IH]; intros a; simpl; [constructor|].
  intros (? & ? & ?). constructor; eauto.
Qed.
Lemma cstr_bytes m a s : cstr m a s -> bytes_at m a (s ++ [0]).
Proof.
  revert a. induction s as [|c s IH]; intros a; simpl; [auto|].
  intros (? & ? & ?). auto.
Qed.
Lemma bytes_cstr m a s :
  Forall (fun c => c <> 0) s -> bytes_at m a (s ++ [0]) -> cstr m a s.
Proof.
  revert a. induction s as [|c s IH]; intros a Hf; simpl; [tauto|].
  inversion Hf; subst. intros [? ?]. auto.
Qed.
Lemma cstr_put m a s : Forall (fun c => c <> 0) s -> cstr (put_bytes m a (s ++ [0])) a s.
Proof. intros. apply bytes_cstr, put_bytes_at. assumption. Qed.
Lemma cstr_app m a s t :
  Forall (fun c => c <> 0) s -> bytes_at m a s -> cstr m (a + zlen s) t -> cstr m a (s ++ t).
Proof.
  revert a. induction s as [|c s IH]; intros a Hf; simpl; zlen_simpl.
  - rewrite Z.add_0_r. auto.
  - inversion Hf; subst. intros [? ?] Ht. split; [auto|]. split; [auto|].
    apply IH; auto. replace (a + 1 + zlen s) with (a + (zlen s + 1)) by lia. auto.
Qed.
Lemma cstr_split m a s t :
  cstr m a (s ++ t) -> bytes_at m a s /\ cstr m (a + zlen s) t.
Proof.
  revert a. induction s as [|c s IH]; intros a; simpl.
  - rewrite zlen_nil, Z.add_0_r. auto.
  - intros (? & ? & H). apply IH in H as [? ?]. rewrite zlen_cons.
    replace (a + (zlen s + 1)) with (a + 1 + zlen s) by lia. auto.
Qed.
#[export] Hint Resolve cstr_nonzero cstr_put put_bytes_at bytes_at_read : cmem.

(** ** Words *)

(** The big-endian value of four bytes, arithmetically. *)
Lemma load32_sum m a :
  mem_ok m ->
  load32 m a = m a * 16777216 + m (a + 1) * 65536 + m (a + 2) * 256 + m (a + 3).
Proof.
  intros H. unfold load32.
  rewrite !(lor_add_disjoint _ _ 8) by (try lia; apply H).
  change (2 ^ 8) with 256. lia.
Qed.

(** A word depends on its four bytes. *)
Lemma load32_ext m m' a b : (forall i, 0 <= i < 4 -> m' (b + i) = m (a + i)) -> load32 m' b = load32 m a.
Proof.
  intros H. pose proof (H 0 ltac:(lia)) as H0. rewrite !Z.add_0_r in H0. unfold load32.
  rewrite H0, (H 1), (H 2), (H 3) by lia. reflexivity.
Qed.

Lemma store32_outside m a w : same_outside a (a + 4) m (store32 m a w).
Proof. intros x Hx. unfold store32. upd_tac. reflexivity. Qed.

Lemma upd_ok m a v : mem_ok m -> is_u8 v -> mem_ok (upd m a v).
Proof. intros H Hv x. unfold upd. case_z; auto. Qed.
#[export] Hint Resolve upd_ok store32_outside : cmem.

Lemma read_bytes_u8 m a n : mem_ok m -> Forall is_u8 (read_bytes m a n).
Proof. intros Hm. revert a. induction n; intros; simpl; constructor; auto. Qed.

Lemma read_bytes_plus m a n k :
  read_bytes m a (n + k) = read_bytes m a n ++ read_bytes m (a + Z.of_nat n) k.
Proof.
  revert a. induction n as [|n IH]; intros a; simpl.
  - rewrite Z.add_0_r. reflexivity.
  - rewrite IH. do 3 f_equal. lia.
Qed.


Lemma store32_ok m a w : mem_ok m -> mem_ok (store32 m a w).
Proof. intros H. unfold store32. repeat apply upd_ok; auto; apply u8_range. Qed.

Lemma shiftr_div w n : 0 <= n -> w .>> n = w / 2 ^ n.
Proof. apply Z.shiftr_div_pow2. Qed.

(** Storing a word and loading it back. *)
Lemma load_store32 m a w : mem_ok m -> is_u32 w -> load32 (store32 m a w) a = w.
Proof.
  intros Hm Hw. rewrite load32_sum by (apply store32_ok; auto).
  unfold store32. upd_tac. unfold u8, wrap. rewrite !shiftr_div by lia.
  unfold_words. change (2 ^ 8) with 256. change (2 ^ 24) with 16777216.
  change (2 ^ 16) with 65536. Z.div_mod_to_equations. lia.
Qed.

(** Storing a loaded word copies its four bytes. *)
Lemma store_load32 m m' a b i :
  mem_ok m -> 0 <= i < 4 -> store32 m' b (load32 m a) (b + i) = m (a + i).
Proof.
  intros Hm Hi. rewrite load32_sum by auto.
  pose proof (Hm a). pose proof (Hm (a + 1)). pose proof (Hm (a + 2)). pose proof (Hm (a + 3)).
  unfold_words. unfold store32, u8, wrap. rewrite !shiftr_div by lia.
  change (2 ^ 8) with 256 in *. change (2 ^ 24) with 16777216. change (2 ^ 16) with 65536.
  assert (i = 0 \/ i = 1 \/ i = 2 \/ i = 3) as [->|[->|[->| ->]]] by lia.
  all: rewrite ?Z.add_0_r; upd_tac; Z.div_mod_to_equations; lia.
Qed.

(** A literal list of bytes, decided by evaluation. *)
Definition all_u8 (l : list Z) : bool := forallb (fun c => (0 <=? c) && (c <? 256)) l.
Lemma all_u8_spec l : all_u8 l = true -> Forall is_u8 l.
Proof.
  unfold all_u8. rewrite forallb_forall. intros H. apply List.Forall_forall. intros x Hx.
  specialize (H x Hx). unfold_words. change (2 ^ 8) with 256. lia.
Qed.

Lemma put_bytes_ok m a l : mem_ok m -> Forall is_u8 l -> mem_ok (put_bytes m a l).
Proof.
  revert m a. induction l; intros m b Hm Hf; simpl; [auto|]. inversion Hf; subst. auto with cmem.
Qed.
Lemma zero_ok : mem_ok (fun _ => 0).
Proof. intros x. unfold_words. lia. Qed.
#[export] Hint Resolve put_bytes_ok zero_ok : cmem.
