(* ===== verification/CString.v ===== *)
(** * The C string and memory routines (lib/string.c)

    Every routine runs on the memory of [CMem]; pointers are addresses and
    NULL is 0.  Loops bounded by a count recurse on it; scans for a NUL take
    fuel and return [None] only when it runs out, and the theorems give the
    fuel that is enough (one more than the length of the strings).  The
    generic C versions of the file are modelled; on PowerPC some of them are
    replaced by assembly with the same contract. *)

From S2P Require Import Prelude CMem.

Definition NULL : Z := 0.

(** ** Copying *)

Fixpoint strcpy_loop (fuel : nat) (m : mem) (dest src : Z) : option mem :=
  match fuel with
  | O => None
  | S f =>
      let c := m src in
      let m' := upd m dest c in
      if c =? 0 then Some m' else strcpy_loop f m' (dest + 1) (src + 1)
  end.

Definition strcpy (fuel : nat) (m : mem) (dest src : Z) : option (Z * mem) :=
  match strcpy_loop fuel m dest src with
  | Some m' => Some (dest, m')
  | None => None
  end.

Fixpoint strncpy_loop (count : nat) (m : mem) (dest src : Z) : mem :=
  match count with
  | O => m
  | S n =>
      let c := m src in
      let m' := upd m dest c in
      if c =? 0 then m' else strncpy_loop n m' (dest + 1) (src + 1)
  end.

Definition strncpy (m : mem) (dest src count : Z) : Z * mem :=
  (dest, strncpy_loop (Z.to_nat count) m dest src).

(** ** Scanning for the terminator *)

Fixpoint skip_to_nul (fuel : nat) (m : mem) (p : Z) : option Z :=
  match fuel with
  | O => None
  | S f => if m p =? 0 then Some p else skip_to_nul f m (p + 1)
  end.

Definition strlen (fuel : nat) (m : mem) (s : Z) : option Z :=
  match skip_to_nul fuel m s with
  | Some sc => Some (sc - s)
  | None => None
  end.

Fixpoint strnlen_loop (count : nat) (m : mem) (sc : Z) : Z :=
  match count with
  | O => sc
  | S n => if m sc =? 0 then sc else strnlen_loop n m (sc + 1)
  end.

Definition strnlen (m : mem) (s count : Z) : Z :=
  strnlen_loop (Z.to_nat count) m s - s.

Definition strcat (fuel : nat) (m : mem) (dest src : Z) : option (Z * mem) :=
  match skip_to_nul fuel m dest with
  | Some d =>
      match strcpy_loop fuel m d src with
      | Some m' => Some (dest, m')
      | None => None
      end
  | None => None
  end.

Fixpoint strncat_loop (count : nat) (m : mem) (dest src : Z) : mem :=
  match count with
  | O => m
  | S n =>
      let c := m src in
      let m' := upd m dest c in
      if c =? 0 then m'
      else match n with
           | O => upd m' (dest + 1) 0
           | S _ => strncat_loop n m' (dest + 1) (src + 1)
           end
  end.

Definition strncat (fuel : nat) (m : mem) (dest src count : Z) : option (Z * mem) :=
  if count =? 0 then Some (dest, m)
  else match skip_to_nul fuel m dest with
       | Some d => Some (dest, strncat_loop (Z.to_nat count) m d src)
       | None => None
       end.

(** ** Comparing: the difference is computed in a signed char *)

Fixpoint strcmp (fuel : nat) (m : mem) (cs ct : Z) : option Z :=
  match fuel with
  | O => None
  | S f =>
      let res := s8 (m cs - m ct) in
      if negb (res =? 0) || (m cs =? 0) then Some res
      else strcmp f m (cs + 1) (ct + 1)
  end.

Fixpoint strncmp_loop (count : nat) (m : mem) (cs ct : Z) : Z :=
  match count with
  | O => 0
  | S n =>
      let res := s8 (m cs - m ct) in
      if negb (res =? 0) || (m cs =? 0) then res
      else strncmp_loop n m (cs + 1) (ct + 1)
  end.

Definition strncmp (m : mem) (cs ct count : Z) : Z :=
  strncmp_loop (Z.to_nat count) m cs ct.

Fixpoint memcmp_loop (count : nat) (m : mem) (su1 su2 : Z) : Z :=
  match count with
  | O => 0
  | S n =>
      let res := m su1 - m su2 in
      if negb (res =? 0) then res else memcmp_loop n m (su1 + 1) (su2 + 1)
  end.

Definition memcmp (m : mem) (cs ct count : Z) : Z :=
  memcmp_loop (Z.to_nat count) m cs ct.

(** ** Searching *)

Fixpoint strchr (fuel : nat) (m : mem) (s c : Z) : option Z :=
  match fuel with
  | O => None
  | S f =>
      if m s =? u8 c then Some s
      else if m s =? 0 then Some NULL
      else strchr f m (s + 1) c
  end.

Fixpoint strrchr_loop (fuel : nat) (m : mem) (s p c : Z) : option Z :=
  match fuel with
  | O => None
  | S f =>
      if m p =? u8 c then Some p
      else if p - 1 <? s then Some NULL
      else strrchr_loop f m s (p - 1) c
  end.

Definition strrchr (fuel : nat) (m : mem) (s c : Z) : option Z :=
  match strlen fuel m s with
  | Some l => strrchr_loop fuel m s (s + l) c
  | None => None
  end.

(** The inner loop of [strspn] and [strpbrk]: walk the set until [c] or NUL. *)
Fixpoint set_scan (fuel : nat) (m : mem) (a c : Z) : option Z :=
  match fuel with
  | O => None
  | S f =>
      if m a =? 0 then Some a
      else if c =? m a then Some a
      else set_scan f m (a + 1) c
  end.

Fixpoint strspn_loop (fuel fuel_set : nat) (m : mem) (p accept count : Z) : option Z :=
  match fuel with
  | O => None
  | S f =>
      if m p =? 0 then Some count
      else match set_scan fuel_set m accept (m p) with
           | None => None
           | Some a =>
               if m a =? 0 then Some count
               else strspn_loop f fuel_set m (p + 1) accept (count + 1)
           end
  end.

Definition strspn (fuel : nat) (m : mem) (s accept : Z) : option Z :=
  strspn_loop fuel fuel m s accept 0.

Fixpoint strpbrk_loop (fuel fuel_set : nat) (m : mem) (sc1 ct : Z) : option Z :=
  match fuel with
  | O => None
  | S f =>
      if m sc1 =? 0 then Some NULL
      else match set_scan fuel_set m ct (m sc1) with
           | None => None
           | Some a =>
               if m a =? 0 then strpbrk_loop f fuel_set m (sc1 + 1) ct
               else Some sc1
           end
  end.

Definition strpbrk (fuel : nat) (m : mem) (cs ct : Z) : option Z :=
  strpbrk_loop fuel fuel m cs ct.

(** [strtok]: the state is the memory and the static pointer [___strtok];
    the result is the token, the memory and the new static pointer. *)
Definition strtok (fuel : nat) (m : mem) (strtok_p s ct : Z) : option (Z * mem * Z) :=
  let sbegin := if s =? 0 then strtok_p else s in
  if sbegin =? 0 then Some (NULL, m, strtok_p)
  else match strspn fuel m sbegin ct with
       | None => None
       | Some n =>
           let sbegin := sbegin + n in
           if m sbegin =? 0 then Some (NULL, m, NULL)
           else match strpbrk fuel m sbegin ct with
                | None => None
                | Some send =>
                    if negb (send =? 0) && negb (m send =? 0)
                    then Some (sbegin, upd m send 0, send + 1)
                    else Some (sbegin, m, send)
                end
       end.

(** [strsep]: [*s] is passed and returned. *)
Definition strsep (fuel : nat) (m : mem) (s ct : Z) : option (Z * mem * Z) :=
  if s =? 0 then Some (NULL, m, s)
  else match strpbrk fuel m s ct with
       | None => None
       | Some e =>
           if negb (e =? 0) then Some (s, upd m e 0, e + 1) else Some (s, m, e)
       end.

Fixpoint strswab_loop (fuel : nat) (m : mem) (p : Z) : option mem :=
  match fuel with
  | O => None
  | S f =>
      let q := p + 1 in
      if negb (m p =? 0) && negb (m q =? 0) then
        let tmp := m p in
        let m1 := upd m p (m q) in
        let m2 := upd m1 q tmp in
        strswab_loop f m2 (p + 2)
      else Some m
  end.

Definition strswab (fuel : nat) (m : mem) (s : Z) : option (Z * mem) :=
  if (s =? 0) || (m s =? 0) then Some (NULL, m)
  else match strswab_loop fuel m s with
       | Some m' => Some (s, m')
       | None => None
       end.

(** ** Filling and copying regions *)

Definition memset_word (c : Z) : Z :=
  iter 4 (fun cl => u32 (cl .<< 8) .| (c .& 255)) 0.

Fixpoint memset_words (count : nat) (m : mem) (sl cl : Z) : mem * Z * nat :=
  match count with
  | S (S (S (S n))) => memset_words n (store32 m sl cl) (sl + 4) cl
  | _ => (m, sl, count)
  end.

Fixpoint memset_bytes (count : nat) (m : mem) (s8 c : Z) : mem :=
  match count with
  | O => m
  | S n => memset_bytes n (upd m s8 (u8 c)) (s8 + 1) c
  end.

Definition memset (m : mem) (s c count : Z) : Z * mem :=
  let n := Z.to_nat count in
  let '(m1, sl, n1) :=
    if s .& 3 =? 0 then memset_words n m s (memset_word c) else (m, s, n) in
  (s, memset_bytes n1 m1 sl c).

Fixpoint copy_up (count : nat) (m : mem) (d s : Z) : mem :=
  match count with
  | O => m
  | S n => copy_up n (upd m d (m s)) (d + 1) (s + 1)
  end.

Fixpoint copy_down (count : nat) (m : mem) (d s : Z) : mem :=
  match count with
  | O => m
  | S n => copy_down n (upd m (d - 1) (m (s - 1))) (d - 1) (s - 1)
  end.

Definition bcopy (m : mem) (src dest count : Z) : Z * mem :=
  (dest, copy_up (Z.to_nat count) m dest src).

Fixpoint copy_words (count : nat) (m : mem) (dl sl : Z) : mem * Z * Z * nat :=
  match count with
  | S (S (S (S n))) => copy_words n (store32 m dl (load32 m sl)) (dl + 4) (sl + 4)
  | _ => (m, dl, sl, count)
  end.

Definition memcpy (m : mem) (dest src count : Z) : Z * mem :=
  let n := Z.to_nat count in
  let '(m1, dl, sl, n1) :=
    if (dest .| src) .& 3 =? 0 then copy_words n m dest src else (m, dest, src, n) in
  (dest, copy_up n1 m1 dl sl).

Definition memmove (m : mem) (dest src count : Z) : Z * mem :=
  let n := Z.to_nat count in
  (dest,
   if dest <=? src then copy_up n m dest src
   else copy_down n m (dest + count) (src + count)).

Fixpoint memscan_loop (size : nat) (m : mem) (p c : Z) : Z :=
  match size with
  | O => p
  | S n => if m p =? c then p else memscan_loop n m (p + 1) c
  end.

Definition memscan (m : mem) (addr c size : Z) : Z :=
  memscan_loop (Z.to_nat size) m addr c.

Fixpoint memchr_loop (n : nat) (m : mem) (p c : Z) : Z :=
  match n with
  | O => NULL
  | S n' => if u8 c =? m p then p else memchr_loop n' m (p + 1) c
  end.

Definition memchr (m : mem) (s c n : Z) : Z := memchr_loop (Z.to_nat n) m s c.

(** [strstr]: slide the needle while [l1 >= l2]. *)
Fixpoint strstr_loop (fuel : nat) (m : mem) (s1 s2 l1 l2 : Z) : option Z :=
  match fuel with
  | O => None
  | S f =>
      if l2 <=? l1 then
        if memcmp m s1 s2 l2 =? 0 then Some s1
        else strstr_loop f m (s1 + 1) s2 (l1 - 1) l2
      else Some NULL
  end.

Definition strstr (fuel : nat) (m : mem) (s1 s2 : Z) : option Z :=
  match strlen fuel m s2 with
  | None => None
  | Some l2 =>
      if l2 =? 0 then Some s1
      else match strlen fuel m s1 with
           | None => None
           | Some l1 => strstr_loop (S fuel) m s1 s2 l1 l2
           end
  end.

(** * Properties *)

(** ** Scanning *)

Lemma skip_to_nul_spec fuel m a s :
  cstr m a s -> (length s < fuel)%nat -> skip_to_nul fuel m a = Some (a + zlen s).
Proof.
  revert a s. induction fuel as [|f IH]; intros a s Hs Hf; [lia|]. destruct s as [|c s]; simpl in *.
  - rewrite Hs. simpl. f_equal. zlen_simpl. lia.
  - destruct Hs as (-> & Hc & Hs). case_z; [congruence|].
    rewrite (IH _ s) by (auto; lia). f_equal. zlen_simpl. lia.
Qed.

Lemma strlen_spec fuel m a s :
  cstr m a s -> (length s < fuel)%nat -> strlen fuel m a = Some (zlen s).
Proof. intros. unfold strlen. rewrite (skip_to_nul_spec _ _ _ s) by auto. f_equal. lia. Qed.

Lemma strnlen_loop_spec n m a s :
  cstr m a s -> strnlen_loop n m a = a + Z.min (zlen s) (Z.of_nat n).
Proof.
  revert a s. induction n as [|n IH]; intros a s Hs; [simpl; zlen_simpl; lia|].
  destruct s as [|c s]; cbn [strnlen_loop].
  - simpl in Hs. rewrite Hs. simpl. zlen_simpl. lia.
  - destruct Hs as (-> & Hc & Hs). case_z; [congruence|]. rewrite (IH _ s) by auto.
    zlen_simpl. lia.
Qed.

Lemma strnlen_spec m a s count :
  cstr m a s -> 0 <= count -> strnlen m a count = Z.min (zlen s) count.
Proof. intros. unfold strnlen. rewrite (strnlen_loop_spec _ _ _ s) by auto. lia. Qed.

(** ** Copying strings *)

(** A forward copy of a string is right when the destination does not start
    inside the source (it may start before it). *)
Lemma strcpy_loop_spec fuel m d a s :
  cstr m a s -> (length s < fuel)%nat -> d <= a \/ a + zlen s < d ->
  exists m', strcpy_loop fuel m d a = Some m' /\ cstr m' d s
             /\ same_outside d (d + zlen s + 1) m m'.
Proof.
  revert m d a s. induction fuel as [|f IH]; intros m d a s Hs Hf Hd; [lia|].
  destruct s as [|c s]; simpl in *; zlen_simpl.
  - rewrite Hs. simpl. eexists; split; [reflexivity|]. split; [apply upd_eq|].
    apply same_outside_upd; [apply same_outside_refl|]. lia.
  - destruct Hs as (Hc & Hc0 & Hs). rewrite Hc. case_z; [congruence|].
    destruct (Z.eq_dec d a) as [->|Hne].
    + edestruct (IH (upd m a c) (a + 1) (a + 1) s) as (m' & E & C & O).
      { eapply cstr_ext; [|exact Hs]. intros. apply upd_ne. lia. }
      1-2: lia.
      exists m'. split; [exact E|]. split; [split; [|auto]|].
      * rewrite O by lia. apply upd_eq.
      * intros x Hx. rewrite O by lia. apply upd_ne. lia.
    + edestruct (IH (upd m d c) (d + 1) (a + 1) s) as (m' & E & C & O).
      { eapply cstr_ext; [|exact Hs]. intros. apply upd_ne. lia. }
      1-2: lia.
      exists m'. split; [exact E|]. split; [split; [|auto]|].
      * rewrite O by lia. apply upd_eq.
      * intros x Hx. rewrite O by lia. apply upd_ne. lia.
Qed.

Lemma strcat_spec fuel m d a s t :
  cstr m d t -> cstr m a s -> (length s < fuel)%nat -> (length t < fuel)%nat ->
  a + zlen s < d + zlen t \/ d + zlen t + zlen s < a ->
  exists m', strcat fuel m d a = Some (d, m') /\ cstr m' d (t ++ s)
             /\ same_outside (d + zlen t) (d + zlen t + zlen s + 1) m m'.
Proof.
  intros Ht Hs Hf1 Hf2 Hd. unfold strcat.
  rewrite (skip_to_nul_spec _ _ _ t) by auto.
  destruct (strcpy_loop_spec fuel m (d + zlen t) a s Hs Hf1) as (m' & -> & C & O).
  { zlen_simpl. lia. }
  exists m'. split; [reflexivity|]. split; [|exact O].
  apply cstr_app; [eapply cstr_nonzero; eauto| |exact C].
  eapply bytes_at_ext.
  - intros. apply O. lia.
  - apply cstr_bytes in Ht. apply bytes_at_app in Ht. tauto.
Qed.

(** ** Comparing *)

Lemma s8_diff_zero a b : is_u8 a -> is_u8 b -> s8 (a - b) = 0 <-> a = b.
Proof.
  unfold_words. intros Ha Hb. unfold s8, swrap, wrap. simpl (8 - 1).
  change (2 ^ 8) with 256 in *. change (2 ^ 7) with 128.
  split; intros H; case_z_in H; case_z; Z.div_mod_to_equations; lia.
Qed.

(** The comparison the loops compute: the signed 8-bit difference at the
    first mismatch of the terminated strings. *)
Fixpoint cmp_spec (s t : list Z) : Z :=
  match s, t with
  | [], [] => 0
  | [], d :: _ => s8 (0 - d)
  | c :: _, [] => s8 (c - 0)
  | c :: s', d :: t' => if c =? d then cmp_spec s' t' else s8 (c - d)
  end.

Lemma strcmp_cmp_spec fuel m a b s t :
  mem_ok m -> cstr m a s -> cstr m b t -> (length s < fuel)%nat ->
  strcmp fuel m a b = Some (cmp_spec s t).
Proof.
  intros Hm. revert a b s t. induction fuel as [|f IH]; intros a b s t Hs Ht Hf; [lia|].
  cbn [strcmp]. pose proof (s8_diff_zero _ _ (Hm a) (Hm b)) as Hz.
  destruct s as [|c s]; destruct t as [|d t]; simpl in Hs, Ht, Hf |- *.
  - rewrite Hs, Ht. reflexivity.
  - destruct Ht as (-> & Hd & Ht). rewrite Hs in *.
    rewrite orb_true_r. reflexivity.
  - destruct Hs as (Ec & Hc & Hs). rewrite Ec, Ht in *. case_z; try congruence.
    + exfalso. tauto.
    + reflexivity.
  - destruct Hs as (Ec & Hc & Hs), Ht as (Ed & Hd & Ht). rewrite Ec, Ed in *.
    case_z; try congruence; try (exfalso; tauto); simpl; try reflexivity.
    apply IH; auto. lia.
Qed.

Lemma strncmp_loop_spec n m a b s t :
  mem_ok m -> cstr m a s -> cstr m b t ->
  strncmp_loop n m a b = cmp_spec (take n s) (take n t).
Proof.
  intros Hm. revert a b s t. induction n as [|n IH]; intros a b s t Hs Ht; [reflexivity|].
  cbn [strncmp_loop]. pose proof (s8_diff_zero _ _ (Hm a) (Hm b)) as Hz.
  destruct s as [|c s]; destruct t as [|d t]; simpl in Hs, Ht |- *.
  - rewrite Hs, Ht. reflexivity.
  - destruct Ht as (-> & Hd & Ht). rewrite Hs in *. rewrite orb_true_r. reflexivity.
  - destruct Hs as (Ec & Hc & Hs). rewrite Ec, Ht in *. case_z; try congruence; [exfalso; tauto|].
    reflexivity.
  - destruct Hs as (Ec & Hc & Hs), Ht as (Ed & Hd & Ht). rewrite Ec, Ed in *.
    case_z; try congruence; try (exfalso; tauto); simpl; try reflexivity.
    apply IH; auto.
Qed.

Lemma cmp_spec_zero s t :
  Forall is_u8 s -> Forall is_u8 t -> Forall (fun c => c <> 0) s -> Forall (fun c => c <> 0) t ->
  cmp_spec s t = 0 <-> s = t.
Proof.
  assert (is_u8 0) as H0 by (unfold in_word; lia).
  revert t. induction s as [|c s IH]; intros [|d t] Hs Ht Ns Nt;
    inversion Hs; inversion Ht; inversion Ns; inversion Nt; subst; simpl.
  - tauto.
  - rewrite (s8_diff_zero 0 d) by auto. split; [congruence|discriminate].
  - rewrite (s8_diff_zero c 0) by auto. split; [congruence|discriminate].
  - case_z; [subst; rewrite IH by auto; split; congruence|].
    rewrite (s8_diff_zero c d) by auto. split; congruence.
Qed.

Lemma cstr_u8 m a s : mem_ok m -> cstr m a s -> Forall is_u8 s.
Proof.
  intros Hm. revert a. induction s as [|c s IH]; intros a; simpl; [constructor|].
  intros (<- & _ & H). constructor; eauto.
Qed.
#[export] Hint Resolve cstr_u8 : cmem.

Lemma memcmp_loop_zero n m a b :
  memcmp_loop n m a b = 0 <-> read_bytes m a n = read_bytes m b n.
Proof.
  revert a b. induction n as [|n IH]; intros a b; simpl; [tauto|].
  destruct (Z.eqb_spec (m a - m b) 0) as [E|E]; simpl.
  - rewrite IH. split; [intros ->; f_equal; lia|congruence].
  - split; [lia|]. intros H. inversion H. lia.
Qed.

(** ** Regions *)

(** A forward copy is right when the destination is not inside the source. *)
Lemma copy_up_spec n m d s :
  d <= s \/ s + Z.of_nat n <= d ->
  same_outside d (d + Z.of_nat n) m (copy_up n m d s) /\
  forall i, 0 <= i < Z.of_nat n -> copy_up n m d s (d + i) = m (s + i).
Proof.
  revert m d s. induction n as [|n IH]; intros m d s H; cbn [copy_up].
  - split; [apply same_outside_refl|]. intros; lia.
  - destruct (IH (upd m d (m s)) (d + 1) (s + 1)) as [O C]; [lia|]. split.
    + intros x Hx. rewrite O by lia. apply upd_ne. lia.
    + intros i Hi. destruct (Z.eq_dec i 0) as [->|Hi0].
      * rewrite !Z.add_0_r, O by lia. apply upd_eq.
      * replace (d + i) with (d + 1 + (i - 1)) by lia. rewrite C by lia.
        rewrite upd_ne by lia. f_equal. lia.
Qed.

Lemma copy_down_spec n m d s :
  s <= d \/ d + Z.of_nat n <= s ->
  same_outside (d - Z.of_nat n) d m (copy_down n m d s) /\
  forall i, 0 <= i < Z.of_nat n ->
    copy_down n m d s (d - Z.of_nat n + i) = m (s - Z.of_nat n + i).
Proof.
  revert m d s. induction n as [|n IH]; intros m d s H; cbn [copy_down].
  - split; [apply same_outside_refl|]. intros; lia.
  - destruct (IH (upd m (d - 1) (m (s - 1))) (d - 1) (s - 1)) as [O C]; [lia|]. split.
    + intros x Hx. rewrite O by lia. apply upd_ne. lia.
    + intros i Hi. destruct (Z.eq_dec i (Z.of_nat n)) as [->|Hin].
      * replace (d - Z.of_nat (S n) + Z.of_nat n) with (d - 1) by lia.
        rewrite O by lia. rewrite upd_eq. f_equal. lia.
      * replace (d - Z.of_nat (S n) + i) with (d - 1 - Z.of_nat n + i) by lia.
        rewrite C by lia. rewrite upd_ne by lia. f_equal. lia.
Qed.

Lemma copy_words_spec n m d s :
  mem_ok m -> d + Z.of_nat n <= s \/ s + Z.of_nat n <= d ->
  exists k m', copy_words n m d s = (m', d + Z.of_nat k, s + Z.of_nat k, (n - k)%nat)
    /\ (k <= n)%nat /\ mem_ok m'
    /\ same_outside d (d + Z.of_nat k) m m'
    /\ forall i, 0 <= i < Z.of_nat k -> m' (d + i) = m (s + i).
Proof.
  revert m d s. induction n as [n IH] using lt_wf_ind. intros m d s Hm H.
  destruct n as [|[|[|[|n]]]].
  1-4: exists O, m; cbn [copy_words]; rewrite !Z.add_0_r;
       split_and!; auto with cmem; intros; lia.
  cbn [copy_words].
  destruct (IH n ltac:(lia) (store32 m d (load32 m s)) (d + 4) (s + 4))
    as (k & m' & -> & Hk & Hm' & O & C); [apply store32_ok; auto|lia|].
  exists (4 + k)%nat, m'. split; [|split; [lia|split; [auto|split]]].
  - replace (S (S (S (S n))) - (4 + k))%nat with (n - k)%nat by lia.
    replace (d + Z.of_nat (4 + k)) with (d + 4 + Z.of_nat k) by lia.
    replace (s + Z.of_nat (4 + k)) with (s + 4 + Z.of_nat k) by lia. reflexivity.
  - intros x Hx. rewrite O by lia. apply store32_outside. lia.
  - intros i Hi. destruct (Z.lt_ge_cases i 4).
    + rewrite O by lia. apply store_load32; [auto|lia].
    + replace (d + i) with (d + 4 + (i - 4)) by lia. rewrite C by lia.
      rewrite store32_outside by lia. f_equal. lia.
Qed.

Lemma memset_word_bytes c :
  memset_word c = u8 c * 16777216 + u8 c * 65536 + u8 c * 256 + u8 c.
Proof.
  unfold memset_word. cbn [iter]. rewrite land_255.
  pose proof (u8_range c) as Hc. generalize dependent (u8 c). intros b Hc.
  assert (forall x, 0 <= x < 16777216 -> u32 (x .<< 8) .| b = x * 256 + b) as E.
  { intros x Hx. rewrite u32_small by (rewrite Z.shiftl_mul_pow2; lia).
    apply (lor_add_disjoint x b 8); lia. }
  rewrite (E 0), (E (0 * 256 + b)), (E ((0 * 256 + b) * 256 + b)) by lia.
  rewrite E by lia. lia.
Qed.

Lemma store32_memset m a c i : 0 <= i < 4 -> store32 m a (memset_word c) (a + i) = u8 c.
Proof.
  intros Hi. rewrite memset_word_bytes. pose proof (u8_range c) as Hc.
  generalize dependent (u8 c). intros b Hc.
  unfold store32, u8, wrap. rewrite !shiftr_div by lia.
  change (2 ^ 8) with 256. change (2 ^ 24) with 16777216. change (2 ^ 16) with 65536.
  assert (i = 0 \/ i = 1 \/ i = 2 \/ i = 3) as [->|[->|[->| ->]]] by lia.
  all: rewrite ?Z.add_0_r; upd_tac; Z.div_mod_to_equations; lia.
Qed.

Lemma memset_words_spec n m a c :
  exists k m', memset_words n m a (memset_word c) = (m', a + Z.of_nat k, (n - k)%nat)
    /\ (k <= n)%nat /\ same_outside a (a + Z.of_nat k) m m'
    /\ forall i, 0 <= i < Z.of_nat k -> m' (a + i) = u8 c.
Proof.
  revert m a. induction n as [n IH] using lt_wf_ind. intros m a.
  destruct n as [|[|[|[|n]]]].
  1-4: exists O, m; cbn [memset_words]; rewrite !Z.add_0_r;
       split_and!; auto with cmem; intros; lia.
  cbn [memset_words].
  destruct (IH n ltac:(lia) (store32 m a (memset_word c)) (a + 4)) as (k & m' & -> & Hk & O & C).
  exists (4 + k)%nat, m'. split; [|split; [lia|split]].
  - replace (S (S (S (S n))) - (4 + k))%nat with (n - k)%nat by lia.
    replace (a + Z.of_nat (4 + k)) with (a + 4 + Z.of_nat k) by lia. reflexivity.
  - intros x Hx. rewrite O by lia. apply store32_outside. lia.
  - intros i Hi. destruct (Z.lt_ge_cases i 4).
    + rewrite O by lia. apply store32_memset. lia.
    + replace (a + i) with (a + 4 + (i - 4)) by lia. apply C. lia.
Qed.

Lemma memset_bytes_spec n m a c :
  same_outside a (a + Z.of_nat n) m (memset_bytes n m a c) /\
  forall i, 0 <= i < Z.of_nat n -> memset_bytes n m a c (a + i) = u8 c.
Proof.
  revert m a. induction n as [|n IH]; intros m a; cbn [memset_bytes].
  - split; [apply same_outside_refl|]. intros; lia.
  - destruct (IH (upd m a (u8 c)) (a + 1)) as [O C]. split.
    + intros x Hx. rewrite O by lia. apply upd_ne. lia.
    + intros i Hi. destruct (Z.eq_dec i 0) as [->|].
      * rewrite Z.add_0_r, O by lia. apply upd_eq.
      * replace (a + i) with (a + 1 + (i - 1)) by lia. apply C. lia.
Qed.

(** ** Substrings *)

(** Reference search: the least offset at which [t] occurs in [s]. *)
Fixpoint find_sub (t s : list Z) : option nat :=
  if bool_decide (t `prefix_of` s) then Some O
  else match s with
       | [] => None
       | _ :: s' => match find_sub t s' with Some i => Some (S i) | None => None end
       end.

Lemma find_sub_spec t s :
  match find_sub t s with
  | Some i => t `prefix_of` drop i s /\ forall j, (j < i)%nat -> ~ t `prefix_of` drop j s
  | None => forall j, ~ t `prefix_of` drop j s
  end.
Proof.
  induction s as [|c s IH]; simpl; case_bool_decide as Hp.
  - split; [exact Hp|]. intros; lia.
  - intros j. destruct j; exact Hp.
  - split; [exact Hp|]. intros; lia.
  - destruct (find_sub t s) as [i|].
    + destruct IH as [H1 H2]. split; [exact H1|]. intros [|j] Hj; [exact Hp|]. apply H2. lia.
    + intros [|j]; [exact Hp|]. apply IH.
Qed.

Lemma prefix_zlen (t s : list Z) : t `prefix_of` s -> zlen t <= zlen s.
Proof. intros [k ->]. zlen_simpl. lia. Qed.

Lemma find_sub_long t s : zlen s < zlen t -> find_sub t s = None.
Proof.
  induction s as [|c s IH]; simpl; intros H; zlen_simpl; case_bool_decide as Hp;
    try (apply prefix_zlen in Hp; zlen_simpl; lia); auto.
  rewrite IH by lia. reflexivity.
Qed.

Lemma memcmp_prefix m a b s t :
  cstr m a s -> cstr m b t -> zlen t <= zlen s ->
  memcmp m a b (zlen t) = 0 <-> t `prefix_of` s.
Proof.
  intros Hs Ht Hl. unfold memcmp. rewrite memcmp_loop_zero.
  replace (Z.to_nat (zlen t)) with (length t) by (unfold zlen; lia).
  assert (read_bytes m b (length t) = t) as ->.
  { apply read_bytes_at. apply cstr_bytes in Ht. apply bytes_at_app in Ht. tauto. }
  assert (read_bytes m a (length t) = take (length t) s) as ->.
  { replace (length t) with (length (take (length t) s)) at 1
      by (rewrite length_take; unfold zlen in Hl; lia).
    apply read_bytes_at. apply cstr_bytes in Hs.
    rewrite <- (take_drop (length t) s) in Hs. rewrite <- app_assoc in Hs.
    apply bytes_at_app in Hs. tauto. }
  split.
  - intros <-. exists (drop (length t) s). symmetry. apply take_drop.
  - intros [k ->]. rewrite take_app_length. reflexivity.
Qed.

Lemma strstr_loop_spec fuel m a b s t :
  cstr m a s -> cstr m b t -> 0 < zlen t -> (length s < fuel)%nat ->
  strstr_loop fuel m a b (zlen s) (zlen t) =
  Some (match find_sub t s with Some i => a + Z.of_nat i | None => NULL end).
Proof.
  revert a s. induction fuel as [|f IH]; intros a s Hs Ht Hp Hf; [lia|].
  cbn [strstr_loop]. destruct (Z.leb_spec (zlen t) (zlen s)) as [Hl|Hl].
  - pose proof (memcmp_prefix _ _ _ _ _ Hs Ht Hl) as Hm.
    destruct s as [|c s]; [zlen_simpl; lia|]. simpl.
    case_bool_decide as Hpre.
    + apply Hm in Hpre. rewrite Hpre. simpl. f_equal. lia.
    + destruct (Z.eqb_spec (memcmp m a b (zlen t)) 0); [tauto|].
      destruct Hs as (_ & _ & Hs). zlen_simpl. simpl in Hf.
      replace (zlen s + 1 - 1) with (zlen s) by lia.
      rewrite IH by (auto; lia). f_equal. destruct (find_sub t s); [lia|reflexivity].
  - rewrite find_sub_long by auto. reflexivity.
Qed.

(** A move leaves the source's old bytes at the destination. *)
Definition moved (dest src count : Z) (m m' : mem) : Prop :=
  (forall i, 0 <= i < count -> m' (dest + i) = m (src + i)) /\ same_outside dest (dest + count) m m'.

Lemma memmove_spec m dest src count : 0 <= count -> moved dest src count m (memmove m dest src count).2.
Proof.
  intros Hc. unfold memmove. simpl. destruct (Z.leb_spec dest src) as [H|H].
  - destruct (copy_up_spec (Z.to_nat count) m dest src) as [O C]; [lia|].
    rewrite Z2Nat.id in * by lia. split; assumption.
  - destruct (copy_down_spec (Z.to_nat count) m (dest + count) (src + count)) as [O C]; [lia|].
    rewrite !Z2Nat.id in * by lia. rewrite !Z.add_simpl_r in *. split; assumption.
Qed.

(** * Main results *)

(** [memmove] copies any two regions, overlapping or not: the destination
    receives the original source bytes and no other byte changes. *)
Theorem memmove_correct m dest src count :
  0 <= count ->
  let m' := (memmove m dest src count).2 in
  (forall i, 0 <= i < count -> m' (dest + i) = m (src + i)) /\
  same_outside dest (dest + count) m m'.
Proof. exact (memmove_spec m dest src count). Qed.

Definition ex_mem : mem := put_bytes (fun _ => 0) 100 (str "abcdefgh").

Lemma memmove_correct_witness :
  let m' := (memmove ex_mem 103 100 5).2 in
  (forall i, 0 <= i < 5 -> m' (103 + i) = ex_mem (100 + i)) /\
  same_outside 103 108 ex_mem m'.
Proof. apply (memmove_correct ex_mem 103 100 5). lia. Defined.

(** [memcpy], which copies a word at a time when both pointers are aligned
    and a byte at a time otherwise, copies disjoint regions exactly. *)
Theorem memcpy_correct m dest src count :
  mem_ok m -> 0 <= count -> dest + count <= src \/ src + count <= dest ->
  let m' := (memcpy m dest src count).2 in
  (forall i, 0 <= i < count -> m' (dest + i) = m (src + i)) /\
  same_outside dest (dest + count) m m'.
Proof.
  intros Hm Hc Hd. unfold memcpy.
  assert (exists k m1,
    (if (dest .| src) .& 3 =? 0 then copy_words (Z.to_nat count) m dest src
     else (m, dest, src, Z.to_nat count))
      = (m1, dest + Z.of_nat k, src + Z.of_nat k, (Z.to_nat count - k)%nat)
    /\ (k <= Z.to_nat count)%nat /\ same_outside dest (dest + Z.of_nat k) m m1
    /\ forall i, 0 <= i < Z.of_nat k -> m1 (dest + i) = m (src + i))
    as (k & m1 & -> & Hk & O1 & C1).
  { case_match.
    - destruct (copy_words_spec (Z.to_nat count) m dest src) as (k & m1 & E & ? & ? & ? & ?);
        [auto|lia|]. eauto 10.
    - exists O, m. rewrite !Z.add_0_r, Nat.sub_0_r. split_and!; auto with cmem; intros; lia. }
  simpl.
  destruct (copy_up_spec (Z.to_nat count - k) m1 (dest + Z.of_nat k) (src + Z.of_nat k))
    as [O2 C2]; [lia|].
  split.
  - intros i Hi. destruct (Z.lt_ge_cases i (Z.of_nat k)).
    + rewrite O2 by lia. apply C1. lia.
    + replace (dest + i) with (dest + Z.of_nat k + (i - Z.of_nat k)) by lia.
      rewrite C2 by lia. rewrite O1 by lia. f_equal. lia.
  - intros x Hx. rewrite O2 by lia. apply O1. lia.
Qed.

Lemma ex_mem_ok : mem_ok ex_mem.
Proof.
  unfold ex_mem. simpl. repeat apply upd_ok; try (unfold in_word; lia).
  intros a. unfold in_word. lia.
Qed.

Lemma memcpy_correct_witness :
  let m' := (memcpy ex_mem 200 100 7).2 in
  (forall i, 0 <= i < 7 -> m' (200 + i) = ex_mem (100 + i)) /\
  same_outside 200 207 ex_mem m'.
Proof. apply (memcpy_correct ex_mem 200 100 7); [apply ex_mem_ok|lia|lia]. Defined.

(** [memset] fills the region, whatever its alignment. *)
Lemma memset_correct m s c count :
  0 <= count ->
  let m' := (memset m s c count).2 in
  (forall i, 0 <= i < count -> m' (s + i) = u8 c) /\ same_outside s (s + count) m m'.
Proof.
  intros Hc. unfold memset.
  assert (exists k m1,
    (if s .& 3 =? 0 then memset_words (Z.to_nat count) m s (memset_word c)
     else (m, s, Z.to_nat count)) = (m1, s + Z.of_nat k, (Z.to_nat count - k)%nat)
    /\ (k <= Z.to_nat count)%nat /\ same_outside s (s + Z.of_nat k) m m1
    /\ forall i, 0 <= i < Z.of_nat k -> m1 (s + i) = u8 c) as (k & m1 & -> & Hk & O1 & C1).
  { case_match; [apply memset_words_spec|].
    exists O, m. rewrite !Z.add_0_r, Nat.sub_0_r. split_and!; auto with cmem; intros; lia. }
  simpl. destruct (memset_bytes_spec (Z.to_nat count - k) m1 (s + Z.of_nat k) c) as [O2 C2].
  split.
  - intros i Hi. destruct (Z.lt_ge_cases i (Z.of_nat k)).
    + rewrite O2 by lia. apply C1. lia.
    + replace (s + i) with (s + Z.of_nat k + (i - Z.of_nat k)) by lia. apply C2. lia.
  - intros x Hx. rewrite O2 by lia. apply O1. lia.
Qed.

(** On terminated strings [strcmp] terminates and returns 0 exactly when
    the strings are equal, although it computes the difference in a signed
    char. *)
Theorem strcmp_zero_iff fuel m a b s t :
  mem_ok m -> cstr m a s -> cstr m b t -> (length s < fuel)%nat ->
  exists r, strcmp fuel m a b = Some r /\ (r = 0 <-> s = t).
Proof.
  intros Hm Hs Ht Hf. exists (cmp_spec s t). split; [apply strcmp_cmp_spec; auto|].
  apply cmp_spec_zero; eauto with cmem.
Qed.

(** [strstr] terminates and returns the address of the first occurrence of
    the second string in the first, or NULL when there is none. *)
Theorem strstr_first fuel m a b s t :
  cstr m a s -> cstr m b t -> (length s < fuel)%nat -> (length t < fuel)%nat ->
  strstr fuel m a b = Some NULL /\ (forall j, ~ t `prefix_of` drop j s) \/
  exists i, strstr fuel m a b = Some (a + Z.of_nat i)
    /\ t `prefix_of` drop i s /\ (forall j, (j < i)%nat -> ~ t `prefix_of` drop j s).
Proof.
  intros Hs Ht Hf1 Hf2. unfold strstr. rewrite (strlen_spec _ _ _ t) by auto.
  pose proof (find_sub_spec t s) as Hsub. destruct (Z.eqb_spec (zlen t) 0) as [E|E].
  - destruct t as [|d t]; [|zlen_simpl; lia]. right. exists O. split; [f_equal; lia|].
    split; [exists s; reflexivity|intros; lia].
  - rewrite (strlen_spec _ _ _ s) by auto.
    rewrite strstr_loop_spec by (auto; zlen_simpl; lia).
    destruct (find_sub t s) as [i|]; [right; eauto|left; auto].
Qed.

Definition ex_strings : mem :=
  put_bytes (put_bytes (fun _ => 0) 16 (str "V-BAB750-X")) 64 (str "75").

Lemma ex_cstr1 : cstr ex_strings 16 (str "V-BAB750-X").
Proof. cbv. intuition discriminate. Qed.
Lemma ex_cstr2 : cstr ex_strings 64 (str "75").
Proof. cbv. intuition discriminate. Qed.
Lemma ex_strings_ok : mem_ok ex_strings.
Proof.
  unfold ex_strings. simpl. repeat apply upd_ok; try (unfold in_word; lia).
  intros a. unfold in_word. lia.
Qed.

Lemma strstr_first_witness :
  strstr 20 ex_strings 16 64 = Some 21 /\
  (strstr 20 ex_strings 16 64 = Some NULL /\
     (forall j, ~ str "75" `prefix_of` drop j (str "V-BAB750-X")) \/
   exists i, strstr 20 ex_strings 16 64 = Some (16 + Z.of_nat i)
    /\ str "75" `prefix_of` drop i (str "V-BAB750-X")
    /\ (forall j, (j < i)%nat -> ~ str "75" `prefix_of` drop j (str "V-BAB750-X"))).
Proof.
  split; [vm_compute; reflexivity|].
  apply (strstr_first 20 ex_strings 16 64 _ _ ex_cstr1 ex_cstr2); simpl; lia.
Defined.

Lemma strcmp_zero_iff_witness :
  exists r, strcmp 20 ex_strings 16 64 = Some r
    /\ (r = 0 <-> str "V-BAB750-X" = str "75").
Proof.
  apply (strcmp_zero_iff 20 ex_strings 16 64 _ _ ex_strings_ok ex_cstr1 ex_cstr2). simpl. lia.
Defined.

(** The sign of [strcmp] is that of the difference in a signed char: a byte
    that is 128 above the other compares below it. *)
Lemma strcmp_sign_wraps :
  let m := put_bytes (fun _ => 0) 16 [200] in strcmp 4 m 16 32 = Some (-56).
Proof. vm_compute. reflexivity. Qed.
