(* ===== verification/Strto.v ===== *)
(** * Character classes and number parsing

    lib/ctype.c with include/linux/ctype.h, the strto* family of
    lib/vsprintf.c and [string_to_ip] of lib/net_utils.c.

    A [const char *] cursor into a NUL-terminated string is the list of the
    bytes left before the NUL: [*cp] is the head (0 at the end), [cp + 1] the
    tail, and an [endp] result is the list that is left. *)

From S2P Require Import Prelude CMem.

(** ** ctype *)

Definition _U : Z := 1.
Definition _L : Z := 2.
Definition _D : Z := 4.
Definition _C : Z := 8.
Definition _P : Z := 16.
Definition _S : Z := 32.
Definition _X : Z := 64.
Definition _SP : Z := 128.

Definition _ctype : list Z :=
  [_C; _C; _C; _C; _C; _C; _C; _C;
   _C; _C .| _S; _C .| _S; _C .| _S; _C .| _S; _C .| _S; _C; _C;
   _C; _C; _C; _C; _C; _C; _C; _C;
   _C; _C; _C; _C; _C; _C; _C; _C;
   _S .| _SP; _P; _P; _P; _P; _P; _P; _P;
   _P; _P; _P; _P; _P; _P; _P; _P;
   _D; _D; _D; _D; _D; _D; _D; _D;
   _D; _D; _P; _P; _P; _P; _P; _P;
   _P; _U .| _X; _U .| _X; _U .| _X; _U .| _X; _U .| _X; _U .| _X; _U;
   _U; _U; _U; _U; _U; _U; _U; _U;
   _U; _U; _U; _U; _U; _U; _U; _U;
   _U; _U; _U; _P; _P; _P; _P; _P;
   _P; _L .| _X; _L .| _X; _L .| _X; _L .| _X; _L .| _X; _L .| _X; _L;
   _L; _L; _L; _L; _L; _L; _L; _L;
   _L; _L; _L; _L; _L; _L; _L; _L;
   _L; _L; _L; _P; _P; _P; _P; _C]
  ++ repeat 0 32
  ++ [_S .| _SP; _P; _P; _P; _P; _P; _P; _P; _P; _P; _P; _P; _P; _P; _P; _P;
      _P; _P; _P; _P; _P; _P; _P; _P; _P; _P; _P; _P; _P; _P; _P; _P;
      _U; _U; _U; _U; _U; _U; _U; _U; _U; _U; _U; _U; _U; _U; _U; _U;
      _U; _U; _U; _U; _U; _U; _U; _P; _U; _U; _U; _U; _U; _U; _U; _L;
      _L; _L; _L; _L; _L; _L; _L; _L; _L; _L; _L; _L; _L; _L; _L; _L;
      _L; _L; _L; _L; _L; _L; _L; _P; _L; _L; _L; _L; _L; _L; _L; _L].

Definition ismask (x : Z) : Z := nth (Z.to_nat (u8 x)) _ctype 0.
Definition isalnum (c : Z) : bool := negb (ismask c .& (_U .| _L .| _D) =? 0).
Definition isdigit (c : Z) : bool := negb (ismask c .& _D =? 0).
Definition islower (c : Z) : bool := negb (ismask c .& _L =? 0).
Definition isupper (c : Z) : bool := negb (ismask c .& _U =? 0).
Definition isxdigit (c : Z) : bool := negb (ismask c .& (_D .| _X) =? 0).
Definition isspace (c : Z) : bool := negb (ismask c .& _S =? 0).

Definition tolower (c : Z) : Z := if isupper c then u8 (c + 32) else c.
Definition toupper (c : Z) : Z := if islower c then u8 (c - 32) else c.

(** ** strto* *)

(** [*cp] *)
Definition cur (s : list Z) : Z := hd 0 s.

(** The digit expression of the loop condition. *)
Definition digit_value (c : Z) : Z :=
  if isdigit c then c - chr "0"
  else (if islower c then toupper c else c) - chr "A" + 10.

Fixpoint strtoul_loop (w : Z) (s : list Z) (base result : Z) : Z * list Z :=
  match s with
  | [] => (result, [])
  | c :: s' =>
      if isxdigit c && (wrap w (digit_value c) <? base)
      then strtoul_loop w s' base (wrap w (result * base + wrap w (digit_value c)))
      else (result, s)
  end.

(** The prefix handling: "0x" forces base 16, a leading "0" makes base 0 octal. *)
Definition strto_prefix (cp : list Z) (base : Z) : list Z * Z :=
  let '(cp, base) :=
    if cur cp =? chr "0" then
      let cp := tl cp in
      let '(cp, base) :=
        if (cur cp =? chr "x") && isxdigit (nth 1 cp 0) then (tl cp, 16) else (cp, base) in
      (cp, if base =? 0 then 8 else base)
    else (cp, base) in
  (cp, if base =? 0 then 10 else base).

Definition simple_strtoul (cp : list Z) (base : Z) : Z * list Z :=
  let '(cp, base) := strto_prefix cp base in strtoul_loop 32 cp base 0.

Definition simple_strtoull (cp : list Z) (base : Z) : Z * list Z :=
  let '(cp, base) := strto_prefix cp base in strtoul_loop 64 cp base 0.

Definition simple_strtol (cp : list Z) (base : Z) : Z * list Z :=
  if cur cp =? chr "-" then
    let '(v, e) := simple_strtoul (tl cp) base in (s32 (u32 (- v)), e)
  else
    let '(v, e) := simple_strtoul cp base in (s32 v, e).

(** The suffixes fall through: G multiplies three times, M twice, K and k once,
    and an "i" or "iB" behind them is consumed.  [*endp] itself stays on the
    letter when no "i" follows. *)
Definition ustrtoul (cp : list Z) (base : Z) : Z * list Z :=
  let '(result, endp) := simple_strtoul cp base in
  let kilo r := u32 (r * 1024) in
  let tail r :=
    (s32 r,
     if nth 1 endp 0 =? chr "i" then
       if nth 2 endp 0 =? chr "B" then drop 3 endp else drop 2 endp
     else endp) in
  let c := cur endp in
  if c =? chr "G" then tail (kilo (kilo (kilo result)))
  else if c =? chr "M" then tail (kilo (kilo result))
  else if (c =? chr "K") || (c =? chr "k") then tail (kilo result)
  else (s32 result, endp).

(** [string_to_ip]: four fields, each followed by one skipped character; the
    result is in network order, which is the native order of the big-endian
    PowerPC.  [None] is the NULL pointer. *)
Definition ip_field (st : Z * list Z) : Z * list Z :=
  let '(addr, s) := st in
  let '(val, e) := simple_strtoul s 10 in
  (u32 (addr .<< 8) .| (val .& 255), match e with [] => [] | _ :: e' => e' end).

Definition string_to_ip (s : option (list Z)) : Z :=
  match s with
  | None => 0
  | Some s => (iter 4 ip_field (0, s)).1
  end.

(** * Properties *)

(** ** Character classes *)

Lemma isdigit_iff c : 0 <= c < 256 -> isdigit c = true <-> 48 <= c <= 57.
Proof.
  intros H. assert (isdigit c = (48 <=? c) && (c <=? 57)) as ->; [|lia].
  apply Bool.eqb_prop.
  exact (forall_below_spec 256 (fun c => Bool.eqb (isdigit c) ((48 <=? c) && (c <=? 57)))
           eq_refl c H).
Qed.

Lemma isxdigit_iff c :
  0 <= c < 256 ->
  isxdigit c = true <-> 48 <= c <= 57 \/ 65 <= c <= 70 \/ 97 <= c <= 102.
Proof.
  intros H.
  assert (isxdigit c = (48 <=? c) && (c <=? 57) || (65 <=? c) && (c <=? 70)
                       || (97 <=? c) && (c <=? 102)) as ->; [|lia].
  apply Bool.eqb_prop.
  exact (forall_below_spec 256 (fun c => Bool.eqb (isxdigit c)
    ((48 <=? c) && (c <=? 57) || (65 <=? c) && (c <=? 70) || (97 <=? c) && (c <=? 102)))
    eq_refl c H).
Qed.

(** A hexadecimal digit has its usual value, in either case. *)
Lemma digit_value_spec c :
  0 <= c < 256 -> isxdigit c = true ->
  digit_value c = (if c <=? 57 then c - 48 else if c <=? 70 then c - 55 else c - 87)
  /\ 0 <= digit_value c < 16.
Proof.
  intros H Hx.
  pose proof (forall_below_spec 256 (fun c => negb (isxdigit c) ||
    ((digit_value c =? (if c <=? 57 then c - 48 else if c <=? 70 then c - 55 else c - 87))
     && (0 <=? digit_value c) && (digit_value c <? 16))) eq_refl c H) as E.
  cbv beta in E. rewrite Hx in E. cbn [negb orb] in E. lia.
Qed.

Lemma toupper_tolower_ascii c : 0 <= c < 128 -> toupper (tolower (toupper c)) = toupper c.
Proof.
  intros H. apply Z.eqb_eq.
  exact (forall_below_spec 128 (fun c => toupper (tolower (toupper c)) =? toupper c) eq_refl c H).
Qed.

(** ** Reading a run of digits *)

Definition digit_of (base c : Z) : Prop :=
  0 <= c < 256 /\ isxdigit c = true /\ digit_value c < base.

Definition horner (base : Z) (ds : list Z) (r : Z) : Z :=
  fold_left (fun a c => a * base + digit_value c) ds r.

(** The text left does not continue the number. *)
Definition stops (base : Z) (rest : list Z) : Prop :=
  isxdigit (cur rest) = false \/ base <= digit_value (cur rest).

Lemma horner_app base ds ds' r : horner base (ds ++ ds') r = horner base ds' (horner base ds r).
Proof. apply fold_left_app. Qed.

Lemma wrap_affine w a base d : 0 <= w -> wrap w (wrap w a * base + d) = wrap w (a * base + d).
Proof.
  intros. unfold wrap. rewrite <- (Z.add_mod_idemp_l (a * base)), <- (Z.mul_mod_idemp_l a) by lia.
  rewrite Z.add_mod_idemp_l by lia. reflexivity.
Qed.

Lemma strtoul_loop_stops w base rest r :
  4 <= w -> Forall is_u8 rest -> stops base rest -> strtoul_loop w rest base r = (r, rest).
Proof.
  intros Hw Hr Hs. destruct rest as [|c rest]; [reflexivity|]. simpl.
  inversion Hr; subst. unfold stops in Hs. simpl in Hs.
  destruct (isxdigit c) eqn:E; [|reflexivity]. destruct Hs as [Hs|Hs]; [congruence|].
  pose proof (digit_value_spec c ltac:(assumption) E) as [_ Hd].
  rewrite (wrap_small w) by (unfold in_word; pose proof (Z.pow_le_mono_r 2 4 w); lia).
  destruct (Z.ltb_spec (digit_value c) base); [lia|reflexivity].
Qed.

Lemma strtoul_loop_spec w base ds rest r :
  4 <= w -> Forall (digit_of base) ds -> Forall is_u8 rest -> stops base rest ->
  strtoul_loop w (ds ++ rest) base (wrap w r) = (wrap w (horner base ds r), rest).
Proof.
  intros Hw Hd Hr Hs. revert r. induction ds as [|c ds IH]; intros r; simpl.
  - apply strtoul_loop_stops; auto.
  - inversion Hd as [|? ? (Hc & Hx & Hb)]; subst. rewrite Hx. simpl.
    pose proof (digit_value_spec c Hc Hx) as [_ Hv].
    rewrite (wrap_small w (digit_value c))
      by (unfold in_word; pose proof (Z.pow_le_mono_r 2 4 w); lia).
    destruct (Z.ltb_spec (digit_value c) base); [|lia].
    rewrite wrap_affine by lia. apply IH. assumption.
Qed.

Lemma digit_not_x base c : digit_of base c -> c <> chr "x".
Proof. intros (_ & H & _) ->. vm_compute in H. discriminate. Qed.

(** A number in base 8, 10 or 16 whose text does not look like a "0x" prefix. *)
Lemma simple_strto_digits w base ds rest :
  4 <= w -> 0 < base -> ds <> [] -> Forall (digit_of base) ds -> Forall is_u8 rest ->
  stops base rest -> cur rest <> chr "x" ->
  (let '(cp, base) := strto_prefix (ds ++ rest) base in strtoul_loop w cp base 0)
  = (wrap w (horner base ds 0), rest).
Proof.
  intros Hw Hbase Hne Hd Hr Hs Hx. destruct ds as [|c ds]; [congruence|].
  inversion Hd as [|? ? Hc Hds]; subst.
  unfold strto_prefix. simpl cur.
  destruct (Z.eqb_spec c (chr "0")) as [->|Hc0].
  - simpl tl. assert ((cur (ds ++ rest) =? chr "x") = false) as ->.
    { apply Z.eqb_neq. destruct ds as [|d ds]; [exact Hx|].
      inversion Hds; subst. eapply digit_not_x; eauto. }
    simpl. destruct (Z.eqb_spec base 0); [lia|]. destruct (Z.eqb_spec base 0); [lia|].
    change 0 with (wrap w 0) at 1. rewrite strtoul_loop_spec by auto. reflexivity.
  - destruct (Z.eqb_spec base 0); [lia|].
    change (c :: ds ++ rest) with ((c :: ds) ++ rest).
    change 0 with (wrap w 0) at 1. rewrite strtoul_loop_spec by auto. reflexivity.
Qed.

(** Decimal text read by the 32-bit parser. *)
Lemma simple_strtoul_dec ds rest :
  ds <> [] -> Forall (digit_of 10) ds -> Forall is_u8 rest ->
  stops 10 rest -> cur rest <> chr "x" ->
  simple_strtoul (ds ++ rest) 10 = (horner 10 ds 0 mod 2 ^ 32, rest).
Proof. intros. apply (simple_strto_digits 32); auto; lia. Qed.

(** [simple_strtoul] in base 10 consumes exactly the leading run of decimal
    digits and returns its value modulo 2^32 (the wrap-around of unsigned
    long), leaving [endp] on the first character behind it. *)
Theorem simple_strtoul_decimal ds rest :
  ds <> [] -> Forall (digit_of 10) ds -> Forall is_u8 rest ->
  stops 10 rest -> cur rest <> chr "x" ->
  simple_strtoul (ds ++ rest) 10 = (horner 10 ds 0 mod 2 ^ 32, rest).
Proof. apply simple_strtoul_dec. Qed.

Lemma simple_strtoul_decimal_witness :
  simple_strtoul (str "4294967299" ++ str " ;boot") 10
    = (horner 10 (str "4294967299") 0 mod 2 ^ 32, str " ;boot") /\
  simple_strtoul (str "4294967299 ;boot") 10 = (3, str " ;boot").
Proof.
  split; [|vm_compute; reflexivity].
  apply simple_strtoul_decimal; [discriminate| | |left; reflexivity|discriminate].
  - repeat constructor; vm_compute; (reflexivity || discriminate).
  - repeat constructor; vm_compute; (reflexivity || discriminate).
Defined.

(** The same run read by the 64-bit parser wraps at 2^64. *)
Lemma simple_strtoull_decimal ds rest :
  ds <> [] -> Forall (digit_of 10) ds -> Forall is_u8 rest ->
  stops 10 rest -> cur rest <> chr "x" ->
  simple_strtoull (ds ++ rest) 10 = (horner 10 ds 0 mod 2 ^ 64, rest).
Proof. intros. apply (simple_strto_digits 64); auto; lia. Qed.
