(* ===== verification/Vsprintf.v ===== *)
(** * Formatted printing (lib/vsprintf.c, lib/div64.c, include/div64.h)

    A routine that writes characters through a [char *] returns the list of
    the characters it writes; the argument list of [vsprintf] is a list of
    typed arguments, and a conversion that would fetch an argument of the
    wrong type is stuck ([None]).  Loops that shift or divide take the fuel
    given at their call; the lemmas show that it is never exhausted. *)

From S2P Require Import Prelude CMem Strto.

(** ** 64-bit division *)

Definition s64 (x : Z) : Z := swrap 64 x.

(** while ((int64_t)b > 0 && b < rem) { b = b+b; d = d+d; } *)
Fixpoint div64_scale (fuel : nat) (rem b d : Z) : Z * Z :=
  match fuel with
  | O => (b, d)
  | S f =>
      if (0 <? s64 b) && (b <? rem) then div64_scale f rem (u64 (b + b)) (u64 (d + d))
      else (b, d)
  end.

(** do { if (rem >= b) { rem -= b; res += d; } b >>= 1; d >>= 1; } while (d); *)
Fixpoint div64_reduce (fuel : nat) (rem b d res : Z) : Z * Z :=
  match fuel with
  | O => (res, rem)
  | S f =>
      let '(rem, res) := if b <=? rem then (rem - b, u64 (res + d)) else (rem, res) in
      let b := b .>> 1 in
      let d := d .>> 1 in
      if d =? 0 then (res, rem) else div64_reduce f rem b d res
  end.

(** Returns the quotient left in [*n] and the remainder. *)
Definition __div64_32 (n base : Z) : Z * Z :=
  let rem := n in
  let high := u32 (rem .>> 32) in
  let '(high, res, rem) :=
    if base <=? high then
      let h := high / base in
      (h, u64 (h .<< 32), u64 (rem - u64 (u32 (h * base) .<< 32)))
    else (high, 0, rem) in
  let '(b, d) := div64_scale 64 rem base 1 in
  let '(res, rem) := div64_reduce 65 rem b d res in
  (res, u32 rem).

Definition do_div (n base : Z) : Z * Z :=
  if n .>> 32 =? 0 then (n / base, n mod base) else __div64_32 n base.

(** ** Digits *)

Definition hex_asc : list Z := str "0123456789abcdef".
Definition hex_asc_lo (x : Z) : Z := nth (Z.to_nat (x .& 15)) hex_asc 0.
Definition hex_asc_hi (x : Z) : Z := nth (Z.to_nat ((x .& 240) .>> 4)) hex_asc 0.
Definition pack_hex_byte (byte : Z) : list Z := [hex_asc_hi byte; hex_asc_lo byte].

(** Up to five digits of [q], least significant first. *)
Definition put_dec_trunc (q : Z) : list Z :=
  let d1 := (q .>> 4) .& 15 in
  let d2 := (q .>> 8) .& 15 in
  let d3 := q .>> 12 in
  let d0 := u32 (6 * (d3 + d2 + d1) + (q .& 15)) in
  let q := u32 (d0 * 205) .>> 11 in
  let d0 := d0 - 10 * q in
  (d0 + 48) ::
  let d1 := u32 (q + 9 * d3 + 5 * d2 + d1) in
  if d1 =? 0 then []
  else
    let q := u32 (d1 * 205) .>> 11 in
    let d1 := d1 - 10 * q in
    (d1 + 48) ::
    let d2 := u32 (q + 2 * d2) in
    if (d2 =? 0) && (d3 =? 0) then []
    else
      let q := u32 (d2 * 13) .>> 7 in
      let d2 := d2 - 10 * q in
      (d2 + 48) ::
      let d3 := u32 (q + 4 * d3) in
      if d3 =? 0 then []
      else
        let q := u32 (d3 * 205) .>> 11 in
        let d3 := d3 - 10 * q in
        (d3 + 48) :: if q =? 0 then [] else [q + 48].

(** Always five digits. *)
Definition put_dec_full (q : Z) : list Z :=
  let d1 := (q .>> 4) .& 15 in
  let d2 := (q .>> 8) .& 15 in
  let d3 := q .>> 12 in
  let d0 := u32 (6 * (d3 + d2 + d1) + (q .& 15)) in
  let q := u32 (d0 * 205) .>> 11 in
  let c0 := d0 - 10 * q + 48 in
  let d1 := u32 (q + 9 * d3 + 5 * d2 + d1) in
  let q := u32 (d1 * 205) .>> 11 in
  let c1 := d1 - 10 * q + 48 in
  let d2 := u32 (q + 2 * d2) in
  let q := u32 (d2 * 13) .>> 7 in
  let c2 := d2 - 10 * q + 48 in
  let d3 := u32 (q + 4 * d3) in
  let q := u32 (d3 * 205) .>> 11 in
  let c3 := d3 - 10 * q + 48 in
  [c0; c1; c2; c3; q + 48].

Fixpoint put_dec (fuel : nat) (num : Z) : list Z :=
  match fuel with
  | O => []
  | S f =>
      if num <? 100000 then put_dec_trunc (u32 num)
      else let '(num', rem) := do_div num 100000 in
           put_dec_full rem ++ put_dec f num'
  end.

(** ** number() *)

Definition ZEROPAD : Z := 1.
Definition SIGN : Z := 2.
Definition PLUS : Z := 4.
Definition SPACE : Z := 8.
Definition LEFT : Z := 16.
Definition SMALL : Z := 32.
Definition SPECIAL : Z := 64.
Definition flag (type f : Z) : bool := negb (type .& f =? 0).

Definition digits : list Z := str "0123456789ABCDEF".

(** do { tmp[i++] = digits[num & mask] | locase; num >>= shift; } while (num); *)
Fixpoint put_pow2 (fuel : nat) (num mask shift locase : Z) : list Z :=
  match fuel with
  | O => []
  | S f =>
      (nth (Z.to_nat (u8 num .& mask)) digits 0 .| locase) ::
      let num := num .>> shift in
      if num =? 0 then [] else put_pow2 f num mask shift locase
  end.

(** while (--size >= 0) *buf++ = c;  with the value [size] is left with *)
Definition pad (size c : Z) : list Z * Z :=
  (repeat c (Z.to_nat size), if 0 <=? size then -1 else size - 1).

(** The digits of [num] in tmp[], in reverse order. *)
Definition number_digits (num base locase : Z) : list Z :=
  if num =? 0 then [chr "0"]
  else if negb (base =? 10) then
    put_pow2 64 num (base - 1) (if base =? 16 then 4 else 3) locase
  else put_dec 64 num.

(** The sign character (0 for none), the magnitude and the field width left. *)
Definition number_sign (num size type : Z) : Z * Z * Z :=
  if flag type SIGN then
    if s64 num <? 0 then (chr "-", u64 (- s64 num), size - 1)
    else if flag type PLUS then (chr "+", num, size - 1)
    else if flag type SPACE then (chr " ", num, size - 1)
    else (0, num, size)
  else (0, num, size).

Definition number (num base size precision type : Z) : list Z :=
  let need_pfx := flag type SPECIAL && negb (base =? 10) in
  let locase := type .& SMALL in
  let type := if flag type LEFT then type .& Z.lnot ZEROPAD else type in
  let '(sign, num, size) := number_sign num size type in
  let size := if need_pfx then (if base =? 16 then size - 2 else size - 1) else size in
  let tmp := number_digits num base locase in
  let i := zlen tmp in
  let precision := if precision <? i then i else precision in
  let size := size - precision in
  let '(lead, size) :=
    if flag type (ZEROPAD + LEFT) then ([], size) else pad size (chr " ") in
  let pfx :=
    if need_pfx then chr "0" :: (if base =? 16 then [chr "X" .| locase] else []) else [] in
  let '(fill, size) :=
    if flag type LEFT then ([], size)
    else pad size (if flag type ZEROPAD then chr "0" else chr " ") in
  lead ++ (if sign =? 0 then [] else [sign]) ++ pfx ++ fill
  ++ repeat (chr "0") (Z.to_nat (precision - i)) ++ rev tmp
  ++ (pad size (chr " ")).1.

(** ** string() and the %p family *)

Definition string (s : option (list Z)) (field_width precision flags : Z) : list Z :=
  let s := match s with None => str "<NULL>" | Some s => s end in
  let len := if precision <? 0 then zlen s else Z.min (zlen s) precision in
  let spaces := repeat (chr " ") (Z.to_nat (field_width - len)) in
  (if flag flags LEFT then [] else spaces) ++ take (Z.to_nat len) s
  ++ (if flag flags LEFT then spaces else []).

Definition byte_at (addr : list Z) (i : nat) : Z := nth i addr 0.

Definition mac_address_string (addr : list Z) (field_width precision flags : Z) : list Z :=
  let mac_addr :=
    concat (map (fun i => pack_hex_byte (byte_at addr i)
                          ++ (if negb (flag flags SPECIAL) && negb (Nat.eqb i 5)
                              then [chr ":"] else [])) (seq 0 6)) in
  string (Some mac_addr) field_width precision (flags .& Z.lnot SPECIAL).

Definition ip6_addr_string (addr : list Z) (field_width precision flags : Z) : list Z :=
  let ip6_addr :=
    concat (map (fun i => pack_hex_byte (byte_at addr (2 * i))
                          ++ pack_hex_byte (byte_at addr (2 * i + 1))
                          ++ (if negb (flag flags SPECIAL) && negb (Nat.eqb i 7)
                              then [chr ":"] else [])) (seq 0 8)) in
  string (Some ip6_addr) field_width precision (flags .& Z.lnot SPECIAL).

Definition ip4_addr_string (addr : list Z) (field_width precision flags : Z) : list Z :=
  let ip4_addr :=
    concat (map (fun i => rev (put_dec_trunc (byte_at addr i))
                          ++ (if negb (Nat.eqb i 3) then [chr "."] else [])) (seq 0 4)) in
  string (Some ip4_addr) field_width precision (flags .& Z.lnot SPECIAL).

(** [ptr] with the bytes it points at; [fmt] is the cursor behind the 'p'. *)
Definition pointer (fmt : list Z) (ptr : Z) (mem : list Z)
    (field_width precision flags : Z) : list Z :=
  let plain flags :=
    let flags := flags .| SMALL in
    if field_width =? -1
    then number ptr 16 8 precision (flags .| ZEROPAD)
    else number ptr 16 field_width precision flags in
  if ptr =? 0 then string (Some (str "(null)")) field_width precision flags
  else
    let c := cur fmt in
    if (c =? chr "m") || (c =? chr "M") then
      mac_address_string mem field_width precision
        (if c =? chr "m" then flags .| SPECIAL else flags)
    else if (c =? chr "i") || (c =? chr "I") then
      let flags := if c =? chr "i" then flags .| SPECIAL else flags in
      if nth 1 fmt 0 =? chr "6" then ip6_addr_string mem field_width precision flags
      else if nth 1 fmt 0 =? chr "4" then ip4_addr_string mem field_width precision flags
      else plain (flags .& Z.lnot SPECIAL)
    else plain flags.

(** ** vsprintf *)

Inductive arg :=
| Aint (v : Z)                      (* int, long, size_t or long long *)
| Astr (s : option (list Z))        (* char *, None is NULL *)
| Aptr (p : Z) (bytes : list Z)     (* void * with what it points at *)
| Anum (ip : Z).                    (* int * or long * of %n *)

(** skip_atoi: int arithmetic at 32 bits. *)
Fixpoint skip_atoi (s : list Z) (i : Z) : Z * list Z :=
  match s with
  | c :: s' =>
      if (chr "0" <=? c) && (c <=? chr "9") then skip_atoi s' (s32 (i * 10 + c - 48))
      else (i, s)
  | [] => (i, s)
  end.
Definition is_digit (c : Z) : bool := (chr "0" <=? c) && (c <=? chr "9").

(** The [repeat:] loop; the result cursor is on the first non-flag. *)
Fixpoint parse_flags (fmt : list Z) (flags : Z) : Z * list Z :=
  match fmt with
  | c :: fmt' =>
      if c =? chr "-" then parse_flags fmt' (flags .| LEFT)
      else if c =? chr "+" then parse_flags fmt' (flags .| PLUS)
      else if c =? chr " " then parse_flags fmt' (flags .| SPACE)
      else if c =? chr "#" then parse_flags fmt' (flags .| SPECIAL)
      else if c =? chr "0" then parse_flags fmt' (flags .| ZEROPAD)
      else (flags, fmt)
  | [] => (flags, fmt)
  end.

Definition parse_width (fmt : list Z) (flags : Z) (args : list arg)
    : option (Z * Z * list Z * list arg) :=
  if is_digit (cur fmt) then
    let '(w, fmt) := skip_atoi fmt 0 in Some (w, flags, fmt, args)
  else if cur fmt =? chr "*" then
    match args with
    | Aint v :: args =>
        let w := s32 v in
        if w <? 0 then Some (s32 (- w), flags .| LEFT, tl fmt, args)
        else Some (w, flags, tl fmt, args)
    | _ => None
    end
  else Some (-1, flags, fmt, args).

Definition parse_precision (fmt : list Z) (args : list arg)
    : option (Z * list Z * list arg) :=
  if cur fmt =? chr "." then
    let fmt := tl fmt in
    if is_digit (cur fmt) then
      let '(p, fmt) := skip_atoi fmt 0 in
      Some (if p <? 0 then 0 else p, fmt, args)
    else if cur fmt =? chr "*" then
      match args with
      | Aint v :: args => let p := s32 v in Some (if p <? 0 then 0 else p, tl fmt, args)
      | _ => None
      end
    else Some (0, fmt, args)
  else Some (-1, fmt, args).

Definition parse_qualifier (fmt : list Z) : Z * list Z :=
  let c := cur fmt in
  if (c =? chr "h") || (c =? chr "l") || (c =? chr "L") || (c =? chr "Z")
     || (c =? chr "z") || (c =? chr "t") then
    let fmt := tl fmt in
    if (c =? chr "l") && (cur fmt =? chr "l") then (chr "L", tl fmt) else (c, fmt)
  else (-1, fmt).

(** The integer fetched for a qualifier, converted to unsigned long long. *)
Definition fetch_num (qualifier flags v : Z) : Z :=
  if qualifier =? chr "L" then u64 v
  else if qualifier =? chr "l" then
    if flag flags SIGN then u64 (s32 v) else u32 v
  else if (qualifier =? chr "Z") || (qualifier =? chr "z") then u32 v
  else if qualifier =? chr "t" then u64 (s32 v)
  else if qualifier =? chr "h" then
    if flag flags SIGN then u64 (s16 (u16 v)) else u16 v
  else if flag flags SIGN then u64 (s32 v) else u32 v.

(** Characters written so far (in order) and the stores made by %n. *)
Record vsp := { vout : list Z; vstores : list (Z * Z) }.
Definition emit (st : vsp) (l : list Z) : vsp :=
  {| vout := vout st ++ l; vstores := vstores st |}.

(** Skip the alphanumeric suffix of %p: while (isalnum(fmt[1])) fmt++; *)
Fixpoint skip_alnum (fmt : list Z) : list Z :=
  match fmt with
  | c :: fmt' => if isalnum c then skip_alnum fmt' else fmt
  | [] => []
  end.

(** One conversion: [fmt] is on the conversion character; the result cursor
    is behind it (where the for loop's ++fmt goes). *)
Definition convert (fmt : list Z) (width precision qualifier flags : Z)
    (args : list arg) (st : vsp) : option (vsp * list Z * list arg) :=
  let c := cur fmt in
  let next := tl fmt in
  let num base flags :=
    match args with
    | Aint v :: args =>
        Some (emit st (number (fetch_num qualifier flags v) base width precision flags),
              next, args)
    | _ => None
    end in
  if c =? chr "c" then
    match args with
    | Aint v :: args =>
        let spaces := repeat (chr " ") (Z.to_nat (width - 1)) in
        Some (emit st ((if flag flags LEFT then [] else spaces) ++ [u8 v]
                       ++ (if flag flags LEFT then spaces else [])), next, args)
    | _ => None
    end
  else if c =? chr "s" then
    match args with
    | Astr s :: args => Some (emit st (string s width precision flags), next, args)
    | _ => None
    end
  else if c =? chr "p" then
    match args with
    | Aptr p bytes :: args =>
        Some (emit st (pointer next p bytes width precision flags), skip_alnum next, args)
    | _ => None
    end
  else if c =? chr "n" then
    match args with
    | Anum ip :: args =>
        Some ({| vout := vout st; vstores := vstores st ++ [(ip, zlen (vout st))] |},
              next, args)
    | _ => None
    end
  else if c =? chr "%" then Some (emit st [chr "%"], next, args)
  else if c =? chr "o" then num 8 flags
  else if c =? chr "x" then num 16 (flags .| SMALL)
  else if c =? chr "X" then num 16 flags
  else if (c =? chr "d") || (c =? chr "i") then num 10 (flags .| SIGN)
  else if c =? chr "u" then num 10 flags
  else match fmt with
       | [] => Some (emit st [chr "%"], [], args)
       | _ => Some (emit st [chr "%"; c], next, args)
       end.

Fixpoint vsprintf_loop (fuel : nat) (fmt : list Z) (args : list arg) (st : vsp) : option vsp :=
  match fuel with
  | O => None
  | S f =>
      match fmt with
      | [] => Some st
      | c :: fmt' =>
          if negb (c =? chr "%") then vsprintf_loop f fmt' args (emit st [c])
          else
            let '(flags, fmt) := parse_flags fmt' 0 in
            match parse_width fmt flags args with
            | None => None
            | Some (width, flags, fmt, args) =>
                match parse_precision fmt args with
                | None => None
                | Some (precision, fmt, args) =>
                    let '(qualifier, fmt) := parse_qualifier fmt in
                    match convert fmt width precision qualifier flags args st with
                    | None => None
                    | Some (st, fmt, args) => vsprintf_loop f fmt args st
                    end
                end
            end
      end
  end.

(** [sprintf]: the text (without the final NUL) and the returned length. *)
Definition vsprintf (fmt : list Z) (args : list arg) : option (list Z * Z) :=
  match vsprintf_loop (S (length fmt)) fmt args {| vout := []; vstores := [] |} with
  | Some st => Some (vout st, zlen (vout st))
  | None => None
  end.

(** [ip_to_string] of net/net.c and the MAC text of misc_init_r. *)
Definition ip_to_string (x : Z) : option (list Z) :=
  match vsprintf (str "%d.%d.%d.%d")
          [Aint ((x .>> 24) .& 255); Aint ((x .>> 16) .& 255);
           Aint ((x .>> 8) .& 255); Aint (x .& 255)] with
  | Some (s, _) => Some s
  | None => None
  end.

(** sprintf with one integer. *)
Definition format_int (fmt : list Z) (v : Z) : list Z :=
  match vsprintf fmt [Aint v] with Some (s, _) => s | None => [] end.

(** * Properties *)

(** ** Division *)

Lemma s64_pos b : 0 <= b < 2 ^ 64 -> (0 <? s64 b) = true <-> 0 < b < 2 ^ 63.
Proof.
  intros Hb. unfold s64, swrap. rewrite (wrap_small 64) by exact Hb.
  change (2 ^ (64 - 1)) with (2 ^ 63). cbv zeta.
  destruct (Z.ltb_spec b (2 ^ 63)); rewrite Z.ltb_lt; lia.
Qed.

(** After scaling, [b] and [d] are the same power-of-two multiple and the
    remainder is below twice [b]. *)
Lemma div64_scale_spec fuel rem base b d k :
  0 < base -> 0 <= rem < 2 ^ 64 -> rem < 2 * b * 2 ^ Z.of_nat fuel ->
  b = base * d -> d = 2 ^ k -> 0 <= k -> b < 2 ^ 64 ->
  exists k', div64_scale fuel rem b d = (base * 2 ^ k', 2 ^ k') /\ 0 <= k'
    /\ rem < 2 * (base * 2 ^ k') /\ base * 2 ^ k' < 2 ^ 64.
Proof.
  intros Hbase Hrem. revert b d k. induction fuel as [|f IH]; intros b d k Hf Hb Hd Hk Hlt.
  - exists k. cbn. rewrite Z.mul_1_r in Hf. subst. split_and!; auto; lia.
  - cbn [div64_scale].
    assert (0 < d) by (subst d; apply Z.pow_pos_nonneg; lia).
    destruct ((0 <? s64 b) && (b <? rem)) eqn:E.
    + apply andb_true_iff in E as [E1 E2]. apply s64_pos in E1; [|nia].
      apply Z.ltb_lt in E2.
      assert (u64 (b + b) = 2 * b) as -> by
        (unfold u64; rewrite wrap_small; [lia|unfold in_word; lia]).
      assert (u64 (d + d) = 2 * d) as -> by
        (unfold u64; rewrite wrap_small; [lia|unfold in_word; nia]).
      apply (IH (2 * b) (2 * d) (k + 1)).
      * rewrite Nat2Z.inj_succ, Z.pow_succ_r in Hf by lia. nia.
      * subst b. lia.
      * subst d. rewrite Z.pow_add_r by lia. lia.
      * lia.
      * lia.
    + exists k. subst b d. split; [reflexivity|]. split; [lia|]. split; [|lia].
      apply andb_false_iff in E as [E|E].
      * destruct (Z.lt_ge_cases (base * 2 ^ k) (2 ^ 63)) as [Hs|Hs]; [|lia].
        assert ((0 <? s64 (base * 2 ^ k)) = true); [|congruence]. apply s64_pos; nia.
      * apply Z.ltb_ge in E. nia.
Qed.

Lemma shiftr1 x : x .>> 1 = x / 2.
Proof. apply (Z.shiftr_div_pow2 x 1). lia. Qed.

Lemma div64_reduce_spec fuel rem base k res :
  0 < base -> 0 <= k -> (Z.to_nat k < fuel)%nat -> 0 <= rem < 2 * (base * 2 ^ k) ->
  0 <= res -> (res * base + rem < 2 ^ 64) -> 
  exists q r, div64_reduce fuel rem (base * 2 ^ k) (2 ^ k) res = (q, r)
    /\ 0 <= r < base /\ q * base + r = res * base + rem.
Proof.
  intros Hbase. revert rem k res. induction fuel as [|f IH]; intros rem k res Hk Hf Hr Hres Hsum; [lia|].
  cbn [div64_reduce]. rewrite !shiftr1.
  assert (0 < 2 ^ k) by (apply Z.pow_pos_nonneg; lia).
  set (rem' := if base * 2 ^ k <=? rem then rem - base * 2 ^ k else rem).
  set (res' := if base * 2 ^ k <=? rem then res + 2 ^ k else res).
  assert ((if base * 2 ^ k <=? rem then (rem - base * 2 ^ k, u64 (res + 2 ^ k)) else (rem, res))
          = (rem', res')) as ->.
  { unfold rem', res'. case_z; [|reflexivity]. f_equal. unfold u64. apply wrap_small.
    unfold in_word. nia. }
  assert (0 <= rem' < base * 2 ^ k) by (unfold rem'; case_z; lia).
  assert (res' * base + rem' = res * base + rem) by (unfold rem', res'; case_z; lia).
  assert (0 <= res') by (unfold res'; case_z; lia).
  destruct (Z.eq_dec k 0) as [->|Hk0].
  - rewrite Z.mul_1_r in *. exists res', rem'. simpl. split_and!; auto; lia.
  - replace k with (Z.succ (k - 1)) in * by lia.
    rewrite Z.pow_succ_r in * by lia.
    assert (0 < 2 ^ (k - 1)) by (apply Z.pow_pos_nonneg; lia).
    replace (base * (2 * 2 ^ (k - 1))) with (base * 2 ^ (k - 1) * 2) by lia.
    replace (2 * 2 ^ (k - 1)) with (2 ^ (k - 1) * 2) by lia.
    rewrite !Z.div_mul by lia.
    destruct (Z.eqb_spec (2 ^ (k - 1)) 0); [lia|].
    destruct (IH rem' (k - 1) res') as (q & r & -> & Hr' & Hq); try lia.
    exists q, r. split_and!; auto; lia.
Qed.

Lemma do_div_spec n base :
  0 <= n < 2 ^ 64 -> 0 < base < 2 ^ 32 -> do_div n base = (n / base, n mod base).
Proof.
  intros Hn Hb. unfold do_div. destruct (Z.eqb_spec (n .>> 32) 0) as [_|E]; [reflexivity|].
  unfold __div64_32. rewrite (Z.shiftr_div_pow2 n 32) in * by lia.
  assert (0 <= n / 2 ^ 32 < 2 ^ 32) as Hh.
  { change (2 ^ 64) with (2 ^ 32 * 2 ^ 32) in Hn. split; [apply Z.div_pos; lia|].
    apply Z.div_lt_upper_bound; lia. }
  rewrite !(u32_small (n / 2 ^ 32)) by exact Hh. cbv zeta.
  set (high := n / 2 ^ 32) in *.
  assert (exists res rem h, (if base <=? high then
      (high / base, u64 (high / base .<< 32),
       u64 (n - u64 (u32 (high / base * base) .<< 32)))
    else (high, 0, n)) = (h, res, rem)
    /\ 0 <= res /\ res * base + rem = n /\ 0 <= rem < base * 2 ^ 32) as
    (res & rem & h & -> & Hres & Hsum & Hrem).
  { pose proof (Z.div_mod n (2 ^ 32) ltac:(lia)). pose proof (Z.mod_pos_bound n (2 ^ 32) ltac:(lia)).
    destruct (Z.leb_spec base high) as [Hl|Hl].
    - set (h := high / base).
      assert (0 <= h * base <= high /\ high < (h + 1) * base /\ 0 <= h) as (H1 & H2 & H3).
      { unfold h. pose proof (Z.div_mod high base ltac:(lia)).
        pose proof (Z.mod_pos_bound high base ltac:(lia)).
        pose proof (Z.div_pos high base ltac:(lia) ltac:(lia)). lia. }
      assert (u32 (h * base) = h * base) as -> by (apply u32_small; lia).
      rewrite !Z.shiftl_mul_pow2 by lia. fold high in H.
      assert (0 <= h <= h * base) by nia.
      assert (0 <= h * base * 2 ^ 32 <= n) by lia.
      assert (0 <= h * 2 ^ 32 <= n) by lia.
      assert (n - h * base * 2 ^ 32 < base * 2 ^ 32) by lia.
      unfold u64. rewrite (wrap_small 64 (h * 2 ^ 32)) by (unfold in_word; lia).
      rewrite (wrap_small 64 (h * base * 2 ^ 32)) by (unfold in_word; lia).
      rewrite wrap_small by (unfold in_word; lia).
      do 3 eexists. split; [reflexivity|]. split_and!; lia.
    - do 3 eexists. split; [reflexivity|]. fold high in H. split_and!; lia. }
  destruct (div64_scale_spec 64 rem base base 1 0) as (k & -> & Hk & Hlt & Hk64); try lia.
  assert (k < 64).
  { apply (Z.pow_lt_mono_r_iff 2); [lia|lia|].
    assert (0 < 2 ^ k) by (apply Z.pow_pos_nonneg; lia). nia. }
  destruct (div64_reduce_spec 65 rem base k res) as (q & r & -> & Hr & Hq); try lia.
  rewrite u32_small by lia.
  f_equal; [apply Z.div_unique with r|apply Z.mod_unique with q]; lia.
Qed.

(** The software division of a 64-bit value by a 32-bit one (shift and
    subtract, with 64-bit wrap-around) returns quotient and remainder. *)
Theorem do_div_correct n base :
  0 <= n < 2 ^ 64 -> 0 < base < 2 ^ 32 -> do_div n base = (n / base, n mod base).
Proof. apply do_div_spec. Qed.

Lemma do_div_correct_witness :
  do_div 18446744073709551615 1000 = (18446744073709551615 / 1000, 18446744073709551615 mod 1000)
  /\ do_div 18446744073709551615 1000 = (18446744073709551, 615).
Proof. split; [apply (do_div_correct _ 1000); lia|vm_compute; reflexivity]. Defined.

(** ** Decimal digits *)

Definition is_dec (c : Z) : Prop := 48 <= c <= 57.

(** The value of digits stored least significant first. *)
Fixpoint le_val (l : list Z) : Z :=
  match l with [] => 0 | c :: l' => (c - 48) + 10 * le_val l' end.

Lemma mul205 x : 0 <= x < 1000 -> u32 (x * 205) .>> 11 = x / 10.
Proof.
  intros H. rewrite u32_small by lia. rewrite Z.shiftr_div_pow2 by lia.
  change (2 ^ 11) with 2048. Z.div_mod_to_equations. lia.
Qed.
Lemma mul13 x : 0 <= x < 69 -> u32 (x * 13) .>> 7 = x / 10.
Proof.
  intros H. rewrite u32_small by lia. rewrite Z.shiftr_div_pow2 by lia.
  change (2 ^ 7) with 128. Z.div_mod_to_equations. lia.
Qed.

Lemma nibbles q :
  0 <= q < 100000 ->
  exists d0 d1 d2 d3, q .& 15 = d0 /\ (q .>> 4) .& 15 = d1 /\ (q .>> 8) .& 15 = d2
    /\ q .>> 12 = d3 /\ q = d0 + 16 * d1 + 256 * d2 + 4096 * d3
    /\ 0 <= d0 < 16 /\ 0 <= d1 < 16 /\ 0 <= d2 < 16 /\ 0 <= d3 < 25.
Proof.
  intros H. do 4 eexists. split_and!; try reflexivity.
  all: change 15 with (Z.ones 4); rewrite ?Z.land_ones, ?Z.shiftr_div_pow2 by lia.
  all: change (2 ^ 4) with 16; change (2 ^ 8) with 256; change (2 ^ 12) with 4096.
  all: Z.div_mod_to_equations; lia.
Qed.

Lemma put_dec_full_spec q :
  0 <= q < 100000 ->
  Forall is_dec (put_dec_full q) /\ le_val (put_dec_full q) = q
  /\ length (put_dec_full q) = 5%nat.
Proof.
  intros H. destruct (nibbles q H) as (d0 & d1 & d2 & d3 & E0 & E1 & E2 & E3 & Eq & ? & ? & ? & ?).
  unfold put_dec_full. rewrite E0, E1, E2, E3. clear E0 E1 E2 E3. subst q.
  rewrite (u32_small (6 * _ + _)) by lia. rewrite mul205 by lia.
  rewrite (u32_small (_ / 10 + 9 * d3 + 5 * d2 + d1)) by (Z.div_mod_to_equations; lia).
  rewrite mul205 by (Z.div_mod_to_equations; lia).
  rewrite (u32_small (_ / 10 + 2 * d2)) by (Z.div_mod_to_equations; lia).
  rewrite mul13 by (Z.div_mod_to_equations; lia).
  rewrite (u32_small (_ / 10 + 4 * d3)) by (Z.div_mod_to_equations; lia).
  rewrite mul205 by (Z.div_mod_to_equations; lia).
  split_and!; [|cbn [le_val]; Z.div_mod_to_equations; lia|reflexivity].
  repeat constructor; unfold is_dec; Z.div_mod_to_equations; lia.
Qed.

Lemma put_dec_trunc_spec q :
  0 <= q < 100000 ->
  Forall is_dec (put_dec_trunc q) /\ le_val (put_dec_trunc q) = q /\ put_dec_trunc q <> [].
Proof.
  intros H. destruct (nibbles q H) as (d0 & d1 & d2 & d3 & E0 & E1 & E2 & E3 & Eq & ? & ? & ? & ?).
  unfold put_dec_trunc. rewrite E0, E1, E2, E3. clear E0 E1 E2 E3. subst q.
  rewrite (u32_small (6 * _ + _)) by lia. rewrite mul205 by lia.
  rewrite (u32_small (_ / 10 + 9 * d3 + 5 * d2 + d1)) by (Z.div_mod_to_equations; lia).
  rewrite mul205 by (Z.div_mod_to_equations; lia).
  rewrite (u32_small (_ / 10 + 2 * d2)) by (Z.div_mod_to_equations; lia).
  rewrite mul13 by (Z.div_mod_to_equations; lia).
  rewrite (u32_small (_ / 10 + 4 * d3)) by (Z.div_mod_to_equations; lia).
  rewrite mul205 by (Z.div_mod_to_equations; lia).
  case_z; cbn [andb le_val]; split_and!; try discriminate.
  all: repeat constructor; unfold is_dec; Z.div_mod_to_equations; lia.
Qed.

Lemma le_val_app l k : le_val (l ++ k) = le_val l + 10 ^ Z.of_nat (length l) * le_val k.
Proof.
  induction l as [|c l IH]; cbn [app le_val length].
  - change (10 ^ Z.of_nat 0) with 1. lia.
  - rewrite IH, Nat2Z.inj_succ, Z.pow_succ_r by lia. lia.
Qed.

Lemma put_dec_spec fuel num :
  0 <= num < 100000 ^ Z.of_nat fuel -> num < 2 ^ 64 -> (0 < fuel)%nat ->
  Forall is_dec (put_dec fuel num) /\ le_val (put_dec fuel num) = num /\ put_dec fuel num <> [].
Proof.
  revert num. induction fuel as [|f IH]; intros num Hn H64 Hf; [lia|]. cbn [put_dec].
  destruct (Z.ltb_spec num 100000) as [Hs|Hs].
  - rewrite u32_small by lia. apply put_dec_trunc_spec. lia.
  - rewrite do_div_spec by lia.
    rewrite Nat2Z.inj_succ, Z.pow_succ_r in Hn by lia.
    pose proof (Z.div_mod num 100000 ltac:(lia)).
    pose proof (Z.mod_pos_bound num 100000 ltac:(lia)).
    assert (0 <= num / 100000 < 100000 ^ Z.of_nat f).
    { split; [apply Z.div_pos; lia|apply Z.div_lt_upper_bound; lia]. }
    destruct (put_dec_full_spec (num mod 100000)) as (F1 & V1 & L1); [lia|].
    destruct (IH (num / 100000)) as (F2 & V2 & _); [lia|lia| |].
    { destruct f; [change (100000 ^ Z.of_nat 0) with 1 in *; lia|lia]. }
    split_and!.
    + apply Forall_app. auto.
    + rewrite le_val_app, V1, V2, L1. change (10 ^ Z.of_nat 5) with 100000. lia.
    + intros E. apply app_eq_nil in E as [E _]. rewrite E in L1. discriminate.
Qed.

Lemma is_dec_digit c : is_dec c -> digit_of 10 c /\ digit_value c = c - 48 /\ is_u8 c.
Proof.
  unfold is_dec. intros H. assert (0 <= c < 256) as Hc by lia.
  assert (isxdigit c = true) as Hx by (apply isxdigit_iff; lia).
  destruct (digit_value_spec c Hc Hx) as [Hv _].
  destruct (Z.leb_spec c 57); [|lia]. unfold digit_of. rewrite Hv.
  split_and!; auto; lia.
Qed.

Lemma horner_rev_dec l : Forall is_dec l -> horner 10 (rev l) 0 = le_val l.
Proof.
  induction l as [|c l IH]; intros H; [reflexivity|]. inversion H; subst. cbn [rev le_val].
  rewrite horner_app, IH by auto.
  change (horner 10 [c] (le_val l)) with (le_val l * 10 + digit_value c).
  rewrite (proj1 (proj2 (is_dec_digit c ltac:(assumption)))). lia.
Qed.

(** The decimal text of a value: nonempty, all digits, and denoting it. *)
Definition dec_text (l : list Z) (n : Z) : Prop :=
  l <> [] /\ Forall is_dec l /\ horner 10 l 0 = n.

Lemma number_digits_dec n :
  0 <= n < 2 ^ 64 -> dec_text (rev (number_digits n 10 0)) n.
Proof.
  intros Hn. unfold number_digits, dec_text. destruct (Z.eqb_spec n 0) as [->|Hn0].
  - split_and!; [discriminate|repeat constructor; vm_compute; discriminate|reflexivity].
  - simpl negb. cbv iota.
    assert (0 <= n < 100000 ^ Z.of_nat 64) as Hb.
    { split; [lia|]. eapply Z.lt_le_trans; [apply Hn|]. vm_compute. discriminate. }
    destruct (put_dec_spec 64 n Hb) as (F & V & N); [lia|lia|].
    split_and!.
    + intros E. apply N. apply (f_equal (@rev Z)) in E. rewrite rev_involutive in E. exact E.
    + apply Forall_rev. exact F.
    + rewrite horner_rev_dec by exact F. exact V.
Qed.

(** Without width, precision or flags only the digits are written. *)
Lemma number_plain n :
  0 <= n < 2 ^ 64 -> number n 10 (-1) (-1) 0 = rev (number_digits n 10 0).
Proof.
  intros Hn. unfold number.
  change (flag 0 SPECIAL && negb (10 =? 10)) with false.
  change (0 .& SMALL) with 0. change (flag 0 LEFT) with false.
  unfold number_sign. change (flag 0 SIGN) with false. cbv iota.
  pose proof (zlen_nonneg (number_digits n 10 0)).
  destruct (Z.ltb_spec (-1) (zlen (number_digits n 10 0))); [|lia].
  change (flag 0 (ZEROPAD + LEFT)) with false. change (flag 0 ZEROPAD) with false.
  unfold pad. cbv iota. change (0 =? 0) with true. cbv iota.
  change (flag 0 LEFT) with false. cbv iota.
  set (i := zlen (number_digits n 10 0)) in *.
  replace (Z.to_nat (-1 - i)) with O by lia. rewrite Z.sub_diag.
  destruct (Z.leb_spec 0 (-1 - i)); [lia|].
  replace (Z.to_nat (-1 - i - 1)) with O by lia.
  destruct (Z.leb_spec 0 (-1 - i - 1)); [lia|].
  replace (Z.to_nat (-1 - i - 1 - 1)) with O by lia. change (Z.to_nat 0) with O.
  cbn [repeat app fst]. apply app_nil_r.
Qed.

Lemma vsprintf_u v :
  vsprintf (str "%u") [Aint v] = Some (number (u32 v) 10 (-1) (-1) 0,
                                       zlen (number (u32 v) 10 (-1) (-1) 0)).
Proof. reflexivity. Qed.

Lemma dec_text_digits l n : dec_text l n -> Forall (digit_of 10) l /\ Forall is_u8 l.
Proof.
  intros (_ & F & _). split; (eapply List.Forall_impl; [|exact F]);
    intros c Hc; apply is_dec_digit in Hc; tauto.
Qed.

(** Print/parse round trip: the text that sprintf "%u" writes for any 32-bit
    value is read back by [simple_strtoul] in base 10 as the same value, with
    [endp] behind it, whatever non-numeric text follows. *)
Theorem sprintf_strtoul_roundtrip v rest :
  0 <= v < 2 ^ 32 -> Forall is_u8 rest -> stops 10 rest -> cur rest <> chr "x" ->
  exists s, vsprintf (str "%u") [Aint v] = Some (s, zlen s) /\
            simple_strtoul (s ++ rest) 10 = (v, rest).
Proof.
  intros Hv Hr Hs Hx. rewrite vsprintf_u, u32_small by exact Hv.
  rewrite number_plain by lia. eexists. split; [reflexivity|].
  pose proof (number_digits_dec v ltac:(lia)) as D.
  pose proof (dec_text_digits _ _ D) as [F _]. destruct D as (N & _ & E).
  rewrite simple_strtoul_dec by auto. rewrite E, Z.mod_small by lia. reflexivity.
Qed.

Lemma sprintf_strtoul_roundtrip_witness :
  exists s, vsprintf (str "%u") [Aint 4294967290] = Some (s, zlen s) /\
            simple_strtoul (s ++ str ":eth0") 10 = (4294967290, str ":eth0").
Proof.
  apply (sprintf_strtoul_roundtrip 4294967290 (str ":eth0")); try lia.
  - repeat constructor; vm_compute; (reflexivity || discriminate).
  - left. reflexivity.
  - discriminate.
Defined.

(** ** The length of decimal text *)

Lemma number_signed n : 0 <= n < 2 ^ 63 -> number n 10 (-1) (-1) SIGN = number n 10 (-1) (-1) 0.
Proof.
  intros Hn. unfold number, number_sign.
  assert ((s64 n <? 0) = false) as E.
  { apply Z.ltb_ge. unfold s64, swrap. rewrite wrap_small by (unfold in_word; lia).
    change (2 ^ (64 - 1)) with (2 ^ 63). cbv zeta. destruct (Z.ltb_spec n (2 ^ 63)); lia. }
  assert (flag (if flag SIGN LEFT then SIGN .& Z.lnot ZEROPAD else SIGN) SIGN = true) as ->
    by reflexivity.
  rewrite E. reflexivity.
Qed.

Lemma put_dec_trunc_length q : (length (put_dec_trunc q) <= 5)%nat.
Proof.
  unfold put_dec_trunc. cbv zeta.
  repeat match goal with |- context [if ?c then _ else _] => destruct c end; cbn [length]; lia.
Qed.

Lemma number_digits_length n : 0 <= n < 2 ^ 32 -> (length (number_digits n 10 0) <= 10)%nat.
Proof.
  change (2 ^ 32) with 4294967296. intros Hn. unfold number_digits. destruct (n =? 0); [cbn; lia|].
  change (negb (10 =? 10)) with false. cbv iota. change 64%nat with (S (S 62)). set (f := 62%nat). cbn [put_dec].
  destruct (Z.ltb_spec n 100000); [pose proof (put_dec_trunc_length (u32 n)); lia|].
  rewrite do_div_spec by lia. rewrite length_app. change (length (put_dec_full _)) with 5%nat.
  rewrite (proj2 (Z.ltb_lt _ _)) by (Z.div_mod_to_equations; lia).
  pose proof (put_dec_trunc_length (u32 (n / 100000))). lia.
Qed.

(** "%lu" and "%d" of a nonnegative number write at most ten characters. *)
Lemma vsprintf_lu_length v :
  0 <= v < 2 ^ 32 -> exists s, vsprintf (str "%lu") [Aint v] = Some (s, zlen s) /\ (length s <= 10)%nat.
Proof.
  intros Hv. exists (number (u32 v) 10 (-1) (-1) 0). split; [reflexivity|].
  rewrite u32_small, number_plain, length_rev by lia. apply number_digits_length, Hv.
Qed.
Lemma vsprintf_d_length v :
  0 <= v < 2 ^ 31 -> exists s, vsprintf (str "%d") [Aint v] = Some (s, zlen s) /\ (length s <= 10)%nat.
Proof.
  intros Hv. exists (number (u64 (s32 v)) 10 (-1) (-1) SIGN). split; [reflexivity|].
  assert (u64 (s32 v) = v) as ->.
  { unfold s32, swrap. rewrite wrap_small by (unfold in_word; lia). cbv zeta.
    rewrite (proj2 (Z.ltb_lt v (2 ^ (32 - 1)))) by (change (32 - 1) with 31; lia). apply wrap_small. unfold in_word. lia. }
  rewrite number_signed, number_plain, length_rev by lia. apply number_digits_length. lia.
Qed.

(** ** Dotted decimal *)

(** What "%d" writes for a byte. *)
Definition byte_dec (v : Z) : list Z := rev (number_digits v 10 0).

Lemma byte_dec_text v : 0 <= v < 256 -> dec_text (byte_dec v) v.
Proof. intros. apply number_digits_dec. lia. Qed.

Lemma number_byte v :
  0 <= v < 256 -> number (fetch_num (-1) SIGN v) 10 (-1) (-1) SIGN = byte_dec v.
Proof.
  intros Hv.
  assert (fetch_num (-1) SIGN v = v) as ->.
  { change (fetch_num (-1) SIGN v) with (u64 (s32 v)). unfold s32, swrap.
    rewrite wrap_small by (unfold in_word; lia). cbv zeta.
    destruct (Z.ltb_spec v (2 ^ (32 - 1))); [|lia].
    unfold u64. apply wrap_small. unfold in_word. lia. }
  rewrite number_signed, number_plain by lia. reflexivity.
Qed.

Lemma ip_to_string_eq x :
  ip_to_string x =
  Some (byte_dec ((x .>> 24) .& 255) ++ chr "." :: byte_dec ((x .>> 16) .& 255)
        ++ chr "." :: byte_dec ((x .>> 8) .& 255) ++ chr "." :: byte_dec (x .& 255)).
Proof.
  assert (forall a b c d,
    vsprintf (str "%d.%d.%d.%d") [Aint a; Aint b; Aint c; Aint d] =
    let n v := number (fetch_num (-1) SIGN v) 10 (-1) (-1) SIGN in
    let s := ((((((n a ++ [chr "."]) ++ n b) ++ [chr "."]) ++ n c) ++ [chr "."]) ++ n d) in
    Some (s, zlen s)) as E by reflexivity.
  unfold ip_to_string. rewrite E. cbv zeta. f_equal.
  rewrite !number_byte by (rewrite land_255; apply u8_range).
  rewrite <- !app_assoc. reflexivity.
Qed.

Lemma dot_stops rest : stops 10 (chr "." :: rest).
Proof. left. reflexivity. Qed.
Lemma nil_stops : stops 10 [].
Proof. left. reflexivity. Qed.

Lemma ip_field_spec addr l n rest :
  dec_text l n -> 0 <= n < 256 -> Forall is_u8 rest -> stops 10 rest -> cur rest <> chr "x" ->
  ip_field (addr, l ++ rest) =
  (u32 (addr .<< 8) .| n, match rest with [] => [] | _ :: r => r end).
Proof.
  intros D Hn Hr Hs Hx. pose proof (dec_text_digits _ _ D) as [F _]. destruct D as (N & _ & E).
  unfold ip_field. rewrite simple_strtoul_dec by auto.
  rewrite E, Z.mod_small by lia. rewrite land_255, u8_small by lia. reflexivity.
Qed.

(** Dotted-decimal round trip: [string_to_ip] reads back every address that
    [ip_to_string] (sprintf "%d.%d.%d.%d") prints. *)
Theorem ip_string_roundtrip x :
  0 <= x < 2 ^ 32 -> exists s, ip_to_string x = Some s /\ string_to_ip (Some s) = x.
Proof.
  intros Hx. rewrite ip_to_string_eq. eexists. split; [reflexivity|].
  set (a := (x .>> 24) .& 255). set (b := (x .>> 16) .& 255).
  set (c := (x .>> 8) .& 255). set (d := x .& 255).
  assert (0 <= a < 256 /\ 0 <= b < 256 /\ 0 <= c < 256 /\ 0 <= d < 256) as (Ha & Hb & Hc & Hd)
    by (unfold a, b, c, d; rewrite !land_255; pose proof u8_range; auto).
  assert (x = ((a * 256 + b) * 256 + c) * 256 + d) as Ex.
  { unfold a, b, c, d. rewrite !land_255, !Z.shiftr_div_pow2 by lia. unfold u8, wrap.
    change (2 ^ 8) with 256. change (2 ^ 16) with 65536. change (2 ^ 24) with 16777216.
    Z.div_mod_to_equations. lia. }
  clearbody a b c d. unfold string_to_ip. cbn [iter].
  assert (forall v, 0 <= v < 256 -> Forall is_u8 (byte_dec v)) as U.
  { intros v Hv. apply (dec_text_digits _ v), byte_dec_text, Hv. }
  assert (is_u8 (chr ".")) as Udot by (vm_compute; split; discriminate || reflexivity).
  assert (forall r, Forall is_u8 r -> Forall is_u8 (chr "." :: r)) as Ud by auto.
  assert (forall r v, 0 <= v < 256 -> Forall is_u8 r -> Forall is_u8 (byte_dec v ++ r)) as Ua
    by (intros; apply Forall_app; auto).
  rewrite (ip_field_spec 0 _ a) by (auto 12 using byte_dec_text, dot_stops; discriminate).
  rewrite (ip_field_spec _ _ b) by (auto 12 using byte_dec_text, dot_stops; discriminate).
  rewrite (ip_field_spec _ _ c) by (auto 12 using byte_dec_text, dot_stops; discriminate).
  rewrite <- (app_nil_r (byte_dec d)).
  rewrite (ip_field_spec _ _ d) by (auto 12 using byte_dec_text, nil_stops; discriminate).
  assert (forall u v, 0 <= u < 16777216 -> 0 <= v < 256 -> u32 (u .<< 8) .| v = u * 256 + v) as E.
  { intros u v Hu Hv. rewrite u32_small by (rewrite Z.shiftl_mul_pow2; lia).
    apply (lor_add_disjoint u v 8); lia. }
  cbn [fst]. rewrite (E 0 a), (E _ b), (E _ c), (E _ d) by lia. lia.
Qed.

Lemma ip_string_roundtrip_witness :
  (exists s, ip_to_string 3232235625 = Some s /\ string_to_ip (Some s) = 3232235625) /\
  ip_to_string 3232235625 = Some (str "192.168.0.105").
Proof. split; [apply ip_string_roundtrip; lia|vm_compute; reflexivity]. Defined.

(** The MAC text misc_init_r stores in "ethaddr". *)
Example mac_text :
  vsprintf (str "%02x:%02x:%02x:%02x:%02x:%02x") (map Aint [0; 0; 91; 0; 46; 77])
  = Some (str "00:00:5b:00:2e:4d", 17).
Proof. vm_compute. reflexivity. Qed.
