(* ===== verification/Crc.v ===== *)
(** * Cyclic redundancy checks (lib/crc32.c, lib/crc16.c)

    The CRC-32 that guards the environment, the images and the partition
    data, as the big-endian PowerPC compiles it: the table entries and the
    running value are kept byte-swapped ([tole], [cpu_to_le32]), a misaligned
    start is processed bytewise, the middle a word at a time, the rest bytewise.
    The reference is the bit-serial CRC of the polynomial in the comments. *)

From S2P Require Import Prelude CMem.

(** ** Definitions from the code *)

(** cpu_to_le32 and le32_to_cpu on a big-endian machine. *)
Definition bswap32 (x : Z) : Z :=
  ((x .& 255) .<< 24) .| (((x .>> 8) .& 255) .<< 16)
  .| (((x .>> 16) .& 255) .<< 8) .| ((x .>> 24) .& 255).
Definition tole (x : Z) : Z := bswap32 x.

Definition crc_table : list Z :=
  map tole
  [0x00000000; 0x77073096; 0xee0e612c; 0x990951ba;
   0x076dc419; 0x706af48f; 0xe963a535; 0x9e6495a3;
   0x0edb8832; 0x79dcb8a4; 0xe0d5e91e; 0x97d2d988;
   0x09b64c2b; 0x7eb17cbd; 0xe7b82d07; 0x90bf1d91;
   0x1db71064; 0x6ab020f2; 0xf3b97148; 0x84be41de;
   0x1adad47d; 0x6ddde4eb; 0xf4d4b551; 0x83d385c7;
   0x136c9856; 0x646ba8c0; 0xfd62f97a; 0x8a65c9ec;
   0x14015c4f; 0x63066cd9; 0xfa0f3d63; 0x8d080df5;
   0x3b6e20c8; 0x4c69105e; 0xd56041e4; 0xa2677172;
   0x3c03e4d1; 0x4b04d447; 0xd20d85fd; 0xa50ab56b;
   0x35b5a8fa; 0x42b2986c; 0xdbbbc9d6; 0xacbcf940;
   0x32d86ce3; 0x45df5c75; 0xdcd60dcf; 0xabd13d59;
   0x26d930ac; 0x51de003a; 0xc8d75180; 0xbfd06116;
   0x21b4f4b5; 0x56b3c423; 0xcfba9599; 0xb8bda50f;
   0x2802b89e; 0x5f058808; 0xc60cd9b2; 0xb10be924;
   0x2f6f7c87; 0x58684c11; 0xc1611dab; 0xb6662d3d;
   0x76dc4190; 0x01db7106; 0x98d220bc; 0xefd5102a;
   0x71b18589; 0x06b6b51f; 0x9fbfe4a5; 0xe8b8d433;
   0x7807c9a2; 0x0f00f934; 0x9609a88e; 0xe10e9818;
   0x7f6a0dbb; 0x086d3d2d; 0x91646c97; 0xe6635c01;
   0x6b6b51f4; 0x1c6c6162; 0x856530d8; 0xf262004e;
   0x6c0695ed; 0x1b01a57b; 0x8208f4c1; 0xf50fc457;
   0x65b0d9c6; 0x12b7e950; 0x8bbeb8ea; 0xfcb9887c;
   0x62dd1ddf; 0x15da2d49; 0x8cd37cf3; 0xfbd44c65;
   0x4db26158; 0x3ab551ce; 0xa3bc0074; 0xd4bb30e2;
   0x4adfa541; 0x3dd895d7; 0xa4d1c46d; 0xd3d6f4fb;
   0x4369e96a; 0x346ed9fc; 0xad678846; 0xda60b8d0;
   0x44042d73; 0x33031de5; 0xaa0a4c5f; 0xdd0d7cc9;
   0x5005713c; 0x270241aa; 0xbe0b1010; 0xc90c2086;
   0x5768b525; 0x206f85b3; 0xb966d409; 0xce61e49f;
   0x5edef90e; 0x29d9c998; 0xb0d09822; 0xc7d7a8b4;
   0x59b33d17; 0x2eb40d81; 0xb7bd5c3b; 0xc0ba6cad;
   0xedb88320; 0x9abfb3b6; 0x03b6e20c; 0x74b1d29a;
   0xead54739; 0x9dd277af; 0x04db2615; 0x73dc1683;
   0xe3630b12; 0x94643b84; 0x0d6d6a3e; 0x7a6a5aa8;
   0xe40ecf0b; 0x9309ff9d; 0x0a00ae27; 0x7d079eb1;
   0xf00f9344; 0x8708a3d2; 0x1e01f268; 0x6906c2fe;
   0xf762575d; 0x806567cb; 0x196c3671; 0x6e6b06e7;
   0xfed41b76; 0x89d32be0; 0x10da7a5a; 0x67dd4acc;
   0xf9b9df6f; 0x8ebeeff9; 0x17b7be43; 0x60b08ed5;
   0xd6d6a3e8; 0xa1d1937e; 0x38d8c2c4; 0x4fdff252;
   0xd1bb67f1; 0xa6bc5767; 0x3fb506dd; 0x48b2364b;
   0xd80d2bda; 0xaf0a1b4c; 0x36034af6; 0x41047a60;
   0xdf60efc3; 0xa867df55; 0x316e8eef; 0x4669be79;
   0xcb61b38c; 0xbc66831a; 0x256fd2a0; 0x5268e236;
   0xcc0c7795; 0xbb0b4703; 0x220216b9; 0x5505262f;
   0xc5ba3bbe; 0xb2bd0b28; 0x2bb45a92; 0x5cb36a04;
   0xc2d7ffa7; 0xb5d0cf31; 0x2cd99e8b; 0x5bdeae1d;
   0x9b64c2b0; 0xec63f226; 0x756aa39c; 0x026d930a;
   0x9c0906a9; 0xeb0e363f; 0x72076785; 0x05005713;
   0x95bf4a82; 0xe2b87a14; 0x7bb12bae; 0x0cb61b38;
   0x92d28e9b; 0xe5d5be0d; 0x7cdcefb7; 0x0bdbdf21;
   0x86d3d2d4; 0xf1d4e242; 0x68ddb3f8; 0x1fda836e;
   0x81be16cd; 0xf6b9265b; 0x6fb077e1; 0x18b74777;
   0x88085ae6; 0xff0f6a70; 0x66063bca; 0x11010b5c;
   0x8f659eff; 0xf862ae69; 0x616bffd3; 0x166ccf45;
   0xa00ae278; 0xd70dd2ee; 0x4e048354; 0x3903b3c2;
   0xa7672661; 0xd06016f7; 0x4969474d; 0x3e6e77db;
   0xaed16a4a; 0xd9d65adc; 0x40df0b66; 0x37d83bf0;
   0xa9bcae53; 0xdebb9ec5; 0x47b2cf7f; 0x30b5ffe9;
   0xbdbdf21c; 0xcabac28a; 0x53b39330; 0x24b4a3a6;
   0xbad03605; 0xcdd70693; 0x54de5729; 0x23d967bf;
   0xb3667a2e; 0xc4614ab8; 0x5d681b02; 0x2a6f2b94;
   0xb40bbe37; 0xc30c8ea1; 0x5a05df1b; 0x2d02ef8d].

(** make_crc_table: the pattern from the exponents, then eight steps per entry. *)
Definition crc_p : list Z := [0; 1; 2; 4; 5; 7; 8; 10; 11; 12; 16; 22; 23; 26].
Definition crc_poly : Z := fold_left (fun poly e => poly .| (1 .<< (31 - e))) crc_p 0.
Definition crc_step (c : Z) : Z :=
  if c .& 1 =? 0 then c .>> 1 else crc_poly .^ (c .>> 1).
Definition make_crc_table : list Z :=
  map (fun n => tole (iter 8 crc_step (Z.of_nat n))) (seq 0 256).

(** DO_CRC for big-endian. *)
Definition DO_CRC (crc x : Z) : Z :=
  nth (Z.to_nat (((crc .>> 24) .^ x) .& 255)) crc_table 0 .^ u32 (crc .<< 8).

(** do { DO_CRC( *p++); } while ((--len) && ((long)p)&3); *)
Fixpoint crc_align (len : nat) (m : mem) (p crc : Z) : Z * Z * nat :=
  match len with
  | O => (crc, p, O)
  | S len' =>
      let crc := DO_CRC crc (m p) in
      let p := p + 1 in
      match len' with
      | O => (crc, p, O)
      | S _ => if p .& 3 =? 0 then (crc, p, len') else crc_align len' m p crc
      end
  end.

Fixpoint crc_words (n : nat) (m : mem) (b crc : Z) : Z * Z :=
  match n with
  | O => (crc, b)
  | S n' =>
      let crc := crc .^ load32 m b in
      crc_words n' m (b + 4) (DO_CRC (DO_CRC (DO_CRC (DO_CRC crc 0) 0) 0) 0)
  end.

Fixpoint crc_bytes (n : nat) (m : mem) (p crc : Z) : Z :=
  match n with
  | O => crc
  | S n' => crc_bytes n' m (p + 1) (DO_CRC crc (m p))
  end.

Definition crc32_no_comp (m : mem) (crc buf len : Z) : Z :=
  let crc := bswap32 crc in
  let '(crc, b, n) :=
    if negb (buf .& 3 =? 0) && negb (len =? 0)
    then crc_align (Z.to_nat len) m buf crc else (crc, buf, Z.to_nat len) in
  let rem_len := (n mod 4)%nat in
  let '(crc, b) := crc_words (n / 4)%nat m b crc in
  bswap32 (crc_bytes rem_len m b crc).

Definition crc32 (m : mem) (crc p len : Z) : Z :=
  crc32_no_comp m (crc .^ 0xffffffff) p len .^ 0xffffffff.

(** crc32_wd as built with a watchdog: at most [chunk_sz] bytes per call. *)
Fixpoint crc32_wd_loop (fuel : nat) (m : mem) (crc curr end_ chunk_sz : Z) : option Z :=
  match fuel with
  | O => None
  | S f =>
      if curr <? end_ then
        let chunk := if chunk_sz <? end_ - curr then chunk_sz else end_ - curr in
        crc32_wd_loop f m (crc32 m crc curr chunk) (curr + chunk) end_ chunk_sz
      else Some crc
  end.
Definition crc32_wd (fuel : nat) (m : mem) (crc buf len chunk_sz : Z) : option Z :=
  crc32_wd_loop fuel m crc buf (buf + len) chunk_sz.

Definition crc16_tab : list Z :=
  [0x0000; 0x1021; 0x2042; 0x3063; 0x4084; 0x50a5; 0x60c6; 0x70e7;
   0x8108; 0x9129; 0xa14a; 0xb16b; 0xc18c; 0xd1ad; 0xe1ce; 0xf1ef;
   0x1231; 0x0210; 0x3273; 0x2252; 0x52b5; 0x4294; 0x72f7; 0x62d6;
   0x9339; 0x8318; 0xb37b; 0xa35a; 0xd3bd; 0xc39c; 0xf3ff; 0xe3de;
   0x2462; 0x3443; 0x0420; 0x1401; 0x64e6; 0x74c7; 0x44a4; 0x5485;
   0xa56a; 0xb54b; 0x8528; 0x9509; 0xe5ee; 0xf5cf; 0xc5ac; 0xd58d;
   0x3653; 0x2672; 0x1611; 0x0630; 0x76d7; 0x66f6; 0x5695; 0x46b4;
   0xb75b; 0xa77a; 0x9719; 0x8738; 0xf7df; 0xe7fe; 0xd79d; 0xc7bc;
   0x48c4; 0x58e5; 0x6886; 0x78a7; 0x0840; 0x1861; 0x2802; 0x3823;
   0xc9cc; 0xd9ed; 0xe98e; 0xf9af; 0x8948; 0x9969; 0xa90a; 0xb92b;
   0x5af5; 0x4ad4; 0x7ab7; 0x6a96; 0x1a71; 0x0a50; 0x3a33; 0x2a12;
   0xdbfd; 0xcbdc; 0xfbbf; 0xeb9e; 0x9b79; 0x8b58; 0xbb3b; 0xab1a;
   0x6ca6; 0x7c87; 0x4ce4; 0x5cc5; 0x2c22; 0x3c03; 0x0c60; 0x1c41;
   0xedae; 0xfd8f; 0xcdec; 0xddcd; 0xad2a; 0xbd0b; 0x8d68; 0x9d49;
   0x7e97; 0x6eb6; 0x5ed5; 0x4ef4; 0x3e13; 0x2e32; 0x1e51; 0x0e70;
   0xff9f; 0xefbe; 0xdfdd; 0xcffc; 0xbf1b; 0xaf3a; 0x9f59; 0x8f78;
   0x9188; 0x81a9; 0xb1ca; 0xa1eb; 0xd10c; 0xc12d; 0xf14e; 0xe16f;
   0x1080; 0x00a1; 0x30c2; 0x20e3; 0x5004; 0x4025; 0x7046; 0x6067;
   0x83b9; 0x9398; 0xa3fb; 0xb3da; 0xc33d; 0xd31c; 0xe37f; 0xf35e;
   0x02b1; 0x1290; 0x22f3; 0x32d2; 0x4235; 0x5214; 0x6277; 0x7256;
   0xb5ea; 0xa5cb; 0x95a8; 0x8589; 0xf56e; 0xe54f; 0xd52c; 0xc50d;
   0x34e2; 0x24c3; 0x14a0; 0x0481; 0x7466; 0x6447; 0x5424; 0x4405;
   0xa7db; 0xb7fa; 0x8799; 0x97b8; 0xe75f; 0xf77e; 0xc71d; 0xd73c;
   0x26d3; 0x36f2; 0x0691; 0x16b0; 0x6657; 0x7676; 0x4615; 0x5634;
   0xd94c; 0xc96d; 0xf90e; 0xe92f; 0x99c8; 0x89e9; 0xb98a; 0xa9ab;
   0x5844; 0x4865; 0x7806; 0x6827; 0x18c0; 0x08e1; 0x3882; 0x28a3;
   0xcb7d; 0xdb5c; 0xeb3f; 0xfb1e; 0x8bf9; 0x9bd8; 0xabbb; 0xbb9a;
   0x4a75; 0x5a54; 0x6a37; 0x7a16; 0x0af1; 0x1ad0; 0x2ab3; 0x3a92;
   0xfd2e; 0xed0f; 0xdd6c; 0xcd4d; 0xbdaa; 0xad8b; 0x9de8; 0x8dc9;
   0x7c26; 0x6c07; 0x5c64; 0x4c45; 0x3ca2; 0x2c83; 0x1ce0; 0x0cc1;
   0xef1f; 0xff3e; 0xcf5d; 0xdf7c; 0xaf9b; 0xbfba; 0x8fd9; 0x9ff8;
   0x6e17; 0x7e36; 0x4e55; 0x5e74; 0x2e93; 0x3eb2; 0x0ed1; 0x1ef0].

Definition crc16_update (cksum b : Z) : Z :=
  nth (Z.to_nat (((cksum .>> 8) .^ b) .& 255)) crc16_tab 0 .^ u16 (cksum .<< 8).
Definition cyg_crc16 (buf : list Z) : Z := fold_left crc16_update buf 0.

(** * Properties *)

(** ** The bit-serial reference *)

Definition crc_ref_byte (c b : Z) : Z := iter 8 crc_step (c .^ b).
Definition crc_ref (l : list Z) (c : Z) : Z := fold_left crc_ref_byte l c.

Lemma crc_poly_value : crc_poly = 0xedb88320.
Proof. reflexivity. Qed.

Lemma land_1_eqb c : (c .& 1 =? 0) = negb (Z.testbit c 0).
Proof.
  change 1 with (Z.ones 1). rewrite Z.land_ones by lia. change (2 ^ 1) with 2.
  rewrite <- Z.bit0_mod. destruct (Z.testbit c 0); reflexivity.
Qed.

Lemma crc_step_lxor x y : crc_step (x .^ y) = crc_step x .^ crc_step y.
Proof.
  unfold crc_step. rewrite !land_1_eqb, Z.lxor_spec, Z.shiftr_lxor.
  destruct (Z.testbit x 0), (Z.testbit y 0); simpl; by_bits i; btauto.
Qed.

Lemma iter_crc_lxor n x y :
  iter n crc_step (x .^ y) = iter n crc_step x .^ iter n crc_step y.
Proof.
  revert x y. induction n as [|n IH]; intros; simpl; [reflexivity|].
  rewrite crc_step_lxor. apply IH.
Qed.

Lemma iter_crc_shift n y : iter n crc_step (y .<< Z.of_nat n) = y.
Proof.
  revert y. induction n as [|n IH]; intros y; cbn [iter].
  - apply Z.shiftl_0_r.
  - assert (crc_step (y .<< Z.of_nat (S n)) = y .<< Z.of_nat n) as ->; [|apply IH].
    unfold crc_step. rewrite land_1_eqb, Z.shiftl_spec_low by lia. simpl.
    rewrite Z.shiftr_shiftl_l by lia. f_equal. lia.
Qed.

Lemma crc_step_u32 c : is_u32 c -> is_u32 (crc_step c).
Proof.
  intros H. unfold crc_step. case_match; [auto with cbits|].
  apply in_word_lxor; auto with cbits. vm_compute. split; [discriminate|reflexivity].
Qed.

Lemma is_u8_u32 b : is_u8 b -> is_u32 b.
Proof. unfold_words. lia. Qed.

Lemma crc_ref_byte_u32 c b : is_u32 c -> is_u8 b -> is_u32 (crc_ref_byte c b).
Proof.
  intros Hc Hb. unfold crc_ref_byte. apply iter_inv; [apply crc_step_u32|].
  apply is_u8_u32 in Hb. auto with cbits.
Qed.

(** Eight steps on a word: table lookup on the low byte, shift of the rest. *)
Lemma crc_ref_byte_split c b :
  is_u32 c -> is_u8 b ->
  crc_ref_byte c b = iter 8 crc_step ((c .^ b) .& 255) .^ (c .>> 8).
Proof.
  intros Hc Hb. unfold crc_ref_byte.
  assert (c .^ b = ((c .^ b) .& 255) .^ ((c .>> 8) .<< 8)) as E.
  { by_bits i. change 255 with (Z.ones 8). rewrite Z.testbit_ones by lia.
    destruct (Z.lt_ge_cases i 8).
    - rewrite Z.testbit_neg_r with (n := i - 8) by lia. case_z; try lia. btauto.
    - rewrite Z.shiftr_spec, (testbit_high 8 b) by (auto; lia).
      replace (i - 8 + 8) with i by lia. case_z; try lia. btauto. }
  rewrite E at 1. rewrite iter_crc_lxor. f_equal. apply (iter_crc_shift 8).
Qed.

(** ** Byte swapping *)

Lemma byte_piece x s t i :
  0 <= s -> 0 <= t -> 0 <= i ->
  Z.testbit (((x .>> s) .& 255) .<< t) i = (t <=? i) && (i <? t + 8) && Z.testbit x (i - t + s).
Proof.
  intros. rewrite Z.shiftl_spec by lia. destruct (Z.leb_spec t i).
  - change 255 with (Z.ones 8). rewrite Z.land_spec, Z.shiftr_spec, Z.testbit_ones by lia.
    case_z; try lia; btauto.
  - rewrite Z.testbit_neg_r by lia. reflexivity.
Qed.

Lemma bswap32_spec x i :
  0 <= i -> Z.testbit (bswap32 x) i =
  if i <? 8 then Z.testbit x (i + 24) else if i <? 16 then Z.testbit x (i + 8)
  else if i <? 24 then Z.testbit x (i - 8) else if i <? 32 then Z.testbit x (i - 24) else false.
Proof.
  intros Hi. unfold bswap32. rewrite <- (Z.shiftr_0_r x) at 1.
  rewrite <- (Z.shiftl_0_r ((x .>> 24) .& 255)).
  rewrite !Z.lor_spec, !byte_piece by lia.
  case_z; try lia; simpl; rewrite ?orb_false_r; f_equal; lia.
Qed.

Lemma bswap32_lxor x y : bswap32 (x .^ y) = bswap32 x .^ bswap32 y.
Proof.
  apply Z.bits_inj'. intros i Hi. rewrite Z.lxor_spec, !bswap32_spec by lia.
  rewrite !Z.lxor_spec. case_z; reflexivity.
Qed.

Lemma bswap32_u32 x : is_u32 (bswap32 x).
Proof.
  apply in_word_bits; [lia|]. split.
  - unfold bswap32. rewrite !Z.lor_nonneg, !Z.shiftl_nonneg, !Z.land_nonneg. lia.
  - intros i Hi. rewrite bswap32_spec by lia. case_z; lia || reflexivity.
Qed.

Lemma bswap32_bswap32 x : is_u32 x -> bswap32 (bswap32 x) = x.
Proof.
  intros Hx. apply Z.bits_inj'. intros i Hi.
  destruct (Z.lt_ge_cases i 32) as [H|H].
  - rewrite bswap32_spec by lia. case_z; try lia; rewrite bswap32_spec by lia;
      case_z; try lia; f_equal; lia.
  - rewrite !(testbit_high 32) by (auto using bswap32_u32; lia). reflexivity.
Qed.

Lemma bswap32_shiftr8 c : is_u32 c -> bswap32 (c .>> 8) = u32 (bswap32 c .<< 8).
Proof.
  intros Hc. apply Z.bits_inj'. intros i Hi. unfold u32. rewrite wrap_spec by lia.
  rewrite bswap32_spec, Z.shiftl_spec by lia.
  destruct (Z.lt_ge_cases i 8).
  - rewrite (Z.testbit_neg_r (bswap32 c)) by lia. case_z; try lia.
    rewrite Z.shiftr_spec, (testbit_high 32 c) by (auto; lia). reflexivity.
  - rewrite bswap32_spec by lia.
    case_z; try lia; rewrite ?andb_true_r, ?andb_false_r, ?Z.shiftr_spec by lia;
      try reflexivity; f_equal; lia.
Qed.

Lemma bswap32_low c : (bswap32 c .>> 24) .& 255 = c .& 255.
Proof.
  by_bits i. change 255 with (Z.ones 8). rewrite Z.testbit_ones, bswap32_spec by lia.
  case_z; try lia; rewrite ?andb_false_r; try reflexivity. do 2 f_equal. lia.
Qed.

(** ** The table-driven step *)

Lemma crc_table_spec n :
  0 <= n < 256 -> nth (Z.to_nat n) crc_table 0 = bswap32 (iter 8 crc_step n).
Proof.
  intros H. apply Z.eqb_eq.
  exact (forall_below_spec 256
    (fun n => nth (Z.to_nat n) crc_table 0 =? bswap32 (iter 8 crc_step n)) eq_refl n H).
Qed.

(** The static CRC-32 table is the one the generator computes from the
    polynomial's exponents. *)
Theorem crc_table_generated : make_crc_table = crc_table.
Proof. vm_compute. reflexivity. Qed.

Lemma land_lxor_255 a b : (a .^ b) .& 255 = (a .& 255) .^ (b .& 255).
Proof. by_bits i. btauto. Qed.

Lemma DO_CRC_spec c b : is_u32 c -> is_u8 b -> DO_CRC (bswap32 c) b = bswap32 (crc_ref_byte c b).
Proof.
  intros Hc Hb. unfold DO_CRC.
  rewrite crc_ref_byte_split, bswap32_lxor, bswap32_shiftr8 by auto. f_equal.
  rewrite !land_lxor_255, bswap32_low, <- land_lxor_255.
  rewrite crc_table_spec; [reflexivity|]. rewrite land_255. apply u8_range.
Qed.

Lemma u32_shl_lxor a b k : 0 <= k -> u32 ((a .^ b) .<< k) = u32 (a .<< k) .^ u32 (b .<< k).
Proof.
  intros Hk. by_bits i. unfold u32. rewrite !wrap_spec by lia.
  destruct (Z.lt_ge_cases i k).
  - rewrite !Z.shiftl_spec, !Z.testbit_neg_r by lia. reflexivity.
  - rewrite !Z.shiftl_spec, Z.lxor_spec by lia. btauto.
Qed.

Lemma DO_CRC_lxor s w x :
  DO_CRC (s .^ w) x = DO_CRC s ((w .>> 24) .^ x) .^ u32 (w .<< 8).
Proof.
  unfold DO_CRC. rewrite u32_shl_lxor, Z.shiftr_lxor, !Z.lxor_assoc by lia. reflexivity.
Qed.

Lemma DO_CRC_mod s x y : x .& 255 = y .& 255 -> DO_CRC s x = DO_CRC s y.
Proof. intros H. unfold DO_CRC. rewrite !land_lxor_255, H. reflexivity. Qed.

(** Four steps on a word xored in are four steps on its bytes. *)
Lemma DO_CRC_word m s b :
  mem_ok m ->
  DO_CRC (DO_CRC (DO_CRC (DO_CRC (s .^ load32 m b) 0) 0) 0) 0 =
  DO_CRC (DO_CRC (DO_CRC (DO_CRC s (m b)) (m (b + 1))) (m (b + 2))) (m (b + 3)).
Proof.
  intros Hm. rewrite load32_sum by auto.
  pose proof (Hm b). pose proof (Hm (b + 1)). pose proof (Hm (b + 2)). pose proof (Hm (b + 3)).
  unfold_words. change (2 ^ 8) with 256 in *.
  generalize dependent (m b). generalize dependent (m (b + 1)).
  generalize dependent (m (b + 2)). generalize dependent (m (b + 3)). intros d3 H3 d2 H2 d1 H1 d0 H0.
  assert (forall w x, u32 w .>> 24 .& 255 = x .& 255 -> u32 w = w ->
           forall s, DO_CRC (s .^ w) 0 = DO_CRC s x .^ u32 (w .<< 8)) as E.
  { intros w x Hw Hu s'. rewrite DO_CRC_lxor, Z.lxor_0_r. f_equal. apply DO_CRC_mod.
    rewrite Hu in Hw. exact Hw. }
  assert (forall w, 0 <= w < 16777216 -> u32 (w .<< 8) = w * 256) as S.
  { intros w Hw. rewrite Z.shiftl_mul_pow2 by lia. apply u32_small. lia. }
  assert (forall a r x, 0 <= r < 16777216 -> 0 <= a < 256 -> x = a * 16777216 + r ->
            (u32 x .>> 24) .& 255 = a .& 255 /\ u32 x = x /\ u32 (x .<< 8) = r * 256) as D.
  { intros a r x Hr Ha ->. rewrite u32_small by lia. split_and!; [|reflexivity|].
    - f_equal. rewrite Z.shiftr_div_pow2 by lia. change (2 ^ 24) with 16777216.
      symmetry. apply Z.div_unique with r; lia.
    - rewrite Z.shiftl_mul_pow2 by lia. unfold u32, wrap. symmetry.
      apply Z.mod_unique with a; lia. }
  destruct (D d0 (d1 * 65536 + d2 * 256 + d3)
              (d0 * 16777216 + d1 * 65536 + d2 * 256 + d3)) as (A1 & A2 & A3); [lia..|].
  rewrite (E _ d0 A1 A2), A3.
  destruct (D d1 (d2 * 65536 + d3 * 256) ((d1 * 65536 + d2 * 256 + d3) * 256))
    as (B1 & B2 & B3); [lia..|].
  rewrite (E _ d1 B1 B2), B3.
  destruct (D d2 (d3 * 65536) ((d2 * 65536 + d3 * 256) * 256)) as (C1 & C2 & C3); [lia..|].
  rewrite (E _ d2 C1 C2), C3.
  destruct (D d3 0 (d3 * 65536 * 256)) as (D1 & D2 & D3); [lia..|].
  rewrite (E _ d3 D1 D2), D3. apply Z.lxor_0_r.
Qed.

(** ** The whole buffer *)

Lemma crc_ref_app l k c : crc_ref (l ++ k) c = crc_ref k (crc_ref l c).
Proof. apply fold_left_app. Qed.
Lemma crc_ref_cons b l c : crc_ref (b :: l) c = crc_ref l (crc_ref_byte c b).
Proof. reflexivity. Qed.

Lemma crc_ref_u32 l c : is_u32 c -> Forall is_u8 l -> is_u32 (crc_ref l c).
Proof.
  intros Hc Hl. revert c Hc. induction Hl; intros c Hc; [exact Hc|].
  rewrite crc_ref_cons. auto using crc_ref_byte_u32.
Qed.

#[local] Opaque DO_CRC bswap32 crc_ref_byte.

Section buffer.
Context (m : mem) (Hm : mem_ok m).

Lemma crc_bytes_spec n p c :
  is_u32 c -> crc_bytes n m p (bswap32 c) = bswap32 (crc_ref (read_bytes m p n) c).
Proof.
  revert p c. induction n as [|n IH]; intros p c Hc; simpl; [reflexivity|].
  rewrite DO_CRC_spec by auto. rewrite IH; [reflexivity|]. auto using crc_ref_byte_u32.
Qed.

Lemma crc_words_S n b s :
  crc_words (S n) m b s =
    crc_words n m (b + 4) (DO_CRC (DO_CRC (DO_CRC (DO_CRC (s .^ load32 m b) 0) 0) 0) 0).
Proof. reflexivity. Qed.

Lemma DO_CRC_word_spec b c :
  is_u32 c ->
  DO_CRC (DO_CRC (DO_CRC (DO_CRC (bswap32 c .^ load32 m b) 0) 0) 0) 0 =
    bswap32 (crc_ref (read_bytes m b 4) c) /\ is_u32 (crc_ref (read_bytes m b 4) c).
Proof.
  intros Hc. split; [|auto using crc_ref_u32, read_bytes_u8].
  rewrite DO_CRC_word by exact Hm. cbn [read_bytes]. rewrite !crc_ref_cons.
  replace (b + 1 + 1) with (b + 2) by lia. replace (b + 2 + 1) with (b + 3) by lia.
  assert (forall c x, is_u32 c -> is_u32 (crc_ref_byte c (m x))) as Hb
    by (intros; apply crc_ref_byte_u32; auto).
  rewrite (DO_CRC_spec c), (DO_CRC_spec (crc_ref_byte c _)),
    (DO_CRC_spec (crc_ref_byte (crc_ref_byte c _) _)),
    (DO_CRC_spec (crc_ref_byte (crc_ref_byte (crc_ref_byte c _) _) _)) by auto.
  reflexivity.
Qed.

Lemma crc_words_spec n b c :
  is_u32 c ->
  crc_words n m b (bswap32 c) =
    (bswap32 (crc_ref (read_bytes m b (n * 4)) c), b + 4 * Z.of_nat n).
Proof.
  revert b c. induction n as [|n IH]; intros b c Hc.
  - simpl. f_equal. lia.
  - destruct (DO_CRC_word_spec b c Hc) as [E Hu].
    rewrite crc_words_S, E, IH by exact Hu. rewrite <- crc_ref_app.
    change (b + 4) with (b + Z.of_nat 4). rewrite <- read_bytes_plus.
    apply (f_equal2 pair); [reflexivity|lia].
Qed.

(** The alignment loop processes a prefix and stops at a word boundary or at
    the end. *)
Lemma crc_align_spec len p c :
  is_u32 c ->
  exists k, (k <= len)%nat /\
    crc_align len m p (bswap32 c) =
      (bswap32 (crc_ref (read_bytes m p k) c), p + Z.of_nat k, (len - k)%nat).
Proof.
  revert p c. induction len as [|len IH]; intros p c Hc; cbn [crc_align].
  - exists O. split; [lia|]. simpl. rewrite Z.add_0_r. reflexivity.
  - rewrite DO_CRC_spec by auto. destruct len as [|len].
    + exists 1%nat. split; [lia|]. reflexivity.
    + destruct ((p + 1) .& 3 =? 0).
      * exists 1%nat. split; [lia|]. reflexivity.
      * destruct (IH (p + 1) (crc_ref_byte c (m p))) as (k & Hk & E);
          [auto using crc_ref_byte_u32|].
        exists (S k). split; [lia|]. rewrite E.
        replace (p + Z.of_nat (S k)) with (p + 1 + Z.of_nat k) by lia. reflexivity.
Qed.

Lemma crc32_no_comp_spec crc buf len :
  is_u32 crc -> 0 <= len ->
  crc32_no_comp m crc buf len = crc_ref (read_bytes m buf (Z.to_nat len)) crc.
Proof.
  intros Hc Hl. unfold crc32_no_comp.
  assert (forall c b n, is_u32 c ->
    (let '(c, b) := crc_words (n / 4) m b (bswap32 c) in
     bswap32 (crc_bytes (n mod 4) m b c)) = crc_ref (read_bytes m b n) c) as Tail.
  { intros c b n H. rewrite crc_words_spec by auto.
    rewrite crc_bytes_spec, bswap32_bswap32 by
      auto using crc_ref_u32, read_bytes_u8.
    rewrite <- crc_ref_app. replace (b + 4 * Z.of_nat (n / 4)) with (b + Z.of_nat (n / 4 * 4)) by lia.
    rewrite <- read_bytes_plus. do 2 f_equal. pose proof (Nat.div_mod_eq n 4). lia. }
  destruct (negb (buf .& 3 =? 0) && negb (len =? 0)); [|apply Tail; auto].
  destruct (crc_align_spec (Z.to_nat len) buf crc Hc) as (k & Hk & E). rewrite E.
  rewrite Tail by auto using crc_ref_u32, read_bytes_u8.
  rewrite <- crc_ref_app, <- read_bytes_plus. do 2 f_equal. lia.
Qed.

Lemma crc32_app crc p a b :
  is_u32 crc -> 0 <= a -> 0 <= b -> crc32 m (crc32 m crc p a) (p + a) b = crc32 m crc p (a + b).
Proof.
  intros Hc Ha Hb. unfold crc32.
  assert (is_u32 0xffffffff) by (unfold_words; lia).
  rewrite Z.lxor_assoc, Z.lxor_nilpotent, Z.lxor_0_r.
  rewrite !crc32_no_comp_spec by (auto with cbits;
    rewrite crc32_no_comp_spec by auto with cbits; auto using crc_ref_u32, read_bytes_u8 with cbits).
  rewrite <- crc_ref_app. f_equal. f_equal.
  rewrite Z2Nat.inj_add, read_bytes_plus by lia. f_equal. f_equal. lia.
Qed.
Lemma crc32_u32 crc p len : is_u32 crc -> 0 <= len -> is_u32 (crc32 m crc p len).
Proof.
  intros. unfold crc32. assert (is_u32 0xffffffff) by (unfold_words; lia).
  apply in_word_lxor; auto with cbits. rewrite crc32_no_comp_spec by auto with cbits.
  auto using crc_ref_u32, read_bytes_u8 with cbits.
Qed.

Lemma crc32_zero crc p : is_u32 crc -> crc32 m crc p 0 = crc.
Proof.
  intros. assert (is_u32 0xffffffff) by (unfold_words; lia).
  unfold crc32. rewrite crc32_no_comp_spec by auto with cbits. simpl.
  rewrite Z.lxor_assoc, Z.lxor_nilpotent. apply Z.lxor_0_r.
Qed.

Lemma crc32_wd_loop_spec fuel crc curr n chunk_sz :
  is_u32 crc -> 0 < chunk_sz -> 0 <= n -> (Z.to_nat n < fuel)%nat ->
  crc32_wd_loop fuel m crc curr (curr + n) chunk_sz = Some (crc32 m crc curr n).
Proof.
  intros Hc Hs. revert crc curr n Hc.
  induction fuel as [|fuel IH]; intros crc curr n Hc Hn Hf; [lia|]. cbn [crc32_wd_loop].
  destruct (Z.ltb_spec curr (curr + n)).
  - set (k := if chunk_sz <? curr + n - curr then chunk_sz else curr + n - curr).
    assert (0 < k <= n) by (unfold k; case_z; lia).
    replace (curr + n) with (curr + k + (n - k)) by lia.
    rewrite IH by (try lia; apply crc32_u32; auto; lia).
    rewrite crc32_app by (auto; lia). do 2 f_equal. lia.
  - replace n with 0 by lia. rewrite crc32_zero by auto. reflexivity.
Qed.
End buffer.
#[local] Transparent DO_CRC bswap32 crc_ref_byte.

(** C31: on any alignment and length, the byte-swapped, word-at-a-time code
    computes the bit-serial CRC of the bytes of the buffer. *)
Theorem crc32_no_comp_correct m crc buf len :
  mem_ok m -> is_u32 crc -> 0 <= len ->
  crc32_no_comp m crc buf len = crc_ref (read_bytes m buf (Z.to_nat len)) crc.
Proof. intros. apply crc32_no_comp_spec; assumption. Qed.

Definition ex_crc_mem : mem := put_bytes (fun _ => 0) 1001 (str "123456789").

Lemma ex_crc_mem_ok : mem_ok ex_crc_mem.
Proof. apply put_bytes_ok; [apply zero_ok|apply all_u8_spec; reflexivity]. Qed.

Lemma crc32_no_comp_correct_witness :
  crc32_no_comp ex_crc_mem 0xffffffff 1001 9 = 0xcbf43926 .^ 0xffffffff /\
  crc_ref (str "123456789") 0xffffffff = 0xcbf43926 .^ 0xffffffff.
Proof.
  split; [|reflexivity].
  rewrite (crc32_no_comp_correct ex_crc_mem 0xffffffff 1001 9);
    [reflexivity|apply ex_crc_mem_ok|unfold_words; lia|lia].
Defined.

(** Feeding the buffer in watchdog-sized chunks gives the CRC of the whole
    buffer. *)
Theorem crc32_wd_chunked m fuel crc buf len chunk_sz :
  mem_ok m -> is_u32 crc -> 0 < chunk_sz -> 0 <= len -> (Z.to_nat len < fuel)%nat ->
  crc32_wd fuel m crc buf len chunk_sz = Some (crc32 m crc buf len).
Proof. intros. apply crc32_wd_loop_spec; assumption. Qed.

Lemma crc32_wd_chunked_witness : crc32_wd 10 ex_crc_mem 0 1001 9 4 = Some 0xcbf43926.
Proof.
  rewrite (crc32_wd_chunked ex_crc_mem 10 0 1001 9 4);
    [reflexivity|apply ex_crc_mem_ok|unfold_words; lia|lia|lia|lia].
Defined.

(** ** Error detection *)

(** One step is invertible on words: the top bit of the result tells which
    branch was taken, because the polynomial has its top bit set. *)
Lemma crc_step_top c : is_u32 c -> Z.testbit (crc_step c) 31 = Z.testbit c 0.
Proof.
  intros H. unfold crc_step. rewrite land_1_eqb, crc_poly_value.
  destruct (Z.testbit c 0) eqn:E; cbn [negb].
  - rewrite Z.lxor_spec, Z.shiftr_spec, (testbit_high 32 c) by (auto; lia). reflexivity.
  - rewrite Z.shiftr_spec, (testbit_high 32 c) by (auto; lia). reflexivity.
Qed.

Lemma crc_step_zero c : is_u32 c -> crc_step c = 0 -> c = 0.
Proof.
  intros H E. pose proof (crc_step_top c H) as T. rewrite E, Z.testbit_0_l in T.
  unfold crc_step in E. rewrite land_1_eqb, <- T in E. cbn [negb] in E.
  apply Z.bits_inj'. intros i Hi. rewrite Z.testbit_0_l.
  destruct (Z.eq_dec i 0) as [->|]; [auto|].
  replace i with (i - 1 + 1) by lia. rewrite <- Z.shiftr_spec, E by lia. apply Z.testbit_0_l.
Qed.

Lemma iter_crc_step_zero n c : is_u32 c -> iter n crc_step c = 0 -> c = 0.
Proof.
  revert c. induction n as [|n IH]; intros c H E; simpl in E; [exact E|].
  apply crc_step_zero; [auto|]. apply IH; auto using crc_step_u32.
Qed.

Lemma crc_ref_byte_inj c c' b :
  is_u32 c -> is_u32 c' -> is_u8 b -> crc_ref_byte c b = crc_ref_byte c' b -> c = c'.
Proof.
  intros H H' Hb E. apply is_u8_u32 in Hb. unfold crc_ref_byte in E.
  apply Z.lxor_eq. rewrite iter_crc_lxor, iter_crc_lxor in E.
  apply (iter_crc_step_zero 8); [auto with cbits|]. rewrite iter_crc_lxor.
  apply Z.lxor_eq_0_iff.
  apply (f_equal (fun z => z .^ iter 8 crc_step b)) in E.
  rewrite !Z.lxor_assoc, Z.lxor_nilpotent, !Z.lxor_0_r in E. exact E.
Qed.

Lemma crc_ref_inj l c c' :
  is_u32 c -> is_u32 c' -> Forall is_u8 l -> crc_ref l c = crc_ref l c' -> c = c'.
Proof.
  intros H H' Hl. revert c c' H H'. induction Hl; intros c c' H1 H2 E; [exact E|].
  rewrite !crc_ref_cons in E. apply IHHl in E; auto using crc_ref_byte_u32.
  eapply crc_ref_byte_inj; eauto.
Qed.

Lemma crc_ref_byte_lxor c b : crc_ref_byte c b = iter 8 crc_step c .^ iter 8 crc_step b.
Proof. apply iter_crc_lxor. Qed.

Lemma crc_ref_byte_inj_r c b b' :
  is_u8 b -> is_u8 b' -> crc_ref_byte c b = crc_ref_byte c b' -> b = b'.
Proof.
  intros Hb Hb' E. apply is_u8_u32 in Hb, Hb'. rewrite !crc_ref_byte_lxor in E.
  apply Z.lxor_eq, (iter_crc_step_zero 8); [auto with cbits|].
  rewrite iter_crc_lxor. apply Z.lxor_eq_0_iff.
  apply (f_equal (fun z => iter 8 crc_step c .^ z)) in E.
  rewrite <- !Z.lxor_assoc, Z.lxor_nilpotent, !Z.lxor_0_l in E. exact E.
Qed.

(** The CRC depends on the bytes of the buffer only. *)
Lemma crc32_ext m m' crc p p' len :
  mem_ok m -> mem_ok m' -> is_u32 crc -> 0 <= len ->
  (forall i, 0 <= i < len -> m' (p' + i) = m (p + i)) ->
  crc32 m' crc p' len = crc32 m crc p len.
Proof.
  intros Hm Hm' Hc Hl H. assert (is_u32 0xffffffff) by (unfold_words; lia).
  unfold crc32. rewrite !crc32_no_comp_spec by auto with cbits.
  rewrite (read_bytes_ext m m' p p'); [reflexivity|]. intros. apply H. lia.
Qed.

Lemma crc32_byte_change m crc buf len a v :
  mem_ok m -> is_u32 crc -> is_u8 v -> buf <= a < buf + len -> v <> m a ->
  crc32 (upd m a v) crc buf len <> crc32 m crc buf len.
Proof.
  intros Hm Hc Hv Ha Hne E. unfold crc32 in E.
  assert (is_u32 0xffffffff) by (unfold_words; lia).
  apply (f_equal (fun z => z .^ 0xffffffff)) in E.
  rewrite !Z.lxor_assoc, !Z.lxor_nilpotent, !Z.lxor_0_r in E.
  rewrite !crc32_no_comp_spec in E by (auto with cbits cmem; lia).
  set (k := Z.to_nat (a - buf)) in *. set (j := Z.to_nat (len - (a - buf) - 1)).
  replace (Z.to_nat len) with (k + (1 + j))%nat in E by lia.
  rewrite !read_bytes_plus, !crc_ref_app in E. simpl (read_bytes _ _ 1) in E.
  replace (buf + Z.of_nat k) with a in E by lia. rewrite upd_eq in E.
  rewrite (read_bytes_ext m (upd m a v) buf buf),
    (read_bytes_ext m (upd m a v) (a + Z.of_nat 1) (a + Z.of_nat 1)) in E
    by (intros; apply upd_ne; lia).
  apply Hne. apply (crc_ref_inj (read_bytes m (a + Z.of_nat 1) j)) in E.
  - apply crc_ref_byte_inj_r in E; auto.
  - apply crc_ref_byte_u32; [|auto]. apply crc_ref_u32; auto using read_bytes_u8 with cbits.
  - apply crc_ref_byte_u32; [|auto]. apply crc_ref_u32; auto using read_bytes_u8 with cbits.
  - auto using read_bytes_u8.
Qed.

(** A single corrupted byte always changes the CRC-32 of a buffer. *)
Theorem crc32_detects_byte m crc buf len a v :
  mem_ok m -> is_u32 crc -> is_u8 v -> buf <= a < buf + len -> v <> m a ->
  crc32 (upd m a v) crc buf len <> crc32 m crc buf len.
Proof. apply crc32_byte_change. Qed.

Lemma crc32_detects_byte_witness :
  crc32 (upd ex_crc_mem 1003 0) 0 1001 9 <> crc32 ex_crc_mem 0 1001 9.
Proof.
  apply (crc32_detects_byte ex_crc_mem 0 1001 9 1003 0);
    [apply ex_crc_mem_ok|unfold_words; lia|unfold_words; lia|lia|discriminate].
Defined.

(** ** CRC-16 *)

(** The bit-serial CRC of x^16 + x^12 + x^5 + 1, most significant bit first. *)
Definition crc16_step (c : Z) : Z :=
  if Z.testbit c 15 then u16 (c .<< 1) .^ 0x1021 else u16 (c .<< 1).
Definition crc16_ref_byte (c b : Z) : Z := iter 8 crc16_step (c .^ (b .<< 8)).

Lemma crc16_tab_spec n :
  0 <= n < 256 -> nth (Z.to_nat n) crc16_tab 0 = iter 8 crc16_step (n .<< 8).
Proof.
  intros H. apply Z.eqb_eq.
  exact (forall_below_spec 256
    (fun n => nth (Z.to_nat n) crc16_tab 0 =? iter 8 crc16_step (n .<< 8)) eq_refl n H).
Qed.

Lemma crc16_step_lxor x y : crc16_step (x .^ y) = crc16_step x .^ crc16_step y.
Proof.
  unfold crc16_step. rewrite Z.lxor_spec.
  assert (u16 ((x .^ y) .<< 1) = u16 (x .<< 1) .^ u16 (y .<< 1)) as ->.
  { by_bits i. unfold u16. rewrite !wrap_spec by lia. destruct (Z.lt_ge_cases i 1).
    - rewrite !Z.shiftl_spec, !Z.testbit_neg_r by lia. reflexivity.
    - rewrite !Z.shiftl_spec, Z.lxor_spec by lia. btauto. }
  destruct (Z.testbit x 15), (Z.testbit y 15); simpl; by_bits i; btauto.
Qed.

Lemma iter_crc16_lxor n x y :
  iter n crc16_step (x .^ y) = iter n crc16_step x .^ iter n crc16_step y.
Proof.
  revert x y. induction n as [|n IH]; intros; simpl; [reflexivity|].
  rewrite crc16_step_lxor. apply IH.
Qed.

(** A value below 256 is only shifted. *)
Lemma iter_crc16_low x : 0 <= x < 256 -> iter 8 crc16_step x = u16 (x .<< 8).
Proof.
  intros H. apply Z.eqb_eq.
  exact (forall_below_spec 256 (fun x => iter 8 crc16_step x =? u16 (x .<< 8)) eq_refl x H).
Qed.

Lemma crc16_update_spec c b :
  is_u16 c -> is_u8 b -> crc16_update c b = crc16_ref_byte c b.
Proof.
  intros Hc Hb. unfold crc16_update, crc16_ref_byte.
  rewrite crc16_tab_spec by (rewrite land_255; apply u8_range).
  assert (0 <= c .& 255 < 256) as Hl by (rewrite land_255; apply u8_range).
  assert (c .^ (b .<< 8) = ((((c .>> 8) .^ b) .& 255) .<< 8) .^ (c .& 255)) as ->.
  { by_bits i. destruct (Z.lt_ge_cases i 8).
    - rewrite !(Z.testbit_neg_r _ (i - 8)) by lia. change 255 with (Z.ones 8).
      rewrite !Z.testbit_ones by lia. case_z; try lia. btauto.
    - bit_specs. change 255 with (Z.ones 8).
      rewrite !Z.testbit_ones by lia. replace (i - 8 + 8) with i by lia.
      case_z; try lia; try btauto.
      rewrite (testbit_high 16 c), (testbit_high 8 b) by (auto; lia). reflexivity. }
  rewrite iter_crc16_lxor. f_equal. rewrite iter_crc16_low by auto.
  by_bits i. unfold u16. rewrite !wrap_spec by lia.
  destruct (Z.lt_ge_cases i 8).
  - rewrite !Z.shiftl_spec, !Z.testbit_neg_r by lia. reflexivity.
  - rewrite !Z.shiftl_spec by lia. bit_specs. change 255 with (Z.ones 8).
    rewrite Z.testbit_ones by lia. case_z; try lia; btauto.
Qed.

Lemma crc16_ref_byte_u16 c b : is_u16 c -> is_u8 b -> is_u16 (crc16_ref_byte c b).
Proof.
  intros Hc Hb. unfold crc16_ref_byte. apply iter_inv.
  - intros x Hx. unfold crc16_step. case_match; [apply in_word_lxor|]; try lia.
    all: try apply (in_word_wrap 16); try lia. unfold_words; lia.
  - apply in_word_lxor; [lia|auto|]. unfold_words. rewrite Z.shiftl_mul_pow2 by lia.
    change (2 ^ 16) with 65536. change (2 ^ 8) with 256 in *. lia.
Qed.

(** The table-driven CRC-16 is the bit-serial CCITT CRC of the buffer. *)
Theorem cyg_crc16_correct buf :
  Forall is_u8 buf -> cyg_crc16 buf = fold_left crc16_ref_byte buf 0.
Proof.
  unfold cyg_crc16. assert (is_u16 0) as H0 by (unfold_words; lia).
  revert H0. generalize 0. induction buf as [|b buf IH]; intros c Hc Hf; simpl; [reflexivity|].
  inversion Hf; subst. rewrite crc16_update_spec by auto. auto using crc16_ref_byte_u16.
Qed.

Lemma cyg_crc16_correct_witness : cyg_crc16 (str "123456789") = 0x31c3.
Proof.
  rewrite (cyg_crc16_correct (str "123456789")); [reflexivity|apply all_u8_spec; reflexivity].
Defined.
