(* ===== verification/Lmb.v ===== *)
(** * Logical memory blocks (lib/lmb.c, include/lmb.h)

    The tables of memory and of reserved ranges that the boot commands use to
    place the kernel's arguments.  A table is the C array of nine slots with
    its count; its live part, the first [cnt] slots, is kept sorted and free of
    touching ranges.  Addresses and sizes are 32-bit and wrap. *)

From S2P Require Import Prelude CMem.

(** ** Data *)

Definition MAX_LMB_REGIONS : Z := 8.

Record lmb_property := Prop_ { rbase : Z; rsize : Z }.
#[global] Instance lmb_property_inhabited : Inhabited lmb_property := populate (Prop_ 0 0).
#[global] Instance lmb_property_eq_dec : EqDecision lmb_property.
Proof. solve_decision. Defined.

Record lmb_region := Region { cnt : Z; region : list lmb_property }.
Record lmb := Lmb { memory : lmb_region; reserved : lmb_region }.

Definition get (rgn : lmb_region) (i : nat) : lmb_property := region rgn !!! i.
Definition set (rgn : lmb_region) (i : nat) (base size : Z) : lmb_region :=
  Region (cnt rgn) (<[i := Prop_ base size]> (region rgn)).

(** ** Operations *)

Definition lmb_addrs_overlap (base1 size1 base2 size2 : Z) : bool :=
  (base1 <? u32 (base2 + size2)) && (base2 <? u32 (base1 + size1)).

Definition lmb_addrs_adjacent (base1 size1 base2 size2 : Z) : Z :=
  if base2 =? u32 (base1 + size1) then 1
  else if base1 =? u32 (base2 + size2) then -1 else 0.

Definition lmb_regions_adjacent (rgn : lmb_region) (r1 r2 : nat) : Z :=
  lmb_addrs_adjacent (rbase (get rgn r1)) (rsize (get rgn r1))
    (rbase (get rgn r2)) (rsize (get rgn r2)).

Fixpoint lmb_remove_loop (n i : nat) (rgn : lmb_region) : lmb_region :=
  match n with
  | O => rgn
  | S n' =>
      lmb_remove_loop n' (S i)
        (set rgn i (rbase (get rgn (S i))) (rsize (get rgn (S i))))
  end.

Definition lmb_remove_region (rgn : lmb_region) (r : nat) : lmb_region :=
  let rgn := lmb_remove_loop (Z.to_nat (u32 (cnt rgn - 1) - Z.of_nat r)) r rgn in
  Region (u32 (cnt rgn - 1)) (region rgn).

Definition lmb_coalesce_regions (rgn : lmb_region) (r1 r2 : nat) : lmb_region :=
  lmb_remove_region
    (set rgn r1 (rbase (get rgn r1)) (u32 (rsize (get rgn r1) + rsize (get rgn r2)))) r2.

(** The slots beyond the first are what the zeroed [struct lmb] holds. *)
Definition lmb_init : lmb :=
  Lmb (Region 1 (repeat (Prop_ 0 0) 9)) (Region 1 (repeat (Prop_ 0 0) 9)).

(** The first loop of [lmb_add_region]; [None] is its early [return 0]. *)
Fixpoint lmb_coalesce_scan (n i : nat) (rgn : lmb_region) (base size : Z)
  : option (lmb_region * nat * Z) :=
  match n with
  | O => Some (rgn, i, 0)
  | S n' =>
      let rgnbase := rbase (get rgn i) in
      let rgnsize := rsize (get rgn i) in
      if (rgnbase =? base) && (rgnsize =? size) then None
      else
        let adjacent := lmb_addrs_adjacent base size rgnbase rgnsize in
        if 0 <? adjacent then
          Some (set rgn i (u32 (rgnbase - size)) (u32 (rgnsize + size)), i, 1)
        else if adjacent <? 0 then
          Some (set rgn i rgnbase (u32 (rgnsize + size)), i, 1)
        else lmb_coalesce_scan n' (S i) rgn base size
  end.

(** The insertion loop, for i = n - 1 down to 0. *)
Fixpoint lmb_insert_loop (n : nat) (rgn : lmb_region) (base size : Z) : lmb_region :=
  match n with
  | O => rgn
  | S i =>
      if base <? rbase (get rgn i) then
        lmb_insert_loop i (set rgn (S i) (rbase (get rgn i)) (rsize (get rgn i))) base size
      else set rgn (S i) base size
  end.

Definition lmb_add_region (rgn : lmb_region) (base size : Z) : Z * lmb_region :=
  if (cnt rgn =? 1) && (rsize (get rgn 0) =? 0) then (0, set rgn 0 base size)
  else
    match lmb_coalesce_scan (Z.to_nat (cnt rgn)) 0 rgn base size with
    | None => (0, rgn)
    | Some (rgn, i, coalesced) =>
        let '(rgn, coalesced) :=
          if (Z.of_nat i <? u32 (cnt rgn - 1)) && negb (lmb_regions_adjacent rgn i (S i) =? 0)
          then (lmb_coalesce_regions rgn i (S i), coalesced + 1) else (rgn, coalesced) in
        if negb (coalesced =? 0) then (coalesced, rgn)
        else if MAX_LMB_REGIONS <=? cnt rgn then (-1, rgn)
        else
          let rgn := lmb_insert_loop (Z.to_nat (cnt rgn)) rgn base size in
          let rgn := if base <? rbase (get rgn 0) then set rgn 0 base size else rgn in
          (0, Region (u32 (cnt rgn + 1)) (region rgn))
    end.

Definition lmb_add (l : lmb) (base size : Z) : Z * lmb :=
  let '(r, m) := lmb_add_region (memory l) base size in (r, Lmb m (reserved l)).
Definition lmb_reserve (l : lmb) (base size : Z) : Z * lmb :=
  let '(r, v) := lmb_add_region (reserved l) base size in (r, Lmb (memory l) v).

(** The search of [lmb_free]: the index of the region that holds the range. *)
Fixpoint lmb_find (n i : nat) (rgn : lmb_region) (base end_ : Z) : option nat :=
  match n with
  | O => None
  | S n' =>
      let rgnbegin := rbase (get rgn i) in
      let rgnend := u32 (rgnbegin + rsize (get rgn i)) in
      if (rgnbegin <=? base) && (end_ <=? rgnend) then Some i
      else lmb_find n' (S i) rgn base end_
  end.

Definition lmb_free_region (rgn : lmb_region) (base size : Z) : Z * lmb_region :=
  let end_ := u32 (base + size) in
  match lmb_find (Z.to_nat (cnt rgn)) 0 rgn base end_ with
  | None => (-1, rgn)
  | Some i =>
      let rgnbegin := rbase (get rgn i) in
      let rgnsize := rsize (get rgn i) in
      let rgnend := u32 (rgnbegin + rgnsize) in
      if (rgnbegin =? base) && (rgnend =? end_) then (0, lmb_remove_region rgn i)
      else if rgnbegin =? base then (0, set rgn i end_ (u32 (rgnsize - size)))
      else if rgnend =? end_ then (0, set rgn i rgnbegin (u32 (rgnsize - size)))
      else
        lmb_add_region (set rgn i rgnbegin (u32 (base - rgnbegin))) end_ (u32 (rgnend - end_))
  end.
Definition lmb_free (l : lmb) (base size : Z) : Z * lmb :=
  let '(r, v) := lmb_free_region (reserved l) base size in (r, Lmb (memory l) v).

Fixpoint lmb_overlaps_loop (n i : nat) (rgn : lmb_region) (base size : Z) : option nat :=
  match n with
  | O => None
  | S n' =>
      if lmb_addrs_overlap base size (rbase (get rgn i)) (rsize (get rgn i)) then Some i
      else lmb_overlaps_loop n' (S i) rgn base size
  end.
(** The index of the first overlapping region; -1 is [None]. *)
Definition lmb_overlaps_region (rgn : lmb_region) (base size : Z) : option nat :=
  lmb_overlaps_loop (Z.to_nat (cnt rgn)) 0 rgn base size.

Definition LMB_ALLOC_ANYWHERE : Z := 0.
Definition lmb_align_down (addr size : Z) : Z := addr .& not32 (u32 (size - 1)).
Definition lmb_align_up (addr size : Z) : Z :=
  u32 (addr + u32 (size - 1)) .& not32 (u32 (size - 1)).

(** The inner while loop for one memory region: [inl] is a return of the
    function, [inr] says that the loop ended and the next region is tried. *)
Fixpoint lmb_alloc_try (fuel : nat) (l : lmb) (size align lmbbase base : Z)
  : option ((Z * lmb) + unit) :=
  match fuel with
  | O => None
  | S f =>
      if negb (base =? 0) && (lmbbase <=? base) then
        match lmb_overlaps_region (reserved l) base size with
        | None =>
            let '(r, v) := lmb_add_region (reserved l) base (lmb_align_up size align) in
            Some (inl (if r <? 0 then 0 else base, Lmb (memory l) v))
        | Some j =>
            let res_base := rbase (get (reserved l) j) in
            if res_base <? size then Some (inr tt)
            else lmb_alloc_try f l size align lmbbase (lmb_align_down (u32 (res_base - size)) align)
        end
      else Some (inr tt)
  end.

(** The outer loop, for i = n - 1 down to 0.  [base] is [None] when the region
    is skipped. *)
Definition lmb_alloc_start (p : lmb_property) (size align max_addr : Z) : option Z :=
  if rsize p <? size then None
  else if max_addr =? LMB_ALLOC_ANYWHERE then
    Some (lmb_align_down (u32 (u32 (rbase p + rsize p) - size)) align)
  else if rbase p <? max_addr then
    let base := Z.min (u32 (rbase p + rsize p)) max_addr in
    Some (lmb_align_down (u32 (base - size)) align)
  else None.

Fixpoint lmb_alloc_loop (n fuel : nat) (l : lmb) (size align max_addr : Z) : option (Z * lmb) :=
  match n with
  | O => Some (0, l)
  | S i =>
      let p := get (memory l) i in
      match lmb_alloc_start p size align max_addr with
      | None => lmb_alloc_loop i fuel l size align max_addr
      | Some base =>
          match lmb_alloc_try fuel l size align (rbase p) base with
          | None => None
          | Some (inl r) => Some r
          | Some (inr _) => lmb_alloc_loop i fuel l size align max_addr
          end
      end
  end.

(** The error message of [lmb_alloc_base] is left out. *)
Definition lmb_alloc_base (fuel : nat) (l : lmb) (size align max_addr : Z) : option (Z * lmb) :=
  lmb_alloc_loop (Z.to_nat (cnt (memory l))) fuel l size align max_addr.
Definition lmb_alloc (fuel : nat) (l : lmb) (size align : Z) : option (Z * lmb) :=
  lmb_alloc_base fuel l size align LMB_ALLOC_ANYWHERE.

Fixpoint lmb_is_reserved_loop (n i : nat) (rgn : lmb_region) (addr : Z) : bool :=
  match n with
  | O => false
  | S n' =>
      let upper := u32 (u32 (rbase (get rgn i) + rsize (get rgn i)) - 1) in
      if (rbase (get rgn i) <=? addr) && (addr <=? upper) then true
      else lmb_is_reserved_loop n' (S i) rgn addr
  end.
Definition lmb_is_reserved (l : lmb) (addr : Z) : bool :=
  lmb_is_reserved_loop (Z.to_nat (cnt (reserved l))) 0 (reserved l) addr.

(** * Properties *)

(** ** The live list of a table *)

Definition rend (p : lmb_property) : Z := rbase p + rsize p.
Definition valid (p : lmb_property) : Prop :=
  0 <= rbase p /\ 0 < rsize p /\ rend p < 4294967296.
Definition before (p q : lmb_property) : Prop := rend p < rbase q.
Definition disjoint_from (x p : lmb_property) : Prop := rend x <= rbase p \/ rend p <= rbase x.
Definition contains (p : lmb_property) (a : Z) : Prop := rbase p <= a < rend p.
Definition covers (l : list lmb_property) (a : Z) : Prop := Exists (fun p => contains p a) l.

(** Sorted, with a gap between any two ranges. *)
Fixpoint wf (l : list lmb_property) : Prop :=
  match l with
  | [] => True
  | p :: l' => valid p /\ Forall (before p) l' /\ wf l'
  end.

(** [l] is the live part of the nine slots. *)
Definition rep (rgn : lmb_region) (l : list lmb_property) : Prop :=
  cnt rgn = zlen l /\ exists rest, region rgn = l ++ rest /\
    length (l ++ rest) = 9%nat /\ (length l <= 8)%nat.

(** A table as the operations keep it: the initial dummy stands for the empty list. *)
Definition table (rgn : lmb_region) (l : list lmb_property) : Prop :=
  match l with
  | [] => cnt rgn = 1 /\ rsize (get rgn 0) = 0 /\ length (region rgn) = 9%nat
  | _ => rep rgn l /\ wf l
  end.

Ltac ranges := unfold valid, before, disjoint_from, contains, rend in *; simpl in *.

Lemma wf_middle l1 p l2 :
  wf (l1 ++ p :: l2) <->
  wf l1 /\ wf l2 /\ valid p /\ Forall (fun q => before q p) l1 /\ Forall (before p) l2.
Proof.
  induction l1 as [|q l1 IH]; simpl.
  - intuition.
  - rewrite IH, Forall_app, !Forall_cons_iff. split; [tauto|].
    intros ((Hq & H1 & H2) & Hl2 & Hp & [Hqp Hl1] & H3). split_and!; auto.
    eapply List.Forall_impl; [|exact H3]. intros r Hr. ranges. lia.
Qed.

Lemma wf_valid l : wf l -> Forall valid l.
Proof. induction l; simpl; intros; constructor; tauto. Qed.

Lemma wf_delete l1 p l2 : wf (l1 ++ p :: l2) -> wf (l1 ++ l2).
Proof.
  induction l1 as [|q l1 IH]; simpl; [tauto|].
  intros (Hq & Hf & Hw). split_and!; auto. apply Forall_app in Hf as [? Hf].
  inversion Hf; subst. apply Forall_app. auto.
Qed.

Lemma covers_app l1 l2 a : covers (l1 ++ l2) a <-> covers l1 a \/ covers l2 a.
Proof. apply Exists_app. Qed.
Lemma covers_cons p l a : covers (p :: l) a <-> contains p a \/ covers l a.
Proof. unfold covers. rewrite Exists_cons. reflexivity. Qed.

(** The nine slots around a live one. *)
Lemma rep_get rgn l1 p l2 i : rep rgn (l1 ++ p :: l2) -> i = length l1 -> get rgn i = p.
Proof.
  intros [_ (rest & E & _ & _)] Hi. unfold get. rewrite E, <- app_assoc.
  apply get_middle. exact Hi.
Qed.

Lemma rep_set rgn l1 p l2 i b s :
  rep rgn (l1 ++ p :: l2) -> i = length l1 -> rep (set rgn i b s) (l1 ++ Prop_ b s :: l2).
Proof.
  intros [Hc (rest & E & HL & H8)] Hi. split.
  - simpl. rewrite Hc, !zlen_app, !zlen_cons. reflexivity.
  - exists rest. simpl. rewrite E, <- !app_assoc. simpl.
    rewrite set_middle by exact Hi. split; [reflexivity|].
    len_tac.
Qed.

Lemma rep_cnt rgn l : rep rgn l -> cnt rgn = zlen l /\ (length l <= 8)%nat.
Proof. intros [Hc (rest & E & HL & H8)]. split; [auto|lia]. Qed.

(** ** Removal *)

Lemma remove_loop_spec n c l1 p l2 rest i :
  n = length l2 -> i = length l1 ->
  exists y, lmb_remove_loop n i (Region c (l1 ++ p :: l2 ++ rest)) = Region c (l1 ++ l2 ++ y :: rest).
Proof.
  revert l1 p l2 i. induction n as [|n IH]; intros l1 p l2 i Hn Hi.
  - destruct l2; [|discriminate]. exists p. reflexivity.
  - destruct l2 as [|q l2]; [discriminate|]. simpl lmb_remove_loop. unfold set, get. simpl.
    change (l1 ++ p :: q :: l2 ++ rest) with (l1 ++ [p] ++ (q :: l2 ++ rest)).
    rewrite (app_assoc l1 [p]), get_middle by (len_tac).
    rewrite <- app_assoc. simpl. rewrite set_middle by exact Hi.
    destruct q as [b s]. simpl.
    change (l1 ++ Prop_ b s :: Prop_ b s :: l2 ++ rest)
      with (l1 ++ [Prop_ b s] ++ Prop_ b s :: l2 ++ rest).
    rewrite (app_assoc l1). injection Hn as Hn.
    destruct (IH (l1 ++ [Prop_ b s]) (Prop_ b s) l2 (S i) Hn) as [y Hy];
      [len_tac|].
    exists y. rewrite Hy, <- app_assoc. reflexivity.
Qed.

Lemma remove_region_spec rgn l1 p l2 r :
  rep rgn (l1 ++ p :: l2) -> r = length l1 ->
  rep (lmb_remove_region rgn r) (l1 ++ l2).
Proof.
  intros [Hc (rest & E & HL & H8)] Hr. unfold lmb_remove_region.
  assert (u32 (cnt rgn - 1) = zlen (l1 ++ l2)) as Hc'.
  { rewrite Hc, u32_small; unfold zlen; len_tac. }
  rewrite Hc'. destruct rgn as [c arr]. simpl in *. subst arr.
  destruct (remove_loop_spec (length l2) c l1 p l2 rest r eq_refl Hr) as [y Hy].
  replace (Z.to_nat (zlen (l1 ++ l2) - Z.of_nat r)) with (length l2)
    by (rewrite zlen_app; unfold zlen; lia).
  rewrite <- app_assoc. simpl. rewrite Hy. split; [exact Hc'|]. exists (y :: rest). simpl.
  rewrite <- app_assoc. split_and!; [reflexivity|len_tac|len_tac].
Qed.

(** ** The coalescing scan *)

Definition apart (x p : lmb_property) : Prop := rend x < rbase p \/ rend p < rbase x.

Definition not_adjacent (x p : lmb_property) : Prop := rend x <> rbase p /\ rend p <> rbase x.

Lemma adjacent_spec x p :
  valid x -> valid p ->
  lmb_addrs_adjacent (rbase x) (rsize x) (rbase p) (rsize p) =
    (if rbase p =? rend x then 1 else if rbase x =? rend p then -1 else 0).
Proof. intros. ranges. unfold lmb_addrs_adjacent. rewrite !u32_small by lia. reflexivity. Qed.

(** The scan over ranges that may overlap [x], as long as none starts where it does. *)
Lemma scan_any x rgn l2 l1 i :
  valid x -> rep rgn (l1 ++ l2) -> i = length l1 -> Forall valid l2 ->
  Forall (fun p => rbase p <> rbase x) l2 ->
  (Forall (not_adjacent x) l2 /\
   lmb_coalesce_scan (length l2) i rgn (rbase x) (rsize x) = Some (rgn, (i + length l2)%nat, 0)) \/
  exists la p lb, l2 = la ++ p :: lb /\ Forall (not_adjacent x) la /\
    let j := (i + length la)%nat in
    (rend x = rbase p /\
     lmb_coalesce_scan (length l2) i rgn (rbase x) (rsize x) =
       Some (set rgn j (rbase x) (rsize p + rsize x), j, 1) \/
     rend p = rbase x /\
     lmb_coalesce_scan (length l2) i rgn (rbase x) (rsize x) =
       Some (set rgn j (rbase p) (rsize p + rsize x), j, 1)).
Proof.
  intros Hx. revert l1 i. induction l2 as [|p l2 IH]; intros l1 i Hr Hi Hv Hd.
  - left. split; [constructor|]. simpl. do 3 f_equal. lia.
  - inversion Hv; inversion Hd; subst. simpl lmb_coalesce_scan.
    rewrite (rep_get rgn l1 p l2) by auto. rewrite adjacent_spec by auto.
    rewrite (proj2 (Z.eqb_neq (rbase p) (rbase x))) by assumption. cbn [andb].
    destruct (Z.eqb_spec (rbase p) (rend x)).
    { right. exists [], p, l2. split_and!; auto. left. split; [auto|]. simpl.
      rewrite Nat.add_0_r. do 4 f_equal; ranges; rewrite u32_small; lia. }
    destruct (Z.eqb_spec (rbase x) (rend p)).
    { right. exists [], p, l2. split_and!; auto. right. split; [auto|]. simpl.
      rewrite Nat.add_0_r. do 4 f_equal; ranges; rewrite u32_small; lia. }
    simpl. assert (not_adjacent x p) by (unfold not_adjacent; auto).
    destruct (IH (l1 ++ [p]) (S (length l1))) as [[Ha E]|(la & q & lb & -> & Ha & E)]; auto.
    { rewrite <- app_assoc. exact Hr. }
    { len_tac. }
    + left. split; [auto|]. rewrite E. do 3 f_equal. lia.
    + right. exists (p :: la), q, lb. split_and!; auto. cbv zeta in *. simpl length.
      rewrite <- plus_n_Sm, <- plus_Sn_m. exact E.
Qed.

Lemma disjoint_base x p : valid x -> valid p -> disjoint_from x p -> rbase p <> rbase x.
Proof. ranges. lia. Qed.
Lemma disjoint_apart x p : disjoint_from x p -> not_adjacent x p -> apart x p.
Proof. unfold disjoint_from, not_adjacent, apart. lia. Qed.

Lemma scan_spec x rgn l2 l1 i :
  valid x -> rep rgn (l1 ++ l2) -> i = length l1 -> Forall valid l2 ->
  Forall (disjoint_from x) l2 ->
  (Forall (apart x) l2 /\
   lmb_coalesce_scan (length l2) i rgn (rbase x) (rsize x) = Some (rgn, (i + length l2)%nat, 0)) \/
  exists la p lb, l2 = la ++ p :: lb /\ Forall (apart x) la /\
    let j := (i + length la)%nat in
    (rend x = rbase p /\
     lmb_coalesce_scan (length l2) i rgn (rbase x) (rsize x) =
       Some (set rgn j (rbase x) (rsize p + rsize x), j, 1) \/
     rend p = rbase x /\
     lmb_coalesce_scan (length l2) i rgn (rbase x) (rsize x) =
       Some (set rgn j (rbase p) (rsize p + rsize x), j, 1)).
Proof.
  intros Hx Hr Hi Hv Hd.
  assert (forall l, Forall (disjoint_from x) l -> Forall (not_adjacent x) l -> Forall (apart x) l) as Hap.
  { intros l H1 H2. rewrite List.Forall_forall in *. intros p Hp. apply disjoint_apart; auto. }
  destruct (scan_any x rgn l2 l1 i Hx Hr Hi Hv) as [[Ha E]|(la & p & lb & E & Ha & H)].
  { rewrite List.Forall_forall in *. intros p Hp. apply disjoint_base; auto. }
  - left. auto.
  - right. exists la, p, lb. split_and!; auto. apply Hap; [|exact Ha]. subst l2. apply Forall_app in Hd. tauto.
Qed.

(** ** Insertion *)

Lemma insert_loop_spec x pre c h post :
  exists l1 l2, pre = l1 ++ l2 /\ Forall (fun p => rbase x < rbase p) l2 /\
    (l1 = [] \/ exists l1' q, l1 = l1' ++ [q] /\ rbase q <= rbase x) /\
    lmb_insert_loop (length pre) (Region c (pre ++ h :: post)) (rbase x) (rsize x) =
      Region c (if decide (l1 = []) then hd h pre :: l2 ++ post else l1 ++ x :: l2 ++ post).
Proof.
  revert h post. induction pre as [|p pre IH] using rev_ind; intros h post.
  - exists [], []. simpl. split_and!; auto.
  - rewrite length_app, Nat.add_comm. simpl lmb_insert_loop.
    unfold set, get. simpl. rewrite <- app_assoc. simpl. rewrite get_middle by reflexivity.
    change (pre ++ p :: h :: post) with (pre ++ [p] ++ h :: post). rewrite app_assoc.
    rewrite !set_middle by (len_tac).
    destruct (Z.ltb_spec (rbase x) (rbase p)).
    + replace (Prop_ (rbase p) (rsize p)) with p by (destruct p; reflexivity).
      rewrite <- app_assoc. simpl.
      destruct (IH p (p :: post)) as (l1 & l2 & E & H2 & H1 & ->). exists l1, (l2 ++ [p]).
      rewrite E, <- app_assoc. split_and!; auto.
      { apply Forall_app. auto. }
      f_equal. rewrite <- !app_assoc. simpl. case_decide; [|reflexivity].
      f_equal. subst l1. simpl. destruct l2; reflexivity.
    + exists (pre ++ [p]), []. rewrite app_nil_r. simpl. split_and!; auto.
      { right. eauto. }
      f_equal. destruct x as [b s]. rewrite <- !app_assoc. simpl.
      case_decide as D; [destruct pre; discriminate|reflexivity].
Qed.

(** ** Adding a range *)

(** The list after a successful insertion, and its set of addresses. *)
Definition extends (l l' : list lmb_property) (x : lmb_property) : Prop :=
  wf l' /\ forall a, covers l' a <-> covers l a \/ contains x a.

Lemma extends_front l1 p l2 x :
  wf (l1 ++ p :: l2) -> valid x -> Forall (disjoint_from x) (l1 ++ p :: l2) ->
  Forall (apart x) l1 -> rend x = rbase p ->
  extends (l1 ++ p :: l2) (l1 ++ Prop_ (rbase x) (rsize p + rsize x) :: l2) x.
Proof.
  intros Hw Hx Hd Ha He. split.
  - apply wf_middle in Hw as (H1 & H2 & Hp & H3 & H4). apply wf_middle. split_and!; auto.
    + ranges. lia.
    + apply Forall_app in Hd as [Hd _]. apply wf_valid in H1. rewrite List.Forall_forall in *.
      intros q Hq. specialize (H1 q Hq). specialize (Ha q Hq). specialize (H3 q Hq). specialize (Hd q Hq).
      unfold apart in *. ranges. lia.
    + eapply List.Forall_impl; [|exact H4]. intros q Hq. ranges. lia.
  - intros a. rewrite !covers_app, !covers_cons.
    apply wf_middle in Hw as (_ & _ & Hp & _). ranges.
    assert (rbase x <= a < rbase x + (rsize p + rsize x) <->
            rbase p <= a < rbase p + rsize p \/ rbase x <= a < rbase x + rsize x) by lia.
    tauto.
Qed.

Lemma extends_back l1 p l2 x :
  wf (l1 ++ p :: l2) -> valid x -> Forall (disjoint_from x) (l1 ++ p :: l2) ->
  Forall (apart x) l2 -> rend p = rbase x ->
  extends (l1 ++ p :: l2) (l1 ++ Prop_ (rbase p) (rsize p + rsize x) :: l2) x.
Proof.
  intros Hw Hx Hd Ha He. split.
  - apply wf_middle in Hw as (H1 & H2 & Hp & H3 & H4). apply wf_middle. split_and!; auto.
    + ranges. lia.
    + apply Forall_app in Hd as [_ Hd]. inversion Hd; subst. apply wf_valid in H2.
      rewrite List.Forall_forall in *. intros q Hq. specialize (H2 q Hq). specialize (Ha q Hq). specialize (H4 q Hq). specialize (H6 q Hq).
      unfold apart in *. ranges. lia.
  - intros a. rewrite !covers_app, !covers_cons.
    apply wf_middle in Hw as (_ & _ & Hp & _). ranges.
    assert (rbase p <= a < rbase p + (rsize p + rsize x) <->
            rbase p <= a < rbase p + rsize p \/ rbase x <= a < rbase x + rsize x) by lia.
    tauto.
Qed.

Lemma extends_join l1 p q l2 x :
  wf (l1 ++ p :: q :: l2) -> valid x -> rend p = rbase x -> rend x = rbase q ->
  extends (l1 ++ p :: q :: l2) (l1 ++ Prop_ (rbase p) (rsize p + rsize x + rsize q) :: l2) x.
Proof.
  intros Hw Hx Hp Hq. apply wf_middle in Hw as (H1 & (H2 & H5 & H6) & H3 & H4 & H7).
  inversion H7; subst. split.
  - apply wf_middle. split_and!; auto.
    + ranges. lia.
    + eapply List.Forall_impl; [|exact H5]. intros r Hr. ranges. lia.
  - intros a. rewrite !covers_app, !covers_cons. ranges.
    assert (rbase p <= a < rbase p + (rsize p + rsize x + rsize q) <->
            rbase p <= a < rbase p + rsize p \/ rbase x <= a < rbase x + rsize x \/
            rbase q <= a < rbase q + rsize q) by lia.
    tauto.
Qed.

Lemma extends_insert l1 l2 x :
  wf (l1 ++ l2) -> valid x -> Forall (apart x) (l1 ++ l2) ->
  Forall (fun p => rbase x < rbase p) l2 ->
  (l1 = [] \/ exists l1' q, l1 = l1' ++ [q] /\ rbase q <= rbase x) ->
  extends (l1 ++ l2) (l1 ++ x :: l2) x.
Proof.
  intros Hw Hx Ha H2 H1. split.
  2: { intros a. rewrite !covers_app, covers_cons. tauto. }
  apply Forall_app in Ha as [Ha1 Ha2].
  assert (Forall (before x) l2) as Hb2.
  { clear - H2 Ha2 Hx Hw. assert (Forall valid l2).
    { apply wf_valid, Forall_app in Hw. tauto. }
    rewrite List.Forall_forall in *. intros q Hq. specialize (H2 q Hq).
    specialize (Ha2 q Hq). specialize (H q Hq). unfold apart in *. ranges. lia. }
  destruct H1 as [->|(l1' & q & -> & Hq)].
  - simpl in *. auto.
  - rewrite <- app_assoc in Hw. simpl in Hw. apply wf_middle in Hw as (W1 & W2 & Vq & B1 & B2).
    apply wf_middle. apply Forall_app in Ha1 as [_ Hq1]. inversion Hq1; subst.
    assert (before q x) by (unfold apart in *; ranges; lia).
    split_and!; auto.
    + apply wf_middle. split_and!; simpl; auto.
    + apply Forall_app. split; [|auto]. eapply List.Forall_impl; [|exact B1].
      intros r Hr. ranges. lia.
Qed.

(** What [lmb_add_region] does to the live list. *)
Definition add_result (l : list lmb_property) (x : lmb_property) (rgn : lmb_region)
    (res : Z * lmb_region) : Prop :=
  (exists l', 0 <= res.1 /\ l' <> [] /\ rep res.2 l' /\ extends l l' x) \/
  (res = (-1, rgn) /\ length l = 8%nat).

Lemma regions_adjacent_spec rgn l1 p q l2 i :
  rep rgn (l1 ++ p :: q :: l2) -> i = length l1 ->
  lmb_regions_adjacent rgn i (S i) =
    lmb_addrs_adjacent (rbase p) (rsize p) (rbase q) (rsize q).
Proof.
  intros Hr Hi. unfold lmb_regions_adjacent. rewrite (rep_get rgn l1 p (q :: l2)) by auto.
  change (p :: q :: l2) with ([p] ++ q :: l2) in Hr. rewrite app_assoc in Hr.
  rewrite (rep_get rgn (l1 ++ [p]) q l2); [reflexivity|exact Hr|len_tac].
Qed.

Lemma scan_end_not_inner rgn l i : rep rgn l -> l <> [] -> (length l <= S i)%nat ->
  (Z.of_nat i <? u32 (cnt rgn - 1)) = false.
Proof.
  intros Hr Hn Hi. destruct (rep_cnt _ _ Hr) as [-> H9]. unfold zlen.
  destruct l; [congruence|]. cbn [length] in *. rewrite u32_small by lia. apply Z.ltb_ge. lia.
Qed.

(** The array after the insertion loop and the store to slot 0. *)
Lemma insert_spec x l c h post :
  wf l -> l <> [] ->
  exists l1 l2, l = l1 ++ l2 /\ Forall (fun p => rbase x < rbase p) l2 /\
    (l1 = [] \/ exists l1' q, l1 = l1' ++ [q] /\ rbase q <= rbase x) /\
    region (let rgn := lmb_insert_loop (length l) (Region c (l ++ h :: post)) (rbase x) (rsize x) in
            if rbase x <? rbase (get rgn 0) then set rgn 0 (rbase x) (rsize x) else rgn)
    = l1 ++ x :: l2 ++ post.
Proof.
  intros Hw Hn. destruct (insert_loop_spec x l c h post) as (l1 & l2 & -> & H2 & H1 & E).
  exists l1, l2. split_and!; auto. cbv zeta. rewrite E.
  destruct l1 as [|q0 l1]; simpl.
  - destruct l2 as [|p0 l2]; [simpl in Hn; congruence|]. inversion H2; subst.
    unfold get. simpl. destruct (Z.ltb_spec (rbase x) (rbase p0)); [|lia].
    destruct x. reflexivity.
  - unfold get. simpl. destruct (Z.ltb_spec (rbase x) (rbase q0)); [|reflexivity].
    destruct H1 as [|(l1' & q & Eq & Hq)]; [discriminate|].
    destruct l1' as [|q0' l1']; simpl in Eq; injection Eq as -> ->; [lia|].
    simpl in Hw. destruct Hw as (V & B & _). rewrite <- app_assoc in B.
    apply Forall_app in B as [_ B]. inversion B; subst. ranges. lia.
Qed.

Lemma add_region_insert x rgn l :
  valid x -> rep rgn l -> wf l -> l <> [] -> Forall (apart x) l ->
  (length l < 8)%nat ->
  let rgn' := lmb_insert_loop (Z.to_nat (cnt rgn)) rgn (rbase x) (rsize x) in
  let rgn' := if rbase x <? rbase (get rgn' 0) then set rgn' 0 (rbase x) (rsize x) else rgn' in
  exists l', l' <> [] /\ rep (Region (u32 (cnt rgn + 1)) (region rgn')) l' /\ extends l l' x.
Proof.
  intros Hx [Hc (rest & Er & HL & H8)] Hw Hn Ha Hroom. destruct rgn as [c arr]. simpl in *.
  subst arr c. destruct rest as [|h post]; [len_tac|].
  destruct (insert_spec x l (zlen l) h post Hw Hn) as (l1 & l2 & El & H2 & H1 & E').
  cbv zeta in E'. replace (Z.to_nat (zlen l)) with (length l) by (unfold zlen; lia).
  rewrite E'. exists (l1 ++ x :: l2). split; [destruct l1; discriminate|].
  rewrite El in *. split; [|apply extends_insert; assumption].
  split.
  - simpl. unfold zlen. rewrite u32_small; len_tac.
  - exists post. simpl. rewrite <- app_assoc. simpl. split_and!; [reflexivity|len_tac|len_tac].
Qed.

Lemma insert_loop_cnt n rgn b s : cnt (lmb_insert_loop n rgn b s) = cnt rgn.
Proof. revert rgn. induction n; intros; simpl; [reflexivity|]. case_match; [rewrite IHn|]; reflexivity. Qed.

Lemma first_size_nonzero rgn l : rep rgn l -> wf l -> l <> [] -> rsize (get rgn 0) <> 0.
Proof.
  intros Hr Hw Hn. destruct l as [|p l]; [congruence|].
  rewrite (rep_get rgn [] p l) by auto. destruct Hw as (V & _). ranges. lia.
Qed.

Lemma apart_disjoint x p : apart x p -> disjoint_from x p.
Proof. unfold apart, disjoint_from. lia. Qed.

Lemma scan_apart x rgn l :
  valid x -> rep rgn l -> wf l -> Forall (apart x) l ->
  lmb_coalesce_scan (length l) 0 rgn (rbase x) (rsize x) = Some (rgn, length l, 0).
Proof.
  intros Hx Hr Hw Ha.
  destruct (scan_spec x rgn l [] 0 Hx Hr eq_refl (wf_valid _ Hw))
    as [[_ E]|(la & q & lb & -> & _ & [[He _]|[He _]])]; [|exact E| |].
  { eapply List.Forall_impl; [|exact Ha]. apply apart_disjoint. }
  all: exfalso; apply Forall_app in Ha as [_ Ha]; inversion Ha as [|? ? Aq _]; subst;
    apply wf_middle in Hw as (_ & _ & Vq & _); unfold apart in *; ranges; lia.
Qed.

(** On a range apart from the others the code reaches the insertion. *)
Lemma add_region_no_scan x rgn l :
  valid x -> rep rgn l -> wf l -> l <> [] -> Forall (apart x) l ->
  lmb_add_region rgn (rbase x) (rsize x) =
    if MAX_LMB_REGIONS <=? cnt rgn then (-1, rgn)
    else
      let rgn' := lmb_insert_loop (Z.to_nat (cnt rgn)) rgn (rbase x) (rsize x) in
      let rgn' := if rbase x <? rbase (get rgn' 0) then set rgn' 0 (rbase x) (rsize x) else rgn' in
      (0, Region (u32 (cnt rgn + 1)) (region rgn')).
Proof.
  intros Hx Hr Hw Hn Ha. unfold lmb_add_region. destruct (rep_cnt _ _ Hr) as [Hc H8].
  rewrite (proj2 (Z.eqb_neq _ _) (first_size_nonzero _ _ Hr Hw Hn)), andb_false_r.
  assert (Z.to_nat (cnt rgn) = length l) as Hlen by (rewrite Hc; unfold zlen; lia).
  rewrite Hlen, (scan_apart x rgn l Hx Hr Hw Ha), (scan_end_not_inner _ _ _ Hr Hn) by lia.
  simpl. rewrite Hlen. case_match; [reflexivity|].
  assert (forall b : bool, cnt (if b then set (lmb_insert_loop (length l) rgn (rbase x) (rsize x)) 0 (rbase x) (rsize x)
    else lmb_insert_loop (length l) rgn (rbase x) (rsize x)) = cnt rgn) as ->
    by (intros []; simpl; apply insert_loop_cnt). reflexivity.
Qed.

Lemma add_region_full x rgn l :
  valid x -> rep rgn l -> wf l -> Forall (apart x) l -> length l = 8%nat ->
  lmb_add_region rgn (rbase x) (rsize x) = (-1, rgn).
Proof.
  intros Hx Hr Hw Ha H8. rewrite (add_region_no_scan x rgn l) by (auto; intros ->; discriminate).
  destruct (rep_cnt _ _ Hr) as [-> _]. unfold zlen. rewrite H8. reflexivity.
Qed.

Lemma add_region_apart x rgn l :
  valid x -> rep rgn l -> wf l -> l <> [] -> Forall (apart x) l ->
  add_result l x rgn (lmb_add_region rgn (rbase x) (rsize x)).
Proof.
  intros Hx Hr Hw Hn Ha. rewrite (add_region_no_scan x rgn l) by auto.
  destruct (rep_cnt _ _ Hr) as [Hc H8].
  destruct (Z.leb_spec MAX_LMB_REGIONS (cnt rgn)) as [Hfull|Hroom]; unfold MAX_LMB_REGIONS in *.
  - right. split; [reflexivity|]. unfold zlen in *. lia.
  - left. destruct (add_region_insert x rgn l) as (l' & N & R & X); auto; [unfold zlen in *; lia|].
    exists l'. simpl. split; [lia|split; [exact N|split; [exact R|exact X]]].
Qed.

Lemma coalesce_spec rgn l1 p q l2 i :
  rep rgn (l1 ++ p :: q :: l2) -> i = length l1 -> 0 <= rsize p + rsize q < 4294967296 ->
  rep (lmb_coalesce_regions rgn i (S i)) (l1 ++ Prop_ (rbase p) (rsize p + rsize q) :: l2).
Proof.
  intros Hr Hi Hs. unfold lmb_coalesce_regions.
  rewrite (rep_get rgn l1 p (q :: l2)) by auto.
  rewrite (rep_get rgn (l1 ++ [p]) q l2) by (first [rewrite <- app_assoc; exact Hr | len_tac]).
  rewrite u32_small by lia. set (p' := Prop_ _ _).
  apply (rep_set rgn l1 p (q :: l2) i (rbase p) (rsize p + rsize q)) in Hr; [|exact Hi].
  fold p' in Hr. change (p' :: q :: l2) with ([p'] ++ q :: l2) in Hr. rewrite app_assoc in Hr.
  apply (remove_region_spec _ _ _ _ (S i)) in Hr; [|len_tac].
  rewrite <- app_assoc in Hr. exact Hr.
Qed.

Lemma adjacent_before p q :
  valid p -> valid q -> before p q ->
  lmb_addrs_adjacent (rbase p) (rsize p) (rbase q) (rsize q) = 0.
Proof. intros. unfold lmb_addrs_adjacent. ranges. rewrite !u32_small by lia. branches. Qed.

(** The merge test behind the scan finds nothing when the next range is apart. *)
Lemma no_merge rgn l1 p l2 i :
  rep rgn (l1 ++ p :: l2) -> i = length l1 -> wf (l1 ++ p :: l2) ->
  (Z.of_nat i <? u32 (cnt rgn - 1)) && negb (lmb_regions_adjacent rgn i (S i) =? 0) = false.
Proof.
  intros Hr Hi Hw. destruct l2 as [|q l2].
  - rewrite (scan_end_not_inner rgn (l1 ++ [p])); [reflexivity|exact Hr|destruct l1; discriminate|len_tac].
  - rewrite (regions_adjacent_spec rgn l1 p q l2) by auto.
    apply wf_middle in Hw as (_ & (V & _) & Vp & _ & B). inversion B; subst.
    rewrite adjacent_before by auto. apply andb_false_r.
Qed.

Lemma inner_index rgn l1 p q l2 i :
  rep rgn (l1 ++ p :: q :: l2) -> i = length l1 -> (Z.of_nat i <? u32 (cnt rgn - 1)) = true.
Proof.
  intros Hr ->. destruct (rep_cnt _ _ Hr) as [-> H8]. unfold zlen.
  rewrite u32_small by len_tac. apply Z.ltb_lt. len_tac.
Qed.

Lemma add_region_spec x rgn l :
  valid x -> rep rgn l -> wf l -> l <> [] -> Forall (disjoint_from x) l ->
  add_result l x rgn (lmb_add_region rgn (rbase x) (rsize x)).
Proof.
  intros Hx Hr Hw Hn Hd. pose proof (first_size_nonzero _ _ Hr Hw Hn) as Hs.
  destruct (rep_cnt _ _ Hr) as [Hc H8].
  assert (Z.to_nat (cnt rgn) = length l) as Hlen by (rewrite Hc; unfold zlen; lia).
  destruct (scan_spec x rgn l [] 0 Hx Hr eq_refl (wf_valid _ Hw) Hd)
    as [[Ha E]|(la & p & lb & -> & Ha & [[He E]|[He E]])].
  - apply add_region_apart; auto.
  - left. unfold lmb_add_region. rewrite Hlen, (proj2 (Z.eqb_neq _ _) Hs), andb_false_r, E.
    simpl Nat.add. pose proof (extends_front la p lb x Hw Hx Hd Ha He) as X.
    rewrite (no_merge _ la (Prop_ (rbase x) (rsize p + rsize x)) lb) by
      (apply X || reflexivity || (eapply rep_set; eauto)).
    simpl. eexists. split_and!; [lia| |eapply rep_set; eauto|exact X]. destruct la; discriminate.
  - left. unfold lmb_add_region. rewrite Hlen, (proj2 (Z.eqb_neq _ _) Hs), andb_false_r, E.
    simpl Nat.add. set (rgn1 := set rgn (length la) (rbase p) (rsize p + rsize x)).
    assert (rep rgn1 (la ++ Prop_ (rbase p) (rsize p + rsize x) :: lb)) as Hr1
      by (eapply rep_set; eauto).
    destruct lb as [|q lb].
    + pose proof (extends_back la p [] x Hw Hx Hd (Forall_nil _) He) as X.
      rewrite (no_merge rgn1 la (Prop_ (rbase p) (rsize p + rsize x)) []) by (apply X || auto).
      simpl. eexists. split_and!; [lia| |exact Hr1|exact X]. destruct la; discriminate.
    + rewrite (inner_index rgn1 la (Prop_ (rbase p) (rsize p + rsize x)) q lb) by auto.
      rewrite (regions_adjacent_spec rgn1 la (Prop_ (rbase p) (rsize p + rsize x)) q lb) by auto. simpl andb.
      apply wf_middle in Hw as W. destruct W as (_ & (Vq & _) & Vp & _ & B).
      apply Forall_app in Hd as Hd'. destruct Hd' as [_ Hd']. inversion Hd' as [|? ? _ Hdq]; subst.
      inversion Hdq as [|? ? Hxq _]; subst. inversion B as [|? ? Bq _]; subst.
      unfold lmb_addrs_adjacent. simpl rbase. simpl rsize.
      rewrite !u32_small by (ranges; lia).
      destruct (Z.eqb_spec (rbase q) (rbase p + (rsize p + rsize x))).
      * simpl. eexists. split_and!; [lia| | |apply extends_join; auto; ranges; lia].
        { destruct la; discriminate. }
        replace (rsize p + rsize x + rsize q) with
          (rsize (Prop_ (rbase p) (rsize p + rsize x)) + rsize q) by reflexivity.
        apply (coalesce_spec rgn1 la (Prop_ (rbase p) (rsize p + rsize x)) q lb); auto.
        ranges. lia.
      * destruct (Z.eqb_spec (rbase p) (rbase q + rsize q)); [ranges; lia|]. simpl.
        eexists. split_and!; [lia| |exact Hr1|apply extends_back; auto].
        { destruct la; discriminate. }
        apply wf_middle in Hw as (_ & (_ & Bq' & Wlb) & _ & _ & _).
        apply wf_valid in Wlb. constructor; [unfold apart; ranges; lia|].
        rewrite List.Forall_forall in *. intros r Hin. specialize (Bq' r Hin).
        unfold apart. ranges. lia.
Qed.

(** Adding a range that is disjoint from the table either extends the set of
    covered addresses by exactly that range, keeping the table sorted and
    merged, or reports -1 on a full table and changes nothing. *)
Theorem lmb_add_region_correct rgn l base size :
  table rgn l -> valid (Prop_ base size) -> Forall (disjoint_from (Prop_ base size)) l ->
  let '(r, rgn') := lmb_add_region rgn base size in
  (0 <= r /\ exists l', table rgn' l' /\ l' <> [] /\ wf l' /\
     forall a, covers l' a <-> covers l a \/ base <= a < base + size) \/
  (r = -1 /\ rgn' = rgn /\ length l = 8%nat).
Proof.
  intros Ht Hx Hd. set (x := Prop_ base size) in *.
  change (lmb_add_region rgn base size) with (lmb_add_region rgn (rbase x) (rsize x)).
  destruct l as [|p l].
  - destruct Ht as (Hc & Hs & HL). unfold lmb_add_region. rewrite Hc, Hs. simpl.
    left. split; [lia|]. exists [x].
    assert (wf [x]) by (simpl; auto).
    split; [split; [|assumption]|split; [discriminate|split; [assumption|]]].
    + split; [simpl; rewrite Hc; reflexivity|].
      destruct rgn as [c [|p0 rest]]; [discriminate|]. exists rest. simpl in *.
      split_and!; [reflexivity|lia|lia].
    + intros a. rewrite covers_cons. unfold contains, rend. simpl. tauto.
  - destruct Ht as [Hr Hw].
    destruct (add_region_spec x rgn (p :: l) Hx Hr Hw ltac:(discriminate) Hd)
      as [(l' & H0 & Hn & Hr' & Hw' & Hc)|[E Hf]].
    + destruct (lmb_add_region rgn (rbase x) (rsize x)) as [r rgn'] eqn:E. simpl in *. left. split; [lia|].
      exists l'. split_and!; auto. destruct l'; [congruence|]. split; auto.
    + rewrite E. right. auto.
Qed.

Lemma lmb_init_table : table (memory lmb_init) [] /\ table (reserved lmb_init) [].
Proof. split; (split_and!; reflexivity). Qed.

Definition ex_table : lmb_region :=
  (lmb_add_region (lmb_add_region (reserved lmb_init) 0x100000 0x40000).2 0x4000 0x1000).2.

Lemma ex_table_ok : table ex_table [Prop_ 0x4000 0x1000; Prop_ 0x100000 0x40000].
Proof.
  split.
  - split; [reflexivity|]. eexists. split_and!; [vm_compute; reflexivity|reflexivity|simpl; lia].
  - repeat (split || constructor); vm_compute; (reflexivity || discriminate).
Qed.

Lemma lmb_add_region_correct_witness :
  exists rgn', lmb_add_region ex_table 0x5000 0x1000 = (1, rgn') /\
    exists l', table rgn' l' /\ covers l' 0x5fff.
Proof.
  assert (valid (Prop_ 0x5000 0x1000)) as V by (ranges; lia).
  assert (Forall (disjoint_from (Prop_ 0x5000 0x1000)) [Prop_ 0x4000 0x1000; Prop_ 0x100000 0x40000])
    as D by (repeat constructor; ranges; lia).
  pose proof (lmb_add_region_correct ex_table _ 0x5000 0x1000 ex_table_ok V D) as H.
  assert (exists rgn', lmb_add_region ex_table 0x5000 0x1000 = (1, rgn')) as [rgn' E]
    by (eexists; vm_compute; reflexivity).
  rewrite E in H. exists rgn'. split; [exact E|].
  destruct H as [(_ & l' & Ht & _ & _ & Hc)|(H & _)]; [|discriminate].
  exists l'. split; [exact Ht|]. apply Hc. right. lia.
Defined.

(** *** A block whose rounded-up tail runs into its neighbours

    The allocator reserves the rounded size of a block of which only the exact
    size is free.  The table may then hold overlapping ranges; it still covers
    what it covered, and the block. *)
Definition covering (rgn : lmb_region) (l : list lmb_property) (x : lmb_property) : Prop :=
  exists l', rep rgn l' /\ Forall valid l' /\ forall a, covers l' a <-> covers l a \/ contains x a.

Lemma covering_front rgn la p lb x :
  rep rgn (la ++ p :: lb) -> wf (la ++ p :: lb) -> valid x -> rend x = rbase p ->
  covering (set rgn (length la) (rbase x) (rsize p + rsize x)) (la ++ p :: lb) x.
Proof.
  intros Hr Hw Hx He. exists (la ++ Prop_ (rbase x) (rsize p + rsize x) :: lb).
  split; [eapply rep_set; eauto|]. pose proof (wf_valid _ Hw) as V. apply Forall_app in V as [V1 V2].
  inversion V2 as [|? ? Vp V3]; subst. split.
  - apply Forall_app. split; [exact V1|]. constructor; [ranges; lia|exact V3].
  - intros a. rewrite !covers_app, !covers_cons. ranges.
    assert (rbase x <= a < rbase x + (rsize p + rsize x) <->
            rbase p <= a < rbase p + rsize p \/ rbase x <= a < rbase x + rsize x) by lia.
    tauto.
Qed.
Lemma covering_back rgn la p lb x :
  rep rgn (la ++ p :: lb) -> wf (la ++ p :: lb) -> valid x -> rend p = rbase x ->
  covering (set rgn (length la) (rbase p) (rsize p + rsize x)) (la ++ p :: lb) x.
Proof.
  intros Hr Hw Hx He. exists (la ++ Prop_ (rbase p) (rsize p + rsize x) :: lb).
  split; [eapply rep_set; eauto|]. pose proof (wf_valid _ Hw) as V. apply Forall_app in V as [V1 V2].
  inversion V2 as [|? ? Vp V3]; subst. split.
  - apply Forall_app. split; [exact V1|]. constructor; [ranges; lia|exact V3].
  - intros a. rewrite !covers_app, !covers_cons. ranges.
    assert (rbase p <= a < rbase p + (rsize p + rsize x) <->
            rbase p <= a < rbase p + rsize p \/ rbase x <= a < rbase x + rsize x) by lia.
    tauto.
Qed.

(** The neighbours of a merged range. *)
Lemma wf_next la p q lb : wf (la ++ p :: q :: lb) -> valid p /\ valid q /\ rend p < rbase q.
Proof. intros Hw. apply wf_middle in Hw as (_ & (Vq & _) & Vp & _ & B). inversion B. auto. Qed.

Lemma add_front x rgn la p lb :
  rep rgn (la ++ p :: lb) -> wf (la ++ p :: lb) -> valid x -> rend x = rbase p ->
  let rgn1 := set rgn (length la) (rbase x) (rsize p + rsize x) in
  (Z.of_nat (length la) <? u32 (cnt rgn1 - 1)) && negb (lmb_regions_adjacent rgn1 (length la) (S (length la)) =? 0) = false.
Proof.
  intros Hr Hw Hx He rgn1. pose proof (rep_set rgn la p lb (length la) (rbase x) (rsize p + rsize x) Hr) as Hr1; specialize (Hr1 eq_refl).
  fold rgn1 in Hr1. destruct lb as [|q lb].
  - rewrite (scan_end_not_inner rgn1 _ (length la) Hr1); [reflexivity|destruct la; discriminate|len_tac].
  - destruct (wf_next _ _ _ _ Hw) as (Vp & Vq & Hpq).
    rewrite (regions_adjacent_spec rgn1 la _ q lb) by (exact Hr1 || reflexivity).
    rewrite adjacent_before; [apply andb_false_r|ranges; lia|exact Vq|ranges; lia].
Qed.

Lemma add_back x rgn la p lb :
  rep rgn (la ++ p :: lb) -> wf (la ++ p :: lb) -> valid x -> rend p = rbase x ->
  let rgn1 := set rgn (length la) (rbase p) (rsize p + rsize x) in
  let merge := (Z.of_nat (length la) <? u32 (cnt rgn1 - 1)) && negb (lmb_regions_adjacent rgn1 (length la) (S (length la)) =? 0) in
  covering (if merge then lmb_coalesce_regions rgn1 (length la) (S (length la)) else rgn1) (la ++ p :: lb) x.
Proof.
  intros Hr Hw Hx He rgn1 merge.
  pose proof (rep_set rgn la p lb (length la) (rbase p) (rsize p + rsize x) Hr) as Hr1; specialize (Hr1 eq_refl). fold rgn1 in Hr1.
  pose proof (covering_back rgn la p lb x Hr Hw Hx He) as Hc. fold rgn1 in Hc.
  destruct merge eqn:Em; [|exact Hc]. unfold merge in Em. clear merge. destruct lb as [|q lb].
  - rewrite (scan_end_not_inner rgn1 _ (length la) Hr1) in Em; [discriminate|destruct la; discriminate|len_tac].
  - destruct (wf_next _ _ _ _ Hw) as (Vp & Vq & Hpq).
    rewrite (regions_adjacent_spec rgn1 la _ q lb) in Em by (exact Hr1 || reflexivity).
    rewrite adjacent_spec in Em by (exact Vq || (ranges; lia)).
    assert (rbase q = rend x) as Eq.
    { apply andb_true_iff in Em as [_ Em]. destruct (Z.eqb_spec (rbase q) (rend (Prop_ (rbase p) (rsize p + rsize x)))); [ranges; lia|].
      destruct (Z.eqb_spec (rbase (Prop_ (rbase p) (rsize p + rsize x))) (rend q)); [ranges; lia|discriminate]. }
    pose proof (extends_join la p q lb x Hw Hx He (eq_sym Eq)) as [W C].
    eexists. split; [|split; [apply (wf_valid _ W)|exact C]].
    change (rsize p + rsize x + rsize q) with (rsize (Prop_ (rbase p) (rsize p + rsize x)) + rsize q).
    apply (coalesce_spec rgn1 la (Prop_ (rbase p) (rsize p + rsize x)) q lb); [exact Hr1|reflexivity|ranges; lia].
Qed.

Lemma add_region_tail x rgn l :
  valid x -> rep rgn l -> wf l -> l <> [] -> Forall (fun p => rbase p <> rbase x) l ->
  let '(r, rgn') := lmb_add_region rgn (rbase x) (rsize x) in 0 <= r -> covering rgn' l x.
Proof.
  intros Hx Hr Hw Hn Hd. pose proof (first_size_nonzero _ _ Hr Hw Hn) as Hs.
  destruct (rep_cnt _ _ Hr) as [Hc H8]. unfold lmb_add_region.
  replace (Z.to_nat (cnt rgn)) with (length l) by (rewrite Hc; unfold zlen; lia).
  rewrite (proj2 (Z.eqb_neq _ _) Hs), andb_false_r.
  destruct (scan_any x rgn l [] 0 Hx Hr eq_refl (wf_valid _ Hw) Hd)
    as [[Ha E]|(la & p & lb & -> & Ha & [[He E]|[He E]])]; rewrite E; cbn [Nat.add].
  - rewrite (scan_end_not_inner _ _ _ Hr Hn) by lia. cbn [andb Z.eqb negb].
    destruct (Z.leb_spec MAX_LMB_REGIONS (cnt rgn)) as [Hfull|Hroom]; [lia|]. intros _.
    unfold MAX_LMB_REGIONS in Hroom. destruct Hr as [Hc' (rest & Er & HL & _)]. destruct rgn as [c arr]. cbn [cnt region] in *. subst arr c.
    destruct rest as [|h post]; [unfold zlen in *; len_tac|].
    destruct (insert_spec x l (zlen l) h post Hw Hn) as (l1 & l2 & El & _ & _ & E'). cbv zeta in E'.
    unfold zlen in *. exists (l1 ++ x :: l2). rewrite El in *. split; [|split].
    + split; [cbn [cnt]|].
      * unfold zlen. match goal with |- u32 (cnt ?r + 1) = _ => replace (cnt r) with (Z.of_nat (length (l1 ++ l2))) end.
        { rewrite u32_small; len_tac. }
        symmetry. match goal with |- cnt (if ?b then _ else _) = _ => destruct b end; unfold set; cbn [cnt]; rewrite insert_loop_cnt; reflexivity.
      * exists post. rewrite !Nat2Z.id. cbn [region]. split_and!; [etransitivity; [exact E'|rewrite <- app_assoc; reflexivity]|len_tac|len_tac].
    + apply wf_valid in Hw. apply Forall_app in Hw as [V1 V2]. apply Forall_app. split; [exact V1|constructor; assumption].
    + intros a. rewrite !covers_app, covers_cons. tauto.
  - rewrite (add_front x rgn la p lb Hr Hw Hx He). cbn [Z.eqb negb]. intros _. apply covering_front; assumption.
  - pose proof (add_back x rgn la p lb Hr Hw Hx He) as B. cbv zeta in B.
    destruct (_ && _); cbn [Z.add Pos.add Z.eqb negb]; intros _; exact B.
Qed.

(** ** Freeing a range *)

Lemma find_spec x rgn lb p la l1 i :
  valid x -> rep rgn (l1 ++ la ++ p :: lb) -> i = length l1 -> Forall valid la -> valid p ->
  Forall (fun q => before q p) la -> rbase p <= rbase x -> rend x <= rend p ->
  lmb_find (length (la ++ p :: lb)) i rgn (rbase x) (rend x) = Some (i + length la)%nat.
Proof.
  intros Hx. revert l1 i. induction la as [|q la IH]; intros l1 i Hr Hi Hv Vp Hb H1 H2; simpl.
  - rewrite (rep_get rgn l1 p lb) by auto. rewrite u32_small by (ranges; lia). fold (rend p).
    rewrite (proj2 (Z.leb_le _ _) H1), (proj2 (Z.leb_le _ _) H2). simpl. f_equal. lia.
  - inversion Hv as [|? ? Vq Vl]; inversion Hb as [|? ? Bq Hb']; subst.
    rewrite (rep_get rgn l1 q (la ++ p :: lb)) by auto. rewrite u32_small by (ranges; lia).
    fold (rend q). assert ((rend x <=? rend q) = false) as -> by (apply Z.leb_gt; ranges; lia).
    rewrite andb_false_r, (IH (l1 ++ [q]) (S (length l1))) by
      (first [rewrite <- app_assoc; exact Hr | len_tac | assumption]).
    apply (f_equal Some). lia.
Qed.

Definition removes (l l' : list lmb_property) (x : lmb_property) : Prop :=
  wf l' /\ forall a, covers l' a <-> covers l a /\ ~ contains x a.

Lemma wf_uncovered l1 p l2 a : wf (l1 ++ p :: l2) -> contains p a -> ~ covers (l1 ++ l2) a.
Proof.
  intros Hw Hp Hc. apply wf_middle in Hw as (_ & _ & _ & H3 & H4).
  apply covers_app in Hc as [Hc|Hc]; apply Exists_exists in Hc as (q & Hq & Ha).
  - rewrite List.Forall_forall in H3. specialize (H3 q Hq).
    ranges. lia.
  - rewrite List.Forall_forall in H4. specialize (H4 q Hq).
    ranges. lia.
Qed.

Lemma removes_split l1 p l2 l' x :
  wf (l1 ++ p :: l2) -> valid x -> rbase p <= rbase x -> rend x <= rend p -> wf l' ->
  (forall a, covers l' a <-> covers (l1 ++ l2) a \/
     rbase p <= a < rbase x \/ rend x <= a < rend p) ->
  removes (l1 ++ p :: l2) l' x.
Proof.
  intros Hw Hx H1 H2 Hw' H. split; [exact Hw'|]. intros a. rewrite H, !covers_app, covers_cons.
  pose proof (wf_uncovered l1 p l2 a Hw) as U. rewrite covers_app in U.
  unfold contains in *. pose proof Hx as [? [? ?]]. unfold rend in *.
  split; [|intros [[?|[?|?]] ?]; auto; right; lia].
  intros [C|C]; [|split; [right; left|]; lia].
  split; [tauto|]. intros Hn. apply U; [lia|exact C].
Qed.

Lemma free_region_find rgn l1 p l2 x :
  rep rgn (l1 ++ p :: l2) -> wf (l1 ++ p :: l2) -> valid x ->
  rbase p <= rbase x -> rend x <= rend p ->
  lmb_find (Z.to_nat (cnt rgn)) 0 rgn (rbase x) (u32 (rbase x + rsize x)) = Some (length l1).
Proof.
  intros Hr Hw Hx H1 H2. destruct (rep_cnt _ _ Hr) as [Hc _].
  replace (Z.to_nat (cnt rgn)) with (length (l1 ++ p :: l2)) by (rewrite Hc; unfold zlen; lia).
  rewrite u32_small by (ranges; lia). fold (rend x).
  apply wf_middle in Hw as (W1 & _ & Vp & B1 & _).
  apply (find_spec x rgn l2 p l1 [] 0); auto using wf_valid.
Qed.

Lemma lmb_free_region_spec rgn l1 p l2 x :
  rep rgn (l1 ++ p :: l2) -> wf (l1 ++ p :: l2) -> valid x ->
  rbase p <= rbase x -> rend x <= rend p ->
  (rbase p = rbase x \/ rend p = rend x \/ (length (l1 ++ p :: l2) < 8)%nat) ->
  exists r rgn' l', lmb_free_region rgn (rbase x) (rsize x) = (r, rgn') /\ 0 <= r /\
    rep rgn' l' /\ removes (l1 ++ p :: l2) l' x.
Proof.
  intros Hr Hw Hx H1 H2 Hroom. unfold lmb_free_region.
  rewrite (free_region_find rgn l1 p l2 x) by auto. rewrite (rep_get rgn l1 p l2) by auto.
  apply wf_middle in Hw as W. destruct W as (W1 & W2 & Vp & B1 & B2).
  rewrite !u32_small by (ranges; lia). fold (rend x) (rend p).
  destruct (Z.eqb_spec (rbase p) (rbase x)) as [Eb|Eb];
    destruct (Z.eqb_spec (rend p) (rend x)) as [Ee|Ee]; simpl.
  - do 3 eexists. split_and!; [reflexivity|lia|apply (remove_region_spec _ l1 p l2); auto|].
    apply removes_split; auto; [apply (wf_delete l1 p l2); auto|].
    intros a. assert (~ (rbase p <= a < rbase x \/ rend x <= a < rend p)) by lia. tauto.
  - do 3 eexists. split_and!; [reflexivity|lia|eapply rep_set; eauto|].
    apply removes_split; auto.
    + apply wf_middle. split_and!; auto; [ranges; lia| |].
      * eapply List.Forall_impl; [|exact B1]. intros q Hq. ranges. lia.
      * eapply List.Forall_impl; [|exact B2]. intros q Hq. ranges. lia.
    + intros a. rewrite !covers_app, covers_cons. unfold contains. ranges.
      assert (rbase x + rsize x <= a < rbase x + rsize x + (rsize p - rsize x) <->
        rbase p <= a < rbase x \/ rbase x + rsize x <= a < rbase p + rsize p) by lia. tauto.
  - do 3 eexists. split_and!; [reflexivity|lia|eapply rep_set; eauto|].
    apply removes_split; auto.
    + apply wf_middle. split_and!; auto; [ranges; lia|].
      eapply List.Forall_impl; [|exact B2]. intros q Hq. ranges. lia.
    + intros a. rewrite !covers_app, covers_cons. unfold contains. ranges.
      assert (rbase p <= a < rbase p + (rsize p - rsize x) <->
        rbase p <= a < rbase x \/ rbase x + rsize x <= a < rbase p + rsize p) by lia. tauto.
  - set (f := Prop_ (rbase p) (rbase x - rbase p)). set (t := Prop_ (rend x) (rend p - rend x)).
    assert (rep (set rgn (length l1) (rbase p) (rbase x - rbase p)) (l1 ++ f :: l2)) as Hr1
      by (eapply rep_set; eauto).
    assert (wf (l1 ++ f :: l2)) as Wf.
    { apply wf_middle. split_and!; auto; [ranges; lia|].
      eapply List.Forall_impl; [|exact B2]. intros q Hq. ranges. lia. }
    assert (Forall (disjoint_from t) (l1 ++ f :: l2)) as Dt.
    { apply Forall_app. split; [|constructor].
      - eapply List.Forall_impl; [|exact B1]. intros q Hq. ranges. lia.
      - ranges. lia.
      - eapply List.Forall_impl; [|exact B2]. intros q Hq. ranges. lia. }
    destruct (add_region_spec t _ (l1 ++ f :: l2) ltac:(ranges; lia) Hr1 Wf) as [(l' & R0 & _ & R' & W' & C)|[_ F]].
    { destruct l1; discriminate. } { exact Dt. }
    + change (rbase t) with (rend x) in *. change (rsize t) with (rend p - rend x) in *.
      destruct (lmb_add_region _ _ _) as [r rgn'] eqn:E. simpl in R0, R'.
      exists r, rgn', l'. split_and!; auto. apply removes_split; auto.
      intros a. rewrite C, !covers_app, covers_cons. unfold contains, f, t, rend. simpl.
      assert (rbase x + rsize x <= a < rbase x + rsize x + (rbase p + rsize p - (rbase x + rsize x)) <->
        rbase x + rsize x <= a < rbase p + rsize p) by lia.
      assert (rbase p <= a < rbase p + (rbase x - rbase p) <-> rbase p <= a < rbase x) by lia. tauto.
    + exfalso. len_tac.
Qed.

(** Freeing a range inside a reserved region uncovers exactly that range,
    whether the region goes, shrinks at either end or is split (when the table
    has room for the second half). *)
Theorem lmb_free_correct l l1 p l2 base size :
  rep (reserved l) (l1 ++ p :: l2) -> wf (l1 ++ p :: l2) -> valid (Prop_ base size) ->
  rbase p <= base -> base + size <= rend p ->
  rbase p = base \/ rend p = base + size \/ (length (l1 ++ p :: l2) < 8)%nat ->
  exists r res', lmb_free l base size = (r, Lmb (memory l) res') /\ 0 <= r /\
    exists l', rep res' l' /\ wf l' /\
      forall a, covers l' a <-> covers (l1 ++ p :: l2) a /\ ~ (base <= a < base + size).
Proof.
  intros Hr Hw Hx H1 H2 H3.
  destruct (lmb_free_region_spec (reserved l) l1 p l2 (Prop_ base size) Hr Hw Hx H1 H2 H3)
    as (r & res' & l' & E & H0 & Hr' & Hw' & Hc).
  exists r, res'. unfold lmb_free. simpl in E. rewrite E. split_and!; auto. eauto.
Qed.

Lemma lmb_free_correct_witness :
  exists res' l', lmb_free (Lmb ex_table ex_table) 0x110000 0x1000 = (0, Lmb ex_table res') /\
    rep res' l' /\ ~ covers l' 0x110fff.
Proof.
  destruct (lmb_free_correct (Lmb ex_table ex_table) [Prop_ 0x4000 0x1000] (Prop_ 0x100000 0x40000)
    [] 0x110000 0x1000) as (r & res' & E & _ & l' & Hr & _ & Hc).
  - apply ex_table_ok.
  - apply ex_table_ok.
  - ranges. lia.
  - simpl. lia.
  - ranges. lia.
  - right. right. simpl. lia.
  - exists res', l'. split_and!; [|exact Hr|intros C; apply Hc in C; lia].
    rewrite E. f_equal. apply (f_equal fst) in E. vm_compute in E. simpl. congruence.
Defined.

(** With all eight slots live the split fails after the region has been cut:
    the part behind the hole is no longer reserved. *)
Lemma lmb_free_full_loses_tail rgn l1 p l2 x :
  rep rgn (l1 ++ p :: l2) -> wf (l1 ++ p :: l2) -> valid x ->
  rbase p < rbase x -> rend x < rend p -> length (l1 ++ p :: l2) = 8%nat ->
  lmb_free_region rgn (rbase x) (rsize x) =
    (-1, set rgn (length l1) (rbase p) (rbase x - rbase p)).
Proof.
  intros Hr Hw Hx H1 H2 H8. unfold lmb_free_region.
  rewrite (free_region_find rgn l1 p l2 x) by (auto; lia). rewrite (rep_get rgn l1 p l2) by auto.
  apply wf_middle in Hw as W. destruct W as (W1 & W2 & Vp & B1 & B2).
  rewrite !u32_small by (ranges; lia). fold (rend x) (rend p).
  destruct (Z.eqb_spec (rbase p) (rbase x)); [lia|].
  destruct (Z.eqb_spec (rend p) (rend x)); [lia|]. simpl.
  set (f := Prop_ (rbase p) (rbase x - rbase p)). set (t := Prop_ (rend x) (rend p - rend x)).
  set (rgn1 := set rgn (length l1) (rbase p) (rbase x - rbase p)).
  assert (rep rgn1 (l1 ++ f :: l2)) as Hr1 by (eapply rep_set; eauto).
  assert (wf (l1 ++ f :: l2)) as Wf.
  { apply wf_middle. split_and!; auto; [ranges; lia|].
    eapply List.Forall_impl; [|exact B2]. intros q Hq. ranges. lia. }
  assert (Forall (apart t) (l1 ++ f :: l2)) as Dt.
  { unfold apart. apply Forall_app. split; [|constructor].
    - eapply List.Forall_impl; [|exact B1]. intros q Hq. ranges. lia.
    - ranges. lia.
    - eapply List.Forall_impl; [|exact B2]. intros q Hq. ranges. lia. }
  apply (add_region_full t rgn1 (l1 ++ f :: l2)); auto; [ranges; lia|len_tac].
Qed.

(** Freeing the only region leaves a count of 0, on which the next
    reservation is lost when it lies above the stale slot 0: the table then
    lists the freed range again. *)
Lemma lmb_reserve_after_free_all :
  let l := (lmb_reserve lmb_init 0x4000 0x1000).2 in
  let l := (lmb_free l 0x4000 0x1000).2 in
  let l := (lmb_reserve l 0x100000 0x1000).2 in
  lmb_is_reserved l 0x100000 = false /\ lmb_is_reserved l 0x4000 = true.
Proof. vm_compute. auto. Qed.

(** ** Allocation *)

Definition range_ok (p : lmb_property) : Prop :=
  0 <= rbase p /\ 0 <= rsize p /\ rend p < 4294967296.
Definition overlaps (base size : Z) (p : lmb_property) : Prop :=
  base < rend p /\ rbase p < base + size.

Lemma align_down_spec a k :
  0 <= k < 32 -> 0 <= a < 4294967296 -> lmb_align_down a (2 ^ k) = a / 2 ^ k * 2 ^ k.
Proof.
  intros Hk Ha. unfold lmb_align_down, not32.
  assert (0 < 2 ^ k < 4294967296).
  { split; [apply Z.pow_pos_nonneg; lia|]. change 4294967296 with (2 ^ 32).
    apply Z.pow_lt_mono_r; lia. }
  rewrite (u32_small (2 ^ k - 1)) by lia.
  assert (2 ^ k - 1 = Z.ones k) as -> by (rewrite Z.ones_equiv; lia).
  rewrite <- Z.shiftl_mul_pow2, <- Z.shiftr_div_pow2, <- Z.ldiff_ones_r by lia.
  by_bits i. unfold u32. rewrite wrap_spec, Z.lnot_spec, Z.ldiff_spec by lia.
  destruct (Z.ltb_spec i 32); [rewrite andb_true_r; reflexivity|].
  rewrite (testbit_high 32 a) by (try exact Ha; lia). reflexivity.
Qed.

Lemma align_down_le a k :
  0 <= k < 32 -> 0 <= a < 4294967296 ->
  0 <= lmb_align_down a (2 ^ k) <= a /\ (2 ^ k | lmb_align_down a (2 ^ k)).
Proof.
  intros Hk Ha. rewrite align_down_spec by auto.
  assert (0 < 2 ^ k) by (apply Z.pow_pos_nonneg; lia).
  pose proof (Z.div_mod a (2 ^ k)). pose proof (Z.mod_pos_bound a (2 ^ k)).
  pose proof (Z.div_pos a (2 ^ k)). split; [nia|]. exists (a / 2 ^ k). reflexivity.
Qed.

Lemma overlaps_loop_spec rgn l2 l1 i base size :
  rep rgn (l1 ++ l2) -> i = length l1 -> Forall range_ok l2 ->
  0 <= base -> 0 <= size -> base + size < 4294967296 ->
  match lmb_overlaps_loop (length l2) i rgn base size with
  | None => Forall (fun p => ~ overlaps base size p) l2
  | Some j => In (get rgn j) l2 /\ overlaps base size (get rgn j)
  end.
Proof.
  revert l1 i. induction l2 as [|p l2 IH]; intros l1 i Hr Hi Hv H1 H2 H3; simpl; [constructor|].
  inversion Hv as [|? ? Vp Vl]; subst. rewrite (rep_get rgn l1 p l2) by auto.
  unfold lmb_addrs_overlap, range_ok, rend in *. rewrite !u32_small by lia.
  destruct ((base <? rbase p + rsize p) && (rbase p <? base + size)) eqn:E.
  - rewrite (rep_get rgn l1 p l2) by auto. split; [left; reflexivity|].
    unfold overlaps, rend. lia.
  - specialize (IH (l1 ++ [p]) (S (length l1))). rewrite <- app_assoc in IH.
    specialize (IH Hr ltac:(len_tac) Vl H1 H2 H3).
    destruct (lmb_overlaps_loop _ _ _ _ _) as [j|].
    + split; [right|]; apply IH.
    + constructor; [unfold overlaps, rend; lia|exact IH].
Qed.

(** How many reserved ranges start below an address: the measure of the search. *)
Fixpoint starts_below (b : Z) (l : list lmb_property) : nat :=
  match l with
  | [] => 0
  | p :: l' => (if rbase p <? b then 1 else 0) + starts_below b l'
  end.

Lemma starts_below_mono b b' l : b' <= b -> (starts_below b' l <= starts_below b l)%nat.
Proof. intros H. induction l as [|p l IH]; simpl; [lia|]. case_z; lia. Qed.
Lemma starts_below_lt b b' l p :
  b' <= b -> In p l -> rbase p < b -> b' <= rbase p -> (starts_below b' l < starts_below b l)%nat.
Proof.
  intros H. induction l as [|q l IH]; simpl; [tauto|]. intros [->|Hin] H1 H2.
  - pose proof (starts_below_mono b b' l H). case_z; lia.
  - specialize (IH Hin H1 H2). case_z; lia.
Qed.
Lemma starts_below_length b l : (starts_below b l <= length l)%nat.
Proof. induction l as [|p l IH]; simpl; [lia|]. case_z; lia. Qed.

(** Rounding down, for any alignment. *)
Lemma align_down_bound a align : 0 <= a -> 0 <= lmb_align_down a align <= a.
Proof. intros Ha. unfold lmb_align_down. apply land_le, Ha. Qed.
#[export] Hint Resolve align_down_bound : uboot.

(** The allocator for any alignment, a power of two or not. *)
Section alloc.
Context (l : lmb) (lr : list lmb_property) (size align : Z).
Context (Hrep : rep (reserved l) lr) (Hlr : Forall range_ok lr).
Context (Hsize : 0 < size < 4294967296).

Definition aligned (b : Z) : Prop := exists a, 0 <= a < 4294967296 /\ b = lmb_align_down a align.

(** The address is free, aligned and inside the window [lo, hi). *)
Definition good (lo hi b : Z) : Prop :=
  b <> 0 /\ lo <= b /\ b + size <= hi /\ aligned b /\
  Forall (fun p => ~ overlaps b size p) lr.

(** What a reservation of the found block leaves. *)
Definition taken (b : Z) (res : Z * lmb) : Prop :=
  let '(r, v) := lmb_add_region (reserved l) b (lmb_align_up size align) in
  res = (if r <? 0 then 0 else b, Lmb (memory l) v).

Lemma alloc_try_spec fuel lo hi b :
  (starts_below (b + size) lr < fuel)%nat ->
  0 <= b -> b + size <= hi -> hi < 4294967296 -> aligned b ->
  match lmb_alloc_try fuel l size align lo b with
  | None => False
  | Some (inl res) => exists b', good lo hi b' /\ taken b' res
  | Some (inr _) => True
  end.
Proof.
  revert b. induction fuel as [|fuel IH]; intros b Hf H0 H1 H2 Hd; [lia|].
  cbn [lmb_alloc_try].
  destruct (Z.eqb_spec b 0) as [|Hb0]; [exact I|].
  destruct (Z.leb_spec lo b) as [Hlo|]; [|exact I]. cbn [negb andb].
  unfold lmb_overlaps_region. destruct (rep_cnt _ _ Hrep) as [Hc _].
  replace (Z.to_nat (cnt (reserved l))) with (length lr) by (rewrite Hc; unfold zlen; lia).
  pose proof (overlaps_loop_spec (reserved l) lr [] 0 b size Hrep eq_refl Hlr H0 ltac:(lia) ltac:(lia)) as O.
  destruct (lmb_overlaps_loop _ _ _ _ _) as [j|].
  - set (q := get (reserved l) j) in *. destruct O as [Hin [O1 O2]].
    destruct (Z.ltb_spec (rbase q) size); [exact I|].
    assert (range_ok q) as Vq by (rewrite List.Forall_forall in Hlr; auto).
    unfold range_ok, rend in *. rewrite (u32_small (rbase q - size)) by lia.
    pose proof (align_down_bound (rbase q - size) align ltac:(lia)) as Hle.
    apply IH; auto; try lia; [|eexists; split; [|reflexivity]; lia].
    pose proof (starts_below_lt (b + size) (lmb_align_down (rbase q - size) align + size) lr q
      ltac:(lia) Hin ltac:(lia) ltac:(lia)). lia.
  - destruct (lmb_add_region _ _ _) as [r v] eqn:E. exists b. split.
    + split_and!; auto.
    + unfold taken. rewrite E. reflexivity.
Qed.

(** The window a memory region offers below [max_addr]. *)
Definition window_end (p : lmb_property) (max_addr : Z) : Z :=
  if max_addr =? 0 then rend p else Z.min (rend p) max_addr.

Lemma alloc_start_spec p max_addr b :
  range_ok p -> max_addr = 0 \/ size <= max_addr < 4294967296 ->
  lmb_alloc_start p size align max_addr = Some b ->
  0 <= b /\ b + size <= window_end p max_addr /\ aligned b.
Proof.
  unfold lmb_alloc_start, window_end, LMB_ALLOC_ANYWHERE, range_ok, rend. intros Vp Hm H.
  destruct (Z.ltb_spec (rsize p) size); [discriminate|].
  destruct (Z.eqb_spec max_addr 0).
  - injection H as <-. rewrite !u32_small by (rewrite ?u32_small; lia).
    pose proof (align_down_bound (rbase p + rsize p - size) align ltac:(lia)).
    split_and!; try lia. eexists; split; [|reflexivity]; lia.
  - destruct (Z.ltb_spec (rbase p) max_addr); [|discriminate]. injection H as <-.
    rewrite (u32_small (rbase p + rsize p)) by lia. rewrite (u32_small (_ - size)) by lia.
    pose proof (align_down_bound (Z.min (rbase p + rsize p) max_addr - size) align ltac:(lia)).
    split_and!; try lia. eexists; split; [|reflexivity]; lia.
Qed.

Lemma alloc_loop_spec fuel max_addr l2 n :
  (length lr < fuel)%nat -> max_addr = 0 \/ size <= max_addr < 4294967296 ->
  (exists rest, rep (memory l) (l2 ++ rest)) -> n = length l2 -> Forall range_ok l2 ->
  match lmb_alloc_loop n fuel l size align max_addr with
  | None => False
  | Some res => res = (0, l) \/
      exists p b, In p l2 /\ good (rbase p) (window_end p max_addr) b /\ taken b res
  end.
Proof.
  intros Hf Hm. revert n. induction l2 as [|p l2 IH] using rev_ind; intros n [rest Hr] -> Hv.
  - simpl. auto.
  - rewrite length_app, Nat.add_comm. simpl Nat.add. cbn [lmb_alloc_loop].
    apply Forall_app in Hv as [Hv Vp]. inversion Vp as [|? ? Vp' _]; subst.
    rewrite <- app_assoc in Hr. rewrite (rep_get (memory l) l2 p rest) by auto.
    specialize (IH _ (ex_intro _ ([p] ++ rest) Hr) eq_refl Hv).
    assert (match lmb_alloc_loop (length l2) fuel l size align max_addr with
      | None => False
      | Some res => res = (0, l) \/ exists q b, In q (l2 ++ [p]) /\
          good (rbase q) (window_end q max_addr) b /\ taken b res
      end) as Hnext.
    { case_match; [|exact IH]. destruct IH as [->|(q & b & ? & ? & ?)]; [auto|].
      right. exists q, b. rewrite in_app_iff. auto. }
    destruct (lmb_alloc_start p size align max_addr) as [b|] eqn:Es; [|exact Hnext].
    destruct (alloc_start_spec p max_addr b Vp' Hm Es) as (B1 & B2 & B3).
    pose proof (alloc_try_spec fuel (rbase p) (window_end p max_addr) b) as T.
    pose proof (starts_below_length (b + size) lr).
    assert (window_end p max_addr < 4294967296) by
      (unfold window_end, range_ok, rend in *; case_z; lia).
    specialize (T ltac:(lia) B1 B2 ltac:(lia) B3).
    destruct (lmb_alloc_try _ _ _ _ _ _) as [[res|u]|]; [|exact Hnext|exact T].
    right. destruct T as (b' & G & T). exists p, b'. rewrite in_app_iff. simpl. auto.
Qed.
End alloc.

(** What an allocation finds, or 0 with the state unchanged or the table full. *)
Lemma alloc_base_spec fuel l lm lr size align max_addr :
  rep (memory l) lm -> Forall range_ok lm -> rep (reserved l) lr -> Forall range_ok lr ->
  0 < size < 4294967296 -> max_addr = 0 \/ size <= max_addr < 4294967296 ->
  (length lr < fuel)%nat ->
  exists b l', lmb_alloc_base fuel l size align max_addr = Some (b, l') /\
    (b = 0 \/
     exists p, In p lm /\ rbase p <= b /\ b + size <= rend p /\
       (max_addr = 0 \/ b + size <= max_addr) /\ aligned align b /\
       Forall (fun q => ~ overlaps b size q) lr /\
       0 <= (lmb_add_region (reserved l) b (lmb_align_up size align)).1 /\
       Lmb (memory l) (lmb_add_region (reserved l) b (lmb_align_up size align)).2 = l').
Proof.
  intros Hm Vm Hr Vr Hs Hmax Hf. unfold lmb_alloc_base.
  destruct (rep_cnt _ _ Hm) as [Hc _].
  pose proof (alloc_loop_spec l lr size align Hr Vr Hs fuel max_addr lm (Z.to_nat (cnt (memory l))) Hf Hmax) as A.
  specialize (A ltac:(exists []; rewrite app_nil_r; exact Hm) ltac:(rewrite Hc; unfold zlen; lia) Vm).
  destruct (lmb_alloc_loop _ _ _ _ _ _) as [[b l']|]; [|contradiction]. exists b, l'.
  split; [reflexivity|]. destruct A as [E|(p & b' & Hin & (G1 & G2 & G3 & G4 & G5) & T)].
  - injection E as -> ->. auto.
  - unfold taken in T. destruct (lmb_add_region _ _ _) as [r v] eqn:Ea.
    injection T as -> ->. destruct (Z.ltb_spec r 0); [auto|]. right. exists p.
    unfold window_end in G3. rewrite Ea. split_and!; auto; case_z_in G3; lia.
Qed.


Definition ex_lmb : lmb :=
  (lmb_reserve (lmb_add lmb_init 0 0x2000000).2 0x1f00000 0x100000).2.


(** With [max_addr] below the size the subtraction wraps: the code hands out an
    address that is in no memory region. *)
Lemma lmb_alloc_base_wraps :
  option_map fst (lmb_alloc_base 10 ex_lmb 0x2000 0x1000 0x1000) = Some 0xfffff000.
Proof. vm_compute. reflexivity. Qed.
