(* ===== verification/CircBuf.v ===== *)
(** * Circular buffer (lib/circbuf.c, include/circbuf.h)

    The byte queue of the USB terminal: a block of memory used as a ring, a
    pointer to the oldest byte and one to the next free cell, a push that
    overwrites the oldest bytes when the ring is full.  The specification is a
    bounded queue, a list of bytes. *)

From S2P Require Import Prelude CMem.

(** ** Data and operations *)

Record circbuf := Circbuf {
  size : Z; totalsize : Z; top : Z; tail : Z; data : Z; end_ : Z
}.

(** [p] is what malloc returned for the data block. *)
Definition buf_init (p sz : Z) : Z * circbuf := (1, Circbuf 0 sz p p p (p + sz)).

(** free() gives the data block back; the descriptor is cleared. *)
Definition buf_free (buf : circbuf) : Z * circbuf := (1, Circbuf 0 0 0 0 0 0).

(** *p++ with the bounds check behind it. *)
Definition advance (buf : circbuf) (p : Z) : Z :=
  if p + 1 =? end_ buf then data buf else p + 1.

Fixpoint buf_pop_loop (n : nat) (m : mem) (buf : circbuf) (p dest : Z) : mem * Z :=
  match n with
  | O => (m, p)
  | S n' => buf_pop_loop n' (upd m dest (m p)) buf (advance buf p) (dest + 1)
  end.

Definition buf_pop (m : mem) (buf : circbuf) (dest len : Z) : Z * mem * circbuf :=
  let len := if size buf <? len then size buf else len in
  let '(m, p) := buf_pop_loop (Z.to_nat len) m buf (top buf) dest in
  (len, m, Circbuf (size buf - len) (totalsize buf) p (tail buf) (data buf) (end_ buf)).

Definition buf_push_byte (buf : circbuf) : circbuf :=
  if size buf <? totalsize buf then
    Circbuf (size buf + 1) (totalsize buf) (top buf) (tail buf) (data buf) (end_ buf)
  else
    Circbuf (size buf) (totalsize buf) (advance buf (top buf)) (tail buf) (data buf) (end_ buf).

Fixpoint buf_push_loop (n : nat) (m : mem) (buf : circbuf) (p src : Z) : mem * circbuf * Z :=
  match n with
  | O => (m, buf, p)
  | S n' =>
      let m := upd m p (m src) in
      let p := advance buf p in
      buf_push_loop n' m (buf_push_byte buf) p (src + 1)
  end.

Definition buf_push (m : mem) (buf : circbuf) (src len : Z) : Z * mem * circbuf :=
  let '(m, buf, p) := buf_push_loop (Z.to_nat len) m buf (tail buf) src in
  (len, m, Circbuf (size buf) (totalsize buf) (top buf) p (data buf) (end_ buf)).

(** * Properties *)

(** ** The abstract queue *)

Definition queue_push1 (N : Z) (q : list Z) (c : Z) : list Z :=
  if zlen q <? N then q ++ [c] else drop 1 q ++ [c].
Definition queue_push (N : Z) (q l : list Z) : list Z := fold_left (queue_push1 N) l q.

(** A bounded queue keeps the last [N] bytes. *)
Lemma queue_push_last N q l :
  0 < N -> zlen q <= N ->
  queue_push N q l = drop (length (q ++ l) - Z.to_nat N) (q ++ l).
Proof.
  intros HN. revert q. induction l as [|c l IH]; intros q Hq; simpl.
  - rewrite app_nil_r. replace (length q - Z.to_nat N)%nat with O by (unfold zlen in Hq; lia).
    reflexivity.
  - assert (zlen (queue_push1 N q c) <= N) as H1.
    { unfold queue_push1, zlen in *. destruct (Z.ltb_spec (Z.of_nat (length q)) N); len_tac. }
    rewrite IH by exact H1. unfold queue_push1. destruct (Z.ltb_spec (zlen q) N) as [H|H].
    + rewrite <- app_assoc. reflexivity.
    + rewrite <- app_assoc. simpl. destruct q as [|b q]; [unfold zlen in *; simpl in *; lia|].
      cbn [drop]. unfold zlen in *.
      replace (length ((b :: q) ++ c :: l) - Z.to_nat N)%nat
        with (S (length (q ++ c :: l) - Z.to_nat N)) by len_tac.
      rewrite drop_0. reflexivity.
Qed.

Section ring.
Context (d N : Z) (HN : 0 < N).

(** The ring cells from offset [x] on hold [q]. *)
Fixpoint ring_at (m : mem) (x : Z) (q : list Z) : Prop :=
  match q with
  | [] => True
  | c :: q' => m (d + x mod N) = c /\ ring_at m (x + 1) q'
  end.

(** The buffer in memory [m] with its next free cell at [p] holds the queue [q]. *)
Definition ring_to (m : mem) (buf : circbuf) (p : Z) (q : list Z) : Prop :=
  data buf = d /\ end_ buf = d + N /\ totalsize buf = N /\ size buf = zlen q /\ zlen q <= N /\
  exists x, top buf = d + x mod N /\ p = d + (x + zlen q) mod N /\ ring_at m x q.
Definition ring (m : mem) (buf : circbuf) (q : list Z) : Prop := ring_to m buf (tail buf) q.

Lemma advance_spec buf x :
  data buf = d -> end_ buf = d + N -> advance buf (d + x mod N) = d + (x + 1) mod N.
Proof.
  intros Hd He. unfold advance. rewrite Hd, He.
  pose proof (Z.mod_pos_bound x N HN). rewrite <- Z.add_mod_idemp_l by lia.
  destruct (Z.eqb_spec (d + x mod N + 1) (d + N)).
  - replace (x mod N + 1) with N by lia. rewrite Z.mod_same by lia. lia.
  - rewrite (Z.mod_small (x mod N + 1)) by lia. lia.
Qed.

Lemma ring_at_app m x q k : ring_at m x (q ++ k) <-> ring_at m x q /\ ring_at m (x + zlen q) k.
Proof.
  revert x. induction q as [|c q IH]; intros x; simpl.
  - rewrite zlen_nil, Z.add_0_r. tauto.
  - rewrite IH, zlen_cons. replace (x + 1 + zlen q) with (x + (zlen q + 1)) by lia. tauto.
Qed.

Lemma ring_at_ext m m' x q :
  (forall a, d <= a < d + N -> m' a = m a) -> ring_at m x q -> ring_at m' x q.
Proof.
  intros H. revert x. induction q as [|c q IH]; intros x; simpl; [auto|]. intros [<- Hq].
  split; [|auto]. apply H. pose proof (Z.mod_pos_bound x N HN). lia.
Qed.

(** Writing the cell behind the queue keeps the queue. *)
Lemma ring_at_upd m x q y v :
  x + zlen q <= y < x + N -> ring_at m x q -> ring_at (upd m (d + y mod N) v) x q.
Proof.
  revert x. induction q as [|c q IH]; intros x Hy; simpl; [auto|]. intros [<- Hq]. zlen_simpl.
  split; [|apply IH; auto; lia]. apply upd_ne. intros E.
  assert ((y - x) mod N = 0) as E0.
  { rewrite Zminus_mod. replace (y mod N) with (x mod N) by lia. rewrite Z.sub_diag.
    apply Z.mod_0_l. lia. }
  rewrite Z.mod_small in E0 by lia. lia.
Qed.

(** One iteration of the push loop is a push of the queue. *)
Lemma push_step m buf p q c :
  ring_to m buf p q -> ring_to (upd m p c) (buf_push_byte buf) (advance buf p) (queue_push1 N q c).
Proof.
  intros (Hd & He & Ht & Hs & Hq & x & Htop & -> & Hr). unfold buf_push_byte, queue_push1.
  rewrite Hs, Ht, advance_spec by auto. zlen_simpl. destruct (Z.ltb_spec (zlen q) N) as [Hl|Hl].
  - unfold ring_to. simpl. split_and!; auto; try (zlen_simpl; lia).
    exists x. split_and!; auto.
    + zlen_simpl. do 2 f_equal. lia.
    + apply ring_at_app. split; [apply ring_at_upd; auto; lia|]. simpl. rewrite upd_eq. auto.
  - destruct q as [|b q]; [zlen_simpl; lia|]. cbn [drop]. rewrite drop_0.
    destruct Hr as [_ Hr]. unfold ring_to. simpl. rewrite Htop, advance_spec by auto.
    split_and!; auto; try (zlen_simpl; lia). exists (x + 1). split_and!; auto.
    + zlen_simpl. do 2 f_equal. lia.
    + zlen_simpl. apply ring_at_app. split.
      * apply ring_at_upd; auto. lia.
      * simpl. replace (x + 1 + zlen q) with (x + (zlen q + 1)) by lia. rewrite upd_eq. auto.
Qed.

(** A region apart from the ring's cells. *)
Definition outside (a n : Z) : Prop := a + n <= d \/ d + N <= a.

Lemma ring_to_free m buf p q : ring_to m buf p q -> d <= p < d + N.
Proof.
  intros (_ & _ & _ & _ & _ & x & _ & -> & _).
  pose proof (Z.mod_pos_bound (x + zlen q) N HN). lia.
Qed.

Lemma push_loop_spec n m buf p q src :
  ring_to m buf p q -> outside src (Z.of_nat n) ->
  exists m' buf' p', buf_push_loop n m buf p src = (m', buf', p') /\
    ring_to m' buf' p' (queue_push N q (read_bytes m src n)) /\ same_outside d (d + N) m m'.
Proof.
  revert m buf p q src. induction n as [|n IH]; intros m buf p q src Hr Ho.
  - exists m, buf, p. split_and!; auto with cmem.
  - cbn [buf_push_loop read_bytes]. pose proof (ring_to_free _ _ _ _ Hr) as Hp.
    destruct (IH _ _ _ _ (src + 1) (push_step m buf p q (m src) Hr)) as (m' & buf' & p' & E & R & S).
    { unfold outside in *. lia. }
    exists m', buf', p'. split_and!; [exact E| |].
    + replace (read_bytes m (src + 1) n) with (read_bytes (upd m p (m src)) (src + 1) n); [exact R|].
      apply read_bytes_ext. intros i Hi. apply upd_ne. unfold outside in *. lia.
    + eapply same_outside_trans; [|exact S]. auto with cmem.
Qed.

Lemma pop_loop_spec n m buf x q dest :
  data buf = d -> end_ buf = d + N -> (n <= length q)%nat ->
  ring_at m x q -> outside dest (Z.of_nat n) ->
  exists m', buf_pop_loop n m buf (d + x mod N) dest = (m', d + (x + Z.of_nat n) mod N) /\
    bytes_at m' dest (take n q) /\ ring_at m' (x + Z.of_nat n) (drop n q) /\
    same_outside dest (dest + Z.of_nat n) m m'.
Proof.
  intros Hd He. revert m x q dest. induction n as [|n IH]; intros m x q dest Hn Hr Ho.
  - exists m. rewrite Z.add_0_r, drop_0. split_and!; auto with cmem. exact I.
  - destruct q as [|c q]; [simpl in Hn; lia|]. destruct Hr as [Hc Hr]. cbn [buf_pop_loop].
    rewrite advance_spec, Hc by auto.
    assert (ring_at (upd m dest c) (x + 1) q) as Hr'.
    { eapply ring_at_ext; [|exact Hr]. intros a Ha. apply upd_ne. unfold outside in *. lia. }
    destruct (IH (upd m dest c) (x + 1) q (dest + 1) ltac:(simpl in Hn; lia) Hr') as (m' & -> & B & R & S).
    { unfold outside in *. lia. }
    replace (x + 1 + Z.of_nat n) with (x + Z.of_nat (Datatypes.S n)) in * by lia.
    exists m'. split; [reflexivity|split; [|split; [exact R|]]].
    + split; [|exact B]. rewrite (S dest) by lia. apply upd_eq.
    + eapply same_outside_trans with (upd m dest c); [auto with cmem|].
      * apply same_outside_upd; [apply same_outside_refl|lia].
      * eapply same_outside_weaken; [exact S|lia|lia].
Qed.
End ring.

(** Pushing appends to the queue and, beyond the capacity, drops the oldest
    bytes; nothing outside the data block changes. *)
Theorem buf_push_correct d N m buf q src len :
  0 < N -> ring d N m buf q -> 0 <= len -> outside d N src len ->
  let '(r, m', buf') := buf_push m buf src len in
  r = len /\
  (let all := q ++ read_bytes m src (Z.to_nat len) in
   ring d N m' buf' (drop (length all - Z.to_nat N) all)) /\
  same_outside d (d + N) m m'.
Proof.
  intros HN Hr Hl Ho. unfold buf_push.
  destruct (push_loop_spec d N HN (Z.to_nat len) m buf (tail buf) q src Hr) as (m' & b & p & -> & R & S).
  { rewrite Z2Nat.id by lia. exact Ho. }
  split_and!; [reflexivity| |exact S]. cbv zeta.
  rewrite <- queue_push_last; [exact R|lia|]. destruct Hr as (_ & _ & _ & _ & Hq & _). exact Hq.
Qed.

(** Popping copies the oldest bytes, at most as many as there are, and
    removes them from the queue. *)
Theorem buf_pop_correct d N m buf q dest len :
  0 < N -> ring d N m buf q -> 0 <= len -> outside d N dest len ->
  let '(r, m', buf') := buf_pop m buf dest len in
  r = Z.min len (zlen q) /\ bytes_at m' dest (take (Z.to_nat len) q) /\
  ring d N m' buf' (drop (Z.to_nat len) q) /\ same_outside dest (dest + r) m m'.
Proof.
  intros HN (Hd & He & Ht & Hs & Hq & x & Htop & Htail & Hr) Hl Ho. unfold buf_pop. rewrite Hs.
  set (k := if zlen q <? len then zlen q else len).
  assert (k = Z.min len (zlen q)) as Hk by (unfold k; case_z; lia). zlen_simpl.
  destruct (pop_loop_spec d N HN (Z.to_nat k) m buf x q dest Hd He) as (m' & E & B & R & S);
    [unfold zlen in *; lia|exact Hr|unfold outside in *; lia|].
  rewrite Htop, E. split; [exact Hk|].
  assert (take (Z.to_nat k) q = take (Z.to_nat len) q) as <-.
  { destruct (Z.min_spec len (zlen q)) as [[? E']|[? E']]; rewrite Hk, E'; [reflexivity|].
    rewrite !take_ge by (unfold zlen in *; lia). reflexivity. }
  assert (drop (Z.to_nat k) q = drop (Z.to_nat len) q) as <-.
  { destruct (Z.min_spec len (zlen q)) as [[? E']|[? E']]; rewrite Hk, E'; [reflexivity|].
    rewrite !drop_ge by (unfold zlen in *; lia). reflexivity. }
  split; [exact B|]. rewrite Z2Nat.id in * by lia. split; [|exact S].
  assert (zlen (drop (Z.to_nat k) q) = zlen q - k) as Hz by (unfold zlen in *; len_tac).
  unfold ring, ring_to. simpl. rewrite Hz. split_and!; auto; try lia.
  exists (x + k). split_and!; auto. rewrite Htail. do 2 f_equal. lia.
Qed.

Definition ex_ring_mem : mem := put_bytes (fun _ => 0) 64 (str "abcdef").

Lemma buf_init_ring m d N : 0 < N -> ring d N m (buf_init d N).2 [].
Proof.
  intros. unfold ring, ring_to. change (@zlen Z []) with 0. simpl.
  split_and!; auto; [lia|]. exists 0. split_and!; [| |exact I]; symmetry; exact (Z.add_0_r d).
Qed.

Lemma buf_push_correct_witness :
  exists m' buf', buf_push ex_ring_mem (buf_init 16 4).2 64 6 = (6, m', buf') /\
    ring 16 4 m' buf' (str "cdef").
Proof.
  pose proof (buf_push_correct 16 4 ex_ring_mem (buf_init 16 4).2 [] 64 6 ltac:(lia)
    (buf_init_ring ex_ring_mem 16 4 ltac:(lia)) ltac:(lia) ltac:(unfold outside; lia)) as H.
  destruct (buf_push ex_ring_mem (buf_init 16 4).2 64 6) as [[r m'] buf'].
  destruct H as (-> & H & _). exists m', buf'. split; [reflexivity|exact H].
Defined.

Lemma buf_pop_correct_witness :
  exists buf m' buf', ring 16 4 (put_bytes (fun _ => 0) 16 (str "abcd")) buf (str "cda") /\
    buf_pop (put_bytes (fun _ => 0) 16 (str "abcd")) buf 64 2 = (2, m', buf') /\
    bytes_at m' 64 (str "cd") /\ ring 16 4 m' buf' (str "a").
Proof.
  set (m := put_bytes (fun _ => 0) 16 (str "abcd")). set (buf := Circbuf 3 4 18 17 16 20).
  assert (ring 16 4 m buf (str "cda")) as R.
  { unfold ring, ring_to. split_and!; try reflexivity; [vm_compute; discriminate|].
    exists 2. split; [reflexivity|split; [reflexivity|]]. vm_compute. tauto. }
  pose proof (buf_pop_correct 16 4 m buf (str "cda") 64 2 ltac:(lia) R ltac:(lia)
    ltac:(unfold outside; lia)) as H.
  exists buf. destruct (buf_pop m buf 64 2) as [[r m'] buf'] eqn:E. exists m', buf'.
  destruct H as (Hr & B & R' & _). split_and!; [exact R| |exact B|exact R'].
  f_equal. f_equal. exact Hr.
Defined.
