(* ===== verification/AddrMap.v ===== *)
(** * The virtual/physical address map (lib/addr_map.c)

    A fixed table of mapped ranges; both directions return the first range
    that holds the address.  The ranges are compared in 64 bits. *)

From S2P Require Import Prelude CMem.

Record map_entry := Entry { paddr : Z; esize : Z; vaddr : Z }.
#[global] Instance map_entry_inhabited : Inhabited map_entry := populate (Entry 0 0 0).

(** The two searches; a zero size marks a free slot, ~0 says "not mapped". *)
Fixpoint addrmap_virt_to_phys (address_map : list map_entry) (addr : Z) : Z :=
  match address_map with
  | [] => 0xffffffff
  | e :: rest =>
      if esize e =? 0 then addrmap_virt_to_phys rest addr
      else
        let base := vaddr e in
        let upper := u64 (esize e + base - 1) in
        if (base <=? addr) && (addr <=? upper)
        then u32 (u32 (addr - vaddr e) + paddr e)
        else addrmap_virt_to_phys rest addr
  end.

Fixpoint addrmap_phys_to_virt (address_map : list map_entry) (addr : Z) : Z :=
  match address_map with
  | [] => 0xffffffff
  | e :: rest =>
      if esize e =? 0 then addrmap_phys_to_virt rest addr
      else
        let base := paddr e in
        let upper := u64 (esize e + base - 1) in
        if (base <=? addr) && (addr <=? upper)
        then u32 (u32 (addr - paddr e) + vaddr e)
        else addrmap_phys_to_virt rest addr
  end.

(** [n] is CONFIG_SYS_NUM_ADDR_MAP.  [None] is a store outside the table. *)
Definition addrmap_set_entry (n : Z) (address_map : list map_entry)
    (va pa sz idx : Z) : option (list map_entry) :=
  if n <? idx then Some address_map
  else if (0 <=? idx) && (idx <? zlen address_map)
  then Some (<[Z.to_nat idx := Entry pa sz va]> address_map)
  else None.

(** * Properties *)

Definition entry_ok (e : map_entry) : Prop :=
  0 <= paddr e /\ 0 <= vaddr e /\ 0 <= esize e /\
  paddr e + esize e <= 4294967296 /\ vaddr e + esize e <= 4294967296.
Definition in_virt (e : map_entry) (a : Z) : Prop := vaddr e <= a < vaddr e + esize e.
Definition in_phys (e : map_entry) (a : Z) : Prop := paddr e <= a < paddr e + esize e.

(** The physical windows of different entries are disjoint. *)
Definition phys_disjoint (e f : map_entry) : Prop := forall a, in_phys e a -> ~ in_phys f a.

Ltac entry := unfold entry_ok, in_virt, in_phys in *.

Lemma virt_to_phys_hit l a :
  Forall entry_ok l -> 0 <= a ->
  (exists e, In e l /\ in_virt e a /\ addrmap_virt_to_phys l a = a - vaddr e + paddr e) \/
  (Forall (fun e => ~ in_virt e a) l /\ addrmap_virt_to_phys l a = 0xffffffff).
Proof.
  intros Hl Ha. induction Hl as [|e l He Hl IH]; [right; auto|]. cbn [addrmap_virt_to_phys].
  assert (u64 (esize e + vaddr e - 1) = esize e + vaddr e - 1 \/ esize e = 0) as Hu.
  { destruct (Z.eq_dec (esize e) 0); [auto|left]. apply wrap_small. unfold_words. entry. lia. }
  assert (~ in_virt e a ->
    (exists e', In e' (e :: l) /\ in_virt e' a /\ addrmap_virt_to_phys l a = a - vaddr e' + paddr e') \/
    (Forall (fun e' => ~ in_virt e' a) (e :: l) /\ addrmap_virt_to_phys l a = 0xffffffff)) as Hnext.
  { intros Hn. destruct IH as [(f & Hin & H)|[H1 H2]]; [left; exists f; simpl; tauto|right; auto]. }
  destruct (Z.eqb_spec (esize e) 0) as [E0|E0]; [apply Hnext; entry; lia|].
  destruct Hu as [-> |]; [|lia].
  destruct ((vaddr e <=? a) && (a <=? esize e + vaddr e - 1)) eqn:C; [|apply Hnext; entry; lia].
  left. exists e. split; [left; reflexivity|]. split; [entry; lia|].
  rewrite !u32_small by (rewrite ?u32_small; entry; lia). reflexivity.
Qed.

Lemma phys_to_virt_hit l e a :
  Forall entry_ok l -> ForallOrdPairs phys_disjoint l -> In e l -> in_phys e a ->
  addrmap_phys_to_virt l a = a - paddr e + vaddr e.
Proof.
  intros Hl Hd. induction Hd as [|f l Hf Hd IH]; [contradiction|].
  inversion Hl as [|? ? Hof Hl']; subst. intros Hin Ha. cbn [addrmap_phys_to_virt].
  destruct Hin as [->|Hin].
  - destruct (Z.eqb_spec (esize e) 0); [entry; lia|].
    assert (u64 (esize e + paddr e - 1) = esize e + paddr e - 1) as ->
      by (apply wrap_small; unfold_words; entry; lia).
    rewrite (proj2 (Z.leb_le (paddr e) a)), (proj2 (Z.leb_le a _)) by (entry; lia). simpl.
    rewrite !u32_small by (rewrite ?u32_small; entry; lia). reflexivity.
  - rewrite List.Forall_forall in Hf. specialize (Hf e Hin a).
    assert (~ in_phys f a) as Hn by (intros C; exact (Hf C Ha)).
    rewrite IH by auto. destruct (Z.eqb_spec (esize f) 0); [reflexivity|].
    assert (u64 (esize f + paddr f - 1) = esize f + paddr f - 1) as ->
      by (apply wrap_small; unfold_words; entry; lia).
    destruct ((paddr f <=? a) && (a <=? esize f + paddr f - 1)) eqn:C; [entry; lia|reflexivity].
Qed.

(** Over a table with disjoint physical windows, translating a mapped
    virtual address and translating the result back gives an address that maps to
    the same place, and the very same one when the virtual windows are disjoint
    too. *)
Theorem addrmap_roundtrip l e a :
  Forall entry_ok l -> ForallOrdPairs phys_disjoint l -> 0 <= a -> In e l -> in_virt e a ->
  (forall f, In f l -> in_virt f a -> f = e) ->
  addrmap_virt_to_phys l a = a - vaddr e + paddr e /\
  addrmap_phys_to_virt l (addrmap_virt_to_phys l a) = a.
Proof.
  intros Hl Hd Ha Hin Hv Hu.
  destruct (virt_to_phys_hit l a Hl Ha) as [(f & Hf & Hfv & E)|[Hn _]].
  - rewrite (Hu f Hf Hfv) in *. split; [exact E|].
    rewrite E, (phys_to_virt_hit l e) by (auto; entry; lia). lia.
  - rewrite List.Forall_forall in Hn. destruct (Hn e Hin Hv).
Qed.

(** The map of the PREP board: RAM and PCI memory. *)
Definition ex_map : list map_entry :=
  [Entry 0 0x10000000 0; Entry 0 0 0; Entry 0xc0000000 0x10000000 0x80000000].

Lemma addrmap_roundtrip_witness :
  addrmap_virt_to_phys ex_map 0x80001234 = 0xc0001234 /\
  addrmap_phys_to_virt ex_map 0xc0001234 = 0x80001234.
Proof.
  destruct (addrmap_roundtrip ex_map (Entry 0xc0000000 0x10000000 0x80000000) 0x80001234) as [E1 E2].
  - repeat constructor; vm_compute; congruence.
  - repeat constructor; intros a; entry; simpl; lia.
  - lia.
  - simpl. auto.
  - entry. simpl. lia.
  - intros f Hf Hv. simpl in Hf. destruct Hf as [<-|[<-|[<-|[]]]]; [| |reflexivity];
      entry; simpl in Hv; lia.
  - rewrite E1 in E2. exact (conj E1 E2).
Defined.

(** The guard lets the index one past the table through. *)
Lemma addrmap_set_entry_off_by_one n l va pa sz :
  n = zlen l -> addrmap_set_entry n l va pa sz n = None.
Proof.
  intros ->. unfold addrmap_set_entry. zlen_simpl. branches.
Qed.
Lemma addrmap_set_entry_in_range n l va pa sz idx :
  n = zlen l -> 0 <= idx < n ->
  addrmap_set_entry n l va pa sz idx = Some (<[Z.to_nat idx := Entry pa sz va]> l).
Proof. intros -> H. unfold addrmap_set_entry. branches. Qed.
