(* ===== verification/Rtc.v ===== *)
(** * The MK48T59 real time clock and NVRAM (drivers/rtc/mk48t59.c, drivers/rtc/date.c)

    On this board the chip sits behind three ports of the ISA bus: two hold the
    cell number, the third is the data.  The bus is a typeclass; what the chip
    promises about the port sequences the driver issues is a second one, against
    which the driver, and the environment above it, are proved. *)

From S2P Require Import Prelude CMem.

(** ** The ports *)

Definition CONFIG_SYS_ISA_IO : Z := 0x80000000.
Definition RTC_PORT_ADDR0 : Z := CONFIG_SYS_ISA_IO + 0x70.
Definition RTC_PORT_ADDR1 : Z := RTC_PORT_ADDR0 + 1.
Definition RTC_PORT_DATA : Z := CONFIG_SYS_ISA_IO + 0x76.

(** The machine the port accesses act on. *)
Class PortIO (St : Type) := {
  out8 : Z -> Z -> St -> St;
  in8 : Z -> St -> Z * St
}.

(** The contract of the chip, with its clock halted or frozen while the driver
    works on the clock registers. *)
Class RtcChip (St : Type) `{PortIO St} := {
  cell : St -> Z -> Z;
  cell_u8 : forall st r, is_u8 (cell st r);
  chip_read : forall st lo hi, 0 <= lo < 256 -> 0 <= hi < 32 ->
    let '(v, st') := in8 RTC_PORT_DATA (out8 RTC_PORT_ADDR1 hi (out8 RTC_PORT_ADDR0 lo st)) in
    v = cell st (256 * hi + lo) /\ forall r, cell st' r = cell st r;
  chip_write : forall st lo hi v, 0 <= lo < 256 -> 0 <= hi < 32 -> is_u8 v ->
    forall r, cell (out8 RTC_PORT_DATA v (out8 RTC_PORT_ADDR1 hi (out8 RTC_PORT_ADDR0 lo st))) r =
      if r =? 256 * hi + lo then v else cell st r
}.

(** ** The driver *)

Section driver.
Context {St : Type} `{PortIO St}.

Definition rtc_read (reg : Z) (st : St) : Z * St :=
  in8 RTC_PORT_DATA
    (out8 RTC_PORT_ADDR1 ((reg .>> 8) .& 0xff) (out8 RTC_PORT_ADDR0 (reg .& 0xff) st)).

Definition rtc_write (reg v : Z) (st : St) : St :=
  out8 RTC_PORT_DATA v
    (out8 RTC_PORT_ADDR1 ((reg .>> 8) .& 0xff) (out8 RTC_PORT_ADDR0 (reg .& 0xff) st)).

(** while (count--) *d++ = rtc_read(s++); the cell number is a short. *)
Fixpoint nvram_read (m : mem) (dest src : Z) (count : nat) (st : St) : mem * St :=
  match count with
  | O => (m, st)
  | S n =>
      let '(v, st) := rtc_read src st in
      nvram_read (upd m dest v) (dest + 1) (s16 (src + 1)) n st
  end.

Fixpoint nvram_write (m : mem) (dest src : Z) (count : nat) (st : St) : St :=
  match count with
  | O => st
  | S n => nvram_write m (s16 (dest + 1)) (src + 1) n (rtc_write dest (m src) st)
  end.

Definition RTC_SECONDS : Z := 0x1FF9.
Definition RTC_MINUTES : Z := 0x1FFA.
Definition RTC_HOURS : Z := 0x1FFB.
Definition RTC_DAY_OF_WEEK : Z := 0x1FFC.
Definition RTC_DAY_OF_MONTH : Z := 0x1FFD.
Definition RTC_MONTH : Z := 0x1FFE.
Definition RTC_YEAR : Z := 0x1FFF.
Definition RTC_CONTROLA : Z := 0x1FF8.
Definition RTC_CONTROLB : Z := 0x1FF9.
Definition RTC_WATCHDOG : Z := 0x1FF7.
Definition RTC_CA_WRITE : Z := 0x80.
Definition RTC_CA_READ : Z := 0x40.
Definition RTC_CB_STOP : Z := 0x80.
Definition RTC_WDS : Z := 0x80.

Definition bcd2bin (val : Z) : Z := (val .& 0x0f) + (val .>> 4) * 10.
Definition bin2bcd (val : Z) : Z := u8 (((val / 10) .<< 4) .| (val mod 10)).

Record rtc_time := Tm {
  tm_sec : Z; tm_min : Z; tm_hour : Z; tm_mday : Z; tm_mon : Z; tm_year : Z; tm_wday : Z;
  tm_yday : Z; tm_isdst : Z
}.

Definition rtc_get (st : St) : rtc_time * St :=
  let '(save_ctrl_a, st) := rtc_read RTC_CONTROLA st in
  let save_ctrl_a := save_ctrl_a .| RTC_CA_READ in
  let st := rtc_write RTC_CONTROLA save_ctrl_a st in
  let '(sec, st) := rtc_read RTC_SECONDS st in
  let '(min, st) := rtc_read RTC_MINUTES st in
  let '(hour, st) := rtc_read RTC_HOURS st in
  let '(mday, st) := rtc_read RTC_DAY_OF_MONTH st in
  let '(wday, st) := rtc_read RTC_DAY_OF_WEEK st in
  let '(mon, st) := rtc_read RTC_MONTH st in
  let '(year, st) := rtc_read RTC_YEAR st in
  let save_ctrl_a := save_ctrl_a .& u8 (Z.lnot RTC_CA_READ) in
  let st := rtc_write RTC_CONTROLA save_ctrl_a st in
  let year := bcd2bin year in
  (Tm (bcd2bin (sec .& 0x7f)) (bcd2bin (min .& 0x7f)) (bcd2bin (hour .& 0x3f))
     (bcd2bin (mday .& 0x3f)) (bcd2bin (mon .& 0x1f))
     (if year <? 70 then year + 2000 else year + 1900) (bcd2bin (wday .& 0x07)) 0 0, st).

Definition rtc_set (tmp : rtc_time) (st : St) : Z * St :=
  let '(save_ctrl_a, st) := rtc_read RTC_CONTROLA st in
  let save_ctrl_a := save_ctrl_a .| RTC_CA_WRITE in
  let st := rtc_write RTC_CONTROLA save_ctrl_a st in
  let st := rtc_write RTC_YEAR (bin2bcd (u32 (Z.rem (tm_year tmp) 100))) st in
  let st := rtc_write RTC_MONTH (bin2bcd (u32 (tm_mon tmp))) st in
  let st := rtc_write RTC_DAY_OF_WEEK (bin2bcd (u32 (tm_wday tmp))) st in
  let st := rtc_write RTC_DAY_OF_MONTH (bin2bcd (u32 (tm_mday tmp))) st in
  let st := rtc_write RTC_HOURS (bin2bcd (u32 (tm_hour tmp))) st in
  let st := rtc_write RTC_MINUTES (bin2bcd (u32 (tm_min tmp))) st in
  let st := rtc_write RTC_SECONDS (bin2bcd (u32 (tm_sec tmp))) st in
  let save_ctrl_a := save_ctrl_a .& u8 (Z.lnot RTC_CA_WRITE) in
  (0, rtc_write RTC_CONTROLA save_ctrl_a st).

Definition rtc_reset (st : St) : St :=
  let '(control_b, st) := rtc_read RTC_CONTROLB st in
  rtc_write RTC_CONTROLB (control_b .& u8 (Z.lnot RTC_CB_STOP)) st.

Definition rtc_set_watchdog (multi res : Z) (st : St) : St :=
  rtc_write RTC_WATCHDOG (u8 (RTC_WDS .| ((multi .& 0x1f) .<< 2) .| (res .& 3))) st.

End driver.

(** ** Dates (drivers/rtc/date.c) *)

Definition FEBRUARY : Z := 2.
Definition STARTOFTIME : Z := 1970.
Definition SECDAY : Z := 86400.
Definition leapyear (year : Z) : bool := Z.rem year 4 =? 0.
Definition days_in_year (a : Z) : Z := if leapyear a then 366 else 365.
Definition month_days : list Z := [31; 28; 31; 30; 31; 30; 31; 31; 30; 31; 30; 31].
Definition days_in_month (month_days : list Z) (a : Z) : Z := nth (Z.to_nat (a - 1)) month_days 0.

Definition MonthOffset : list Z := [0; 31; 59; 90; 120; 151; 181; 212; 243; 273; 304; 334].

(** The weekday that [GregorianDay] stores in tm_wday. *)
Definition GregorianDay (tm : rtc_time) : rtc_time :=
  let lastYear := tm_year tm - 1 in
  let leapsToDate := Z.quot lastYear 4 - Z.quot lastYear 100 + Z.quot lastYear 400 in
  let day :=
    if (Z.rem (tm_year tm) 4 =? 0)
       && (negb (Z.rem (tm_year tm) 100 =? 0) || (Z.rem (tm_year tm) 400 =? 0))
       && (2 <? tm_mon tm) then 1 else 0 in
  let day := day + lastYear * 365 + leapsToDate
             + nth (Z.to_nat (tm_mon tm - 1)) MonthOffset 0 + tm_mday tm in
  Tm (tm_sec tm) (tm_min tm) (tm_hour tm) (tm_mday tm) (tm_mon tm) (tm_year tm)
    (Z.rem day 7) (tm_yday tm) (tm_isdst tm).

(** The two counting loops of [to_tm]. *)
Fixpoint year_loop (fuel : nat) (i day : Z) : option (Z * Z) :=
  match fuel with
  | O => None
  | S f =>
      if days_in_year i <=? day then year_loop f (i + 1) (day - days_in_year i)
      else Some (i, day)
  end.
Fixpoint month_loop (fuel : nat) (md : list Z) (i day : Z) : option (Z * Z) :=
  match fuel with
  | O => None
  | S f =>
      if days_in_month md i <=? day then month_loop f md (i + 1) (day - days_in_month md i)
      else Some (i, day)
  end.

(** The day part; February is patched to 29 days and back. *)
Definition to_tm_day (fuel : nat) (day : Z) : option (Z * Z * Z) :=
  match year_loop fuel STARTOFTIME day with
  | None => None
  | Some (year, day) =>
      let md := if leapyear year then <[1%nat := 29]> month_days else month_days in
      match month_loop fuel md 1 day with
      | None => None
      | Some (mon, day) => Some (year, mon, day + 1)
      end
  end.

Definition to_tm (fuel : nat) (tim : Z) (tm : rtc_time) : option rtc_time :=
  let day := Z.quot tim SECDAY in
  let hms := Z.rem tim SECDAY in
  let hour := Z.quot hms 3600 in
  let min := Z.quot (Z.rem hms 3600) 60 in
  let sec := Z.rem (Z.rem hms 3600) 60 in
  match to_tm_day fuel day with
  | None => None
  | Some (year, mon, mday) =>
      Some (GregorianDay (Tm sec min hour mday mon year (tm_wday tm) (tm_yday tm) (tm_isdst tm)))
  end.

(** The day number inside [mktime], in unsigned arithmetic. *)
Definition mktime_days (year mon day : Z) : Z :=
  let mon := u32 (mon - 2) in
  let '(mon, year) := if s32 mon <=? 0 then (u32 (mon + 12), u32 (year - 1)) else (mon, year) in
  u32 (u32 (year / 4 - year / 100 + year / 400 + u32 (367 * mon) / 12 + day)
       + u32 (year * 365) - 719499).

Definition mktime (year mon day hour min sec : Z) : Z :=
  u32 (u32 (u32 (mktime_days year mon day * 24 + hour) * 60 + min) * 60 + sec).

(** * Properties *)

(** ** Calendar *)

(** The days of [n] years from year [i] on, and of the months before [m]. *)
Fixpoint ysum (n : nat) (i : Z) : Z :=
  match n with O => 0 | S n' => days_in_year i + ysum n' (i + 1) end.
Definition months_of (leap : bool) : list Z :=
  if leap then <[1%nat := 29]> month_days else month_days.
Definition moff (leap : bool) (m : Z) : Z :=
  fold_right Z.add 0 (take (Z.to_nat (m - 1)) (months_of leap)).

Lemma days_in_year_range i : 365 <= days_in_year i <= 366.
Proof. unfold days_in_year. case_match; lia. Qed.

Lemma year_loop_spec n i day :
  0 <= day < ysum n i ->
  exists k, (k < n)%nat /\ year_loop n i day = Some (i + Z.of_nat k, day - ysum k i) /\
    0 <= day - ysum k i < days_in_year (i + Z.of_nat k).
Proof.
  revert i day. induction n as [|n IH]; intros i day H; simpl in *; [lia|].
  pose proof (days_in_year_range i). destruct (Z.leb_spec (days_in_year i) day).
  - destruct (IH (i + 1) (day - days_in_year i)) as (k & Hk & E & R); [lia|].
    exists (S k). replace (i + Z.of_nat (S k)) with (i + 1 + Z.of_nat k) by lia. simpl.
    replace (day - (days_in_year i + ysum k (i + 1))) with (day - days_in_year i - ysum k (i + 1)) by lia.
    split; [lia|]. auto.
  - exists O. simpl. rewrite Z.add_0_r, Z.sub_0_r. split; [lia|]. split; [reflexivity|lia].
Qed.

Definition month_ok (leap : bool) (r : Z) : bool :=
  match month_loop 69 (months_of leap) 1 r with
  | Some (m, d) => (1 <=? m) && (m <=? 12) && (0 <=? d) && (d <=? 30) && (moff leap m + d =? r)
  | None => false
  end.

Lemma month_loop_spec (leap : bool) r :
  0 <= r < (if leap then 366 else 365) ->
  exists m d, month_loop 69 (months_of leap) 1 r = Some (m, d) /\
    1 <= m <= 12 /\ 0 <= d <= 30 /\ moff leap m + d = r.
Proof.
  intros H. assert (month_ok leap r = true) as E.
  { destruct leap.
    - exact (forall_below_spec 366 (month_ok true) eq_refl r H).
    - exact (forall_below_spec 365 (month_ok false) eq_refl r H). }
  unfold month_ok in E. destruct (month_loop _ _ _ _) as [[m d]|]; [|discriminate].
  exists m, d. split; [reflexivity|]. lia.
Qed.

(** The count of days that [GregorianDay] reduces modulo 7. *)
Definition gday (y m d : Z) : Z :=
  (if (Z.rem y 4 =? 0) && (negb (Z.rem y 100 =? 0) || (Z.rem y 400 =? 0)) && (2 <? m)
   then 1 else 0) + (y - 1) * 365
  + (Z.quot (y - 1) 4 - Z.quot (y - 1) 100 + Z.quot (y - 1) 400)
  + nth (Z.to_nat (m - 1)) MonthOffset 0 + d.

(** Both formulas on the first of every month of 1970 to 2038. *)
Definition first_ok (k m : Z) : bool :=
  let y := 1970 + k in
  let n := ysum (Z.to_nat k) 1970 + moff (leapyear y) m in
  (mktime_days y m 1 =? n) && (gday y m 1 =? n + 719163) && (0 <=? n) && (n <? 30000).

Lemma first_ok_spec k m : 0 <= k < 69 -> 1 <= m <= 12 -> first_ok k m = true.
Proof.
  intros Hk Hm.
  pose proof (forall_below_spec 69
    (fun k => forall_below 12 (fun m => first_ok k (m + 1))) eq_refl k Hk) as E.
  pose proof (forall_below_spec 12 _ E (m - 1) ltac:(lia)) as E'. cbv beta in E'.
  replace (m - 1 + 1) with m in E' by lia. exact E'.
Qed.

Lemma mktime_days_linear y m d :
  1 <= d <= 31 -> 0 <= mktime_days y m 1 < 30000 ->
  mktime_days y m d = mktime_days y m 1 + (d - 1).
Proof.
  unfold mktime_days. intros Hd.
  destruct (if s32 (u32 (m - 2)) <=? 0 then (u32 (u32 (m - 2) + 12), u32 (y - 1))
            else (u32 (m - 2), y)) as [m' y'].
  set (A := y' / 4 - y' / 100 + y' / 400 + u32 (367 * m') / 12). set (B := u32 (y' * 365)).
  unfold u32, wrap. change (2 ^ 32) with 4294967296. intros H.
  Z.div_mod_to_equations. lia.
Qed.

Lemma to_tm_day_spec day :
  0 <= day < 24856 ->
  exists y m d, to_tm_day 69 day = Some (y, m, d) /\ 1 <= m <= 12 /\ 1 <= d <= 31 /\
    1970 <= y <= 2038 /\ mktime_days y m d = day /\ Z.rem (gday y m d) 7 = (day + 4) mod 7.
Proof.
  intros H. destruct (year_loop_spec 69 1970 day) as (k & Hk & E & R).
  { assert (24856 <= ysum 69 1970) by (vm_compute; discriminate). lia. }
  unfold to_tm_day, STARTOFTIME. rewrite E. set (y := 1970 + Z.of_nat k) in *.
  change (if leapyear y then <[1%nat := 29]> month_days else month_days) with (months_of (leapyear y)).
  destruct (month_loop_spec (leapyear y) (day - ysum k 1970)) as (m & d & -> & Hm & Hd & Hs).
  { unfold days_in_year in R. destruct (leapyear y); lia. }
  pose proof (first_ok_spec (Z.of_nat k) m ltac:(lia) Hm) as F. unfold first_ok in F.
  rewrite Nat2Z.id in F. fold y in F.
  assert (mktime_days y m (d + 1) = day) as Hmk by (rewrite mktime_days_linear; lia).
  assert (gday y m (d + 1) = day + 719163) as Hg by (unfold gday in *; lia).
  exists y, m, (d + 1). split; [reflexivity|]. rewrite Hg, Z.rem_mod_nonneg by lia.
  split_and!; try lia. Z.div_mod_to_equations. lia.
Qed.

(** [to_tm] is total on nonnegative times, gives fields in their calendar
    ranges and the weekday counted from Thursday 1 January 1970, and [mktime]
    inverts it. *)
Theorem to_tm_mktime tim tm :
  0 <= tim < 2 ^ 31 ->
  exists r, to_tm 69 tim tm = Some r /\
    (0 <= tm_sec r < 60 /\ 0 <= tm_min r < 60 /\ 0 <= tm_hour r < 24 /\
     1 <= tm_mday r <= 31 /\ 1 <= tm_mon r <= 12 /\ 1970 <= tm_year r <= 2038) /\
    tm_wday r = (tim / SECDAY + 4) mod 7 /\
    mktime (tm_year r) (tm_mon r) (tm_mday r) (tm_hour r) (tm_min r) (tm_sec r) = tim.
Proof.
  intros H. change (2 ^ 31) with 2147483648 in H. unfold to_tm, SECDAY.
  rewrite (Z.quot_div_nonneg tim), (Z.rem_mod_nonneg tim) by lia.
  assert (0 <= tim mod 86400 < 86400) as Hr by (apply Z.mod_pos_bound; lia).
  assert (tim = 86400 * (tim / 86400) + tim mod 86400) as E by (apply Z.div_mod; lia).
  set (hms := tim mod 86400) in *. set (day := tim / 86400) in *. clearbody hms day.
  destruct (to_tm_day_spec day) as (y & m & d & -> & Hm & Hd & Hy & Hk & Hw); [lia|].
  eexists. split; [reflexivity|]. cbn [tm_sec tm_min tm_hour tm_mday tm_mon tm_year GregorianDay].
  rewrite (Z.quot_div_nonneg hms), (Z.rem_mod_nonneg hms) by lia.
  assert (0 <= hms mod 3600 < 3600) by (apply Z.mod_pos_bound; lia).
  rewrite Z.quot_div_nonneg, Z.rem_mod_nonneg by lia.
  split; [|split; [exact Hw|]].
  - Z.div_mod_to_equations. lia.
  - unfold mktime. rewrite Hk.
    assert (hms = 3600 * (hms / 3600) + 60 * (hms mod 3600 / 60) + (hms mod 3600) mod 60
      /\ 0 <= hms / 3600 < 24 /\ 0 <= hms mod 3600 / 60 < 60 /\ 0 <= (hms mod 3600) mod 60 < 60)
      as (Es & B1 & B2 & B3) by (Z.div_mod_to_equations; lia).
    rewrite (u32_small (day * 24 + _)) by lia. rewrite (u32_small (_ * 60 + hms mod 3600 / 60)) by lia.
    rewrite u32_small; lia.
Qed.

Lemma to_tm_mktime_witness :
  exists r, to_tm 69 1266499964 (Tm 0 0 0 0 0 0 0 0 0) = Some r /\
    mktime (tm_year r) (tm_mon r) (tm_mday r) (tm_hour r) (tm_min r) (tm_sec r) = 1266499964 /\
    tm_year r = 2010.
Proof.
  destruct (to_tm_mktime 1266499964 (Tm 0 0 0 0 0 0 0 0 0)) as (r & E & _ & _ & Hk); [lia|].
  exists r. split; [exact E|]. split; [exact Hk|]. vm_compute in E. injection E as <-. reflexivity.
Defined.

(** ** BCD *)

Lemma bcd_roundtrip v : 0 <= v < 100 -> bcd2bin (bin2bcd v) = v /\ is_u8 (bin2bcd v).
Proof.
  intros H.
  pose proof (forall_below_spec 100 (fun v => (bcd2bin (bin2bcd v) =? v) && (0 <=? bin2bcd v)
    && (bin2bcd v <? 256)) eq_refl v H) as E. cbv beta in E. unfold_words. lia.
Qed.

(** The read masks keep the digits a field can have. *)
Lemma bcd_masked v mask n :
  forall_below n (fun v => bcd2bin (bin2bcd v .& mask) =? v) = true ->
  0 <= v < Z.of_nat n -> bcd2bin (bin2bcd v .& mask) = v.
Proof. intros E H. apply Z.eqb_eq. exact (forall_below_spec n _ E v H). Qed.

(** ** The chip's cells *)

Section chip.
Context {St : Type} `{RtcChip St}.

Lemma reg_bytes reg :
  0 <= reg < 0x2000 ->
  0 <= reg .& 255 < 256 /\ 0 <= (reg .>> 8) .& 255 < 32 /\
  256 * ((reg .>> 8) .& 255) + (reg .& 255) = reg.
Proof.
  intros Hr. change 255 with (Z.ones 8). rewrite !Z.land_ones, Z.shiftr_div_pow2 by lia.
  change (2 ^ 8) with 256. Z.div_mod_to_equations. lia.
Qed.

Lemma rtc_read_spec reg st :
  0 <= reg < 0x2000 ->
  exists st', rtc_read reg st = (cell st reg, st') /\ forall r, cell st' r = cell st r.
Proof.
  intros Hr. destruct (reg_bytes reg Hr) as (H1 & H2 & H3). unfold rtc_read.
  pose proof (chip_read st _ _ H1 H2) as C. destruct (in8 _ _) as [v st'].
  destruct C as [-> C]. exists st'. rewrite H3. auto.
Qed.

Lemma rtc_write_spec reg v st r :
  0 <= reg < 0x2000 -> is_u8 v -> cell (rtc_write reg v st) r = if r =? reg then v else cell st r.
Proof.
  intros Hr Hv. destruct (reg_bytes reg Hr) as (H1 & H2 & H3). unfold rtc_write.
  rewrite chip_write by auto. rewrite H3. reflexivity.
Qed.

Lemma s16_small x : 0 <= x < 0x8000 -> s16 x = x.
Proof.
  intros. unfold s16, swrap, wrap. change (2 ^ 16) with 65536. change (2 ^ (16 - 1)) with 32768.
  rewrite Z.mod_small by lia. branches.
Qed.

(** Reading [count] cells stores them in order and leaves the chip as it was. *)
Lemma nvram_read_spec m dest src count st :
  0 <= src -> src + Z.of_nat count <= 0x2000 ->
  exists m' st', nvram_read m dest src count st = (m', st') /\
    (forall i, 0 <= i < Z.of_nat count -> m' (dest + i) = cell st (src + i)) /\
    same_outside dest (dest + Z.of_nat count) m m' /\ forall r, cell st' r = cell st r.
Proof.
  revert m dest src st. induction count as [|n IH]; intros m dest src st H1 H2; cbn [nvram_read].
  - exists m, st. split_and!; auto with cmem. lia.
  - destruct (rtc_read_spec src st) as (st1 & -> & C1); [lia|].
    rewrite s16_small by lia.
    destruct (IH (upd m dest (cell st src)) (dest + 1) (src + 1) st1)
      as (m' & st' & E & R & O & C); [lia|lia|].
    exists m', st'. split; [exact E|]. split; [|split].
    + intros i Hi. destruct (Z.eq_dec i 0) as [->|].
      * rewrite !Z.add_0_r, O by lia. apply upd_eq.
      * replace (dest + i) with (dest + 1 + (i - 1)) by lia. rewrite R, C1 by lia. f_equal. lia.
    + intros x Hx. rewrite O by lia. apply upd_ne. lia.
    + intros r. rewrite C. apply C1.
Qed.

(** Writing [count] cells sets exactly those. *)
Lemma nvram_write_spec m dest src count st r :
  mem_ok m -> 0 <= dest -> dest + Z.of_nat count <= 0x2000 ->
  cell (nvram_write m dest src count st) r =
    if (dest <=? r) && (r <? dest + Z.of_nat count) then m (src + (r - dest)) else cell st r.
Proof.
  intros Hm. revert dest src st. induction count as [|n IH]; intros dest src st H1 H2.
  - simpl. replace (Z.of_nat 0) with 0 by lia. branches.
  - cbn [nvram_write]. rewrite s16_small by lia. rewrite IH by lia.
    rewrite rtc_write_spec by (auto; lia).
    destruct (Z.eqb_spec r dest) as [->|].
    + replace (src + (dest - dest)) with src by lia. branches.
    + replace (src + 1 + (r - (dest + 1))) with (src + (r - dest)) by lia. branches.
Qed.

(** A date the calendar of the chip can hold. *)
Definition tm_ok (tm : rtc_time) : Prop :=
  0 <= tm_sec tm < 60 /\ 0 <= tm_min tm < 60 /\ 0 <= tm_hour tm < 24 /\
  1 <= tm_mday tm <= 31 /\ 1 <= tm_mon tm <= 12 /\ 1970 <= tm_year tm < 2070 /\
  0 <= tm_wday tm < 7.

(** The clock cells [rtc_set] leaves. *)
Definition holds (st : St) (tm : rtc_time) : Prop :=
  cell st RTC_SECONDS = bin2bcd (tm_sec tm) /\ cell st RTC_MINUTES = bin2bcd (tm_min tm) /\
  cell st RTC_HOURS = bin2bcd (tm_hour tm) /\ cell st RTC_DAY_OF_MONTH = bin2bcd (tm_mday tm) /\
  cell st RTC_DAY_OF_WEEK = bin2bcd (tm_wday tm) /\ cell st RTC_MONTH = bin2bcd (tm_mon tm) /\
  cell st RTC_YEAR = bin2bcd (tm_year tm mod 100).

Lemma bin2bcd_u8 v : is_u8 (bin2bcd v).
Proof. apply u8_range. Qed.

Lemma rtc_set_spec tm st : tm_ok tm -> (rtc_set tm st).1 = 0 /\ holds (rtc_set tm st).2 tm.
Proof.
  intros (H1 & H2 & H3 & H4 & H5 & H6 & H7). unfold rtc_set.
  destruct (rtc_read_spec RTC_CONTROLA st) as (st1 & -> & _); [unfold RTC_CONTROLA; lia|].
  split; [reflexivity|]. cbn [snd]. rewrite Z.rem_mod_nonneg by lia.
  assert (0 <= tm_year tm mod 100 < 100) by (apply Z.mod_pos_bound; lia).
  rewrite !u32_small by lia.
  assert (is_u8 (cell st RTC_CONTROLA .| RTC_CA_WRITE)) as Hc
    by (apply in_word_lor; [lia|apply cell_u8|unfold_words; unfold RTC_CA_WRITE; lia]).
  assert (is_u8 ((cell st RTC_CONTROLA .| RTC_CA_WRITE) .& u8 (Z.lnot RTC_CA_WRITE))) as Hc'
    by (apply in_word_land; [lia|unfold_words; lia|apply u8_range]).
  unfold holds. cbv zeta.
  unfold RTC_SECONDS, RTC_MINUTES, RTC_HOURS, RTC_DAY_OF_MONTH, RTC_DAY_OF_WEEK, RTC_MONTH,
    RTC_YEAR, RTC_CONTROLA in *.
  rewrite !rtc_write_spec by (auto using bin2bcd_u8; lia). simpl. auto 10.
Qed.

Lemma rtc_get_spec tm st :
  tm_ok tm -> holds st tm ->
  (rtc_get st).1 = Tm (tm_sec tm) (tm_min tm) (tm_hour tm) (tm_mday tm) (tm_mon tm) (tm_year tm)
                     (tm_wday tm) 0 0.
Proof.
  intros (H1 & H2 & H3 & H4 & H5 & H6 & H7) (C1 & C2 & C3 & C4 & C5 & C6 & C7). unfold rtc_get.
  assert (is_u8 (cell st RTC_CONTROLA .| RTC_CA_READ)) as Hc
    by (apply in_word_lor; [lia|apply cell_u8|unfold_words; unfold RTC_CA_READ; lia]).
  destruct (rtc_read_spec RTC_CONTROLA st) as (st0 & -> & K0); [unfold RTC_CONTROLA; lia|].
  set (st1 := rtc_write RTC_CONTROLA (cell st RTC_CONTROLA .| RTC_CA_READ) st0).
  assert (forall r, r <> RTC_CONTROLA -> cell st1 r = cell st r) as K.
  { intros r Hr. unfold st1. rewrite rtc_write_spec by (auto; unfold RTC_CONTROLA; lia).
    rewrite (proj2 (Z.eqb_neq _ _) Hr). apply K0. }
  clearbody st1.
  destruct (rtc_read_spec RTC_SECONDS st1) as (st2 & -> & K2); [unfold RTC_SECONDS; lia|].
  destruct (rtc_read_spec RTC_MINUTES st2) as (st3 & -> & K3); [unfold RTC_MINUTES; lia|].
  destruct (rtc_read_spec RTC_HOURS st3) as (st4 & -> & K4); [unfold RTC_HOURS; lia|].
  destruct (rtc_read_spec RTC_DAY_OF_MONTH st4) as (st5 & -> & K5); [unfold RTC_DAY_OF_MONTH; lia|].
  destruct (rtc_read_spec RTC_DAY_OF_WEEK st5) as (st6 & -> & K6); [unfold RTC_DAY_OF_WEEK; lia|].
  destruct (rtc_read_spec RTC_MONTH st6) as (st7 & -> & K7); [unfold RTC_MONTH; lia|].
  destruct (rtc_read_spec RTC_YEAR st7) as (st8 & -> & K8); [unfold RTC_YEAR; lia|].
  cbn [fst]. rewrite ?K7, ?K6, ?K5, ?K4, ?K3, ?K2, !K by discriminate.
  rewrite C1, C2, C3, C4, C5, C6, C7.
  rewrite (bcd_masked (tm_sec tm) _ 60), (bcd_masked (tm_min tm) _ 60),
    (bcd_masked (tm_hour tm) _ 24), (bcd_masked (tm_mday tm) _ 32),
    (bcd_masked (tm_mon tm) _ 13), (bcd_masked (tm_wday tm) _ 7) by (reflexivity || lia).
  destruct (bcd_roundtrip (tm_year tm mod 100)) as [-> _]; [apply Z.mod_pos_bound; lia|].
  f_equal. destruct (Z.lt_ge_cases (tm_year tm) 2000).
  - replace (tm_year tm mod 100) with (tm_year tm - 1900)
      by (apply Z.mod_unique with 19; lia). branches.
  - replace (tm_year tm mod 100) with (tm_year tm - 2000)
      by (apply Z.mod_unique with 20; lia). branches.
Qed.

(** A date set into the chip is the date read back, for every valid date
    of 1970 to 2069. *)
Theorem rtc_set_get tm st :
  tm_ok tm -> tm_yday tm = 0 -> tm_isdst tm = 0 ->
  (rtc_get (rtc_set tm st).2).1 = tm.
Proof.
  intros H1 H2 H3. rewrite (rtc_get_spec tm) by (auto; apply rtc_set_spec; auto).
  destruct tm; simpl in *; congruence.
Qed.
End chip.

(** ** A concrete chip *)

Record chip := Chip { latch0 : Z; latch1 : Z; cells : mem }.

#[export] Instance chip_ports : PortIO chip := {
  out8 p v st :=
    if p =? RTC_PORT_ADDR0 then Chip v (latch1 st) (cells st)
    else if p =? RTC_PORT_ADDR1 then Chip (latch0 st) v (cells st)
    else if p =? RTC_PORT_DATA then
      Chip (latch0 st) (latch1 st) (upd (cells st) (256 * latch1 st + latch0 st) v)
    else st;
  in8 p st :=
    if p =? RTC_PORT_DATA then (u8 (cells st (256 * latch1 st + latch0 st)), st) else (0xff, st)
}.

#[export] Program Instance chip_rtc : RtcChip chip := { cell st r := u8 (cells st r) }.
Next Obligation. intros. apply u8_range. Qed.
Next Obligation. intros st lo hi H1 H2. simpl. auto. Qed.
Next Obligation.
  intros st lo hi v H1 H2 Hv r. simpl. unfold upd. case_z; [apply u8_small; exact Hv|reflexivity].
Qed.

Lemma rtc_set_get_witness :
  (rtc_get (rtc_set (Tm 4 32 12 18 2 2010 4 0 0) (Chip 0 0 (fun _ => 0))).2).1 =
  Tm 4 32 12 18 2 2010 4 0 0.
Proof. apply rtc_set_get; [unfold tm_ok; simpl; lia|reflexivity|reflexivity]. Defined.
