(* ===== verification/Env.v ===== *)
(** * The environment (common/cmd_nvedit.c, common/env_common.c, common/env_nvram.c)

    Variables are kept as "name=value" strings, one behind the other, closed by
    an empty string, in a block with a CRC-32 in front that is saved to the
    NVRAM.  Addresses inside the block are offsets from its data area, as the
    code's [env_get_char] uses them; the specification is a list of pairs. *)

From S2P Require Import Prelude CMem Strto Crc Rtc.

(** ** Layout *)

Definition CONFIG_ENV_SIZE : Z := 0x400.
Definition CONFIG_ENV_ADDR : Z := 0x1ff0 + 0x10 - 0x800.
Definition ENV_HEADER_SIZE : Z := 4.
Definition ENV_SIZE : Z := CONFIG_ENV_SIZE - ENV_HEADER_SIZE.

(** ** Lookup

    [get] is [env_get_char]: the block in RAM once relocated, the NVRAM or the
    default text before. *)

(** [s1] is the name with the bytes that follow it in memory, its NUL first;
    [None] is a read beyond them. *)
Fixpoint envmatch (s1 : list Z) (get : Z -> Z) (i2 : Z) : option Z :=
  match s1 with
  | [] => None
  | c :: s1' =>
      if c =? get i2 then
        if c =? chr "=" then Some (i2 + 1) else envmatch s1' get (i2 + 1)
      else if (c =? 0) && (get i2 =? chr "=") then Some (i2 + 1)
      else Some (-1)
  end.

(** The search for the end of a string; [None] is the return at the limit. *)
Fixpoint env_skip (n : nat) (get : Z -> Z) (nxt : Z) : option Z :=
  match n with
  | O => None
  | S n' =>
      if get nxt =? 0 then Some nxt
      else if CONFIG_ENV_SIZE <=? nxt then None
      else env_skip n' get (nxt + 1)
  end.
Definition env_next (get : Z -> Z) (i : Z) : option Z :=
  env_skip (Z.to_nat (CONFIG_ENV_SIZE - i) + 2) get i.

(** The offset of the value ([Some (Some _)]) or NULL. *)
Fixpoint getenv_loop (fuel : nat) (get : Z -> Z) (name : list Z) (i : Z) : option (option Z) :=
  match fuel with
  | O => None
  | S f =>
      if get i =? 0 then Some None
      else
        match env_next get i with
        | None => Some None
        | Some nxt =>
            match envmatch (name ++ [0]) get i with
            | None => None
            | Some val =>
                if val <? 0 then getenv_loop f get name (nxt + 1) else Some (Some val)
            end
        end
  end.
Definition getenv (get : Z -> Z) (name : list Z) : option (option Z) :=
  getenv_loop (Z.to_nat CONFIG_ENV_SIZE + 3) get name 0.

(** [getenv_f]: the count and the bytes stored into a buffer of [len]. *)
Fixpoint copy_out (len : nat) (get : Z -> Z) (val : Z) : list Z * bool :=
  match len with
  | O => ([], false)
  | S l =>
      if get val =? 0 then ([0], true)
      else let '(out, done) := copy_out l get (val + 1) in (get val :: out, done)
  end.
Definition getenv_f (get : Z -> Z) (name : list Z) (len : nat) : option (Z * list Z) :=
  match getenv get name with
  | None => None
  | Some None => Some (-1, [])
  | Some (Some val) =>
      let '(out, done) := copy_out len get val in
      if done then Some (zlen out - 1, out)
      else if Z.of_nat len =? 0 then Some (0, [])
      else Some (Z.of_nat len, removelast out ++ [0])
  end.

(** ** Setting *)

(** for (nxt=env; *nxt; ++nxt) *)
Fixpoint str_end (fuel : nat) (e : mem) (nxt : Z) : option Z :=
  match fuel with
  | O => None
  | S f => if e nxt =? 0 then Some nxt else str_end f e (nxt + 1)
  end.

(** The search of [_do_setenv]: (oldval, env, nxt). *)
Fixpoint setenv_search (fuel : nat) (e : mem) (name : list Z) (env nxt : Z)
  : option (Z * Z * Z) :=
  match fuel with
  | O => None
  | S f =>
      if e env =? 0 then Some (-1, env, nxt)
      else
        match str_end fuel e env with
        | None => None
        | Some nxt =>
            match envmatch (name ++ [0]) e env with
            | None => None
            | Some oldval =>
                if 0 <=? oldval then Some (oldval, env, nxt)
                else setenv_search f e name (nxt + 1) nxt
            end
        end
  end.

(** for (;;) { *env = *nxt++; if (( *env == 0) && ( *nxt == 0)) break; ++env; } *)
Fixpoint shift_down (fuel : nat) (e : mem) (env nxt : Z) : option (mem * Z) :=
  match fuel with
  | O => None
  | S f =>
      let e := upd e env (e nxt) in
      let nxt := nxt + 1 in
      if (e env =? 0) && (e nxt =? 0) then Some (e, env)
      else shift_down f e (env + 1) nxt
  end.

(** Delete the string at [env], whose NUL is at [nxt]. *)
Definition delete_var (fuel : nat) (e : mem) (env nxt : Z) : option mem :=
  let nxt := nxt + 1 in
  match
    (if e nxt =? 0 then
       if 0 <? env then Some (e, env - 1) else Some (upd e env 0, env)
     else shift_down fuel e env nxt)
  with
  | None => None
  | Some (e, env) => Some (upd e (env + 1) 0)
  end.

(** for (env=env_data; *env || *(env+1); ++env) *)
Fixpoint env_end (fuel : nat) (e : mem) (env : Z) : option Z :=
  match fuel with
  | O => None
  | S f =>
      if negb (e env =? 0) || negb (e (env + 1) =? 0) then env_end f e (env + 1) else Some env
  end.

(** Copy a string with its NUL; the address of the NUL. *)
Fixpoint put_str (e : mem) (env : Z) (s : list Z) : mem * Z :=
  match s with
  | [] => (upd e env 0, env)
  | c :: s' => put_str (upd e env c) (env + 1) s'
  end.
Fixpoint put_args (e : mem) (env : Z) (sep : Z) (args : list (list Z)) : mem * Z :=
  match args with
  | [] => (e, env)
  | val :: args' =>
      let '(e, env) := put_str (upd e env sep) (env + 1) val in
      put_args e env (chr " ") args'
  end.

Definition args_len (args : list (list Z)) : Z :=
  fold_left (fun len a => len + (zlen a + 1)) args 0.

(** The append part: [None] is the overflow. *)
Definition append_var (e : mem) (env : Z) (name : list Z) (args : list (list Z)) : option mem :=
  let env := if 0 <? env then env + 1 else env in
  let len := zlen name + 2 + args_len args in
  if ENV_SIZE - env <? len then None
  else
    let '(e, env) := put_str e env name in
    let '(e, env) := put_args e env (chr "=") args in
    Some (upd e (env + 1) 0).

(** copy_filename (net/net.c): a leading quote and all from a later one on are
    dropped; at most [size] - 1 bytes. *)
Fixpoint copy_filename_loop (n : nat) (src : list Z) : list Z :=
  match n, src with
  | S n', c :: src' => if c =? 34 then [] else c :: copy_filename_loop n' src'
  | _, _ => []
  end.
Definition copy_filename (src : list Z) (size : Z) : list Z :=
  let '(src, size) := if cur src =? 34 then (tl src, size - 1) else (src, size) in
  copy_filename_loop (Z.to_nat (size - 1)) src.

Definition baudrate_table : list Z := [9600; 19200; 38400; 57600; 115200; 230400].
Definition stdin : Z := 0.
Definition stdout : Z := 1.
Definition stderr : Z := 2.

(** The console layer (common/console.c): reassign a standard file to the
    device of the given name; [None] when there is no such device. *)
Class Console (C : Type) := { console_assign : C -> Z -> list Z -> option C }.

Section setenv.
Context {C : Type} `{Console C}.
(** What a read through the NULL pointer finds. *)
Context (null_text : list Z).

Record env_state := EnvState {
  edata : mem; ecrc : Z; env_id : Z;
  gd_baudrate : Z; bi_baudrate : Z; bi_ip_addr : Z; load_addr : Z; BootFile : list Z;
  cons : C; input : list Z
}.

Definition set_data (s : env_state) (e : mem) : env_state :=
  EnvState e (ecrc s) (env_id s) (gd_baudrate s) (bi_baudrate s) (bi_ip_addr s) (load_addr s)
    (BootFile s) (cons s) (input s).
Definition env_crc_update (s : env_state) : env_state :=
  EnvState (edata s) (crc32 (edata s) 0 0 ENV_SIZE) (env_id s) (gd_baudrate s) (bi_baudrate s)
    (bi_ip_addr s) (load_addr s) (BootFile s) (cons s) (input s).
Definition bump_id (s : env_state) : env_state :=
  EnvState (edata s) (ecrc s) (s32 (env_id s + 1)) (gd_baudrate s) (bi_baudrate s) (bi_ip_addr s)
    (load_addr s) (BootFile s) (cons s) (input s).
Definition set_cons (s : env_state) (c : C) : env_state :=
  EnvState (edata s) (ecrc s) (env_id s) (gd_baudrate s) (bi_baudrate s) (bi_ip_addr s)
    (load_addr s) (BootFile s) c (input s).

Fixpoint wait_cr (input : list Z) : option (list Z) :=
  match input with
  | [] => None
  | c :: r => if c =? 13 then Some r else wait_cr r
  end.

(** The console redirection: [inl] is an early return. *)
Definition setenv_console (s : env_state) (name : list Z) (args : list (list Z)) : Z + env_state :=
  let console :=
    if bool_decide (name = str "stdin") then stdin
    else if bool_decide (name = str "stdout") then stdout
    else if bool_decide (name = str "stderr") then stderr else -1 in
  if console =? -1 then inr s
  else
    match args with
    | [] => inl 1
    | a :: _ =>
        match console_assign (cons s) console a with
        | None => inl 1
        | Some c => inr (set_cons s c)
        end
    end.

(** The baud rate switch, waiting for ENTER at the new rate: [None] waits for ever. *)
Definition setenv_baudrate (s : env_state) (args : list (list Z)) : option (Z + env_state) :=
  let text := match args with a :: _ => a | [] => null_text end in
  let baudrate := s32 (simple_strtoul text 10).1 in
  if existsb (Z.eqb baudrate) baudrate_table then
    match wait_cr (input s) with
    | None => None
    | Some rest =>
        Some (inr (EnvState (edata s) (ecrc s) (env_id s) baudrate baudrate (bi_ip_addr s)
                     (load_addr s) (BootFile s) (cons s) rest))
    end
  else Some (inl 1).

(** The variables that are mirrored elsewhere. *)
Definition setenv_mirror (s : env_state) (name arg : list Z) : env_state :=
  if bool_decide (name = str "ethaddr") then s
  else if bool_decide (name = str "ipaddr") then
    EnvState (edata s) (ecrc s) (env_id s) (gd_baudrate s) (bi_baudrate s)
      (iter 4 ip_field (0, arg)).1 (load_addr s) (BootFile s) (cons s) (input s)
  else if bool_decide (name = str "loadaddr") then
    EnvState (edata s) (ecrc s) (env_id s) (gd_baudrate s) (bi_baudrate s)
      (bi_ip_addr s) (simple_strtoul arg 16).1 (BootFile s) (cons s) (input s)
  else if bool_decide (name = str "bootfile") then
    EnvState (edata s) (ecrc s) (env_id s) (gd_baudrate s) (bi_baudrate s)
      (bi_ip_addr s) (load_addr s) (copy_filename arg 128) (cons s) (input s)
  else s.

(** [_do_setenv] with argv[1] = [name] and argv[2..] = [args].  [None] is a loop
    without an end (a block without its empty string, or no ENTER). *)
Definition _do_setenv (fuel : nat) (s : env_state) (name : list Z) (args : list (list Z))
  : option (Z * env_state) :=
  if existsb (Z.eqb (chr "=")) name then Some (1, s)
  else
    let s := bump_id s in
    match setenv_search fuel (edata s) name 0 0 with
    | None => None
    | Some (oldval, env, nxt) =>
        match setenv_console s name args with
        | inl r => Some (r, s)
        | inr s =>
            let deleted :=
              if 0 <=? oldval then
                match
                  (if bool_decide (name = str "baudrate") then setenv_baudrate s args
                   else Some (inr s))
                with
                | None => None
                | Some (inl r) => Some (inl r)
                | Some (inr s) =>
                    match delete_var fuel (edata s) env nxt with
                    | None => None
                    | Some e => Some (inr (set_data s e))
                    end
                end
              else Some (inr s) in
            match deleted with
            | None => None
            | Some (inl r) => Some (r, s)
            | Some (inr s) =>
                match args with
                | [] => Some (0, env_crc_update s)
                | arg :: _ =>
                    match env_end fuel (edata s) 0 with
                    | None => None
                    | Some env =>
                        match append_var (edata s) env name args with
                        | None => Some (1, s)
                        | Some e =>
                            Some (0, setenv_mirror (env_crc_update (set_data s e)) name arg)
                        end
                    end
                end
            end
        end
    end.

(** [setenv]: a NULL or empty value deletes. *)
Definition setenv (fuel : nat) (s : env_state) (varname : list Z) (varvalue : option (list Z))
  : option (Z * env_state) :=
  match varvalue with
  | None | Some [] => _do_setenv fuel s varname []
  | Some v => _do_setenv fuel s varname [v]
  end.

End setenv.

(** * Properties *)

(** ** The block as a list of variables *)

#[local] Arguments chr : simpl never.

Abbreviation entry := (list Z * list Z)%type.
Definition body (p : entry) : list Z := p.1 ++ chr "=" :: p.2.
Definition ent (p : entry) : list Z := body p ++ [0].
Definition flat (l : list entry) : list Z := concat (map ent l).
Definition image (l : list entry) : list Z :=
  match l with [] => [0; 0] | _ => flat l ++ [0] end.
Definition env_rep (e : mem) (l : list entry) : Prop := bytes_at e 0 (image l).

Definition text_ok (s : list Z) : Prop := Forall (fun c => c <> 0) s.
Definition name_ok (s : list Z) : Prop := Forall (fun c => c <> 0 /\ c <> chr "=") s.
Definition entry_ok (p : entry) : Prop := name_ok p.1 /\ text_ok p.2.

(** What the block promises: well-formed strings, every name once, inside the area. *)
Definition env_inv (e : mem) (l : list entry) : Prop :=
  env_rep e l /\ Forall entry_ok l /\ List.NoDup (map fst l) /\ zlen (image l) <= ENV_SIZE.

Fixpoint env_lookup (name : list Z) (l : list entry) : option (list Z) :=
  match l with
  | [] => None
  | p :: l' => if bool_decide (p.1 = name) then Some p.2 else env_lookup name l'
  end.
Fixpoint env_remove (name : list Z) (l : list entry) : list entry :=
  match l with
  | [] => []
  | p :: l' => if bool_decide (p.1 = name) then l' else p :: env_remove name l'
  end.

Lemma name_ok_text s : name_ok s -> text_ok s.
Proof. apply List.Forall_impl. tauto. Qed.

Lemma body_ok p : entry_ok p -> text_ok (body p).
Proof.
  intros [H1 H2]. unfold body, text_ok. apply Forall_app. split; [apply name_ok_text, H1|].
  constructor; [discriminate|exact H2].
Qed.

(** An entry starts with a nonzero byte. *)
Lemma body_cons p : entry_ok p -> exists c r, body p = c :: r /\ c <> 0.
Proof.
  intros [H1 _]. unfold body. destruct p as [[|c n] v]; simpl in *.
  - do 2 eexists. split; [reflexivity|discriminate].
  - inversion H1; subst. do 2 eexists. split; [reflexivity|tauto].
Qed.

Lemma flat_cons p l : flat (p :: l) = body p ++ 0 :: flat l.
Proof. unfold flat, ent. simpl. rewrite <- app_assoc. reflexivity. Qed.
Lemma flat_app l k : flat (l ++ k) = flat l ++ flat k.
Proof. unfold flat. rewrite map_app, concat_app. reflexivity. Qed.
Lemma zlen_body p : zlen (body p) = zlen p.1 + 1 + zlen p.2.
Proof. unfold body. zlen_simpl. lia. Qed.
Lemma zlen_flat_cons p l : zlen (flat (p :: l)) = zlen (body p) + 1 + zlen (flat l).
Proof. rewrite flat_cons. zlen_simpl. lia. Qed.
Lemma zlen_flat_app l k : zlen (flat (l ++ k)) = zlen (flat l) + zlen (flat k).
Proof. rewrite flat_app. zlen_simpl. lia. Qed.
Lemma zlen_flat_pos p l : 0 < zlen (flat (p :: l)).
Proof. rewrite zlen_flat_cons. zlen_simpl. lia. Qed.
#[local] Hint Rewrite zlen_flat_cons zlen_flat_app zlen_body : clen.

Lemma image_nonempty l : l <> [] -> image l = flat l ++ [0].
Proof. destruct l; [congruence|reflexivity]. Qed.
Lemma image_bytes e l : env_rep e l -> bytes_at e 0 (flat l ++ [0]).
Proof. unfold env_rep. destruct l; [|auto]. simpl. tauto. Qed.

(** ** Matching and searching *)

Lemma envmatch_hit e name i rest :
  name_ok name -> bytes_at e i (name ++ chr "=" :: rest) ->
  envmatch (name ++ [0]) e i = Some (i + zlen name + 1).
Proof.
  revert i. induction name as [|c name IH]; intros i Hn Hb; simpl in *.
  - destruct Hb as [-> _]. simpl. rewrite zlen_nil. f_equal. lia.
  - inversion Hn as [|? ? [H0 H1] Hn']; subst. destruct Hb as [-> Hb].
    rewrite Z.eqb_refl, (proj2 (Z.eqb_neq c _) H1), IH by auto. zlen_simpl. f_equal. lia.
Qed.

Lemma envmatch_miss e name n i rest :
  name_ok name -> name_ok n -> n <> name -> bytes_at e i (n ++ chr "=" :: rest) ->
  envmatch (name ++ [0]) e i = Some (-1).
Proof.
  revert n i. induction name as [|c name IH]; intros n i Hn Hn2 Hne Hb.
  - destruct n as [|d n]; [congruence|]. inversion Hn2 as [|? ? [H0 H1] _]; subst.
    destruct Hb as [Hd _]. cbn [envmatch app]. rewrite Hd.
    rewrite (proj2 (Z.eqb_neq 0 d)) by congruence. rewrite (proj2 (Z.eqb_neq d _) H1). reflexivity.
  - inversion Hn as [|? ? [H0 H1] Hn']; subst. cbn [envmatch app].
    destruct n as [|d n]; destruct Hb as [Hd Hb]; rewrite Hd.
    + rewrite (proj2 (Z.eqb_neq c _) H1), (proj2 (Z.eqb_neq c _) H0). reflexivity.
    + inversion Hn2 as [|? ? [H2 H3] Hn2']; subst. destruct (Z.eqb_spec c (e i)) as [E|E].
      * rewrite (proj2 (Z.eqb_neq c _) H1). apply (IH n); auto. congruence.
      * rewrite (proj2 (Z.eqb_neq c 0) H0). reflexivity.
Qed.

Lemma bytes_body e off p rest :
  bytes_at e off (body p ++ rest) -> bytes_at e off (p.1 ++ chr "=" :: (p.2 ++ rest)).
Proof. unfold body. rewrite <- app_assoc. auto. Qed.

Lemma str_end_spec fuel e a s rest :
  text_ok s -> bytes_at e a (s ++ 0 :: rest) -> (length s < fuel)%nat ->
  str_end fuel e a = Some (a + zlen s).
Proof.
  revert a fuel. induction s as [|c s IH]; intros a [|fuel] Hs Hb Hf; simpl in *; try lia.
  - destruct Hb as [-> _]. rewrite Z.add_0_r. reflexivity.
  - inversion Hs; subst. destruct Hb as [-> Hb]. rewrite (proj2 (Z.eqb_neq _ 0)) by auto.
    rewrite IH by (auto; lia). zlen_simpl. f_equal. lia.
Qed.

Lemma entry_nonzero e off p rest : entry_ok p -> bytes_at e off (body p ++ rest) -> e off <> 0.
Proof. intros Hp Hb. destruct (body_cons p Hp) as (c & r & E & Hc). rewrite E in Hb. destruct Hb. congruence. Qed.

Lemma length_body_flat p l : (length (body p) < length (flat (p :: l)))%nat.
Proof. rewrite flat_cons. len_tac. Qed.
Lemma length_flat_cons p l : length (flat (p :: l)) = (length (body p) + 1 + length (flat l))%nat.
Proof. rewrite flat_cons. len_tac. Qed.

(** The loop passes over an entry of another name. *)
Lemma search_skip fuel e name p l off nxt :
  name_ok name -> entry_ok p -> p.1 <> name -> 0 <= off ->
  bytes_at e off (flat (p :: l) ++ [0]) -> (length (flat (p :: l)) < fuel)%nat ->
  setenv_search fuel e name off nxt =
    setenv_search (pred fuel) e name (off + zlen (body p) + 1) (off + zlen (body p)).
Proof.
  intros Hn Hp Hne Hoff Hb Hf. destruct fuel as [|fuel]; [lia|]. cbn [setenv_search pred].
  rewrite flat_cons, <- app_assoc in Hb. pose proof (length_body_flat p l).
  rewrite (proj2 (Z.eqb_neq _ 0)) by (eapply (entry_nonzero e off p); eauto).
  rewrite (str_end_spec (S fuel) e off (body p) (flat l ++ [0])) by
    (first [apply body_ok; assumption | exact Hb | lia]).
  rewrite (envmatch_miss e name p.1 off (p.2 ++ 0 :: flat l ++ [0])) by
    (first [assumption | apply Hp | apply bytes_body; exact Hb]).
  reflexivity.
Qed.

Lemma flat_tail e off p l :
  bytes_at e off (flat (p :: l) ++ [0]) -> bytes_at e (off + zlen (body p) + 1) (flat l ++ [0]).
Proof.
  rewrite flat_cons, <- app_assoc. intros Hb. apply bytes_at_app in Hb as [_ [_ Hb]]. exact Hb.
Qed.

(** The search finds the first variable of the name, or the end. *)
Lemma search_hit fuel e name v la lb off nxt :
  name_ok name -> Forall entry_ok la -> entry_ok (name, v) -> ~ In name (map fst la) -> 0 <= off ->
  bytes_at e off (flat (la ++ (name, v) :: lb) ++ [0]) ->
  (length (flat (la ++ (name, v) :: lb)) < fuel)%nat ->
  let env := off + zlen (flat la) in
  setenv_search fuel e name off nxt =
    Some (env + zlen name + 1, env, env + zlen (body (name, v))).
Proof.
  intros Hn Hla Hp. revert fuel off nxt.
  induction Hla as [|p la Hp' Hla IH]; intros fuel off nxt Hin Hoff Hb Hf.
  - cbn zeta. cbn [app] in *. pose proof (length_body_flat (name, v) lb).
    destruct fuel as [|fuel]; [lia|]. cbn [setenv_search].
    rewrite flat_cons, <- app_assoc in Hb.
    rewrite (proj2 (Z.eqb_neq _ 0)) by (eapply (entry_nonzero e off (name, v)); eauto).
    rewrite (str_end_spec (S fuel) e off (body (name, v)) (flat lb ++ [0])) by
      (first [apply body_ok; assumption | exact Hb | lia]).
    rewrite (envmatch_hit e name off (v ++ 0 :: flat lb ++ [0])) by
      (first [assumption | apply (bytes_body e off (name, v)); exact Hb]).
    pose proof (zlen_nonneg name). rewrite (proj2 (Z.leb_le 0 _)) by lia.
    change (zlen (flat [])) with 0. rewrite Z.add_0_r. reflexivity.
  - cbn [app map In] in *. rewrite search_skip with (p := p) (l := la ++ (name, v) :: lb) by
      (first [assumption | tauto]).
    apply flat_tail in Hb. rewrite length_flat_cons in Hf.
    assert (0 <= off + zlen (body p) + 1) as Hoff' by (pose proof (zlen_nonneg (body p)); lia).
    cbn zeta. rewrite (IH (pred fuel)) by (auto; lia).
    replace (off + zlen (body p) + 1 + zlen (flat la)) with (off + zlen (flat (p :: la)))
      by (rewrite zlen_flat_cons; lia). reflexivity.
Qed.

Lemma search_none fuel e name l off nxt :
  name_ok name -> Forall entry_ok l -> ~ In name (map fst l) -> 0 <= off ->
  bytes_at e off (flat l ++ [0]) -> (length (flat l) < fuel)%nat ->
  exists env nxt', setenv_search fuel e name off nxt = Some (-1, env, nxt').
Proof.
  intros Hn Hl. revert fuel off nxt. induction Hl as [|p l Hp Hl IH]; intros fuel off nxt Hin Hoff Hb Hf.
  - destruct fuel as [|fuel]; [simpl in Hf; lia|]. destruct Hb as [Hb _]. cbn [setenv_search].
    rewrite Hb. eauto.
  - cbn [map In] in *. rewrite search_skip with (p := p) (l := l) by (first [assumption | tauto]).
    apply flat_tail in Hb. rewrite length_flat_cons in Hf. apply IH; auto; [|lia].
    zlen_simpl. lia.
Qed.

(** ** Deleting *)

(** A run of nonzero bytes is moved down. *)
Lemma shift_run s : forall fuel e env nxt rest,
  text_ok s -> env < nxt -> bytes_at e nxt (s ++ rest) ->
  exists e', shift_down (length s + fuel) e env nxt = shift_down fuel e' (env + zlen s) (nxt + zlen s) /\
    bytes_at e' env s /\ same_outside env (env + zlen s) e e'.
Proof.
  induction s as [|c s IH]; intros fuel e env nxt rest Hs Hlt Hb.
  - exists e. rewrite zlen_nil, !Z.add_0_r. split; [reflexivity|]. split; [exact I|apply same_outside_refl].
  - inversion Hs; subst. cbn [app bytes_at length Nat.add shift_down] in *. destruct Hb as [Hc Hb].
    rewrite upd_eq, Hc, (proj2 (Z.eqb_neq c 0)) by auto. cbn [andb].
    destruct (IH fuel (upd e env c) (env + 1) (nxt + 1) rest) as (e' & E & B & O); auto; [lia| |].
    { eapply bytes_at_ext; [|exact Hb]. intros x Hx. apply upd_ne. lia. }
    exists e'. zlen_simpl. rewrite E. split; [f_equal; lia|]. split.
    + split; [|exact B]. rewrite O by lia. apply upd_eq.
    + intros x Hx. rewrite O by lia. apply upd_ne. lia.
Qed.

Lemma shift_entries l : forall p fuel e env nxt,
  Forall entry_ok (p :: l) -> env < nxt -> bytes_at e nxt (flat (p :: l) ++ [0]) ->
  (length (flat (p :: l)) < fuel)%nat ->
  exists e', shift_down fuel e env nxt = Some (e', env + zlen (flat (p :: l)) - 1) /\
    bytes_at e' env (flat (p :: l)) /\ same_outside env (env + zlen (flat (p :: l))) e e'.
Proof.
  induction l as [|q l IH]; intros p fuel e env nxt Hok Hlt Hb Hf; inversion Hok as [|? ? Hp Hl]; subst;
    rewrite length_flat_cons in Hf.
  all: set (b := body p) in *; assert (fuel = length b + (fuel - length b))%nat as -> by lia.
  all: rewrite (flat_cons p) in *; rewrite <- app_assoc in Hb; fold b in Hb |- *.
  all: destruct (shift_run b (fuel - length b) e env nxt _ (body_ok p Hp) Hlt Hb) as (e1 & -> & B1 & O1).
  all: apply bytes_at_app in Hb as [_ Hb].
  all: assert (exists f, fuel - length b = S f)%nat as [f Ef] by (exists (pred (fuel - length b)); lia).
  all: rewrite Ef; cbn [shift_down].
  - change (flat []) with (@nil Z) in *. destruct Hb as (Hz & Hz2 & _). cbn [app] in *.
    assert (e1 (nxt + zlen b) = 0 /\ e1 (nxt + zlen b + 1) = 0) as [Z1 Z2].
    { rewrite !O1 by lia. auto. }
    rewrite Z1, upd_eq, upd_ne, Z2 by (zlen_simpl; lia). cbn [Z.eqb andb].
    eexists. split; [zlen_simpl; do 2 f_equal; lia|]. split.
    + apply bytes_at_app. split.
      * eapply bytes_at_ext; [|exact B1]. intros x Hx. apply upd_ne. lia.
      * split; [apply upd_eq|exact I].
    + zlen_simpl. intros x Hx. rewrite upd_ne by lia. apply O1. lia.
  - destruct Hb as [Hz Hb]. pose proof Hb as Hb2.
    inversion Hl as [|? ? Hq _]; subst. rewrite flat_cons, <- app_assoc in Hb2.
    pose proof (entry_nonzero e _ q _ Hq Hb2) as Hnz.
    assert (e1 (nxt + zlen b) = 0 /\ e1 (nxt + zlen b + 1) <> 0) as [Z1 Z2].
    { rewrite !O1 by lia. auto. }
    rewrite Z1, upd_eq. rewrite (upd_ne _ _ _ (nxt + zlen b + 1)) by lia.
    rewrite (proj2 (Z.eqb_neq _ 0) Z2). cbn [Z.eqb andb].
    assert (bytes_at (upd e1 (env + zlen b) 0) (nxt + zlen b + 1) (flat (q :: l) ++ [0])) as Hb'.
    { eapply bytes_at_ext; [|exact Hb]. intros x Hx. rewrite upd_ne, O1 by lia. reflexivity. }
    destruct (IH q f _ (env + zlen b + 1) (nxt + zlen b + 1) Hl ltac:(lia) Hb' ltac:(lia))
      as (e' & E & B & O).
    exists e'. rewrite E. zlen_simpl. split; [do 2 f_equal; lia|]. split.
    + apply bytes_at_app. split; [|split].
      * eapply bytes_at_ext; [|exact B1]. intros x Hx. rewrite O, upd_ne by lia. reflexivity.
      * rewrite O by lia. apply upd_eq.
      * exact B.
    + intros x Hx. rewrite O, upd_ne by lia. apply O1. lia.
Qed.

Lemma bytes_at_last e a l c : bytes_at e a (l ++ [c]) -> e (a + zlen l) = c.
Proof. intros Hb. apply bytes_at_app in Hb as [_ [Hb _]]. exact Hb. Qed.

(** Deleting the entry between [la] and [lb]. *)
Lemma delete_spec fuel e la p lb :
  env_rep e (la ++ p :: lb) -> Forall entry_ok (la ++ p :: lb) ->
  (length (flat (la ++ p :: lb)) < fuel)%nat ->
  exists e', delete_var fuel e (zlen (flat la)) (zlen (flat la) + zlen (body p)) = Some e' /\
    env_rep e' (la ++ lb) /\ same_outside 0 (zlen (image (la ++ p :: lb))) e e'.
Proof.
  intros Hr Hok Hf. apply image_bytes in Hr. rewrite flat_app, <- app_assoc in Hr.
  apply bytes_at_app in Hr as [Ba Hr]. rewrite Z.add_0_l in Hr. rewrite flat_cons, <- app_assoc in Hr.
  apply bytes_at_app in Hr as [_ [_ Hr]]. apply Forall_app in Hok as [Hla Hok].
  inversion Hok as [|? ? Hp Hlb]; subst.
  rewrite image_nonempty by (destruct la; discriminate).
  unfold delete_var. set (a := zlen (flat la)) in *. assert (0 <= a) by apply zlen_nonneg.
  destruct lb as [|q lb].
  - destruct Hr as [Hz _]. rewrite Hz. cbn [Z.eqb]. rewrite app_nil_r.
    destruct (Z.ltb_spec 0 a) as [Ha|Ha].
    + eexists. split; [reflexivity|]. replace (a - 1 + 1) with a by lia. split.
      * unfold env_rep. rewrite image_nonempty by (intros ->; unfold a in Ha; simpl in Ha; discriminate).
        apply bytes_at_app. split; [|split; [apply upd_eq|exact I]].
        eapply bytes_at_ext; [|exact Ba]. intros x Hx. apply upd_ne. fold a in Hx. lia.
      * intros x Hx. zlen_simpl. apply upd_ne. unfold a in *. lia.
    + destruct la as [|q la]; [|unfold a in *; pose proof (zlen_flat_pos q la); lia].
      change a with 0. eexists. split; [reflexivity|]. split.
      * split; [rewrite upd_ne by lia; apply upd_eq|split; [apply upd_eq|exact I]].
      * intros x Hx. zlen_simpl. change (zlen (flat [])) with 0 in *. rewrite !upd_ne by lia. reflexivity.
  - pose proof Hr as Hr2. rewrite flat_cons, <- app_assoc in Hr2. inversion Hlb as [|? ? Hq Hlb']; subst.
    rewrite (proj2 (Z.eqb_neq _ 0)) by (eapply (entry_nonzero e _ q); eauto).
    assert (0 <= zlen (body p)) by apply zlen_nonneg.
    destruct (shift_entries lb q fuel e a (a + zlen (body p) + 1)) as (e' & -> & B & O); auto; [lia| |].
    { rewrite flat_app, length_app, length_flat_cons in Hf. lia. }
    eexists. split; [reflexivity|]. replace (a + zlen (flat (q :: lb)) - 1 + 1) with (a + zlen (flat (q :: lb))) by lia.
    split.
    + unfold env_rep. rewrite image_nonempty by (destruct la; discriminate).
      rewrite flat_app, <- app_assoc. pose proof (zlen_flat_pos q lb).
      apply bytes_at_app. split; [|apply bytes_at_app; split; [|split; [|exact I]]].
      * eapply bytes_at_ext; [|exact Ba]. intros x Hx. fold a in Hx. rewrite upd_ne, O by lia. reflexivity.
      * rewrite Z.add_0_l. fold a. eapply bytes_at_ext; [|exact B]. intros x Hx. apply upd_ne. lia.
      * rewrite Z.add_0_l. apply upd_eq.
    + intros x Hx. zlen_simpl. unfold a in *. rewrite upd_ne, O by lia. reflexivity.
Qed.

(** ** Appending *)

Lemma env_end_run s : forall fuel e a rest,
  text_ok s -> bytes_at e a (s ++ rest) ->
  env_end (length s + fuel) e a = env_end fuel e (a + zlen s).
Proof.
  induction s as [|c s IH]; intros fuel e a rest Hs Hb.
  - rewrite zlen_nil, Z.add_0_r. reflexivity.
  - inversion Hs; subst. cbn [app bytes_at length Nat.add env_end] in *. destruct Hb as [-> Hb].
    rewrite (proj2 (Z.eqb_neq c 0)) by auto. cbn [negb orb].
    rewrite (IH fuel e (a + 1) rest) by auto. zlen_simpl. f_equal. lia.
Qed.

Lemma env_end_entries l : forall p fuel e off,
  Forall entry_ok (p :: l) -> bytes_at e off (flat (p :: l) ++ [0]) ->
  (length (flat (p :: l)) <= fuel)%nat ->
  env_end fuel e off = Some (off + zlen (flat (p :: l)) - 1).
Proof.
  induction l as [|q l IH]; intros p fuel e off Hok Hb Hf; inversion Hok as [|? ? Hp Hl]; subst;
    rewrite length_flat_cons in Hf; rewrite zlen_flat_cons; pose proof Hb as Hb';
    apply flat_tail in Hb'; rewrite (flat_cons p), <- app_assoc in Hb.
  all: assert (fuel = length (body p) + S (pred (fuel - length (body p))))%nat as -> by lia.
  all: rewrite (env_end_run (body p) _ e off ((0 :: flat _) ++ [0])) by (first [apply body_ok; assumption | exact Hb]).
  all: apply bytes_at_app in Hb as [_ [Hz _]]; cbn [env_end]; rewrite Hz; cbn [Z.eqb negb orb].
  - destruct Hb' as [Hz2 _]. rewrite Hz2. cbn [Z.eqb negb]. change (zlen (flat [])) with 0. apply (f_equal Some). lia.
  - inversion Hl as [|? ? Hq _]; subst. pose proof Hb' as Hb2. rewrite flat_cons, <- app_assoc in Hb2.
    rewrite (proj2 (Z.eqb_neq _ 0)) by (eapply (entry_nonzero e _ q); eauto). cbn [negb].
    rewrite (IH q) by (first [assumption | lia]). f_equal. lia.
Qed.

(** The place where the next entry goes. *)
Lemma env_end_spec fuel e l :
  env_rep e l -> Forall entry_ok l -> (length (flat l) < fuel)%nat ->
  exists a, env_end fuel e 0 = Some a /\ (if 0 <? a then a + 1 else a) = zlen (flat l).
Proof.
  intros Hr Hok Hf. destruct l as [|p l].
  - destruct Hr as (H0 & H1 & _). destruct fuel as [|fuel]; [simpl in Hf; lia|]. exists 0.
    cbn [env_end]. rewrite H0. cbn [Z.eqb negb orb]. rewrite H1. auto.
  - rewrite (env_end_entries l p) by (first [assumption | lia | apply image_bytes; assumption]).
    eexists. split; [reflexivity|]. destruct (body_cons p) as (c & r & E & _); [inversion Hok; auto|].
    rewrite zlen_flat_cons, E. zlen_simpl. branches.
Qed.

Lemma put_str_spec s : forall e a,
  exists e', put_str e a s = (e', a + zlen s) /\ bytes_at e' a (s ++ [0]) /\
    same_outside a (a + zlen s + 1) e e'.
Proof.
  induction s as [|c s IH]; intros e a; cbn [put_str].
  - exists (upd e a 0). change (@zlen Z []) with 0. rewrite !Z.add_0_r. split; [reflexivity|].
    split; [split; [apply upd_eq|exact I]|]. intros x Hx. apply upd_ne. lia.
  - destruct (IH (upd e a c) (a + 1)) as (e' & -> & B & O). exists e'. zlen_simpl.
    split; [f_equal; lia|]. split.
    + split; [|exact B]. rewrite O by lia. apply upd_eq.
    + intros x Hx. rewrite O by lia. apply upd_ne. lia.
Qed.

(** The arguments joined: the separator, the first one, a blank, the next... *)
Fixpoint args_text (sep : Z) (args : list (list Z)) : list Z :=
  match args with [] => [] | a :: args' => sep :: a ++ args_text (chr " ") args' end.

Lemma put_args_spec args : forall e a sep,
  e a = 0 ->
  exists e', put_args e a sep args = (e', a + zlen (args_text sep args)) /\
    bytes_at e' a (args_text sep args ++ [0]) /\
    same_outside a (a + zlen (args_text sep args) + 1) e e'.
Proof.
  induction args as [|v args IH]; intros e a sep H0; cbn [put_args args_text].
  - exists e. rewrite zlen_nil, Z.add_0_r. split; [reflexivity|].
    split; [split; [exact H0|exact I]|apply same_outside_refl].
  - destruct (put_str_spec v (upd e a sep) (a + 1)) as (e1 & -> & B1 & O1).
    destruct (IH e1 (a + 1 + zlen v) (chr " ")) as (e' & -> & B & O).
    { apply bytes_at_last in B1. exact B1. }
    exists e'. zlen_simpl. split; [f_equal; lia|]. split.
    + cbn [app]. rewrite <- app_assoc. split; [|apply bytes_at_app; split; [|exact B]].
      * rewrite O, O1 by lia. apply upd_eq.
      * apply bytes_at_app in B1 as [B1 _]. eapply bytes_at_ext; [|exact B1]. intros x Hx. apply O. lia.
    + intros x Hx. rewrite O, O1 by lia. apply upd_ne. lia.
Qed.

Lemma args_len_spec sep args : args_len args = zlen (args_text sep args).
Proof.
  unfold args_len. assert (forall k, fold_left (fun len a => len + (zlen a + 1)) args k =
    k + zlen (args_text sep args)) as E; [|apply (E 0)].
  revert sep. induction args as [|a args IH]; intros sep k; cbn [fold_left args_text].
  - rewrite zlen_nil. lia.
  - rewrite (IH (chr " ")). zlen_simpl. lia.
Qed.

(** The value an argument list stands for. *)
Definition args_value (args : list (list Z)) : list Z := tl (args_text (chr "=") args).

Lemma append_spec e l a name args :
  env_rep e l -> (if 0 <? a then a + 1 else a) = zlen (flat l) -> args <> [] ->
  let p := (name, args_value args) in
  if zlen (image (l ++ [p])) <=? ENV_SIZE
  then exists e', append_var e a name args = Some e' /\ env_rep e' (l ++ [p]) /\
         same_outside 0 ENV_SIZE e e'
  else append_var e a name args = None.
Proof.
  intros Hr Ha Hn p. unfold append_var. rewrite Ha, (args_len_spec (chr "=")).
  assert (body p = name ++ args_text (chr "=") args) as Eb.
  { unfold body, p, args_value. destruct args; [congruence|reflexivity]. }
  assert (image (l ++ [p]) = flat l ++ name ++ args_text (chr "=") args ++ [0; 0]) as Ei.
  { rewrite image_nonempty by (destruct l; discriminate). rewrite flat_app, flat_cons, Eb.
    rewrite <- !app_assoc. reflexivity. }
  rewrite Ei. clearbody p. set (t := args_text (chr "=") args).
  assert (0 <= zlen (flat l)) by apply zlen_nonneg. zlen_simpl.
  destruct (Z.leb_spec (zlen (flat l) + (zlen name + (zlen t + (0 + 1 + 1)))) ENV_SIZE) as [Hfit|Hbig].
  2: { destruct (Z.ltb_spec (ENV_SIZE - zlen (flat l)) (zlen name + 2 + zlen t)); [reflexivity|lia]. }
  destruct (Z.ltb_spec (ENV_SIZE - zlen (flat l)) (zlen name + 2 + zlen t)); [lia|].
  destruct (put_str_spec name e (zlen (flat l))) as (e1 & -> & B1 & O1).
  destruct (put_args_spec args e1 (zlen (flat l) + zlen name) (chr "=")) as (e2 & -> & B2 & O2).
  { apply bytes_at_last in B1. exact B1. }
  fold t in B2, O2 |- *. eexists. split; [reflexivity|]. split.
  - unfold env_rep. rewrite Ei. apply image_bytes in Hr. apply bytes_at_app in Hr as [Br _].
    apply bytes_at_app in B1 as [B1 _]. fold t. rewrite Z.add_0_l in *.
    replace (t ++ [0; 0]) with ((t ++ [0]) ++ [0]) by (rewrite <- app_assoc; reflexivity).
    apply bytes_at_app. rewrite Z.add_0_l. split; [|apply bytes_at_app; split; [|apply bytes_at_app; split]].
    + eapply bytes_at_ext; [|exact Br]. intros x Hx. rewrite upd_ne, O2, O1 by lia. reflexivity.
    + eapply bytes_at_ext; [|exact B1]. intros x Hx. rewrite upd_ne, O2 by lia. reflexivity.
    + eapply bytes_at_ext; [|exact B2]. intros x Hx. zlen_simpl. apply upd_ne. lia.
    + split; [|exact I]. zlen_simpl.
      replace (zlen (flat l) + zlen name + (zlen t + (0 + 1))) with (zlen (flat l) + zlen name + zlen t + 1) by lia.
      apply upd_eq.
  - intros x Hx. rewrite upd_ne, O2, O1 by lia. reflexivity.
Qed.

(** ** The association list *)

Lemma lookup_split name l v :
  env_lookup name l = Some v ->
  exists la lb, l = la ++ (name, v) :: lb /\ ~ In name (map fst la) /\ env_remove name l = la ++ lb.
Proof.
  induction l as [|[n w] l IH]; cbn [env_lookup env_remove fst snd]; [discriminate|].
  case_bool_decide as E.
  - intros [= <-]. subst. exists [], l. auto.
  - intros Hl. destruct (IH Hl) as (la & lb & -> & Hin & ->). exists ((n, w) :: la), lb.
    split_and!; auto. simpl. tauto.
Qed.

Lemma lookup_none name l : env_lookup name l = None -> ~ In name (map fst l) /\ env_remove name l = l.
Proof.
  induction l as [|[n w] l IH]; cbn [env_lookup env_remove fst]; [auto|].
  case_bool_decide as E; [discriminate|]. intros Hl. destruct (IH Hl) as [H1 ->]. simpl. tauto.
Qed.

Lemma remove_ok name l :
  Forall entry_ok l -> List.NoDup (map fst l) ->
  Forall entry_ok (env_remove name l) /\ List.NoDup (map fst (env_remove name l)) /\
  ~ In name (map fst (env_remove name l)).
Proof.
  intros Hl Hn. destruct (env_lookup name l) as [v|] eqn:E.
  - destruct (lookup_split name l v E) as (la & lb & -> & Hin & ->).
    apply Forall_app in Hl as [H1 H2]. inversion H2; subst. split; [apply Forall_app; auto|].
    rewrite !map_app in *. apply NoDup_remove in Hn. exact Hn.
  - destruct (lookup_none name l E) as [Hin ->]. auto.
Qed.

Lemma zlen_image l : zlen (image l) = Z.max 2 (zlen (flat l) + 1).
Proof.
  destruct l as [|p l]; [reflexivity|]. rewrite image_nonempty by discriminate.
  zlen_simpl. lia.
Qed.

Lemma zlen_image_delete la p lb : zlen (image (la ++ lb)) <= zlen (image (la ++ p :: lb)).
Proof. rewrite !zlen_image, !zlen_flat_app, zlen_flat_cons. zlen_simpl. lia. Qed.

Lemma inv_length e l : env_inv e l -> (length (flat l) < Z.to_nat ENV_SIZE)%nat.
Proof. intros (_ & _ & _ & H). rewrite zlen_image in H. unfold zlen in H. lia. Qed.

Lemma lookup_app name l p :
  env_lookup name (l ++ [p]) =
    match env_lookup name l with
    | Some v => Some v
    | None => if bool_decide (p.1 = name) then Some p.2 else None
    end.
Proof. induction l as [|q l IH]; cbn [app env_lookup]; [reflexivity|]. destruct (bool_decide (q.1 = name)); auto. Qed.

Lemma lookup_remove_ne name n l : n <> name -> env_lookup n (env_remove name l) = env_lookup n l.
Proof.
  intros Hn. induction l as [|[m w] l IH]; cbn [env_lookup env_remove fst snd]; [reflexivity|].
  case_bool_decide as E; cbn [env_lookup fst snd]; case_bool_decide as E2; congruence.
Qed.

Lemma lookup_not_in name l : ~ In name (map fst l) -> env_lookup name l = None.
Proof.
  induction l as [|[n w] l IH]; cbn [env_lookup map fst In]; [auto|]. intros H.
  case_bool_decide; tauto.
Qed.

Lemma NoDup_app_snoc {A} (l : list A) x : List.NoDup l -> ~ In x l -> List.NoDup (l ++ [x]).
Proof.
  intros H1 H2. induction H1 as [|y l Hy Hl IH]; cbn [app].
  - repeat constructor. auto.
  - simpl in H2. constructor; [|apply IH; tauto]. rewrite in_app_iff. simpl. intuition congruence.
Qed.

(** ** Lookup *)

Lemma env_skip_spec s : forall n e a rest,
  text_ok s -> bytes_at e a (s ++ 0 :: rest) -> a + zlen s <= CONFIG_ENV_SIZE ->
  (length s < n)%nat -> env_skip n e a = Some (a + zlen s).
Proof.
  induction s as [|c s IH]; intros [|n] e a rest Hs Hb Ha Hf; cbn [length] in Hf; try lia.
  - destruct Hb as [Hz _]. cbn [env_skip]. rewrite Hz. change (@zlen Z []) with 0.
    rewrite Z.add_0_r. reflexivity.
  - inversion Hs; subst. destruct Hb as [Hc Hb]. cbn [env_skip]. rewrite Hc.
    rewrite (proj2 (Z.eqb_neq c 0)) by auto. zlen_simpl.
    rewrite (proj2 (Z.leb_gt _ _)) by lia. rewrite (IH n e (a + 1) rest) by (auto; lia).
    f_equal. lia.
Qed.

Lemma env_next_spec e p l off :
  entry_ok p -> bytes_at e off (flat (p :: l) ++ [0]) -> 0 <= off ->
  off + zlen (body p) <= CONFIG_ENV_SIZE ->
  env_next e off = Some (off + zlen (body p)).
Proof.
  intros Hp Hb H0 H1. rewrite flat_cons, <- app_assoc in Hb. unfold env_next.
  apply (env_skip_spec (body p) _ e off (flat l ++ [0])); [apply body_ok; auto|exact Hb|exact H1|].
  unfold zlen in H1. lia.
Qed.

Lemma getenv_loop_spec name l : forall fuel e off,
  name_ok name -> Forall entry_ok l -> bytes_at e off (flat l ++ [0]) -> 0 <= off ->
  off + zlen (flat l) <= CONFIG_ENV_SIZE -> (length (flat l) < fuel)%nat ->
  match env_lookup name l with
  | None => getenv_loop fuel e name off = Some None
  | Some v => exists a, getenv_loop fuel e name off = Some (Some a) /\ 0 <= a /\ cstr e a v
  end.
Proof.
  induction l as [|p l IH]; intros [|fuel] e off Hn Hok Hb H0 H1 Hf; try lia.
  - destruct Hb as [Hz _]. cbn [env_lookup getenv_loop]. rewrite Hz. reflexivity.
  - inversion Hok as [|? ? Hp Hl]; subst. rewrite zlen_flat_cons in H1. rewrite length_flat_cons in Hf.
    pose proof (zlen_nonneg (flat l)). pose proof (zlen_nonneg (body p)).
    cbn [getenv_loop]. rewrite (env_next_spec e p l off) by (auto; lia).
    pose proof Hb as Hb'. rewrite flat_cons, <- app_assoc in Hb'.
    rewrite (proj2 (Z.eqb_neq _ 0)) by (eapply (entry_nonzero e _ p); eauto).
    apply bytes_body in Hb'. cbn [env_lookup]. case_bool_decide as E.
    + subst name. rewrite (envmatch_hit e p.1 off _ Hn Hb').
      pose proof (zlen_nonneg p.1). rewrite (proj2 (Z.ltb_ge _ 0)) by lia.
      eexists. split; [reflexivity|]. split; [lia|].
      apply bytes_at_app in Hb' as [_ [_ Hv]].
      replace (off + zlen p.1 + 1) with (off + zlen p.1 + 1) by lia.
      change (p.2 ++ (0 :: flat l) ++ [0]) with (p.2 ++ [0] ++ (flat l ++ [0])) in Hv.
      rewrite app_assoc in Hv. apply bytes_at_app in Hv as [Hv _].
      apply bytes_cstr; [apply Hp|exact Hv].
    + rewrite (envmatch_miss e name p.1 off _ Hn (proj1 Hp) E Hb'). cbn.
      apply IH; auto; [|lia|lia|lia]. apply flat_tail. exact Hb.
Qed.

Lemma getenv_spec e l name :
  env_inv e l -> name_ok name ->
  match env_lookup name l with
  | None => getenv e name = Some None
  | Some v => exists a, getenv e name = Some (Some a) /\ 0 <= a /\ cstr e a v
  end.
Proof.
  intros Hi Hn. pose proof (inv_length e l Hi) as Hlen. destruct Hi as (Hr & Hok & _ & Hsz).
  apply getenv_loop_spec; auto.
  - apply image_bytes. exact Hr.
  - lia.
  - rewrite zlen_image in Hsz. unfold ENV_SIZE, ENV_HEADER_SIZE in Hsz. lia.
  - unfold ENV_SIZE, ENV_HEADER_SIZE in Hlen. lia.
Qed.

(** ** The whole handler *)

Section setenv_spec.
Context {C : Type} `{Console C} (null_text : list Z).

(** A name without a special role in the handler. *)
Definition plain (name : list Z) : Prop :=
  name <> str "stdin" /\ name <> str "stdout" /\ name <> str "stderr" /\ name <> str "baudrate".

Lemma no_equals name : name_ok name -> existsb (Z.eqb (chr "=")) name = false.
Proof.
  induction 1 as [|c s [_ Hc] Hs IH]; [reflexivity|]. cbn [existsb].
  rewrite (proj2 (Z.eqb_neq _ c)) by congruence. exact IH.
Qed.

Lemma setenv_console_plain (s : env_state (C := C)) name args : plain name -> setenv_console s name args = inr s.
Proof.
  intros (H1 & H2 & H3 & _). unfold setenv_console. rewrite !bool_decide_eq_false_2 by auto. reflexivity.
Qed.

(** The deletion: the block without the name, nothing else changed. *)
Lemma do_setenv_deleted fuel (s : env_state (C := C)) l name args :
  env_inv (edata s) l -> name_ok name -> plain name -> (Z.to_nat ENV_SIZE < fuel)%nat ->
  exists s1, env_inv (edata s1) (env_remove name l) /\ ecrc s1 = ecrc s /\
    same_outside 0 ENV_SIZE (edata s) (edata s1) /\
    _do_setenv null_text fuel s name args =
      match args with
      | [] => Some (0, env_crc_update s1)
      | arg :: _ =>
          match env_end fuel (edata s1) 0 with
          | None => None
          | Some env =>
              match append_var (edata s1) env name args with
              | None => Some (1, s1)
              | Some e => Some (0, setenv_mirror (env_crc_update (set_data s1 e)) name arg)
              end
          end
      end.
Proof.
  intros Hi Hn Hp Hf. pose proof (inv_length _ _ Hi) as Hlen. destruct Hi as (Hr & Hok & Hnd & Hsz).
  unfold _do_setenv. rewrite no_equals by auto. cbn zeta.
  change (edata (bump_id s)) with (edata s). destruct (env_lookup name l) as [v|] eqn:E.
  - destruct (lookup_split name l v E) as (la & lb & -> & Hin & Er).
    pose proof Hok as Hok'. apply Forall_app in Hok' as [Hla Hlb]. inversion Hlb; subst.
    rewrite (search_hit fuel (edata s) name v la lb 0 0) by
      (first [assumption | lia | apply image_bytes; assumption]).
    rewrite setenv_console_plain by auto. rewrite (bool_decide_eq_false_2 (name = str "baudrate")) by apply Hp.
    rewrite (proj2 (Z.leb_le 0 _)) by (zlen_simpl; lia). rewrite Z.add_0_l.
    change (edata (bump_id s)) with (edata s).
    destruct (delete_spec fuel (edata s) la (name, v) lb Hr Hok) as (e' & Ed & Hr' & Ho); [lia|].
    rewrite Ed. exists (set_data (bump_id s) e').
    destruct (remove_ok name (la ++ (name, v) :: lb) Hok Hnd) as (R1 & R2 & _). rewrite Er in *.
    split; [|split; [reflexivity|split; [|reflexivity]]].
    + split; [exact Hr'|]. split; [exact R1|]. split; [exact R2|].
      pose proof (zlen_image_delete la (name, v) lb). lia.
    + eapply same_outside_weaken; [exact Ho|lia|exact Hsz].
  - destruct (lookup_none name l E) as [Hin ->].
    destruct (search_none fuel (edata s) name l 0 0) as (env & nxt & ->); try assumption; try lia.
    { apply image_bytes. exact Hr. }
    rewrite setenv_console_plain by auto. cbn [Z.leb Z.compare].
    exists (bump_id s). split; [exact (conj Hr (conj Hok (conj Hnd Hsz)))|].
    split; [reflexivity|]. split; [apply same_outside_refl|reflexivity].
Qed.

Lemma mirror_keeps (s : env_state (C := C)) name arg :
  edata (setenv_mirror s name arg) = edata s /\ ecrc (setenv_mirror s name arg) = ecrc s.
Proof. unfold setenv_mirror. repeat case_bool_decide; auto. Qed.

Definition crc_ok (s : env_state (C := C)) : Prop := ecrc s = crc32 (edata s) 0 0 ENV_SIZE.

Lemma do_setenv_spec fuel (s : env_state (C := C)) l name args :
  env_inv (edata s) l -> name_ok name -> Forall text_ok args -> plain name ->
  (Z.to_nat ENV_SIZE < fuel)%nat ->
  exists r s', _do_setenv null_text fuel s name args = Some (r, s') /\
    same_outside 0 ENV_SIZE (edata s) (edata s') /\
    (let l' := env_remove name l in
     let new := l' ++ [(name, args_value args)] in
     if bool_decide (args = []) then r = 0 /\ env_inv (edata s') l' /\ crc_ok s'
     else if zlen (image new) <=? ENV_SIZE then r = 0 /\ env_inv (edata s') new /\ crc_ok s'
     else r = 1 /\ env_inv (edata s') l' /\ ecrc s' = ecrc s).
Proof.
  intros Hi Hn Ha Hp Hf.
  destruct (do_setenv_deleted fuel s l name args Hi Hn Hp Hf) as (s1 & Hi1 & Hc & Ho & ->).
  destruct args as [|arg args].
  { do 2 eexists. split; [reflexivity|]. split; [exact Ho|]. cbn. split; [reflexivity|].
    split; [exact Hi1|reflexivity]. }
  pose proof (inv_length _ _ Hi1) as Hlen. pose proof Hi1 as (Hr1 & Hok1 & Hnd1 & Hsz1).
  destruct (env_end_spec fuel (edata s1) (env_remove name l) Hr1 Hok1) as (a & -> & Ea); [lia|].
  pose proof (append_spec (edata s1) (env_remove name l) a name (arg :: args) Hr1 Ea ltac:(discriminate)) as Hap.
  rewrite bool_decide_eq_false_2 by discriminate. cbv zeta in *.
  destruct (Z.leb_spec (zlen (image (env_remove name l ++ [(name, args_value (arg :: args))]))) ENV_SIZE) as [Hfit|Hbig].
  - destruct Hap as (e' & -> & Hr' & Ho').
    do 2 eexists. split; [reflexivity|].
    destruct (mirror_keeps (env_crc_update (set_data s1 e')) name arg) as [Em1 Em2].
    unfold crc_ok. rewrite Em1, Em2. split; [eapply same_outside_trans; [exact Ho|exact Ho']|].
    split; [reflexivity|]. split; [|reflexivity]. split; [exact Hr'|].
    pose proof Hi as (_ & Hok & Hnd & _). destruct (remove_ok name l Hok Hnd) as (_ & _ & Hnin).
    split; [|split; [|exact Hfit]].
    + apply Forall_app. split; [exact Hok1|]. constructor; [|constructor]. split; [exact Hn|].
      cbn [snd]. unfold args_value. cbn [args_text tl]. inversion Ha as [|? ? Hv Hargs]; subst.
      apply Forall_app. split; [exact Hv|]. clear -Hargs.
      induction Hargs; cbn [args_text]; [constructor|]. constructor; [discriminate|].
      apply Forall_app. auto.
    + rewrite map_app. cbn [map fst]. apply NoDup_app_snoc; auto.
  - rewrite Hap. do 2 eexists. split; [reflexivity|]. split; [exact Ho|]. auto.
Qed.


(** What [getenv] finds: a string in the block or NULL. *)
Definition reads (e : mem) (name : list Z) (v : option (list Z)) : Prop :=
  match v with
  | None => getenv e name = Some None
  | Some v => exists a, getenv e name = Some (Some a) /\ 0 <= a /\ cstr e a v
  end.

Lemma reads_lookup e l name : env_inv e l -> name_ok name -> reads e name (env_lookup name l).
Proof. apply getenv_spec. Qed.

(** After a successful [setenv] the variable reads back as the arguments
    joined by blanks (or as undefined, without arguments), and every other
    variable reads as before. *)
Theorem setenv_getenv fuel (s : env_state (C := C)) s' l name args :
  env_inv (edata s) l -> name_ok name -> Forall text_ok args -> plain name ->
  (Z.to_nat ENV_SIZE < fuel)%nat ->
  _do_setenv null_text fuel s name args = Some (0, s') ->
  reads (edata s') name (if bool_decide (args = []) then None else Some (args_value args)) /\
  forall n, name_ok n -> n <> name ->
    exists v, reads (edata s) n v /\ reads (edata s') n v.
Proof.
  intros Hi Hn Ha Hp Hf E.
  destruct (do_setenv_spec fuel s l name args Hi Hn Ha Hp Hf) as (r & s1 & E1 & _ & H1).
  rewrite E in E1. injection E1 as <- <-. cbv zeta in H1.
  pose proof Hi as (_ & Hok & Hnd & _). destruct (remove_ok name l Hok Hnd) as (_ & _ & Hnin).
  assert (exists l', env_inv (edata s') l' /\
    env_lookup name l' = (if bool_decide (args = []) then None else Some (args_value args)) /\
    forall n, n <> name -> env_lookup n l' = env_lookup n l) as (l' & Hi' & L1 & L2).
  { case_bool_decide as Ea.
    - destruct H1 as (_ & Hi' & _). exists (env_remove name l). split; [exact Hi'|].
      split; [apply lookup_not_in; exact Hnin|]. intros n. apply lookup_remove_ne.
    - destruct (zlen (image (env_remove name l ++ [(name, args_value args)])) <=? ENV_SIZE);
        [|destruct H1; discriminate].
      destruct H1 as (_ & Hi' & _). eexists. split; [exact Hi'|]. split.
      + rewrite lookup_app, lookup_not_in by exact Hnin. cbn [fst snd].
        rewrite bool_decide_eq_true_2; reflexivity.
      + intros n Hne. rewrite lookup_app, lookup_remove_ne by exact Hne. cbn [fst].
        rewrite bool_decide_eq_false_2 by congruence. destruct (env_lookup n l); reflexivity. }
  split.
  - rewrite <- L1. apply reads_lookup; auto.
  - intros n Hnn Hne. exists (env_lookup n l). split; [apply reads_lookup; auto|].
    rewrite <- L2 by exact Hne. apply reads_lookup; auto.
Qed.
End setenv_spec.

(** ** Persistence: definitions (common/env_common.c, common/env_nvram.c) *)

Definition default_environment : list Z :=
  str "bootcmd=bootp 1000000; setenv bootargs root=ramfs console=ttyS00,9600 ip=${ipaddr}:${serverip}:${rootpath}:${gatewayip}:${netmask}:${hostname}:eth0:none; bootm"
  ++ [0] ++ str "bootdelay=5" ++ [0] ++ str "baudrate=9600" ++ [0] ++ str "loads_echo=0" ++ [0]
  ++ str "ethaddr=00:00:5b:ee:de:ad" ++ [0] ++ str "ipaddr=192.168.0.105" ++ [0]
  ++ str "serverip=192.168.0.100" ++ [0] ++ [0] ++ [0].

(** The environment structure in memory: the CRC word in front of the data. *)
Definition env_block (e : mem) (crc : Z) : mem := store32 (fun x => e (x - 4)) 0 crc.

Section nvram.
Context {St : Type} `{RtcChip St}.
(** What an uninitialised buffer holds. *)
Context (junk : mem).

Definition env_get_char_spec (index : Z) (st : St) : Z * St :=
  let '(m, st) := nvram_read junk 0 (CONFIG_ENV_ADDR + index) 1 st in (m 0, st).

(** [saveenv] *)
Definition saveenv (e : mem) (crc : Z) (st : St) : Z * St :=
  (0, nvram_write (env_block e crc) CONFIG_ENV_ADDR 0 (Z.to_nat CONFIG_ENV_SIZE) st).

(** [env_init]: gd->env_valid. *)
Definition env_init (st : St) : bool * St :=
  let '(mc, st) := nvram_read junk 0 CONFIG_ENV_ADDR 4 st in
  let crc := load32 mc 0 in
  let '(data, st) := nvram_read junk 0 (CONFIG_ENV_ADDR + 4) (Z.to_nat ENV_SIZE) st in
  (crc32 data 0 0 ENV_SIZE =? crc, st).

(** [set_default_env] on the block at [e], with the CRC word it leaves; the
    memset and the memcpy as stores of the bytes. *)
Definition set_default_env (e : mem) (crc : Z) : mem * Z :=
  if ENV_SIZE <? zlen default_environment then (e, crc)
  else
    let e := put_bytes e (- 4) (repeat 0 (Z.to_nat CONFIG_ENV_SIZE)) in
    let e := put_bytes e 0 default_environment in
    (e, crc32 e 0 0 ENV_SIZE).

(** [env_relocate] into a fresh buffer. *)
Definition env_relocate (valid : bool) (st : St) : mem * Z * St :=
  if valid then
    let '(m, st) := nvram_read junk 0 CONFIG_ENV_ADDR (Z.to_nat CONFIG_ENV_SIZE) st in
    ((fun x => m (x + 4)), load32 m 0, st)
  else let '(e, crc) := set_default_env (fun x => junk (x + 4)) 0 in (e, crc, st).

(** *** Power cycle *)

#[local] Opaque crc32.

Lemma env_block_data e crc x : 0 <= x -> env_block e crc (x + 4) = e x.
Proof. intros. unfold env_block. rewrite store32_outside by lia. f_equal. lia. Qed.

Lemma env_block_ok e crc : mem_ok e -> mem_ok (env_block e crc).
Proof. intros He. apply store32_ok. intros x. apply He. Qed.

(** The chip holds this block in the environment's cells. *)
Definition stored (st : St) (blk : mem) : Prop :=
  forall i, 0 <= i < CONFIG_ENV_SIZE -> cell st (CONFIG_ENV_ADDR + i) = blk i.

Lemma saveenv_stored e crc st :
  mem_ok e -> (saveenv e crc st).1 = 0 /\ stored (saveenv e crc st).2 (env_block e crc).
Proof.
  intros He. split; [reflexivity|]. intros i Hi. unfold saveenv. cbn [snd].
  rewrite nvram_write_spec by (auto using env_block_ok; unfold CONFIG_ENV_ADDR, CONFIG_ENV_SIZE; lia).
  rewrite Z2Nat.id by (unfold CONFIG_ENV_SIZE; lia).
  rewrite (proj2 (Z.leb_le _ _)), (proj2 (Z.ltb_lt _ _)) by lia. cbn [andb]. f_equal. lia.
Qed.

(** The two reads of [env_init] in terms of the stored block. *)
Lemma env_init_spec st blk :
  stored st blk -> mem_ok junk -> mem_ok blk ->
  exists st', env_init st =
      (crc32 (fun x => blk (x + 4)) 0 0 ENV_SIZE =? load32 blk 0, st') /\
    forall r, cell st' r = cell st r.
Proof.
  intros Hs Hj Hb. unfold env_init.
  destruct (nvram_read_spec junk 0 CONFIG_ENV_ADDR 4 st) as (mc & st1 & -> & R1 & _ & C1);
    [unfold CONFIG_ENV_ADDR; lia..|].
  destruct (nvram_read_spec junk 0 (CONFIG_ENV_ADDR + 4) (Z.to_nat ENV_SIZE) st1)
    as (md & st2 & -> & R2 & O2 & C2); [unfold CONFIG_ENV_ADDR, ENV_SIZE, CONFIG_ENV_SIZE, ENV_HEADER_SIZE; lia..|].
  exists st2. split; [|intros r; rewrite C2; apply C1].
  assert (forall i, 0 <= i < 4 -> mc i = blk i) as Ec.
  { intros i Hi. specialize (R1 i Hi). rewrite Z.add_0_l in R1. rewrite R1. apply Hs.
    unfold CONFIG_ENV_SIZE. lia. }
  assert (forall i, 0 <= i < ENV_SIZE -> md i = blk (i + 4)) as Ed.
  { intros i Hi. unfold ENV_SIZE, ENV_HEADER_SIZE in *. rewrite <- (Z.add_0_l i), R2, C1 by lia.
    rewrite <- Hs by lia. f_equal. lia. }
  assert (mem_ok md) as Hmd.
  { intros x. destruct (Z.lt_ge_cases x 0) as [Hx|Hx]; [rewrite O2 by lia; apply Hj|].
    destruct (Z.lt_ge_cases x ENV_SIZE) as [Hx2|Hx2].
    - rewrite Ed by lia. apply Hb.
    - rewrite O2; [apply Hj|]. rewrite Z2Nat.id by (unfold ENV_SIZE, CONFIG_ENV_SIZE, ENV_HEADER_SIZE; lia). lia. }
  apply (f_equal2 pair); [|reflexivity]. apply (f_equal2 Z.eqb).
  - apply crc32_ext; [intros x; apply Hb|exact Hmd|unfold_words; lia| |].
    + unfold ENV_SIZE, CONFIG_ENV_SIZE, ENV_HEADER_SIZE. lia.
    + intros i Hi. rewrite Z.add_0_l. apply Ed. exact Hi.
  - unfold load32. rewrite !Ec by lia. reflexivity.
Qed.

(** C7: an environment saved with its CRC is found valid after a reset and is
    relocated unchanged: the same variables have the same values. *)
Theorem env_power_cycle e crc st :
  mem_ok e -> mem_ok junk -> crc = crc32 e 0 0 ENV_SIZE ->
  exists st1, env_init (saveenv e crc st).2 = (true, st1) /\
    exists e' st2, env_relocate true st1 = (e', crc, st2) /\
      forall x, 0 <= x < ENV_SIZE -> e' x = e x.
Proof.
  intros He Hj Hc. destruct (saveenv_stored e crc st He) as [_ Hs].
  assert (is_u32 crc) as Hcu by (rewrite Hc; apply crc32_u32; [exact He|unfold_words; lia|vm_compute; discriminate]).
  assert (load32 (env_block e crc) 0 = crc) as Hl.
  { apply load_store32; [intros x; apply He|exact Hcu]. }
  destruct (env_init_spec _ _ Hs Hj (env_block_ok e crc He)) as (st1 & E & C1).
  exists st1. rewrite E, Hl. split.
  - f_equal. apply Z.eqb_eq. transitivity (crc32 e 0 0 ENV_SIZE); [|symmetry; exact Hc].
    apply crc32_ext; [exact He| |unfold_words; lia| |].
    + intros x. apply env_block_ok. exact He.
    + vm_compute. discriminate.
    + intros i Hi. rewrite !Z.add_0_l. apply env_block_data. lia.
  - unfold env_relocate.
    destruct (nvram_read_spec junk 0 CONFIG_ENV_ADDR (Z.to_nat CONFIG_ENV_SIZE) st1)
      as (m & st2 & -> & R & _ & _); [unfold CONFIG_ENV_ADDR, CONFIG_ENV_SIZE; lia..|].
    assert (forall i, 0 <= i < CONFIG_ENV_SIZE -> m i = env_block e crc i) as Em.
    { intros i Hi. rewrite <- (Z.add_0_l i) at 1. rewrite R, C1 by (rewrite Z2Nat.id; unfold CONFIG_ENV_SIZE in *; lia).
      apply Hs. exact Hi. }
    exists (fun x => m (x + 4)), st2. split.
    + assert (load32 m 0 = crc) as ->; [|reflexivity]. rewrite <- Hl. unfold load32.
      unfold CONFIG_ENV_SIZE in Em. rewrite !Em by lia. reflexivity.
    + intros x Hx. unfold ENV_SIZE, ENV_HEADER_SIZE in Hx. rewrite Em by lia. apply env_block_data. lia.
Qed.

(** C36: any single corrupted cell of the saved block, in the CRC or in the data,
    makes [env_init] reject it, so that the defaults are used. *)
Theorem env_corruption_detected e crc st st' i v :
  mem_ok e -> mem_ok junk -> crc = crc32 e 0 0 ENV_SIZE ->
  0 <= i < CONFIG_ENV_SIZE -> is_u8 v -> v <> env_block e crc i ->
  (forall r, cell st' r = if r =? CONFIG_ENV_ADDR + i then v else cell (saveenv e crc st).2 r) ->
  (env_init st').1 = false.
Proof.
  intros He Hj Hc Hi Hv Hne Hst. destruct (saveenv_stored e crc st He) as [_ Hs].
  set (blk := upd (env_block e crc) i v).
  assert (stored st' blk) as Hs'.
  { intros k Hk. rewrite Hst. unfold blk, upd. destruct (Z.eqb_spec k i) as [->|].
    - rewrite Z.eqb_refl. reflexivity.
    - rewrite (proj2 (Z.eqb_neq _ _)) by lia. apply Hs. exact Hk. }
  assert (mem_ok blk) as Hb by (apply upd_ok; auto using env_block_ok).
  destruct (env_init_spec st' blk Hs' Hj Hb) as (st1 & -> & _). cbn [fst]. apply Z.eqb_neq.
  assert (is_u32 crc) as Hcu by (rewrite Hc; apply crc32_u32; [exact He|unfold_words; lia|vm_compute; discriminate]).
  assert (load32 (env_block e crc) 0 = crc) as Hl by (apply load_store32; [intros x; apply He|exact Hcu]).
  assert (0 <= ENV_SIZE) by (vm_compute; discriminate).
  destruct (Z.lt_ge_cases i 4) as [Hlow|Hhigh].
  - assert (crc32 (fun x => blk (x + 4)) 0 0 ENV_SIZE = crc) as ->.
    { rewrite Hc. apply crc32_ext; [exact He|intros x; apply Hb|unfold_words; lia|lia|].
      intros k Hk. rewrite !Z.add_0_l. unfold blk. rewrite upd_ne by lia. apply env_block_data. lia. }
    rewrite <- Hl. intros E. apply Hne.
    pose proof (env_block_ok e crc He) as Hb0. rewrite !load32_sum in E by auto.
    assert (forall k, k <> i -> blk k = env_block e crc k) as K by (intros; apply upd_ne; auto).
    assert (blk i = v) as Ki by apply upd_eq. rewrite <- Ki.
    rewrite !Z.add_0_l in E. clearbody blk. clear - E K Hlow Hi.
    assert (i = 0 \/ i = 1 \/ i = 2 \/ i = 3) as [->|[->|[->| ->]]] by lia;
      repeat match type of E with context [blk ?k] => rewrite (K k) in E by lia end; lia.
  - unfold load32. unfold blk at 2 3 4 5. rewrite !upd_ne by lia. fold (load32 (env_block e crc) 0).
    rewrite Hl. set (d := fun x => env_block e crc (x + 4)).
    assert (mem_ok d) as Hd by (intros x; apply env_block_ok; exact He).
    assert (crc32 d 0 0 ENV_SIZE = crc) as Ed.
    { rewrite Hc. apply crc32_ext; [exact He|exact Hd|unfold_words; lia|lia|].
      intros k Hk. rewrite !Z.add_0_l. apply env_block_data. lia. }
    assert (crc32 (fun x => blk (x + 4)) 0 0 ENV_SIZE = crc32 (upd d (i - 4) v) 0 0 ENV_SIZE) as Eb.
    { apply crc32_ext; [apply upd_ok; auto|intros x; apply Hb|unfold_words; lia|lia|].
      intros k Hk. unfold blk, d, upd. rewrite !Z.add_0_l.
      destruct (Z.eqb_spec (k + 4) i), (Z.eqb_spec k (i - 4)); try lia; reflexivity. }
    rewrite Eb, <- Ed. apply crc32_byte_change; [exact Hd|unfold_words; lia|exact Hv| |].
    + unfold ENV_SIZE, ENV_HEADER_SIZE. lia.
    + unfold d. replace (i - 4 + 4) with i by lia. exact Hne.
Qed.

(** Before relocation the environment is read from its CRC word on, not from
    its data: the first four characters are those of the CRC. *)
Lemma env_get_char_spec_reads_crc e crc st index :
  mem_ok e -> 0 <= index < CONFIG_ENV_SIZE ->
  (env_get_char_spec index (saveenv e crc st).2).1 = env_block e crc index.
Proof.
  intros He Hi. destruct (saveenv_stored e crc st He) as [_ Hs]. unfold env_get_char_spec.
  destruct (nvram_read_spec junk 0 (CONFIG_ENV_ADDR + index) 1 (saveenv e crc st).2)
    as (m & st' & -> & R & _); [unfold CONFIG_ENV_ADDR, CONFIG_ENV_SIZE in *; lia..|].
  cbn [fst]. specialize (R 0 ltac:(lia)). rewrite Z.add_0_r in R. rewrite R.
  rewrite Z.add_0_r. apply Hs. exact Hi.
Qed.
End nvram.

(** ** Concrete runs *)

(** A console with the two names of the serial port. *)
#[export] Instance ex_console : Console unit := {
  console_assign c file name := if bool_decide (name = str "serial") then Some tt else None
}.

Definition ex_vars : list entry :=
  [(str "bootdelay", str "5"); (str "ipaddr", str "192.168.0.105"); (str "bootcmd", str "bootm")].
Definition ex_block : mem := put_bytes (fun _ => 0) 0 (image ex_vars).
Definition ex_state : env_state :=
  EnvState ex_block (crc32 ex_block 0 0 ENV_SIZE) 1 9600 9600 0 0x1000000 [] tt [].

Lemma ex_vars_ok : Forall entry_ok ex_vars /\ List.NoDup (map fst ex_vars).
Proof.
  split.
  - repeat (apply List.Forall_cons || apply List.Forall_nil || split || discriminate).
  - repeat (apply List.NoDup_cons || apply List.NoDup_nil);
      simpl; intuition discriminate.
Qed.

Lemma ex_env_inv : env_inv ex_block ex_vars.
Proof.
  destruct ex_vars_ok. split; [apply put_bytes_at|]. split; [assumption|]. split; [assumption|].
  vm_compute. discriminate.
Qed.

Lemma ex_block_ok : mem_ok ex_block.
Proof. apply put_bytes_ok; [apply zero_ok|apply all_u8_spec; reflexivity]. Qed.

Lemma ex_plain name :
  bool_decide (name <> str "stdin" /\ name <> str "stdout" /\ name <> str "stderr" /\
               name <> str "baudrate") = true -> plain name.
Proof. apply bool_decide_eq_true_1. Qed.

Lemma ex_name_ok name :
  forallb (fun c => negb (c =? 0) && negb (c =? chr "=")) name = true -> name_ok name.
Proof.
  rewrite forallb_forall. intros H. apply List.Forall_forall. intros c Hc. specialize (H c Hc). lia.
Qed.
Lemma ex_text_ok s : forallb (fun c => negb (c =? 0)) s = true -> text_ok s.
Proof.
  rewrite forallb_forall. intros H. apply List.Forall_forall. intros c Hc. specialize (H c Hc). lia.
Qed.


Lemma setenv_getenv_witness :
  exists s', _do_setenv [] 1100 ex_state (str "ipaddr") [str "10.0.0.7"] = Some (0, s') /\
    reads (edata s') (str "ipaddr") (Some (str "10.0.0.7")).
Proof.
  assert (exists s', _do_setenv [] 1100 ex_state (str "ipaddr") [str "10.0.0.7"] = Some (0, s'))
    as [s' E].
  { assert (option_map fst (_do_setenv [] 1100 ex_state (str "ipaddr") [str "10.0.0.7"]) = Some 0)
      as H by (vm_compute; reflexivity).
    destruct (_do_setenv [] 1100 ex_state (str "ipaddr") [str "10.0.0.7"]) as [[r s']|];
      [|discriminate]. exists s'. cbn in H. congruence. }
  exists s'. split; [exact E|].
  destruct (setenv_getenv [] 1100 ex_state s' ex_vars (str "ipaddr") [str "10.0.0.7"]) as [H _].
  - apply ex_env_inv.
  - apply ex_name_ok. reflexivity.
  - constructor; [apply ex_text_ok; reflexivity|constructor].
  - apply ex_plain. reflexivity.
  - vm_compute. lia.
  - exact E.
  - exact H.
Defined.

(** "10.0.0.7" reaches the board data. *)
Example setenv_ipaddr :
  option_map (fun r => bi_ip_addr r.2) (_do_setenv [] 1100 ex_state (str "ipaddr") [str "10.0.0.7"])
  = Some 0x0a000007.
Proof. vm_compute. reflexivity. Qed.

Definition ex_chip : chip := Chip 0 0 (fun _ => 0).

Lemma env_power_cycle_witness :
  exists st1, env_init (fun _ => 0)
    (saveenv ex_block (crc32 ex_block 0 0 ENV_SIZE) ex_chip).2 = (true, st1).
Proof.
  destruct (env_power_cycle (fun _ => 0) ex_block (crc32 ex_block 0 0 ENV_SIZE) ex_chip)
    as (st1 & E & _); [apply ex_block_ok|apply zero_ok|reflexivity|].
  exists st1. exact E.
Defined.

Lemma env_corruption_detected_witness :
  let st := (saveenv ex_block (crc32 ex_block 0 0 ENV_SIZE) ex_chip).2 in
  (env_init (fun _ => 0) (rtc_write (CONFIG_ENV_ADDR + 20) 255 st)).1 = false.
Proof.
  intros st.
  apply (env_corruption_detected (fun _ => 0) ex_block (crc32 ex_block 0 0 ENV_SIZE) ex_chip
           (rtc_write (CONFIG_ENV_ADDR + 20) 255 st) 20 255).
  - apply ex_block_ok.
  - apply zero_ok.
  - reflexivity.
  - unfold CONFIG_ENV_SIZE. lia.
  - unfold_words. lia.
  - change 20 with (16 + 4). rewrite env_block_data by lia. vm_compute. discriminate.
  - intros r. apply rtc_write_spec; [unfold CONFIG_ENV_ADDR; lia|unfold_words; lia].
Defined.

(** The defaults are a well-formed environment. *)
Definition default_vars : list entry :=
  [(str "bootcmd", str "bootp 1000000; setenv bootargs root=ramfs console=ttyS00,9600 ip=${ipaddr}:${serverip}:${rootpath}:${gatewayip}:${netmask}:${hostname}:eth0:none; bootm");
   (str "bootdelay", str "5"); (str "baudrate", str "9600"); (str "loads_echo", str "0");
   (str "ethaddr", str "00:00:5b:ee:de:ad"); (str "ipaddr", str "192.168.0.105");
   (str "serverip", str "192.168.0.100")].

Lemma default_environment_inv e crc :
  env_inv (set_default_env e crc).1 default_vars /\
  (set_default_env e crc).2 = crc32 (set_default_env e crc).1 0 0 ENV_SIZE.
Proof.
  unfold set_default_env. assert ((ENV_SIZE <? zlen default_environment) = false) as -> by reflexivity.
  split; [|reflexivity]. cbn [fst]. split; [|split; [|split]].
  - unfold env_rep. assert (default_environment = image default_vars ++ [0]) as -> by reflexivity.
    set (m := put_bytes e (- 4) _). pose proof (put_bytes_at m 0 (image default_vars ++ [0])) as Hb.
    apply bytes_at_app in Hb. apply Hb.
  - repeat (apply List.Forall_cons || apply List.Forall_nil); split;
      (apply ex_name_ok || apply ex_text_ok); reflexivity.
  - repeat (apply List.NoDup_cons || apply List.NoDup_nil); simpl; intuition discriminate.
  - vm_compute. discriminate.
Qed.

(** When the new value does not fit, the old definition is gone but the CRC is
    the one of the former contents: a [saveenv] now stores a block that the
    next boot rejects. *)
Definition ex_overflow : option (Z * env_state) :=
  _do_setenv [] 1100 ex_state (str "ipaddr") [repeat (chr "x") 1000].
Lemma setenv_overflow_stale_crc :
  option_map (fun r => (r.1, ecrc r.2 =? crc32 (edata r.2) 0 0 ENV_SIZE)) ex_overflow
  = Some (1, false).
Proof. vm_compute. reflexivity. Qed.
