(* ===== verification/Mac.v ===== *)
(** * Ethernet addresses as text (net/eth.c, include/net.h)

    The node address is six bytes in the EEPROM and in a network device, and
    text with colons in the environment; the two printers and the parser between them. *)

From S2P Require Import Prelude CMem Strto Vsprintf Env.

(** ** The routines *)

(** The text from a pointer on; [n] bounds the scan. *)
Fixpoint text_at (n : nat) (m : mem) (a : Z) : list Z :=
  match n with O => [] | S n => if m a =? 0 then [] else m a :: text_at n m (a + 1) end.

(** for (i = 0; i < 6; ++i): a byte from the text, and over the character behind it. *)
Fixpoint parse_bytes (n : nat) (addr : list Z) : list Z :=
  match n with
  | O => []
  | S n => let '(v, rest) := simple_strtoul addr 16 in u8 v :: parse_bytes n (tl rest)
  end.
Definition eth_parse_enetaddr (addr : option (list Z)) : list Z :=
  match addr with Some addr => parse_bytes 6 addr | None => replicate 6 0 end.

Definition is_zero_ether_addr (addr : list Z) : bool := fold_left Z.lor addr 0 =? 0.
Definition is_multicast_ether_addr (addr : list Z) : bool := negb (0x01 .& nth 0 addr 0 =? 0).
Definition is_valid_ether_addr (addr : list Z) : bool := negb (is_multicast_ether_addr addr) && negb (is_zero_ether_addr addr).

(** What misc_init_r and eth_setenv_enetaddr print. *)
Definition ether_format : list Z := str "%02x:%02x:%02x:%02x:%02x:%02x".
Definition print_bytes (a : list Z) : option (list Z * Z) := vsprintf ether_format (map Aint a).
Definition print_pointer (p : Z) (a : list Z) : option (list Z * Z) := vsprintf (str "%pM") [Aptr p a].

(** The variable as an address, and whether it is a usable one. *)
Definition eth_getenv_enetaddr (e : mem) (name : list Z) : option (list Z * bool) :=
  p ← getenv e name;
  let enetaddr := eth_parse_enetaddr (option_map (text_at (Z.to_nat ENV_SIZE) e) p) in
  Some (enetaddr, is_valid_ether_addr enetaddr).
Definition eth_setenv_enetaddr {C : Type} `{Console C} (null_text : list Z) (fuel : nat) (s : env_state (C := C))
    (name : list Z) (p : Z) (enetaddr : list Z) : option (Z * env_state (C := C)) :=
  t ← print_pointer p enetaddr; setenv null_text fuel s name (Some t.1).

(** * Properties *)

(** Two digits each, colons between. *)
Fixpoint mac_text (a : list Z) : list Z :=
  match a with [] => [] | [v] => pack_hex_byte v | v :: a => pack_hex_byte v ++ chr ":" :: mac_text a end.

(** A decidable fact about every byte. *)
Lemma u8_all (P : Z -> Prop) `{forall v, Decision (P v)} :
  forall_below 256 (fun v => bool_decide (P v)) = true -> forall v, is_u8 v -> P v.
Proof. intros HP v Hv. apply (bool_decide_eq_true_1 _). exact (forall_below_spec 256 _ HP v Hv). Qed.

Lemma hex_byte v : is_u8 v -> number (fetch_num (-1) ZEROPAD v) 16 2 (-1) (ZEROPAD .| SMALL) = pack_hex_byte v.
Proof.
  apply (u8_all (fun v => number (fetch_num (-1) ZEROPAD v) 16 2 (-1) (ZEROPAD .| SMALL) = pack_hex_byte v)). vm_compute. reflexivity.
Qed.

Lemma print_bytes_text a : Forall is_u8 a -> List.length a = 6%nat -> print_bytes a = Some (mac_text a, 17).
Proof.
  intros Ha Hl. do 7 (destruct a as [|? a]; [try discriminate|]); [|discriminate].
  repeat match goal with H : Forall _ (_ :: _) |- _ => inversion H; clear H; subst end.
  assert (forall x0 x1 x2 x3 x4 x5, vsprintf ether_format [Aint x0; Aint x1; Aint x2; Aint x3; Aint x4; Aint x5] =
    let n v := number (fetch_num (-1) ZEROPAD v) 16 2 (-1) (ZEROPAD .| SMALL) in
    let s := ((((((((((n x0 ++ [chr ":"]) ++ n x1) ++ [chr ":"]) ++ n x2) ++ [chr ":"]) ++ n x3) ++ [chr ":"]) ++ n x4) ++ [chr ":"]) ++ n x5) in
    Some (s, zlen s)) as E by reflexivity.
  unfold print_bytes. cbn [map]. rewrite E. cbv beta zeta. rewrite !hex_byte by assumption. reflexivity.
Qed.

Lemma print_pointer_text p a : p <> 0 -> List.length a = 6%nat -> print_pointer p a = Some (mac_text a, 17).
Proof.
  intros Hp Hl. do 7 (destruct a as [|? a]; [try discriminate|]); [|discriminate].
  unfold print_pointer. assert (forall b, vsprintf (str "%pM") [Aptr p b] = let s := [] ++ pointer (str "M") p b (-1) (-1) 0 in Some (s, zlen s)) as -> by reflexivity.
  cbn [app]. unfold pointer. rewrite (proj2 (Z.eqb_neq p 0) Hp). reflexivity.
Qed.

Lemma mac_text_ok a : Forall is_u8 a -> Forall (fun c => is_u8 c /\ c <> 0) (mac_text a).
Proof.
  assert (forall v, is_u8 v -> Forall (fun c => is_u8 c /\ c <> 0) (pack_hex_byte v)) as Hb by (apply (u8_all (fun v => Forall (fun c => is_u8 c /\ c <> 0) (pack_hex_byte v))); vm_compute; reflexivity).
  induction 1 as [|v a Hv Ha IH]; [constructor|]. destruct a as [|w a]; [apply Hb, Hv|].
  change (mac_text (v :: w :: a)) with (pack_hex_byte v ++ chr ":" :: mac_text (w :: a)).
  apply Forall_app. split; [exact (Hb v Hv)|]. constructor; [split; [unfold in_word; cbn; lia|discriminate]|exact IH].
Qed.

(** Two digits are read back, up to what does not continue them. *)
Lemma parse_byte v rest : is_u8 v -> Forall is_u8 rest -> stops 16 rest -> cur rest <> chr "x" ->
  simple_strtoul (pack_hex_byte v ++ rest) 16 = (v, rest).
Proof.
  intros Hv Hr Hs Hx.
  assert (Forall (digit_of 16) (pack_hex_byte v) /\ horner 16 (pack_hex_byte v) 0 = v) as [Hd Hn].
  { apply (u8_all (fun v => Forall (fun c => 0 <= c < 256 /\ isxdigit c = true /\ digit_value c < 16) (pack_hex_byte v) /\
      horner 16 (pack_hex_byte v) 0 = v)); [vm_compute; reflexivity|exact Hv]. }
  unfold simple_strtoul. rewrite (simple_strto_digits 32) by (auto; try lia; discriminate). rewrite Hn. f_equal.
  apply wrap_small. destruct Hv. unfold in_word. change (2 ^ 32) with 4294967296. change (2 ^ 8) with 256 in *. lia.
Qed.

Lemma parse_bytes_text a : Forall is_u8 a -> parse_bytes (List.length a) (mac_text a) = a.
Proof.
  induction 1 as [|v a Hv Ha IH]; [reflexivity|]. cbn [List.length parse_bytes]. destruct a as [|w a].
  - cbn [mac_text]. rewrite <- (app_nil_r (pack_hex_byte v)), parse_byte; [rewrite u8_small by exact Hv; reflexivity|exact Hv|constructor|left; reflexivity|discriminate].
  - change (mac_text (v :: w :: a)) with (pack_hex_byte v ++ chr ":" :: mac_text (w :: a)).
    rewrite parse_byte; [rewrite u8_small by exact Hv; cbn [tl]; rewrite IH; reflexivity|exact Hv| |left; reflexivity|discriminate].
    constructor; [unfold in_word; cbn; lia|]. eapply List.Forall_impl; [|exact (mac_text_ok _ Ha)]. intros c [Hc _]. exact Hc.
Qed.

(** An address comes back from its text, whichever printer wrote it. *)
Theorem ether_text_roundtrip p a : Forall is_u8 a -> List.length a = 6%nat -> p <> 0 ->
  print_pointer p a = print_bytes a /\ option_map (fun t => eth_parse_enetaddr (Some t.1)) (print_bytes a) = Some a.
Proof.
  intros Ha Hl Hp. rewrite print_pointer_text, print_bytes_text by assumption. split; [reflexivity|].
  cbn [option_map fst eth_parse_enetaddr]. rewrite <- Hl, parse_bytes_text by exact Ha. reflexivity.
Qed.

Lemma text_at_cstr n m a s : cstr m a s -> (List.length s <= n)%nat -> text_at n m a = s.
Proof.
  revert a s. induction n as [|n IH]; intros a s Hs Hl; destruct s as [|c s]; cbn [List.length] in Hl; try lia; [reflexivity| |]; cbn [text_at].
  - cbn [cstr] in Hs. rewrite Hs. reflexivity.
  - destruct Hs as (-> & Hc & Hs). rewrite (proj2 (Z.eqb_neq c 0) Hc), (IH (a + 1) s Hs) by lia. reflexivity.
Qed.
