(* ===== verification/CmdLine.v ===== *)
(** * The command line (common/main.c, common/command.c)

    The line editor, the splitting into arguments, the macro expansion, the
    command table lookup and [run_command] with the main loop around it.  C
    strings are the lists of their bytes; the fixed buffers of
    CONFIG_SYS_CBSIZE bytes appear in the theorems that bound what is stored. *)

From Stdlib Require Import Sorted Permutation.
From S2P Require Import Prelude CMem Strto.

Definition CONFIG_SYS_CBSIZE : Z := 256.
Definition CONFIG_SYS_MAXARGS : Z := 16.

(** ** Splitting into arguments *)

Definition is_blank (c : Z) : bool := (c =? chr " ") || (c =? 9).

(** while ((line is blank)) ++line; *)
Fixpoint skip_blanks (line : list Z) : list Z :=
  match line with
  | c :: line' => if is_blank c then skip_blanks line' else line
  | [] => []
  end.
(** The argument that starts here and what is left at its end. *)
Fixpoint take_arg (line : list Z) : list Z * list Z :=
  match line with
  | [] => ([], [])
  | c :: line' =>
      if is_blank c then ([], line) else let '(a, rest) := take_arg line' in (c :: a, rest)
  end.

(** [parse_line]: the arguments, and whether the loop ran into the limit. *)
Fixpoint parse_loop (n : nat) (line : list Z) : list (list Z) * bool :=
  match n with
  | O => ([], true)
  | S n' =>
      match skip_blanks line with
      | [] => ([], false)
      | line =>
          let '(a, rest) := take_arg line in
          match rest with
          | [] => ([a], false)
          | _ :: rest => let '(args, full) := parse_loop n' rest in (a :: args, full)
          end
      end
  end.
Definition parse_line (line : list Z) : list (list Z) * bool :=
  parse_loop (Z.to_nat CONFIG_SYS_MAXARGS) line.

(** [make_argv] of the completion keeps one slot for the final NULL. *)
Definition make_argv (s : list Z) (argvsz : Z) : list (list Z) := (parse_loop (Z.to_nat (argvsz - 1)) s).1.

(** ** Macro expansion *)

Definition BACKSLASH : Z := 92.
Definition QUOTE : Z := 39.

Section macros.
(** [getenv] at the time of the call. *)
Context (getenv : list Z -> option (list Z)).

(** The chars of [s] up to the limit, and what is left of the limit. *)
Definition put_limited (s : list Z) (outputcnt : nat) : list Z * nat :=
  (take outputcnt s, (outputcnt - length s)%nat).

(** The body of the loop for the character [c] with [input] behind it: the
    output, the count left, the state and the name's start. *)
Definition macro_step (c prev state : Z) (varname_start input : list Z) (outputcnt : nat)
  : list Z * nat * Z * list Z :=
  if state =? 0 then
    if (c =? QUOTE) && negb (prev =? BACKSLASH) then ([], outputcnt, 3, varname_start)
    else if (c =? chr "$") && negb (prev =? BACKSLASH) then ([], outputcnt, 1, varname_start)
    else ([c], pred outputcnt, 0, varname_start)
  else if state =? 1 then
    if (c =? chr "(") || (c =? chr "{") then ([], outputcnt, 2, input)
    else
      let '(o, k) := put_limited [chr "$"; c] outputcnt in (o, k, 0, varname_start)
  else if state =? 2 then
    if (c =? chr ")") || (c =? chr "}") then
      let envname := take (length varname_start - length input - 1) varname_start in
      match getenv envname with
      | Some envval => let '(o, k) := put_limited envval outputcnt in (o, k, 0, varname_start)
      | None => ([], outputcnt, 0, varname_start)
      end
    else ([], outputcnt, 2, varname_start)
  else
    if (c =? QUOTE) && negb (prev =? BACKSLASH) then ([], outputcnt, 0, varname_start)
    else ([c], pred outputcnt, 3, varname_start).

(** The loop; [input] shrinks by one or, behind an escape, by two. *)
Fixpoint macro_loop (input : list Z) (outputcnt : nat) (prev state : Z) (varname_start : list Z)
  : list Z * nat :=
  match input with
  | [] => ([], outputcnt)
  | c :: input' =>
      match outputcnt with
      | O => ([], O)
      | S _ =>
          if negb (state =? 3) && (c =? BACKSLASH) && negb (prev =? BACKSLASH) then
            match input' with
            | [] => ([], outputcnt)
            | c2 :: input'' =>
                let '(o, k, state, vs) := macro_step c2 c state varname_start input'' outputcnt in
                let '(o', k') := macro_loop input'' k c2 state vs in (o ++ o', k')
            end
          else
            let '(o, k, state, vs) := macro_step c prev state varname_start input' outputcnt in
            let '(o', k') := macro_loop input' k c state vs in (o ++ o', k')
      end
  end.

(** The string left in the output buffer: on a full buffer the last byte
    becomes the NUL. *)
Definition process_macros (input : list Z) : list Z :=
  let '(o, outputcnt) := macro_loop input (Z.to_nat CONFIG_SYS_CBSIZE) 0 0 [] in
  match outputcnt with O => removelast o | S _ => o end.
End macros.

(** ** The command table *)

Record cmd_tbl (F : Type) := CmdTbl {
  name : list Z; maxargs : Z; repeatable : Z; is_bootd : bool; cmd : F
}.
Arguments CmdTbl {F}.
Arguments name {F}.
Arguments maxargs {F}.
Arguments repeatable {F}.
Arguments is_bootd {F}.
Arguments cmd {F}.

(** The length up to the first dot. *)
Fixpoint dot_len (cmd : list Z) : nat :=
  match cmd with
  | [] => 0
  | c :: cmd' => if c =? chr "." then 0 else S (dot_len cmd')
  end.

(** strncmp(cmd, name, len) == 0 on two strings. *)
Fixpoint strn_eq (len : nat) (a b : list Z) : bool :=
  match len with
  | O => true
  | S len' =>
      match a, b with
      | [], [] => true
      | c :: a', d :: b' => (c =? d) && strn_eq len' a' b'
      | _, _ => false
      end
  end.

Fixpoint find_loop {F} (cmd : list Z) (len : nat) (table : list (cmd_tbl F))
    (cmdtp_temp : option (cmd_tbl F)) (n_found : Z) : option (cmd_tbl F) :=
  match table with
  | [] => if n_found =? 1 then cmdtp_temp else None
  | t :: table' =>
      if strn_eq len cmd (name t) then
        if (len =? length (name t))%nat then Some t
        else find_loop cmd len table' (Some t) (n_found + 1)
      else find_loop cmd len table' cmdtp_temp n_found
  end.
Definition find_cmd_tbl {F} (cmd : list Z) (table : list (cmd_tbl F)) : option (cmd_tbl F) :=
  find_loop cmd (dot_len cmd) table None 0.

(** [cmd_get_data_size] *)
Definition cmd_get_data_size (arg : list Z) (default_size : Z) : Z :=
  let len := length arg in
  if (2 <? Z.of_nat len) && (nth (len - 2) arg 0 =? chr ".") then
    let c := nth (len - 1) arg 0 in
    if c =? chr "b" then 1 else if c =? chr "w" then 2 else if c =? chr "l" then 4
    else if c =? chr "s" then -2 else -1
  else default_size.

(** [find_common_prefix]: the length of the prefix all words share. *)
Fixpoint common_len (len : nat) (s t : list Z) : nat :=
  match len, s, t with
  | S len', c :: s', d :: t' => if c =? d then S (common_len len' s' t') else O
  | _, _, _ => O
  end.
Definition find_common_prefix (argv : list (list Z)) : nat :=
  match argv with
  | [] => O
  | anchor :: rest => fold_left (fun len t => common_len len anchor t) rest (length anchor)
  end.

(** ** The bubble sort of the help command *)

(** strcmp(a, b) > 0, with strcmp's subtraction in signed char (lib/string.c). *)
Fixpoint str_gt (a b : list Z) : bool :=
  match a, b with
  | [], [] => false
  | [], d :: _ => 0 <? s8 (0 - d)
  | c :: _, [] => 0 <? s8 (c - 0)
  | c :: a', d :: b' => if c =? d then str_gt a' b' else 0 <? s8 (c - d)
  end.

(** One pass over the first [i] + 1 entries: the array and the swap count. *)
Fixpoint bubble_pass {A} (gt : A -> A -> bool) (i : nat) (l : list A) (swaps : nat) : list A * nat :=
  match i, l with
  | S i', a :: b :: l' =>
      if gt a b then
        let '(r, s) := bubble_pass gt i' (a :: l') (S swaps) in (b :: r, s)
      else
        let '(r, s) := bubble_pass gt i' (b :: l') swaps in (a :: r, s)
  | _, _ => (l, swaps)
  end.
Fixpoint bubble_sort {A} (gt : A -> A -> bool) (i : nat) (l : list A) : list A :=
  match i with
  | O => l
  | S i' =>
      let '(l, swaps) := bubble_pass gt i l 0 in
      match swaps with O => l | S _ => bubble_sort gt i' l end
  end.
Definition help_sort {F} (table : list (cmd_tbl F)) : list (cmd_tbl F) :=
  bubble_sort (fun a b => str_gt (name a) (name b)) (length table - 1) table.

(** ** Running a command *)

Definition CMD_FLAG_REPEAT : Z := 1.
Definition CMD_FLAG_BOOTD : Z := 2.

Section run.
(** The machine the commands act on: its environment, its Ctrl-C flag and
    the command table. *)
Context {St : Type} (getenv : St -> list Z -> option (list Z)).
Context (clear_ctrlc : St -> St) (had_ctrlc : St -> bool).

Definition handler : Type := Z -> list (list Z) -> St -> Z * St.

Context (table : list (cmd_tbl handler)).
(** The byte in front of [cmdbuf], which the separator search looks at when the
    command starts with a quote. *)
Context (before_cmdbuf : Z).

(** The token up to the next separator; [None] is the end of the buffer. *)
Fixpoint find_sep (at_start : bool) (prev : Z) (inquotes : bool) (s : list Z)
  : list Z * option (list Z) :=
  match s with
  | [] => ([], None)
  | c :: s' =>
      let inquotes :=
        if (c =? QUOTE) && negb (prev =? BACKSLASH) then negb inquotes else inquotes in
      if negb inquotes && (c =? chr ";") && negb at_start && negb (prev =? BACKSLASH)
      then ([], Some s')
      else let '(t, r) := find_sep false c inquotes s' in (c :: t, r)
  end.

(** What one token does: [inl] is the return of an interrupted command. *)
Definition run_token (token : list Z) (flag rc repeat : Z) (st : St)
  : (Z * St) + (Z * Z * Z * St) :=
  let finaltoken := process_macros (getenv st) token in
  let '(argv, _) := parse_line finaltoken in
  match argv with
  | [] => inr (flag, -1, repeat, st)
  | arg0 :: _ =>
      match find_cmd_tbl arg0 table with
      | None => inr (flag, -1, repeat, st)
      | Some cmdtp =>
          if maxargs cmdtp <? zlen argv then inr (flag, -1, repeat, st)
          else if is_bootd cmdtp && negb (flag .& CMD_FLAG_BOOTD =? 0) then
            inr (flag, -1, repeat, st)
          else
            let flag := if is_bootd cmdtp then flag .| CMD_FLAG_BOOTD else flag in
            let '(r, st) := cmd cmdtp flag argv st in
            let rc := if r =? 0 then rc else -1 in
            let repeat := repeat .& repeatable cmdtp in
            if had_ctrlc st then inl (-1, st) else inr (flag, rc, repeat, st)
      end
  end.

(** while ( *str) *)
Fixpoint run_loop (fuel : nat) (prev : Z) (s : list Z) (flag rc repeat : Z) (st : St)
  : option (Z * St) :=
  match s with
  | [] => Some (if rc =? 0 then repeat else rc, st)
  | _ =>
      match fuel with
      | O => None
      | S f =>
          let '(token, rest) := find_sep true prev false s in
          match run_token token flag rc repeat st with
          | inl r => Some r
          | inr (flag, rc, repeat, st) =>
              run_loop f 0 (match rest with Some r => r | None => [] end) flag rc repeat st
          end
      end
  end.

(** [None] as the command is the NULL pointer. *)
Definition run_command (command : option (list Z)) (flag : Z) (st : St) : option (Z * St) :=
  let st := clear_ctrlc st in
  match command with
  | None | Some [] => Some (-1, st)
  | Some c =>
      if CONFIG_SYS_CBSIZE <=? zlen c then Some (-1, st)
      else run_loop (length c) before_cmdbuf c flag 0 1 st
  end.
End run.

(** ** The line editor *)

(** [delete_char]: the buffer, the deleted character ([*p] afterwards), the
    column and the count. *)
Definition retype_col (buffer : list Z) (col : Z) : Z :=
  fold_left (fun col c => if c =? 9 then col + (8 - (col .& 7)) else col + 1) buffer col.

Definition delete_char (buffer : list Z) (p_char col n plen : Z) : list Z * Z * Z * Z :=
  if n =? 0 then (buffer, p_char, col, n)
  else
    let c := List.last buffer 0 in
    let buffer := removelast buffer in
    if c =? 9 then
      let col := if plen <? col then plen else col in
      (buffer, c, retype_col buffer col, n - 1)
    else (buffer, c, col - 1, n - 1).

(** while ((n > 0) && ( *p != ' ')) *)
Fixpoint delete_word (fuel : nat) (buffer : list Z) (p_char col n plen : Z)
  : list Z * Z * Z * Z :=
  match fuel with
  | O => (buffer, p_char, col, n)
  | S f =>
      if (0 <? n) && negb (p_char =? chr " ") then
        let '(buffer, p_char, col, n) := delete_char buffer p_char col n plen in
        delete_word f buffer p_char col n plen
      else (buffer, p_char, col, n)
  end.

(** One character: [inl] is a return with the line left in the buffer. *)
Definition readline_step (buffer : list Z) (col n plen c : Z)
  : (Z * list Z) + (list Z * Z * Z) :=
  if (c =? 13) || (c =? 10) then inl (zlen buffer, buffer)
  else if c =? 0 then inr (buffer, col, n)
  else if c =? 3 then inl (-1, [])
  else if c =? 21 then inr ([], if plen <? col then plen else col, 0)
  else if c =? 23 then
    let '(buffer, p_char, col, n) := delete_char buffer 0 col n plen in
    let '(buffer, _, col, n) := delete_word (Z.to_nat n) buffer p_char col n plen in
    inr (buffer, col, n)
  else if (c =? 8) || (c =? 127) then
    let '(buffer, _, col, n) := delete_char buffer 0 col n plen in inr (buffer, col, n)
  else if n <? CONFIG_SYS_CBSIZE - 2 then
    inr (buffer ++ [c], if c =? 9 then col + (8 - (col .& 7)) else col + 1, n + 1)
  else inr (buffer, col, n).

Fixpoint readline_loop (input buffer : list Z) (col n plen : Z) : option (Z * list Z * list Z) :=
  match input with
  | [] => None
  | c :: input =>
      match readline_step buffer col n plen c with
      | inl (r, line) => Some (r, line, input)
      | inr (buffer, col, n) => readline_loop input buffer col n plen
      end
  end.

(** [readline_into_buffer]: the result, the line, the input left; [None] waits
    for more input. *)
Definition readline_into_buffer (prompt : option (list Z)) (input : list Z)
  : option (Z * list Z * list Z) :=
  let plen := match prompt with Some p => zlen p | None => 0 end in
  readline_loop input [] plen 0 plen.

(** ** Autoboot and the main loop *)

(** The key presses [abortboot] polls: one answer of tstc() per poll. *)
Fixpoint poll_keys (n : nat) (keys : list bool) : bool * list bool :=
  match n with
  | O => (false, keys)
  | S n' =>
      match keys with
      | true :: keys' => (true, keys')
      | false :: keys' => poll_keys n' keys'
      | [] => (false, [])
      end
  end.
(** while ((bootdelay > 0) && (!abort)): a hundred polls a second. *)
Fixpoint abort_loop (bootdelay : nat) (keys : list bool) : bool * list bool :=
  match bootdelay with
  | O => (false, keys)
  | S d => let '(hit, keys) := poll_keys 100 keys in if hit then (true, keys) else abort_loop d keys
  end.
Definition abortboot (bootdelay : Z) (keys : list bool) : bool * list bool :=
  let '(abort, keys) :=
    if 0 <=? bootdelay then poll_keys 1 keys else (false, keys) in
  if abort then (true, keys) else abort_loop (Z.to_nat bootdelay) keys.

Definition CONFIG_BOOTDELAY : Z := 5.

(** The command [main_loop] boots with, if any. *)
Definition autoboot (getenv : list Z -> option (list Z)) (keys : list bool) : option (list Z) :=
  let bootdelay :=
    match getenv (str "bootdelay") with
    | Some s => s32 (simple_strtol s 10).1
    | None => CONFIG_BOOTDELAY
    end in
  match getenv (str "bootcmd") with
  | Some s => if (0 <=? bootdelay) && negb (abortboot bootdelay keys).1 then Some s else None
  | None => None
  end.

(** One round of the command loop: [run] is run_command on the machine. *)
Definition main_loop_step {St : Type} (run : list Z -> Z -> St -> option (Z * St))
    (lastcommand : list Z) (rc len : Z) (console_buffer : list Z) (st : St)
  : option (list Z * Z * St) :=
  let flag := if len =? 0 then CMD_FLAG_REPEAT else 0 in
  let lastcommand := if 0 <? len then console_buffer else lastcommand in
  match (if len =? -1 then Some (rc, st) else run lastcommand flag st) with
  | None => None
  | Some (rc, st) => Some (if rc <=? 0 then [] else lastcommand, rc, st)
  end.

(** * Properties *)

#[local] Arguments chr : simpl never.

(** ** Arguments *)

(** The words of a line, one character at a time. *)
Definition emit (cur : list Z) : list (list Z) := match cur with [] => [] | _ => [cur] end.
Fixpoint words_from (cur line : list Z) : list (list Z) :=
  match line with
  | [] => emit cur
  | c :: line' => if is_blank c then emit cur ++ words_from [] line' else words_from (cur ++ [c]) line'
  end.
Definition words (line : list Z) : list (list Z) := words_from [] line.

Lemma words_skip line : words (skip_blanks line) = words line.
Proof.
  induction line as [|c line IH]; [reflexivity|]. cbn [skip_blanks].
  destruct (is_blank c) eqn:E; [|reflexivity]. rewrite IH. unfold words. cbn [words_from].
  rewrite E. reflexivity.
Qed.

Lemma skip_blanks_head line c l : skip_blanks line = c :: l -> is_blank c = false.
Proof.
  induction line as [|d line IH]; cbn [skip_blanks]; [discriminate|].
  destruct (is_blank d) eqn:E; [exact IH|]. intros [= <- _]. exact E.
Qed.

Lemma words_take line : forall cur a rest,
  take_arg line = (a, rest) ->
  words_from cur line = match rest with [] => emit (cur ++ a) | _ :: r => emit (cur ++ a) ++ words r end
  /\ (length rest <= length line)%nat.
Proof.
  induction line as [|c line IH]; intros cur a rest; cbn [take_arg words_from].
  - intros [= <- <-]. rewrite app_nil_r. auto.
  - destruct (is_blank c) eqn:E.
    + intros [= <- <-]. rewrite app_nil_r. auto.
    + destruct (take_arg line) as [a' rest'] eqn:T. intros [= <- <-].
      destruct (IH (cur ++ [c]) a' rest' eq_refl) as [-> Hl]. rewrite <- app_assoc. cbn [app].
      split; [reflexivity|simpl; lia].
Qed.

Lemma take_arg_nonempty c l : is_blank c = false -> exists a r, take_arg (c :: l) = (c :: a, r).
Proof. intros E. cbn [take_arg]. rewrite E. destruct (take_arg l). eauto. Qed.

Lemma parse_loop_words n : forall line, (parse_loop n line).1 = take n (words line).
Proof.
  induction n as [|n IH]; intros line; [rewrite take_0; reflexivity|].
  cbn [parse_loop]. rewrite <- (words_skip line). destruct (skip_blanks line) as [|c l] eqn:E; [reflexivity|].
  destruct (take_arg_nonempty c l (skip_blanks_head _ _ _ E)) as (a & rest & T). rewrite T.
  unfold words. destruct (words_take (c :: l) [] _ _ T) as [-> _]. cbn [app emit].
  destruct rest as [|d rest].
  - cbn [take]. rewrite take_nil. reflexivity.
  - specialize (IH rest). destruct (parse_loop n rest) as [args full]. cbn [fst app take] in *.
    rewrite IH. reflexivity.
Qed.

(** [parse_line] yields the words of the line between blanks and tabs, the
    first CONFIG_SYS_MAXARGS of them. *)
Theorem parse_line_words line :
  (parse_line line).1 = take (Z.to_nat CONFIG_SYS_MAXARGS) (words line).
Proof. apply parse_loop_words. Qed.

(** ** Macro expansion *)

Lemma last_cons_default {A} (x : A) l a b : List.last (x :: l) a = List.last (x :: l) b.
Proof. revert x. induction l as [|y l IH]; intros x; [reflexivity|]. cbn [List.last] in *. apply IH. Qed.

Section macros_spec.
Context (getenv : list Z -> option (list Z)).

Lemma macro_step_count c prev state vs input k :
  let '(o, k', _, _) := macro_step getenv c prev state vs input (S k) in
  (length o + k' = S k)%nat.
Proof.
  unfold macro_step, put_limited. repeat case_match; simplify_eq; simpl; try lia.
  all: rewrite length_take; cbn [length]; lia.
Qed.

Lemma macro_loop_count input : forall k prev state vs,
  let '(o, k') := macro_loop getenv input k prev state vs in (length o + k' = k)%nat.
Proof.
  induction input as [input IH] using (induction_ltof1 _ (@length Z)). unfold ltof in IH.
  intros k prev state vs. destruct input as [|c input]; [simpl; lia|]. cbn [macro_loop].
  destruct k as [|k]; [simpl; lia|].
  destruct (negb (state =? 3) && (c =? BACKSLASH) && negb (prev =? BACKSLASH)).
  - destruct input as [|c2 input]; [simpl; lia|].
    pose proof (macro_step_count c2 c state vs input k) as Hs.
    destruct (macro_step getenv c2 c state vs input (S k)) as [[[o k1] st1] vs1].
    specialize (IH input ltac:(simpl; lia) k1 c2 st1 vs1).
    destruct (macro_loop getenv input k1 c2 st1 vs1). rewrite length_app. lia.
  - pose proof (macro_step_count c prev state vs input k) as Hs.
    destruct (macro_step getenv c prev state vs input (S k)) as [[[o k1] st1] vs1].
    specialize (IH input ltac:(simpl; lia) k1 c st1 vs1).
    destruct (macro_loop getenv input k1 c st1 vs1). rewrite length_app. lia.
Qed.

(** Whatever the variables hold, the expansion with its NUL fits the buffer
    of CONFIG_SYS_CBSIZE bytes. *)
Theorem process_macros_bound input : zlen (process_macros getenv input) < CONFIG_SYS_CBSIZE.
Proof.
  unfold process_macros, CONFIG_SYS_CBSIZE.
  pose proof (macro_loop_count input (Z.to_nat 256) 0 0 []) as H.
  destruct (macro_loop getenv input (Z.to_nat 256) 0 0 []) as [o k]. unfold zlen.
  destruct k as [|k]; [|lia].
  destruct (@exists_last Z o) as (o' & x & ->); [intros ->; simpl in H; lia|].
  rewrite removelast_last, length_app in *. simpl in *. lia.
Qed.

(** *** Pieces of a command line *)

Inductive piece :=
| Plain (c : Z)            (** an ordinary character *)
| Esc (c : Z)              (** \c *)
| Quoted (s : list Z)      (** 's' *)
| Var (n : list Z).        (** ${n} *)

Definition special (c : Z) : bool := (c =? BACKSLASH) || (c =? QUOTE) || (c =? chr "$").

Definition piece_ok (p : piece) : Prop :=
  match p with
  | Plain c => special c = false
  | Esc c => c <> BACKSLASH
  | Quoted s => Forall (fun c => c <> QUOTE) s /\ List.last s 0 <> BACKSLASH
  | Var n => Forall (fun c => c <> BACKSLASH /\ c <> chr ")" /\ c <> chr "}") n
  end.

Definition raw (p : piece) : list Z :=
  match p with
  | Plain c => [c]
  | Esc c => [BACKSLASH; c]
  | Quoted s => QUOTE :: s ++ [QUOTE]
  | Var n => chr "$" :: chr "{" :: n ++ [chr "}"]
  end.
Definition expand (p : piece) : list Z :=
  match p with
  | Plain c => [c]
  | Esc c => [c]
  | Quoted s => s
  | Var n => match getenv n with Some v => v | None => [] end
  end.

(** The loop on a piece that fits, between pieces (state 0, no open escape). *)
Definition passes (p : piece) : Prop :=
  forall rest k prev vs, prev <> BACKSLASH -> (length (expand p) < k)%nat ->
  exists prev' vs', prev' <> BACKSLASH /\
    macro_loop getenv (raw p ++ rest) k prev 0 vs =
      (let '(o, k') := macro_loop getenv rest (k - length (expand p)) prev' 0 vs' in
       (expand p ++ o, k')).

Lemma plain_passes c : special c = false -> passes (Plain c).
Proof.
  unfold special. intros H rest k prev vs Hp Hk. cbn in Hk.
  assert (c <> BACKSLASH /\ c <> QUOTE /\ c <> chr "$") as (H1 & H2 & H3) by lia.
  exists c, vs. split; [exact H1|]. cbn [raw expand app macro_loop length].
  destruct k as [|k]; [lia|]. eqb_ne. cbn [negb andb Z.eqb Pos.eqb]. unfold macro_step. cbn [Z.eqb Pos.eqb].
  eqb_ne. cbn [negb andb pred]. replace (S k - 1)%nat with k by lia. reflexivity.
Qed.

Lemma esc_passes c : c <> BACKSLASH -> passes (Esc c).
Proof.
  intros H rest k prev vs Hp Hk. cbn in Hk. exists c, vs. split; [exact H|].
  cbn [raw expand app macro_loop length]. destruct k as [|k]; [lia|]. eqb_ne.
  cbn [negb andb Z.eqb Pos.eqb]. unfold macro_step. cbn [Z.eqb Pos.eqb]. eqb_ne.
  change (BACKSLASH =? BACKSLASH) with true. rewrite !andb_false_r. cbn [negb andb pred].
  replace (S k - 1)%nat with k by lia. reflexivity.
Qed.

(** Inside quotes characters are copied. *)
Lemma quoted_run s : forall rest k prev vs,
  Forall (fun c => c <> QUOTE) s -> (length s < k)%nat ->
  macro_loop getenv (s ++ rest) k prev 3 vs =
    (let '(o, k') := macro_loop getenv rest (k - length s) (List.last s prev) 3 vs in (s ++ o, k')).
Proof.
  induction s as [|c s IH]; intros rest k prev vs Hs Hk; cbn [app length List.last].
  - rewrite Nat.sub_0_r. destruct (macro_loop getenv rest k prev 3 vs). reflexivity.
  - inversion Hs; subst. cbn [length] in Hk. destruct k as [|k]; [lia|]. cbn [macro_loop Z.eqb Pos.eqb negb andb].
    unfold macro_step. cbn [Z.eqb Pos.eqb]. eqb_ne. cbn [andb pred]. rewrite IH by (auto; lia).
    replace (S k - S (length s))%nat with (k - length s)%nat by lia.
    replace (match s with [] => c | _ :: _ => List.last s prev end) with (List.last s c)
      by (destruct s; [reflexivity|apply last_cons_default]).
    destruct (macro_loop getenv rest (k - length s) (List.last s c) 3 vs). reflexivity.
Qed.
Lemma quoted_passes s :
  Forall (fun c => c <> QUOTE) s -> List.last s 0 <> BACKSLASH -> passes (Quoted s).
Proof.
  intros Hs Hl rest k prev vs Hp Hk. cbn [expand] in *. exists QUOTE, vs. split; [discriminate|].
  cbn [raw app macro_loop]. destruct k as [|k]; [lia|]. change (QUOTE =? BACKSLASH) with false.
  rewrite andb_false_r. cbn [andb]. unfold macro_step at 1. cbn [Z.eqb].
  change (QUOTE =? QUOTE) with true. eqb_ne. cbn [negb andb].
  rewrite <- app_assoc, quoted_run by auto.
  assert (List.last s QUOTE <> BACKSLASH) as Hl'.
  { destruct s as [|x s]; [discriminate|]. rewrite (last_cons_default x s QUOTE 0). exact Hl. }
  cbn [app]. destruct (S k - length s)%nat as [|k'] eqn:Ek; [lia|].
  cbn [macro_loop Z.eqb Pos.eqb negb andb]. unfold macro_step. cbn [Z.eqb Pos.eqb].
  change (QUOTE =? QUOTE) with true. eqb_ne. cbn [negb andb app].
  destruct (macro_loop getenv rest (S k') QUOTE 0 vs). reflexivity.
Qed.

(** A name is only skipped over. *)
Lemma var_run n : forall rest k prev vs,
  Forall (fun c => c <> BACKSLASH /\ c <> chr ")" /\ c <> chr "}") n ->
  macro_loop getenv (n ++ rest) (S k) prev 2 vs =
    macro_loop getenv rest (S k) (List.last n prev) 2 vs.
Proof.
  induction n as [|c n IH]; intros rest k prev vs Hn; [reflexivity|].
  inversion Hn as [|? ? (H1 & H2 & H3) Hn']; subst. cbn [app macro_loop].
  eqb_ne. cbn [negb andb Z.eqb Pos.eqb]. unfold macro_step. cbn [Z.eqb Pos.eqb]. eqb_ne.
  cbn [orb]. rewrite IH by exact Hn'. cbn [List.last].
  replace (match n with [] => c | _ :: _ => List.last n prev end) with (List.last n c)
    by (destruct n; [reflexivity|apply last_cons_default]).
  destruct (macro_loop getenv rest (S k) (List.last n c) 2 vs). reflexivity.
Qed.

Lemma var_passes n :
  Forall (fun c => c <> BACKSLASH /\ c <> chr ")" /\ c <> chr "}") n -> passes (Var n).
Proof.
  intros Hn rest k prev vs Hp Hk. exists (chr "}"), (n ++ chr "}" :: rest).
  split; [discriminate|]. destruct k as [|k]; [lia|]. cbn [raw app macro_loop].
  change (chr "$" =? BACKSLASH) with false. rewrite andb_false_r. cbn [andb].
  unfold macro_step at 1. cbn [Z.eqb]. change (chr "$" =? QUOTE) with false.
  change (chr "$" =? chr "$") with true. eqb_ne. cbn [negb andb].
  change (chr "{" =? BACKSLASH) with false. cbn [Z.eqb Pos.eqb negb andb].
  unfold macro_step at 1. cbn [Z.eqb Pos.eqb]. change (chr "{" =? chr "(") with false.
  change (chr "{" =? chr "{") with true. cbn [orb]. rewrite <- app_assoc. cbn [app].
  rewrite var_run by exact Hn. cbn [macro_loop].
  change (chr "}" =? BACKSLASH) with false. cbn [Z.eqb Pos.eqb negb andb].
  unfold macro_step at 1. cbn [Z.eqb Pos.eqb]. change (chr "}" =? chr ")") with false.
  change (chr "}" =? chr "}") with true. cbn [orb].
  replace (length (n ++ chr "}" :: rest) - length rest - 1)%nat with (length n) by len_tac.
  rewrite take_app_length. cbn [expand] in *. unfold put_limited.
  destruct (getenv n) as [v|].
  - rewrite take_ge by lia. destruct (macro_loop getenv rest _ _ 0 _). reflexivity.
  - cbn [length]. rewrite Nat.sub_0_r. destruct (macro_loop getenv rest _ _ 0 _). reflexivity.
Qed.

Lemma piece_passes p : piece_ok p -> passes p.
Proof.
  destruct p; cbn [piece_ok]; intros H.
  - apply plain_passes. exact H.
  - apply esc_passes. exact H.
  - apply quoted_passes; apply H.
  - apply var_passes. exact H.
Qed.

Lemma pieces_loop ps : forall k prev vs,
  Forall piece_ok ps -> prev <> BACKSLASH -> (length (concat (map expand ps)) < k)%nat ->
  macro_loop getenv (concat (map raw ps)) k prev 0 vs =
    (concat (map expand ps), (k - length (concat (map expand ps)))%nat).
Proof.
  induction ps as [|p ps IH]; intros k prev vs Hok Hp Hk; cbn [map concat] in *.
  - cbn [length]. rewrite Nat.sub_0_r. reflexivity.
  - inversion Hok as [|? ? Hpok Hps]; subst. rewrite length_app in *.
    destruct (piece_passes p Hpok (concat (map raw ps)) k prev vs Hp) as (prev' & vs' & Hp' & ->); [lia|].
    rewrite IH by (auto; lia). f_equal. lia.
Qed.

Lemma process_macros_pieces ps :
  Forall piece_ok ps -> zlen (concat (map expand ps)) < CONFIG_SYS_CBSIZE ->
  process_macros getenv (concat (map raw ps)) = concat (map expand ps).
Proof.
  intros Hok Hlen. unfold process_macros, CONFIG_SYS_CBSIZE, zlen in *.
  rewrite pieces_loop by (first [assumption | discriminate | lia]).
  destruct (Z.to_nat 256 - length (concat (map expand ps)))%nat eqn:E; [lia|reflexivity].
Qed.

(** C37: a command line put together from plain characters, escaped characters,
    quoted text and variables is replaced by what these stand for, as long as the
    result fits the buffer. *)
Theorem process_macros_expand ps :
  Forall piece_ok ps -> zlen (concat (map expand ps)) < CONFIG_SYS_CBSIZE ->
  process_macros getenv (concat (map raw ps)) = concat (map expand ps).
Proof. apply process_macros_pieces. Qed.
End macros_spec.

Definition ex_getenv (n : list Z) : option (list Z) :=
  if bool_decide (n = str "ipaddr") then Some (str "10.0.0.7") else None.
Definition ex_pieces : list piece :=
  map Plain (str "echo ") ++ [Var (str "ipaddr"); Plain (chr " "); Quoted (str "a;b"); Esc (chr ";")].

Lemma process_macros_expand_witness :
  concat (map raw ex_pieces) = str "echo ${ipaddr} 'a;b'" ++ [BACKSLASH; chr ";"] /\
  process_macros ex_getenv (concat (map raw ex_pieces)) = str "echo 10.0.0.7 a;b;".
Proof.
  split; [reflexivity|]. rewrite (process_macros_expand ex_getenv ex_pieces); [reflexivity| |reflexivity].
  repeat (apply List.Forall_cons || apply List.Forall_nil || split); try reflexivity; discriminate.
Defined.

(** ** The command table *)

(** The entry's name starts with, or is, the text up to the dot. *)
Definition abbreviates (w : list Z) {F} (t : cmd_tbl F) : bool :=
  bool_decide (take (length w) (name t) = w).
Definition names (w : list Z) {F} (t : cmd_tbl F) : bool := bool_decide (name t = w).

Lemma strn_eq_spec w n : strn_eq (length w) w n = bool_decide (take (length w) n = w).
Proof.
  revert n. induction w as [|c w IH]; intros n.
  - symmetry. apply bool_decide_eq_true_2. rewrite take_0. reflexivity.
  - destruct n as [|d n]; cbn [length strn_eq take].
    + symmetry. apply bool_decide_eq_false_2. discriminate.
    + rewrite IH. destruct (Z.eqb_spec c d) as [->|Hne]; cbn [andb].
      * apply bool_decide_ext. split; congruence.
      * symmetry. apply bool_decide_eq_false_2. congruence.
Qed.

(** strncmp looks at the first [dot_len] characters only. *)
Lemma strn_eq_take len a n : (len <= length a)%nat -> strn_eq len a n = strn_eq len (take len a) n.
Proof.
  revert a n. induction len as [|len IH]; intros a n H; [reflexivity|].
  destruct a as [|c a]; [simpl in H; lia|]. cbn [take strn_eq]. destruct n as [|d n]; [reflexivity|].
  f_equal. apply IH. simpl in H. lia.
Qed.

Lemma dot_len_le w : (dot_len w <= length w)%nat.
Proof. induction w as [|c w IH]; simpl; [lia|]. case_match; lia. Qed.

(** What is found is in the table. *)
Lemma find_cmd_in {F} (w : list Z) (table : list (cmd_tbl F)) t : find_cmd_tbl w table = Some t -> In t table.
Proof.
  assert (forall len n tmp, find_loop w len table tmp n = Some t -> In t table \/ tmp = Some t) as G.
  { induction table as [|u us IH]; intros len n tmp; cbn [find_loop].
    - case_match; [auto|discriminate].
    - case_match; [case_match|].
      + intros [= ->]. left. left. reflexivity.
      + intros Hf. apply IH in Hf as [Hf|[= ->]]; left; [right|left]; auto.
      + intros Hf. apply IH in Hf as [Hf|Hf]; [left; right|right]; auto. }
  intros E. apply G in E as [E|E]; [exact E|discriminate].
Qed.

Lemma find_loop_spec {F} (w : list Z) (table : list (cmd_tbl F)) tmp n :
  0 <= n ->
  find_loop w (length w) table tmp n =
    match List.find (names w) table with
    | Some t => Some t
    | None =>
        match filter (fun t => abbreviates w t = true) table with
        | [] => if n =? 1 then tmp else None
        | [t] => if n =? 0 then Some t else None
        | _ => None
        end
    end.
Proof.
  revert tmp n. induction table as [|t table IH]; intros tmp n Hn; cbn [find_loop List.find].
  - reflexivity.
  - rewrite strn_eq_spec. unfold names at 1. rewrite filter_cons.
    change (bool_decide (take (length w) (name t) = w)) with (abbreviates w t).
    destruct (decide (abbreviates w t = true)) as [Ep|Ep].
    + rewrite Ep. apply bool_decide_eq_true in Ep.
      destruct (Nat.eqb_spec (length w) (length (name t))) as [El|El].
      * rewrite take_ge in Ep by lia. rewrite bool_decide_eq_true_2 by exact Ep. reflexivity.
      * rewrite bool_decide_eq_false_2 by (intros <-; congruence). rewrite IH by lia.
        destruct (List.find (names w) table); [reflexivity|].
        destruct (filter _ table) as [|u [|u' us]]; branches.
    + apply not_true_is_false in Ep. rewrite Ep. apply bool_decide_eq_false in Ep.
      rewrite bool_decide_eq_false_2 by (intros E; apply Ep; rewrite E, firstn_all; reflexivity).
      apply IH. exact Hn.
Qed.

(** A command is found by its full name (up to the first dot), whatever
    other names it abbreviates, and otherwise by an abbreviation that fits
    exactly one entry. *)
Theorem find_cmd_tbl_correct {F} (c : list Z) (table : list (cmd_tbl F)) :
  let w := take (dot_len c) c in
  find_cmd_tbl c table =
    match List.find (names w) table with
    | Some t => Some t
    | None => match filter (fun t => abbreviates w t = true) table with [t] => Some t | _ => None end
    end.
Proof.
  intros w. unfold find_cmd_tbl.
  assert (dot_len c = length w) as Hl by (unfold w; rewrite length_take; pose proof (dot_len_le c); lia).
  assert (forall tmp n, find_loop c (dot_len c) table tmp n = find_loop w (length w) table tmp n) as ->.
  { rewrite <- Hl. intros tmp n. revert tmp n. induction table as [|t table IH]; intros tmp n; [reflexivity|].
    cbn [find_loop]. rewrite strn_eq_take by apply dot_len_le. fold w. rewrite !IH. reflexivity. }
  rewrite find_loop_spec by lia. destruct (List.find (names w) table); [reflexivity|].
  destruct (filter _ table) as [|u [|u' us]]; reflexivity.
Qed.

(** *** The sort *)

Section sort.
Context {A : Type} (gt : A -> A -> bool).
Context (gt_antisym : forall a b, gt a b = true -> gt b a = false).
Context (le_trans : forall a b c, gt a b = false -> gt b c = false -> gt a c = false).

Abbreviation le a b := (gt a b = false).

(** A pass permutes, and moves a largest one of the first [i] + 1 to place [i]. *)
Lemma bubble_pass_perm i l s : Permutation (bubble_pass gt i l s).1 l.
Proof.
  revert l s. induction i as [|i IH]; intros l s; [reflexivity|]. cbn [bubble_pass].
  destruct l as [|a [|b l]]; try reflexivity. destruct (gt a b).
  - specialize (IH (a :: l) (S s)). destruct (bubble_pass gt i (a :: l) (S s)). cbn [fst] in *.
    rewrite IH. apply perm_swap.
  - specialize (IH (b :: l) s). destruct (bubble_pass gt i (b :: l) s). cbn [fst] in *.
    rewrite IH. reflexivity.
Qed.

Lemma bubble_pass_swaps i l s : (s <= (bubble_pass gt i l s).2)%nat.
Proof.
  revert l s. induction i as [|i IH]; intros l s; [simpl; lia|]. cbn [bubble_pass].
  destruct l as [|a [|b l]]; try (simpl; lia). destruct (gt a b).
  - specialize (IH (a :: l) (S s)). destruct (bubble_pass gt i (a :: l) (S s)). simpl in *. lia.
  - specialize (IH (b :: l) s). destruct (bubble_pass gt i (b :: l) s). simpl in *. lia.
Qed.

(** The head of the pass's argument bubbles up: the prefix, the largest, the rest. *)
Lemma bubble_pass_spec i : forall a l s,
  (i <= length l)%nat ->
  exists p m, (bubble_pass gt i (a :: l) s).1 = p ++ m :: drop i l /\ length p = i /\
    Forall (fun x => le x m) p /\ le a m /\
    ((bubble_pass gt i (a :: l) s).2 = s -> p ++ [m] = a :: take i l /\
       Sorted (fun x y => le x y) (a :: take i l)).
Proof.
  induction i as [|i IH]; intros a l s Hl; cbn [bubble_pass].
  - exists [], a. cbn. split_and!; auto. destruct (gt a a) eqn:E; [|reflexivity].
    pose proof (gt_antisym _ _ E). congruence.
  - destruct l as [|b l]; [simpl in Hl; lia|]. cbn [length] in Hl. destruct (gt a b) eqn:E.
    + destruct (IH a l (S s)) as (p & m & E1 & Hp & Hf & Ha & _); [lia|].
      pose proof (bubble_pass_swaps i (a :: l) (S s)) as Hs.
      destruct (bubble_pass gt i (a :: l) (S s)) as [r s']. cbn [fst snd] in *. subst r.
      exists (b :: p), m. cbn [drop app length]. split_and!; auto; [|intros; lia].
      constructor; [|exact Hf]. apply (le_trans b a m); auto.
    + destruct (IH b l s) as (p & m & E1 & Hp & Hf & Hb & Hsrt); [lia|].
      destruct (bubble_pass gt i (b :: l) s) as [r s']. cbn [fst snd] in *. subst r.
      exists (a :: p), m. cbn [drop app length take].
      assert (le a m) by (apply (le_trans a b m); auto).
      split_and!; auto. intros Es. destruct (Hsrt Es) as [Hpm Hst]. rewrite Hpm. split; [reflexivity|].
      constructor; [exact Hst|]. constructor. exact E.
Qed.

Lemma bubble_sort_perm i l : Permutation (bubble_sort gt i l) l.
Proof.
  revert l. induction i as [|i IH]; intros l; [reflexivity|]. cbn [bubble_sort].
  pose proof (bubble_pass_perm (S i) l 0) as Hp. destruct (bubble_pass gt (S i) l 0) as [r [|s]].
  - exact Hp.
  - rewrite IH. exact Hp.
Qed.

(** With the entries behind [i] in place, the sort puts the others in order. *)
Lemma bubble_sort_spec i : forall l r,
  length l = S i -> Forall (fun x => Forall (fun y => le x y) r) l ->
  StronglySorted (fun x y => le x y) r ->
  StronglySorted (fun x y => le x y) (bubble_sort gt i (l ++ r)).
Proof.
  assert (forall l r, StronglySorted (fun x y => le x y) l -> StronglySorted (fun x y => le x y) r ->
    Forall (fun x => Forall (fun y => le x y) r) l -> StronglySorted (fun x y => le x y) (l ++ r)) as Happ.
  { intros l r Hl Hr. induction Hl as [|x l Hl IH Hx]; intros Hf; [exact Hr|]. inversion Hf; subst.
    cbn [app]. constructor; [apply IH; assumption|]. apply Forall_app. auto. }
  induction i as [|i IH]; intros l r Hl Hf Hr.
  - destruct l as [|a [|b l]]; try discriminate. cbn [bubble_sort]. apply Happ; auto.
    repeat constructor.
  - destruct l as [|a l]; [discriminate|]. cbn [length] in Hl. cbn [bubble_sort app].
    destruct (bubble_pass_spec (S i) a (l ++ r) 0) as (p & m & E & Hp & Hpf & _ & Hsw).
    { rewrite length_app. lia. }
    assert (drop (S i) (l ++ r) = r) as Ed by (rewrite drop_app_ge, (proj2 (Nat.sub_0_le _ _)) by lia; apply drop_0).
    assert (take (S i) (l ++ r) = l) as Et by (rewrite take_app_le, take_ge by lia; reflexivity).
    pose proof (bubble_pass_perm (S i) (a :: l ++ r) 0) as Hperm.
    rewrite Ed, Et in *. destruct (bubble_pass gt (S i) (a :: l ++ r) 0) as [q sw]. cbn [fst snd] in *. subst q.
    assert (Permutation (p ++ [m]) (a :: l)) as Hpm.
    { apply (Permutation_app_inv_r r). rewrite <- app_assoc. exact Hperm. }
    assert (Forall (fun x => Forall (fun y => le x y) r) (p ++ [m])) as Hf'.
    { rewrite Hpm. exact Hf. }
    apply Forall_app in Hf' as [Hfp Hfm]. inversion Hfm; subst.
    destruct sw as [|sw].
    + destruct (Hsw eq_refl) as [Epm Hsrt].
      change (p ++ m :: r) with (p ++ [m] ++ r). rewrite app_assoc, Epm. apply (Happ (a :: l) r); auto.
      apply Sorted_StronglySorted; [|exact Hsrt]. intros x y z. apply le_trans.
    + apply IH; [exact Hp| |constructor; auto].
      rewrite List.Forall_forall in *. intros x Hx. constructor; [apply Hpf|apply Hfp]; exact Hx.
Qed.
End sort.

(** The order of names, as unsigned characters. *)
Fixpoint lex_gt (a b : list Z) : bool :=
  match a, b with
  | [], _ => false
  | _ :: _, [] => true
  | c :: a', d :: b' => if c =? d then lex_gt a' b' else d <? c
  end.

Lemma lex_antisym a b : lex_gt a b = true -> lex_gt b a = false.
Proof.
  revert b. induction a as [|c a IH]; intros [|d b]; cbn [lex_gt]; try discriminate; auto.
  rewrite (Z.eqb_sym d c). destruct (Z.eqb_spec c d); [apply IH|lia].
Qed.

Lemma lex_trans a b c : lex_gt a b = false -> lex_gt b c = false -> lex_gt a c = false.
Proof.
  revert b c. induction a as [|x a IH]; intros [|y b] [|z c]; cbn [lex_gt]; try discriminate; auto.
  intros H1 H2. destruct (Z.eqb_spec x y), (Z.eqb_spec y z), (Z.eqb_spec x z); subst; try lia; eauto.
Qed.

Definition ascii_name (s : list Z) : Prop := Forall (fun c => 0 < c < 128) s.

Lemma s8_pos x : -128 <= x < 128 -> (0 <? s8 x) = (0 <? x).
Proof.
  intros H. assert (s8 x = x) as ->; [|reflexivity].
  unfold s8, swrap, wrap. change (2 ^ 8) with 256. change (2 ^ (8 - 1)) with 128.
  cbv zeta. destruct (Z.ltb_spec (x mod 256) 128) as [Hx|Hx];
    pose proof (Z.div_mod x 256 ltac:(lia)); pose proof (Z.mod_pos_bound x 256 ltac:(lia)); lia.
Qed.

Lemma str_gt_lex a b : ascii_name a -> ascii_name b -> str_gt a b = lex_gt a b.
Proof.
  intros Ha. revert b. induction Ha as [|c a Hc Ha IH]; intros b Hb; destruct Hb as [|d b Hd Hb];
    cbn [str_gt lex_gt].
  - reflexivity.
  - rewrite s8_pos by lia. lia.
  - rewrite s8_pos by lia. lia.
  - rewrite s8_pos by lia. destruct (c =? d); [apply IH; exact Hb|]. lia.
Qed.

(** The passes see the entries of the list only. *)
Lemma bubble_pass_ext {A} (P : A -> Prop) gt gt' :
  (forall a b, P a -> P b -> gt a b = gt' a b) ->
  forall i l s, Forall P l -> bubble_pass gt i l s = bubble_pass gt' i l s.
Proof.
  intros H i. induction i as [|i IH]; intros l s Hl; [reflexivity|]. cbn [bubble_pass].
  destruct Hl as [|a l Ha Hl]; [reflexivity|]. destruct Hl as [|b l Hb Hl]; [reflexivity|].
  rewrite H by assumption. rewrite !IH by (repeat constructor; assumption). reflexivity.
Qed.
Lemma bubble_sort_ext {A} (P : A -> Prop) gt gt' :
  (forall a b, P a -> P b -> gt a b = gt' a b) ->
  forall i l, Forall P l -> bubble_sort gt i l = bubble_sort gt' i l.
Proof.
  intros H i. induction i as [|i IH]; intros l Hl; [reflexivity|]. cbn [bubble_sort].
  rewrite (bubble_pass_ext P gt gt' H) by exact Hl.
  pose proof (bubble_pass_perm gt' (S i) l 0) as Hp.
  destruct (bubble_pass gt' (S i) l 0) as [r [|s]]; [reflexivity|]. apply IH.
  cbn [fst] in Hp. rewrite Hp. exact Hl.
Qed.

(** The help listing is the command table in the order of the names (for
    ASCII names), nothing lost or repeated. *)
Theorem help_sort_correct {F} (table : list (cmd_tbl F)) :
  Forall (fun t => ascii_name (name t)) table ->
  Permutation (help_sort table) table /\
  StronglySorted (fun a b => str_gt (name a) (name b) = false) (help_sort table).
Proof.
  intros Hn. split; [apply bubble_sort_perm|].
  assert (StronglySorted (fun a b => lex_gt (name a) (name b) = false) (help_sort table)) as Hs.
  { unfold help_sort.
    rewrite (bubble_sort_ext (fun t => ascii_name (name t)) _ (fun a b => lex_gt (name a) (name b)))
      by (first [assumption | intros; apply str_gt_lex; assumption]).
    destruct table as [|t table]; [constructor|]. cbn [length]. rewrite Nat.sub_0_r || idtac.
    replace (S (length table) - 1)%nat with (length table) by lia.
    rewrite <- (app_nil_r (t :: table)). apply bubble_sort_spec.
    - intros a b. apply lex_antisym.
    - intros a b c. apply lex_trans.
    - reflexivity.
    - apply List.Forall_forall. intros; constructor.
    - constructor. }
  assert (Forall (fun t => ascii_name (name t)) (help_sort table)) as Hn'.
  { unfold help_sort. rewrite bubble_sort_perm. exact Hn. }
  clear Hn. induction Hs as [|a l Hs IH Ha]; constructor; inversion Hn'; subst; [apply IH; assumption|].
  rewrite List.Forall_forall in *. intros b Hb. rewrite str_gt_lex; auto.
Qed.

Definition ex_table : list (cmd_tbl unit) :=
  map (fun n => CmdTbl n 16 1 false tt) [str "setenv"; str "md"; str "go"; str "saveenv"].

Lemma help_sort_correct_witness :
  StronglySorted (fun a b => str_gt (name a) (name b) = false) (help_sort ex_table) /\
  map name (help_sort ex_table) = [str "go"; str "md"; str "saveenv"; str "setenv"].
Proof.
  split; [|reflexivity]. apply help_sort_correct.
  repeat (apply List.Forall_cons || apply List.Forall_nil); cbn; lia.
Defined.

(** ** Running a line *)

Section run_spec.
Context {St : Type} (getenv : St -> list Z -> option (list Z)).
Context (clear_ctrlc : St -> St) (had_ctrlc : St -> bool).
Context (table : list (cmd_tbl (handler (St := St)))) (before_cmdbuf : Z).

Abbreviation token := (run_token getenv had_ctrlc table).
Abbreviation loop := (run_loop getenv had_ctrlc table).
Abbreviation command := (run_command getenv clear_ctrlc had_ctrlc table before_cmdbuf).

Lemma find_sep_length s : forall b prev q,
  (length (find_sep b prev q s).1 +
   match (find_sep b prev q s).2 with Some r => S (length r) | None => 0 end)%nat = length s.
Proof.
  induction s as [|c s IH]; intros b prev q; [reflexivity|]. cbn [find_sep].
  case_match; [simpl; lia|].
  specialize (IH false c (if (c =? QUOTE) && negb (prev =? BACKSLASH) then negb q else q)).
  destruct (find_sep _ _ _ s) as [t r]. cbn [fst snd length] in *. lia.
Qed.

Definition bit (x : Z) : Prop := x = 0 \/ x = 1.

Lemma token_range tok flag rc rep st :
  rc = 0 \/ rc = -1 -> bit rep -> Forall (fun t => bit (repeatable t)) table ->
  match token tok flag rc rep st with
  | inl (r, _) => r = -1
  | inr (_, rc', rep', _) => (rc' = 0 \/ rc' = -1) /\ bit rep'
  end.
Proof.
  intros Hrc Hrep Ht. unfold run_token.
  destruct (parse_line _) as [[|arg0 argv] full]; [auto|].
  destruct (find_cmd_tbl arg0 table) as [t|] eqn:E; [|auto].
  destruct (_ <? _); [auto|]. destruct (_ && _); [auto|].
  destruct (cmd t _ _ st) as [r st']. destruct (had_ctrlc st'); [reflexivity|].
  split; [destruct (r =? 0); auto|].
  apply find_cmd_in in E.
  rewrite List.Forall_forall in Ht. destruct (Ht t E) as [-> | ->], Hrep as [-> | ->]; unfold bit; auto.
Qed.

Lemma loop_total fuel : forall prev s flag rc rep st,
  (length s <= fuel)%nat -> rc = 0 \/ rc = -1 -> bit rep ->
  Forall (fun t => bit (repeatable t)) table ->
  exists r st', loop fuel prev s flag rc rep st = Some (r, st') /\ (r = -1 \/ bit r).
Proof.
  induction fuel as [|fuel IH]; intros prev s flag rc rep st Hl Hrc Hrep Ht.
  - destruct s; [|simpl in Hl; lia]. cbn. do 2 eexists. split; [reflexivity|]. case_match; auto.
    destruct Hrc as [->|]; [discriminate|auto].
  - destruct s as [|c s].
    + cbn. do 2 eexists. split; [reflexivity|]. case_match; auto. destruct Hrc as [->|]; [discriminate|auto].
    + cbn [run_loop]. pose proof (find_sep_length (c :: s) true prev false) as Hsep.
      destruct (find_sep true prev false (c :: s)) as [tok rest].
      pose proof (token_range tok flag rc rep st Hrc Hrep Ht) as Hr.
      destruct (token tok flag rc rep st) as [[r st']|[[[flag' rc'] rep'] st']].
      * subst r. do 2 eexists. split; [reflexivity|auto].
      * destruct Hr as [Hrc' Hrep']. apply IH; auto. cbn [fst snd length] in *.
        destruct rest; simpl; lia.
Qed.


(** *** Sequences *)

(** A piece without a separator: semicolons are escaped or quoted. *)
Definition sep_free (p : piece) : Prop :=
  match p with
  | Plain c => c <> BACKSLASH /\ c <> QUOTE /\ c <> chr ";"
  | Esc c => c <> BACKSLASH
  | Quoted s => Forall (fun c => c <> QUOTE) s /\ List.last s 0 <> BACKSLASH
  | Var n => Forall (fun c => c <> BACKSLASH /\ c <> QUOTE /\ c <> chr ";") n
  end.
(** A command: the text of at least one piece. *)
Definition simple (s : list Z) : Prop := exists ps, s = concat (map raw ps) /\ ps <> [] /\ Forall sep_free ps.
Fixpoint join (segs : list (list Z)) : list Z :=
  match segs with [] => [] | [s] => s | s :: segs' => s ++ chr ";" :: join segs' end.

(** The commands one after the other. *)
Fixpoint run_tokens (segs : list (list Z)) (flag rc rep : Z) (st : St) : Z * St :=
  match segs with
  | [] => (if rc =? 0 then rep else rc, st)
  | s :: segs' =>
      match token s flag rc rep st with
      | inl r => r
      | inr (flag, rc, rep, st) => run_tokens segs' flag rc rep st
      end
  end.

(** [find_sep] goes over a text without finding the separator. *)
Definition skips (s : list Z) (inquotes : bool) : Prop :=
  forall b prev, prev <> BACKSLASH -> exists prev', prev' <> BACKSLASH /\
    forall rest, find_sep b prev inquotes (s ++ rest) =
      (let '(t, r) := find_sep (match s with [] => b | _ => false end) prev' inquotes rest in (s ++ t, r)).

Lemma skip_char c rest b prev q :
  (c =? QUOTE) && negb (prev =? BACKSLASH) = false -> q = true \/ c <> chr ";" \/ prev = BACKSLASH ->
  find_sep b prev q (c :: rest) = (let '(t, r) := find_sep false c q rest in (c :: t, r)).
Proof.
  intros Hq Hs. cbn [find_sep]. rewrite Hq.
  assert (negb q && (c =? chr ";") && negb b && negb (prev =? BACKSLASH) = false) as ->; [|reflexivity].
  destruct Hs as [->|[H| ->]]; [reflexivity| |rewrite Z.eqb_refl; apply andb_false_r].
  rewrite (proj2 (Z.eqb_neq _ _) H), andb_false_r. reflexivity.
Qed.
Lemma skip_plain s : forall b prev,
  Forall (fun c => c <> BACKSLASH /\ c <> QUOTE /\ c <> chr ";") s -> prev <> BACKSLASH ->
  forall rest, find_sep b prev false (s ++ rest) =
    (let '(t, r) := find_sep (match s with [] => b | _ => false end) (List.last s prev) false rest in (s ++ t, r)).
Proof.
  induction s as [|c s IH]; intros b prev Hs Hp rest; cbn [app List.last].
  - destruct (find_sep b prev false rest). reflexivity.
  - inversion Hs as [|? ? (H1 & H2 & H3) Hs']; subst.
    rewrite skip_char by (try eqb_ne; auto). rewrite IH by assumption.
    rewrite (match s as s return (match s with [] => false | _ => false end = false) with [] => eq_refl | _ => eq_refl end).
    replace (match s with [] => c | _ :: _ => List.last s prev end) with (List.last s c)
      by (destruct s; [reflexivity|apply last_cons_default]).
    destruct (find_sep false (List.last s c) false rest). reflexivity.
Qed.
Lemma skip_quoted s : forall b prev rest, Forall (fun c => c <> QUOTE) s ->
  find_sep b prev true (s ++ rest) =
    (let '(t, r) := find_sep (match s with [] => b | _ => false end) (List.last s prev) true rest in (s ++ t, r)).
Proof.
  induction s as [|c s IH]; intros b prev rest Hs; cbn [app List.last].
  - destruct (find_sep b prev true rest). reflexivity.
  - inversion Hs as [|? ? H1 Hs']; subst.
    rewrite skip_char by (try eqb_ne; auto). rewrite IH by assumption.
    rewrite (match s as s return (match s with [] => false | _ => false end = false) with [] => eq_refl | _ => eq_refl end).
    replace (match s with [] => c | _ :: _ => List.last s prev end) with (List.last s c)
      by (destruct s; [reflexivity|apply last_cons_default]).
    destruct (find_sep false (List.last s c) true rest). reflexivity.
Qed.
Lemma last_plain s prev : Forall (fun c => c <> BACKSLASH /\ c <> QUOTE /\ c <> chr ";") s -> prev <> BACKSLASH ->
  List.last s prev <> BACKSLASH.
Proof.
  intros Hs Hp. destruct s as [|c s] using rev_ind; [exact Hp|]. rewrite last_last.
  apply Forall_app in Hs as [_ Hs]. inversion Hs. tauto.
Qed.

(** A whole quoted text, the quotes included. *)
Lemma skip_quotes s b prev rest :
  Forall (fun c => c <> QUOTE) s -> List.last s 0 <> BACKSLASH -> prev <> BACKSLASH ->
  find_sep b prev false (QUOTE :: s ++ QUOTE :: rest) =
    (let '(t, r) := find_sep false QUOTE false rest in (QUOTE :: s ++ QUOTE :: t, r)).
Proof.
  intros Hs Hl Hp. assert (List.last s QUOTE <> BACKSLASH) as Hl'.
  { destruct s as [|x s]; [discriminate|]. rewrite (last_cons_default x s QUOTE 0). exact Hl. }
  cbn [find_sep]. rewrite Z.eqb_refl. eqb_ne. cbn [andb negb]. rewrite skip_quoted by exact Hs. cbn [find_sep].
  rewrite Z.eqb_refl. eqb_ne. cbn [andb negb]. change (QUOTE =? chr ";") with false. cbn [andb].
  destruct (find_sep false QUOTE false rest). reflexivity.
Qed.

Lemma piece_skips p : sep_free p -> skips (raw p) false.
Proof.
  destruct p as [c|c|s|n]; cbn [sep_free raw]; intros H b prev Hp.
  - exists c. split; [tauto|]. intros rest. cbn [app]. destruct H as (H1 & H2 & H3). apply skip_char; [eqb_ne; reflexivity|auto].
  - exists c. split; [exact H|]. intros rest. cbn [app]. rewrite skip_char by (try reflexivity; right; left; discriminate).
    rewrite skip_char by (auto; change (BACKSLASH =? BACKSLASH) with true; apply andb_false_r).
    destruct (find_sep false c false rest). reflexivity.
  - exists QUOTE. split; [discriminate|]. intros rest. cbn [app]. rewrite <- app_assoc. cbn [app].
    rewrite skip_quotes by tauto. destruct (find_sep false QUOTE false rest). rewrite <- app_assoc. reflexivity.
  - assert (Forall (fun c => c <> BACKSLASH /\ c <> QUOTE /\ c <> chr ";") (chr "$" :: chr "{" :: n ++ [chr "}"])) as Hall.
    { repeat apply List.Forall_cons; [split_and!; discriminate..|]. apply Forall_app. split; [exact H|].
      apply List.Forall_cons; [split_and!; discriminate|apply List.Forall_nil]. }
    eexists. split; [apply (last_plain _ prev Hall Hp)|]. intros rest. apply (skip_plain _ b prev Hall Hp).
Qed.
Lemma pieces_skip ps : Forall sep_free ps -> skips (concat (map raw ps)) false.
Proof.
  induction ps as [|p ps IH]; intros H b prev Hp; cbn [map concat].
  - exists prev. split; [exact Hp|]. intros rest. cbn [app]. destruct (find_sep b prev false rest). reflexivity.
  - inversion H as [|? ? H1 H2]; subst. destruct (piece_skips p H1 b prev Hp) as (v & Hv & E).
    assert (exists c s, raw p = c :: s) as (c & s & Er) by (destruct p; cbn; eauto).
    destruct (IH H2 false v Hv) as (v' & Hv' & E'). exists v'. split; [exact Hv'|]. intros rest.
    rewrite <- app_assoc, E, Er. cbn [app]. rewrite E'.
    rewrite (match concat (map raw ps) as s return (match s with [] => false | _ => false end = false)
             with [] => eq_refl | _ => eq_refl end).
    destruct (find_sep false v' false rest). rewrite <- app_assoc. reflexivity.
Qed.
Lemma simple_cons s : simple s -> exists c t, s = c :: t.
Proof.
  intros (ps & -> & Hn & _). destruct ps as [|[] ps]; [congruence|cbn; eauto..].
Qed.
Lemma find_sep_simple s b prev rest :
  simple s -> prev <> BACKSLASH -> find_sep b prev false (s ++ chr ";" :: rest) = (s, Some rest).
Proof.
  intros Hs Hp. destruct (simple_cons s Hs) as (c & t & Ec). destruct Hs as (ps & -> & _ & H).
  destruct (pieces_skip ps H b prev Hp) as (v & Hv & ->). rewrite Ec. cbn [find_sep].
  change (chr ";" =? QUOTE) with false. rewrite Z.eqb_refl. eqb_ne. cbn [andb negb]. rewrite app_nil_r. reflexivity.
Qed.
Lemma find_sep_last s b prev : simple s -> prev <> BACKSLASH -> find_sep b prev false s = (s, None).
Proof.
  intros (ps & -> & _ & H) Hp. destruct (pieces_skip ps H b prev Hp) as (v & Hv & E).
  specialize (E []). rewrite app_nil_r in E. rewrite E. cbn [find_sep]. rewrite app_nil_r. reflexivity.
Qed.

Lemma loop_tokens segs : forall fuel prev flag rc rep st,
  Forall simple segs -> prev <> BACKSLASH -> (length (join segs) <= fuel)%nat ->
  loop fuel prev (join segs) flag rc rep st = Some (run_tokens segs flag rc rep st).
Proof.
  induction segs as [|s segs IH]; intros fuel prev flag rc rep st Hs Hp Hf; [destruct fuel; reflexivity|].
  inversion Hs as [|? ? Hc Hs']; subst. destruct (simple_cons s Hc) as (x & t & Hx).
  assert (exists c0 s0, join (s :: segs) = c0 :: s0) as (c0 & s0 & Ej).
  { rewrite Hx. destruct segs; cbn [join app]; eauto. }
  rewrite Ej. destruct fuel as [|fuel]; [rewrite Ej in Hf; simpl in Hf; lia|]. cbn [run_loop run_tokens].
  rewrite <- Ej. clear Ej c0 s0. destruct segs as [|s2 segs].
  - cbn [join]. rewrite find_sep_last by assumption.
    destruct (token s flag rc rep st) as [r|[[[flag' rc'] rep'] st']]; [reflexivity|].
    destruct fuel; reflexivity.
  - change (join (s :: s2 :: segs)) with (s ++ chr ";" :: join (s2 :: segs)) in *.
    rewrite find_sep_simple by auto.
    destruct (token s flag rc rep st) as [r|[[[flag' rc'] rep'] st']]; [reflexivity|].
    apply IH; [exact Hs'|discriminate|]. subst s. len_tac.
Qed.

(** C10: a line of commands with semicolons between them runs the commands in
    order, each in the machine the one before left, and stops at Ctrl-C.  A
    command may have escaped and quoted text, where semicolons do not separate,
    and variables. *)
Theorem run_command_sequence segs flag st :
  segs <> [] -> Forall simple segs -> before_cmdbuf <> BACKSLASH -> zlen (join segs) < CONFIG_SYS_CBSIZE ->
  command (Some (join segs)) flag st = Some (run_tokens segs flag 0 1 (clear_ctrlc st)).
Proof.
  intros Hn Hs Hb Hl. unfold run_command.
  destruct (join segs) as [|c s] eqn:E.
  { exfalso. destruct segs as [|s0 segs]; [congruence|]. inversion Hs as [|? ? H0 _]; subst.
    destruct (simple_cons s0 H0) as (x & t & ->). destruct segs; discriminate. }
  rewrite (proj2 (Z.leb_gt _ _)) by lia. rewrite <- E. apply loop_tokens; [exact Hs|exact Hb|lia].
Qed.
End run_spec.

(** A machine that records the commands it was given. *)
Definition ex_machine : list (cmd_tbl (handler (St := list (list (list Z))))) :=
  [CmdTbl (str "setenv") 16 0 false (fun _ argv st => (0, st ++ [argv]));
   CmdTbl (str "tftpboot") 3 1 false (fun _ argv st => (0, st ++ [argv]));
   CmdTbl (str "bootm") 16 1 false (fun _ argv st => (1, st ++ [argv]))].
Definition ex_run := run_command (fun _ => ex_getenv) (fun st => st) (fun _ => false) ex_machine 0.

Definition ex_segs : list (list piece) :=
  [map Plain (str "setenv a ") ++ [Quoted (str "1;2"); Esc (chr ";")];
   map Plain (str "tftp 1000000 ") ++ [Var (str "ipaddr")];
   map Plain (str "bootm")].
Lemma run_command_sequence_witness :
  ex_run (Some (str "setenv a '1;2'" ++ [BACKSLASH] ++ str ";;tftp 1000000 ${ipaddr};bootm")) 0 [] =
    Some (-1, [[str "setenv"; str "a"; str "1;2;"]; [str "tftp"; str "1000000"; str "10.0.0.7"]; [str "bootm"]]).
Proof.
  change (str "setenv a '1;2'" ++ [BACKSLASH] ++ str ";;tftp 1000000 ${ipaddr};bootm") with
    (join (map (fun ps => concat (map raw ps)) ex_segs)).
  unfold ex_run. rewrite run_command_sequence; [vm_compute; reflexivity|discriminate| |discriminate|reflexivity].
  repeat apply List.Forall_cons; [..|apply List.Forall_nil]; (eexists; split; [reflexivity|split; [discriminate|]]);
    repeat (apply List.Forall_cons || apply List.Forall_nil || split); discriminate.
Defined.


(** With more than CONFIG_SYS_MAXARGS words the line is not refused: a command
    that takes that many arguments runs with the first sixteen. *)
Lemma too_many_args_run :
  ex_run (Some (str "setenv a b c d e f g h i j k l m n o p q")) 0 [] =
    Some (0, [str "setenv" :: map (fun c => [c]) (str "abcdefghijklmno")]).
Proof. vm_compute. reflexivity. Qed.

(** ** The line editor *)

(** The count is the length and the column is the one the text reaches. *)
Definition editing (buffer : list Z) (col n plen : Z) : Prop :=
  n = zlen buffer /\ n <= CONFIG_SYS_CBSIZE - 2 /\ col = retype_col buffer plen.

Lemma retype_col_ge buffer col : 0 <= col -> col <= retype_col buffer col.
Proof.
  revert col. induction buffer as [|c buffer IH]; intros col Hc; cbn [retype_col fold_left]; [lia|].
  assert (0 <= col .& 7 < 8) by (change 7 with (Z.ones 3); rewrite Z.land_ones by lia; apply Z.mod_pos_bound; lia).
  fold (retype_col buffer (if c =? 9 then col + (8 - (col .& 7)) else col + 1)).
  etransitivity; [|apply IH]; case_match; lia.
Qed.

Lemma retype_col_snoc buffer c col :
  retype_col (buffer ++ [c]) col =
    let col := retype_col buffer col in if c =? 9 then col + (8 - (col .& 7)) else col + 1.
Proof. unfold retype_col. rewrite fold_left_app. reflexivity. Qed.

Lemma delete_char_editing buffer pc col n plen :
  0 <= plen -> editing buffer col n plen ->
  let '(buffer', _, col', n') := delete_char buffer pc col n plen in
  editing buffer' col' n' plen /\ buffer' = removelast buffer.
Proof.
  intros Hp (Hn & Hmax & Hc). unfold delete_char. destruct (Z.eqb_spec n 0) as [E|E].
  - destruct buffer; [|zlen_simpl; lia]. split; [split_and!; auto|reflexivity].
  - destruct buffer as [|c buffer] using rev_ind; [zlen_simpl; lia|]. clear IHbuffer.
    rewrite last_last, removelast_last. rewrite retype_col_snoc in Hc. cbv zeta in Hc. zlen_simpl.
    pose proof (retype_col_ge buffer plen Hp).
    destruct (Z.eqb_spec c 9) as [->|Hc9]; cbn [Z.eqb Pos.eqb] in Hc.
    + split; [|reflexivity]. split_and!; try lia. f_equal.
      assert (0 <= retype_col buffer plen .& 7 < 8) by
        (change 7 with (Z.ones 3); rewrite Z.land_ones by lia; apply Z.mod_pos_bound; lia).
      branches.
    + split; [|reflexivity]. split_and!; lia.
Qed.

Lemma delete_word_editing fuel : forall buffer pc col n plen,
  0 <= plen -> editing buffer col n plen ->
  let '(buffer', _, col', n') := delete_word fuel buffer pc col n plen in editing buffer' col' n' plen.
Proof.
  induction fuel as [|fuel IH]; intros buffer pc col n plen Hp He; cbn [delete_word]; [exact He|].
  destruct (_ && _); [|exact He]. pose proof (delete_char_editing buffer pc col n plen Hp He) as H1.
  destruct (delete_char buffer pc col n plen) as [[[b p] c] k]. apply IH; [exact Hp|apply H1].
Qed.

Lemma readline_step_editing buffer col n plen c :
  0 <= plen -> editing buffer col n plen ->
  match readline_step buffer col n plen c with
  | inl (r, line) => zlen line <= CONFIG_SYS_CBSIZE - 2 /\ (r = zlen line \/ r = -1 /\ line = [])
  | inr (buffer', col', n') => editing buffer' col' n' plen
  end.
Proof.
  intros Hp He. pose proof He as (Hn & Hmax & Hcol). unfold readline_step.
  destruct (_ || _); [split; [lia|auto]|]. destruct (c =? 0); [exact He|].
  destruct (c =? 3); [split; [vm_compute; discriminate|auto]|].
  destruct (c =? 21); [split_and!; [reflexivity|vm_compute; discriminate|]|].
  { cbn. pose proof (retype_col_ge buffer plen Hp). destruct (Z.ltb_spec plen col); lia. }
  destruct (c =? 23).
  { pose proof (delete_char_editing buffer 0 col n plen Hp He) as H1.
    destruct (delete_char buffer 0 col n plen) as [[[b p] c'] k].
    pose proof (delete_word_editing (Z.to_nat k) b p c' k plen Hp (proj1 H1)) as H2.
    destruct (delete_word (Z.to_nat k) b p c' k plen) as [[[b2 p2] c2] k2]. exact H2. }
  destruct (_ || _).
  { pose proof (delete_char_editing buffer 0 col n plen Hp He) as H1.
    destruct (delete_char buffer 0 col n plen) as [[[b p] c'] k]. apply H1. }
  destruct (Z.ltb_spec n (CONFIG_SYS_CBSIZE - 2)); [|exact He].
  split_and!; [zlen_simpl; lia|lia|]. rewrite retype_col_snoc, <- Hcol. reflexivity.
Qed.

Lemma readline_loop_bounds input : forall buffer col n plen r line rest,
  0 <= plen -> editing buffer col n plen ->
  readline_loop input buffer col n plen = Some (r, line, rest) ->
  zlen line <= CONFIG_SYS_CBSIZE - 2 /\ (r = zlen line \/ r = -1 /\ line = []).
Proof.
  induction input as [|c input IH]; intros buffer col n plen r line rest Hp He; cbn [readline_loop]; [discriminate|].
  pose proof (readline_step_editing buffer col n plen c Hp He) as Hs.
  destruct (readline_step buffer col n plen c) as [[r' l']|[[b' c'] n']].
  - intros [= <- <- <-]. exact Hs.
  - apply IH; assumption.
Qed.

(** C39: whatever is typed, the line returned fits the console buffer with its
    NUL, and the result is its length, or -1 with an empty line for Ctrl-C. *)
Theorem readline_bounds prompt input r line rest :
  readline_into_buffer prompt input = Some (r, line, rest) ->
  zlen line < CONFIG_SYS_CBSIZE - 1 /\ (r = zlen line \/ r = -1 /\ line = []).
Proof.
  unfold readline_into_buffer. set (plen := match prompt with Some p => zlen p | None => 0 end).
  assert (0 <= plen) as Hp by (unfold plen; destruct prompt; [apply zlen_nonneg|lia]).
  intros E. apply readline_loop_bounds in E; [|exact Hp|].
  - destruct E as [E1 E2]. split; [lia|exact E2].
  - split_and!; [reflexivity|vm_compute; discriminate|reflexivity].
Qed.

(** "help", one deletion, "o", Enter. *)
Lemma readline_bounds_witness :
  readline_into_buffer (Some (str "=> ")) (str "help" ++ [8] ++ str "o" ++ [13]) = Some (4, str "helo", []) /\
  zlen (str "helo") < CONFIG_SYS_CBSIZE - 1.
Proof.
  assert (readline_into_buffer (Some (str "=> ")) (str "help" ++ [8] ++ str "o" ++ [13]) = Some (4, str "helo", [])) as E
    by reflexivity.
  split; [exact E|]. destruct (readline_bounds _ _ _ _ _ E) as [H _]. exact H.
Defined.
