(* ===== verification/Readline.v ===== *)
(** * The console line in its buffer (common/main.c)

    [CmdLine] gives the result of readline and the line it leaves.  Here the same
    routine works on the array itself, as its callers outside the command loop see it:
    what an abandoned or a short line leaves of the lines before stays there.  The column
    only steers the echo and is left out; everything else follows
    [CmdLine.readline_into_buffer], which it refines. *)

From S2P Require Import Prelude CMem CmdLine.

(** ** The routine *)

(** The place and the count after a deletion; the array itself is not touched. *)
Definition buf_delete_char (p n : Z) : Z * Z := if n =? 0 then (p, n) else (p - 1, n - 1).

(** while ((n > 0) && ( *p != ' ')) *)
Fixpoint buf_delete_word (fuel : nat) (m : mem) (p n : Z) : Z * Z :=
  match fuel with
  | O => (p, n)
  | S f => if (0 <? n) && negb (m p =? chr " ") then let '(p, n) := buf_delete_char p n in buf_delete_word f m p n else (p, n)
  end.

(** One character: [inl] is a return. *)
Definition buf_step (m : mem) (p n c : Z) : (Z * mem) + (mem * Z * Z) :=
  if (c =? 13) || (c =? 10) then inl (p, upd m p 0)
  else if c =? 0 then inr (m, p, n)
  else if c =? 3 then inl (-1, upd m 0 0)
  else if c =? 21 then inr (m, 0, 0)
  else if c =? 23 then
    let '(p, n) := buf_delete_char p n in
    let '(p, n) := buf_delete_word (Z.to_nat n) m p n in inr (m, p, n)
  else if (c =? 8) || (c =? 127) then let '(p, n) := buf_delete_char p n in inr (m, p, n)
  else if n <? CONFIG_SYS_CBSIZE - 2 then inr (upd m p c, p + 1, n + 1)
  else inr (m, p, n).

Fixpoint buf_loop (input : list Z) (m : mem) (p n : Z) : option (Z * mem * list Z) :=
  match input with
  | [] => None
  | c :: input =>
      match buf_step m p n c with
      | inl (r, m) => Some (r, m, input)
      | inr (m, p, n) => buf_loop input m p n
      end
  end.

(** [readline] on the console buffer: the result, the buffer, the input left; [None] waits for more. *)
Definition buf_readline (m : mem) (input : list Z) : option (Z * mem * list Z) := buf_loop input (upd m 0 0) 0 0.

(** * Properties *)

(** ** It leaves the line of [CmdLine.readline_into_buffer] *)

(** The line so far stands at the start of the array. *)
Definition holds (m : mem) (p n : Z) (line : list Z) : Prop :=
  p = n /\ line = read_bytes m 0 (Z.to_nat n) /\ 0 <= n <= CONFIG_SYS_CBSIZE - 2.

Lemma read_bytes_snoc m a k : read_bytes m a (S k) = read_bytes m a k ++ [m (a + Z.of_nat k)].
Proof. replace (S k) with (k + 1)%nat by lia. rewrite read_bytes_plus. reflexivity. Qed.

Lemma holds_snoc m n : 0 < n -> read_bytes m 0 (Z.to_nat n) = read_bytes m 0 (Z.to_nat (n - 1)) ++ [m (n - 1)].
Proof.
  intros H. replace (Z.to_nat n) with (S (Z.to_nat (n - 1))) by lia. rewrite read_bytes_snoc. do 3 f_equal. lia.
Qed.

Lemma holds_length m p n line : holds m p n line -> zlen line = n.
Proof. intros (_ & -> & H). rewrite zlen_read_bytes. lia. Qed.

(** A deletion keeps the correspondence; the deleted character is the one under the cursor. *)
Lemma delete_char_holds m p n line ch col plen : holds m p n line ->
  exists line' ch' col', delete_char line ch col n plen = (line', ch', col', (buf_delete_char p n).2) /\
    holds m (buf_delete_char p n).1 (buf_delete_char p n).2 line' /\ (0 < n -> ch' = m (buf_delete_char p n).1) /\
    (buf_delete_char p n).2 = Z.max 0 (n - 1).
Proof.
  intros (-> & -> & Hn). unfold delete_char, buf_delete_char. destruct (Z.eqb_spec n 0) as [->|Hne]; cbn [fst snd].
  - do 3 eexists. split; [reflexivity|]. split; [split_and!; [reflexivity|reflexivity|lia|lia]|]. split; [lia|reflexivity].
  - rewrite holds_snoc by lia. rewrite last_last, removelast_last.
    assert (holds m (n - 1) (n - 1) (read_bytes m 0 (Z.to_nat (n - 1)))) as H by (split_and!; [reflexivity|reflexivity|lia|lia]).
    destruct (m (n - 1) =? 9); do 3 eexists; (split; [reflexivity|]); (split; [exact H|]); split; auto; lia.
Qed.

Lemma delete_word_holds fuel : forall m p n line ch col plen, holds m p n line -> (0 < n -> ch = m p) -> (Z.to_nat n <= fuel)%nat ->
  exists line' ch' col', delete_word fuel line ch col n plen = (line', ch', col', (buf_delete_word fuel m p n).2) /\
    holds m (buf_delete_word fuel m p n).1 (buf_delete_word fuel m p n).2 line'.
Proof.
  induction fuel as [|f IH]; intros m p n line ch col plen Hh Hc Hf; cbn [delete_word buf_delete_word]; [eauto 6|].
  destruct (Z.ltb_spec 0 n) as [Hn|Hn]; cbn [andb]; [|eauto 6].
  rewrite Hc by exact Hn. destruct (m p =? chr " "); cbn [negb]; [eauto 6|].
  destruct (delete_char_holds m p n line (m p) col plen Hh) as (l1 & c1 & k1 & -> & Hh1 & Hc1 & En).
  destruct (buf_delete_char p n) as [p1 n1]. cbn [fst snd] in *. apply IH; [exact Hh1|auto|lia].
Qed.

Lemma buf_step_holds m p n line col plen c : holds m p n line ->
  match readline_step line col n plen c with
  | inl (r, l) => exists m', buf_step m p n c = inl (r, m') /\ same_outside 0 CONFIG_SYS_CBSIZE m m' /\
      (0 <= r -> l = read_bytes m' 0 (Z.to_nat r) /\ zlen l = r /\ m' r = 0) /\ (r < 0 -> r = -1 /\ m' 0 = 0)
  | inr (l, col', n') => exists m' p', buf_step m p n c = inr (m', p', n') /\ same_outside 0 CONFIG_SYS_CBSIZE m m' /\ holds m' p' n' l
  end.
Proof.
  intros Hh. pose proof Hh as (-> & El & Hn). pose proof (holds_length _ _ _ _ Hh) as Hl. change CONFIG_SYS_CBSIZE with 256 in *.
  unfold readline_step, buf_step. change CONFIG_SYS_CBSIZE with 256.
  assert (Keep : exists m' p', inr (A := Z * mem) (m, n, n) = inr (m', p', n) /\ same_outside 0 256 m m' /\ holds m' p' n line)
    by (exists m, n; auto with cmem).
  destruct ((c =? 13) || (c =? 10)).
  { eexists. split; [rewrite Hl; reflexivity|]. split; [apply same_outside_upd; [auto with cmem|lia]|]. rewrite Hl. split; [|lia].
    intros _. split; [|split; [reflexivity|apply upd_eq]]. rewrite El. apply read_bytes_ext. intros i Hi. symmetry. apply upd_ne. lia. }
  destruct (c =? 0); [exact Keep|].
  destruct (c =? 3).
  { eexists. split; [reflexivity|]. split; [apply same_outside_upd; [auto with cmem|lia]|]. split; [lia|]. intros _. split; [reflexivity|apply upd_eq]. }
  destruct (c =? 21).
  { exists m, 0. split; [reflexivity|]. split; [auto with cmem|]. split_and!; [reflexivity|reflexivity|lia|change CONFIG_SYS_CBSIZE with 256; lia]. }
  destruct (c =? 23).
  { destruct (delete_char_holds m n n line 0 col plen Hh) as (l1 & c1 & k1 & -> & Hh1 & Hc1 & En).
    destruct (buf_delete_char n n) as [p1 n1]. cbn [fst snd] in *.
    destruct (delete_word_holds (Z.to_nat n1) m p1 n1 l1 c1 k1 plen Hh1 ltac:(intros; apply Hc1; lia) ltac:(lia)) as (l2 & c2 & k2 & -> & Hh2).
    destruct (buf_delete_word _ m p1 n1) as [p2 n2]. cbn [fst snd] in *. exists m, p2. auto with cmem. }
  destruct ((c =? 8) || (c =? 127)).
  { destruct (delete_char_holds m n n line 0 col plen Hh) as (l1 & c1 & k1 & -> & Hh1 & _).
    destruct (buf_delete_char n n) as [p1 n1]. cbn [fst snd] in *. exists m, p1. auto with cmem. }
  destruct (Z.ltb_spec n (256 - 2)); [|exact Keep].
  exists (upd m n c), (n + 1). split; [reflexivity|]. split; [apply same_outside_upd; [auto with cmem|lia]|].
  split_and!; [reflexivity| |lia|change CONFIG_SYS_CBSIZE with 256; lia].
  rewrite holds_snoc by lia. rewrite Z.add_simpl_r, upd_eq, El. f_equal. apply read_bytes_ext. intros i Hi. symmetry. apply upd_ne. lia.
Qed.

Lemma buf_loop_refines input : forall m p n line col plen, holds m p n line ->
  match readline_loop input line col n plen with
  | None => buf_loop input m p n = None
  | Some (r, l, rest) => exists m', buf_loop input m p n = Some (r, m', rest) /\ same_outside 0 CONFIG_SYS_CBSIZE m m' /\
      (0 <= r -> l = read_bytes m' 0 (Z.to_nat r) /\ zlen l = r /\ m' r = 0) /\ (r < 0 -> r = -1 /\ m' 0 = 0)
  end.
Proof.
  induction input as [|c input IH]; intros m p n line col plen Hh; cbn [readline_loop buf_loop]; [reflexivity|].
  pose proof (buf_step_holds m p n line col plen c Hh) as Hs.
  destruct (readline_step line col n plen c) as [[r l]|[[l col'] n']].
  - destruct Hs as (m' & -> & Hs). eauto.
  - destruct Hs as (m' & p' & -> & Ho & Hh'). specialize (IH m' p' n' l col' plen Hh').
    destruct (readline_loop input l col' n' plen) as [[[r l'] rest]|]; [|exact IH].
    destruct IH as (m2 & E & Ho2 & H). exists m2. split; [exact E|]. split; [eapply same_outside_trans; eauto|exact H].
Qed.

(** ** Bytes, and an end *)

Lemma upd_zero_u8 : is_u8 0.
Proof. split; lia. Qed.

Lemma buf_step_ok m p n c : mem_ok m -> is_u8 c -> match buf_step m p n c with inl (_, m') => mem_ok m' | inr (m', _, _) => mem_ok m' end.
Proof.
  intros Hm Hc. unfold buf_step. destruct (_ || _); [apply upd_ok; [exact Hm|apply upd_zero_u8]|]. destruct (c =? 0); [exact Hm|].
  destruct (c =? 3); [apply upd_ok; [exact Hm|apply upd_zero_u8]|]. destruct (c =? 21); [exact Hm|].
  destruct (c =? 23); [destruct (buf_delete_char p n) as [p1 n1]; destruct (buf_delete_word _ m p1 n1) as [p2 n2]; exact Hm|].
  destruct (_ || _); [destruct (buf_delete_char p n) as [p1 n1]; exact Hm|].
  destruct (n <? _); [apply upd_ok; assumption|exact Hm].
Qed.

Lemma buf_loop_ok input : forall m p n, mem_ok m -> Forall is_u8 input ->
  match buf_loop input m p n with Some (_, m', rest) => mem_ok m' /\ Forall is_u8 rest | None => True end.
Proof.
  induction input as [|c input IH]; intros m p n Hm Hi; cbn [buf_loop]; [exact I|].
  pose proof (Forall_inv Hi) as Hc. apply Forall_inv_tail in Hi. pose proof (buf_step_ok m p n c Hm Hc) as Hs.
  destruct (buf_step m p n c) as [[r m']|[[m' p'] n']]; [auto|apply IH; assumption].
Qed.

(** The keys that end a line, and how many of them wait. *)
Definition ends_line (c : Z) : bool := (c =? 13) || (c =? 10) || (c =? 3).
Definition line_ends (input : list Z) : nat := List.length (List.filter ends_line input).

Lemma buf_step_end m p n c : (if ends_line c then exists r m', buf_step m p n c = inl (r, m')
  else exists m' p' n', buf_step m p n c = inr (m', p', n')).
Proof.
  unfold ends_line, buf_step. destruct ((c =? 13) || (c =? 10)) eqn:E1; cbn [orb]; [eauto|].
  destruct (Z.eqb_spec c 3) as [->|E3]; [cbn; eauto|]. destruct (c =? 0); [eauto|]. destruct (c =? 21); [eauto|].
  destruct (c =? 23); [destruct (buf_delete_char p n) as [p1 n1]; destruct (buf_delete_word _ m p1 n1) as [p2 n2]; eauto|].
  destruct ((c =? 8) || (c =? 127)); [destruct (buf_delete_char p n) as [p1 n1]; eauto|]. destruct (n <? _); eauto.
Qed.

(** A line ends at the first such key, and only there. *)
Lemma buf_loop_ends input : forall m p n, match buf_loop input m p n with
  | Some (r, m', rest) => line_ends input = S (line_ends rest) /\ rest `suffix_of` input
  | None => line_ends input = O
  end.
Proof.
  induction input as [|c input IH]; intros m p n; cbn [buf_loop]; [reflexivity|].
  pose proof (buf_step_end m p n c) as Hs. unfold line_ends in *. cbn [List.filter]. destruct (ends_line c).
  - destruct Hs as (r & m' & ->). split; [reflexivity|]. exists [c]. reflexivity.
  - destruct Hs as (m' & p' & n' & ->). specialize (IH m' p' n'). destruct (buf_loop input m' p' n') as [[[r m2] rest]|]; [|exact IH].
    destruct IH as [-> [k ->]]. split; [reflexivity|]. exists (c :: k). reflexivity.
Qed.

(** ** The routine as its callers see it *)

Lemma buf_readline_spec m input : mem_ok m -> Forall is_u8 input ->
  match readline_into_buffer None input with
  | None => buf_readline m input = None /\ line_ends input = O
  | Some (r, line, rest) => exists m', buf_readline m input = Some (r, m', rest) /\
      line_ends input = S (line_ends rest) /\ mem_ok m' /\ Forall is_u8 rest /\ same_outside 0 CONFIG_SYS_CBSIZE m m' /\
      (0 <= r -> line = read_bytes m' 0 (Z.to_nat r) /\ zlen line = r /\ m' r = 0) /\ (r < 0 -> r = -1 /\ m' 0 = 0)
  end.
Proof.
  intros Hm Hi. unfold readline_into_buffer, buf_readline.
  assert (holds (upd m 0 0) 0 0 []) as Hh by (split_and!; [reflexivity|reflexivity|lia|discriminate]).
  pose proof (buf_loop_refines input _ 0 0 [] 0 0 Hh) as R. pose proof (buf_loop_ends input (upd m 0 0) 0 0) as N.
  pose proof (buf_loop_ok input (upd m 0 0) 0 0 (upd_ok _ _ _ Hm upd_zero_u8) Hi) as B.
  destruct (readline_loop input [] 0 0 0) as [[[r l] rest]|].
  - destruct R as (m' & E & Ho & R). rewrite E in *. destruct N as [N _], B as [B1 B2]. exists m'. split_and!; try tauto.
    eapply same_outside_trans; [|exact Ho]. apply same_outside_upd; [auto with cmem|]. change CONFIG_SYS_CBSIZE with 256. lia.
  - rewrite R in *. auto.
Qed.

(** No NUL gets into a line. *)
Lemma removelast_nonzero (l : list Z) : Forall (fun c => c <> 0) l -> Forall (fun c => c <> 0) (removelast l).
Proof.
  induction 1 as [|c l Hc Hl IH]; cbn [removelast]; [constructor|]. destruct l; [constructor|constructor; assumption].
Qed.
Lemma delete_char_nonzero line ch col n plen : Forall (fun c => c <> 0) line ->
  Forall (fun c => c <> 0) (delete_char line ch col n plen).1.1.1.
Proof.
  intros H. unfold delete_char. destruct (n =? 0); [exact H|]. destruct (List.last line 0 =? 9); apply removelast_nonzero, H.
Qed.
Lemma delete_word_nonzero fuel : forall line ch col n plen, Forall (fun c => c <> 0) line ->
  Forall (fun c => c <> 0) (delete_word fuel line ch col n plen).1.1.1.
Proof.
  induction fuel as [|f IH]; intros line ch col n plen H; cbn [delete_word]; [exact H|].
  destruct (_ && _); [|exact H]. pose proof (delete_char_nonzero line ch col n plen H) as Hd.
  destruct (delete_char line ch col n plen) as [[[l1 c1] k1] n1]. apply IH, Hd.
Qed.
Lemma readline_nonzero input : forall line col n plen, Forall (fun c => c <> 0) line ->
  match readline_loop input line col n plen with Some (_, l, _) => Forall (fun c => c <> 0) l | None => True end.
Proof.
  induction input as [|c input IH]; intros line col n plen H; cbn [readline_loop]; [exact I|]. unfold readline_step.
  destruct (_ || _); [exact H|]. destruct (Z.eqb_spec c 0) as [|Hc]; [apply IH, H|]. destruct (c =? 3); [constructor|].
  destruct (c =? 21); [apply IH; constructor|]. pose proof (delete_char_nonzero line 0 col n plen H) as Hd.
  destruct (c =? 23).
  - destruct (delete_char line 0 col n plen) as [[[l1 c1] k1] n1].
    pose proof (delete_word_nonzero (Z.to_nat n1) l1 c1 k1 n1 plen Hd) as Hw.
    destruct (delete_word _ l1 c1 k1 n1 plen) as [[[l2 c2] k2] n2]. apply IH, Hw.
  - destruct (_ || _); [destruct (delete_char line 0 col n plen) as [[[l1 c1] k1] n1]; apply IH, Hd|].
    destruct (n <? _); apply IH; [apply Forall_app; split; [exact H|constructor; [exact Hc|constructor]]|exact H].
Qed.

(** C26: The line reader on the array refines the line editor: whenever some key ends the line it
    returns, with the editor's result and exactly the keys up to that one used up; the
    array then starts with the edited line and a NUL (just a NUL after
    Ctrl-C), and nothing outside the console buffer is written. *)
Theorem buf_readline_refines m input : mem_ok m -> Forall is_u8 input -> (0 < line_ends input)%nat ->
  exists r line rest m', readline_into_buffer None input = Some (r, line, rest) /\ buf_readline m input = Some (r, m', rest) /\
    line_ends input = S (line_ends rest) /\ same_outside 0 CONFIG_SYS_CBSIZE m m' /\
    (0 <= r -> cstr m' 0 line /\ zlen line = r) /\ (r < 0 -> r = -1 /\ cstr m' 0 []).
Proof.
  intros Hm Hi Hn. pose proof (buf_readline_spec m input Hm Hi) as H.
  pose proof (readline_nonzero input [] 0 0 0 (List.Forall_nil _)) as Z. change (readline_loop input [] 0 0 0) with (readline_into_buffer None input) in Z.
  destruct (readline_into_buffer None input) as [[[r line] rest]|]; [|destruct H; lia].
  destruct H as (m' & E & N & _ & _ & Ho & H1 & H2). exists r, line, rest, m'. split_and!; auto.
  intros Hr. destruct (H1 Hr) as (El & Hl & E0). split; [|exact Hl]. apply bytes_cstr; [exact Z|]. apply bytes_at_app. split; [rewrite El; apply bytes_at_read|].
  rewrite Hl, Z.add_0_l. split; [exact E0|exact I].
Qed.

(** A line typed over a longer one, with a deletion; the tail of the longer one stays in the array. *)
Lemma buf_readline_refines_witness :
  match buf_readline (put_bytes (fun _ => 0) 0 (str "revision")) (str "ax" ++ [8] ++ str "b" ++ [13]) with
  | Some (r, m', rest) => r = 2 /\ rest = [] /\ cstr m' 0 (str "ab") /\ read_bytes m' 3 5 = str "ision"
  | None => False
  end.
Proof.
  destruct (buf_readline_refines (put_bytes (fun _ => 0) 0 (str "revision")) (str "ax" ++ [8] ++ str "b" ++ [13]))
    as (r & line & rest & m' & E1 & E2 & _ & _ & H & _).
  - apply put_bytes_ok; [exact zero_ok|apply all_u8_spec; reflexivity].
  - apply all_u8_spec. reflexivity.
  - vm_compute. lia.
  - vm_compute in E1. injection E1 as <- <- <-. rewrite E2. destruct H as [H _]; [lia|].
    split; [reflexivity|]. split; [reflexivity|]. split; [exact H|].
    assert (m' = match buf_readline (put_bytes (fun _ => 0) 0 (str "revision")) (str "ax" ++ [8] ++ str "b" ++ [13]) with
                 | Some (_, m, _) => m | None => fun _ => 0 end) as -> by (rewrite E2; reflexivity).
    vm_compute. reflexivity.
Defined.
