(* ===== verification/Flash.v ===== *)
(** * The flash memory (board/eltec/bab7xx/flash.c, common/flash.c)

    Two banks of AMD chips, eight bits wide, and the bank-independent layer
    above them.  The bus, the timer and the interrupt flag are a typeclass;
    what the chips promise about the command sequences of the driver is a
    second one, against which programming and erasing are proved.  Loops that
    poll the chip take fuel. *)

From S2P Require Import Prelude CMem.

Definition FLASH_UNKNOWN : Z := 0xFFFF.
Definition FLASH_MAN_AMD : Z := 0.
Definition FLASH_MAN_SST : Z := 0x00100000.
Definition FLASH_AMD_COMP : Z := 0x000FFFFF.
Definition AMD_MANUFACT : Z := 0x00010001.
Definition AMD_ID_F040B : Z := 0xA4.
Definition AMD_ID_F016D : Z := 0xAD.
Definition AMD_ID_F032B : Z := 0x41.
Definition FLAG_PROTECT_SET : Z := 1.
Definition FLAG_PROTECT_CLEAR : Z := 2.
Definition ERR_OK : Z := 0.
Definition ERR_TIMOUT : Z := 1.
Definition ERR_NOT_ERASED : Z := 2.
Definition ERR_PROTECTED : Z := 4.
Definition ERR_INVAL : Z := 8.
Definition CONFIG_SYS_FLASH_BASE : Z := 0xfff00000.
Definition FLASH_BASE0_PRELIM : Z := 0xff800000.
Definition FLASH_BASE1_PRELIM : Z := 0xffc00000.
Definition CONFIG_SYS_MAX_FLASH_SECT : nat := 67.
Definition CONFIG_SYS_FLASH_ERASE_TOUT : Z := 120000.
Definition CONFIG_SYS_FLASH_WRITE_TOUT : Z := 500.
Definition ADDR0 : Z := 0x555.
Definition ADDR1 : Z := 0x2AA.

Record flash_info := FlashInfo {
  size : Z;
  sector_count : Z;
  flash_id : Z;
  start : list Z;
  protect : list Z
}.
#[global] Instance flash_info_inhabited : Inhabited flash_info :=
  populate (FlashInfo 0 0 0 [] []).

(** ** Sector protection and address lookup (common/flash.c) *)

Definition set_protect (info : flash_info) (i : nat) (v : Z) : flash_info :=
  FlashInfo (size info) (sector_count info) (flash_id info) (start info) (<[i := v]> (protect info)).

(** for (i=0; i<info->sector_count; ++i): [n] sectors left, at [i]. *)
Fixpoint protect_loop (n i : nat) (flag from to s_end b_end : Z) (info : flash_info) : flash_info :=
  match n with
  | O => info
  | S n =>
      let end_ := if Z.of_nat i =? s_end then b_end else u32 (start info !!! S i - 1) in
      let info :=
        if (from <=? end_) && (start info !!! i <=? to) then
          if negb (flag .& FLAG_PROTECT_CLEAR =? 0) then set_protect info i 0
          else if negb (flag .& FLAG_PROTECT_SET =? 0) then set_protect info i 1
          else info
        else info in
      protect_loop n (S i) flag from to s_end b_end info
  end.

Definition flash_protect (flag from to : Z) (info : flash_info) : flash_info :=
  if (sector_count info =? 0) || (size info =? 0) || (to <? from) then info
  else
    let s_end := s16 (sector_count info - 1) in
    let b_end := u32 (start info !!! O + size info - 1) in
    if (flash_id info =? FLASH_UNKNOWN) || (to <? start info !!! O) || (b_end <? from) then info
    else protect_loop (Z.to_nat (sector_count info)) 0 flag from to s_end b_end info.

(** The index of the bank in [flash_info[]]. *)
Fixpoint addr2info (banks : list flash_info) (i : nat) (addr : Z) : option nat :=
  match banks with
  | [] => None
  | info :: banks =>
      if negb (flash_id info =? FLASH_UNKNOWN) && (start info !!! O <=? addr) &&
         (addr <=? u32 (start info !!! O + size info - 1))
      then Some i else addr2info banks (S i) addr
  end.

(** ** The driver (board/eltec/bab7xx/flash.c) *)

(** The machine the driver runs on: byte accesses in the flash window, the
    millisecond counter behind get_timer(), delays and the interrupt flag. *)
Class FlashBus (St : Type) := {
  fread : Z -> St -> Z * St;
  fwrite : Z -> Z -> St -> St;
  timestamp : St -> Z * St;
  udelay : Z -> St -> St;
  disable_interrupts : St -> bool * St;
  enable_interrupts : St -> St
}.

Section driver.
Context {St : Type} `{FlashBus St}.

Definition get_timer (base : Z) (st : St) : Z * St :=
  let '(t, st) := timestamp st in (u32 (t - base), st).

(** Data polling for D7; [true] is the timeout. *)
Fixpoint write_poll (fuel : nat) (dest data start : Z) (st : St) : option (bool * St) :=
  match fuel with
  | O => None
  | S f =>
      let '(v, st) := fread dest st in
      if v .& 0x80 =? data .& 0x80 then Some (false, st)
      else
        let '(now, st) := get_timer start st in
        if CONFIG_SYS_FLASH_WRITE_TOUT <? now then Some (true, st)
        else write_poll f dest data start st
  end.

(** The bytes of the word, from [dest] on. *)
Fixpoint write_bytes (fuel : nat) (base dest : Z) (data : list Z) (flag : bool) (st : St)
  : option (Z * St) :=
  match data with
  | [] => Some (0, st)
  | d :: data =>
      let st := fwrite (base + ADDR0) 0xAA st in
      let st := fwrite (base + ADDR1) 0x55 st in
      let st := fwrite (base + ADDR0) 0xA0 st in
      let st := fwrite dest d st in
      let st := if flag then enable_interrupts st else st in
      let '(start, st) := get_timer 0 st in
      match write_poll fuel dest d start st with
      | None => None
      | Some (true, st) => Some (1, st)
      | Some (false, st) => write_bytes fuel base (dest + 1) data flag st
      end
  end.

Definition word_bytes (data : Z) : list Z :=
  [u8 (data .>> 24); u8 (data .>> 16); u8 (data .>> 8); u8 data].

Definition write_word (fuel : nat) (info : flash_info) (dest data : Z) (st : St)
  : option (Z * St) :=
  let '(v, st) := fread dest st in
  if negb (v .& u8 data =? u8 data) then Some (2, st)
  else
    let '(flag, st) := disable_interrupts st in
    write_bytes fuel (start info !!! O) dest (word_bytes data) flag st.

(** data = (data << 8) | *cp, from the flash and from the source. *)
Fixpoint pack_flash (n : nat) (cp data : Z) (st : St) : Z * St :=
  match n with
  | O => (data, st)
  | S n => let '(v, st) := fread cp st in pack_flash n (cp + 1) (u32 ((data .<< 8) .| v)) st
  end.
Fixpoint pack_src (n : nat) (src : list Z) (data : Z) : Z * list Z * nat :=
  match n, src with
  | S n, c :: src => pack_src n src (u32 ((data .<< 8) .| c))
  | _, _ => (data, src, n)
  end.

(** The word aligned part and the tail; [src] holds the [cnt] bytes left. *)
Fixpoint write_aligned (fuel : nat) (info : flash_info) (wp : Z) (src : list Z) (st : St)
  : option (Z * St) :=
  match src with
  | [] => Some (0, st)
  | a :: b :: c :: d :: rest =>
      let '(data, _, _) := pack_src 4 [a; b; c; d] 0 in
      match write_word fuel info wp data st with
      | Some (rc, st) => if negb (rc =? 0) then Some (rc, st) else write_aligned fuel info (u32 (wp + 4)) rest st
      | None => None
      end
  | _ =>
      let '(data, _, todo) := pack_src 4 src 0 in
      let '(data, st) := pack_flash todo (wp + zlen src) data st in
      write_word fuel info wp data st
  end.

Definition write_buff (fuel : nat) (info : flash_info) (src : list Z) (addr : Z) (st : St)
  : option (Z * St) :=
  let wp := addr .& not32 3 in
  let l := addr - wp in
  if negb (l =? 0) then
    let '(data, st) := pack_flash (Z.to_nat l) wp 0 st in
    let n := (4 - Z.to_nat l)%nat in
    let '(data, rest, todo) := pack_src n src data in
    let '(data, st) :=
      match rest with
      | [] => pack_flash todo (wp + l + Z.of_nat (n - todo)) data st
      | _ => (data, st)
      end in
    match write_word fuel info wp data st with
    | Some (rc, st) => if negb (rc =? 0) then Some (rc, st) else write_aligned fuel info (u32 (wp + 4)) rest st
    | None => None
    end
  else write_aligned fuel info wp src st.

(** Poll the last erased sector; [true] is the timeout. *)
Fixpoint erase_poll (fuel : nat) (addr start : Z) (st : St) : option (bool * St) :=
  match fuel with
  | O => None
  | S f =>
      let '(v, st) := fread addr st in
      if v .& 0x80 =? 0x80 then Some (false, st)
      else
        let '(now, st) := get_timer start st in
        if CONFIG_SYS_FLASH_ERASE_TOUT <? now then Some (true, st)
        else erase_poll f addr start st
  end.

Definition unlock_erase (addr : Z) (st : St) : St :=
  let st := fwrite (addr + ADDR0) 0xAA st in
  let st := fwrite (addr + ADDR1) 0x55 st in
  let st := fwrite (addr + ADDR0) 0x80 st in
  let st := fwrite (addr + ADDR0) 0xAA st in
  fwrite (addr + ADDR1) 0x55 st.

(** Start erase on unprotected sectors: [n] left, from [sect]; the last one started. *)
Fixpoint erase_loop (n sect : nat) (info : flash_info) (l_sect : option nat) (st : St)
  : option nat * St :=
  match n with
  | O => (l_sect, st)
  | S n =>
      if protect info !!! sect =? 0 then
        let addr := start info !!! sect in
        let st :=
          if negb (flash_id info .& FLASH_MAN_SST =? 0)
          then udelay 30000 (fwrite addr 0x50 (unlock_erase addr st))
          else fwrite addr 0x30 st in
        erase_loop n (S sect) info (Some sect) st
      else erase_loop n (S sect) info l_sect st
  end.

Definition flash_erase (fuel : nat) (info : flash_info) (s_first s_last : Z) (st : St)
  : option (Z * St) :=
  if (s_first <? 0) || (s_last <? s_first) then Some (1, st)
  else if (flash_id info =? FLASH_UNKNOWN) || (FLASH_AMD_COMP <? flash_id info) then Some (1, st)
  else
    let addr := start info !!! O in
    let '(flag, st) := disable_interrupts st in
    let st := unlock_erase addr st in
    let '(l_sect, st) :=
      erase_loop (Z.to_nat (s_last - s_first + 1)) (Z.to_nat s_first) info None st in
    let st := if flag then enable_interrupts st else st in
    let st := udelay 1000 st in
    match l_sect with
    | None => Some (0, fwrite addr 0xF0 st)
    | Some l =>
        let '(start_, st) := get_timer 0 st in
        match erase_poll fuel (start info !!! l) start_ st with
        | None => None
        | Some (true, st) => Some (1, st)
        | Some (false, st) => Some (0, fwrite addr 0xF0 st)
        end
    end.

(** The sectors' bases and their protection bits, read back from the chip. *)
Fixpoint sector_loop (n i : nat) (base : Z) (info : flash_info) (st : St) : flash_info * St :=
  match n with
  | O => (info, st)
  | S n =>
      let a := u32 (base + Z.of_nat i * (size info / sector_count info)) in
      let info := FlashInfo (size info) (sector_count info) (flash_id info)
                    (<[i := a]> (start info)) (protect info) in
      let '(v, st) := fread (a + 2) st in
      sector_loop n (S i) base (set_protect info i (v .& 1)) st
  end.

(** The device codes accepted, with their sector count and size. *)
Definition device_geometry (devid : Z) : option (Z * Z) :=
  if devid =? AMD_ID_F040B then Some (8, 0x00080000)
  else if devid =? AMD_ID_F016D then Some (32, 0x00200000)
  else if devid =? AMD_ID_F032B then Some (64, 0x00400000)
  else None.

Definition flash_get_size (addr : Z) (info : flash_info) (st : St) : Z * flash_info * St :=
  let st := udelay 10 (fwrite addr 0xF0 st) in
  let st := udelay 10 (fwrite (addr + 0x555) 0xAA st) in
  let st := udelay 10 (fwrite (addr + 0x2AA) 0x55 st) in
  let st := udelay 10 (fwrite (addr + 0x555) 0x90 st) in
  let '(vendor, st) := fread addr st in
  let '(devid, st) := fread (addr + 1) st in
  if vendor .& 0xff =? u8 AMD_MANUFACT then
    match device_geometry (devid .& 0xff) with
    | Some (n, sz) =>
        let info := FlashInfo sz n (FLASH_MAN_AMD .| (devid .& 0xff)) (start info) (protect info) in
        let '(info, st) := sector_loop (Z.to_nat n) 0 addr info st in
        (sz, info, fwrite (start info !!! O) 0xF0 st)
    | None => (0, FlashInfo (size info) (sector_count info) FLASH_UNKNOWN (start info) (protect info), st)
    end
  else (0, FlashInfo 0 0 FLASH_UNKNOWN (start info) (protect info), st).

Definition unknown (info : flash_info) : flash_info :=
  FlashInfo (size info) (sector_count info) FLASH_UNKNOWN (start info) (protect info).

Definition flash_init (monitor_flash_len : Z) (info0 info1 : flash_info) (st : St)
  : Z * flash_info * flash_info * St :=
  let '(size1, info0, st) := flash_get_size FLASH_BASE0_PRELIM (unknown info0) st in
  let '(size2, info1, st) := flash_get_size FLASH_BASE1_PRELIM (unknown info1) st in
  let info0 :=
    if size1 =? 512 * 1024 then
      flash_protect FLAG_PROTECT_SET FLASH_BASE0_PRELIM
        (u32 (FLASH_BASE0_PRELIM + monitor_flash_len - 1)) info0
    else info0 in
  let info1 :=
    if size2 =? 512 * 1024 then
      flash_protect FLAG_PROTECT_SET FLASH_BASE1_PRELIM
        (u32 (FLASH_BASE1_PRELIM + monitor_flash_len - 1)) info1
    else info1 in
  let info1 :=
    if size2 =? 4 * 1024 * 1024 then
      flash_protect FLAG_PROTECT_SET CONFIG_SYS_FLASH_BASE
        (u32 (CONFIG_SYS_FLASH_BASE + monitor_flash_len - 1)) info1
    else info1 in
  (u32 (size1 + size2), info0, info1, st).

(** ** Writing across banks (common/flash.c) *)

(** Some protected sector of the bank meets [addr, end]. *)
Definition protected_hit (info : flash_info) (addr end_ : Z) : bool :=
  let b_end := u32 (start info !!! O + size info) in
  let s_end := s16 (sector_count info - 1) in
  existsb (fun i =>
      let e_addr := if Z.of_nat i =? s_end then b_end else start info !!! S i in
      (start info !!! i <=? end_) && (addr <? e_addr) && negb (protect info !!! i =? 0))
    (seq 0 (Z.to_nat (sector_count info))).

(** for (info = info_first; info <= info_last && cnt>0; ++info) *)
Fixpoint flash_write_loop (fuel : nat) (infos : list flash_info) (src : list Z) (addr : Z) (st : St)
  : option (Z * St) :=
  match infos with
  | [] => Some (ERR_OK, st)
  | info :: infos =>
      match src with
      | [] => Some (ERR_OK, st)
      | _ =>
          let len := u32 (start info !!! O + size info - addr) in
          let len := if zlen src <? len then zlen src else len in
          match write_buff fuel info (take (Z.to_nat len) src) addr st with
          | None => None
          | Some (rc, st) =>
              if negb (rc =? 0) then Some (rc, st)
              else flash_write_loop fuel infos (drop (Z.to_nat len) src) (u32 (addr + len)) st
          end
      end
  end.

Definition flash_write (fuel : nat) (banks : list flash_info) (src : list Z) (addr : Z) (st : St)
  : option (Z * St) :=
  let end_ := u32 (addr + zlen src - 1) in
  match src with
  | [] => Some (ERR_OK, st)
  | _ =>
      match addr2info banks 0 addr, addr2info banks 0 end_ with
      | Some first, Some last =>
          let infos := take (S last - first) (drop first banks) in
          if existsb (fun info => protected_hit info addr end_) infos
          then Some (ERR_PROTECTED, st)
          else flash_write_loop fuel infos src addr st
      | _, _ => Some (ERR_INVAL, st)
      end
  end.
End driver.

(** * Properties *)

(** ** Sector protection *)

(** The last address of sector [i] in a bank whose sectors follow each other. *)
Definition sector_end (info : flash_info) (i : nat) : Z :=
  if Z.of_nat i =? sector_count info - 1 then start info !!! O + size info - 1
  else start info !!! S i - 1.

(** The bank is known, its sector table is filled, and it ends inside the
    address space. *)
Definition bank_ok (info : flash_info) : Prop :=
  flash_id info <> FLASH_UNKNOWN /\ 0 < sector_count info <= 67 /\
  length (start info) = CONFIG_SYS_MAX_FLASH_SECT /\ length (protect info) = CONFIG_SYS_MAX_FLASH_SECT /\
  0 <= start info !!! O /\ 0 < size info /\ start info !!! O + size info <= 2 ^ 32 /\
  (forall i, (S i < Z.to_nat (sector_count info))%nat -> start info !!! i < start info !!! S i) /\
  (forall i, (i < Z.to_nat (sector_count info))%nat -> start info !!! i < start info !!! O + size info).

Lemma s16_count n : 0 < n <= 67 -> s16 (n - 1) = n - 1.
Proof.
  intros H. unfold s16, swrap, wrap. change (2 ^ 16) with 65536. change (2 ^ (16 - 1)) with 32768.
  rewrite Z.mod_small by lia. cbv zeta. replace (n - 1 <? 32768) with true by lia. reflexivity.
Qed.

Lemma start_mono info i : bank_ok info -> (i < Z.to_nat (sector_count info))%nat -> start info !!! O <= start info !!! i.
Proof.
  intros (_ & _ & _ & _ & _ & _ & _ & Hm & _). induction i as [|i IH]; intros Hi; [lia|].
  specialize (IH ltac:(lia)). specialize (Hm i Hi). lia.
Qed.

Lemma sector_end_u32 info i : bank_ok info -> (i < Z.to_nat (sector_count info))%nat ->
  (if Z.of_nat i =? sector_count info - 1 then u32 (start info !!! O + size info - 1)
   else u32 (start info !!! S i - 1)) = sector_end info i.
Proof.
  intros H Hi. pose proof H as (_ & Hc & _ & _ & H0 & Hs & He & Hm & Ht). unfold sector_end.
  change (2 ^ 32) with 4294967296 in He. destruct (Z.eqb_spec (Z.of_nat i) (sector_count info - 1)).
  - apply u32_small. lia.
  - pose proof (start_mono info i H Hi). specialize (Hm i ltac:(lia)). specialize (Ht (S i) ltac:(lia)).
    apply u32_small. lia.
Qed.

(** Set or clear the protection byte of the sectors that meet [from, to]. *)
Definition touches (info : flash_info) (from to : Z) (i : nat) : bool :=
  (from <=? sector_end info i) && (start info !!! i <=? to).

Lemma protect_loop_spec flag v from to info :
  (flag = FLAG_PROTECT_SET /\ v = 1) \/ (flag = FLAG_PROTECT_CLEAR /\ v = 0) -> bank_ok info ->
  forall n i p,
  (i + n = Z.to_nat (sector_count info))%nat -> length p = CONFIG_SYS_MAX_FLASH_SECT ->
  exists p',
    protect_loop n i flag from to (sector_count info - 1) (u32 (start info !!! O + size info - 1))
      (FlashInfo (size info) (sector_count info) (flash_id info) (start info) p) =
    FlashInfo (size info) (sector_count info) (flash_id info) (start info) p' /\
    length p' = CONFIG_SYS_MAX_FLASH_SECT /\
    forall j, p' !!! j = if (i <=? j)%nat && (j <? i + n)%nat && touches info from to j then v else p !!! j.
Proof.
  intros Hf Hb. induction n as [|n IH]; intros i p Hn Hl; cbn [protect_loop].
  - exists p. split_and!; auto. intros j. replace ((i <=? j)%nat && (j <? i + 0)%nat) with false; [reflexivity|].
    symmetry. destruct (Nat.leb_spec i j), (Nat.ltb_spec j (i + 0)); cbn; auto; lia.
  - cbn [start size sector_count flash_id protect set_protect]. rewrite sector_end_u32 by (auto; lia).
    fold (touches info from to i).
    set (q := if touches info from to i then <[i := v]> p else p).
    match goal with |- context [protect_loop n (S i) flag from to _ _ ?x] =>
      replace x with (FlashInfo (size info) (sector_count info) (flash_id info) (start info) q) end.
    2:{ subst q. destruct Hf as [[-> ->]|[-> ->]]; destruct (touches info from to i); reflexivity. }
    destruct (IH (S i) q) as (p' & E & Hl' & Hp'); [lia|subst q; destruct (touches _ _ _ _); len_tac|].
    exists p'. split; [exact E|]. split; [exact Hl'|]. intros j. rewrite Hp'.
    pose proof Hb as (_ & Hc & _). unfold CONFIG_SYS_MAX_FLASH_SECT in *.
    destruct (Nat.eq_dec j i) as [->|Hj].
    + replace ((S i <=? i)%nat) with false by (symmetry; apply Nat.leb_gt; lia).
      replace ((i <=? i)%nat) with true by (symmetry; apply Nat.leb_le; lia).
      replace ((i <? i + S n)%nat) with true by (symmetry; apply Nat.ltb_lt; lia). cbn [andb]. subst q.
      destruct (touches info from to i); [|reflexivity]. apply list_lookup_total_insert_eq. lia.
    + assert (q !!! j = p !!! j) as ->.
      { subst q. destruct (touches info from to i); [|reflexivity]. apply list_lookup_total_insert_ne. auto. }
      replace ((i <=? j)%nat) with ((S i <=? j)%nat).
      * replace (i + S n)%nat with (S i + n)%nat by lia. reflexivity.
      * destruct (Nat.leb_spec (S i) j), (Nat.leb_spec i j); auto; lia.
Qed.

(** [flash_protect] sets (or clears) the protection of exactly the sectors
    that meet the address range, and changes nothing else of the bank. *)
Theorem flash_protect_correct flag v from to info :
  (flag = FLAG_PROTECT_SET /\ v = 1) \/ (flag = FLAG_PROTECT_CLEAR /\ v = 0) -> bank_ok info -> from <= to ->
  let info' := flash_protect flag from to info in
  (size info', sector_count info', flash_id info', start info') =
    (size info, sector_count info, flash_id info, start info) /\
  forall i, protect info' !!! i =
    if (i <? Z.to_nat (sector_count info))%nat && touches info from to i then v else protect info !!! i.
Proof.
  intros Hf Hb Hft. pose proof Hb as (Hid & Hc & Hl1 & Hl2 & H0 & Hs & He & Hm & Ht). unfold flash_protect.
  rewrite !(proj2 (Z.eqb_neq _ _)), (proj2 (Z.ltb_ge _ _)) by lia. cbn [orb].
  rewrite s16_count by lia. set (b_end := u32 (start info !!! O + size info - 1)).
  assert (b_end = start info !!! O + size info - 1) as Eb
    by (change (2 ^ 32) with 4294967296 in He; apply u32_small; lia).
  destruct ((to <? start info !!! O) || (b_end <? from)) eqn:E.
  - split; [reflexivity|]. intros i. destruct (Nat.ltb_spec i (Z.to_nat (sector_count info))) as [Hi|]; [|reflexivity].
    replace (touches info from to i) with false; [reflexivity|]. symmetry. unfold touches, sector_end.
    pose proof (start_mono info i Hb Hi). specialize (Ht (S i)). case_z; cbn; auto; try lia.
  - destruct (protect_loop_spec flag v from to info Hf Hb (Z.to_nat (sector_count info)) 0 (protect info))
      as (p' & E' & _ & Hp'); [lia|exact Hl2|].
    destruct info as [isz icnt iid ist ipr]. cbn [size sector_count flash_id start protect] in *.
    subst b_end. rewrite E'. cbn [size sector_count flash_id start protect]. split; [reflexivity|exact Hp'].
Qed.

(** A 29F032 at [base]: 64 sectors of 64 KB. *)
Definition bank_at (base : Z) : flash_info :=
  FlashInfo 0x400000 64 AMD_ID_F032B
    ((fun i => if (i <? 64)%nat then base + Z.of_nat i * 0x10000 else 0) <$> seq 0 67)
    (replicate 67 0).
Definition bank0 : flash_info := bank_at FLASH_BASE0_PRELIM.
Definition bank1 : flash_info := bank_at FLASH_BASE1_PRELIM.

Lemma bank_start base i : (i < 64)%nat -> start (bank_at base) !!! i = base + Z.of_nat i * 0x10000.
Proof.
  intros Hi. apply list_lookup_total_correct. unfold bank_at, start.
  rewrite list_lookup_fmap, lookup_seq_lt by lia. cbn [fmap option_fmap option_map Nat.add].
  rewrite (proj2 (Nat.ltb_lt _ _)) by lia. reflexivity.
Qed.

Lemma bank_at_ok base : 0 <= base -> base + 0x400000 <= 2 ^ 32 -> bank_ok (bank_at base).
Proof.
  intros H1 H2. pose proof (bank_start base) as Hs. unfold bank_ok.
  change (sector_count (bank_at base)) with 64. change (size (bank_at base)) with 0x400000.
  change (Z.to_nat 64) with 64%nat. rewrite (Hs 0%nat) by lia. change (Z.of_nat 0) with 0.
  split_and!; try lia; try reflexivity.
  - vm_compute. congruence.
  - intros i Hi. rewrite !Hs by lia. lia.
  - intros i Hi. rewrite !Hs by lia. lia.
Qed.

Lemma bank_at_ok_protect base i v :
  0 <= base -> base + 0x400000 <= 2 ^ 32 -> bank_ok (set_protect (bank_at base) i v).
Proof.
  intros H1 H2. destruct (bank_at_ok base H1 H2) as (B1 & B2 & B3 & B4 & B5 & B6 & B7 & B8 & B9).
  unfold bank_ok, set_protect in *. cbn [flash_id sector_count size start protect] in *.
  rewrite length_insert. auto 10.
Qed.

Lemma bank1_ok : bank_ok bank1.
Proof. apply bank_at_ok; vm_compute; congruence. Qed.

(** The boot monitor at the flash base covers sectors 48 to 51. *)
Lemma flash_protect_correct_witness :
  (forall i, protect (flash_protect FLAG_PROTECT_SET 0xfff00000 0xfff3ffff bank1) !!! i =
    if (i <? 64)%nat && touches bank1 0xfff00000 0xfff3ffff i then 1 else protect bank1 !!! i) /\
  filter (fun i => touches bank1 0xfff00000 0xfff3ffff i = true) (seq 0 64) = [48; 49; 50; 51]%nat.
Proof.
  split; [|vm_compute; reflexivity].
  apply (flash_protect_correct FLAG_PROTECT_SET 1 0xfff00000 0xfff3ffff bank1); [left; auto|apply bank1_ok|lia].
Defined.

(** The protection check of [flash_write] computes the end of the bank as an
    address: at the top of the address space it wraps to 0 and the last sector
    is never found protected. *)
Definition locked1 : flash_info := set_protect bank1 63 1.
Lemma protected_hit_last_sector :
  protected_hit locked1 0xffff0000 0xffff0003 = false /\
  flash_protect FLAG_PROTECT_SET 0xffff0000 0xffffffff bank1 = locked1.
Proof. split; vm_compute; reflexivity. Qed.

(** ** The chips *)

(** The contents after sector [s] is erased. *)
Definition wipe (ssize s : Z) (m : mem) : mem :=
  fun r => if (s <=? r) && (r <? s + ssize) then 0xff else m r.

(** What the data sheet promises of the bank at [base]: the contents, and the
    modes the command sequences lead through.  [busy a v k m D] is the
    embedded program algorithm, with D7 complemented for [k] more reads and
    finished by time [D]; [selecting] collects the sectors to erase, [erasing]
    is the erase algorithm.  [polls] bounds the reads within the timeouts. *)
Class FlashChip (St : Type) `{FlashBus St} (base bsize ssize : Z) (polls : nat) := {
  array : St -> mem;
  clock : St -> Z;
  ready : St -> Prop;
  busy : Z -> Z -> nat -> mem -> Z -> St -> Prop;
  selecting : option Z -> mem -> St -> Prop;
  erasing : Z -> nat -> mem -> Z -> St -> Prop;
  array_u8 : forall st a, is_u8 (array st a);
  ready_read : forall st a, ready st -> base <= a < base + bsize ->
    let '(v, st') := fread a st in
    v = array st a /\ ready st' /\ forall r, array st' r = array st r;
  ready_irq : forall st, ready st ->
    let '(_, st') := disable_interrupts st in ready st' /\ forall r, array st' r = array st r;
  program : forall st a v, ready st -> base <= a < base + bsize -> is_u8 v -> v .& array st a = v ->
    let st' := fwrite a v (fwrite (base + ADDR0) 0xA0 (fwrite (base + ADDR1) 0x55 (fwrite (base + ADDR0) 0xAA st))) in
    exists k, (k <= polls)%nat /\ busy a v k (array st) (clock st' + CONFIG_SYS_FLASH_WRITE_TOUT) st';
  busy_irq : forall st a v k m D, busy a v k m D st ->
    busy a v k m D (enable_interrupts st) /\ clock st <= clock (enable_interrupts st);
  busy_time : forall st a v k m D, busy a v k m D st ->
    let '(t, st') := timestamp st in t = u32 (clock st) /\ clock st <= clock st' <= D /\ busy a v k m D st';
  busy_read : forall st a v k m D, busy a v k m D st ->
    let '(x, st') := fread a st in
    match k with
    | O => x = v /\ ready st' /\ forall r, array st' r = upd m a v r
    | S k => x .& 0x80 <> v .& 0x80 /\ clock st <= clock st' <= D /\ busy a v k m D st'
    end;
  erase_unlock : forall st, ready st -> selecting None (array st) (unlock_erase base st);
  erase_select : forall st o m s, selecting o m st -> base <= s < base + bsize ->
    selecting (Some s) (wipe ssize s m) (fwrite s 0x30 st);
  selecting_irq : forall st o m, selecting o m st -> selecting o m (enable_interrupts st);
  selecting_wait : forall st m, selecting None m st -> selecting None m (udelay 1000 st);
  selecting_reset : forall st m, selecting None m st ->
    ready (fwrite base 0xF0 st) /\ forall r, array (fwrite base 0xF0 st) r = m r;
  erase_start : forall st s m, selecting (Some s) m st ->
    exists k, (k <= polls)%nat /\
      erasing s k m (clock (udelay 1000 st) + CONFIG_SYS_FLASH_ERASE_TOUT) (udelay 1000 st);
  erasing_time : forall st s k m D, erasing s k m D st ->
    let '(t, st') := timestamp st in t = u32 (clock st) /\ clock st <= clock st' <= D /\ erasing s k m D st';
  erasing_read : forall st s k m D, erasing s k m D st ->
    let '(x, st') := fread s st in
    match k with
    | O => x = 0xff /\ ready (fwrite base 0xF0 st') /\ forall r, array (fwrite base 0xF0 st') r = m r
    | S k => x .& 0x80 = 0 /\ clock st <= clock st' <= D /\ erasing s k m D st'
    end
}.

Section chip.
Context {St : Type} {bus : FlashBus St} {base bsize ssize : Z} {polls : nat}.
Context {chip : FlashChip St base bsize ssize polls}.

Lemma elapsed c0 t limit : c0 <= t <= c0 + limit -> limit < 2 ^ 32 -> u32 (u32 t - u32 c0) = t - c0.
Proof.
  intros H1 H2. unfold u32, wrap. rewrite <- Zminus_mod. apply Z.mod_small. lia.
Qed.

(** Data polling ends within [k] rounds, the timer inside its limit. *)
Lemma write_poll_spec fuel : forall k a v m D c0 st,
  busy a v k m D st -> D <= c0 + CONFIG_SYS_FLASH_WRITE_TOUT -> c0 <= clock st -> (k < fuel)%nat ->
  exists st', write_poll fuel a v (u32 c0) st = Some (false, st') /\ ready st' /\
    forall r, array st' r = upd m a v r.
Proof.
  induction fuel as [|fuel IH]; intros k a v m D c0 st Hb HD Hc Hk; [lia|]. cbn [write_poll].
  pose proof (busy_read st a v k m _ Hb) as Hr. destruct (fread a st) as [x st1]. destruct k as [|k].
  - destruct Hr as (-> & Hy & Ha). rewrite Z.eqb_refl. exists st1. auto.
  - destruct Hr as (Hx & Hc1 & Hb1). rewrite (proj2 (Z.eqb_neq _ _)) by exact Hx. unfold get_timer.
    pose proof (busy_time st1 a v k m _ Hb1) as Ht. destruct (timestamp st1) as [t st2].
    destruct Ht as (-> & Hc2 & Hb2). unfold CONFIG_SYS_FLASH_WRITE_TOUT in *.
    rewrite (elapsed c0 (clock st1) 500) by lia. rewrite (proj2 (Z.ltb_ge _ _)) by lia.
    apply (IH k _ _ _ D); auto; lia.
Qed.

Lemma erase_poll_spec fuel : forall k s m D c0 st,
  erasing s k m D st -> D <= c0 + CONFIG_SYS_FLASH_ERASE_TOUT -> c0 <= clock st -> (k < fuel)%nat ->
  exists st', erase_poll fuel s (u32 c0) st = Some (false, st') /\
    ready (fwrite base 0xF0 st') /\ forall r, array (fwrite base 0xF0 st') r = m r.
Proof.
  induction fuel as [|fuel IH]; intros k s m D c0 st Hb HD Hc Hk; [lia|]. cbn [erase_poll].
  pose proof (erasing_read st s k m _ Hb) as Hr. destruct (fread s st) as [x st1]. destruct k as [|k].
  - destruct Hr as (-> & Hy & Ha). exists st1. auto.
  - destruct Hr as (Hx & Hc1 & Hb1). rewrite Hx. cbn [Z.eqb]. unfold get_timer.
    pose proof (erasing_time st1 s k m _ Hb1) as Ht. destruct (timestamp st1) as [t st2].
    destruct Ht as (-> & Hc2 & Hb2). unfold CONFIG_SYS_FLASH_ERASE_TOUT in *.
    rewrite (elapsed c0 (clock st1) 120000) by lia. rewrite (proj2 (Z.ltb_ge _ _)) by lia.
    apply (IH k _ _ D); auto; lia.
Qed.

(** A cell may be programmed when no bit has to go from 0 to 1. *)
Definition programmable (m : mem) (a : Z) (l : list Z) : Prop :=
  forall i c, l !! i = Some c -> c .& m (a + Z.of_nat i) = c.

Lemma programmable_cons m a c l :
  programmable m a (c :: l) <-> c .& m a = c /\ programmable m (a + 1) l.
Proof.
  split.
  - intros H. split; [rewrite <- (Z.add_0_r a) at 1; apply (H 0%nat); reflexivity|].
    intros i d Hi. replace (a + 1 + Z.of_nat i) with (a + Z.of_nat (S i)) by lia. apply (H (S i)). exact Hi.
  - intros [H1 H2] [|i] d Hi; cbn in Hi.
    + injection Hi as ->. rewrite Z.add_0_r. exact H1.
    + replace (a + Z.of_nat (S i)) with (a + 1 + Z.of_nat i) by lia. apply H2. exact Hi.
Qed.

Lemma programmable_ext m m' a l :
  (forall x, a <= x < a + zlen l -> m' x = m x) -> programmable m a l -> programmable m' a l.
Proof.
  intros He H i c Hi. rewrite He; [apply H; exact Hi|].
  apply lookup_lt_Some in Hi. unfold zlen. lia.
Qed.

(** What a successful programming of [l] at [a] leaves. *)
Definition programmed (a : Z) (l : list Z) (st st' : St) : Prop :=
  ready st' /\ bytes_at (array st') a l /\ same_outside a (a + zlen l) (array st) (array st').

Lemma write_bytes_spec info fuel l : forall a flag st,
  start info !!! O = base -> (polls < fuel)%nat -> ready st -> base <= a -> a + zlen l <= base + bsize ->
  Forall is_u8 l -> programmable (array st) a l ->
  exists st', write_bytes fuel base a l flag st = Some (0, st') /\ programmed a l st st'.
Proof.
  induction l as [|c l IH]; intros a flag st Hs Hf Hr H1 H2 Hu Hp; cbn [write_bytes].
  - exists st. split; [reflexivity|]. split_and!; [exact Hr|exact I|apply same_outside_refl].
  - zlen_simpl. pose proof (zlen_nonneg l). apply programmable_cons in Hp as [Hc Hp].
    inversion Hu as [|? ? Hcu Hu']; subst.
    destruct (program st a c Hr ltac:(lia) Hcu Hc) as (k & Hk & Hb). cbv zeta in Hb.
    set (st1 := fwrite a c _) in *. set (D := clock st1 + CONFIG_SYS_FLASH_WRITE_TOUT) in *.
    assert (exists st2, (if flag then enable_interrupts st1 else st1) = st2 /\
      busy a c k (array st) D st2 /\ clock st1 <= clock st2) as (st2 & -> & Hb2 & Hc2).
    { destruct flag; eexists; (split; [reflexivity|]); [apply busy_irq; exact Hb|split; [exact Hb|lia]]. }
    unfold get_timer. pose proof (busy_time st2 a c k _ D Hb2) as Ht. destruct (timestamp st2) as [t st3].
    destruct Ht as (-> & Hc3 & Hb3). rewrite Z.sub_0_r, u32_u32.
    destruct (write_poll_spec fuel k a c (array st) D (clock st2) st3 Hb3) as (st4 & -> & Hy & Ha);
      [subst D; lia|lia|lia|].
    destruct (IH (a + 1) flag st4) as (st' & E & Hr' & Hb' & Ho'); auto; try lia.
    + eapply programmable_ext; [|exact Hp]. intros x Hx. rewrite Ha. apply upd_ne. lia.
    + exists st'. split; [exact E|]. split; [exact Hr'|]. split.
      * split; [|exact Hb']. rewrite Ho' by lia. rewrite Ha. apply upd_eq.
      * intros x Hx. zlen_simpl. rewrite Ho', Ha by lia. apply upd_ne. lia.
Qed.

Lemma word_bytes_pack c0 c1 c2 c3 :
  is_u8 c0 -> is_u8 c1 -> is_u8 c2 -> is_u8 c3 ->
  word_bytes (u32 ((u32 ((u32 ((u32 ((0 .<< 8) .| c0) .<< 8) .| c1) .<< 8) .| c2) .<< 8) .| c3)) = [c0; c1; c2; c3] /\
  u8 (u32 ((u32 ((u32 ((u32 ((0 .<< 8) .| c0) .<< 8) .| c1) .<< 8) .| c2) .<< 8) .| c3)) = c3.
Proof.
  unfold in_word. change (2 ^ 8) with 256. intros H0 H1 H2 H3.
  rewrite !lor_add_disjoint by (change (2 ^ 8) with 256; lia). change (2 ^ 8) with 256.
  rewrite (u32_small (0 * 256 + c0)), (u32_small ((0 * 256 + c0) * 256 + c1)),
    (u32_small (((0 * 256 + c0) * 256 + c1) * 256 + c2)), u32_small by lia.
  unfold word_bytes, u8, wrap. rewrite !Z.shiftr_div_pow2 by lia.
  change (2 ^ 24) with 16777216. change (2 ^ 16) with 65536. change (2 ^ 8) with 256.
  split; [|Z.div_mod_to_equations; lia].
  repeat (apply (f_equal2 cons); [Z.div_mod_to_equations; lia|]). reflexivity.
Qed.

(** Programming one word. *)
Lemma write_word_spec info fuel a c0 c1 c2 c3 st data :
  start info !!! O = base -> (polls < fuel)%nat -> ready st -> base <= a -> a + 4 <= base + bsize ->
  word_bytes data = [c0; c1; c2; c3] -> u8 data = c3 -> Forall is_u8 [c0; c1; c2; c3] ->
  programmable (array st) a [c0; c1; c2; c3] -> c3 .& array st a = c3 ->
  exists st', write_word fuel info a data st = Some (0, st') /\ programmed a [c0; c1; c2; c3] st st'.
Proof.
  intros Hs Hf Hr H1 H2 Hw Hd Hu Hp H3. unfold write_word.
  pose proof (ready_read st a Hr ltac:(lia)) as R. destruct (fread a st) as [v st1]. destruct R as (-> & Hr1 & Ha1).
  rewrite Hd, Z.land_comm, H3, Z.eqb_refl. cbn [negb].
  pose proof (ready_irq st1 Hr1) as R. destruct (disable_interrupts st1) as [flag st2]. destruct R as [Hr2 Ha2].
  rewrite Hw, Hs.
  destruct (write_bytes_spec info fuel [c0; c1; c2; c3] a flag st2) as (st' & E & Hr' & Hb' & Ho'); auto.
  - eapply programmable_ext; [|exact Hp]. intros x Hx. rewrite Ha2. apply Ha1.
  - exists st'. split; [exact E|]. split_and!; [exact Hr'|apply Hb'..|].
    intros x Hx. rewrite Ho' by exact Hx. rewrite Ha2. apply Ha1.
Qed.

Definition push (data c : Z) : Z := u32 ((data .<< 8) .| c).

Lemma pack_src_spec src : forall n data,
  (length src <= n)%nat -> pack_src n src data = (fold_left push src data, [], (n - length src)%nat).
Proof.
  induction src as [|c src IH]; intros [|n] data Hn; cbn [length] in *; try lia; cbn [pack_src fold_left].
  - reflexivity.
  - reflexivity.
  - rewrite IH by lia. reflexivity.
Qed.

Lemma pack_flash_spec n : forall cp data st,
  ready st -> base <= cp -> cp + Z.of_nat n <= base + bsize ->
  exists st', pack_flash n cp data st = (fold_left push (read_bytes (array st) cp n) data, st') /\
    ready st' /\ forall r, array st' r = array st r.
Proof.
  induction n as [|n IH]; intros cp data st Hr H1 H2; cbn [pack_flash read_bytes fold_left].
  - exists st. auto.
  - pose proof (ready_read st cp Hr ltac:(lia)) as R. destruct (fread cp st) as [v st1]. destruct R as (-> & Hr1 & Ha1).
    destruct (IH (cp + 1) (push data (array st cp)) st1) as (st' & E & Hr' & Ha'); auto; try lia.
    exists st'. split; [|split; [exact Hr'|intros; rewrite Ha', Ha1; reflexivity]].
    change (u32 ((data .<< 8) .| array st cp)) with (push data (array st cp)). rewrite E.
    rewrite (read_bytes_ext (array st) (array st1)) with (a := cp + 1); [reflexivity|auto].
Qed.

Definition erased (m : mem) (a n : Z) : Prop := forall x, a <= x < a + n -> m x = 0xff.

Lemma land_ff c : is_u8 c -> c .& 0xff = c.
Proof. intros H. rewrite land_255. apply u8_small. exact H. Qed.

Lemma read_bytes_array st a n : Forall is_u8 (read_bytes (array st) a n).
Proof. revert a. induction n; intros; cbn [read_bytes]; constructor; auto using array_u8. Qed.

(** The bytes [src] over erased cells, completed to a word with what is there. *)
Lemma programmable_word st a src n :
  Forall is_u8 src -> erased (array st) a (zlen src) ->
  programmable (array st) a (src ++ read_bytes (array st) (a + zlen src) n).
Proof.
  intros Hu He i c Hi. destruct (decide (i < length src)%nat) as [Hl|Hl].
  - rewrite lookup_app_l in Hi by exact Hl. rewrite He by (unfold zlen; lia).
    apply land_ff. rewrite List.Forall_forall in Hu. apply Hu. rewrite <- list_elem_of_In.
    apply list_elem_of_lookup_2 in Hi. exact Hi.
  - rewrite lookup_app_r in Hi by lia.
    assert (i - length src < n)%nat as Hn by (apply lookup_lt_Some in Hi; rewrite length_read_bytes in Hi; lia).
    rewrite read_bytes_lookup in Hi by exact Hn. injection Hi as <-.
    replace (a + zlen src + Z.of_nat (i - length src)) with (a + Z.of_nat i) by (unfold zlen; lia).
    apply Z.land_diag.
Qed.

Lemma write_short info fuel a src data st :
  start info !!! O = base -> (polls < fuel)%nat -> ready st -> base <= a -> a + 4 <= base + bsize ->
  src <> [] -> (length src <= 4)%nat -> Forall is_u8 src -> erased (array st) a (zlen src) ->
  data = fold_left push (src ++ read_bytes (array st) (a + zlen src) (4 - length src)) 0 ->
  exists st', write_word fuel info a data st = Some (0, st') /\ programmed a src st st'.
Proof.
  intros Hs Hf Hr H1 H2 Hn Hl Hu He ->.
  pose proof (programmable_word st a src (4 - length src) Hu He) as Hp.
  assert (Forall is_u8 (src ++ read_bytes (array st) (a + zlen src) (4 - length src))) as Hu4
    by (apply Forall_app; split; [exact Hu|apply read_bytes_array]).
  set (l := src ++ _) in *.
  assert (length l = 4%nat) as Hl4 by (subst l; rewrite length_app, length_read_bytes; lia).
  destruct l as [|c0 [|c1 [|c2 [|c3 [|]]]]] eqn:El; try discriminate Hl4. subst l.
  inversion Hu4 as [|? ? U0 Hu3]; subst. inversion Hu3 as [|? ? U1 Hu2]; subst.
  inversion Hu2 as [|? ? U2 Hu1]; subst. inversion Hu1 as [|? ? U3 _]; subst.
  destruct (word_bytes_pack c0 c1 c2 c3 U0 U1 U2 U3) as [W1 W2].
  assert (array st a = 0xff) as Ea.
  { apply He. destruct src; [congruence|]. zlen_simpl. pose proof (zlen_nonneg src). lia. }
  destruct (write_word_spec info fuel a c0 c1 c2 c3 st _ Hs Hf Hr H1 H2 W1 W2 Hu4 Hp) as (st' & E & Hr' & Hb' & Ho').
  { rewrite Ea. apply land_ff. exact U3. }
  exists st'. split; [exact E|]. rewrite <- El, bytes_at_app in Hb'. destruct Hb' as [Hb1 Hb2].
  split_and!; [exact Hr'|exact Hb1|]. intros x Hx. destruct (decide (a <= x < a + 4)) as [Hin|Hout].
  - assert (exists i, (i < 4 - length src)%nat /\ x = a + zlen src + Z.of_nat i) as (i & Hi & ->).
    { exists (Z.to_nat (x - a - zlen src)). unfold zlen in *. lia. }
    apply read_bytes_at in Hb2. rewrite length_read_bytes in Hb2.
    pose proof (f_equal (lookup i) Hb2) as Hi2. rewrite !read_bytes_lookup in Hi2 by exact Hi.
    injection Hi2 as Hi2. exact Hi2.
  - apply Ho'. change (zlen [c0; c1; c2; c3]) with 4. exact Hout.
Qed.

Lemma programmed_app a l k st st1 st2 :
  programmed a l st st1 -> programmed (a + zlen l) k st1 st2 -> programmed a (l ++ k) st st2.
Proof.
  intros (Hr1 & Hb1 & Ho1) (Hr2 & Hb2 & Ho2). pose proof (zlen_nonneg l). pose proof (zlen_nonneg k).
  split_and!; [exact Hr2| |].
  - apply bytes_at_app. split; [|exact Hb2]. eapply bytes_at_ext; [|exact Hb1]. intros x Hx. apply Ho2. lia.
  - intros x Hx. zlen_simpl. rewrite Ho2, Ho1 by lia. reflexivity.
Qed.

Lemma write_aligned_spec info fuel n : forall wp src st,
  (length src <= n)%nat -> start info !!! O = base -> (polls < fuel)%nat ->
  (base + bsize) mod 4 = 0 -> base + bsize <= 2 ^ 32 -> 0 <= base ->
  ready st -> base <= wp -> wp mod 4 = 0 -> wp + zlen src <= base + bsize ->
  Forall is_u8 src -> erased (array st) wp (zlen src) ->
  exists st', write_aligned fuel info wp src st = Some (0, st') /\ programmed wp src st st'.
Proof.
  induction n as [|n IH]; intros wp src st Hn Hs Hf Hm Ht H0 Hr H1 Hw H2 Hu He.
  { destruct src; [|simpl in Hn; lia]. exists st. split; [reflexivity|].
    split_and!; [exact Hr|exact I|apply same_outside_refl]. }
  destruct (decide (length src < 4)%nat) as [Hlt|Hge].
  - destruct src as [|c0 src0] eqn:Esrc.
    { exists st. split; [reflexivity|]. split_and!; [exact Hr|exact I|apply same_outside_refl]. }
    rewrite <- Esrc in *. assert (src <> []) as Hne by (subst src; discriminate).
    assert (wp + 4 <= base + bsize) as Hw4.
    { assert (1 <= zlen src) by (subst src; zlen_simpl; pose proof (zlen_nonneg src0); lia).
      clear - Hm Hw H2 H. Z.div_mod_to_equations. lia. }
    assert (write_aligned fuel info wp src st =
      let '(data, st) := pack_flash (4 - length src) (wp + zlen src) (fold_left push src 0) st in
      write_word fuel info wp data st) as ->.
    { assert (pack_src 4 src 0 = (fold_left push src 0, [], (4 - length src)%nat)) as Ep
        by (apply pack_src_spec; lia).
      subst src. destruct src0 as [|c1 [|c2 [|]]]; cbn [write_aligned]; rewrite ?Ep; try reflexivity.
      simpl in Hlt. lia. }
    destruct (pack_flash_spec (4 - length src) (wp + zlen src) (fold_left push src 0) st Hr)
      as (st1 & -> & Hr1 & Ha1); [pose proof (zlen_nonneg src); lia|unfold zlen in *; lia|].
    destruct (write_short info fuel wp src
      (fold_left push (read_bytes (array st) (wp + zlen src) (4 - length src)) (fold_left push src 0)) st1)
      as (st' & E & P); auto; try lia.
    + intros x Hx. rewrite Ha1. apply He. exact Hx.
    + rewrite <- fold_left_app. do 2 f_equal. apply read_bytes_ext. intros. symmetry. apply Ha1.
    + exists st'. split; [exact E|]. destruct P as (P1 & P2 & P3). split_and!; auto.
      intros x Hx. rewrite P3, Ha1 by exact Hx. reflexivity.
  - destruct src as [|c0 [|c1 [|c2 [|c3 rest]]]]; try (cbn [length] in Hge; lia).
    cbn [write_aligned]. rewrite (pack_src_spec [c0; c1; c2; c3]) by (cbn; lia).
    change (c0 :: c1 :: c2 :: c3 :: rest) with ([c0; c1; c2; c3] ++ rest) in *.
    rewrite zlen_app in H2. change (zlen [c0; c1; c2; c3]) with 4 in H2. pose proof (zlen_nonneg rest).
    apply Forall_app in Hu as [Hu1 Hu2].
    destruct (write_short info fuel wp [c0; c1; c2; c3] (fold_left push [c0; c1; c2; c3] 0) st)
      as (st1 & -> & P); auto; try lia; try discriminate.
    { intros x Hx. apply He. zlen_simpl. lia. }
    cbn [Z.eqb negb]. pose proof P as (Hr1 & _ & Ho1). change (zlen [c0; c1; c2; c3]) with 4 in Ho1.
    destruct rest as [|c4 rest'] eqn:Er.
    + exists st1. split; [reflexivity|]. rewrite app_nil_r. exact P.
    + rewrite <- Er in *. assert (1 <= zlen rest) by (subst rest; zlen_simpl; pose proof (zlen_nonneg rest'); lia).
      change (2 ^ 32) with 4294967296 in Ht. rewrite u32_small by lia.
      destruct (IH (wp + 4) rest st1) as (st' & E & P'); auto; try lia.
      * len_tac.
      * rewrite <- Hw. change 4 with (1 * 4) at 1. apply Z_mod_plus_full.
      * intros x Hx. rewrite Ho1 by lia. apply He. zlen_simpl. lia.
      * exists st'. split; [exact E|]. eapply programmed_app; [exact P|exact P'].
Qed.

(** Programming erased cells at a word-aligned address. *)
Lemma write_buff_spec info fuel src addr st :
  start info !!! O = base -> (polls < fuel)%nat ->
  0 <= base -> (base + bsize) mod 4 = 0 -> base + bsize <= 2 ^ 32 ->
  ready st -> base <= addr < 2 ^ 32 -> addr mod 4 = 0 -> addr + zlen src <= base + bsize ->
  Forall is_u8 src -> erased (array st) addr (zlen src) ->
  exists st', write_buff fuel info src addr st = Some (0, st') /\
    ready st' /\ bytes_at (array st') addr src /\
    same_outside addr (addr + zlen src) (array st) (array st').
Proof.
  intros Hs Hf H0 Hm Ht Hr H1 Ha H2 Hu He. unfold write_buff.
  assert (addr .& not32 3 = addr) as ->.
  { change (not32 3) with (Z.shiftl (Z.ones 30) 2). apply Z.bits_inj'. intros i Hi.
    rewrite Z.land_spec, Z.shiftl_spec by lia. destruct (Z.lt_ge_cases i 2).
    - rewrite (Z.testbit_neg_r (Z.ones 30)), andb_false_r by lia.
      rewrite <- (Z.mod_pow2_bits_low addr 2 i) by lia. change (2 ^ 2) with 4. rewrite Ha. symmetry. apply Z.testbit_0_l.
    - rewrite Z.testbit_ones_nonneg by lia. destruct (Z.ltb_spec (i - 2) 30); [apply andb_true_r|].
      rewrite andb_false_r. symmetry. apply (testbit_high 32); unfold in_word; lia. }
  rewrite Z.sub_diag. cbn [Z.eqb negb].
  apply (write_aligned_spec info fuel (length src)); auto; lia.
Qed.

(** C13: [flash_write] of a range of erased cells at a word-aligned address of a
    known bank, none of its sectors protected, succeeds, leaves the source bytes
    there and every other cell as it was; one round more than the chip's polls
    is enough fuel. *)
Theorem flash_write_correct banks k info fuel src addr st :
  addr2info banks 0 addr = Some k -> addr2info banks 0 (addr + zlen src - 1) = Some k ->
  banks !! k = Some info -> start info !!! O = base -> size info = bsize ->
  protected_hit info addr (addr + zlen src - 1) = false ->
  (polls < fuel)%nat -> 0 < base -> (base + bsize) mod 4 = 0 -> base + bsize <= 2 ^ 32 ->
  ready st -> base <= addr < 2 ^ 32 -> addr mod 4 = 0 -> addr + zlen src <= base + bsize ->
  Forall is_u8 src -> erased (array st) addr (zlen src) ->
  exists st', flash_write fuel banks src addr st = Some (ERR_OK, st') /\
    ready st' /\ bytes_at (array st') addr src /\
    same_outside addr (addr + zlen src) (array st) (array st').
Proof.
  intros A1 A2 Hk Hs Hz Hp Hf H0 Hm Ht Hr Ha Hal He Hu Her. unfold flash_write.
  destruct src as [|c src0] eqn:Es.
  { exists st. split_and!; [reflexivity|exact Hr|exact I|apply same_outside_refl]. }
  rewrite <- Es in *. assert (1 <= zlen src) as Hpos by (subst src; zlen_simpl; pose proof (zlen_nonneg src0); lia).
  change (2 ^ 32) with 4294967296 in *. rewrite u32_small by lia. rewrite A1, A2.
  replace (take (S k - k) (drop k banks)) with [info].
  2:{ replace (S k - k)%nat with 1%nat by lia. rewrite (drop_S banks info k) by exact Hk. reflexivity. }
  cbn [existsb]. rewrite Hp. cbn [orb flash_write_loop]. 
  assert (forall A (x y : A), match src with [] => x | _ :: _ => y end = y) as -> by (subst src; reflexivity).
  rewrite Hs, Hz.
  rewrite (u32_small (base + bsize - addr)) by lia.
  assert ((if zlen src <? base + bsize - addr then zlen src else base + bsize - addr) = zlen src) as ->
    by (destruct (Z.ltb_spec (zlen src) (base + bsize - addr)); lia).
  assert (take (Z.to_nat (zlen src)) src = src) as -> by (apply take_ge; unfold zlen; lia).
  destruct (write_buff_spec info fuel src addr st) as (st' & -> & P); auto; try lia.
  exists st'. split; [reflexivity|exact P].
Qed.

(** ** Erasing *)

(** The address is in an unprotected one of the [n] sectors from [sect] on. *)
Definition in_sectors (info : flash_info) (sect n : nat) (r : Z) : bool :=
  existsb (fun i => (protect info !!! i =? 0) && (start info !!! i <=? r) && (r <? start info !!! i + ssize))
    (seq sect n).

Lemma erase_loop_spec info n : forall sect l m st,
  flash_id info .& FLASH_MAN_SST = 0 ->
  (forall i, (sect <= i < sect + n)%nat -> base <= start info !!! i < base + bsize) ->
  selecting (option_map (fun i => start info !!! i) l) m st ->
  let '(l', st') := erase_loop n sect info l st in
  exists m', selecting (option_map (fun i => start info !!! i) l') m' st' /\
    forall r, m' r = if in_sectors info sect n r then 0xff else m r.
Proof.
  induction n as [|n IH]; intros sect l m st Hid Hin Hs; cbn [erase_loop].
  - exists m. split; [exact Hs|reflexivity].
  - assert (forall i, (S sect <= i < S sect + n)%nat -> base <= start info !!! i < base + bsize) as Hin'
      by (intros i Hi; apply Hin; lia).
    unfold in_sectors. cbn [seq existsb]. fold (in_sectors info (S sect) n).
    destruct (Z.eqb_spec (protect info !!! sect) 0) as [Hp|Hp]; cbn [andb orb].
    + rewrite Hid. cbn [Z.eqb negb].
      specialize (IH (S sect) (Some sect) _ _ Hid Hin' (erase_select _ _ _ _ Hs (Hin sect ltac:(lia)))).
      destruct (erase_loop n (S sect) info _ _) as [l' st']. destruct IH as (m' & Hs' & Hm').
      exists m'. split; [exact Hs'|]. intros r. rewrite Hm'. fold (in_sectors info (S sect) n r).
      destruct (in_sectors info (S sect) n r); [rewrite orb_true_r; reflexivity|].
      rewrite orb_false_r. reflexivity.
    + specialize (IH (S sect) l m st Hid Hin' Hs).
      destruct (erase_loop n (S sect) info _ _) as [l' st']. exact IH.
Qed.

(** C32: [flash_erase] on known chips always ends within the chip's polls and
    sets to 0xff exactly the cells of the unprotected sectors asked for; the
    protected ones and the rest of the bank keep their contents. *)
Theorem flash_erase_correct info fuel s_first s_last st :
  start info !!! O = base -> (polls < fuel)%nat ->
  flash_id info <> FLASH_UNKNOWN -> flash_id info <= FLASH_AMD_COMP -> flash_id info .& FLASH_MAN_SST = 0 ->
  0 <= s_first <= s_last ->
  (forall i, s_first <= Z.of_nat i <= s_last -> base <= start info !!! i < base + bsize) -> ready st ->
  exists st', flash_erase fuel info s_first s_last st = Some (0, st') /\ ready st' /\
    forall r, array st' r =
      if in_sectors info (Z.to_nat s_first) (Z.to_nat (s_last - s_first + 1)) r then 0xff else array st r.
Proof.
  intros Hs Hf Hu Hc Hid Hr Hin Hy. unfold flash_erase.
  rewrite !(proj2 (Z.ltb_ge _ _)), (proj2 (Z.eqb_neq _ _)) by lia. cbn [orb]. rewrite Hs.
  pose proof (ready_irq st Hy) as R. destruct (disable_interrupts st) as [flag st1]. destruct R as [Hy1 Ha1].
  pose proof (erase_loop_spec info (Z.to_nat (s_last - s_first + 1)) (Z.to_nat s_first) None (array st1)
    (unlock_erase base st1) Hid ltac:(intros i Hi; apply Hin; lia) (erase_unlock st1 Hy1)) as L.
  destruct (erase_loop _ _ _ _ _) as [l st2]. destruct L as (m & Hsel & Hm).
  assert (selecting (option_map (fun i => start info !!! i) l) m (if flag then enable_interrupts st2 else st2)) as Hsel2
    by (destruct flag; [apply selecting_irq|]; exact Hsel).
  destruct l as [i|]; cbn [option_map] in Hsel2.
  - destruct (erase_start _ _ _ Hsel2) as (k & Hk & He). set (st3 := udelay 1000 _) in *. unfold get_timer.
    pose proof (erasing_time _ _ _ _ _ He) as Ht. destruct (timestamp st3) as [t st4]. destruct Ht as (-> & Hc4 & He4).
    rewrite Z.sub_0_r, u32_u32.
    destruct (erase_poll_spec fuel k _ m _ (clock st3) st4 He4) as (st5 & -> & Hy5 & Ha5); [lia|lia|lia|].
    eexists. split; [reflexivity|]. split; [exact Hy5|]. intros r. rewrite Ha5, Hm, Ha1. reflexivity.
  - destruct (selecting_reset _ _ (selecting_wait _ _ Hsel2)) as [Hy3 Ha3].
    eexists. split; [reflexivity|]. split; [exact Hy3|]. intros r. rewrite Ha3, Hm, Ha1. reflexivity.
Qed.
End chip.

(** C33: when a protected sector of a bank between the first and the last address
    meets the range, [flash_write] returns ERR_PROTECTED and the machine is not
    touched at all (for banks that end below the top of the address space). *)
Theorem flash_write_protected `{FlashBus St} fuel banks src addr first last b info i (st : St) :
  src <> [] -> 0 <= addr -> addr + zlen src <= 2 ^ 32 ->
  addr2info banks 0 addr = Some first -> addr2info banks 0 (addr + zlen src - 1) = Some last ->
  (first <= b <= last)%nat -> banks !! b = Some info -> bank_ok info ->
  start info !!! O + size info < 2 ^ 32 -> (i < Z.to_nat (sector_count info))%nat ->
  protect info !!! i <> 0 -> touches info addr (addr + zlen src - 1) i = true ->
  flash_write fuel banks src addr st = Some (ERR_PROTECTED, st).
Proof.
  intros Hn H0 Hw A1 A2 Hb Hi Hok Htop Hic Hp Ht. unfold flash_write.
  destruct src as [|c src0] eqn:Es; [congruence|]. rewrite <- Es in *.
  assert (1 <= zlen src) by (subst src; zlen_simpl; pose proof (zlen_nonneg src0); lia).
  change (2 ^ 32) with 4294967296 in *. rewrite u32_small by lia. rewrite A1, A2.
  assert (existsb (fun info => protected_hit info addr (addr + zlen src - 1))
    (take (S last - first) (drop first banks)) = true) as ->; [|reflexivity].
  apply existsb_exists. exists info. split.
  - apply list_elem_of_In, list_elem_of_lookup. exists (b - first)%nat.
    rewrite lookup_take_lt, lookup_drop by lia. replace (first + (b - first))%nat with b by lia. exact Hi.
  - unfold protected_hit. apply existsb_exists. exists i. split; [apply in_seq; lia|].
    pose proof Hok as (_ & Hc & _ & _ & Hst & Hs & _ & Hm & Hmt). rewrite s16_count by lia.
    rewrite (u32_small (start info !!! O + size info)) by lia.
    unfold touches, sector_end in Ht. apply andb_true_iff in Ht as [T1 T2].
    rewrite T2. cbn [andb]. apply andb_true_iff. split; [|apply negb_true_iff, Z.eqb_neq; exact Hp].
    destruct (Z.of_nat i =? sector_count info - 1); apply Z.ltb_lt; lia.
Qed.

(** ** A simulated chip

    The command decoder of the 29F032 as a state machine: two polls for a
    program operation, two for an erase, one tick per read. *)

Inductive chip_mode :=
| MRead | MUnlock1 | MUnlock2 | MProgram | MErase | MErase1
| MBusy (a v : Z) (k : nat)
| MSelect (s : option Z)
| MErasing (k : nat)
| MErased.

Record sim := Sim { cells : mem; mode : chip_mode; ticks : Z }.

Section sim.
Context (base ssize : Z).

Definition sim_cells (st : sim) : mem := fun r => u8 (cells st r).

Definition sim_write (a v : Z) (st : sim) : sim :=
  let '(Sim c md t) := st in
  let hit off w := (a =? base + off) && (v =? w) in
  match md with
  | MRead => Sim c (if hit ADDR0 0xAA then MUnlock1 else MRead) t
  | MUnlock1 => Sim c (if hit ADDR1 0x55 then MUnlock2 else MRead) t
  | MUnlock2 => Sim c (if hit ADDR0 0xA0 then MProgram else if hit ADDR0 0x80 then MErase else MRead) t
  | MProgram => Sim c (MBusy a v 2) t
  | MErase => Sim c (if hit ADDR0 0xAA then MErase1 else MRead) t
  | MErase1 => Sim c (if hit ADDR1 0x55 then MSelect None else MRead) t
  | MSelect s =>
      if v =? 0x30 then Sim (wipe ssize a c) (MSelect (Some a)) t
      else if v =? 0xF0 then Sim c MRead t else st
  | MErased => if v =? 0xF0 then Sim c MRead t else st
  | _ => st
  end.

Definition sim_read (a : Z) (st : sim) : Z * sim :=
  let '(Sim c md t) := st in
  match md with
  | MBusy p v (S k) => (u8 (Z.lxor v 0x80), Sim c (MBusy p v k) (t + 1))
  | MBusy p v O => (v, Sim (upd c p v) MRead (t + 1))
  | MErasing (S k) => (0, Sim c (MErasing k) (t + 1))
  | MErasing O => (0xff, Sim c MErased (t + 1))
  | _ => (u8 (c a), Sim c md (t + 1))
  end.

#[local] Instance sim_bus : FlashBus sim := {
  fread := sim_read;
  fwrite := sim_write;
  timestamp := fun st => (u32 (ticks st), st);
  udelay := fun _ st =>
    match mode st with MSelect (Some _) => Sim (cells st) (MErasing 2) (ticks st) | _ => st end;
  disable_interrupts := fun st => (true, st);
  enable_interrupts := fun st => st
}.

Lemma d7_flips v : is_u8 v -> u8 (Z.lxor v 0x80) .& 0x80 <> v .& 0x80.
Proof.
  intros Hv. assert (negb (u8 (Z.lxor v 0x80) .& 0x80 =? v .& 0x80) = true) as E.
  { apply (forall_below_spec 256 (fun v => negb (u8 (Z.lxor v 0x80) .& 0x80 =? v .& 0x80)) eq_refl v Hv). }
  apply negb_true_iff, Z.eqb_neq in E. exact E.
Qed.

#[local] Instance sim_chip bsize : FlashChip sim base bsize ssize 2.
Proof.
  refine {|
    array := sim_cells;
    clock := ticks;
    ready := fun st => mode st = MRead;
    busy := fun a v k m D st =>
      mode st = MBusy a v k /\ is_u8 v /\ (forall r, sim_cells st r = m r) /\ ticks st + Z.of_nat k <= D;
    selecting := fun o m st => mode st = MSelect o /\ forall r, sim_cells st r = m r;
    erasing := fun s k m D st =>
      mode st = MErasing k /\ (forall r, sim_cells st r = m r) /\ ticks st + Z.of_nat k <= D |}.
  - intros st a. apply u8_range.
  - intros [c md t] a Hm _. cbn in *. subst md. auto.
  - intros st Hr. cbn. auto.
  - intros [c md t] a v Hm _ Hv _. cbn in Hm. subst md.
    do 4 (cbn -[ADDR0 ADDR1 CONFIG_SYS_FLASH_WRITE_TOUT]; rewrite ?Z.eqb_refl). cbn -[CONFIG_SYS_FLASH_WRITE_TOUT].
    exists 2%nat. unfold CONFIG_SYS_FLASH_WRITE_TOUT. split_and!; auto; lia.
  - intros st a v k m D H. cbn. split; [exact H|lia].
  - intros [c md t] a v k m D (Hm & Hv & Hc & Ht). cbn in *. split_and!; auto; lia.
  - intros [c md t] a v k m D (Hm & Hv & Hc & Ht). cbn in Hm. subst md. destruct k as [|k]; cbn.
    + split_and!; auto. intros r. unfold sim_cells in *. cbn in *. unfold upd. destruct (r =? a); [apply u8_small; exact Hv|apply Hc].
    + cbn in Ht. split_and!; auto using d7_flips; lia.
  - intros [c md t] Hm. cbn in Hm. subst md. unfold unlock_erase.
    do 6 (cbn -[ADDR0 ADDR1]; rewrite ?Z.eqb_refl). cbn. auto.
  - intros [c md t] o m s [Hm Hc] _. cbn in Hm. subst md. cbn. split; [reflexivity|].
    intros r. unfold sim_cells, wipe in *. cbn in *. destruct (_ && _); [reflexivity|apply Hc].
  - intros st o m H. exact H.
  - intros [c md t] m [Hm Hc]. cbn in Hm. subst md. cbn. auto.
  - intros [c md t] m [Hm Hc]. cbn in Hm. subst md. cbn. auto.
  - intros [c md t] s m [Hm Hc]. cbn in Hm. subst md. cbn -[CONFIG_SYS_FLASH_ERASE_TOUT].
    exists 2%nat. unfold CONFIG_SYS_FLASH_ERASE_TOUT. split_and!; auto; lia.
  - intros [c md t] s k m D (Hm & Hc & Ht). cbn in *. split_and!; auto; lia.
  - intros [c md t] s k m D (Hm & Hc & Ht). cbn in Hm. subst md. destruct k as [|k]; cbn.
    + auto.
    + cbn in Ht. split_and!; auto; lia.
Defined.
End sim.

Definition blank : sim := Sim (fun _ => 0xff) MRead 0.
Definition ssize1 : Z := 0x10000.
(** The side conditions of the examples, by evaluation. *)
Ltac ex_side :=
  solve [ lia
        | apply Nat.ltb_lt; vm_compute; reflexivity
        | apply all_u8_spec; vm_compute; reflexivity
        | intros ? _; reflexivity
        | vm_compute; first [reflexivity | congruence | split; congruence] ].

Definition ex_banks : list flash_info := [bank0; bank1].

Lemma flash_write_correct_witness :
  exists st', flash_write (H := sim_bus FLASH_BASE1_PRELIM ssize1) 3 ex_banks (str "U-Boot") 0xffc00100 blank =
      Some (ERR_OK, st') /\
    bytes_at (sim_cells st') 0xffc00100 (str "U-Boot") /\ sim_cells st' 0xffc00106 = 0xff.
Proof.
  destruct (flash_write_correct (chip := sim_chip FLASH_BASE1_PRELIM ssize1 0x400000)
    ex_banks 1 bank1 3 (str "U-Boot") 0xffc00100 blank) as (st' & E & _ & Hb & Ho);
    [ex_side ..|].
  - exists st'. split; [exact E|]. split; [exact Hb|].
    change (sim_cells st' 0xffc00106) with (array (FlashChip := sim_chip FLASH_BASE1_PRELIM ssize1 0x400000) st' 0xffc00106).
    rewrite Ho; [reflexivity|]. vm_compute. intuition congruence.
Defined.

(** The monitor's first sector is locked. *)
Lemma flash_write_protected_witness :
  flash_write (H := sim_bus FLASH_BASE0_PRELIM ssize1) 3 [set_protect bank0 2 1; bank1] (str "abc") 0xff82fffe blank =
    Some (ERR_PROTECTED, blank).
Proof.
  apply (flash_write_protected (H := sim_bus FLASH_BASE0_PRELIM ssize1) 3 _ (str "abc") 0xff82fffe 0 0 0 (set_protect bank0 2 1) 2);
    [ex_side|ex_side|ex_side|ex_side|ex_side|ex_side|ex_side| |ex_side ..].
  apply bank_at_ok_protect; vm_compute; congruence.
Defined.

Lemma flash_erase_correct_witness :
  exists st', flash_erase (H := sim_bus FLASH_BASE1_PRELIM ssize1) 3 (set_protect bank1 3 1) 2 3
      (Sim (fun _ => 0) MRead 0) = Some (0, st') /\
    sim_cells st' 0xffc20000 = 0xff /\ sim_cells st' 0xffc30000 = 0.
Proof.
  destruct (flash_erase_correct (chip := sim_chip FLASH_BASE1_PRELIM ssize1 0x400000)
    (set_protect bank1 3 1) 3 2 3 (Sim (fun _ => 0) MRead 0)) as (st' & E & _ & Ha);
    [ex_side|ex_side|ex_side|ex_side|ex_side|ex_side| |ex_side|].
  - intros i Hi. change (start (set_protect bank1 3 1)) with (start bank1).
    unfold bank1. rewrite bank_start by lia. unfold FLASH_BASE1_PRELIM. lia.
  - exists st'. split; [exact E|].
    pose proof (Ha 0xffc20000) as H2. pose proof (Ha 0xffc30000) as H3.
    cbn [array sim_chip] in H2, H3. rewrite H2, H3. split; vm_compute; reflexivity.
Defined.

(** A write that starts inside a word is refused when the byte in front of it
    is programmed: the check compares that byte with the last byte of the word. *)
Lemma write_buff_unaligned_refused :
  option_map fst (write_buff (H := sim_bus FLASH_BASE1_PRELIM ssize1) 3 bank1 [0x12] 0xffc00103
    (Sim (upd (fun _ => 0xff) 0xffc00100 0) MRead 0)) = Some ERR_NOT_ERASED.
Proof. vm_compute. reflexivity. Qed.
