(* ===== verification/Load.v ===== *)
(** * Serial download and upload (common/s_record.c, common/cmd_load.c)

    Motorola S-records: the decoder, the loads command that stores the records
    it receives, and the saves command that writes a memory region as
    records.  Where the data goes is a typeclass, with the RAM and the board
    (RAM and flash) as instances.  The serial line is the list of the characters
    received; [None] waits for more. *)

From S2P Require Import Prelude CMem Strto Vsprintf Flash.

Definition SREC_START : Z := 0.
Definition SREC_DATA2 : Z := 1.
Definition SREC_DATA3 : Z := 2.
Definition SREC_DATA4 : Z := 3.
Definition SREC_COUNT : Z := 5.
Definition SREC_END4 : Z := 7.
Definition SREC_END3 : Z := 8.
Definition SREC_END2 : Z := 9.
Definition SREC_EMPTY : Z := 10.
Definition SREC_E_BADTYPE : Z := -1.
Definition SREC_E_NOSREC : Z := -2.
Definition SREC_E_BADCHKS : Z := -3.
Definition SREC_MAXRECLEN : nat := 516.
Definition SREC_MAXBINLEN : Z := 255.

(** ** Decoding one record *)

Definition hex1_bin (c : Z) : Z :=
  if (chr "0" <=? c) && (c <=? chr "9") then c - chr "0"
  else if (chr "a" <=? c) && (c <=? chr "f") then c + 10 - chr "a"
  else if (chr "A" <=? c) && (c <=? chr "F") then c + 10 - chr "A"
  else -1.

Definition hex2_bin (s : list Z) : Z :=
  let i := hex1_bin (cur s) in
  if i <? 0 then -1
  else
    let j := hex1_bin (cur (tl s)) in
    if j <? 0 then -1 else (i .<< 4) + j.

(** What the decoder leaves in its output parameters: the count, the address and
    the bytes stored at [data]. *)
Record srec := Srec { count : Z; addr : Z; data : list Z }.

(** Everything up to and with the first 'S'. *)
Fixpoint skip_S (input : list Z) : list Z :=
  match input with
  | [] => []
  | c :: input => if c =? chr "S" then input else skip_S input
  end.

(** The record type and the bytes of the count that are not data. *)
Definition srec_class (v : Z) : option (Z * Z) :=
  if v =? chr "0" then Some (SREC_START, 3)
  else if v =? chr "1" then Some (SREC_DATA2, 3)
  else if v =? chr "2" then Some (SREC_DATA3, 4)
  else if v =? chr "3" then Some (SREC_DATA4, 5)
  else if v =? chr "5" then Some (SREC_COUNT, 0)
  else if v =? chr "7" then Some (SREC_END4, 5)
  else if v =? chr "8" then Some (SREC_END3, 4)
  else if v =? chr "9" then Some (SREC_END2, 3)
  else None.

(** The bytes of the address field. *)
Definition srec_addr_len (v : Z) : nat :=
  if (v =? chr "3") || (v =? chr "7") then 4
  else if (v =? chr "2") || (v =? chr "8") then 3
  else if (v =? chr "0") || (v =? chr "1") || (v =? chr "5") || (v =? chr "9") then 2
  else 0.

(** The address bytes: [inl] the address read so far, on an error. *)
Fixpoint read_addr (n : nat) (input : list Z) (addr chksum : Z) : Z + (Z * Z * list Z) :=
  match n with
  | O => inr (addr, chksum, input)
  | S n =>
      let v := hex2_bin input in
      if v <? 0 then inl addr
      else read_addr n (tl (tl input)) (u32 (u32 (addr .<< 8) + v)) (u8 (chksum + v))
  end.

(** The data bytes: [false] when a digit is wrong. *)
Fixpoint read_data (n : nat) (input : list Z) (chksum : Z) (data : list Z)
  : bool * list Z * Z * list Z :=
  match n with
  | O => (true, data, chksum, input)
  | S n =>
      let v := hex2_bin input in
      if v <? 0 then (false, data, chksum, input)
      else read_data n (tl (tl input)) (u8 (chksum + v)) (data ++ [v])
  end.

Definition srec_decode (input : list Z) (out : srec) : Z * srec :=
  match skip_S input with
  | [] => (SREC_EMPTY, out)
  | v :: input =>
      let n := hex2_bin input in
      if n <? 0 then (SREC_E_NOSREC, Srec n (addr out) [])
      else
        let input := tl (tl input) in
        match srec_class v with
        | None => (SREC_E_BADTYPE, Srec n (addr out) [])
        | Some (srec_type, over) =>
            let cnt := if v =? chr "5" then 0 else n - over in
            match srec_addr_len v with
            | O => (SREC_E_BADTYPE, Srec cnt 0 [])
            | alen =>
                match read_addr alen input 0 (u8 n) with
                | inl a => (SREC_E_NOSREC, Srec cnt a [])
                | inr (a, chksum, input) =>
                    let '(ok, bytes, chksum, input) := read_data (Z.to_nat cnt) input chksum [] in
                    if negb ok then (SREC_E_NOSREC, Srec cnt a bytes)
                    else
                      let v := hex2_bin input in
                      if v <? 0 then (SREC_E_NOSREC, Srec cnt a bytes)
                      else if negb (u8 v =? u8 (Z.lnot chksum)) then (SREC_E_BADCHKS, Srec cnt a bytes)
                      else (srec_type, Srec cnt a bytes)
                end
            end
        end
  end.

(** ** loads *)

(** One line, at most [n] characters; -1 for NUL and Ctrl-C.  (The console is the
    serial line, so the hangup test does not apply.) *)
Fixpoint read_record (n : nat) (input buf : list Z) : option (Z * list Z * list Z) :=
  match n with
  | O => Some (zlen buf, buf, input)
  | S n =>
      match input with
      | [] => None
      | c :: input =>
          if (c =? 13) || (c =? 10) then Some (zlen buf, buf, input)
          else if (c =? 0) || (c =? 3) then Some (-1, buf, input)
          else read_record n input (buf ++ [c])
      end
  end.

(** Where the records go. *)
Class LoadTarget (T : Type) := {
  is_flash : Z -> T -> bool;
  flash_store : list Z -> Z -> T -> Z * T;
  ram_store : Z -> list Z -> T -> T;
  set_filesize : list Z -> T -> T
}.

(** The end of a download: the result and the rest of the input, or a copy of
    [binlen] < 0 bytes, which memcpy() takes as 2^32 + [binlen] and runs over
    the whole address space. *)
Inductive load_result (T : Type) :=
| Loaded (result : Z) (input : list Z) (t : T)
| Overrun (store_addr binlen : Z) (t : T).
Arguments Loaded {T} _ _ _.
Arguments Overrun {T} _ _ _.

Section loads.
Context {T : Type} `{LoadTarget T}.

Definition NOT0 : Z := 0xffffffff.

(** while (read_record(...) >= 0): the result is the entry address or ~0. *)
Fixpoint load_loop (fuel : nat) (input : list Z) (offset start_addr end_addr : Z) (out : srec) (t : T)
  : option (load_result T) :=
  match fuel with
  | O => None
  | S f =>
      match read_record SREC_MAXRECLEN input [] with
      | None => None
      | Some (len, record, input) =>
          if len <? 0 then Some (Loaded NOT0 input t)
          else
            let '(type, out) := srec_decode record out in
            if type <? 0 then Some (Loaded NOT0 input t)
            else if (type =? SREC_DATA2) || (type =? SREC_DATA3) || (type =? SREC_DATA4) then
              let store_addr := u32 (addr out + offset) in
              let bytes := data out in
              if count out <? 0 then Some (Overrun store_addr (count out) t) else
              let '(rc, t) :=
                if is_flash store_addr t then flash_store bytes store_addr t
                else (0, ram_store store_addr bytes t) in
              if negb (rc =? 0) then Some (Loaded NOT0 input t)
              else
                let start_addr := if store_addr <? start_addr then store_addr else start_addr in
                let last := u32 (store_addr + count out - 1) in
                let end_addr := if end_addr <? last then last else end_addr in
                load_loop f input offset start_addr end_addr out t
            else if (type =? SREC_END2) || (type =? SREC_END3) || (type =? SREC_END4) then
              let size := u32 (end_addr - start_addr + 1) in
              match vsprintf (str "%lX") [Aint size] with
              | Some (buf, _) => Some (Loaded (addr out) input (set_filesize buf t))
              | None => None
              end
            else load_loop f input offset start_addr end_addr out t
      end
  end.

Definition load_serial (input : list Z) (offset : Z) (out : srec) (t : T) : option (load_result T) :=
  load_loop (S (length input)) input offset NOT0 0 out t.

(** The loads command: its arguments, the result code and the new load_addr. *)
Definition do_load_serial (argv : list (list Z)) (input : list Z) (load_addr : Z) (out : srec) (t : T)
  : option (Z * Z * T) :=
  let offset := match argv with [_; a] => (simple_strtol a 16).1 | _ => 0 end in
  match load_serial input offset out t with
  | None | Some (Overrun _ _ _) => None
  | Some (Loaded a _ t) => if a =? NOT0 then Some (1, load_addr, t) else Some (0, a, t)
  end.
End loads.

(** Plain memory, with the filesize variable. *)
#[export] Instance ram_target : LoadTarget (mem * list Z) := {
  is_flash := fun _ _ => false;
  flash_store := fun _ _ t => (0, t);
  ram_store := fun a bytes t => (put_bytes (fst t) a bytes, snd t);
  set_filesize := fun s t => (fst t, s)
}.

(** The board: two flash banks on their bus, and the RAM. *)
Definition board_target {St} `{FlashBus St} (fuel : nat) (banks : list flash_info)
  : LoadTarget (St * mem * list Z) := {|
  is_flash := fun a _ => match addr2info banks 0 a with Some _ => true | None => false end;
  flash_store := fun bytes a '(st, m, v) =>
    match flash_write fuel banks bytes a st with
    | Some (rc, st) => (rc, (st, m, v))
    | None => (ERR_TIMOUT, (st, m, v))
    end;
  ram_store := fun a bytes '(st, m, v) => (st, put_bytes m a bytes, v);
  set_filesize := fun s '(st, m, _) => (st, m, s)
|}.

(** ** saves *)

Definition SREC3_START : list Z := str "S0030000FC" ++ [10].
Definition SREC3_FORMAT : list Z := str "S3%02X%08lX%s%02X" ++ [10].
Definition SREC3_END : list Z := str "S70500000000FA" ++ [10].
Definition SREC_BYTES_PER_RECORD : Z := 16.

(** putc() the text, then poll Ctrl-C: the answers left in [brk]. *)
Definition write_record (buf out : list Z) (brk : list bool) : bool * list Z * list bool :=
  match brk with
  | b :: brk => (b, out ++ buf, brk)
  | [] => (false, out ++ buf, [])
  end.

Definition save_hex (c : Z) : list Z :=
  [nth (Z.to_nat ((c .>> 4) .& 0x0f)) digits 0; nth (Z.to_nat (c .& 0x0f)) digits 0].

(** The checksum over the length, the address and the data, complemented. *)
Definition save_checksum (checksum length address : Z) : Z :=
  let checksum := checksum + (length .& 0xff) + ((length .>> 8) .& 0xff) in
  let checksum := checksum + (address .& 0xff) + ((address .>> 8) .& 0xff)
                  + ((address .>> 16) .& 0xff) + ((address .>> 24) .& 0xff) in
  Z.lnot checksum .& 0xff.

(** do { ... } while(count): [count] bytes left at [address + reclen], the output
    so far; [None] is an abort (or an ill-formed format). *)
Fixpoint save_loop (count : nat) (m : mem) (address reclen checksum : Z) (hex out : list Z)
    (brk : list bool) : option (list Z * list bool) :=
  match count with
  | O => Some (out, brk)
  | S count =>
      let c := m (u32 (address + reclen)) in
      let checksum := checksum + c in
      let hex := hex ++ save_hex c in
      let reclen := reclen + 1 in
      if (reclen =? SREC_BYTES_PER_RECORD) || (count =? 0)%nat then
        let length := 4 + reclen + 1 in
        match vsprintf SREC3_FORMAT [Aint length; Aint address; Astr (Some hex);
                                     Aint (save_checksum checksum length address)] with
        | None => None
        | Some (record, _) =>
            let '(b, out, brk) := write_record record out brk in
            if b then None
            else save_loop count m (u32 (address + reclen)) 0 0 [] out brk
        end
      else save_loop count m address reclen checksum hex out brk
  end.

Definition save_serial (m : mem) (address : Z) (count : nat) (brk : list bool)
  : option (list Z) :=
  let '(b, out, brk) := write_record SREC3_START [] brk in
  if b then None
  else
    match save_loop count m address 0 0 [] out brk with
    | None => None
    | Some (out, brk) =>
        let '(b, out, _) := write_record SREC3_END out brk in
        if b then None else Some out
    end.

(** * Properties *)

(** ** Hexadecimal text *)

Definition hexd (v : Z) : Z := nth (Z.to_nat v) digits 0.
Definition hex2 (v : Z) : list Z := [hexd (v / 16); hexd (v mod 16)].
Definition hex_text (l : list Z) : list Z := concat (map hex2 l).

Lemma hex2_bin_hex2 v rest : is_u8 v -> hex2_bin (hex2 v ++ rest) = v.
Proof.
  intros Hv. change (hex2_bin (hex2 v ++ rest)) with (hex2_bin (hex2 v)).
  apply Z.eqb_eq. apply (forall_below_spec 256 (fun v => hex2_bin (hex2 v) =? v)); [vm_compute; reflexivity|exact Hv].
Qed.

Lemma save_hex_hex2 v : is_u8 v -> save_hex v = hex2 v.
Proof.
  intros Hv. unfold in_word in Hv. change (2 ^ 8) with 256 in Hv. unfold save_hex, hex2, hexd.
  change 15 with (Z.ones 4). rewrite !Z.land_ones, Z.shiftr_div_pow2 by lia. change (2 ^ 4) with 16.
  rewrite (Z.mod_small (v / 16)) by (Z.div_mod_to_equations; lia). reflexivity.
Qed.

(** Fixed-width upper case hexadecimal. *)
Fixpoint hexn (n : nat) (v : Z) : list Z :=
  match n with O => [] | S n => hexn n (v / 16) ++ [hexd (v mod 16)] end.

Lemma hexn_zero n : hexn n 0 = repeat (chr "0") n.
Proof.
  induction n as [|n IH]; [reflexivity|]. cbn [hexn]. change (0 / 16) with 0. rewrite IH.
  change [hexd (0 mod 16)] with (repeat (chr "0") 1). rewrite <- repeat_app. f_equal. lia.
Qed.

Lemma nibble v : 0 <= v -> nth (Z.to_nat (u8 v .& 15)) digits 0 .| 0 = hexd (v mod 16).
Proof.
  intros Hv. rewrite Z.lor_0_r. unfold hexd, u8, wrap. do 2 f_equal.
  change 15 with (Z.ones 4). rewrite Z.land_ones by lia. change (2 ^ 4) with 16. change (2 ^ 8) with 256.
  Z.div_mod_to_equations. lia.
Qed.

(** The digits written by number(), padded with zeros to [n]. *)
Lemma put_pow2_hexn n : forall fuel v,
  0 < v < 16 ^ Z.of_nat n -> (n <= fuel)%nat ->
  (length (put_pow2 fuel v 15 4 0) <= n)%nat /\
  repeat (chr "0") (n - length (put_pow2 fuel v 15 4 0)) ++ rev (put_pow2 fuel v 15 4 0) = hexn n v.
Proof.
  induction n as [|n IH]; intros fuel v Hv Hf; [change (16 ^ Z.of_nat 0) with 1 in Hv; lia|].
  destruct fuel as [|fuel]; [lia|]. cbn [put_pow2 hexn].
  rewrite Nat2Z.inj_succ, Z.pow_succ_r in Hv by lia.
  rewrite nibble, Z.shiftr_div_pow2 by lia. change (2 ^ 4) with 16.
  destruct (Z.eqb_spec (v / 16) 0) as [E|E].
  - rewrite E, hexn_zero. cbn [length rev app]. split; [lia|]. rewrite Nat.sub_succ, Nat.sub_0_r. reflexivity.
  - destruct (IH fuel (v / 16)) as [H1 H2]; [|lia|].
    + split; [Z.div_mod_to_equations; lia|]. apply Z.div_lt_upper_bound; lia.
    + cbn [length rev]. split; [lia|]. rewrite Nat.sub_succ, app_assoc, H2. reflexivity.
Qed.

Lemma number_hexn n v : (0 < n <= 16)%nat -> 0 <= v < 16 ^ Z.of_nat n ->
  number v 16 (Z.of_nat n) (-1) ZEROPAD = hexn n v.
Proof.
  intros Hn Hv. unfold number. change (flag ZEROPAD SPECIAL && negb (16 =? 10)) with false.
  change (ZEROPAD .& SMALL) with 0. change (flag ZEROPAD LEFT) with false.
  unfold number_sign. change (flag ZEROPAD SIGN) with false. cbv iota.
  change (flag ZEROPAD (ZEROPAD + LEFT)) with true. change (flag ZEROPAD ZEROPAD) with true. change (flag ZEROPAD LEFT) with false.
  cbv iota. change (0 =? 0) with true. cbv iota. unfold number_digits. change (negb (16 =? 10)) with true.
  change (16 =? 16) with true. change (16 - 1) with 15. cbv iota.
  set (tmp := if v =? 0 then [chr "0"] else put_pow2 64 v 15 4 0).
  assert ((length tmp <= n)%nat /\ (0 < length tmp)%nat /\ repeat (chr "0") (n - length tmp) ++ rev tmp = hexn n v)
    as (Hl & H0 & Ht).
  { subst tmp. destruct (Z.eqb_spec v 0) as [->|E].
    - cbn [length rev app]. rewrite hexn_zero. split_and!; try lia.
      change [chr "0"] with (repeat (chr "0") 1). rewrite <- repeat_app. f_equal. lia.
    - destruct (put_pow2_hexn n 64 v ltac:(lia) ltac:(lia)) as [H1 H2]. split_and!; auto.
      cbn [put_pow2 length]. lia. }
  change (if v =? 0 then [chr "0"] else put_pow2 64 v 15 4 0) with tmp.
  rewrite (proj2 (Z.ltb_lt (-1) (zlen tmp))) by (unfold zlen; lia).
  unfold pad. rewrite Z.sub_diag. change (Z.to_nat 0) with O. cbn [repeat app].
  rewrite (proj2 (Z.leb_le 0 (Z.of_nat n - zlen tmp))) by (unfold zlen; lia).
  change (Z.to_nat (-1)) with O. cbn [repeat fst]. rewrite app_nil_r, <- Ht. f_equal. f_equal. unfold zlen. lia.
Qed.

Lemma hexn2 v : is_u8 v -> hexn 2 v = hex2 v.
Proof.
  intros Hv. unfold in_word in Hv. change (2 ^ 8) with 256 in Hv. cbn [hexn app].
  rewrite (Z.mod_small (v / 16)) by (Z.div_mod_to_equations; lia). reflexivity.
Qed.

(** The address as the big-endian bytes of a word. *)
Lemma hexn8 v : is_u32 v -> hexn 8 v = hex_text (word_bytes v).
Proof.
  intros Hv. unfold in_word in Hv. change (2 ^ 32) with 4294967296 in Hv.
  unfold hex_text, word_bytes. cbn [hexn app map concat hex2]. unfold u8, wrap.
  rewrite !Z.shiftr_div_pow2 by lia. change (2 ^ 24) with 16777216. change (2 ^ 16) with 65536. change (2 ^ 8) with 256.
  repeat (apply (f_equal2 cons); [f_equal; Z.div_mod_to_equations; lia|]). reflexivity.
Qed.

(** ** Records *)

Fixpoint sum (l : list Z) : Z := match l with [] => 0 | c :: l => c + sum l end.
Fixpoint be_val (l : list Z) (v : Z) : Z := match l with [] => v | c :: l => be_val l (v * 256 + c) end.

(** The line of a record: count, address, data and checksum in hexadecimal. *)
Definition srec_body (addr data : list Z) : list Z := (zlen addr + zlen data + 1) :: addr ++ data.
Definition srec_line (v : Z) (addr data : list Z) : list Z :=
  chr "S" :: v :: hex_text (srec_body addr data ++ [255 - sum (srec_body addr data) mod 256]).

Lemma hex_text_cons c l : hex_text (c :: l) = hex2 c ++ hex_text l.
Proof. reflexivity. Qed.
Lemma hex_text_app l k : hex_text (l ++ k) = hex_text l ++ hex_text k.
Proof. unfold hex_text. rewrite map_app. apply concat_app. Qed.
Lemma sum_app l k : sum (l ++ k) = sum l + sum k.
Proof. induction l; cbn [app sum]; lia. Qed.
Lemma u8_plus a b : u8 (u8 a + b) = u8 (a + b).
Proof. unfold u8, wrap. apply Z.add_mod_idemp_l. discriminate. Qed.

Lemma be_val_bound l : forall a, Forall is_u8 l -> 0 <= a ->
  a <= be_val l a < (a + 1) * 256 ^ Z.of_nat (length l).
Proof.
  induction l as [|c l IH]; intros a Hu Ha; cbn [be_val length].
  - change (256 ^ Z.of_nat 0) with 1. lia.
  - inversion Hu as [|? ? Hc Hu']; subst. unfold in_word in Hc. change (2 ^ 8) with 256 in Hc.
    specialize (IH (a * 256 + c) Hu' ltac:(lia)). rewrite Nat2Z.inj_succ, Z.pow_succ_r by lia.
    assert (0 < 256 ^ Z.of_nat (length l)) by (apply Z.pow_pos_nonneg; lia). nia.
Qed.

Lemma read_addr_spec l : forall a chk rest,
  Forall is_u8 l -> 0 <= a -> be_val l a < 2 ^ 32 -> chk = u8 chk ->
  read_addr (length l) (hex_text l ++ rest) a chk = inr (be_val l a, u8 (chk + sum l), rest).
Proof.
  induction l as [|c l IH]; intros a chk rest Hu Ha Hv Hk; cbn [length read_addr sum be_val] in *.
  - cbn [app hex_text map concat]. rewrite Z.add_0_r, <- Hk. reflexivity.
  - inversion Hu as [|? ? Hc Hu']; subst. rewrite hex_text_cons, <- app_assoc, hex2_bin_hex2 by exact Hc.
    pose proof Hc as Hc'. unfold in_word in Hc'. change (2 ^ 8) with 256 in Hc'. change (2 ^ 32) with 4294967296 in *.
    rewrite (proj2 (Z.ltb_ge c 0)) by lia. cbn [hex2 app tl].
    pose proof (proj1 (be_val_bound l (a * 256 + c) Hu' ltac:(lia))).
    rewrite Z.shiftl_mul_pow2 by lia. change (2 ^ 8) with 256.
    rewrite (u32_small (a * 256)), u32_small by lia.
    rewrite IH; [|exact Hu'|lia|exact Hv|rewrite u8_u8; reflexivity].
    rewrite u8_plus. do 4 f_equal. lia.
Qed.

Lemma read_data_spec l : forall chk out rest,
  Forall is_u8 l -> chk = u8 chk ->
  read_data (length l) (hex_text l ++ rest) chk out = (true, out ++ l, u8 (chk + sum l), rest).
Proof.
  induction l as [|c l IH]; intros chk out rest Hu Hk; cbn [length read_data sum].
  - cbn [app hex_text map concat]. rewrite Z.add_0_r, <- Hk, app_nil_r. reflexivity.
  - inversion Hu as [|? ? Hc Hu']; subst. rewrite hex_text_cons, <- app_assoc, hex2_bin_hex2 by exact Hc.
    pose proof Hc as Hc'. unfold in_word in Hc'. change (2 ^ 8) with 256 in Hc'.
    rewrite (proj2 (Z.ltb_ge c 0)) by lia. cbn [hex2 app tl].
    rewrite IH; [|exact Hu'|rewrite u8_u8; reflexivity].
    rewrite u8_plus, <- app_assoc. cbn [app]. do 3 f_equal. lia.
Qed.

(** The types with data or an entry address, their code and address length. *)
Definition srec_types : list (Z * Z * nat) :=
  [(chr "0", SREC_START, 2%nat); (chr "1", SREC_DATA2, 2%nat); (chr "2", SREC_DATA3, 3%nat);
   (chr "3", SREC_DATA4, 4%nat); (chr "7", SREC_END4, 4%nat); (chr "8", SREC_END3, 3%nat);
   (chr "9", SREC_END2, 2%nat)].

Lemma srec_types_spec v code n :
  In (v, code, n) srec_types ->
  srec_class v = Some (code, Z.of_nat n + 1) /\ srec_addr_len v = n /\ n <> O /\
  (v =? chr "5") = false.
Proof.
  intros Hin. repeat (destruct Hin as [[= <- <- <-]|Hin]; [repeat split; discriminate|]). destruct Hin.
Qed.

Lemma srec_decode_spec v code addr data out :
  In (v, code, length addr) srec_types -> Forall is_u8 addr -> Forall is_u8 data ->
  zlen addr + zlen data + 1 < 256 ->
  srec_decode (srec_line v addr data) out = (code, Srec (zlen data) (be_val addr 0) data).
Proof.
  intros Ht Ha Hd Hl. destruct (srec_types_spec _ _ _ Ht) as (T1 & T2 & T3 & T4).
  pose proof (zlen_nonneg data). pose proof (zlen_nonneg addr).
  unfold srec_decode, srec_line. cbn [skip_S]. change (chr "S" =? chr "S") with true. cbv iota.
  set (n := zlen addr + zlen data + 1) in *.
  assert (is_u8 n) as Hn by (unfold in_word; change (2 ^ 8) with 256; lia).
  set (s := sum (srec_body addr data)).
  unfold srec_body. fold n. cbn [app]. rewrite hex_text_cons. rewrite hex2_bin_hex2 by exact Hn.
  rewrite (proj2 (Z.ltb_ge n 0)) by lia. rewrite T1, T4, T2.
  change (tl (tl (hex2 n ++ ?x))) with x. cbn [hex2 app tl].
  destruct (length addr) as [|k] eqn:Ek; [congruence|]. rewrite <- Ek.
  rewrite <- !app_assoc, !hex_text_app.
  rewrite (u8_small n) by lia.
  rewrite read_addr_spec; [|exact Ha|lia| |symmetry; apply u8_small; lia].
  2:{ assert (length addr <= 4)%nat as Hl4.
      { repeat (destruct Ht as [[= _ _ <-]|Ht]; [lia|]). destruct Ht. }
      pose proof (be_val_bound addr 0 Ha ltac:(lia)). assert (256 ^ Z.of_nat (length addr) <= 256 ^ 4) by (apply Z.pow_le_mono_r; lia).
      change (256 ^ 4) with (2 ^ 32) in *. lia. }
  replace (Z.to_nat (n - (Z.of_nat (length addr) + 1))) with (length data) by (subst n; unfold zlen; lia).
  rewrite read_data_spec; [|exact Hd|rewrite u8_u8; reflexivity].
  cbn [negb app]. assert (is_u8 (255 - s mod 256)) as Hs.
  { unfold in_word. change (2 ^ 8) with 256. Z.div_mod_to_equations. lia. }
  cbn [hex_text map concat app]. rewrite hex2_bin_hex2 by exact Hs.
  rewrite (proj2 (Z.ltb_ge _ 0)) by apply Hs.
  replace (u8 (u8 (n + sum addr) + sum data)) with (u8 s).
  2:{ rewrite u8_plus. f_equal. subst s. unfold srec_body. cbn [sum]. rewrite sum_app. fold n. lia. }
  replace (u8 (255 - s mod 256) =? u8 (Z.lnot (u8 s))) with true.
  2:{ symmetry. apply Z.eqb_eq. unfold u8, wrap, Z.lnot. change (2 ^ 8) with 256. Z.div_mod_to_equations. lia. }
  cbn [negb]. f_equal. f_equal. subst n. unfold zlen. lia.
Qed.

(** What the decoder stores in the 255 bytes of the caller's buffer. *)
Lemma read_data_length n : forall input chk out,
  (length (read_data n input chk out).1.1.2 <= length out + n)%nat.
Proof.
  induction n as [|n IH]; intros input chk out; cbn [read_data fst snd]; [lia|].
  destruct (_ <? 0); cbn [fst snd]; [lia|]. etransitivity; [apply IH|]. len_tac.
Qed.

Lemma hex2_bin_range s : -1 <= hex2_bin s < 256.
Proof.
  assert (forall c, -1 <= hex1_bin c < 16) as H1.
  { intros c. unfold hex1_bin. change (chr "0") with 48. change (chr "9") with 57. change (chr "a") with 97.
    change (chr "f") with 102. change (chr "A") with 65. change (chr "F") with 70.
    destruct ((48 <=? c) && (c <=? 57)) eqn:E1; [lia|]. destruct ((97 <=? c) && (c <=? 102)) eqn:E2; [lia|].
    destruct ((65 <=? c) && (c <=? 70)) eqn:E3; lia. }
  unfold hex2_bin. pose proof (H1 (cur s)). pose proof (H1 (cur (tl s))). cbv zeta.
  destruct (Z.ltb_spec (hex1_bin (cur s)) 0); [lia|]. destruct (Z.ltb_spec (hex1_bin (cur (tl s))) 0); [lia|].
  rewrite Z.shiftl_mul_pow2 by lia. change (2 ^ 4) with 16. lia.
Qed.

Lemma read_data_done n input chk out :
  (read_data n input chk out).1.1.1 = true -> length (read_data n input chk out).1.1.2 = (length out + n)%nat.
Proof.
  revert input chk out. induction n as [|n IH]; intros input chk out; cbn [read_data fst snd]; [lia|].
  destruct (_ <? 0); cbn [fst snd]; [discriminate|]. intros E. rewrite IH by exact E. len_tac.
Qed.

Lemma srec_class_over v code over : srec_class v = Some (code, over) -> (v =? chr "5") = false -> 3 <= over.
Proof.
  unfold srec_class. intros H E. rewrite E in H.
  repeat match type of H with context [if ?b then _ else _] => destruct b end; try discriminate; injection H as <- <-; lia.
Qed.

(** Whatever text arrives, the decoder stores at most 252 bytes, within the
    255 of the caller's buffer; a record it accepts has as many data bytes as
    its count says (none when the count is negative). *)
Theorem srec_decode_bounds input :
  let '(type, out) := srec_decode input (Srec 0 0 []) in
  zlen (data out) <= SREC_MAXBINLEN - 3 /\
  (0 <= type -> count out <= SREC_MAXBINLEN - 3 /\ zlen (data out) = Z.max 0 (count out)).
Proof.
  unfold srec_decode, SREC_MAXBINLEN.
  assert (forall (P : Prop) c a, P -> zlen (data (Srec c a [])) <= 255 - 3 /\ P) as Hnil
    by (intros; split; [apply Z.leb_le; reflexivity|assumption]).
  destruct (skip_S input) as [|v inp]; [split; [apply Z.leb_le; reflexivity|intros _; split; [apply Z.leb_le; reflexivity|reflexivity]]|]. cbv zeta.
  pose proof (hex2_bin_range inp) as Hr. set (n := hex2_bin inp) in *.
  destruct (Z.ltb_spec n 0); [apply Hnil; intros Hneg; exfalso; apply Hneg; reflexivity|].
  destruct (srec_class v) as [[code over]|] eqn:Ec; [|apply Hnil; intros Hneg; exfalso; apply Hneg; reflexivity].
  destruct (srec_addr_len v) as [|k]; [apply Hnil; intros Hneg; exfalso; apply Hneg; reflexivity|].
  set (cnt := if v =? chr "5" then 0 else n - over).
  assert (cnt <= 252) as Hcnt.
  { subst cnt. destruct (v =? chr "5") eqn:E5; [lia|]. pose proof (srec_class_over _ _ _ Ec E5). lia. }
  destruct (read_addr (S k) _ 0 (u8 n)) as [a|[[a chksum] inp2]]; [apply Hnil; intros Hneg; exfalso; apply Hneg; reflexivity|].
  pose proof (read_data_length (Z.to_nat cnt) inp2 chksum []) as Hlen.
  pose proof (read_data_done (Z.to_nat cnt) inp2 chksum []) as Hdone.
  destruct (read_data (Z.to_nat cnt) inp2 chksum []) as [[[ok bytes] chk2] inp3]. cbn [fst snd length] in *.
  assert (zlen bytes <= 252) by (unfold zlen; lia).
  destruct ok; cbn [negb]; [|split; [cbn [data]; lia|intros Hneg; exfalso; apply Hneg; reflexivity]].
  destruct (_ <? 0); [split; [cbn [data]; lia|intros Hneg; exfalso; apply Hneg; reflexivity]|].
  destruct (negb _); (split; [cbn [data]; lia|]); [intros Hneg; exfalso; apply Hneg; reflexivity|].
  intros _. cbn [count data]. split; [lia|]. unfold zlen. rewrite Hdone by reflexivity. lia.
Qed.

(** ** Uploading a region and loading it back *)

(** The records of [p ++ rest] from [a] on, [p] being collected. *)
Fixpoint recs (a : Z) (p rest : list Z) : list Z :=
  match rest with
  | [] => []
  | c :: rest =>
      let p := p ++ [c] in
      if (zlen p =? 16) || (length rest =? 0)%nat
      then srec_line (chr "3") (word_bytes a) p ++ 10 :: recs (a + zlen p) [] rest
      else recs a p rest
  end.

Lemma vsprintf_srec l a h c :
  vsprintf SREC3_FORMAT [Aint l; Aint a; Astr (Some h); Aint c] =
    let out := (((((([] ++ [chr "S"]) ++ [chr "3"]) ++ number (u32 l) 16 2 (-1) ZEROPAD)
      ++ number (u32 a) 16 8 (-1) ZEROPAD) ++ string (Some h) (-1) (-1) 0)
      ++ number (u32 c) 16 2 (-1) ZEROPAD) ++ [10] in
    Some (out, zlen out).
Proof. reflexivity. Qed.

Lemma string_plain h : string (Some h) (-1) (-1) 0 = h.
Proof.
  unfold string. change (-1 <? 0) with true. cbv iota zeta. change (flag 0 LEFT) with false. cbv iota.
  pose proof (zlen_nonneg h). replace (Z.to_nat (-1 - zlen h)) with O by lia. cbn [repeat app].
  rewrite app_nil_r. apply take_ge. unfold zlen. lia.
Qed.

Lemma word_bytes_u8 a : Forall is_u8 (word_bytes a).
Proof. unfold word_bytes. repeat (constructor; [apply u8_range|]). constructor. Qed.

Lemma be_val_word a : is_u32 a -> be_val (word_bytes a) 0 = a.
Proof.
  intros H. unfold in_word in H. change (2 ^ 32) with 4294967296 in H. unfold word_bytes, u8, wrap. cbn [be_val].
  rewrite !Z.shiftr_div_pow2 by lia. change (2 ^ 24) with 16777216. change (2 ^ 16) with 65536. change (2 ^ 8) with 256.
  Z.div_mod_to_equations. lia.
Qed.

Lemma save_checksum_spec p a :
  0 < zlen p <= 16 -> is_u32 a ->
  save_checksum (sum p) (4 + zlen p + 1) a = 255 - sum (srec_body (word_bytes a) p) mod 256.
Proof.
  intros Hp Ha. unfold in_word in Ha. change (2 ^ 32) with 4294967296 in Ha.
  unfold save_checksum. change 255 with (Z.ones 8). rewrite !Z.land_ones, !Z.shiftr_div_pow2 by lia.
  change (2 ^ 24) with 16777216. change (2 ^ 16) with 65536. change (2 ^ 8) with 256. change (Z.ones 8) with 255.
  unfold srec_body. change (zlen (word_bytes a)) with 4. rewrite (sum_app (_ :: _)) || cbn [sum].
  unfold word_bytes, u8, wrap. cbn [sum app]. rewrite !Z.shiftr_div_pow2 by lia.
  change (2 ^ 24) with 16777216. change (2 ^ 16) with 65536. change (2 ^ 8) with 256. unfold Z.lnot.
  rewrite (Z.mod_small (4 + zlen p + 1)), (Z.div_small (4 + zlen p + 1)), (Z.mod_small 0) by lia.
  set (s := sum p). clearbody s. Z.div_mod_to_equations. lia.
Qed.

(** The text written for one record. *)
Lemma srec_format p a :
  0 < zlen p <= 16 -> Forall is_u8 p -> is_u32 a ->
  exists n, vsprintf SREC3_FORMAT [Aint (4 + zlen p + 1); Aint a; Astr (Some (hex_text p));
      Aint (save_checksum (sum p) (4 + zlen p + 1) a)] =
    Some (srec_line (chr "3") (word_bytes a) p ++ [10], n).
Proof.
  intros Hp Hu Ha. rewrite vsprintf_srec, save_checksum_spec, string_plain by auto. eexists. cbv zeta. f_equal. f_equal.
  set (chk := 255 - _ mod 256). assert (is_u8 chk) as Hc by (subst chk; unfold in_word; change (2 ^ 8) with 256; Z.div_mod_to_equations; lia).
  pose proof Hc as Hc'. unfold in_word in Hc'. change (2 ^ 8) with 256 in Hc'.
  rewrite (u32_small (4 + zlen p + 1)), (u32_small a), (u32_small chk) by (try lia; exact Ha).
  change 2 with (Z.of_nat 2) at 1 2. change 8 with (Z.of_nat 8).
  rewrite (number_hexn 2 (4 + zlen p + 1)), (number_hexn 8 a), (number_hexn 2 chk)
    by (try exact Ha; try lia; change (16 ^ Z.of_nat 2) with 256; lia).
  rewrite !hexn2, hexn8 by (auto; unfold in_word; change (2 ^ 8) with 256; lia).
  unfold srec_line, srec_body. change (zlen (word_bytes a)) with 4.
  cbn [app]. rewrite hex_text_cons, !hex_text_app, <- !app_assoc.
  reflexivity.
Qed.

Lemma save_loop_recs m : forall rest a p out,
  mem_ok m -> Forall is_u8 p -> zlen p < 16 -> 0 <= a -> a + zlen p + zlen rest <= 2 ^ 32 ->
  bytes_at m (a + zlen p) rest ->
  save_loop (length rest) m a (zlen p) (sum p) (hex_text p) out [] = Some (out ++ recs a p rest, []).
Proof.
  intros rest. induction rest as [|c rest IH]; intros a p out Hm Hu Hp H0 He Hb; cbn [length save_loop recs].
  - rewrite app_nil_r. reflexivity.
  - destruct Hb as [Hc Hb]. set (q := p ++ [c]). zlen_simpl. pose proof (zlen_nonneg rest). pose proof (zlen_nonneg p).
    assert (zlen q = zlen p + 1) as Hq by (subst q; zlen_simpl; lia).
    change (2 ^ 32) with 4294967296 in *.
    assert (is_u8 c) as Hcu by (rewrite <- Hc; apply Hm). rewrite (u32_small (a + zlen p)) by lia. rewrite Hc.
    rewrite save_hex_hex2 by exact Hcu.
    replace (hex_text p ++ hex2 c) with (hex_text q) by (subst q; rewrite hex_text_app; cbn; reflexivity).
    replace (sum p + c) with (sum q) by (subst q; rewrite sum_app; cbn [sum]; lia).
    rewrite <- Hq. assert (Forall is_u8 q) as Huq by (apply Forall_app; auto).
    change SREC_BYTES_PER_RECORD with 16. destruct ((zlen q =? 16) || (length rest =? 0)%nat) eqn:E.
    + destruct (srec_format q a) as (n & ->); [lia|exact Huq|unfold in_word; lia|]. cbn [write_record].
      destruct rest as [|c2 rest2] eqn:Er.
      * reflexivity.
      * rewrite <- Er in *. assert (1 <= zlen rest) by (subst rest; zlen_simpl; pose proof (zlen_nonneg rest2); lia).
        rewrite u32_small by lia.
        change (save_loop (length rest) m (a + zlen q) 0 0 []) with
          (save_loop (length rest) m (a + zlen q) (zlen (@nil Z)) (sum []) (hex_text [])).
        rewrite IH; auto; try (change (zlen (@nil Z)) with 0; lia).
        -- rewrite <- !app_assoc. reflexivity.
        -- change (zlen (@nil Z)) with 0. replace (a + zlen q + 0) with (a + zlen p + 1) by lia. exact Hb.
    + apply orb_false_iff in E as [E1 E2]. apply Z.eqb_neq in E1.
      apply IH; auto; try lia. rewrite Hq. replace (a + (zlen p + 1)) with (a + zlen p + 1) by lia. exact Hb.
Qed.

(** A line of printable characters is read whole. *)
Lemma read_record_line line : forall n buf rest,
  Forall (fun c => 16 <= c) line -> (length line < n)%nat ->
  read_record n (line ++ 10 :: rest) buf = Some (zlen (buf ++ line), buf ++ line, rest).
Proof.
  induction line as [|c line IH]; intros n buf rest Hl Hn; (destruct n as [|n]; [simpl in Hn; lia|]); cbn [app read_record].
  - change ((10 =? 13) || (10 =? 10)) with true. cbv iota. rewrite app_nil_r. reflexivity.
  - inversion Hl as [|? ? Hc Hl']; subst. cbn beta in Hc.
    rewrite !(proj2 (Z.eqb_neq c _)) by lia. cbn [orb].
    rewrite IH by (auto; cbn [length] in Hn; lia). rewrite <- app_assoc. reflexivity.
Qed.

Lemma hexd_printable v : 0 <= v < 16 -> 16 <= hexd v.
Proof.
  intros Hv. apply Z.leb_le. apply (forall_below_spec 16 (fun v => 16 <=? hexd v)); [vm_compute; reflexivity|exact Hv].
Qed.
Lemma hex_text_printable l : Forall is_u8 l -> Forall (fun c => 16 <= c) (hex_text l).
Proof.
  induction 1 as [|c l Hc _ IH]; [constructor|]. rewrite hex_text_cons. unfold in_word in Hc. change (2 ^ 8) with 256 in Hc.
  cbn [hex2 app]. repeat apply List.Forall_cons; [| |exact IH]; apply hexd_printable; Z.div_mod_to_equations; lia.
Qed.
Lemma length_hex_text l : length (hex_text l) = (2 * length l)%nat.
Proof. induction l as [|c l IH]; [reflexivity|]. rewrite hex_text_cons, length_app, IH. cbn [hex2 length]. lia. Qed.

Lemma srec_line_read v addr data rest :
  16 <= v -> Forall is_u8 addr -> Forall is_u8 data -> (length addr + length data < 250)%nat ->
  read_record SREC_MAXRECLEN (srec_line v addr data ++ 10 :: rest) [] =
    Some (zlen (srec_line v addr data), srec_line v addr data, rest).
Proof.
  intros Hv Ha Hd Hl. rewrite read_record_line; [reflexivity| |].
  - unfold srec_line. apply List.Forall_cons; [vm_compute; discriminate|]. apply List.Forall_cons; [exact Hv|].
    apply hex_text_printable. apply Forall_app. split.
    + constructor; [|apply Forall_app; auto]. unfold in_word, zlen. change (2 ^ 8) with 256. lia.
    + repeat constructor; unfold in_word; try (change (2 ^ 8) with 256); Z.div_mod_to_equations; lia.
  - unfold srec_line. cbn [length]. rewrite length_hex_text. unfold srec_body, SREC_MAXRECLEN. len_tac.
Qed.

(** The loader consumes one data record. *)
Lemma load_step f a p rest s e out (t : mem * list Z) :
  is_u32 a -> Forall is_u8 p -> 0 < zlen p <= 16 -> a + zlen p <= 2 ^ 32 ->
  load_loop (S f) (srec_line (chr "3") (word_bytes a) p ++ 10 :: rest) 0 s e out t =
    load_loop f rest 0 (Z.min s a) (Z.max e (a + zlen p - 1)) (Srec (zlen p) a p) (put_bytes (fst t) a p, snd t).
Proof.
  intros Ha Hp Hl He. cbn [load_loop].
  rewrite srec_line_read; [|vm_compute; discriminate|apply word_bytes_u8|exact Hp|cbn; unfold zlen in *; lia].
  rewrite (proj2 (Z.ltb_ge _ 0)) by apply zlen_nonneg.
  rewrite (srec_decode_spec (chr "3") SREC_DATA4 (word_bytes a) p out);
    [|cbn; auto|apply word_bytes_u8|exact Hp|change (zlen (word_bytes a)) with 4; lia].
  change (SREC_DATA4 <? 0) with false.
  change ((SREC_DATA4 =? SREC_DATA2) || (SREC_DATA4 =? SREC_DATA3) || (SREC_DATA4 =? SREC_DATA4)) with true.
  cbv iota zeta. cbn [count addr data]. rewrite be_val_word by exact Ha. unfold in_word in Ha.
  change (2 ^ 32) with 4294967296 in *. rewrite Z.add_0_r, u32_small, (u32_small (a + zlen p - 1)) by lia.
  rewrite (proj2 (Z.ltb_ge (zlen p) 0)) by lia. cbn [is_flash ram_target ram_store].
  change (negb (0 =? 0)) with false. cbv iota. f_equal; destruct (Z.ltb_spec a s), (Z.ltb_spec e (a + zlen p - 1)); lia.
Qed.

Lemma put_bytes_app m a l k : put_bytes m a (l ++ k) = put_bytes (put_bytes m a l) (a + zlen l) k.
Proof.
  revert m a. induction l as [|c l IH]; intros m a; cbn [app put_bytes].
  - change (zlen (@nil Z)) with 0. rewrite Z.add_0_r. reflexivity.
  - rewrite IH. f_equal. zlen_simpl. lia.
Qed.

Lemma load_recs rest : forall f a p s e out (t : mem * list Z) tail,
  rest <> [] -> 0 <= a -> a + zlen p + zlen rest <= 2 ^ 32 -> Forall is_u8 p -> Forall is_u8 rest -> zlen p < 16 ->
  (length (recs a p rest) + length tail < f)%nat ->
  exists f' out', (length tail < f')%nat /\
    load_loop f (recs a p rest ++ tail) 0 s e out t =
    load_loop f' tail 0 (Z.min s a) (Z.max e (a + zlen p + zlen rest - 1)) out'
      (put_bytes (fst t) a (p ++ rest), snd t).
Proof.
  induction rest as [|c rest IH]; intros f a p s e out t tail Hn H0 He Hp Hr Hlt Hf; [congruence|].
  cbn [recs] in *. set (q := p ++ [c]) in *. inversion Hr as [|? ? Hc Hr']; subst. zlen_simpl. pose proof (zlen_nonneg rest). pose proof (zlen_nonneg p).
  change (2 ^ 32) with 4294967296 in *.
  assert (zlen q = zlen p + 1) as Hq by (subst q; zlen_simpl; lia).
  assert (Forall is_u8 q) as Huq by (apply Forall_app; auto).
  assert (p ++ c :: rest = q ++ rest) as -> by (subst q; rewrite <- app_assoc; reflexivity).
  revert Hf. destruct ((zlen q =? 16) || (length rest =? 0)%nat) eqn:E; intros Hf.
  - destruct f as [|f]; [lia|]. rewrite length_app in Hf. cbn [length] in Hf. rewrite <- app_assoc. cbn [app].
    rewrite load_step; [|unfold in_word; lia|exact Huq|lia|lia].
    destruct rest as [|c2 rest2] eqn:Er.
    + cbn [recs app]. exists f. eexists. split; [lia|]. rewrite app_nil_r. change (zlen (@nil Z)) with 0. do 2 f_equal. lia.
    + rewrite <- Er in *. destruct (IH f (a + zlen q) [] (Z.min s a) (Z.max e (a + zlen q - 1)) (Srec (zlen q) a q)
        (put_bytes (fst t) a q, snd t) tail) as (f' & out' & Hf' & ->); auto; try (change (zlen (@nil Z)) with 0; lia).
      { subst rest. discriminate. }
      exists f', out'. split; [exact Hf'|]. cbn [fst snd app]. rewrite put_bytes_app.
      assert (1 <= zlen rest) by (subst rest; zlen_simpl; pose proof (zlen_nonneg rest2); lia).
      change (zlen (@nil Z)) with 0. f_equal; lia.
  - apply orb_false_iff in E as [E1 E2]. apply Z.eqb_neq in E1. apply Nat.eqb_neq in E2.
    destruct (IH f a q s e out t tail) as (f' & out' & Hf' & ->); auto; try lia.
    { intros ->. apply E2. reflexivity. }
    exists f', out'. split; [exact Hf'|]. f_equal. lia.
Qed.

Lemma vsprintf_lX v : vsprintf (str "%lX") [Aint v] =
  let out := [] ++ number (u32 v) 16 (-1) (-1) 0 in Some (out, zlen out).
Proof. reflexivity. Qed.

(** C14: uploading a region with saves and loading the text back with loads stores
    exactly the bytes of the region at its addresses, changes no other byte,
    consumes the upload and nothing behind it, and sets filesize to the size. *)
Theorem save_load_roundtrip m m' v a n out rest :
  mem_ok m -> (0 < n)%nat -> Z.of_nat n < 2 ^ 32 -> 0 <= a -> a + Z.of_nat n <= 2 ^ 32 ->
  exists text, save_serial m a n [] = Some text /\
    load_serial (T := mem * list Z) (text ++ rest) 0 out (m', v) =
      Some (Loaded 0 rest (put_bytes m' a (read_bytes m a n), number (Z.of_nat n) 16 (-1) (-1) 0)).
Proof.
  intros Hm Hn Hn32 Ha He. unfold save_serial. cbn [write_record app].
  set (l := read_bytes m a n). assert (length l = n) as Hl by apply length_read_bytes.
  assert (zlen l = Z.of_nat n) as Hz by (unfold zlen; lia).
  assert (Forall is_u8 l) as Hu by (apply read_bytes_u8; exact Hm).
  assert (l <> []) as Hne by (intros E; rewrite E in Hl; cbn in Hl; lia).
  pose proof (save_loop_recs m l a [] SREC3_START Hm) as Hs. rewrite Hl in Hs.
  change (zlen (@nil Z)) with 0 in Hs. change (sum []) with 0 in Hs. change (hex_text []) with (@nil Z) in Hs.
  rewrite Hs; [|constructor|lia|exact Ha|lia|rewrite Z.add_0_r; apply bytes_at_read]. clear Hs.
  eexists. split; [reflexivity|]. unfold load_serial.
  change SREC3_START with (srec_line (chr "0") [0; 0] [] ++ [10]).
  change SREC3_END with (srec_line (chr "7") [0; 0; 0; 0] [] ++ [10]).
  set (fuel := length _). rewrite <- !app_assoc. cbn [load_loop].
  assert (forall k, Forall is_u8 (repeat 0 k)) as Hz0
    by (intros k; induction k; cbn [repeat]; constructor; auto; vm_compute; intuition congruence).
  cbn [app]. rewrite srec_line_read; [|vm_compute; discriminate|apply (Hz0 2%nat)|constructor|cbn; lia].
  rewrite (proj2 (Z.ltb_ge _ 0)) by apply zlen_nonneg.
  rewrite (srec_decode_spec (chr "0") SREC_START [0; 0] []); [|cbn; auto|apply (Hz0 2%nat)|constructor|reflexivity].
  change (SREC_START <? 0) with false.
  change ((SREC_START =? SREC_DATA2) || (SREC_START =? SREC_DATA3) || (SREC_START =? SREC_DATA4)) with false.
  change ((SREC_START =? SREC_END2) || (SREC_START =? SREC_END3) || (SREC_START =? SREC_END4)) with false. cbv iota.
  destruct (load_recs l fuel a [] NOT0 0 (Srec (zlen (@nil Z)) (be_val [0; 0] 0) []) (m', v)
    (srec_line (chr "7") [0; 0; 0; 0] [] ++ 10 :: rest)) as (f' & out' & Hf' & ->); auto.
  { change (zlen (@nil Z)) with 0. lia. }
  { reflexivity. }
  { subst fuel. len_tac. }
  destruct f' as [|f']; [lia|]. cbn [load_loop].
  rewrite srec_line_read; [|vm_compute; discriminate|apply (Hz0 4%nat)|constructor|cbn; lia].
  rewrite (proj2 (Z.ltb_ge _ 0)) by apply zlen_nonneg.
  rewrite (srec_decode_spec (chr "7") SREC_END4 [0; 0; 0; 0] []); [|cbn; auto 10|apply (Hz0 4%nat)|constructor|reflexivity].
  change (SREC_END4 <? 0) with false.
  change ((SREC_END4 =? SREC_DATA2) || (SREC_END4 =? SREC_DATA3) || (SREC_END4 =? SREC_DATA4)) with false.
  change ((SREC_END4 =? SREC_END2) || (SREC_END4 =? SREC_END3) || (SREC_END4 =? SREC_END4)) with true. cbv iota.
  rewrite vsprintf_lX. cbv zeta iota. cbn [set_filesize ram_target fst snd app addr].
  change (2 ^ 32) with 4294967296 in *. unfold NOT0. change (zlen (@nil Z)) with 0.
  rewrite u32_u32, Z.min_r, Z.max_r by lia.
  replace (a + 0 + zlen l - 1 - a + 1) with (Z.of_nat n) by lia.
  rewrite (u32_small (Z.of_nat n)) by lia. reflexivity.
Qed.

Definition ex_src : mem := put_bytes (fun _ => 0) 0x100000 (str "The quick brown fox jumps over").

Lemma save_load_roundtrip_witness :
  exists text, save_serial ex_src 0x100000 30 [] = Some text /\
    load_serial (T := mem * list Z) (text ++ str "=> ") 0 (Srec 0 0 []) (fun _ => 0, []) =
      Some (Loaded 0 (str "=> ") (put_bytes (fun _ => 0) 0x100000 (str "The quick brown fox jumps over"), str "1E")).
Proof.
  apply (save_load_roundtrip ex_src (fun _ => 0) [] 0x100000 30 (Srec 0 0 []) (str "=> ")).
  - unfold ex_src. apply put_bytes_ok; [intros x; vm_compute; intuition congruence|apply all_u8_spec; vm_compute; reflexivity].
  - lia.
  - vm_compute. reflexivity.
  - vm_compute. congruence.
  - vm_compute. congruence.
Defined.

(** A data record whose count does not cover its own address is accepted with
    a negative data length: the loader hands it to memcpy(). *)
Lemma load_short_count_overruns :
  srec_decode (str "S1020000FD") (Srec 0 0 []) = (SREC_DATA2, Srec (-1) 0 []) /\
  load_serial (T := mem * list Z) (str "S1020000FD" ++ [10]) 0 (Srec 0 0 []) (fun _ => 0, []) =
    Some (Overrun 0 (-1) (fun _ => 0, [])).
Proof. split; vm_compute; reflexivity. Qed.
