(* ===== verification/MemCmd.v ===== *)
(** * The memory commands (common/cmd_mem.c)

    mw, cmp, cp, mm, nm, md, crc32, base and mtest.  A command takes its words, the
    variables that the commands remember between calls and the memory; mtest
    runs on any machine with loads and stores, since memory that does not
    keep what it is given is what it is for.  The command loop only spins and
    has no model. *)

From S2P Require Import Prelude CMem Strto Vsprintf Crc CmdLine Flash.

(** ** Loads and stores *)

(** Loads and stores of 1, 2 or 4 bytes: [rd size address], [wr size address value]. *)
Class Ram (M : Type) := {
  rd : Z -> Z -> M -> Z;
  wr : Z -> Z -> Z -> M -> M
}.
Definition mem_ram : Ram mem := {|
  rd := fun size a m => if size =? 4 then load32 m a else if size =? 2 then (m a .<< 8) .| m (a + 1) else m a;
  wr := fun size a v m => if size =? 4 then store32 m a v else if size =? 2 then upd (upd m a (u8 (v .>> 8))) (a + 1) (u8 v) else upd m a (u8 v)
|}.
#[export] Existing Instance mem_ram.

(** ** State *)

Record memcmd := MemCmd {
  dp_last_addr : Z; dp_last_size : Z; dp_last_length : Z;
  mm_last_addr : Z; mm_last_size : Z; base_address : Z
}.
Definition memcmd0 : memcmd := MemCmd 0 0 0x40 0 0 0.
Definition set_dp (a sz len : Z) (s : memcmd) : memcmd := MemCmd a sz len (mm_last_addr s) (mm_last_size s) (base_address s).
Definition set_mm (a sz : Z) (s : memcmd) : memcmd := MemCmd (dp_last_addr s) (dp_last_size s) (dp_last_length s) a sz (base_address s).
Definition set_base (b : Z) (s : memcmd) : memcmd :=
  MemCmd (dp_last_addr s) (dp_last_size s) (dp_last_length s) (mm_last_addr s) (mm_last_size s) b.

(** The [i]-th word, a word as a number, an address. *)
Definition word (argv : list (list Z)) (i : nat) : list Z := nth i argv [].
Definition hex (argv : list (list Z)) (i : nat) : Z := fst (simple_strtoul (word argv i) 16).
Definition based (s : memcmd) (argv : list (list Z)) (i : nat) : Z := u32 (hex argv i + base_address s).
Definition data_size (argv : list (list Z)) : Z := cmd_get_data_size (word argv 0) 4.
(** One poll of the keys. *)
Definition ctrlc (keys : list bool) : bool * list bool := match keys with [] => (false, []) | k :: keys => (k, keys) end.

Section commands.
Context {M : Type} `{Ram M}.

(** ** mw *)

Fixpoint mw_loop (count : nat) (size addr writeval : Z) (m : M) : M :=
  match count with
  | O => m
  | S count => mw_loop count size (u32 (addr + size)) writeval (wr size addr writeval m)
  end.
Definition do_mem_mw (argv : list (list Z)) (s : memcmd) (m : M) : Z * M :=
  if (zlen argv <? 3) || (4 <? zlen argv) then (1, m)
  else
    let size := data_size argv in
    if size <? 1 then (1, m)
    else
      let count := if zlen argv =? 4 then hex argv 3 else 1 in
      (0, mw_loop (Z.to_nat count) size (based s argv 1) (hex argv 2) m).

(** ** cmp *)

(** The result and the number of items that were the same. *)
Fixpoint cmp_loop (count : nat) (size addr1 addr2 ngood : Z) (m : M) : Z * Z :=
  match count with
  | O => (0, ngood)
  | S count =>
      if negb (rd size addr1 m =? rd size addr2 m) then (1, ngood)
      else cmp_loop count size (u32 (addr1 + size)) (u32 (addr2 + size)) (ngood + 1) m
  end.
Definition do_mem_cmp (argv : list (list Z)) (s : memcmd) (m : M) : Z * Z :=
  if negb (zlen argv =? 4) then (1, 0)
  else
    let size := data_size argv in
    if size <? 0 then (1, 0)
    else cmp_loop (Z.to_nat (hex argv 3)) size (based s argv 1) (based s argv 2) 0 m.

(** ** cp *)

Fixpoint cp_loop (count : nat) (size addr dest : Z) (m : M) : M :=
  match count with
  | O => m
  | S count => cp_loop count size (u32 (addr + size)) (u32 (dest + size)) (wr size dest (rd size addr m) m)
  end.

(** ** mm and nm *)

(** One line per location; [None] waits for more input. *)
Fixpoint mod_mem_loop (fuel : nat) (incrflag : bool) (size addr : Z) (input : list Z) (m : M) : option (Z * list Z * M) :=
  match fuel with
  | O => None
  | S fuel =>
      match readline_into_buffer (Some (str " ? ")) input with
      | None => None
      | Some (nbytes, console_buffer, input) =>
          if (nbytes =? 0) || ((nbytes =? 1) && (nth 0 console_buffer 0 =? chr "-")) then
            let addr := if incrflag then u32 (addr + (if negb (nbytes =? 0) then - size else size)) else addr in
            mod_mem_loop fuel incrflag size addr input m
          else
            let '(i, endp) := simple_strtoul console_buffer 16 in
            if zlen console_buffer - zlen endp =? 0 then Some (addr, input, m)
            else mod_mem_loop fuel incrflag size (if incrflag then u32 (addr + size) else addr) input (wr size addr i m)
      end
  end.
Definition mod_mem (incrflag : bool) (flag : Z) (argv : list (list Z)) (input : list Z) (s : memcmd) (m : M)
  : option (Z * memcmd * list Z * M) :=
  if negb (zlen argv =? 2) then Some (1, s, input, m)
  else
    let repeat := negb (flag .& CMD_FLAG_REPEAT =? 0) in
    let size := if repeat then mm_last_size s else data_size argv in
    if negb repeat && (size <? 0) then Some (1, s, input, m)
    else
      let addr := if repeat then mm_last_addr s else based s argv 1 in
      match mod_mem_loop (S (List.length input)) incrflag size addr input m with
      | None => None
      | Some (addr, input, m) => Some (0, set_mm addr size s, input, m)
      end.
Definition do_mem_mm := mod_mem true.
Definition do_mem_nm := mod_mem false.

(** ** md *)

Definition MAX_LINE_LENGTH_BYTES : Z := 64.
Definition DEFAULT_LINE_LENGTH_BYTES : Z := 16.
Definition DISP_LINE_LEN : Z := 16.
Definition isprint (c : Z) : bool := negb (ismask c .& (((_P .| _U) .| _L) .| (_D .| _SP)) =? 0).
Definition sprintf2 (fmt : list Z) (a b : Z) : list Z := match vsprintf fmt [Aint a; Aint b] with Some (s, _) => s | None => [] end.
(** A value as the line buffer holds it. *)
Definition value_bytes (width x : Z) : list Z :=
  if width =? 4 then [u8 (x .>> 24); u8 (x .>> 16); u8 (x .>> 8); u8 x] else if width =? 2 then [u8 (x .>> 8); u8 x] else [u8 x].
(** A line: the values, then their bytes as characters. *)
Definition print_line (addr width : Z) (values : list Z) : list Z :=
  format_int (str "%08lx:") addr ++ concat (map (sprintf2 (str " %0*x") (width * 2)) values) ++ str "    " ++
  map (fun c => if negb (isprint c) || (0x80 <=? c) then chr "." else c) (concat (map (value_bytes width) values)) ++ [10].
Definition read_values (width : Z) (n : nat) (data : Z) (m : M) : list Z :=
  map (fun i => rd width (u32 (data + Z.of_nat i * width)) m) (seq 0 n).
Fixpoint print_lines (fuel : nat) (addr data width count linelen : Z) (keys : list bool) (m : M) : list Z :=
  match fuel with
  | O => []
  | S fuel =>
      if count =? 0 then []
      else
        let linelen := if count <? linelen then count else linelen in
        let '(stop, keys) := ctrlc keys in
        print_line addr width (read_values width (Z.to_nat linelen) data m) ++
        if stop then []
        else print_lines fuel (u32 (addr + linelen * width)) (u32 (data + linelen * width)) width (count - linelen) linelen keys m
  end.
Definition print_buffer (addr data width count linelen : Z) (keys : list bool) (m : M) : list Z :=
  let linelen := if MAX_LINE_LENGTH_BYTES <? linelen * width then MAX_LINE_LENGTH_BYTES / width else linelen in
  let linelen := if linelen <? 1 then DEFAULT_LINE_LENGTH_BYTES / width else linelen in
  print_lines (S (Z.to_nat count)) addr data width count linelen keys m.
Definition do_mem_md (flag : Z) (argv : list (list Z)) (keys : list bool) (s : memcmd) (m : M) : Z * memcmd * list Z :=
  if zlen argv <? 2 then (1, s, [])
  else
    let repeat := negb (flag .& CMD_FLAG_REPEAT =? 0) in
    let size := if repeat then dp_last_size s else data_size argv in
    if negb repeat && (size <? 0) then (1, s, [])
    else
      let addr := if repeat then dp_last_addr s else based s argv 1 in
      let length := if negb repeat && (2 <? zlen argv) then hex argv 2 else dp_last_length s in
      (0, set_dp (u32 (addr + size * length)) size length s, print_buffer addr addr size length (DISP_LINE_LEN / size) keys m).

(** ** mtest *)

Definition CONFIG_SYS_MEMTEST_START : Z := 0.
Definition CONFIG_SYS_MEMTEST_END : Z := 0x04000000.

(** for (addr=start,val=pattern; addr<end; addr++): the writes, then the reads. *)
Fixpoint mtest_write (fuel : nat) (addr end_ val incr : Z) (m : M) : option M :=
  if addr <? end_ then
    match fuel with
    | O => None
    | S fuel => mtest_write fuel (u32 (addr + 4)) end_ (u32 (val + incr)) incr (wr 4 addr val m)
    end
  else Some m.
(** [None] for the count when an error was met by Ctrl-C. *)
Fixpoint mtest_read (fuel : nat) (addr end_ val incr errs : Z) (keys : list bool) (m : M) : option (option Z * list bool) :=
  if addr <? end_ then
    match fuel with
    | O => None
    | S fuel =>
        if negb (rd 4 addr m =? val) then
          let '(stop, keys) := ctrlc keys in
          if stop then Some (None, keys)
          else mtest_read fuel (u32 (addr + 4)) end_ (u32 (val + incr)) incr (u32 (errs + 1)) keys m
        else mtest_read fuel (u32 (addr + 4)) end_ (u32 (val + incr)) incr errs keys m
    end
  else Some (Some errs, keys).
Definition next_pattern (pattern : Z) : Z := if negb (pattern .& 0x80000000 =? 0) then u32 (- pattern) else u32 (Z.lnot pattern).
(** The words of the region. *)
Definition mtest_fuel (start end_ : Z) : nat := Z.to_nat ((end_ - start + 3) / 4).

Fixpoint mtest_loop (fuel : nat) (start end_ pattern incr iterations iteration_limit errs : Z) (keys : list bool) (m : M)
  : option (Z * list bool * M) :=
  match fuel with
  | O => None
  | S fuel =>
      let '(stop, keys) := ctrlc keys in
      if stop then Some (1, keys, m)
      else if negb (iteration_limit =? 0) && (iteration_limit <? iterations) then Some (if negb (errs =? 0) then 1 else 0, keys, m)
      else
        let iterations := s32 (iterations + 1) in
        match mtest_write (mtest_fuel start end_) start end_ pattern incr m with
        | None => None
        | Some m =>
            match mtest_read (mtest_fuel start end_) start end_ pattern incr errs keys m with
            | None => None
            | Some (None, keys) => Some (1, keys, m)
            | Some (Some errs, keys) =>
                mtest_loop fuel start end_ (next_pattern pattern) (u32 (- incr)) iterations iteration_limit errs keys m
            end
        end
  end.
Definition do_mem_mtest (fuel : nat) (argv : list (list Z)) (keys : list bool) (m : M) : option (Z * list bool * M) :=
  let start := if 1 <? zlen argv then hex argv 1 else CONFIG_SYS_MEMTEST_START in
  let end_ := if 2 <? zlen argv then hex argv 2 else CONFIG_SYS_MEMTEST_END in
  let pattern := if 3 <? zlen argv then hex argv 3 else 0 in
  let iteration_limit := if 4 <? zlen argv then s32 (hex argv 4) else 0 in
  mtest_loop fuel start end_ pattern 1 1 iteration_limit 0 keys m.
End commands.

(** ** cp, base and crc32 *)

(** Into the flash, or item by item. *)
Definition do_mem_cp {St : Type} `{FlashBus St} (fuel : nat) (banks : list flash_info) (argv : list (list Z)) (s : memcmd) (m : mem) (st : St)
  : option (Z * mem * St) :=
  if negb (zlen argv =? 4) then Some (1, m, st)
  else
    let size := data_size argv in
    if size <? 0 then Some (1, m, st)
    else
      let addr := based s argv 1 in
      let dest := based s argv 2 in
      let count := hex argv 3 in
      if count =? 0 then Some (1, m, st)
      else
        match addr2info banks 0 dest with
        | Some _ =>
            match flash_write fuel banks (read_bytes m addr (Z.to_nat (u32 (count * size)))) dest st with
            | None => None
            | Some (rc, st) => Some (if negb (rc =? 0) then 1 else 0, m, st)
            end
        | None => Some (0, cp_loop (Z.to_nat count) size addr dest m, st)
        end.
Definition do_mem_base (argv : list (list Z)) (s : memcmd) : Z * memcmd :=
  (0, if 1 <? zlen argv then set_base (hex argv 1) s else s).
Definition do_mem_crc (argv : list (list Z)) (s : memcmd) (m : mem) : Z * mem :=
  if zlen argv <? 3 then (1, m)
  else
    let crc := crc32 m 0 (based s argv 1) (hex argv 2) in
    (0, if 3 <? zlen argv then store32 m (hex argv 3) crc else m).

(** * Properties *)

Lemma strtoul_loop_range w s base r : 0 <= w -> 0 <= r < 2 ^ w -> 0 <= fst (strtoul_loop w s base r) < 2 ^ w.
Proof.
  intros Hw. revert r. induction s as [|c s IH]; intros r Hr; cbn [strtoul_loop]; [exact Hr|].
  destruct (_ && _); [|exact Hr]. apply IH, wrap_range, Hw.
Qed.
Lemma strtoul_u32 s base : is_u32 (fst (simple_strtoul s base)).
Proof.
  unfold simple_strtoul. destruct (strto_prefix _ _) as [t b]. apply (strtoul_loop_range 32); [lia|]. split; [lia|reflexivity].
Qed.

(** ** mtest *)

Section mtest.
Context {M : Type} `{Ram M}.

(** What a pass writes and how many words differ afterwards, for [n] words. *)
Fixpoint fill (n : nat) (addr val incr : Z) (m : M) : M :=
  match n with O => m | S n => fill n (addr + 4) (u32 (val + incr)) incr (wr 4 addr val m) end.
Fixpoint errors (n : nat) (addr val incr : Z) (m : M) : Z :=
  match n with
  | O => 0
  | S n => (if rd 4 addr m =? val then 0 else 1) + errors n (addr + 4) (u32 (val + incr)) incr m
  end.
(** The errors of [k] passes. *)
Fixpoint total (n k : nat) (start pattern incr : Z) (m : M) : Z :=
  match k with
  | O => 0
  | S k => let m := fill n start pattern incr m in errors n start pattern incr m + total n k start (next_pattern pattern) (u32 (- incr)) m
  end.

Lemma errors_bounds n addr val incr m : 0 <= errors n addr val incr m <= Z.of_nat n.
Proof.
  revert addr val. induction n as [|n IH]; intros addr val; cbn [errors]; [lia|].
  specialize (IH (addr + 4) (u32 (val + incr))). destruct (_ =? _); lia.
Qed.
Lemma total_bounds n k start p incr m : 0 <= total n k start p incr m <= Z.of_nat k * Z.of_nat n.
Proof.
  revert p incr m. induction k as [|k IH]; intros p incr m; cbn [total]; [lia|]. cbv zeta.
  pose proof (errors_bounds n start p incr (fill n start p incr m)).
  specialize (IH (next_pattern p) (u32 (- incr)) (fill n start p incr m)). lia.
Qed.

(** [addr] and the words up to the end. *)
Lemma fuel_step addr end_ : addr < end_ -> mtest_fuel addr end_ = S (mtest_fuel (addr + 4) end_).
Proof.
  intros Hlt. unfold mtest_fuel. rewrite <- Z2Nat.inj_succ by (apply Z.div_pos; lia).
  f_equal. replace (end_ - addr + 3) with ((end_ - (addr + 4) + 3) + 1 * 4) by lia. rewrite Z.div_add by lia. lia.
Qed.
Lemma fuel_done addr end_ : end_ <= addr -> mtest_fuel addr end_ = O.
Proof. intros Hle. unfold mtest_fuel. assert ((end_ - addr + 3) / 4 <= 0) by (Z.div_mod_to_equations; lia). lia. Qed.

Lemma write_spec n addr end_ val incr m : mtest_fuel addr end_ = n -> 0 <= addr -> end_ <= 2 ^ 32 - 4 ->
  mtest_write n addr end_ val incr m = Some (fill n addr val incr m).
Proof.
  change (2 ^ 32) with 4294967296. revert addr val m. induction n as [|n IH]; intros addr val m Hn Ha He; cbn [mtest_write fill];
    destruct (Z.ltb_spec addr end_) as [Hlt|Hge]; try reflexivity.
  - rewrite fuel_step in Hn by lia. discriminate.
  - rewrite fuel_step in Hn by lia. injection Hn as Hn. rewrite (u32_small (addr + 4)) by lia. apply IH; [exact Hn|lia|lia].
  - rewrite fuel_done in Hn by lia. discriminate.
Qed.
Lemma read_spec n addr end_ val incr errs m : mtest_fuel addr end_ = n -> 0 <= addr -> end_ <= 2 ^ 32 - 4 ->
  0 <= errs -> errs + Z.of_nat n < 2 ^ 32 ->
  mtest_read n addr end_ val incr errs [] m = Some (Some (errs + errors n addr val incr m), []).
Proof.
  change (2 ^ 32) with 4294967296. revert addr val errs. induction n as [|n IH]; intros addr val errs Hn Ha He H0 H1; cbn [mtest_read errors];
    destruct (Z.ltb_spec addr end_) as [Hlt|Hge].
  - rewrite fuel_step in Hn by lia. discriminate.
  - rewrite Z.add_0_r. reflexivity.
  - rewrite fuel_step in Hn by lia. injection Hn as Hn. rewrite (u32_small (addr + 4)) by lia.
    destruct (rd 4 addr m =? val); cbn [negb ctrlc]; [|rewrite (u32_small (errs + 1)) by lia]; rewrite IH by (assumption || lia); do 3 f_equal; lia.
  - rewrite fuel_done in Hn by lia. discriminate.
Qed.

(** The result of a test with an iteration limit, without Ctrl-C. *)
Lemma mtest_loop_spec start end_ limit k : 0 <= start -> end_ <= 2 ^ 32 - 4 -> 0 < limit < 2 ^ 31 - 1 ->
  let n := mtest_fuel start end_ in
  forall fuel p incr it errs m, it = limit + 1 - Z.of_nat k -> (k < fuel)%nat -> 0 < it -> 0 <= errs -> errs + Z.of_nat k * Z.of_nat n < 2 ^ 32 ->
  exists m', mtest_loop fuel start end_ p incr it limit errs [] m =
    Some (if errs + total n k start p incr m =? 0 then 0 else 1, [], m').
Proof.
  change (2 ^ 31) with 2147483648. intros Hs He Hl n. induction k as [|k IH]; intros fuel p incr it errs m Ei Hf Hi H0 H1;
    (destruct fuel as [|fuel]; [lia|]); cbn [mtest_loop ctrlc]; rewrite (proj2 (Z.eqb_neq limit 0)) by lia; cbn [negb andb].
  - rewrite (proj2 (Z.ltb_lt _ _)) by lia. cbn [total]. rewrite Z.add_0_r. eexists. destruct (errs =? 0); reflexivity.
  - rewrite (proj2 (Z.ltb_ge _ _)) by lia. fold n. rewrite (write_spec n) by (reflexivity || lia). cbn [total]. cbv zeta.
    set (m1 := fill n start p incr m). pose proof (errors_bounds n start p incr m1).
    rewrite (read_spec n) by (reflexivity || (change (2 ^ 32) with 4294967296 in *; lia)).
    rewrite s32_small by lia. destruct (IH fuel (next_pattern p) (u32 (- incr)) (it + 1) (errs + errors n start p incr m1) m1) as [m' ->]; try lia.
    eexists. rewrite Z.add_assoc. reflexivity.
Qed.

(** Without errors, every word read back what was written to it. *)
Lemma no_errors n addr val incr m : errors n addr val incr m = 0 -> is_u32 val ->
  forall i, 0 <= i < Z.of_nat n -> rd 4 (addr + 4 * i) m = u32 (val + i * incr).
Proof.
  revert addr val. induction n as [|n IH]; intros addr val E Hv i Hi; [lia|]. cbn [errors] in E.
  pose proof (errors_bounds n (addr + 4) (u32 (val + incr)) incr m). destruct (Z.eqb_spec (rd 4 addr m) val) as [Ev|]; [|lia].
  destruct (Z.eq_dec i 0) as [-> | Hne].
  - rewrite Z.mul_0_r, Z.mul_0_l, !Z.add_0_r, Ev. symmetry. apply u32_small. exact Hv.
  - replace (addr + 4 * i) with (addr + 4 + 4 * (i - 1)) by lia. rewrite (IH (addr + 4) (u32 (val + incr))) by (lia || apply u32_range). unfold u32, wrap.
    rewrite Z.add_mod_idemp_l by lia. f_equal. lia.
Qed.

(** What can be wrong with the memory: a bit that always reads the same, or two words that always read the same. *)
Inductive fault (start : Z) (n : nat) : Prop :=
  | stuck_bit i b v : 0 <= i < Z.of_nat n -> 0 <= b < 32 -> (forall m, Z.testbit (rd 4 (start + 4 * i) m) b = v) -> fault start n
  | coupled i j : 0 <= i < Z.of_nat n -> 0 <= j < Z.of_nat n -> i <> j -> (forall m, rd 4 (start + 4 * i) m = rd 4 (start + 4 * j) m) -> fault start n.

Lemma u32_bit x b : 0 <= b < 32 -> Z.testbit (u32 x) b = Z.testbit x b.
Proof. intros Hb. unfold u32, wrap. apply Z.mod_pow2_bits_low. lia. Qed.
Lemma low_pattern p : 0 <= p < 2 ^ 31 -> next_pattern p = u32 (Z.lnot p).
Proof.
  intros Hp. unfold next_pattern. replace (p .& 0x80000000) with 0; [reflexivity|]. symmetry. apply Z.bits_inj'. intros k Hk.
  rewrite Z.land_spec, Z.bits_0. change 0x80000000 with (2 ^ 31). destruct (Z.eq_dec k 31) as [-> | Hne].
  - rewrite (Z.bits_above_log2 p 31); [reflexivity|lia|]. destruct (Z.eq_dec p 0) as [-> | Hp0]; [reflexivity|]. apply Z.log2_lt_pow2; lia.
  - rewrite Z.pow2_bits_false by lia. apply andb_false_r.
Qed.
(** The second value of a word is the complement of the first. *)
Lemma second_value p i : 0 <= p < 2 ^ 31 -> u32 (next_pattern p + i * u32 (- 1)) = u32 (Z.lnot (p + i)).
Proof.
  intros Hp. rewrite low_pattern by exact Hp. unfold u32, wrap. rewrite Z.add_mod_idemp_l by lia.
  rewrite <- (Z.add_mod_idemp_r _ (i * _)), Z.mul_mod_idemp_r, Z.add_mod_idemp_r by lia. f_equal. unfold Z.lnot. lia.
Qed.

Lemma fault_found n k start p m : fault start n -> 0 <= p < 2 ^ 31 -> Z.of_nat n < 2 ^ 32 -> 0 < total n (S (S k)) start p 1 m.
Proof.
  intros F Hp Hn. cbn [total]. cbv zeta. change (- (1)) with (-1). set (m1 := fill n start p 1 m). set (q := next_pattern p). set (m2 := fill n start q (u32 (- 1)) m1).
  pose proof (errors_bounds n start p 1 m1) as B1. pose proof (errors_bounds n start q (u32 (- 1)) m2) as B2.
  pose proof (total_bounds n k start (next_pattern q) (u32 (- u32 (- 1))) m2) as B3.
  destruct (Z.eq_dec (errors n start p 1 m1) 0) as [E1|]; [|lia]. destruct (Z.eq_dec (errors n start q (u32 (- 1)) m2) 0) as [E2|]; [|lia].
  exfalso. change (2 ^ 31) with 2147483648 in Hp. change (2 ^ 32) with 4294967296 in Hn.
  assert (is_u32 p) as Hp32 by (unfold_words; lia). assert (is_u32 q) as Hq by (unfold q, next_pattern; destruct (negb _); apply u32_range).
  pose proof (no_errors n start p 1 m1 E1 Hp32) as V1. pose proof (no_errors n start q _ m2 E2 Hq) as V2.
  destruct F as [i b v Hi Hb Hs|i j Hi Hj Hij Hs].
  - pose proof (Hs m1) as S1. pose proof (Hs m2) as S2. rewrite V1 in S1 by exact Hi. rewrite V2 in S2 by exact Hi.
    unfold q in S2. rewrite second_value in S2 by (change (2 ^ 31) with 2147483648; lia).
    rewrite u32_bit, Z.mul_1_r in S1 by exact Hb. rewrite u32_bit, Z.lnot_spec in S2 by lia. rewrite S1 in S2. destruct v; discriminate.
  - specialize (Hs m1). rewrite !V1 in Hs by assumption. unfold u32, wrap in Hs. change (2 ^ 32) with 4294967296 in Hs.
    Z.div_mod_to_equations. lia.
Qed.

End mtest.

(** Memory that keeps what it is given passes. *)
Lemma fill_ok n addr val incr (m : mem) : mem_ok m -> mem_ok (fill n addr val incr m) /\ same_outside addr (addr + 4 * Z.of_nat n) m (fill n addr val incr m).
Proof.
  revert addr val m. induction n as [|n IH]; intros addr val m Hm; cbn [fill]; [split; [exact Hm|apply same_outside_refl]|].
  change (wr 4 addr val m) with (store32 m addr val). destruct (IH (addr + 4) (u32 (val + incr)) (store32 m addr val) (store32_ok _ _ _ Hm)) as [H1 H2].
  split; [exact H1|]. eapply same_outside_trans; [eapply same_outside_weaken; [apply (store32_outside m addr val)|lia|lia]|].
  eapply same_outside_weaken; [exact H2|lia|lia].
Qed.
Lemma errors_ext n addr val incr (m m' : mem) : (forall x, addr <= x < addr + 4 * Z.of_nat n -> m' x = m x) -> errors n addr val incr m' = errors n addr val incr m.
Proof.
  revert addr val. induction n as [|n IH]; intros addr val E; cbn [errors]; [reflexivity|].
  change (rd 4 addr m') with (load32 m' addr). change (rd 4 addr m) with (load32 m addr).
  rewrite (load32_ext m m' addr addr) by (intros; apply E; lia). rewrite (IH (addr + 4)) by (intros; apply E; lia). reflexivity.
Qed.
Lemma fill_kept n addr val incr (m : mem) : mem_ok m -> is_u32 val -> errors n addr val incr (fill n addr val incr m) = 0.
Proof.
  revert addr val m. induction n as [|n IH]; intros addr val m Hm Hv; cbn [errors fill]; [reflexivity|].
  change (wr 4 addr val m) with (store32 m addr val). assert (mem_ok (store32 m addr val)) as Hs by (apply store32_ok, Hm).
  rewrite IH by (exact Hs || apply u32_range). destruct (fill_ok n (addr + 4) (u32 (val + incr)) incr _ Hs) as [_ Ho].
  set (m' := fill n _ _ _ _) in *. change (rd 4 addr m') with (load32 m' addr).
  rewrite (load32_ext (store32 m addr val) m' addr addr) by (intros x Hx; apply Ho; lia). rewrite load_store32 by assumption. rewrite Z.eqb_refl. reflexivity.
Qed.
Lemma total_kept n k start p incr (m : mem) : mem_ok m -> is_u32 p -> total n k start p incr m = 0.
Proof.
  revert p incr m. induction k as [|k IH]; intros p incr m Hm Hp; cbn [total]; [reflexivity|]. cbv zeta.
  rewrite fill_kept by assumption. apply IH; [apply fill_ok, Hm|]. unfold next_pattern. destruct (negb _); apply u32_range.
Qed.
Lemma mtest_passes start end_ limit pattern fuel (m : mem) : 0 <= start -> end_ <= 2 ^ 32 - 4 -> 0 < limit < 2 ^ 31 - 1 -> is_u32 pattern -> mem_ok m ->
  limit * Z.of_nat (mtest_fuel start end_) < 2 ^ 32 -> limit < Z.of_nat fuel ->
  exists m', mtest_loop fuel start end_ pattern 1 1 limit 0 [] m = Some (0, [], m').
Proof.
  intros Hs He Hl Hp Hm Hn Hf. destruct (mtest_loop_spec start end_ limit (Z.to_nat limit) Hs He Hl fuel pattern 1 1 0 m) as [m' E]; try lia.
  rewrite E, total_kept by assumption. eexists. reflexivity.
Qed.
(** The first pattern 0 and its followers are 0, ~0, 1, ~1 ...; 0x80000000 is its own follower, so its bits are never complemented. *)
Lemma mtest_pattern_stays : next_pattern 0x80000000 = 0x80000000 /\ next_pattern 0 = 0xffffffff /\ next_pattern 0xffffffff = 1 /\ next_pattern 1 = 0xfffffffe.
Proof. vm_compute. auto. Qed.

(** A machine whose word at 0x108 has bit 5 stuck at 1. *)
Definition stuck_ram : Ram mem := {|
  rd := fun size a m => if a =? 0x108 then @rd mem mem_ram size a m .| 0x20 else @rd mem mem_ram size a m;
  wr := @wr mem mem_ram
|}.
Definition ex_mtest_argv : list (list Z) := [str "mtest"; str "100"; str "11f"; str "0"; str "2"].

(** ** cp and cmp *)

Definition item (size : Z) : Prop := size = 1 \/ size = 2 \/ size = 4.

(** One item is copied byte for byte. *)
Lemma copy_item size addr dest (m : mem) x : mem_ok m -> item size ->
  wr size dest (rd size addr m) m x = if (dest <=? x) && (x <? dest + size) then m (addr + (x - dest)) else m x.
Proof.
  intros Hm Hs. destruct (Z.leb_spec dest x), (Z.ltb_spec x (dest + size)); cbn [andb].
  - destruct Hs as [-> | [-> | ->]]; cbn [wr rd mem_ram Z.eqb Pos.eqb].
    + assert (x = dest) as -> by lia. rewrite upd_eq, Z.sub_diag, Z.add_0_r. apply u8_small, Hm.
    + pose proof (Hm addr) as B0. pose proof (Hm (addr + 1)) as B1. unfold_words. change (2 ^ 8) with 256 in *.
      rewrite lor_add_disjoint by (change (2 ^ 8) with 256; lia). unfold u8, wrap. rewrite shiftr_div by lia. change (2 ^ 8) with 256.
      assert (x = dest \/ x = dest + 1) as [-> | ->] by lia; upd_tac; [rewrite Z.sub_diag, Z.add_0_r|replace (dest + 1 - dest) with 1 by lia];
        Z.div_mod_to_equations; lia.
    + replace x with (dest + (x - dest)) at 1 by lia. apply store_load32; [exact Hm|lia].
  - destruct Hs as [-> | [-> | ->]]; cbn [wr rd mem_ram Z.eqb Pos.eqb]; [upd_tac; reflexivity|upd_tac; reflexivity|apply store32_outside; lia].
  - destruct Hs as [-> | [-> | ->]]; cbn [wr rd mem_ram Z.eqb Pos.eqb]; [upd_tac; reflexivity|upd_tac; reflexivity|apply store32_outside; lia].
  - destruct Hs as [-> | [-> | ->]]; lia.
Qed.
Lemma wr_ok size a v (m : mem) : mem_ok m -> item size -> mem_ok (wr size a v m).
Proof.
  intros Hm [-> | [-> | ->]]; cbn [wr mem_ram Z.eqb Pos.eqb]; [apply upd_ok|apply upd_ok; [apply upd_ok|]|apply store32_ok]; auto; apply u8_range.
Qed.

(** Ranges apart, or a copy to lower addresses. *)
Lemma cp_loop_spec n size addr dest (m : mem) : mem_ok m -> item size -> 0 <= addr -> 0 <= dest ->
  addr + Z.of_nat n * size <= 2 ^ 32 -> dest + Z.of_nat n * size <= 2 ^ 32 -> dest <= addr \/ addr + Z.of_nat n * size <= dest ->
  forall x, cp_loop n size addr dest m x = if (dest <=? x) && (x <? dest + Z.of_nat n * size) then m (addr + (x - dest)) else m x.
Proof.
  change (2 ^ 32) with 4294967296. intros Hm Hs. revert addr dest m Hm. induction n as [|n IH]; intros addr dest m Hm Ha Hd Wa Wd Ho x; cbn [cp_loop].
  { destruct (Z.leb_spec dest x), (Z.ltb_spec x (dest + Z.of_nat 0 * size)); cbn [andb]; reflexivity || lia. }
  assert (0 < size) by (destruct Hs as [-> | [-> | ->]]; lia). replace (Z.of_nat (S n)) with (Z.of_nat n + 1) in * by lia.
  set (m1 := wr size dest (rd size addr m) m). assert (mem_ok m1) as Hm1 by (apply wr_ok; assumption).
  assert (forall y, m1 y = if (dest <=? y) && (y <? dest + size) then m (addr + (y - dest)) else m y) as E1 by (intros; apply copy_item; assumption).
  destruct (Nat.eq_dec n 0) as [-> | Hn].
  { cbn [cp_loop]. rewrite E1. replace (dest + (Z.of_nat 0 + 1) * size) with (dest + size) by lia. reflexivity. }
  assert (size <= Z.of_nat n * size) by nia. rewrite !u32_small by nia. rewrite IH by (assumption || nia). rewrite !E1.
  destruct (Z.leb_spec dest x), (Z.ltb_spec x (dest + (Z.of_nat n + 1) * size)), (Z.leb_spec (dest + size) x),
    (Z.ltb_spec x (dest + size + Z.of_nat n * size)), (Z.ltb_spec x (dest + size)); cbn [andb]; try (exfalso; nia); try reflexivity.
  replace (addr + size + (x - (dest + size))) with (addr + (x - dest)) by lia.
  destruct (Z.leb_spec dest (addr + (x - dest))), (Z.ltb_spec (addr + (x - dest)) (dest + size)); cbn [andb]; reflexivity || (exfalso; nia).
Qed.

Lemma rd_same size a b (m : mem) : mem_ok m -> item size -> (rd size a m =? rd size b m) = true <-> forall i, 0 <= i < size -> m (a + i) = m (b + i).
Proof.
  intros Hm Hs. rewrite Z.eqb_eq. pose proof (fun x => Hm x) as B. unfold_words. change (2 ^ 8) with 256 in *.
  destruct Hs as [-> | [-> | ->]]; cbn [rd mem_ram Z.eqb Pos.eqb].
  - split; [intros E i Hi; assert (i = 0) as -> by lia; rewrite !Z.add_0_r; exact E|intros E; specialize (E 0); rewrite !Z.add_0_r in E; apply E; lia].
  - rewrite !lor_add_disjoint by (try apply B; lia). change (2 ^ 8) with 256. pose proof (B a). pose proof (B (a + 1)). pose proof (B b). pose proof (B (b + 1)). split.
    + intros E i Hi. assert (i = 0 \/ i = 1) as [-> | ->] by lia; rewrite ?Z.add_0_r; lia.
    + intros E. pose proof (E 0) as E0. pose proof (E 1) as E1. rewrite !Z.add_0_r in E0. lia.
  - rewrite !load32_sum by exact Hm. pose proof (B a). pose proof (B (a + 1)). pose proof (B (a + 2)). pose proof (B (a + 3)).
    pose proof (B b). pose proof (B (b + 1)). pose proof (B (b + 2)). pose proof (B (b + 3)). split.
    + intros E i Hi. assert (i = 0 \/ i = 1 \/ i = 2 \/ i = 3) as [-> | [-> | [-> | ->]]] by lia; rewrite ?Z.add_0_r; lia.
    + intros E. pose proof (E 0) as E0. pose proof (E 1). pose proof (E 2). pose proof (E 3). rewrite !Z.add_0_r in E0. lia.
Qed.
(** cmp counts the items in front of the first that differs. *)
Lemma cmp_loop_spec n size a b g (m : mem) : mem_ok m -> item size -> 0 <= a -> 0 <= b ->
  a + Z.of_nat n * size <= 2 ^ 32 -> b + Z.of_nat n * size <= 2 ^ 32 ->
  (exists k, cmp_loop n size a b g m = (1, g + k) /\ 0 <= k < Z.of_nat n /\ (forall i, 0 <= i < k * size -> m (a + i) = m (b + i)) /\
    ~ forall i, k * size <= i < (k + 1) * size -> m (a + i) = m (b + i)) \/
  cmp_loop n size a b g m = (0, g + Z.of_nat n) /\ forall i, 0 <= i < Z.of_nat n * size -> m (a + i) = m (b + i).
Proof.
  change (2 ^ 32) with 4294967296. intros Hm Hs. revert a b g. induction n as [|n IH]; intros a b g Ha Hb Wa Wb; cbn [cmp_loop].
  { right. rewrite Z.add_0_r. split; [reflexivity|lia]. }
  assert (0 < size) by (destruct Hs as [-> | [-> | ->]]; lia). replace (Z.of_nat (S n)) with (Z.of_nat n + 1) in * by lia.
  pose proof (rd_same size a b m Hm Hs) as R. destruct (rd size a m =? rd size b m); cbn [negb].
  - assert (forall i, 0 <= i < size -> m (a + i) = m (b + i)) as E0 by (apply R; reflexivity).
    destruct (Nat.eq_dec n 0) as [-> | Hn]; [right; cbn [cmp_loop]; split; [f_equal; lia|intros; apply E0; lia]|].
    assert (size <= Z.of_nat n * size) by nia. rewrite !u32_small by nia.
    assert (forall j, 0 <= j < size \/ (exists i, j = size + i /\ 0 <= i) \/ j < 0) as Sp by (intros j; destruct (Z.lt_ge_cases j 0); [auto|]; destruct (Z.lt_ge_cases j size); [auto|]; right; left; exists (j - size); lia).
    destruct (IH (a + size) (b + size) (g + 1)) as [(k & E & Hk & H1 & H2)|(E & H1)]; try nia.
    + left. exists (k + 1). split; [rewrite E; f_equal; lia|]. split; [lia|]. split.
      * intros i Hi. destruct (Sp i) as [Hj|[(j & -> & Hj)|Hj]]; [apply E0, Hj| |lia]. specialize (H1 j ltac:(nia)). rewrite !Z.add_assoc. exact H1.
      * intros F. apply H2. intros i Hi. specialize (F (size + i) ltac:(nia)). rewrite !Z.add_assoc in F. exact F.
    + right. split; [rewrite E; f_equal; lia|]. intros i Hi. destruct (Sp i) as [Hj|[(j & -> & Hj)|Hj]]; [apply E0, Hj| |lia].
      specialize (H1 j ltac:(nia)). rewrite !Z.add_assoc. exact H1.
  - left. exists 0. split; [f_equal; lia|]. split; [lia|]. split; [intros; nia|]. intros F. assert (false = true) as D by (apply R; intros i Hi; apply F; lia). discriminate.
Qed.

Lemma data_size_item argv : 0 <= data_size argv -> item (data_size argv).
Proof.
  unfold data_size, cmd_get_data_size, item. destruct (_ && _); [|auto]. destruct (_ =? chr "b"); [auto|]. destruct (_ =? chr "w"); [auto|].
  destruct (_ =? chr "l"); [auto|]. destruct (_ =? chr "s"); lia.
Qed.
Lemma based_u32 s argv i : is_u32 (based s argv i).
Proof. apply u32_range. Qed.

Section copy.
Context {St : Type} `{FlashBus St}.

End copy.

#[local] Instance ex_bus : FlashBus sim := sim_bus FLASH_BASE1_PRELIM ssize1.
Definition ex_cp_argv : list (list Z) := [str "cp.b"; str "100"; str "200"; str "10"].
Definition ex_cp_mem : mem := put_bytes (fun _ => 0) 0x100 (str "formal methods!!").

(** ** What the commands do with their arguments *)

(** A limit with the top bit set is a negative number of passes: nothing is tested, and the result is success. *)
Lemma mtest_negative_limit :
  @do_mem_mtest mem stuck_ram 1 [str "mtest"; str "100"; str "11f"; str "0"; str "ffffffff"] [] (fun _ => 7) = Some (0, [], fun _ => 7).
Proof. vm_compute. reflexivity. Qed.
(** The address offset of the base command is added to the range that crc32 looks at but not to the address it stores the result at. *)
Lemma crc_store_unbased :
  let s := snd (do_mem_base [str "base"; str "1000"] memcmd0) in
  base_address s = 0x1000 /\ snd (do_mem_crc [str "crc32"; str "0"; str "0"; str "20"] s (fun _ => 7)) 0x20 = 0.
Proof. vm_compute. auto. Qed.
(** A line of memory as md shows it, and three lines typed to mm: a value, nothing, and a dot. *)
Lemma md_line : snd (do_mem_md 0 [str "md.b"; str "100"; str "4"] [] memcmd0 ex_cp_mem) = str "00000100: 66 6f 72 6d    form" ++ [10].
Proof. vm_compute. reflexivity. Qed.
Lemma mm_lines : exists m', do_mem_mm 0 [str "mm.w"; str "100"] (str "beef" ++ [13; 13] ++ str "." ++ [13]) memcmd0 ex_cp_mem =
  Some (0, set_mm 0x104 2 memcmd0, [], m') /\ read_bytes m' 0x100 4 = [0xbe; 0xef] ++ str "rm".
Proof. eexists. vm_compute. auto. Qed.
