(* ===== verification/Elf.v ===== *)
(** * Executables (common/cmd_elf.c)

    bootelf and bootvx: the check of an image, the loader of its sections, the boot line of VxWorks.  Headers are read from
    memory where they lie, at the moment the loop comes to them; the copies and fills
    of the C library are block operations on memory.  The program that is
    started is a parameter. *)

From S2P Require Import Prelude CMem Strto CmdLine.

(** ** Constants *)

Definition ELFMAG : list Z := 0x7f :: str "ELF".
Definition ET_EXEC : Z := 2.
Definition SHT_NOBITS : Z := 8.
Definition SHF_ALLOC : Z := 2.
(** sizeof (Elf32_Shdr) *)
Definition SHDR_SIZE : Z := 40.
Definition CONFIG_SYS_VXWORKS_BOOT_ADDR : Z := 0x4200.
Definition CONFIG_SYS_VXWORKS_BOOT_DEVICE : list Z := str "eth(0,0)".
Definition CONFIG_SYS_VXWORKS_SERVERNAME : list Z := str "srv".

(** ** Headers *)

Definition load16 (m : mem) (a : Z) : Z := (m a .<< 8) .| m (a + 1).
(** Elf32_Ehdr *)
Definition e_type (m : mem) (ehdr : Z) : Z := load16 m (ehdr + 16).
Definition e_entry (m : mem) (ehdr : Z) : Z := load32 m (ehdr + 24).
Definition e_shoff (m : mem) (ehdr : Z) : Z := load32 m (ehdr + 32).
Definition e_shnum (m : mem) (ehdr : Z) : Z := load16 m (ehdr + 48).
(** Elf32_Shdr *)
Definition sh_type (m : mem) (shdr : Z) : Z := load32 m (shdr + 4).
Definition sh_flags (m : mem) (shdr : Z) : Z := load32 m (shdr + 8).
Definition sh_addr (m : mem) (shdr : Z) : Z := load32 m (shdr + 12).
Definition sh_offset (m : mem) (shdr : Z) : Z := load32 m (shdr + 16).
Definition sh_size (m : mem) (shdr : Z) : Z := load32 m (shdr + 20).

Definition IS_ELF (m : mem) (ehdr : Z) : bool := bool_decide (read_bytes m ehdr 4 = ELFMAG).
Definition valid_elf_image (m : mem) (addr : Z) : bool := IS_ELF m addr && (e_type m addr =? ET_EXEC).

(** ** The loader *)

(** One turn of the loop over the section headers. *)
Definition load_section (m : mem) (addr shdr : Z) : mem :=
  if (sh_flags m shdr .& SHF_ALLOC =? 0) || (sh_addr m shdr =? 0) || (sh_size m shdr =? 0) then m
  else
    let n := Z.to_nat (sh_size m shdr) in
    if sh_type m shdr =? SHT_NOBITS then put_bytes m (sh_addr m shdr) (repeat 0 n)
    else put_bytes m (sh_addr m shdr) (read_bytes m (u32 (addr + sh_offset m shdr)) n).
(** [n] more turns; the number of headers and their place are read again in each. *)
Fixpoint load_sections (n : nat) (i : Z) (m : mem) (addr : Z) : mem :=
  match n with
  | O => m
  | S n =>
      if i <? e_shnum m addr then load_sections n (i + 1) (load_section m addr (u32 (addr + e_shoff m addr + i * SHDR_SIZE))) addr
      else m
  end.
(** The number of headers is a 16-bit field. *)
Definition load_elf_image (m : mem) (addr : Z) : Z * mem :=
  let m := load_sections (Z.to_nat 65536) 0 m addr in (e_entry m addr, m).

(** ** The commands *)

Section commands.
(** The started program: its entry address and its words. *)
Context (exec : Z -> list (list Z) -> mem -> Z * mem) (getenv : list Z -> option (list Z)).

Definition image_address (argv : list (list Z)) (load_addr : Z) : Z :=
  match argv with _ :: a :: _ => fst (simple_strtoul a 16) | _ => load_addr end.
Definition do_bootelf (argv : list (list Z)) (load_addr : Z) (m : mem) : Z * mem :=
  let addr := image_address argv load_addr in
  if negb (valid_elf_image m addr) then (1, m)
  else
    let '(entry, m) := load_elf_image m addr in
    let '(rc, m) := exec entry (tl argv) m in
    (if negb (rc =? 0) then 1 else 0, m).

(** The text of the boot line, and what lies behind it in its buffer ([stack]) or in the environment. *)
Definition vx_field (name var : list Z) : list Z := match getenv var with Some v => name ++ v ++ str " " | None => [] end.
Definition bootline : list Z :=
  match getenv (str "bootargs") with
  | Some s => s
  | None =>
      CONFIG_SYS_VXWORKS_BOOT_DEVICE ++ CONFIG_SYS_VXWORKS_SERVERNAME ++ str ":" ++
      (match getenv (str "bootfile") with Some f => f | None => str "file" end) ++ str " " ++
      vx_field (str "e=") (str "ipaddr") ++ vx_field (str "h=") (str "serverip") ++ vx_field (str "tn=") (str "hostname")
  end.
Definition bootaddr : Z := match getenv (str "bootaddr") with Some s => fst (simple_strtoul s 16) | None => CONFIG_SYS_VXWORKS_BOOT_ADDR end.
(** memcpy of max (strlen (bootline), 255) bytes. *)
Definition put_bootline (behind : list Z) (m : mem) : mem :=
  put_bytes m bootaddr (take (Z.to_nat (Z.max (zlen bootline) 255)) (bootline ++ [0] ++ behind)).
(** Without the download of "bootvx tftp". *)
Definition do_bootvx (argv : list (list Z)) (load_addr : Z) (behind : list Z) (m : mem) : Z * mem :=
  let addr := image_address argv load_addr in
  let m := put_bootline behind m in
  let '(entry, m) := if valid_elf_image m addr then load_elf_image m addr else (addr, m) in
  let '(_, m) := exec entry [] m in (1, m).
End commands.

(** * Properties *)

(** ** Placing blocks *)

(** Blocks that do not meet, each with its address. *)
Definition apart (p q : Z * list Z) : Prop := fst p + zlen (snd p) <= fst q \/ fst q + zlen (snd q) <= fst p.
Definition place_all (m : mem) (l : list (Z * list Z)) : mem := fold_left (fun m p => put_bytes m (fst p) (snd p)) l m.
Lemma place_outside l : forall m x, Forall (fun p => ~ (fst p <= x < fst p + zlen (snd p))) l -> place_all m l x = m x.
Proof.
  induction l as [|p l IH]; intros m x H; [reflexivity|]. inversion H as [|? ? H1 H2]; subst. unfold place_all. cbn [fold_left].
  fold (place_all (put_bytes m (fst p) (snd p)) l). rewrite IH by exact H2. apply put_bytes_outside. exact H1.
Qed.
Lemma place_all_at l : forall m, ForallOrdPairs apart l -> Forall (fun p => bytes_at (place_all m l) (fst p) (snd p)) l.
Proof.
  induction l as [|p l IH]; intros m H; [constructor|]. inversion H as [|? ? H1 H2]; subst. unfold place_all. cbn [fold_left].
  fold (place_all (put_bytes m (fst p) (snd p)) l). constructor; [|apply IH, H2].
  eapply bytes_at_ext; [|apply put_bytes_at]. intros x Hx. apply place_outside. eapply List.Forall_impl; [|exact H1].
  intros q Hq Hin. unfold apart in Hq. lia.
Qed.

(** ** Images *)

Record section := Sec { s_type : Z; s_flags : Z; s_addr : Z; s_offset : Z; s_size : Z }.
Definition header (m : mem) (shdr : Z) (s : section) : Prop :=
  sh_type m shdr = s_type s /\ sh_flags m shdr = s_flags s /\ sh_addr m shdr = s_addr s /\ sh_offset m shdr = s_offset s /\ sh_size m shdr = s_size s.
(** Does the section occupy memory, and with what? *)
Definition occupies (s : section) : bool := negb ((s_flags s .& SHF_ALLOC =? 0) || (s_addr s =? 0) || (s_size s =? 0)).
Definition content (m : mem) (addr : Z) (s : section) : list Z :=
  if s_type s =? SHT_NOBITS then repeat 0 (Z.to_nat (s_size s)) else read_bytes m (addr + s_offset s) (Z.to_nat (s_size s)).
Definition blocks (m : mem) (addr : Z) (secs : list section) : list (Z * list Z) :=
  map (fun s => (s_addr s, content m addr s)) (List.filter occupies secs).
(** An image of [len] bytes at [addr] with these sections, none of which is loaded over the image. *)
Record image (m : mem) (addr len : Z) (secs : list section) : Prop := {
  im_room : 0 <= addr /\ 52 <= len /\ addr + len <= 2 ^ 32;
  im_count : e_shnum m addr = zlen secs /\ zlen secs < 65536;
  im_table : 0 <= e_shoff m addr /\ e_shoff m addr + zlen secs * SHDR_SIZE <= len;
  im_headers : forall i s, secs !! i = Some s -> header m (addr + e_shoff m addr + Z.of_nat i * SHDR_SIZE) s;
  im_sections : forall s, In s secs -> occupies s = true ->
    0 < s_size s /\ (s_addr s + s_size s <= addr \/ addr + len <= s_addr s) /\
    (s_type s <> SHT_NOBITS -> 0 <= s_offset s /\ s_offset s + s_size s <= len)
}.

Section load.
Context (m0 : mem) (addr len : Z) (secs : list section).
Hypothesis I : image m0 addr len secs.
Definition intact (m : mem) : Prop := forall x, addr <= x < addr + len -> m x = m0 x.

Lemma intact_load32 m a : intact m -> addr <= a -> a + 4 <= addr + len -> load32 m a = load32 m0 a.
Proof. intros H H1 H2. apply load32_ext. intros i Hi. apply H. lia. Qed.
Lemma intact_load16 m a : intact m -> addr <= a -> a + 2 <= addr + len -> load16 m a = load16 m0 a.
Proof. intros H H1 H2. unfold load16. rewrite !H by lia. reflexivity. Qed.
Lemma zlen_content s : 0 <= s_size s -> zlen (content m0 addr s) = s_size s.
Proof. intros H. unfold content, zlen. destruct (_ =? _); rewrite ?repeat_length, ?length_read_bytes; lia. Qed.

Lemma turn_spec m i s : intact m -> secs !! i = Some s ->
  let m' := load_section m addr (u32 (addr + e_shoff m addr + Z.of_nat i * SHDR_SIZE)) in
  m' = place_all m (blocks m0 addr [s]) /\ intact m'.
Proof.
  intros Hm Hs m'. destruct (im_room _ _ _ _ I) as (R1 & R2 & R3), (im_table _ _ _ _ I) as (T1 & T2), (im_headers _ _ _ _ I i s Hs) as (H1 & H2 & H3 & H4 & H5).
  pose proof (lookup_lt_Some _ _ _ Hs) as Hi. change (2 ^ 32) with 4294967296 in R3. unfold SHDR_SIZE in *.
  assert (e_shoff m addr = e_shoff m0 addr) as Eo by (apply intact_load32; [exact Hm|lia|lia]).
  set (h := addr + e_shoff m0 addr + Z.of_nat i * 40) in *. assert (addr <= h /\ h + 40 <= addr + len) as [L1 L2] by (unfold h, zlen in *; lia).
  assert (u32 (addr + e_shoff m addr + Z.of_nat i * 40) = h) as Eh by (rewrite Eo; fold h; apply u32_small; lia).
  assert (sh_type m h = s_type s /\ sh_flags m h = s_flags s /\ sh_addr m h = s_addr s /\ sh_offset m h = s_offset s /\ sh_size m h = s_size s) as (E1 & E2 & E3 & E4 & E5).
  { assert (forall k, 0 <= k <= 36 -> load32 m (h + k) = load32 m0 (h + k)) as El by (intros; apply intact_load32; [exact Hm|lia|lia]).
    unfold sh_type, sh_flags, sh_addr, sh_offset, sh_size in *. rewrite !El by lia. auto 10. }
  pose proof (im_sections _ _ _ _ I s (proj1 (list_elem_of_In _ _) (list_elem_of_lookup_2 _ _ _ Hs))) as Sx.
  assert (m' = place_all m (blocks m0 addr [s])) as Em.
  { subst m'. rewrite Eh. unfold load_section, blocks, place_all. rewrite E1, E2, E3, E4, E5. cbn [List.filter]. unfold occupies in *.
    destruct (_ || _); [reflexivity|]. destruct (Sx eq_refl) as (S1 & S2 & S3). cbn [negb map fold_left fst snd]. unfold content.
    destruct (Z.eqb_spec (s_type s) SHT_NOBITS) as [|Ht]; [reflexivity|]. destruct (S3 Ht) as [S4 S5]. rewrite u32_small by lia. f_equal.
    apply read_bytes_ext. intros j Hj. apply Hm. lia. }
  split; [exact Em|]. intros x Hx. rewrite Em, place_outside; [apply Hm, Hx|]. unfold blocks. cbn [List.filter].
  destruct (occupies s); [|constructor]. destruct (Sx eq_refl) as (S1 & S2 & _). cbn [map]. constructor; [|constructor]. cbn [fst snd].
  rewrite zlen_content by lia. lia.
Qed.

Lemma blocks_app l k : blocks m0 addr (l ++ k) = blocks m0 addr l ++ blocks m0 addr k.
Proof. unfold blocks. rewrite List.filter_app, map_app. reflexivity. Qed.
Lemma place_app m l k : place_all m (l ++ k) = place_all (place_all m l) k.
Proof. apply fold_left_app. Qed.
Lemma loop_places rest : forall n done m, secs = done ++ rest -> (List.length rest <= n)%nat -> intact m ->
  load_sections n (zlen done) m addr = place_all m (blocks m0 addr rest) /\ intact (place_all m (blocks m0 addr rest)).
Proof.
  induction rest as [|s rest IH]; intros n done m E Hn Hm.
  - split; [|exact Hm]. destruct n as [|n]; [reflexivity|]. cbn [load_sections]. rewrite app_nil_r in E. subst done.
    unfold e_shnum. destruct (im_room _ _ _ _ I) as (R1 & R2 & R3). rewrite intact_load16 by (assumption || lia). fold (e_shnum m0 addr).
    rewrite (proj1 (im_count _ _ _ _ I)), Z.ltb_irrefl. reflexivity.
  - destruct n as [|n]; [cbn in Hn; lia|]. cbn [load_sections]. unfold e_shnum. destruct (im_room _ _ _ _ I) as (R1 & R2 & R3).
    rewrite intact_load16 by (assumption || lia). fold (e_shnum m0 addr). rewrite (proj1 (im_count _ _ _ _ I)).
    assert (secs !! List.length done = Some s) as Hs by (rewrite E, lookup_app_r, Nat.sub_diag by lia; reflexivity).
    rewrite (proj2 (Z.ltb_lt _ _)) by (rewrite E, zlen_app, zlen_cons; pose proof (zlen_nonneg rest); lia).
    destruct (turn_spec m (List.length done) s Hm Hs) as [E1 H1]. fold (zlen done) in E1, H1. rewrite E1 in *.
    change (blocks m0 addr (s :: rest)) with (blocks m0 addr ([s] ++ rest)). rewrite blocks_app, place_app.
    replace (zlen done + 1) with (zlen (done ++ [s])) by (rewrite zlen_app; reflexivity).
    apply IH; [rewrite <- app_assoc; exact E|cbn in Hn; lia|exact H1].
Qed.
End load.

(** C20: the loader of executables.  For an image whose section headers and contents lie in it and whose sections are loaded neither over the image nor
    over each other, [load_elf_image] returns the entry point and leaves every section that occupies memory at its address,
    its contents copied or, without contents in the file, zeros, and no other byte of memory changed; sections without the allocation flag, without an address or
    empty are skipped. *)
Theorem elf_load_correct m addr len secs :
  image m addr len secs -> ForallOrdPairs apart (blocks m addr secs) ->
  let '(entry, m') := load_elf_image m addr in
  entry = e_entry m addr /\
  Forall (fun p => bytes_at m' (fst p) (snd p)) (blocks m addr secs) /\
  forall x, Forall (fun p => ~ (fst p <= x < fst p + zlen (snd p))) (blocks m addr secs) -> m' x = m x.
Proof.
  intros I A. destruct (im_room _ _ _ _ I) as (R1 & R2 & R3), (im_count _ _ _ _ I) as [C1 C2].
  destruct (loop_places m addr len secs I secs (Z.to_nat 65536) [] m eq_refl) as [E H]; [unfold zlen in C2; lia|intros x _; reflexivity|].
  unfold load_elf_image. change (zlen []) with 0 in E. rewrite E. split; [apply (intact_load32 m addr len _ _ H); lia|].
  split; [apply place_all_at, A|intros x Hx; apply place_outside, Hx].
Qed.

Definition ex_shdr (ty fl a o sz : Z) : list Z := flat_map (fun w => [u8 (w .>> 24); u8 (w .>> 16); u8 (w .>> 8); u8 w]) [0; ty; fl; a; o; sz; 0; 0; 0; 0].
Definition ex_secs : list section := [Sec 0 0 0 0 0; Sec 1 6 0x10000 52 8; Sec 8 3 0x10020 60 16].
Definition ex_elf : list Z :=
  ELFMAG ++ repeat 0 12 ++ [0; 2; 0; 20; 0; 0; 0; 1; 0; 1; 0; 4; 0; 0; 0; 0; 0; 0; 0; 60] ++ repeat 0 12 ++ [0; 3; 0; 0] ++
  str "verified" ++ concat (map (fun s => ex_shdr (s_type s) (s_flags s) (s_addr s) (s_offset s) (s_size s)) ex_secs).
Definition ex_elf_mem : mem := put_bytes (fun _ => 7) 0x2000 ex_elf.
Lemma elf_load_correct_witness :
  valid_elf_image ex_elf_mem 0x2000 = true /\
  let '(entry, m') := load_elf_image ex_elf_mem 0x2000 in
  entry = 0x10004 /\ bytes_at m' 0x10000 (str "verified") /\ bytes_at m' 0x10020 (repeat 0 16) /\ m' 0x10010 = 7.
Proof.
  split; [vm_compute; reflexivity|].
  assert (image ex_elf_mem 0x2000 180 ex_secs) as I.
  { constructor.
    - split; [lia|split; [lia|vm_compute; discriminate]].
    - split; [vm_compute; reflexivity|reflexivity].
    - split; vm_compute; discriminate.
    - intros [|[|[|i]]] s E; try discriminate E; injection E as <-; vm_compute; auto.
    - intros s [<- | [<- | [<- | []]]] Ho; try discriminate Ho; cbn; split_and!; try lia; intros; lia. }
  assert (blocks ex_elf_mem 0x2000 ex_secs = [(0x10000, str "verified"); (0x10020, repeat 0 16)]) as Eb by (vm_compute; reflexivity).
  pose proof (elf_load_correct ex_elf_mem 0x2000 180 ex_secs I) as H. rewrite Eb in H.
  destruct (load_elf_image ex_elf_mem 0x2000) as [entry m']. destruct H as (H1 & H2 & H3).
  - constructor; [constructor; [left; vm_compute; discriminate|constructor]|constructor; constructor].
  - apply Forall_cons_1 in H2 as [B1 H4]. apply Forall_cons_1 in H4 as [B2 _]. split; [vm_compute in H1; exact H1|]. split; [exact B1|]. split; [exact B2|].
    rewrite H3; [vm_compute; reflexivity|]. constructor; [intros [_ Hx]; vm_compute in Hx; discriminate Hx|].
    constructor; [intros [Hx _]; vm_compute in Hx; apply Hx; reflexivity|constructor].
Defined.

(** The boot line of VxWorks is copied with the greater of its length and 255: a short one takes along what lies behind it, a long one
    loses its terminator. *)
Definition ex_vx_env (args : list Z) (v : list Z) : option (list Z) := if decide (v = str "bootargs") then Some args else None.
Lemma bootline_length :
  put_bootline (ex_vx_env (str "eth(0,0)srv:vx")) (repeat 5 300) (fun _ => 7) (0x4200 + 254) = 5 /\
  put_bootline (ex_vx_env (repeat 97 300)) [] (fun _ => 7) (0x4200 + 300) = 7.
Proof. vm_compute. auto. Qed.
(** The type of machine is not looked at: an executable for any processor is accepted. *)
Lemma any_machine : valid_elf_image (upd ex_elf_mem (0x2000 + 19) 62) 0x2000 = true.
Proof. vm_compute. reflexivity. Qed.
