(* ===== verification/Bytes.v ===== *)
(** * Byte buffers with big-endian fields

    A packet or a hash block is a list of bytes; a 16- or 32-bit field of a
    packed structure is read and written in network byte order, which is the
    CPU's (htons and ntohs are the identity on the MPC74xx). *)

From S2P Require Import Prelude CMem.

(** ** Fields *)

Definition get8 (b : list Z) (i : nat) : Z := nth i b 0.
Definition get16 (b : list Z) (i : nat) : Z := (get8 b i .<< 8) .| get8 b (i + 1).
Definition get_be32 (data : list Z) (i : nat) : Z :=
  (nth i data 0 .<< 24) .| (nth (i + 1) data 0 .<< 16) .| (nth (i + 2) data 0 .<< 8) .| nth (i + 3) data 0.

Definition put16 (n : Z) : list Z := [u8 (n .>> 8); u8 n].
Definition put_be32 (n : Z) : list Z := [u8 (n .>> 24); u8 (n .>> 16); u8 (n .>> 8); u8 n].

(** memcpy (buffer + off, l, length) *)
Definition write_at (buffer : list Z) (off : nat) (l : list Z) : list Z :=
  take off buffer ++ l ++ drop (off + length l) buffer.

(** The [n] bytes at [off]. *)
Definition sub (b : list Z) (off n : nat) : list Z := take n (drop off b).

(** ** Lemmas *)

Lemma write_at_length buf off l : (off + length l <= length buf)%nat -> length (write_at buf off l) = length buf.
Proof. intros. unfold write_at. len_tac. Qed.
Lemma write_at_take buf off l :
  (off <= length buf)%nat -> take (off + length l) (write_at buf off l) = take off buf ++ l.
Proof.
  intros. unfold write_at. rewrite app_assoc. apply take_app_length'. len_tac.
Qed.
Lemma write_at_drop buf off l :
  (off <= length buf)%nat -> drop (off + length l) (write_at buf off l) = drop (off + length l) buf.
Proof.
  intros. unfold write_at. rewrite app_assoc. apply drop_app_length'. len_tac.
Qed.

Lemma length_sub b off n : (off + n <= length b)%nat -> length (sub b off n) = n.
Proof. intros. unfold sub. len_tac. Qed.

(** Reading back what was written, and what was not. *)
Lemma sub_write_same buf off l n :
  n = length l -> (off <= length buf)%nat -> sub (write_at buf off l) off n = l.
Proof.
  intros -> H. unfold sub, write_at. rewrite drop_app_length' by len_tac. apply take_app_length.
Qed.
Lemma sub_write_before buf off l o n :
  (o + n <= off)%nat -> (off <= length buf)%nat -> sub (write_at buf off l) o n = sub buf o n.
Proof.
  intros H Hl. unfold sub, write_at. rewrite drop_app_le, take_app_le by len_tac.
  rewrite <- (take_drop off buf) at 2. rewrite drop_app_le, take_app_le by len_tac. reflexivity.
Qed.
Lemma sub_write_after buf off l o n :
  (off + length l <= o)%nat -> (off <= length buf)%nat -> sub (write_at buf off l) o n = sub buf o n.
Proof.
  intros H Hl. unfold sub. f_equal. replace o with (off + length l + (o - off - length l))%nat by lia.
  set (k := (o - off - length l)%nat). rewrite <- (drop_drop buf k (off + length l)).
  rewrite <- (drop_drop (write_at _ _ _) k (off + length l)), write_at_drop by lia. reflexivity.
Qed.
Lemma sub_app b off n k : sub b off (n + k) = sub b off n ++ sub b (off + n) k.
Proof. unfold sub. rewrite <- drop_drop. symmetry. apply take_take_drop. Qed.

Lemma get8_sub b off n i : (i < n)%nat -> get8 (sub b off n) i = get8 b (off + i).
Proof.
  intros. unfold get8, sub. rewrite !nth_lookup, lookup_take by lia.
  rewrite decide_True by lia. rewrite lookup_drop. reflexivity.
Qed.
Lemma get16_sub b off n i : (i + 1 < n)%nat -> get16 (sub b off n) i = get16 b (off + i).
Proof. intros. unfold get16. rewrite !get8_sub by lia. do 2 f_equal. lia. Qed.
Lemma get_be32_sub b off n i : (i + 3 < n)%nat -> get_be32 (sub b off n) i = get_be32 b (off + i).
Proof.
  intros. unfold get_be32.
  fold (get8 (sub b off n) i) (get8 (sub b off n) (i + 1)) (get8 (sub b off n) (i + 2)) (get8 (sub b off n) (i + 3)).
  fold (get8 b (off + i)) (get8 b (off + i + 1)) (get8 b (off + i + 2)) (get8 b (off + i + 3)).
  rewrite !get8_sub by lia. rewrite !Nat.add_assoc. reflexivity.
Qed.

(** Writes into a written range, and next to it. *)
Lemma write_at_inner buf off h k l :
  (off + length h <= length buf)%nat -> (k + length l <= length h)%nat ->
  write_at (write_at buf off h) (off + k) l = write_at buf off (write_at h k l).
Proof.
  intros H1 H2. unfold write_at at 1 3. rewrite (write_at_length h) by lia.
  replace (off + k + length l)%nat with (off + (k + length l))%nat by lia.
  unfold write_at. rewrite (take_app_ge (take off buf)), (drop_app_ge (take off buf)) by len_tac.
  replace (length (take off buf)) with off by len_tac.
  replace (off + k - off)%nat with k by lia. replace (off + (k + length l) - off)%nat with (k + length l)%nat by lia.
  rewrite take_app_le, drop_app_le by lia. rewrite <- !app_assoc. reflexivity.
Qed.
Lemma write_at_next buf off h l :
  (off + length h + length l <= length buf)%nat ->
  write_at (write_at buf off h) (off + length h) l = write_at buf off (h ++ l).
Proof.
  intros H. unfold write_at at 1. rewrite write_at_take by lia.
  rewrite <- (drop_drop _ (length l) (off + length h)), write_at_drop, drop_drop by lia.
  unfold write_at. rewrite length_app, <- !app_assoc. do 4 f_equal. lia.
Qed.

(** Fields behind a prefix. *)
Lemma get8_app l r i : get8 (l ++ r) (length l + i) = get8 r i.
Proof. unfold get8. rewrite app_nth2 by lia. f_equal. lia. Qed.
Lemma get16_app l r p i : length l = p -> get16 (l ++ r) (p + i) = get16 r i.
Proof. intros <-. unfold get16. rewrite <- Nat.add_assoc, !get8_app. reflexivity. Qed.
Lemma get_be32_app l r p i : length l = p -> get_be32 (l ++ r) (p + i) = get_be32 r i.
Proof.
  intros <-. unfold get_be32. fold (get8 r i) (get8 r (i + 1)) (get8 r (i + 2)) (get8 r (i + 3)).
  fold (get8 (l ++ r) (length l + i)) (get8 (l ++ r) (length l + i + 1))
    (get8 (l ++ r) (length l + i + 2)) (get8 (l ++ r) (length l + i + 3)).
  rewrite <- !Nat.add_assoc, !get8_app. reflexivity.
Qed.
Lemma sub_app_skip l r p i k : length l = p -> sub (l ++ r) (p + i) k = sub r i k.
Proof. intros <-. unfold sub. rewrite <- drop_drop, drop_app_length. reflexivity. Qed.
Lemma drop_app_skip {A} (l r : list A) p i : length l = p -> drop (p + i) (l ++ r) = drop i r.
Proof. intros <-. rewrite <- drop_drop, drop_app_length. reflexivity. Qed.

Lemma byte_pair x : (u8 (x .>> 8) .<< 8) .| u8 x = u16 x.
Proof.
  rewrite lor_add_disjoint by (try apply u8_range; lia). unfold u8, u16, wrap. rewrite Z.shiftr_div_pow2 by lia.
  change (2 ^ 8) with 256. change (2 ^ 16) with 65536. Z.div_mod_to_equations. lia.
Qed.
Lemma byte_pair_high x : (u8 (x .>> 24) .<< 8) .| u8 (x .>> 16) = u16 (x .>> 16).
Proof.
  replace (x .>> 24) with ((x .>> 16) .>> 8) by (rewrite Z.shiftr_shiftr by lia; f_equal; lia). apply byte_pair.
Qed.
Lemma byte_quad x : (u8 (x .>> 24) .<< 24) .| (u8 (x .>> 16) .<< 16) .| (u8 (x .>> 8) .<< 8) .| u8 x = u32 x.
Proof.
  rewrite <- Z.lor_assoc, byte_pair.
  replace ((u8 (x .>> 24) .<< 24) .| (u8 (x .>> 16) .<< 16)) with (((u8 (x .>> 24) .<< 8) .| u8 (x .>> 16)) .<< 16)
    by (rewrite Z.shiftl_lor, Z.shiftl_shiftl by lia; reflexivity).
  rewrite byte_pair_high, lor_add_disjoint by (try apply u16_range; lia).
  unfold u16, u32, wrap. rewrite Z.shiftr_div_pow2 by lia.
  change (2 ^ 16) with 65536. change (2 ^ 32) with 4294967296. Z.div_mod_to_equations. lia.
Qed.
Lemma get16_put16 x r : get16 (put16 x ++ r) 0 = u16 x.
Proof. apply byte_pair. Qed.
Lemma get_put_be32 x r : get_be32 (put_be32 x ++ r) 0 = u32 x.
Proof. apply byte_quad. Qed.
