(* ===== verification/Stream.v ===== *)
(** * Block hashes over a byte stream (the common part of lib/sha1.c, lib/sha256.c)

    The two SHA contexts buffer their input the same way: 64-byte blocks, a
    64-bit byte counter in two words, a partial block kept in [buffer].  The
    section is parameterised by the compression function.  [represents]
    relates a context to the whole message fed so far. *)

From S2P Require Import Prelude CMem Bytes.

(** A counter of bytes, the chaining value, the partial block. *)
Record context (D : Type) := Context_ {
  total0 : Z;
  total1 : Z;
  state : D;
  buffer : list Z
}.
Arguments Context_ {D} _ _ _ _.
Arguments total0 {D} _.
Arguments total1 {D} _.
Arguments state {D} _.
Arguments buffer {D} _.

Section stream.
Context {D : Type} (process : D -> list Z -> D).

(** while (length >= 64): [fuel] blocks at most. *)
Fixpoint process_blocks (fuel : nat) (st : D) (input : list Z) : D * list Z :=
  match fuel with
  | O => (st, input)
  | S f =>
      if 64 <=? zlen input then process_blocks f (process st (take 64 input)) (drop 64 input)
      else (st, input)
  end.

Definition stream_update (ctx : context D) (input : list Z) : context D :=
  let length := zlen input in
  if length =? 0 then ctx
  else
    let left_ := total0 ctx .& 0x3F in
    let fill := 64 - left_ in
    let t0 := u32 (total0 ctx + length) in
    let t1 := if t0 <? length then u32 (total1 ctx + 1) else total1 ctx in
    let '(st, buf, input, left_) :=
      if negb (left_ =? 0) && (fill <=? length) then
        let buf := write_at (buffer ctx) (Z.to_nat left_) (take (Z.to_nat fill) input) in
        (process (state ctx) buf, buf, drop (Z.to_nat fill) input, 0)
      else (state ctx, buffer ctx, input, left_) in
    let '(st, input) := process_blocks (Datatypes.length input) st input in
    let buf := write_at buf (Z.to_nat left_) input in
    Context_ t0 t1 st buf.

Definition padding : list Z := 0x80 :: repeat 0 63.

(** The bit count, the padding and the last blocks. *)
Definition stream_finish (ctx : context D) : context D :=
  let high := u32 ((total0 ctx .>> 29) .| (total1 ctx .<< 3)) in
  let low := u32 (total0 ctx .<< 3) in
  let msglen := put_be32 high ++ put_be32 low in
  let last := total0 ctx .& 0x3F in
  let padn := if last <? 56 then 56 - last else 120 - last in
  let ctx := stream_update ctx (take (Z.to_nat padn) padding) in
  stream_update ctx msglen.

(** * Properties *)

(** The chaining value after the first [n] blocks of a message. *)
Fixpoint absorb (n : nat) (st : D) (l : list Z) : D :=
  match n with O => st | S n => absorb n (process st (take 64 l)) (drop 64 l) end.

Lemma absorb_plus n k st l : absorb (n + k) st l = absorb k (absorb n st l) (drop (64 * n) l).
Proof.
  revert st l. induction n as [|n IH]; intros st l; cbn [Nat.add absorb]; [reflexivity|].
  rewrite IH, drop_drop. do 2 f_equal. lia.
Qed.
Lemma absorb_app n st l r : (64 * n <= length l)%nat -> absorb n st (l ++ r) = absorb n st l.
Proof.
  revert st l. induction n as [|n IH]; intros st l Hn; cbn [absorb]; [reflexivity|].
  rewrite take_app_le, drop_app_le by lia. apply IH. len_tac.
Qed.

Lemma process_blocks_spec fuel : forall st l,
  (length l <= fuel)%nat ->
  process_blocks fuel st l = (absorb (length l / 64) st l, drop (64 * (length l / 64)) l).
Proof.
  induction fuel as [|fuel IH]; intros st l Hf; cbn [process_blocks].
  - destruct l; [reflexivity|simpl in Hf; lia].
  - destruct (Z.leb_spec 64 (zlen l)) as [Hl|Hl]; unfold zlen in Hl.
    + rewrite IH by len_tac. rewrite length_drop.
      assert (length l / 64 = S ((length l - 64) / 64))%nat as ->.
      { replace (length l) with (length l - 64 + 1 * 64)%nat at 1 by lia. rewrite Nat.div_add by lia. lia. }
      cbn [absorb]. rewrite drop_drop. do 2 f_equal. lia.
    + rewrite Nat.div_small by lia. reflexivity.
Qed.

(** The context after the message [msg], started from the chaining value [iv]. *)
Definition represents (iv : D) (ctx : context D) (msg : list Z) : Prop :=
  let n := length msg in
  total0 ctx = u32 (zlen msg) /\ total1 ctx = u32 (zlen msg / 2 ^ 32) /\
  state ctx = absorb (n / 64) iv msg /\ length (buffer ctx) = 64%nat /\
  take (n mod 64) (buffer ctx) = drop (64 * (n / 64)) msg.

Lemma carry_spec a n :
  0 <= a -> 0 < n < 2 ^ 32 ->
  (if u32 (u32 a + n) <? n then u32 (u32 (a / 2 ^ 32) + 1) else u32 (a / 2 ^ 32)) = u32 ((a + n) / 2 ^ 32) /\
  u32 (u32 a + n) = u32 (a + n).
Proof.
  intros Ha Hn. unfold u32, wrap. change (2 ^ 32) with 4294967296 in *. set (M := 4294967296) in *.
  assert (0 < M) as HM by (subst M; lia). clearbody M.
  split; [|apply Z.add_mod_idemp_l; lia]. rewrite (Z.add_mod_idemp_l a n) by lia.
  pose proof (Z.div_mod a M ltac:(lia)) as Hd. pose proof (Z.mod_pos_bound a M HM) as Hr.
  set (q := a / M) in *. set (r := a mod M) in *.
  destruct (Z.lt_ge_cases (r + n) M) as [Hlt|Hge].
  - assert ((a + n) mod M = r + n) as -> by (symmetry; apply Z.mod_unique with q; lia).
    assert ((a + n) / M = q) as -> by (symmetry; apply Z.div_unique with (r + n); lia).
    rewrite (proj2 (Z.ltb_ge _ _)) by lia. reflexivity.
  - assert ((a + n) mod M = r + n - M) as -> by (symmetry; apply Z.mod_unique with (q + 1); lia).
    assert ((a + n) / M = q + 1) as -> by (symmetry; apply Z.div_unique with (r + n - M); lia).
    rewrite (proj2 (Z.ltb_lt _ _)) by lia. apply Z.add_mod_idemp_l. lia.
Qed.

Lemma left_spec (l : list Z) : u32 (zlen l) .& 63 = Z.of_nat (length l mod 64).
Proof.
  unfold zlen. set (n := length l).
  change 63 with (Z.ones 6). rewrite Z.land_ones by lia. unfold u32, wrap. change (2 ^ 6) with 64.
  change (2 ^ 32) with 4294967296. rewrite Nat2Z.inj_mod. change (Z.of_nat 64) with 64. Z.div_mod_to_equations. lia.
Qed.

(** Feeding more input extends the represented message. *)
Lemma stream_update_spec iv ctx msg input :
  represents iv ctx msg -> zlen input < 2 ^ 32 -> represents iv (stream_update ctx input) (msg ++ input).
Proof.
  intros (H0 & H1 & Hs & Hb & Ht) Hl. unfold stream_update. pose proof (zlen_nonneg msg) as Hm.
  destruct (Z.eqb_spec (zlen input) 0) as [E|E].
  { assert (input = []) as -> by (destruct input; [reflexivity|zlen_simpl; pose proof (zlen_nonneg input); lia]).
    rewrite app_nil_r. split_and!; assumption. }
  pose proof (zlen_nonneg input). rewrite H0, H1.
  destruct (carry_spec (zlen msg) (zlen input) Hm ltac:(lia)) as [Hc1 Hc2]. rewrite Hc1, Hc2. clear Hc1 Hc2.
  rewrite !left_spec.
  set (n := length msg) in *. set (k := (n mod 64)%nat) in *. set (q := (n / 64)%nat) in *.
  assert (n = 64 * q + k)%nat as Hn by (apply Nat.div_mod; lia).
  assert (k < 64)%nat as Hk by (apply Nat.mod_upper_bound; lia).
  set (p := drop (64 * q) msg ++ input).
  assert (length (drop (64 * q) msg) = k) as Hd by (rewrite length_drop; lia).
  assert (drop (64 * q) (msg ++ input) = p) as Hp by (rewrite drop_app_le by lia; reflexivity).
  assert (length (msg ++ input) / 64 = q + length p / 64)%nat as Hq.
  { subst p. rewrite !length_app, Hd. fold n.
    replace (n + length input)%nat with (k + length input + q * 64)%nat by lia. rewrite Nat.div_add by lia. lia. }
  assert (length (msg ++ input) mod 64 = length p mod 64)%nat as Hr.
  { subst p. rewrite !length_app, Hd. fold n.
    replace (n + length input)%nat with (k + length input + q * 64)%nat by lia. apply Nat.Div0.mod_add. }
  assert (absorb (length (msg ++ input) / 64) iv (msg ++ input) = absorb (length p / 64) (state ctx) p) as Ha.
  { rewrite Hq, absorb_plus, Hp, absorb_app by (fold n; lia). rewrite Hs. reflexivity. }
  assert (drop (64 * (length (msg ++ input) / 64)) (msg ++ input) = drop (64 * (length p / 64)) p) as Hdp.
  { rewrite Hq. replace (64 * (q + length p / 64))%nat with (64 * q + 64 * (length p / 64))%nat by lia.
    rewrite <- drop_drop, Hp. reflexivity. }
  (* both branches: the chaining value and the pending bytes *)
  assert (forall st buf rest off,
    (off <= 64)%nat -> length buf = 64%nat -> (off + length rest < 64)%nat ->
    take off buf ++ rest = drop (64 * (length p / 64)) p -> st = absorb (length p / 64) (state ctx) p ->
    represents iv (Context_ (u32 (zlen msg + zlen input)) (u32 ((zlen msg + zlen input) / 2 ^ 32)) st
      (write_at buf off rest)) (msg ++ input)) as Hfin.
  { intros st buf rest off Ho Hbl Hlt Hpend ->. unfold represents. cbn [total0 total1 state buffer].
    rewrite zlen_app, Hdp, Hr. split_and!; auto.
    - rewrite write_at_length; lia.
    - rewrite <- Hpend, <- write_at_take by lia. f_equal.
      apply (f_equal length) in Hpend. rewrite length_app, length_take, length_drop in Hpend.
      pose proof (Nat.div_mod (length p) 64 ltac:(lia)). lia. }
  assert (length p = k + length input)%nat as Hlp by (subst p; rewrite length_app; lia).
  destruct (negb (Z.of_nat k =? 0) && (64 - Z.of_nat k <=? zlen input)) eqn:Eb.
  - apply andb_true_iff in Eb as [Ek Ef]. apply negb_true_iff, Z.eqb_neq in Ek. apply Z.leb_le in Ef. unfold zlen in Ef.
    replace (Z.to_nat (64 - Z.of_nat k)) with (64 - k)%nat by lia. rewrite Nat2Z.id.
    assert (write_at (buffer ctx) k (take (64 - k) input) = take 64 p) as ->.
    { unfold write_at. rewrite Ht, (drop_ge (buffer ctx)) by len_tac. rewrite app_nil_r.
      subst p. rewrite take_app_ge by lia. rewrite Hd. reflexivity. }
    assert (drop (64 - k) input = drop 64 p) as ->
      by (subst p; rewrite drop_app_ge by lia; rewrite Hd; reflexivity).
    assert (length p / 64 = S (length (drop 64 p) / 64))%nat as Hs64.
    { rewrite length_drop. replace (length p) with (length p - 64 + 1 * 64)%nat at 1 by lia. rewrite Nat.div_add by lia. lia. }
    rewrite process_blocks_spec by len_tac. change (Z.to_nat 0) with O. apply Hfin.
    + lia.
    + len_tac.
    + pose proof (Nat.mod_upper_bound (length (drop 64 p)) 64 ltac:(lia)).
      pose proof (Nat.div_mod (length (drop 64 p)) 64 ltac:(lia)). rewrite (length_drop _ (64 * _)). lia.
    + rewrite take_0. cbn [app]. rewrite Hs64, drop_drop. f_equal. lia.
    + rewrite Hs64. reflexivity.
  - rewrite Nat2Z.id, process_blocks_spec by lia. destruct (Nat.eq_dec k 0) as [Ek|Ek].
    + assert (p = input) as Epi by (subst p; destruct (drop (64 * q) msg); [reflexivity|simpl in Hd; lia]).
      rewrite Ek. apply Hfin.
      * lia.
      * exact Hb.
      * pose proof (Nat.mod_upper_bound (length input) 64 ltac:(lia)).
        pose proof (Nat.div_mod (length input) 64 ltac:(lia)). rewrite length_drop. lia.
      * rewrite take_0. cbn [app]. rewrite Epi. reflexivity.
      * rewrite Epi. reflexivity.
    + assert (length input < 64 - k)%nat as Hsh.
      { apply andb_false_iff in Eb as [Eb|Eb].
        - apply negb_false_iff, Z.eqb_eq in Eb. lia.
        - apply Z.leb_gt in Eb. unfold zlen in Eb. lia. }
      rewrite (Nat.div_small (length input)) by lia. cbn [absorb]. rewrite Nat.mul_0_r, drop_0. apply Hfin.
      * lia.
      * exact Hb.
      * lia.
      * rewrite Nat.div_small, Nat.mul_0_r, drop_0 by lia. rewrite Ht. reflexivity.
      * rewrite Nat.div_small by lia. reflexivity.
Qed.

(** The padding of FIPS 180: a one bit, zeros, the bit count in 64 bits. *)
Definition pad_message (msg : list Z) : list Z :=
  let k := (length msg mod 64)%nat in
  msg ++ 0x80 :: repeat 0 ((if (k <? 56)%nat then 56 - k else 120 - k) - 1)
  ++ put_be32 (8 * zlen msg / 2 ^ 32) ++ put_be32 (u32 (8 * zlen msg)).

Lemma shl3 x : 0 <= x -> u32 (u32 x .<< 3) = u32 (8 * x).
Proof.
  intros Hx. rewrite Z.shiftl_mul_pow2 by lia. change (2 ^ 3) with 8. unfold u32, wrap.
  rewrite Z.mul_mod_idemp_l by lia. f_equal. lia.
Qed.

Lemma length_high n :
  0 <= n -> 8 * n < 2 ^ 64 ->
  u32 ((u32 n .>> 29) .| (u32 (n / 2 ^ 32) .<< 3)) = 8 * n / 2 ^ 32.
Proof.
  intros H1 H2. change (2 ^ 64) with 18446744073709551616 in H2.
  unfold u32, wrap. change (2 ^ 32) with 4294967296.
  rewrite (Z.mod_small (n / 4294967296)) by (Z.div_mod_to_equations; lia).
  rewrite Z.lor_comm, lor_add_disjoint; try lia.
  - rewrite Z.shiftr_div_pow2 by lia. change (2 ^ 29) with 536870912. change (2 ^ 3) with 8.
    rewrite Z.mod_small; Z.div_mod_to_equations; lia.
  - rewrite Z.shiftr_div_pow2 by lia. change (2 ^ 29) with 536870912. change (2 ^ 3) with 8. Z.div_mod_to_equations. lia.
Qed.

Lemma take_padding n : (0 < n <= 64)%nat -> take n padding = 0x80 :: repeat 0 (n - 1).
Proof.
  intros Hn. unfold padding. destruct n as [|n]; [lia|]. rewrite firstn_cons. f_equal.
  rewrite Nat.sub_succ, Nat.sub_0_r. replace 63%nat with (n + (63 - n))%nat by lia.
  rewrite repeat_app. apply take_app_length'. symmetry. apply repeat_length.
Qed.

Lemma pad_message_length msg : (length (pad_message msg) mod 64 = 0)%nat.
Proof.
  unfold pad_message. cbv zeta. rewrite length_app. cbn [length]. rewrite !length_app, repeat_length. cbn [length put_be32].
  pose proof (Nat.mod_upper_bound (length msg) 64 ltac:(lia)) as Hk.
  pose proof (Nat.div_mod (length msg) 64 ltac:(lia)) as Hd.
  set (k := (length msg mod 64)%nat) in *. set (q := (length msg / 64)%nat) in *.
  destruct (Nat.ltb_spec k 56).
  - replace (length msg + S (56 - k - 1 + (4 + 4)))%nat with (0 + (q + 1) * 64)%nat by lia. apply Nat.Div0.mod_add.
  - replace (length msg + S (120 - k - 1 + (4 + 4)))%nat with (0 + (q + 2) * 64)%nat by lia. apply Nat.Div0.mod_add.
Qed.

(** Finishing feeds the padding and the length. *)
Lemma stream_finish_represents iv ctx msg :
  represents iv ctx msg -> 8 * zlen msg < 2 ^ 64 -> represents iv (stream_finish ctx) (pad_message msg).
Proof.
  intros Hrep Hl. pose proof Hrep as (H0 & H1 & _). pose proof (zlen_nonneg msg).
  unfold stream_finish. cbv zeta. rewrite H0, H1, shl3, length_high by lia.
  rewrite !left_spec.
  pose proof (Nat.mod_upper_bound (length msg) 64 ltac:(lia)) as Hk. set (k := (length msg mod 64)%nat) in *.
  set (padn := if Z.of_nat k <? 56 then 56 - Z.of_nat k else 120 - Z.of_nat k).
  assert (Z.to_nat padn = if (k <? 56)%nat then (56 - k)%nat else (120 - k)%nat) as Hpn.
  { subst padn. destruct (Z.ltb_spec (Z.of_nat k) 56), (Nat.ltb_spec k 56); lia. }
  assert (0 < Z.to_nat padn <= 64)%nat as Hpr by (rewrite Hpn; destruct (Nat.ltb_spec k 56); lia).
  rewrite take_padding by exact Hpr.
  match goal with |- context [stream_update (stream_update ctx ?a) ?b] =>
    pose proof (stream_update_spec iv ctx msg a Hrep) as R1;
    pose proof (stream_update_spec iv (stream_update ctx a) (msg ++ a) b) as R2 end.
  unfold pad_message. fold k. cbv zeta. rewrite <- Hpn. rewrite <- app_assoc in R2. apply R2.
  - apply R1. unfold zlen. cbn [length]. rewrite repeat_length. change (2 ^ 32) with 4294967296. lia.
  - vm_compute. reflexivity.
Qed.

(** It leaves the chaining value of the padded message. *)
Lemma stream_finish_spec iv ctx msg :
  represents iv ctx msg -> 8 * zlen msg < 2 ^ 64 ->
  state (stream_finish ctx) = absorb (length (pad_message msg) / 64) iv (pad_message msg).
Proof. intros Hr Hl. apply (stream_finish_represents iv ctx msg Hr Hl). Qed.

Definition fresh (iv : D) (buf : list Z) : context D := Context_ 0 0 iv buf.
Lemma fresh_represents iv buf : length buf = 64%nat -> represents iv (fresh iv buf) [].
Proof. intros H. split_and!; try reflexivity. exact H. Qed.

(** Any sequence of updates represents the concatenation. *)
Lemma updates_represent iv pieces : forall ctx msg,
  represents iv ctx msg -> Forall (fun p => zlen p < 2 ^ 32) pieces ->
  represents iv (fold_left stream_update pieces ctx) (msg ++ concat pieces).
Proof.
  induction pieces as [|p pieces IH]; intros ctx msg Hr Hp; cbn [fold_left concat]; [rewrite app_nil_r; exact Hr|].
  inversion Hp; subst. rewrite app_assoc. apply IH; [|assumption]. apply stream_update_spec; assumption.
Qed.
End stream.
