(* ===== verification/Sha.v ===== *)
(** * SHA-1 and SHA-256 (lib/sha1.c, lib/sha256.c)

    The compression functions as the C macros expand: the registers are renamed
    from round to round instead of moved, the message schedule is computed as it
    is needed (SHA-1 in a ring of sixteen words), and the choice and
    majority functions are in their short forms.  The reference is the text of
    FIPS 180: the padded message, the whole schedule, the textbook functions, and
    constants computed from the roots of the primes. *)

From S2P Require Import Prelude CMem Bytes Stream.

(** ** SHA-256 *)

Definition SHR (x n : Z) : Z := (x .& 0xFFFFFFFF) .>> n.
Definition ROTR (x n : Z) : Z := SHR x n .| u32 (x .<< (32 - n)).
Definition S0 (x : Z) : Z := ROTR x 7 .^ ROTR x 18 .^ SHR x 3.
Definition S1 (x : Z) : Z := ROTR x 17 .^ ROTR x 19 .^ SHR x 10.
Definition S2 (x : Z) : Z := ROTR x 2 .^ ROTR x 13 .^ ROTR x 22.
Definition S3 (x : Z) : Z := ROTR x 6 .^ ROTR x 11 .^ ROTR x 25.
Definition F0 (x y z : Z) : Z := (x .& y) .| (z .& (x .| y)).
Definition F1 (x y z : Z) : Z := z .^ (x .& (y .^ z)).

(** R(t): the next word of the schedule. *)
Definition R256 (W : list Z) (t : nat) : Z :=
  u32 (S1 (nth (t - 2) W 0) + nth (t - 7) W 0 + S0 (nth (t - 15) W 0) + nth (t - 16) W 0).

Record regs8 := Regs8 { rA : Z; rB : Z; rC : Z; rD : Z; rE : Z; rF : Z; rG : Z; rH : Z }.

(** P(a,b,c,d,e,f,g,h,x,K), with the registers named for the next round. *)
Definition P256 (r : regs8) (x K : Z) : regs8 :=
  let '(Regs8 a b c d e f g h) := r in
  let temp1 := u32 (h + S3 e + F1 e f g + K + x) in
  let temp2 := u32 (S2 a + F0 a b c) in
  Regs8 (u32 (temp1 + temp2)) a b c (u32 (d + temp1)) e f g.

Definition K256 : list Z :=
  [0x428A2F98; 0x71374491; 0xB5C0FBCF; 0xE9B5DBA5; 0x3956C25B; 0x59F111F1; 0x923F82A4; 0xAB1C5ED5;
   0xD807AA98; 0x12835B01; 0x243185BE; 0x550C7DC3; 0x72BE5D74; 0x80DEB1FE; 0x9BDC06A7; 0xC19BF174;
   0xE49B69C1; 0xEFBE4786; 0x0FC19DC6; 0x240CA1CC; 0x2DE92C6F; 0x4A7484AA; 0x5CB0A9DC; 0x76F988DA;
   0x983E5152; 0xA831C66D; 0xB00327C8; 0xBF597FC7; 0xC6E00BF3; 0xD5A79147; 0x06CA6351; 0x14292967;
   0x27B70A85; 0x2E1B2138; 0x4D2C6DFC; 0x53380D13; 0x650A7354; 0x766A0ABB; 0x81C2C92E; 0x92722C85;
   0xA2BFE8A1; 0xA81A664B; 0xC24B8B70; 0xC76C51A3; 0xD192E819; 0xD6990624; 0xF40E3585; 0x106AA070;
   0x19A4C116; 0x1E376C08; 0x2748774C; 0x34B0BCB5; 0x391C0CB3; 0x4ED8AA4A; 0x5B9CCA4F; 0x682E6FF3;
   0x748F82EE; 0x78A5636F; 0x84C87814; 0x8CC70208; 0x90BEFFFA; 0xA4506CEB; 0xBEF9A3F7; 0xC67178F2].

(** One round: the word is W[t] or R(t), which is stored. *)
Definition round256 (s : regs8 * list Z) (tK : nat * Z) : regs8 * list Z :=
  let '(r, W) := s in
  let '(t, K) := tK in
  if (t <? 16)%nat then (P256 r (nth t W 0) K, W)
  else let x := R256 W t in (P256 r x K, W ++ [x]).

Definition sha256_process (st : regs8) (data : list Z) : regs8 :=
  let W := map (fun i => get_be32 data (4 * i)) (seq 0 16) in
  let '(Regs8 a b c d e f g h, _) := fold_left round256 (combine (seq 0 64) K256) (st, W) in
  Regs8 (u32 (rA st + a)) (u32 (rB st + b)) (u32 (rC st + c)) (u32 (rD st + d))
        (u32 (rE st + e)) (u32 (rF st + f)) (u32 (rG st + g)) (u32 (rH st + h)).

(** The buffer keeps whatever bytes were there. *)
Definition sha256_starts (buf : list Z) : context regs8 :=
  Context_ 0 0 (Regs8 0x6A09E667 0xBB67AE85 0x3C6EF372 0xA54FF53A
                      0x510E527F 0x9B05688C 0x1F83D9AB 0x5BE0CD19) buf.
Definition sha256_update : context regs8 -> list Z -> context regs8 := stream_update sha256_process.
Definition words8 (r : regs8) : list Z :=
  put_be32 (rA r) ++ put_be32 (rB r) ++ put_be32 (rC r) ++ put_be32 (rD r) ++
  put_be32 (rE r) ++ put_be32 (rF r) ++ put_be32 (rG r) ++ put_be32 (rH r).
Definition sha256_finish (ctx : context regs8) : list Z :=
  words8 (state (stream_finish sha256_process ctx)).

(** ** SHA-1 *)

(** S(x,n), on unsigned longs of 32 bits. *)
Definition SROL (x n : Z) : Z := u32 (x .<< n) .| ((x .& 0xFFFFFFFF) .>> (32 - n)).

(** R(t): the ring of sixteen words, the new word stored in place of the oldest. *)
Definition R1 (W : list Z) (t : nat) : Z * list Z :=
  let w i := nth (Nat.modulo i 16) W 0 in
  let temp := w (t - 3)%nat .^ w (t - 8)%nat .^ w (t - 14)%nat .^ w t in
  let x := SROL temp 1 in
  (x, <[(t mod 16)%nat := x]> W).

Record regs5 := Regs5 { qA : Z; qB : Z; qC : Z; qD : Z; qE : Z }.

(** P(a,b,c,d,e,x), with the registers named for the next round. *)
Definition P1 (F : Z -> Z -> Z -> Z) (K : Z) (r : regs5) (x : Z) : regs5 :=
  let '(Regs5 a b c d e) := r in
  Regs5 (u32 (e + (SROL a 5 + F b c d + K + x))) a (SROL b 30) c d.

(** F and K of the four groups of twenty rounds. *)
Definition F1_of (t : nat) : Z -> Z -> Z -> Z :=
  if (t <? 20)%nat then fun x y z => z .^ (x .& (y .^ z))
  else if (t <? 40)%nat then fun x y z => x .^ y .^ z
  else if (t <? 60)%nat then fun x y z => (x .& y) .| (z .& (x .| y))
  else fun x y z => x .^ y .^ z.
Definition K1_of (t : nat) : Z :=
  if (t <? 20)%nat then 0x5A827999
  else if (t <? 40)%nat then 0x6ED9EBA1
  else if (t <? 60)%nat then 0x8F1BBCDC
  else 0xCA62C1D6.

Definition round1 (s : regs5 * list Z) (t : nat) : regs5 * list Z :=
  let '(r, W) := s in
  let '(x, W) := if (t <? 16)%nat then (nth t W 0, W) else R1 W t in
  (P1 (F1_of t) (K1_of t) r x, W).

Definition sha1_process (st : regs5) (data : list Z) : regs5 :=
  let W := map (fun i => get_be32 data (4 * i)) (seq 0 16) in
  let '(Regs5 a b c d e, _) := fold_left round1 (seq 0 80) (st, W) in
  Regs5 (u32 (qA st + a)) (u32 (qB st + b)) (u32 (qC st + c)) (u32 (qD st + d)) (u32 (qE st + e)).

Definition sha1_starts (buf : list Z) : context regs5 :=
  Context_ 0 0 (Regs5 0x67452301 0xEFCDAB89 0x98BADCFE 0x10325476 0xC3D2E1F0) buf.
Definition sha1_update : context regs5 -> list Z -> context regs5 := stream_update sha1_process.
Definition words5 (r : regs5) : list Z :=
  put_be32 (qA r) ++ put_be32 (qB r) ++ put_be32 (qC r) ++ put_be32 (qD r) ++ put_be32 (qE r).
Definition sha1_finish (ctx : context regs5) : list Z :=
  words5 (state (stream_finish sha1_process ctx)).

(** [buf] is what the context's buffer holds on the stack. *)
Definition sha1_csum (buf input : list Z) : list Z :=
  sha1_finish (sha1_update (sha1_starts buf) input).

(** The watchdog build feeds chunks; [fuel] of them at most. *)
Fixpoint sha1_wd_loop (fuel : nat) (ctx : context regs5) (input : list Z) (chunk_sz : Z)
  : option (context regs5) :=
  match input with
  | [] => Some ctx
  | _ =>
      match fuel with
      | O => None
      | S f =>
          let chunk := if chunk_sz <? zlen input then chunk_sz else zlen input in
          sha1_wd_loop f (sha1_update ctx (take (Z.to_nat chunk) input)) (drop (Z.to_nat chunk) input) chunk_sz
      end
  end.
Definition sha1_csum_wd (fuel : nat) (buf input : list Z) (chunk_sz : Z) : option (list Z) :=
  match sha1_wd_loop fuel (sha1_starts buf) input chunk_sz with
  | Some ctx => Some (sha1_finish ctx)
  | None => None
  end.

(** for (i = 0; i < keylen; i++) { if (i >= 64) break; k_pad[i] ^= key[i]; } *)
Fixpoint xor_key (pad key : list Z) : list Z :=
  match pad, key with
  | p :: pad, k :: key => (p .^ k) :: xor_key pad key
  | _, _ => pad
  end.
Definition sha1_hmac (buf key input : list Z) : list Z :=
  let k_ipad := xor_key (repeat 0x36 64) key in
  let k_opad := xor_key (repeat 0x5C 64) key in
  let ctx := sha1_update (sha1_starts buf) k_ipad in
  let ctx := sha1_update ctx input in
  let buf := buffer (stream_finish sha1_process ctx) in
  let tmpbuf := sha1_finish ctx in
  let ctx := sha1_update (sha1_starts buf) k_opad in
  sha1_finish (sha1_update ctx tmpbuf).

(** * The reference: FIPS 180 *)

Definition rotr32 (x n : Z) : Z := u32 ((u32 x .>> n) .| (u32 x .<< (32 - n))).
Definition rotl32 (x n : Z) : Z := rotr32 x (32 - n).
Definition Ch (x y z : Z) : Z := (x .& y) .^ (Z.lnot x .& z).
Definition Maj (x y z : Z) : Z := (x .& y) .^ (x .& z) .^ (y .& z).
Definition Parity (x y z : Z) : Z := x .^ y .^ z.

(** The first primes, and the fractional parts of their roots. *)
Definition is_prime (n : nat) : bool := forallb (fun d => negb (n mod d =? 0)%nat) (seq 2 (n - 2)).
Definition primes (bound : nat) : list Z := map Z.of_nat (List.filter is_prime (seq 2 (bound - 1))).
Fixpoint icbrt (k : nat) (n r : Z) : Z :=
  match k with
  | O => r
  | S k => let r' := r + 2 ^ Z.of_nat k in icbrt k n (if r' ^ 3 <=? n then r' else r)
  end.
Definition frac_cbrt (p : Z) : Z := u32 (icbrt 40 (p * 2 ^ 96) 0).
Definition frac_sqrt (p : Z) : Z := u32 (Z.sqrt (p * 2 ^ 64)).

Definition fips256_K : list Z := map frac_cbrt (primes 311).
Definition fips256_iv : list Z := map frac_sqrt (primes 19).

Section schedule.
Context (next : list Z -> Z).
Definition extend (W : list Z) : list Z := W ++ [next W].

Lemma iter_extend n : forall W, exists l, iter n extend W = W ++ l /\ length l = n.
Proof.
  induction n as [|n IH]; intros W; cbn [iter]; [exists []; rewrite app_nil_r; auto|].
  destruct (IH (extend W)) as (l & -> & Hl). exists (next W :: l). split; [|cbn; lia].
  unfold extend. rewrite <- app_assoc. reflexivity.
Qed.
End schedule.

(** The word [n] places before the end. *)
Definition back (W : list Z) (n : nat) : Z := nth (length W - n) W 0.

Definition fips256_next (W : list Z) : Z :=
  let s0 x := rotr32 x 7 .^ rotr32 x 18 .^ (u32 x .>> 3) in
  let s1 x := rotr32 x 17 .^ rotr32 x 19 .^ (u32 x .>> 10) in
  u32 (s1 (back W 2) + back W 7 + s0 (back W 15) + back W 16).

Definition fips256_round (r : regs8) (KW : Z * Z) : regs8 :=
  let '(Regs8 a b c d e f g h) := r in
  let T1 := u32 (h + (rotr32 e 6 .^ rotr32 e 11 .^ rotr32 e 25) + Ch e f g + fst KW + snd KW) in
  let T2 := u32 ((rotr32 a 2 .^ rotr32 a 13 .^ rotr32 a 22) + Maj a b c) in
  Regs8 (u32 (T1 + T2)) a b c (u32 (d + T1)) e f g.

Definition words_of (block : list Z) : list Z := map (fun i => get_be32 block (4 * i)) (seq 0 16).

Definition fips256_compress (st : regs8) (block : list Z) : regs8 :=
  let W := iter 48 (extend fips256_next) (words_of block) in
  let r := fold_left fips256_round (combine fips256_K W) st in
  Regs8 (u32 (rA st + rA r)) (u32 (rB st + rB r)) (u32 (rC st + rC r)) (u32 (rD st + rD r))
        (u32 (rE st + rE r)) (u32 (rF st + rF r)) (u32 (rG st + rG r)) (u32 (rH st + rH r)).

Definition fips_digest {D} (compress : D -> list Z -> D) (iv : D) (out : D -> list Z) (msg : list Z) : list Z :=
  let padded := pad_message msg in
  out (absorb compress (length padded / 64) iv padded).

Definition sha256_ref (msg : list Z) : list Z :=
  match fips256_iv with
  | [a; b; c; d; e; f; g; h] => fips_digest fips256_compress (Regs8 a b c d e f g h) words8 msg
  | _ => []
  end.

Definition fips1_next (W : list Z) : Z :=
  rotl32 (back W 3 .^ back W 8 .^ back W 14 .^ back W 16) 1.
Definition fips1_f (t : nat) : Z -> Z -> Z -> Z :=
  if (t <? 20)%nat then Ch else if (t <? 40)%nat then Parity else if (t <? 60)%nat then Maj else Parity.
(** 2^30 times the square roots of 2, 3, 5 and 10. *)
Definition fips1_K (t : nat) : Z :=
  Z.sqrt ((if (t <? 20)%nat then 2 else if (t <? 40)%nat then 3 else if (t <? 60)%nat then 5 else 10) * 2 ^ 60).
Definition fips1_round (r : regs5) (tW : nat * Z) : regs5 :=
  let '(Regs5 a b c d e) := r in
  let T := u32 (rotl32 a 5 + fips1_f (fst tW) b c d + e + fips1_K (fst tW) + snd tW) in
  Regs5 T a (rotl32 b 30) c d.
Definition fips1_compress (st : regs5) (block : list Z) : regs5 :=
  let W := iter 64 (extend fips1_next) (words_of block) in
  let r := fold_left fips1_round (combine (seq 0 80) W) st in
  Regs5 (u32 (qA st + qA r)) (u32 (qB st + qB r)) (u32 (qC st + qC r)) (u32 (qD st + qD r)) (u32 (qE st + qE r)).
Definition sha1_ref (msg : list Z) : list Z :=
  fips_digest fips1_compress (Regs5 0x67452301 0xEFCDAB89 0x98BADCFE 0x10325476 0xC3D2E1F0) words5 msg.

(** * Properties *)

(** ** The functions *)

Lemma land_word x : x .& 0xFFFFFFFF = u32 x.
Proof. change 0xFFFFFFFF with (Z.ones 32). apply Z.land_ones. lia. Qed.

Lemma ROTR_spec x n : 0 < n < 32 -> ROTR x n = rotr32 x n.
Proof.
  intros Hn. unfold ROTR, SHR, rotr32. rewrite land_word. unfold u32. by_bits i.
  rewrite !wrap_spec by lia. bit_specs. destruct (Z.lt_ge_cases (i - (32 - n)) 0) as [Hneg|Hpos].
  - rewrite !(Z.testbit_neg_r _ (i - (32 - n))) by lia. rewrite wrap_spec by lia. rewrite (proj2 (Z.ltb_lt i 32)) by lia. btauto.
  - rewrite !wrap_spec by lia. bit_specs. destruct (Z.ltb_spec i 32).
    + rewrite (proj2 (Z.ltb_lt (i - (32 - n)) 32)) by lia. btauto.
    + rewrite (proj2 (Z.ltb_ge (i + n) 32)) by lia. btauto.
Qed.

Lemma SROL_spec x n : 0 < n < 32 -> SROL x n = rotl32 x n.
Proof.
  intros Hn. unfold rotl32. rewrite <- ROTR_spec by lia. unfold SROL, ROTR, SHR.
  replace (32 - (32 - n)) with n by lia. apply Z.lor_comm.
Qed.

Lemma F1_Ch x y z : F1 x y z = Ch x y z.
Proof. unfold F1, Ch. by_bits i. btauto. Qed.
Lemma F0_Maj x y z : F0 x y z = Maj x y z.
Proof. unfold F0, Maj. by_bits i. btauto. Qed.

Lemma F1_of_spec t x y z : F1_of t x y z = fips1_f t x y z.
Proof.
  unfold F1_of, fips1_f. destruct (t <? 20)%nat; [apply (F1_Ch x y z)|].
  destruct (t <? 40)%nat; [reflexivity|]. destruct (t <? 60)%nat; [apply (F0_Maj x y z)|reflexivity].
Qed.
Lemma K1_of_spec t : K1_of t = fips1_K t.
Proof.
  unfold K1_of, fips1_K. destruct (t <? 20)%nat; [vm_compute; reflexivity|].
  destruct (t <? 40)%nat; [vm_compute; reflexivity|]. destruct (t <? 60)%nat; vm_compute; reflexivity.
Qed.
Lemma K256_roots : K256 = fips256_K.
Proof. vm_compute. reflexivity. Qed.

(** ** SHA-256 *)

Lemma P256_spec r x K : P256 r x K = fips256_round r (K, x).
Proof.
  destruct r. unfold P256, fips256_round, S3, S2. cbn [fst snd].
  rewrite !ROTR_spec, F1_Ch, F0_Maj by lia. reflexivity.
Qed.

Lemma R256_spec W : R256 W (length W) = fips256_next W.
Proof.
  unfold R256, fips256_next, S1, S0, SHR. rewrite !ROTR_spec, !land_word by lia. reflexivity.
Qed.

(** From round 16 on, the words are those of the whole schedule. *)
Lemma rounds256_late Ks : forall r W,
  (16 <= length W)%nat ->
  fold_left round256 (combine (seq (length W) (length Ks)) Ks) (r, W) =
    (fold_left fips256_round (combine Ks (drop (length W) (iter (length Ks) (extend fips256_next) W))) r,
     iter (length Ks) (extend fips256_next) W).
Proof.
  induction Ks as [|K Ks IH]; intros r W HW; cbn [length seq combine fold_left iter]; [reflexivity|].
  unfold round256 at 2. rewrite (proj2 (Nat.ltb_ge _ _)) by lia. cbv zeta. rewrite R256_spec, P256_spec.
  fold (extend fips256_next W).
  destruct (iter_extend fips256_next (length Ks) (extend fips256_next W)) as (l & E & Hl).
  replace (S (length W)) with (length (extend fips256_next W)) by (unfold extend; len_tac).
  rewrite IH by (unfold extend; len_tac). f_equal. rewrite E.
  rewrite (drop_app_length' (extend fips256_next W)) by reflexivity.
  unfold extend. rewrite <- (app_assoc W), (drop_app_length' W) by reflexivity. reflexivity.
Qed.

Lemma rounds256_early Ks : forall n r W,
  (n + length Ks <= 16)%nat -> (n + length Ks <= length W)%nat ->
  fold_left round256 (combine (seq n (length Ks)) Ks) (r, W) =
    (fold_left fips256_round (combine Ks (take (length Ks) (drop n W))) r, W).
Proof.
  induction Ks as [|K Ks IH]; intros n r W H1 H2; cbn [length seq combine fold_left]; [reflexivity|].
  cbn [length] in H1, H2. unfold round256 at 2. rewrite (proj2 (Nat.ltb_lt _ _)) by lia. rewrite P256_spec.
  rewrite IH by lia. destruct (lookup_lt_is_Some_2 W n) as [x Hx]; [lia|].
  rewrite (drop_S W x n Hx). cbn [firstn combine fold_left]. rewrite (nth_lookup_Some W n 0 x Hx). reflexivity.
Qed.

Lemma length_words_of block : length (words_of block) = 16%nat.
Proof. unfold words_of. rewrite length_map, length_seq. reflexivity. Qed.

Lemma combine_app {A B} (a1 a2 : list A) (b1 b2 : list B) :
  length a1 = length b1 -> combine (a1 ++ a2) (b1 ++ b2) = combine a1 b1 ++ combine a2 b2.
Proof.
  revert b1. induction a1 as [|a a1 IH]; intros [|b b1] H; try discriminate; cbn; [reflexivity|].
  f_equal. apply IH. injection H as H. exact H.
Qed.

Lemma sha256_process_spec st block : sha256_process st block = fips256_compress st block.
Proof.
  unfold sha256_process, fips256_compress. fold (words_of block). rewrite <- K256_roots.
  assert (exists K1 K2, K256 = K1 ++ K2 /\ length K1 = 16%nat /\ length K2 = 48%nat) as (K1 & K2 & -> & L1 & L2).
  { exists (take 16 K256), (drop 16 K256). split_and!; [symmetry; apply take_drop|reflexivity|reflexivity]. }
  change 64%nat with (16 + 48)%nat. rewrite seq_app, combine_app by (rewrite length_seq; auto). rewrite fold_left_app.
  pose proof (length_words_of block) as LW. 
  replace (seq 0 16) with (seq 0 (length K1)) by (rewrite L1; reflexivity). rewrite (rounds256_early K1) by lia.
  rewrite drop_0, take_ge by lia.
  set (W := words_of block) in *. change (0 + 16)%nat with 16%nat.
  replace (seq 16 48) with (seq (length W) (length K2)) by (rewrite L2, LW; reflexivity).
  rewrite (rounds256_late K2) by lia.
  rewrite L2. destruct (iter_extend fips256_next 48 W) as (l & E & Hl). rewrite E.
  rewrite drop_app_length' by reflexivity. rewrite combine_app, fold_left_app by lia.
  destruct (fold_left fips256_round _ _) as [a b c d e f g h]. reflexivity.
Qed.

Lemma absorb_ext {D} (f g : D -> list Z -> D) n st l :
  (forall s b, f s b = g s b) -> absorb f n st l = absorb g n st l.
Proof.
  intros H. revert st l. induction n as [|n IH]; intros st l; cbn [absorb]; [reflexivity|].
  rewrite H. apply IH.
Qed.

Lemma fips256_iv_value :
  fips256_iv = [0x6A09E667; 0xBB67AE85; 0x3C6EF372; 0xA54FF53A; 0x510E527F; 0x9B05688C; 0x1F83D9AB; 0x5BE0CD19].
Proof. vm_compute. reflexivity. Qed.

(** C18: starts, any sequence of updates and finish compute the SHA-256 of FIPS
    180 of the concatenation of the pieces, however the input is split. *)
Theorem sha256_correct buf pieces :
  length buf = 64%nat -> Forall (fun p => zlen p < 2 ^ 32) pieces -> 8 * zlen (concat pieces) < 2 ^ 64 ->
  sha256_finish (fold_left sha256_update pieces (sha256_starts buf)) = sha256_ref (concat pieces).
Proof.
  intros Hb Hp Hl. unfold sha256_finish, sha256_ref. rewrite fips256_iv_value. unfold fips_digest. cbv zeta.
  erewrite stream_finish_spec by (first [exact Hl | apply updates_represent; [apply fresh_represents, Hb|exact Hp]]).
  erewrite absorb_ext by apply sha256_process_spec. reflexivity.
Qed.

Lemma sha256_correct_witness :
  let pieces := [str "a"; []; str "bc"] in
  sha256_finish (fold_left sha256_update pieces (sha256_starts (repeat 0xEE 64))) = sha256_ref (str "abc") /\
  take 8 (sha256_ref (str "abc")) = [0xba; 0x78; 0x16; 0xbf; 0x8f; 0x01; 0xcf; 0xea].
Proof.
  split.
  - apply (sha256_correct (repeat 0xEE 64) [str "a"; []; str "bc"]); [reflexivity| |vm_compute; reflexivity].
    repeat constructor.
  - vm_compute. reflexivity.
Defined.

(** ** SHA-1 *)

Lemma P1_spec r t x : P1 (F1_of t) (K1_of t) r x = fips1_round r (t, x).
Proof.
  destruct r as [a b c d e]. unfold P1, fips1_round. cbn [fst snd]. cbv zeta.
  rewrite !SROL_spec, F1_of_spec, K1_of_spec by lia. f_equal. unfold u32. f_equal. ring.
Qed.

(** The ring holds the last sixteen words of the schedule. *)
Definition ring_of (V W : list Z) : Prop :=
  length V = 16%nat /\
  forall i, (length W - 16 <= i < length W)%nat -> nth (i mod 16) V 0 = nth i W 0.

Lemma R1_spec V W :
  (16 <= length W)%nat -> ring_of V W ->
  fst (R1 V (length W)) = fips1_next W /\ ring_of (snd (R1 V (length W))) (extend fips1_next W).
Proof.
  intros HW [HV Hr]. unfold R1. cbv zeta. cbn [fst snd].
  assert (length W mod 16 = (length W - 16) mod 16)%nat as Hm.
  { replace (length W) with (length W - 16 + 1 * 16)%nat at 1 by lia. apply Nat.Div0.mod_add. }
  rewrite Hm, !Hr, SROL_spec by lia. fold (fips1_next W).
  assert (nth (length W - 3) W 0 .^ nth (length W - 8) W 0 .^ nth (length W - 14) W 0 .^ nth (length W - 16) W 0
          = back W 3 .^ back W 8 .^ back W 14 .^ back W 16) as -> by reflexivity.
  split; [reflexivity|]. rewrite <- Hm. split; [len_tac|].
  intros i Hi. unfold extend in Hi |- *. rewrite length_app in Hi. cbn [length] in Hi.
  pose proof (Nat.mod_upper_bound (length W) 16 ltac:(lia)).
  destruct (Nat.eq_dec i (length W)) as [->|Hne].
  - rewrite !nth_lookup, list_lookup_insert_eq, lookup_app_r, Nat.sub_diag by lia. reflexivity.
  - rewrite nth_lookup, list_lookup_insert_ne, <- nth_lookup, Hr, app_nth1 by
      (try (intros E; apply (f_equal Z.of_nat) in E; rewrite !Nat2Z.inj_mod in E; Z.div_mod_to_equations); lia).
    reflexivity.
Qed.

Lemma rounds1_late n : forall r V W,
  (16 <= length W)%nat -> ring_of V W ->
  fst (fold_left round1 (seq (length W) n) (r, V)) =
    fold_left fips1_round
      (combine (seq (length W) n) (drop (length W) (iter n (extend fips1_next) W))) r.
Proof.
  induction n as [|n IH]; intros r V W HW Hr; cbn [seq combine fold_left iter]; [reflexivity|].
  unfold round1 at 2. rewrite (proj2 (Nat.ltb_ge _ _)) by lia.
  destruct (R1_spec V W HW Hr) as [Hx Hr']. destruct (R1 V (length W)) as [x V']. cbn [fst snd] in Hx, Hr'.
  rewrite Hx, P1_spec.
  destruct (iter_extend fips1_next n (extend fips1_next W)) as (l & E & Hl).
  replace (S (length W)) with (length (extend fips1_next W)) by (unfold extend; len_tac).
  rewrite IH by (first [exact Hr' | unfold extend; len_tac]). rewrite E.
  rewrite (drop_app_length' (extend fips1_next W)) by reflexivity.
  unfold extend. rewrite <- (app_assoc W), (drop_app_length' W) by reflexivity. reflexivity.
Qed.

Lemma rounds1_early k : forall n r W,
  (n + k <= 16)%nat -> (n + k <= length W)%nat ->
  fold_left round1 (seq n k) (r, W) =
    (fold_left fips1_round (combine (seq n k) (take k (drop n W))) r, W).
Proof.
  induction k as [|k IH]; intros n r W H1 H2; cbn [seq combine fold_left]; [reflexivity|].
  unfold round1 at 2. rewrite (proj2 (Nat.ltb_lt _ _)) by lia. rewrite P1_spec.
  rewrite IH by lia. destruct (lookup_lt_is_Some_2 W n) as [x Hx]; [lia|].
  rewrite (drop_S W x n Hx). cbn [firstn combine fold_left]. rewrite (nth_lookup_Some W n 0 x Hx). reflexivity.
Qed.

Lemma ring_of_start W : length W = 16%nat -> ring_of W W.
Proof. intros H. split; [exact H|]. intros i Hi. rewrite Nat.mod_small by lia. reflexivity. Qed.

Lemma sha1_process_spec st block : sha1_process st block = fips1_compress st block.
Proof.
  unfold sha1_process, fips1_compress. fold (words_of block). pose proof (length_words_of block) as LW.
  set (W := words_of block) in *.
  change (seq 0 80) with (seq 0 16 ++ seq 16 64). rewrite fold_left_app, rounds1_early by lia.
  rewrite drop_0, take_ge by lia.
  destruct (iter_extend fips1_next 64 W) as (l & E & Hl).
  pose proof (rounds1_late 64 (fold_left fips1_round (combine (seq 0 16) W) st) W W ltac:(lia) (ring_of_start W LW)) as HL.
  rewrite LW, E, drop_app_length' in HL by auto. rewrite E, combine_app, fold_left_app, <- HL by (rewrite length_seq; lia).
  destruct (fold_left round1 _ _) as [[a b c d e] V]. reflexivity.
Qed.

(** The digest of whatever was fed. *)
Lemma sha1_finish_spec iv_buf ctx msg :
  represents sha1_process (state (sha1_starts iv_buf)) ctx msg -> 8 * zlen msg < 2 ^ 64 ->
  sha1_finish ctx = sha1_ref msg.
Proof.
  intros Hr Hl. unfold sha1_finish, sha1_ref, fips_digest. cbv zeta.
  rewrite (stream_finish_spec _ _ _ _ Hr Hl), (absorb_ext _ fips1_compress) by apply sha1_process_spec. reflexivity.
Qed.

Lemma sha1_updates_spec buf pieces :
  length buf = 64%nat -> Forall (fun p => zlen p < 2 ^ 32) pieces -> 8 * zlen (concat pieces) < 2 ^ 64 ->
  sha1_finish (fold_left sha1_update pieces (sha1_starts buf)) = sha1_ref (concat pieces).
Proof.
  intros Hb Hp Hl. apply (sha1_finish_spec buf); [|exact Hl].
  apply (updates_represent sha1_process _ pieces (sha1_starts buf) []); [apply fresh_represents, Hb|exact Hp].
Qed.

(** Starts, any sequence of updates and finish compute the SHA-1 of FIPS
    180 of the concatenation of the pieces: the ring of sixteen words stands for
    the whole schedule. *)
Theorem sha1_correct buf pieces :
  length buf = 64%nat -> Forall (fun p => zlen p < 2 ^ 32) pieces -> 8 * zlen (concat pieces) < 2 ^ 64 ->
  sha1_finish (fold_left sha1_update pieces (sha1_starts buf)) = sha1_ref (concat pieces).
Proof. apply sha1_updates_spec. Qed.
Lemma sha1_correct_witness :
  let pieces := [str "ab"; str "c"] in
  sha1_finish (fold_left sha1_update pieces (sha1_starts (repeat 0xEE 64))) = sha1_ref (str "abc") /\
  sha1_ref (str "abc") = [0xA9; 0x99; 0x3E; 0x36; 0x47; 0x06; 0x81; 0x6A; 0xBA; 0x3E;
                          0x25; 0x71; 0x78; 0x50; 0xC2; 0x6C; 0x9C; 0xD0; 0xD8; 0x9D].
Proof.
  split.
  - apply (sha1_correct (repeat 0xEE 64) [str "ab"; str "c"]); [reflexivity| |vm_compute; reflexivity].
    repeat constructor.
  - vm_compute. reflexivity.
Defined.

(** The pieces of the watchdog build make up the input. *)
Lemma sha1_wd_loop_spec fuel chunk_sz : forall ctx input,
  0 < chunk_sz < 2 ^ 32 -> (length input <= fuel)%nat ->
  exists pieces, concat pieces = input /\ Forall (fun p => zlen p < 2 ^ 32) pieces /\
    sha1_wd_loop fuel ctx input chunk_sz = Some (fold_left sha1_update pieces ctx).
Proof.
  induction fuel as [|fuel IH]; intros ctx input Hc Hf.
  - destruct input; [exists []; auto|cbn in Hf; lia].
  - destruct input as [|c input]; [exists []; auto|]. set (l := c :: input) in *. cbn [sha1_wd_loop].
    set (k := if chunk_sz <? zlen l then chunk_sz else zlen l).
    assert (0 < k <= chunk_sz) as Hk.
    { subst k. destruct (Z.ltb_spec chunk_sz (zlen l)); [lia|]. subst l. zlen_simpl. lia. }
    destruct (IH (sha1_update ctx (take (Z.to_nat k) l)) (drop (Z.to_nat k) l) Hc) as (ps & E & Hp & Hl).
    { rewrite length_drop. lia. }
    exists (take (Z.to_nat k) l :: ps). cbn [concat fold_left]. rewrite E, take_drop.
    split_and!; [reflexivity| |exact Hl]. constructor; [|exact Hp].
    unfold zlen. rewrite length_take. lia.
Qed.

Lemma sha1_csum_wd_spec fuel buf input chunk_sz :
  length buf = 64%nat -> 0 < chunk_sz < 2 ^ 32 -> (length input <= fuel)%nat -> 8 * zlen input < 2 ^ 64 ->
  sha1_csum_wd fuel buf input chunk_sz = Some (sha1_ref input).
Proof.
  intros Hb Hc Hf Hl. unfold sha1_csum_wd.
  destruct (sha1_wd_loop_spec fuel chunk_sz (sha1_starts buf) input Hc Hf) as (ps & E & Hp & ->).
  rewrite sha1_updates_spec by (rewrite ?E; assumption). rewrite E. reflexivity.
Qed.

(** ** HMAC *)

Definition pad_key (n : Z) (key : list Z) : list Z :=
  map (fun k => n .^ k) (key ++ repeat 0 (64 - length key)).
(** RFC 2104, for a key of at most a block. *)
Definition hmac_ref (H : list Z -> list Z) (key input : list Z) : list Z :=
  H (pad_key 0x5C key ++ H (pad_key 0x36 key ++ input)).

Lemma xor_key_spec c n key :
  (length key <= n)%nat -> xor_key (repeat c n) key = map (fun k => c .^ k) (key ++ repeat 0 (n - length key)).
Proof.
  revert key. induction n as [|n IH]; intros [|k key] Hl; cbn [repeat xor_key length Nat.sub app map] in *;
    try reflexivity; try lia.
  - rewrite Z.lxor_0_r. f_equal. clear IH Hl. induction n as [|n IH]; cbn; [reflexivity|]. rewrite Z.lxor_0_r. f_equal. exact IH.
  - f_equal. apply IH. lia.
Qed.
Lemma xor_key_take pad key : xor_key pad key = xor_key pad (take (length pad) key).
Proof. revert key. induction pad as [|p pad IH]; intros [|k key]; cbn; try reflexivity. f_equal. apply IH. Qed.

Lemma length_pad_key n key : (length key <= 64)%nat -> length (pad_key n key) = 64%nat.
Proof. intros. unfold pad_key. rewrite length_map, length_app, repeat_length. lia. Qed.
Lemma length_sha1_ref msg : length (sha1_ref msg) = 20%nat.
Proof. reflexivity. Qed.

Lemma sha1_two_pieces buf a b :
  length buf = 64%nat -> zlen a < 2 ^ 32 -> zlen b < 2 ^ 32 ->
  represents sha1_process (state (sha1_starts buf)) (sha1_update (sha1_update (sha1_starts buf) a) b) (a ++ b).
Proof.
  intros Hb Ha Hbb. pose proof (updates_represent sha1_process (state (sha1_starts buf)) [a; b] (sha1_starts buf) []) as H.
  cbn [fold_left concat app] in H. rewrite app_nil_r in H. apply H; [apply fresh_represents, Hb|repeat constructor; assumption].
Qed.

(** A key longer than a block is cut to its first 64 bytes (RFC 2104 hashes it). *)
Lemma sha1_hmac_long_key buf key input : sha1_hmac buf key input = sha1_hmac buf (take 64 key) input.
Proof.
  unfold sha1_hmac. rewrite !(xor_key_take (repeat _ 64) key), !repeat_length. reflexivity.
Qed.

(** For a key of at most 64 bytes the two nested digests are the HMAC-SHA-1
    of RFC 2104; the second context reuses the stack buffer the first one left. *)
Theorem sha1_hmac_correct buf key input :
  length buf = 64%nat -> (length key <= 64)%nat -> zlen input < 2 ^ 31 ->
  sha1_hmac buf key input = hmac_ref sha1_ref key input.
Proof.
  intros Hb Hk Hi. unfold sha1_hmac, hmac_ref. cbv zeta. rewrite !xor_key_spec by assumption. fold (pad_key 0x36 key) (pad_key 0x5C key).
  assert (forall n, zlen (pad_key n key) = 64) as L by (intros; unfold zlen; rewrite length_pad_key by assumption; reflexivity).
  change (2 ^ 31) with 2147483648 in Hi.
  assert (represents sha1_process (state (sha1_starts buf))
    (sha1_update (sha1_update (sha1_starts buf) (pad_key 0x36 key)) input) (pad_key 0x36 key ++ input)) as R.
  { apply sha1_two_pieces; rewrite ?L; change (2 ^ 32) with 4294967296; lia. }
  pose proof (zlen_nonneg input).
  assert (8 * zlen (pad_key 0x36 key ++ input) < 2 ^ 64) as Hs by (rewrite zlen_app, L; lia).
  rewrite (sha1_finish_spec buf _ _ R Hs).
  pose proof (stream_finish_represents _ _ _ _ R Hs) as (_ & _ & _ & Hb' & _).
  apply (sha1_finish_spec (buffer (stream_finish sha1_process
    (sha1_update (sha1_update (sha1_starts buf) (pad_key 0x36 key)) input)))).
  - apply sha1_two_pieces; [exact Hb'|rewrite L; reflexivity|unfold zlen; rewrite length_sha1_ref; reflexivity].
  - rewrite zlen_app, L. unfold zlen. rewrite length_sha1_ref. reflexivity.
Qed.
Lemma sha1_hmac_correct_witness :
  sha1_hmac (repeat 0xEE 64) (str "Jefe") (str "what do ya want for nothing?")
    = hmac_ref sha1_ref (str "Jefe") (str "what do ya want for nothing?") /\
  take 4 (hmac_ref sha1_ref (str "Jefe") (str "what do ya want for nothing?")) = [0xef; 0xfc; 0xdf; 0x6a].
Proof.
  split.
  - apply (sha1_hmac_correct (repeat 0xEE 64) (str "Jefe") (str "what do ya want for nothing?"));
      [reflexivity|cbn; lia|vm_compute; reflexivity].
  - vm_compute. reflexivity.
Defined.
