(* ===== verification/Net.v ===== *)
(** * The network layer (net/net.c, net/eth.c)

    Frames are byte lists; the state of the layer is the globals of net.c, in
    three groups: the configured addresses, the pending ARP resolution, the
    loop control.  A function returns the new state and the actions it performed
    (frames given to the driver, driver halt and init, variables set); a received
    datagram is handed up as the call of the packet handler.  The
    environment is a lookup function, the time an argument. *)

From S2P Require Import Prelude CMem Bytes Strto.

(** ** Constants *)

Definition ETHER_HDR_SIZE : Z := 14.
Definition E802_HDR_SIZE : Z := 22.
Definition VLAN_ETHER_HDR_SIZE : Z := 18.
Definition PROT_IP : Z := 0x0800.
Definition PROT_ARP : Z := 0x0806.
Definition PROT_RARP : Z := 0x8035.
Definition PROT_VLAN : Z := 0x8100.
Definition IPPROTO_ICMP : Z := 1.
Definition IPPROTO_UDP : Z := 17.
Definition IP_OFFS : Z := 0x1fff.
Definition IP_FLAGS_DFRAG : Z := 0x4000.
Definition IP_FLAGS_MFRAG : Z := 0x2000.
Definition IP_HDR_SIZE_NO_UDP : Z := 20.
Definition IP_HDR_SIZE : Z := 28.
Definition ARP_ETHER : Z := 1.
Definition ARPOP_REQUEST : Z := 1.
Definition ARPOP_REPLY : Z := 2.
Definition RARPOP_REPLY : Z := 4.
Definition ARP_HDR_SIZE : Z := 28.
Definition PKTSIZE_ALIGN : nat := 1536.
Definition VLAN_NONE : Z := 4095.
Definition VLAN_IDMASK : Z := 0x0fff.
Definition NETLOOP_CONTINUE : Z := 1.
Definition NETLOOP_RESTART : Z := 2.
Definition NETLOOP_SUCCESS : Z := 3.
Definition NETLOOP_FAIL : Z := 4.
Definition ARP_TIMEOUT : Z := 5000.
Definition ARP_TIMEOUT_COUNT : Z := 5.
Definition NetBcastAddr : list Z := repeat 0xff 6.
Definition NetEtherNullAddr : list Z := repeat 0 6.

(** ** State *)

(** The packet and timeout handlers that the protocols install. *)
Inductive rxhand := rx_none | startAgainHandler | TftpHandler | BootpHandler | RarpHandler | NfsHandler.
Inductive thand := startAgainTimeout | TftpTimeout | BootpTimeout | RarpTimeout | NfsTimeout.
(** What a [uchar *] to an Ethernet address points to. *)
Inductive etherp := p_NetServerEther | p_NetBcastAddr.

Record net_cfg := NetCfg {
  NetOurIP : Z;
  NetServerIP : Z;
  NetOurSubnetMask : Z;
  NetOurGatewayIP : Z;
  NetOurEther : list Z;
  NetOurVLAN : Z;
  NetOurNativeVLAN : Z
}.
Record net_arp := NetArp {
  NetArpWaitPacketIP : Z;
  NetArpWaitReplyIP : Z;
  NetArpWaitPacketMAC : option etherp;
  NetArpWaitTxPacket : list Z;
  NetArpWaitTxPacketSize : Z;
  NetArpWaitTimerStart : Z;
  NetArpWaitTry : Z
}.
Record net_loop := NetLoop_ {
  NetState : Z;
  NetTryCount : Z;
  NetRestarted : bool;
  NetDevExists : bool;
  NetRestartWrap : bool;
  packetHandler : rxhand;
  timeHandler : option thand;
  timeStart : Z;
  timeDelta : Z;
  eth_current : nat;
  first_failed : option nat
}.
Record net := Net {
  cfg : net_cfg;
  arp : net_arp;
  loop : net_loop;
  NetServerEther : list Z;
  NetIPID : Z;
  NetTxPacket : list Z
}.

Definition set_cfg (n : net) (c : net_cfg) : net :=
  Net c (arp n) (loop n) (NetServerEther n) (NetIPID n) (NetTxPacket n).
Definition set_arp (n : net) (a : net_arp) : net :=
  Net (cfg n) a (loop n) (NetServerEther n) (NetIPID n) (NetTxPacket n).
Definition set_loop (n : net) (l : net_loop) : net :=
  Net (cfg n) (arp n) l (NetServerEther n) (NetIPID n) (NetTxPacket n).
Definition set_server_ether (n : net) (e : list Z) : net :=
  Net (cfg n) (arp n) (loop n) e (NetIPID n) (NetTxPacket n).
Definition set_ipid (n : net) (i : Z) : net :=
  Net (cfg n) (arp n) (loop n) (NetServerEther n) i (NetTxPacket n).
Definition set_tx (n : net) (p : list Z) : net :=
  Net (cfg n) (arp n) (loop n) (NetServerEther n) (NetIPID n) p.

Definition ether_of (n : net) (p : etherp) : list Z :=
  match p with p_NetServerEther => NetServerEther n | p_NetBcastAddr => NetBcastAddr end.

Inductive action :=
  | EthSend (frame : list Z)
  | EthHalt
  | EthInit (dev : nat)
  | SetEnv (name value : list Z).

(** The arguments of a packet handler. *)
Record rx_call := RxCall { rx_pkt : list Z; rx_dest : Z; rx_src : Z; rx_len : Z }.

(** ** Headers *)

(** Add 16-bit words into a 32-bit accumulator. *)
Fixpoint cksum_loop (len : nat) (buf : list Z) (p : nat) (xsum : Z) : Z :=
  match len with
  | O => xsum
  | S k => cksum_loop k buf (p + 2) (u32 (xsum + get16 buf p))
  end.
Definition NetCksum (buf : list Z) (ptr len : nat) : Z :=
  let xsum := cksum_loop len buf ptr 0 in
  let xsum := (xsum .& 0xffff) + (xsum .>> 16) in
  let xsum := (xsum .& 0xffff) + (xsum .>> 16) in
  xsum .& 0xffff.
Definition NetCksumOk (buf : list Z) (ptr len : nat) : bool :=
  ((NetCksum buf ptr len + 1) .& 0xfffe) =? 0.

(** The VLAN id in use, [VLAN_NONE] when there is none. *)
Definition vlan_id (vlan : Z) : Z := if vlan =? 0xFFFF then VLAN_NONE else vlan.

Definition NetEthHdrSize (n : net) : Z :=
  if (vlan_id (NetOurVLAN (cfg n)) .& VLAN_IDMASK) =? VLAN_NONE then ETHER_HDR_SIZE else VLAN_ETHER_HDR_SIZE.

(** The new buffer and the size of the header. *)
Definition NetSetEther (n : net) (buf : list Z) (xet : nat) (addr : list Z) (prot : Z) : list Z * Z :=
  let myvlanid := vlan_id (NetOurVLAN (cfg n)) in
  let head := addr ++ NetOurEther (cfg n) in
  if (myvlanid .& VLAN_IDMASK) =? VLAN_NONE then (write_at buf xet (head ++ put16 prot), ETHER_HDR_SIZE)
  else (write_at buf xet (head ++ put16 PROT_VLAN ++ put16 (myvlanid .& VLAN_IDMASK) ++ put16 prot),
        VLAN_ETHER_HDR_SIZE).

(** The 20 bytes of the IP header. *)
Definition ip_header (len id src dest sum : Z) : list Z :=
  [0x45; 0] ++ put16 (IP_HDR_SIZE + len) ++ put16 id ++ put16 IP_FLAGS_DFRAG ++ [255; 17] ++ put16 sum ++
  put_be32 src ++ put_be32 dest.

Definition NetSetIP (n : net) (buf : list Z) (xip : nat) (dest dport sport len : Z) : net * list Z :=
  let buf := if (len .& 1) =? 0 then buf else write_at buf (xip + Z.to_nat (IP_HDR_SIZE + len)) [0] in
  let hdr sum := ip_header len (NetIPID n) (NetOurIP (cfg n)) dest sum in
  let buf := write_at buf xip (hdr 0) in
  let buf := write_at buf (xip + 20) (put16 sport ++ put16 dport ++ put16 (8 + len) ++ put16 0) in
  let ip_sum := Z.lnot (NetCksum buf xip 10) in
  (set_ipid n (u32 (NetIPID n + 1)), write_at buf (xip + 10) (put16 ip_sum)).

(** ** Sending *)

(** The protocol address to ask for: the destination or the gateway. *)
Definition arp_target (n : net) : Z :=
  let c := cfg n in
  if negb ((NetArpWaitPacketIP (arp n) .& NetOurSubnetMask c) =? (NetOurIP c .& NetOurSubnetMask c)) then
    if NetOurGatewayIP c =? 0 then NetArpWaitPacketIP (arp n) else NetOurGatewayIP c
  else NetArpWaitPacketIP (arp n).

Definition arp_packet (op : Z) (sha : list Z) (spa : Z) (tha : list Z) (tpa : Z) : list Z :=
  put16 ARP_ETHER ++ put16 PROT_IP ++ [6; 4] ++ put16 op ++ sha ++ put_be32 spa ++ tha ++ put_be32 tpa.

Definition set_arp_reply (n : net) (ip : Z) : net :=
  let a := arp n in
  set_arp n (NetArp (NetArpWaitPacketIP a) ip (NetArpWaitPacketMAC a) (NetArpWaitTxPacket a)
               (NetArpWaitTxPacketSize a) (NetArpWaitTimerStart a) (NetArpWaitTry a)).
Definition set_arp_timer (n : net) (start try_ : Z) : net :=
  let a := arp n in
  set_arp n (NetArp (NetArpWaitPacketIP a) (NetArpWaitReplyIP a) (NetArpWaitPacketMAC a) (NetArpWaitTxPacket a)
               (NetArpWaitTxPacketSize a) start try_).

Definition ArpRequest (n : net) : net * list action :=
  let '(tx, size) := NetSetEther n (NetTxPacket n) 0 NetBcastAddr PROT_ARP in
  let ip := arp_target n in
  let n := set_arp_reply n ip in
  let tx := write_at tx (Z.to_nat size)
    (arp_packet ARPOP_REQUEST (NetOurEther (cfg n)) (NetOurIP (cfg n)) (repeat 0 6) ip) in
  (set_tx n tx, [EthSend (take (Z.to_nat (size + ARP_HDR_SIZE)) tx)]).

(** The result is 1 when the packet waits for an ARP reply. *)
Definition NetSendUDPPacket (n : net) (now : Z) (ether : etherp) (dest dport sport len : Z)
  : net * list action * Z :=
  let dest := if dest =? 0 then 0xFFFFFFFF else dest in
  let ether := if dest =? 0xFFFFFFFF then p_NetBcastAddr else ether in
  if decide (ether_of n ether = NetEtherNullAddr) then
    let a := arp n in
    let '(pkt, size) := NetSetEther n (NetArpWaitTxPacket a) 0 (ether_of n ether) PROT_IP in
    let '(n, pkt) := NetSetIP n pkt (Z.to_nat size) dest dport sport len in
    let payload := Z.to_nat (size + IP_HDR_SIZE) in
    let pkt := write_at pkt payload (sub (NetTxPacket n) payload (Z.to_nat len)) in
    let n := set_arp n (NetArp dest (NetArpWaitReplyIP a) (Some ether) pkt (size + IP_HDR_SIZE + len) now 1) in
    let '(n, out) := ArpRequest n in
    (n, out, 1)
  else
    let '(pkt, size) := NetSetEther n (NetTxPacket n) 0 (ether_of n ether) PROT_IP in
    let '(n, pkt) := NetSetIP n pkt (Z.to_nat size) dest dport sport len in
    (set_tx n pkt, [EthSend (take (Z.to_nat (size + IP_HDR_SIZE + len)) pkt)], 0).

(** ** The loop control *)

Definition set_state (n : net) (s : Z) : net :=
  let l := loop n in
  set_loop n (NetLoop_ s (NetTryCount l) (NetRestarted l) (NetDevExists l) (NetRestartWrap l) (packetHandler l)
                (timeHandler l) (timeStart l) (timeDelta l) (eth_current l) (first_failed l)).
Definition NetSetHandler (n : net) (f : rxhand) : net :=
  let l := loop n in
  set_loop n (NetLoop_ (NetState l) (NetTryCount l) (NetRestarted l) (NetDevExists l) (NetRestartWrap l) f
                (timeHandler l) (timeStart l) (timeDelta l) (eth_current l) (first_failed l)).
Definition NetSetTimeout (n : net) (now iv : Z) (f : thand) : net :=
  let l := loop n in
  let '(h, s, d) := if iv =? 0 then (None, timeStart l, timeDelta l) else (Some f, now, iv) in
  set_loop n (NetLoop_ (NetState l) (NetTryCount l) (NetRestarted l) (NetDevExists l) (NetRestartWrap l)
                (packetHandler l) h s d (eth_current l) (first_failed l)).
Definition set_try (n : net) (count : Z) : net :=
  let l := loop n in
  set_loop n (NetLoop_ (NetState l) count (NetRestarted l) (NetDevExists l) (NetRestartWrap l) (packetHandler l)
                (timeHandler l) (timeStart l) (timeDelta l) (eth_current l) (first_failed l)).
Definition set_wrap (n : net) (w : bool) : net :=
  let l := loop n in
  set_loop n (NetLoop_ (NetState l) (NetTryCount l) (NetRestarted l) (NetDevExists l) w (packetHandler l)
                (timeHandler l) (timeStart l) (timeDelta l) (eth_current l) (first_failed l)).
Definition set_dev (n : net) (cur : nat) (ff : option nat) : net :=
  let l := loop n in
  set_loop n (NetLoop_ (NetState l) (NetTryCount l) (NetRestarted l) (NetDevExists l) (NetRestartWrap l)
                (packetHandler l) (timeHandler l) (timeStart l) (timeDelta l) cur ff).

Section environment.
(** getenv, and the names of the registered Ethernet devices (a ring). *)
Context (getenv : list Z -> option (list Z)) (eth_names : list (list Z)).

Definition eth_next (cur : nat) : nat := ((cur + 1) mod length eth_names)%nat.

Definition eth_try_another (n : net) (first_restart : bool) : net * list action :=
  if decide (getenv (str "ethrotate") = Some (str "no")) then (n, [])
  else
    match eth_names with
    | [] => (n, [])
    | _ =>
        let l := loop n in
        let ff := if first_restart then Some (eth_current l) else first_failed l in
        let cur := eth_next (eth_current l) in
        let name := nth cur eth_names [] in
        let out := if decide (getenv (str "ethact") = Some name) then [] else [SetEnv (str "ethact") name] in
        let n := set_dev n cur ff in
        (if decide (ff = Some cur) then set_wrap n true else n, out)
    end.

(** netretry: how often to start again, [None] for ever. *)
Definition retry_limit : option Z :=
  match getenv (str "netretry") with
  | None => None
  | Some s =>
      if decide (s = str "yes") then None
      else if decide (s = str "no") then Some 0
      else if decide (s = str "once") then Some 1
      else Some (fst (simple_strtoul s 0))
  end.

(** The part behind the retry limit. *)
Definition start_again (n : net) (now : Z) : net * list action :=
  let n := set_try n (s32 (NetTryCount (loop n) + 1)) in
  let '(n, out) := eth_try_another n (negb (NetRestarted (loop n))) in
  let out := EthHalt :: out ++ [EthInit (eth_current (loop n))] in
  if NetRestartWrap (loop n) then
    let n := set_wrap n false in
    if NetDevExists (loop n) then (NetSetHandler (NetSetTimeout n now 10000 startAgainTimeout) startAgainHandler, out)
    else (set_state n NETLOOP_FAIL, out)
  else (set_state n NETLOOP_RESTART, out).

Definition NetStartAgain (n : net) (now : Z) : net * list action :=
  match retry_limit with
  | Some retrycnt =>
      if retrycnt <=? u32 (NetTryCount (loop n)) then (set_state n NETLOOP_FAIL, [EthHalt])
      else start_again n now
  | None => start_again n now
  end.

Definition ArpTimeoutCheck (n : net) (now : Z) : net * list action :=
  let a := arp n in
  if NetArpWaitPacketIP a =? 0 then (n, [])
  else if ARP_TIMEOUT <? u32 (now - NetArpWaitTimerStart a) then
    let try_ := s32 (NetArpWaitTry a + 1) in
    if ARP_TIMEOUT_COUNT <=? try_ then NetStartAgain (set_arp_timer n (NetArpWaitTimerStart a) 0) now
    else ArpRequest (set_arp_timer n now try_)
  else (n, []).
End environment.

(** ** Receiving *)

(** The protocol, the offset of its header, the remaining length and the VLAN id;
    [None] when the frame is dropped. *)
Definition rx_link (n : net) (inpkt : list Z) (len : Z) : option (Z * nat * Z * Z) :=
  let x := get16 inpkt 12 in
  if x <? 1514 then Some (get16 inpkt 20, Z.to_nat E802_HDR_SIZE, len - E802_HDR_SIZE, VLAN_NONE)
  else if negb (x =? PROT_VLAN) then Some (x, Z.to_nat ETHER_HDR_SIZE, len - ETHER_HDR_SIZE, VLAN_NONE)
  else if len <? VLAN_ETHER_HDR_SIZE then None
  else if (NetOurVLAN (cfg n) .& VLAN_IDMASK) =? VLAN_NONE then None
  else Some (get16 inpkt 16, Z.to_nat VLAN_ETHER_HDR_SIZE, len - VLAN_ETHER_HDR_SIZE,
             get16 inpkt 14 .& VLAN_IDMASK).

(** Does the VLAN id of the frame match ours? *)
Definition rx_vlan_ok (n : net) (vlanid : Z) : bool :=
  let myvlanid := vlan_id (NetOurVLAN (cfg n)) in
  let mynvlanid := vlan_id (NetOurNativeVLAN (cfg n)) in
  if negb ((myvlanid .& VLAN_IDMASK) =? VLAN_NONE) then
    let vlanid := if vlanid =? VLAN_NONE then mynvlanid .& VLAN_IDMASK else vlanid in
    vlanid =? (myvlanid .& VLAN_IDMASK)
  else true.

Definition arp_header_ok (b : list Z) (p : nat) : bool :=
  (get16 b p =? ARP_ETHER) && (get16 b (p + 2) =? PROT_IP) && (get8 b (p + 4) =? 6) && (get8 b (p + 5) =? 4).

(** The reply to a request for our address, built in the received frame. *)
Definition arp_answer (n : net) (inpkt : list Z) (p : nat) : list action :=
  let '(b, size) := NetSetEther n inpkt 0 (sub inpkt 6 6) PROT_ARP in
  let b := write_at b (p + 6) (put16 ARPOP_REPLY) in
  let b := write_at b (p + 18) (sub b (p + 8) 6) in
  let b := write_at b (p + 24) (sub b (p + 14) 4) in
  let b := write_at b (p + 8) (NetOurEther (cfg n)) in
  let b := write_at b (p + 14) (put_be32 (NetOurIP (cfg n))) in
  [EthSend (take (Z.to_nat (size + ARP_HDR_SIZE)) b)].

Definition set_ether (n : net) (p : etherp) (e : list Z) : net :=
  match p with p_NetServerEther => set_server_ether n e | p_NetBcastAddr => n end.

(** The reply that was waited for: note the address, send the waiting packet. *)
Definition arp_reply (n : net) (inpkt : list Z) (p : nat) : net * list action :=
  let a := arp n in
  match NetArpWaitPacketMAC a with
  | None => (n, [])
  | Some mac =>
      if NetArpWaitPacketIP a =? 0 then (n, [])
      else if get_be32 inpkt (p + 14) =? NetArpWaitReplyIP a then
        let sha := sub inpkt (p + 8) 6 in
        let n := set_ether n mac sha in
        let tx := write_at (NetArpWaitTxPacket a) 0 (ether_of n mac) in
        let out := [EthSend (take (Z.to_nat (NetArpWaitTxPacketSize a)) tx)] in
        (set_arp n (NetArp 0 (NetArpWaitReplyIP a) None tx 0 (NetArpWaitTimerStart a) (NetArpWaitTry a)), out)
      else (n, [])
  end.

Definition rx_arp (n : net) (inpkt : list Z) (p : nat) (len : Z) : net * list action :=
  if len <? ARP_HDR_SIZE then (n, [])
  else if negb (arp_header_ok inpkt p) then (n, [])
  else if NetOurIP (cfg n) =? 0 then (n, [])
  else if negb (get_be32 inpkt (p + 24) =? NetOurIP (cfg n)) then (n, [])
  else
    let op := get16 inpkt (p + 6) in
    if op =? ARPOP_REQUEST then (n, arp_answer n inpkt p)
    else if op =? ARPOP_REPLY then arp_reply n inpkt p
    else (n, []).

(** A RARP reply configures the addresses and calls the handler. *)
Definition rx_rarp (n : net) (inpkt : list Z) (p : nat) (len : Z) : net * option rx_call :=
  if len <? ARP_HDR_SIZE then (n, None)
  else if negb (get16 inpkt (p + 6) =? RARPOP_REPLY) || negb (arp_header_ok inpkt p) then (n, None)
  else
    let c := cfg n in
    let server := if NetServerIP c =? 0 then get_be32 inpkt (p + 14) else NetServerIP c in
    let n := set_cfg n (NetCfg (get_be32 inpkt (p + 24)) server (NetOurSubnetMask c) (NetOurGatewayIP c)
                          (NetOurEther c) (NetOurVLAN c) (NetOurNativeVLAN c)) in
    (set_server_ether n (sub inpkt (p + 8) 6), Some (RxCall [] 0 0 0)).

(** The checks of an IP datagram, in the order of the code.  [len] against
    IP_HDR_SIZE compares unsigned: a negative [len] passes. *)
Definition rx_ip_ok (n : net) (b : list Z) (p : nat) (len : Z) : bool :=
  if u32 len <? IP_HDR_SIZE then false
  else if len <? get16 b (p + 2) then false
  else if negb ((get8 b p .& 0xf0) =? 0x40) then false
  else if 0x05 <? (get8 b p .& 0x0f) then false
  else if negb (NetCksumOk b p 10) then false
  else
    let tmp := get_be32 b (p + 16) in
    if negb (NetOurIP (cfg n) =? 0) && negb (tmp =? NetOurIP (cfg n)) && negb (tmp =? 0xFFFFFFFF) then false
    else (get16 b (p + 6) .& (IP_OFFS .| IP_FLAGS_MFRAG)) =? 0.

(** A datagram for UDP is handed up; ICMP has no handler in this build. *)
Definition rx_ip (n : net) (b : list Z) (p : nat) (len : Z) : option rx_call :=
  if negb (rx_ip_ok n b p len) then None
  else if get8 b (p + 9) =? IPPROTO_ICMP then None
  else if negb (get8 b (p + 9) =? IPPROTO_UDP) then None
  else Some (RxCall (drop (p + 28) b) (get16 b (p + 22)) (get16 b (p + 20)) (u32 (get16 b (p + 24) - 8))).

Definition NetReceive (n : net) (inpkt : list Z) (len : Z) : net * list action * option rx_call :=
  if len <? ETHER_HDR_SIZE then (n, [], None)
  else
    match rx_link n inpkt len with
    | None => (n, [], None)
    | Some (x, p, len, vlanid) =>
        if negb (rx_vlan_ok n vlanid) then (n, [], None)
        else if x =? PROT_ARP then (rx_arp n inpkt p len, None)
        else if x =? PROT_RARP then let '(n, call) := rx_rarp n inpkt p len in (n, [], call)
        else if x =? PROT_IP then (n, [], rx_ip n inpkt p len)
        else (n, [], None)
    end.

(** * Properties *)

(** ** Header fields *)

Lemma get16_range b i : Forall is_u8 b -> 0 <= get16 b i < 65536.
Proof.
  intros Hb. assert (forall j, is_u8 (get8 b j)) as H8.
  { intros j. unfold get8. destruct (Nat.lt_ge_cases j (length b)).
    - rewrite List.Forall_forall in Hb. apply Hb, nth_In. lia.
    - rewrite nth_overflow by lia. unfold_words. lia. }
  pose proof (H8 i). pose proof (H8 (i + 1)%nat). unfold get16. unfold_words. change (2 ^ 8) with 256 in *.
  rewrite (lor_add_disjoint _ _ 8) by lia. change (2 ^ 8) with 256. lia.
Qed.

(** ** The Internet checksum *)

(** The sum of [n] 16-bit words. *)
Fixpoint words_sum (n : nat) (b : list Z) (p : nat) : Z :=
  match n with O => 0 | S k => get16 b p + words_sum k b (p + 2) end.

Lemma words_sum_bound n b : forall p, Forall is_u8 b -> 0 <= words_sum n b p <= 65535 * Z.of_nat n.
Proof.
  induction n as [|n IH]; intros p Hb; cbn [words_sum]; [lia|].
  pose proof (get16_range b p Hb). pose proof (IH (p + 2)%nat Hb). lia.
Qed.

Lemma cksum_loop_sum n b : forall p x,
  Forall is_u8 b -> 0 <= x -> x + 65535 * Z.of_nat n < 2 ^ 32 -> cksum_loop n b p x = x + words_sum n b p.
Proof.
  change (2 ^ 32) with 4294967296.
  induction n as [|n IH]; intros p x Hb Hx Hn; cbn [words_sum cksum_loop]; [lia|].
  pose proof (get16_range b p Hb). rewrite u32_small by lia. rewrite IH by (auto; lia). lia.
Qed.

(** Two folds leave the sum modulo 65535, as a nonzero word if it is not zero. *)
Definition fold16 (x : Z) : Z := (x .& 0xffff) + (x .>> 16).

Lemma fold16_eq x : fold16 x = x mod 65536 + x / 65536.
Proof.
  unfold fold16. change 0xffff with (Z.ones 16). rewrite Z.land_ones, Z.shiftr_div_pow2 by lia. reflexivity.
Qed.

Lemma fold16_twice x :
  0 < x < 2 ^ 32 -> exists k, x = fold16 (fold16 x) + 65535 * k /\ 0 < fold16 (fold16 x) <= 65535.
Proof.
  change (2 ^ 32) with 4294967296. intros Hx. rewrite !fold16_eq. set (y := x mod 65536 + x / 65536).
  assert (0 < y <= 131070 /\ x = y + 65535 * (x / 65536)) as [Hy Ey] by (subst y; Z.div_mod_to_equations; lia).
  exists (x / 65536 + y / 65536). clearbody y. Z.div_mod_to_equations. lia.
Qed.

Lemma NetCksum_spec n b p :
  Forall is_u8 b -> 65535 * Z.of_nat n < 2 ^ 32 -> 0 < words_sum n b p ->
  exists k, words_sum n b p = NetCksum b p n + 65535 * k /\ 0 < NetCksum b p n <= 65535.
Proof.
  intros Hb Hn Hp. unfold NetCksum. cbv zeta. rewrite cksum_loop_sum by (auto; lia). rewrite Z.add_0_l.
  pose proof (words_sum_bound n b p Hb).
  destruct (fold16_twice (words_sum n b p)) as (k & E & Hr); [lia|]. fold (fold16 (words_sum n b p)).
  fold (fold16 (fold16 (words_sum n b p))).
  assert (fold16 (fold16 (words_sum n b p)) .& 65535 = fold16 (fold16 (words_sum n b p))) as ->.
  { change 65535 with (Z.ones 16) at 1. rewrite Z.land_ones by lia. apply Z.mod_small. change (2 ^ 16) with 65536. lia. }
  eauto.
Qed.

Lemma cksum_loop_sub len : forall b p o x n,
  (o + 2 * len <= n)%nat -> cksum_loop len (sub b p n) o x = cksum_loop len b (p + o) x.
Proof.
  induction len as [|len IH]; intros b p o x n H; cbn [cksum_loop]; [reflexivity|].
  rewrite get16_sub, IH by lia. f_equal. lia.
Qed.
Lemma NetCksum_sub b p len : NetCksum b p len = NetCksum (sub b p (2 * len)) 0 len.
Proof. unfold NetCksum. rewrite cksum_loop_sub by lia. rewrite Nat.add_0_r. reflexivity. Qed.

Lemma NetCksum_app l r p n : length l = p -> NetCksum (l ++ r) p n = NetCksum r 0 n.
Proof.
  intros Hl. rewrite (NetCksum_sub _ p), (NetCksum_sub r). f_equal.
  pose proof (sub_app_skip l r p 0 (2 * n) Hl) as E. rewrite Nat.add_0_r in E. exact E.
Qed.
Lemma NetCksum_prefix h r n : (2 * n <= length h)%nat -> NetCksum (h ++ r) 0 n = NetCksum h 0 n.
Proof.
  intros H. rewrite (NetCksum_sub (h ++ r)), (NetCksum_sub h). f_equal. unfold sub. rewrite !drop_0, take_app_le by lia. reflexivity.
Qed.
Lemma NetCksumOk_app l r p n : length l = p -> NetCksumOk (l ++ r) p n = NetCksumOk r 0 n.
Proof. intros H. unfold NetCksumOk. rewrite (NetCksum_app l r p n H). reflexivity. Qed.
Lemma NetCksumOk_prefix h r n : (2 * n <= length h)%nat -> NetCksumOk (h ++ r) 0 n = NetCksumOk h 0 n.
Proof. intros H. unfold NetCksumOk. rewrite (NetCksum_prefix h r n H). reflexivity. Qed.

(** The words of a built header. *)
Lemma ip_header_sum len id src dest sum :
  0 <= src -> 0 <= dest ->
  words_sum 10 (ip_header len id src dest sum) 0 =
    0x4500 + u16 (28 + len) + u16 id + 0x4000 + 0xff11 + u16 sum + u16 (src .>> 16) + u16 src +
    u16 (dest .>> 16) + u16 dest.
Proof.
  intros Hs Hd. unfold ip_header, put16, put_be32, IP_HDR_SIZE, IP_FLAGS_DFRAG. cbn [app words_sum Nat.add].
  unfold get16, get8. cbn [nth Nat.add]. rewrite !byte_pair, !byte_pair_high.
  change ((0x45 .<< 8) .| 0) with 0x4500. change (u16 0x4000) with 0x4000. change ((255 .<< 8) .| 17) with 0xff11. lia.
Qed.

Lemma ip_header_u8 len id src dest sum : Forall is_u8 (ip_header len id src dest sum).
Proof.
  unfold ip_header, put16, put_be32. cbn [app]. repeat constructor; try apply u8_range; unfold_words; lia.
Qed.

(** A checksum field that holds the complement of the sum makes the check pass. *)
Lemma cksum_field_ok (h : Z -> list Z) n p :
  (forall s, Forall is_u8 (h s)) -> 65535 * Z.of_nat n < 2 ^ 32 -> 0 < words_sum n (h 0) p ->
  (forall s, words_sum n (h s) p = words_sum n (h 0) p + u16 s) ->
  NetCksumOk (h (Z.lnot (NetCksum (h 0) p n))) p n = true.
Proof.
  intros Hu Hn Hpos Hsum. destruct (NetCksum_spec n (h 0) p (Hu 0) Hn Hpos) as (k & E & Hr).
  revert E Hr. generalize (NetCksum (h 0) p n) as c. intros c E Hr.
  assert (u16 (Z.lnot c) = 65535 - c) as Hc.
  { unfold u16, wrap. change (2 ^ 16) with 65536. unfold Z.lnot.
    replace (Z.pred (- c)) with (65535 - c + (-1) * 65536) by lia.
    rewrite Z.mod_add by lia. apply Z.mod_small. lia. }
  pose proof (Hsum (Z.lnot c)) as Hs. rewrite Hc in Hs.
  destruct (NetCksum_spec n (h (Z.lnot c)) p (Hu _) Hn ltac:(lia)) as (k' & E' & Hr').
  unfold NetCksumOk. revert E' Hr'. generalize (NetCksum (h (Z.lnot c)) p n) as d. intros d E' Hr'.
  assert (d = 65535) as -> by lia. reflexivity.
Qed.

Lemma ip_header_cksum_ok len id src dest :
  0 <= src -> 0 <= dest ->
  NetCksumOk (ip_header len id src dest (Z.lnot (NetCksum (ip_header len id src dest 0) 0 10))) 0 10 = true.
Proof.
  intros Hs Hd. apply (cksum_field_ok (ip_header len id src dest)).
  - intros s. apply ip_header_u8.
  - reflexivity.
  - rewrite ip_header_sum by assumption. pose proof (u16_range (28 + len)). pose proof (u16_range id).
    pose proof (u16_range (src .>> 16)). pose proof (u16_range src). pose proof (u16_range (dest .>> 16)).
    pose proof (u16_range dest). pose proof (u16_range 0). lia.
  - intros s. rewrite !ip_header_sum by assumption. change (u16 0) with 0. lia.
Qed.

Definition udp_header (len dport sport : Z) : list Z := put16 sport ++ put16 dport ++ put16 (8 + len) ++ put16 0.
(** The complete IP and UDP header. *)
Definition ip_udp_header (len id src dest dport sport : Z) : list Z :=
  ip_header len id src dest (Z.lnot (NetCksum (ip_header len id src dest 0) 0 10)) ++ udp_header len dport sport.

Lemma length_ip_header len id src dest sum : length (ip_header len id src dest sum) = 20%nat.
Proof. reflexivity. Qed.
Lemma length_ip_udp_header len id src dest dport sport : length (ip_udp_header len id src dest dport sport) = 28%nat.
Proof. reflexivity. Qed.

(** The padding byte behind an odd payload. *)
Definition pad_odd (buf : list Z) (xip : nat) (len : Z) : list Z :=
  if (len .& 1) =? 0 then buf else write_at buf (xip + Z.to_nat (IP_HDR_SIZE + len)) [0].

Lemma NetSetIP_spec n buf xip dest dport sport len :
  (xip + 28 <= length buf)%nat -> (length (pad_odd buf xip len) = length buf) ->
  NetSetIP n buf xip dest dport sport len =
    (set_ipid n (u32 (NetIPID n + 1)),
     write_at (pad_odd buf xip len) xip (ip_udp_header len (NetIPID n) (NetOurIP (cfg n)) dest dport sport)).
Proof.
  intros Hb Hp. unfold NetSetIP. cbv zeta. fold (pad_odd buf xip len). set (b := pad_odd buf xip len) in *.
  fold (udp_header len dport sport). set (h := ip_header len (NetIPID n) (NetOurIP (cfg n)) dest).
  f_equal. replace (xip + 20)%nat with (xip + length (h 0%Z))%nat by reflexivity.
  rewrite write_at_next by (change (length (h 0%Z)) with 20%nat; change (length (udp_header _ _ _)) with 8%nat; lia).
  rewrite (NetCksum_sub _ xip 10). change (2 * 10)%nat with 20%nat.
  assert (sub (write_at b xip (h 0 ++ udp_header len dport sport)) xip 20 = h 0) as ->.
  { change 20%nat with (length (h 0%Z)) at 1. unfold sub, write_at. rewrite drop_app_length' by len_tac.
    rewrite <- !app_assoc. apply take_app_length. }
  rewrite write_at_inner; [reflexivity| |cbn; lia].
  change (length (h 0 ++ udp_header len dport sport)) with 28%nat. lia.
Qed.

(** ** Frames *)

Definition eth_header (n : net) (addr : list Z) (prot : Z) : list Z :=
  let myvlanid := vlan_id (NetOurVLAN (cfg n)) in
  if (myvlanid .& VLAN_IDMASK) =? VLAN_NONE then addr ++ NetOurEther (cfg n) ++ put16 prot
  else addr ++ NetOurEther (cfg n) ++ put16 PROT_VLAN ++ put16 (myvlanid .& VLAN_IDMASK) ++ put16 prot.

Definition udp_frame (n : net) (mac : list Z) (id dest dport sport : Z) (payload : list Z) : list Z :=
  eth_header n mac PROT_IP ++ ip_udp_header (zlen payload) id (NetOurIP (cfg n)) dest dport sport ++ payload.

(** The well-formed states: sizes of the buffers, ranges of the words. *)
Definition mac_ok (e : list Z) : Prop := length e = 6%nat /\ Forall is_u8 e.
Record net_ok (n : net) : Prop := {
  ok_ether : mac_ok (NetOurEther (cfg n));
  ok_server : mac_ok (NetServerEther n);
  ok_ip : is_u32 (NetOurIP (cfg n));
  ok_tx : length (NetTxPacket n) = PKTSIZE_ALIGN;
  ok_arptx : length (NetArpWaitTxPacket (arp n)) = PKTSIZE_ALIGN;
  ok_ipid : is_u32 (NetIPID n)
}.

(** Room for the headers and for the payload with its padding. *)
Definition fits (n : net) (len : Z) : Prop :=
  0 <= len /\ NetEthHdrSize n + IP_HDR_SIZE + len + (len .& 1) <= Z.of_nat PKTSIZE_ALIGN.

Lemma NetSetEther_spec n buf addr prot :
  length addr = 6%nat -> length (NetOurEther (cfg n)) = 6%nat ->
  NetSetEther n buf 0 addr prot = (write_at buf 0 (eth_header n addr prot), NetEthHdrSize n) /\
  length (eth_header n addr prot) = Z.to_nat (NetEthHdrSize n).
Proof.
  intros Ha Ho. unfold NetSetEther, eth_header, NetEthHdrSize. cbv zeta.
  destruct (_ =? VLAN_NONE); rewrite <- !app_assoc; split; try reflexivity; rewrite !length_app, Ha, Ho; reflexivity.
Qed.

Lemma eth_size n : NetEthHdrSize n = 14 \/ NetEthHdrSize n = 18.
Proof. unfold NetEthHdrSize. destruct (_ =? _); [left|right]; reflexivity. Qed.

Lemma odd_bit len : 0 <= len -> len .& 1 = 0 \/ len .& 1 = 1.
Proof.
  intros. assert (len .& 1 = len mod 2) as -> by (apply (Z.land_ones len 1); lia). Z.div_mod_to_equations. lia.
Qed.

Lemma pad_odd_facts buf xip len :
  0 <= len -> Z.of_nat xip + IP_HDR_SIZE + len + (len .& 1) <= zlen buf ->
  length (pad_odd buf xip len) = length buf /\
  forall o k, (o + k <= xip + 28 + Z.to_nat len)%nat -> sub (pad_odd buf xip len) o k = sub buf o k.
Proof.
  intros Hl Hb. unfold pad_odd, zlen, IP_HDR_SIZE in *. destruct (odd_bit len Hl) as [E|E]; rewrite E in *; cbn [Z.eqb].
  - auto.
  - split; [apply write_at_length; cbn; lia|]. intros o k Hk. apply sub_write_before; lia.
Qed.

Lemma sub_take b n : sub b 0 n = take n b.
Proof. reflexivity. Qed.

(** The frame assembled in the transmit buffer. *)
Lemma build_frame buf eh iph len :
  let s := length eh in
  length iph = 28%nat -> 0 <= len -> Z.of_nat s + IP_HDR_SIZE + len + (len .& 1) <= zlen buf ->
  let b := write_at (pad_odd (write_at buf 0 eh) s len) s iph in
  length b = length buf /\ take (s + 28) b = eh ++ iph /\
  sub b (s + 28) (Z.to_nat len) = sub buf (s + 28) (Z.to_nat len).
Proof.
  intros s Hi Hl Hb b. unfold zlen, IP_HDR_SIZE in Hb.
  assert (length (write_at buf 0 eh) = length buf) as Hw.
  { apply write_at_length. destruct (odd_bit len Hl) as [E|E]; rewrite E in Hb; fold s; lia. }
  destruct (pad_odd_facts (write_at buf 0 eh) s len Hl) as [Hp Hs].
  { unfold zlen, IP_HDR_SIZE. rewrite Hw. lia. }
  assert (s + 28 + Z.to_nat len <= length buf)%nat as Hr by (destruct (odd_bit len Hl) as [E|E]; rewrite E in Hb; lia).
  split_and!.
  - subst b. rewrite write_at_length; rewrite Hp, ?Hi; lia.
  - subst b. rewrite <- Hi, write_at_take by lia. f_equal. rewrite <- sub_take, Hs by lia.
    apply sub_write_same; [reflexivity|lia].
  - subst b. rewrite sub_write_after, Hs, sub_write_after by lia. reflexivity.
Qed.

(** ** Sending *)

(** The address the datagram really goes to. *)
Definition udp_dest (dest : Z) : Z := if dest =? 0 then 0xFFFFFFFF else dest.
Definition udp_ether (dest : Z) (ether : etherp) : etherp :=
  if udp_dest dest =? 0xFFFFFFFF then p_NetBcastAddr else ether.
(** The datagram's payload is in the transmit buffer, behind the headers. *)
Definition tx_payload (n : net) (len : Z) : list Z :=
  sub (NetTxPacket n) (Z.to_nat (NetEthHdrSize n + IP_HDR_SIZE)) (Z.to_nat len).

Lemma ether_of_ok n p : net_ok n -> mac_ok (ether_of n p).
Proof. intros H. destruct p; [apply H|]. split; [reflexivity|]. unfold ether_of, NetBcastAddr. repeat constructor; unfold_words; lia. Qed.

Lemma fits_le n len : fits n len -> (Z.to_nat (NetEthHdrSize n) + 28 + Z.to_nat len <= PKTSIZE_ALIGN)%nat.
Proof.
  intros [H1 H2]. unfold IP_HDR_SIZE in H2. destruct (odd_bit len H1) as [E|E]; rewrite E in H2; destruct (eth_size n); lia.
Qed.

Lemma zlen_tx_payload n len : net_ok n -> fits n len -> zlen (tx_payload n len) = len.
Proof.
  intros Hn Hf. pose proof (fits_le n len Hf). unfold tx_payload, zlen. rewrite length_sub; [destruct Hf; lia|].
  rewrite (ok_tx n Hn). destruct (eth_size n) as [E|E]; rewrite E in *; unfold IP_HDR_SIZE; lia.
Qed.

(** A buffer that [NetSetEther] and [NetSetIP] filled. *)
Lemma headers_spec n buf mac dest dport sport len :
  net_ok n -> fits n len -> length mac = 6%nat -> length buf = PKTSIZE_ALIGN ->
  exists b, NetSetEther n buf 0 mac PROT_IP = (write_at buf 0 (eth_header n mac PROT_IP), NetEthHdrSize n) /\
    NetSetIP n (write_at buf 0 (eth_header n mac PROT_IP)) (Z.to_nat (NetEthHdrSize n)) dest dport sport len
      = (set_ipid n (u32 (NetIPID n + 1)), b) /\
    length b = PKTSIZE_ALIGN /\
    take (Z.to_nat (NetEthHdrSize n + IP_HDR_SIZE)) b =
      eth_header n mac PROT_IP ++ ip_udp_header len (NetIPID n) (NetOurIP (cfg n)) dest dport sport /\
    sub b (Z.to_nat (NetEthHdrSize n + IP_HDR_SIZE)) (Z.to_nat len) =
      sub buf (Z.to_nat (NetEthHdrSize n + IP_HDR_SIZE)) (Z.to_nat len).
Proof.
  intros Hn Hf Hm Hb. destruct (NetSetEther_spec n buf mac PROT_IP Hm (proj1 (ok_ether n Hn))) as [E1 E2].
  pose proof (fits_le n len Hf) as Hle. destruct Hf as [Hf1 Hf2].
  assert (Z.to_nat (NetEthHdrSize n + IP_HDR_SIZE) = (Z.to_nat (NetEthHdrSize n) + 28)%nat) as Es
    by (destruct (eth_size n) as [-> | ->]; reflexivity).
  assert (Z.of_nat (Z.to_nat (NetEthHdrSize n)) = NetEthHdrSize n) as Ez by (destruct (eth_size n) as [-> | ->]; reflexivity).
  rewrite Es. rewrite <- Hb in Hle |- *. rewrite <- E2 in Hle |- *. eexists. split; [exact E1|].
  set (eh := eth_header n mac PROT_IP) in *.
  set (iph := ip_udp_header len (NetIPID n) (NetOurIP (cfg n)) dest dport sport).
  destruct (build_frame buf eh iph len eq_refl Hf1) as (B1 & B2 & B3).
  { unfold zlen. rewrite Hb, E2, Ez. exact Hf2. }
  split_and!; [|exact B1|exact B2|exact B3].
  apply NetSetIP_spec; fold eh.
  - rewrite write_at_length by lia. lia.
  - apply pad_odd_facts; [exact Hf1|]. unfold zlen. rewrite write_at_length by lia. rewrite Hb, E2, Ez. exact Hf2.
Qed.

Lemma take_sub b a c : take (a + c) b = take a b ++ sub b a c.
Proof. unfold sub. symmetry. apply take_take_drop. Qed.

(** With the address known the datagram goes out. *)
Lemma send_known n now ether dest dport sport len :
  net_ok n -> fits n len -> ether_of n (udp_ether dest ether) <> NetEtherNullAddr ->
  exists tx, length tx = PKTSIZE_ALIGN /\
    NetSendUDPPacket n now ether dest dport sport len =
      (set_tx (set_ipid n (u32 (NetIPID n + 1))) tx,
       [EthSend (udp_frame n (ether_of n (udp_ether dest ether)) (NetIPID n) (udp_dest dest) dport sport
                   (tx_payload n len))], 0).
Proof.
  intros Hn Hf He. unfold NetSendUDPPacket. fold (udp_dest dest). cbv zeta. fold (udp_ether dest ether).
  rewrite decide_False by exact He.
  destruct (headers_spec n (NetTxPacket n) (ether_of n (udp_ether dest ether)) (udp_dest dest) dport sport len
              Hn Hf (proj1 (ether_of_ok n _ Hn)) (ok_tx n Hn)) as (b & -> & -> & Hb & Ht & Hs).
  exists b. split; [exact Hb|]. do 4 f_equal.
  rewrite Z2Nat.inj_add by (destruct Hf; destruct (eth_size n); unfold IP_HDR_SIZE; lia).
  rewrite take_sub, Ht, Hs. unfold udp_frame. rewrite zlen_tx_payload by assumption. rewrite <- app_assoc. reflexivity.
Qed.

(** With the address unknown it waits, and the address is asked for. *)
Lemma arp_request_spec n :
  net_ok n ->
  exists tx, length tx = PKTSIZE_ALIGN /\
    ArpRequest n = (set_tx (set_arp_reply n (arp_target n)) tx,
      [EthSend (eth_header n NetBcastAddr PROT_ARP ++
                arp_packet ARPOP_REQUEST (NetOurEther (cfg n)) (NetOurIP (cfg n)) (repeat 0 6) (arp_target n))]).
Proof.
  intros Hn. unfold ArpRequest.
  destruct (NetSetEther_spec n (NetTxPacket n) NetBcastAddr PROT_ARP eq_refl (proj1 (ok_ether n Hn))) as [-> E].
  cbv zeta. change (NetOurEther (cfg (set_arp_reply n (arp_target n)))) with (NetOurEther (cfg n)).
  change (NetOurIP (cfg (set_arp_reply n (arp_target n)))) with (NetOurIP (cfg n)).
  set (ap := arp_packet _ _ _ _ _).
  assert (length ap = 28%nat) as La by (subst ap; unfold arp_packet; rewrite !length_app, (proj1 (ok_ether n Hn)); reflexivity).
  pose proof (ok_tx n Hn) as Htx. assert (Z.to_nat (NetEthHdrSize n) <= 18)%nat as Hsz by (destruct (eth_size n); lia).
  eexists. split.
  2: { do 3 f_equal. f_equal.
       replace (Z.to_nat (NetEthHdrSize n + ARP_HDR_SIZE)) with (Z.to_nat (NetEthHdrSize n) + length ap)%nat
         by (rewrite La; unfold ARP_HDR_SIZE; destruct (eth_size n) as [-> | ->]; reflexivity).
       rewrite write_at_take by (rewrite write_at_length; rewrite ?Htx, ?E; unfold PKTSIZE_ALIGN; lia).
       f_equal. rewrite <- E. apply (write_at_take _ 0). lia. }
  rewrite write_at_length; rewrite write_at_length; rewrite ?La, ?E, Htx; unfold PKTSIZE_ALIGN; lia.
Qed.

Lemma net_ok_set_arp n a :
  net_ok n -> length (NetArpWaitTxPacket a) = PKTSIZE_ALIGN -> net_ok (set_arp n a).
Proof. intros [] H. constructor; assumption. Qed.
Lemma net_ok_set_ipid n i : net_ok n -> is_u32 i -> net_ok (set_ipid n i).
Proof. intros [] H. constructor; assumption. Qed.
Lemma net_ok_set_tx n tx : net_ok n -> length tx = PKTSIZE_ALIGN -> net_ok (set_tx n tx).
Proof. intros [] H. constructor; assumption. Qed.
Lemma net_ok_set_loop n l : net_ok n -> net_ok (set_loop n l).
Proof. intros []. constructor; assumption. Qed.
Lemma net_ok_set_server n e : net_ok n -> mac_ok e -> net_ok (set_server_ether n e).
Proof. intros [] H. constructor; assumption. Qed.
Lemma u32_is_u32 x : is_u32 (u32 x).
Proof. apply u32_range. Qed.
#[export] Hint Resolve net_ok_set_arp net_ok_set_ipid net_ok_set_tx net_ok_set_loop net_ok_set_server u32_is_u32 : uboot.

(** The state that waits for the address of [ip]. *)
Definition waiting (n : net) (ip : Z) (ether : etherp) (pkt : list Z) (size now : Z) : net :=
  let n := set_arp n (NetArp ip (NetArpWaitReplyIP (arp n)) (Some ether) pkt size now 1) in
  set_arp_reply n (arp_target n).

Lemma send_waits n now ether dest dport sport len :
  net_ok n -> fits n len -> ether_of n (udp_ether dest ether) = NetEtherNullAddr ->
  let size := NetEthHdrSize n + IP_HDR_SIZE + len in
  exists pkt tx, length pkt = PKTSIZE_ALIGN /\ length tx = PKTSIZE_ALIGN /\
    take (Z.to_nat size) pkt =
      udp_frame n NetEtherNullAddr (NetIPID n) (udp_dest dest) dport sport (tx_payload n len) /\
    let n1 := waiting (set_ipid n (u32 (NetIPID n + 1))) (udp_dest dest) (udp_ether dest ether) pkt size now in
    NetSendUDPPacket n now ether dest dport sport len =
      (set_tx n1 tx,
       [EthSend (eth_header n NetBcastAddr PROT_ARP ++
                 arp_packet ARPOP_REQUEST (NetOurEther (cfg n)) (NetOurIP (cfg n)) (repeat 0 6)
                   (NetArpWaitReplyIP (arp n1)))], 1).
Proof.
  intros Hn Hf He size. unfold NetSendUDPPacket. fold (udp_dest dest). cbv zeta. fold (udp_ether dest ether).
  rewrite decide_True by exact He. rewrite He.
  destruct (headers_spec n (NetArpWaitTxPacket (arp n)) NetEtherNullAddr (udp_dest dest) dport sport len
              Hn Hf eq_refl (ok_arptx n Hn)) as (b & -> & -> & Hb & Ht & Hs).
  set (po := Z.to_nat (NetEthHdrSize n + IP_HDR_SIZE)) in *.
  change (sub (NetTxPacket (set_ipid n (u32 (NetIPID n + 1)))) po (Z.to_nat len)) with (tx_payload n len).
  set (pkt := write_at b po (tx_payload n len)).
  pose proof (fits_le n len Hf) as Hle.
  assert (po = (Z.to_nat (NetEthHdrSize n) + 28)%nat) as Hpo by (subst po; destruct (eth_size n) as [-> | ->]; reflexivity).
  pose proof (zlen_tx_payload n len Hn Hf) as Hz.
  assert (length (tx_payload n len) = Z.to_nat len) as Hlp by (unfold zlen in Hz; lia).
  assert (length pkt = PKTSIZE_ALIGN) as Hpk by (subst pkt; rewrite write_at_length; rewrite ?Hb, ?Hlp; lia).
  set (n1 := waiting (set_ipid n (u32 (NetIPID n + 1))) (udp_dest dest) (udp_ether dest ether) pkt size now).
  destruct (arp_request_spec (set_arp (set_ipid n (u32 (NetIPID n + 1)))
    (NetArp (udp_dest dest) (NetArpWaitReplyIP (arp n)) (Some (udp_ether dest ether)) pkt size now 1))) as (tx & Htx & E).
  { auto with uboot. }
  exists pkt, tx. split_and!; [exact Hpk|exact Htx| |].
  - subst size. replace (Z.to_nat (NetEthHdrSize n + IP_HDR_SIZE + len)) with (po + length (tx_payload n len))%nat
      by (rewrite Hlp, Hpo; destruct Hf; unfold IP_HDR_SIZE; destruct (eth_size n); lia).
    subst pkt. rewrite write_at_take by lia. rewrite Ht. unfold udp_frame. rewrite Hz, <- app_assoc. reflexivity.
  - fold size. rewrite E. reflexivity.
Qed.

(** ** Receiving *)

Definition no_vlan (n : net) : Prop := NetOurVLAN (cfg n) = 0xFFFF.

Lemma six (l : list Z) : length l = 6%nat -> exists a b c d e f, l = [a; b; c; d; e; f].
Proof.
  intros H. destruct l as [|a [|b [|c [|d [|e [|f [|]]]]]]]; try discriminate H. eauto 10.
Qed.

Lemma eth_header_plain n addr prot : no_vlan n -> eth_header n addr prot = addr ++ NetOurEther (cfg n) ++ put16 prot.
Proof. intros H. unfold eth_header. rewrite H. reflexivity. Qed.
Lemma eth_size_plain n : no_vlan n -> NetEthHdrSize n = 14.
Proof. intros H. unfold NetEthHdrSize. rewrite H. reflexivity. Qed.

(** An untagged frame reaches the protocol switch. *)
Lemma rx_plain n dst src prot body len :
  no_vlan n -> length dst = 6%nat -> length src = 6%nat -> 1514 <= prot < 65536 -> prot <> PROT_VLAN ->
  rx_link n (dst ++ src ++ put16 prot ++ body) len = Some (prot, 14%nat, len - 14, VLAN_NONE) /\
  rx_vlan_ok n VLAN_NONE = true.
Proof.
  intros Hv Hd Hs Hp Hn. unfold rx_link, rx_vlan_ok. rewrite Hv. split; [|reflexivity].
  rewrite (app_assoc dst). change 12%nat with (12 + 0)%nat. rewrite get16_app by (rewrite length_app; lia).
  rewrite get16_put16, u16_small by lia. cbv zeta.
  rewrite (proj2 (Z.ltb_ge _ _)), (proj2 (Z.eqb_neq _ _)) by lia. reflexivity.
Qed.

Lemma arp_fields l op sha spa tha tpa rest p :
  length l = p -> length sha = 6%nat -> length tha = 6%nat ->
  let b := l ++ arp_packet op sha spa tha tpa ++ rest in
  arp_header_ok b p = true /\ get16 b (p + 6) = u16 op /\ sub b (p + 8) 6 = sha /\
  get_be32 b (p + 14) = u32 spa /\ sub b (p + 18) 6 = tha /\ get_be32 b (p + 24) = u32 tpa.
Proof.
  intros Hl Hs Ht b. subst b. apply six in Hs as (? & ? & ? & ? & ? & ? & ->).
  apply six in Ht as (? & ? & ? & ? & ? & ? & ->).
  rewrite !(get16_app l), !(get_be32_app l), !(sub_app_skip l) by assumption.
  split_and!; try reflexivity.
  - unfold arp_header_ok. rewrite <- (Nat.add_0_r p) at 1. rewrite !(get16_app l) by assumption.
    subst p. rewrite !get8_app. reflexivity.
  - apply byte_pair.
  - apply byte_quad.
  - apply byte_quad.
Qed.

(** A request for our address is answered. *)
Lemma rx_arp_request n dst src sha spa tha rest len :
  net_ok n -> no_vlan n -> NetOurIP (cfg n) <> 0 -> 42 <= len ->
  length dst = 6%nat -> length src = 6%nat -> length sha = 6%nat -> length tha = 6%nat ->
  NetReceive n (dst ++ src ++ put16 PROT_ARP ++ arp_packet ARPOP_REQUEST sha spa tha (NetOurIP (cfg n)) ++ rest) len =
    (n, [EthSend (src ++ NetOurEther (cfg n) ++ put16 PROT_ARP ++
                  arp_packet ARPOP_REPLY (NetOurEther (cfg n)) (NetOurIP (cfg n)) sha spa)], None).
Proof.
  intros Hn Hv H0 Hl Hd Hs Hsha Htha. unfold NetReceive. rewrite (proj2 (Z.ltb_ge _ _)) by (unfold ETHER_HDR_SIZE; lia).
  destruct (rx_plain n dst src PROT_ARP (arp_packet ARPOP_REQUEST sha spa tha (NetOurIP (cfg n)) ++ rest) len Hv Hd Hs)
    as [-> ->]; [unfold PROT_ARP; lia|discriminate|]. cbn [negb]. rewrite Z.eqb_refl. f_equal.
  unfold rx_arp. rewrite (proj2 (Z.ltb_ge _ _)) by (unfold ARP_HDR_SIZE; lia).
  rewrite !(app_assoc dst), !(app_assoc (dst ++ src)).
  destruct (arp_fields ((dst ++ src) ++ put16 PROT_ARP) ARPOP_REQUEST sha spa tha (NetOurIP (cfg n)) rest 14)
    as (-> & -> & _ & _ & _ & ->); [rewrite !length_app, Hd, Hs; reflexivity|assumption|assumption|].
  rewrite (proj2 (Z.eqb_neq (NetOurIP _) 0)) by assumption.
  rewrite u32_small by apply (ok_ip n Hn). rewrite Z.eqb_refl. cbn [negb]. change (u16 ARPOP_REQUEST =? ARPOP_REQUEST) with true.
  cbv iota. f_equal. unfold arp_answer.
  apply six in Hd as (? & ? & ? & ? & ? & ? & ->). apply six in Hs as (? & ? & ? & ? & ? & ? & ->).
  apply six in Hsha as (? & ? & ? & ? & ? & ? & ->). apply six in Htha as (? & ? & ? & ? & ? & ? & ->).
  destruct (six _ (proj1 (ok_ether n Hn))) as (? & ? & ? & ? & ? & ? & E). 
  destruct (NetSetEther_spec n ((([x; x0; x1; x2; x3; x4] ++ [x5; x6; x7; x8; x9; x10]) ++ put16 PROT_ARP) ++
    arp_packet ARPOP_REQUEST [x11; x12; x13; x14; x15; x16] spa [x17; x18; x19; x20; x21; x22] (NetOurIP (cfg n)) ++ rest)
    [x5; x6; x7; x8; x9; x10] PROT_ARP eq_refl (proj1 (ok_ether n Hn))) as [Es _].
  change (sub _ 6 6) with [x5; x6; x7; x8; x9; x10]. rewrite Es, eth_header_plain, eth_size_plain by assumption.
  rewrite E. reflexivity.
Qed.

(** The awaited reply sends the waiting packet. *)
Lemma rx_arp_reply n dst src sha spa tha rest len ether :
  net_ok n -> no_vlan n -> NetOurIP (cfg n) <> 0 -> 42 <= len ->
  length dst = 6%nat -> length src = 6%nat -> length sha = 6%nat -> length tha = 6%nat ->
  NetArpWaitPacketMAC (arp n) = Some ether -> NetArpWaitPacketIP (arp n) <> 0 ->
  is_u32 spa -> NetArpWaitReplyIP (arp n) = spa ->
  let n' := set_ether n ether sha in
  let tx := write_at (NetArpWaitTxPacket (arp n)) 0 (ether_of n' ether) in
  NetReceive n (dst ++ src ++ put16 PROT_ARP ++ arp_packet ARPOP_REPLY sha spa tha (NetOurIP (cfg n)) ++ rest) len =
    (set_arp n' (NetArp 0 spa None tx 0 (NetArpWaitTimerStart (arp n)) (NetArpWaitTry (arp n))),
     [EthSend (take (Z.to_nat (NetArpWaitTxPacketSize (arp n))) tx)], None).
Proof.
  intros Hn Hv H0 Hl Hd Hs Hsha Htha Hm Hip Hspa Hr. unfold NetReceive.
  rewrite (proj2 (Z.ltb_ge _ _)) by (unfold ETHER_HDR_SIZE; lia).
  destruct (rx_plain n dst src PROT_ARP (arp_packet ARPOP_REPLY sha spa tha (NetOurIP (cfg n)) ++ rest) len Hv Hd Hs)
    as [-> ->]; [unfold PROT_ARP; lia|discriminate|]. cbn [negb]. rewrite Z.eqb_refl. f_equal.
  unfold rx_arp. rewrite (proj2 (Z.ltb_ge _ _)) by (unfold ARP_HDR_SIZE; lia).
  rewrite !(app_assoc dst), !(app_assoc (dst ++ src)).
  pose proof (arp_fields ((dst ++ src) ++ put16 PROT_ARP) ARPOP_REPLY sha spa tha (NetOurIP (cfg n)) rest 14) as F.
  destruct F as (E1 & E2 & E3 & E4 & _ & E6); [rewrite !length_app, Hd, Hs; reflexivity|assumption|assumption|].
  rewrite E1, E2, E6. rewrite (proj2 (Z.eqb_neq (NetOurIP _) 0)) by assumption.
  rewrite u32_small by apply (ok_ip n Hn). rewrite Z.eqb_refl. cbn [negb].
  change (u16 ARPOP_REPLY =? ARPOP_REQUEST) with false. change (u16 ARPOP_REPLY =? ARPOP_REPLY) with true.
  cbv iota. unfold arp_reply. rewrite Hm, E3, E4. rewrite (proj2 (Z.eqb_neq (NetArpWaitPacketIP _) 0)) by assumption.
  rewrite u32_small by apply Hspa. rewrite Hr, Z.eqb_refl. reflexivity.
Qed.

(** The fields of a datagram behind [l]. *)
Lemma ip_fields l len id src dest sum dport sport rest p :
  length l = p -> 0 <= len -> 28 + len < 65536 -> is_u32 src -> is_u32 dest ->
  let b := l ++ (ip_header len id src dest sum ++ udp_header len dport sport) ++ rest in
  get8 b p = 0x45 /\ get16 b (p + 2) = 28 + len /\ get16 b (p + 6) = IP_FLAGS_DFRAG /\ get8 b (p + 9) = IPPROTO_UDP /\
  get_be32 b (p + 16) = dest /\ get16 b (p + 20) = u16 sport /\
  get16 b (p + 22) = u16 dport /\ get16 b (p + 24) = 8 + len /\ drop (p + 28) b = rest.
Proof.
  intros Hl H0 Hlen Hs Hd b. subst b. rewrite !(get16_app l), !(get_be32_app l), (drop_app_skip l) by assumption.
  split_and!.
  - subst p. rewrite <- (Nat.add_0_r (length l)), get8_app. reflexivity.
  - transitivity (u16 (28 + len)); [apply byte_pair|apply u16_small; lia].
  - reflexivity.
  - subst p. rewrite get8_app. reflexivity.
  - transitivity (u32 dest); [apply byte_quad|apply u32_small, Hd].
  - apply byte_pair.
  - apply byte_pair.
  - transitivity (u16 (8 + len)); [apply byte_pair|apply u16_small; lia].
  - reflexivity.
Qed.

Lemma ip_udp_header_cksum l len id src dest dport sport rest p :
  length l = p -> 0 <= src -> 0 <= dest ->
  NetCksumOk (l ++ ip_udp_header len id src dest dport sport ++ rest) p 10 = true.
Proof.
  intros Hl Hs Hd. rewrite (NetCksumOk_app l _ p 10 Hl). unfold ip_udp_header. rewrite <- app_assoc.
  rewrite NetCksumOk_prefix by (rewrite length_ip_header; lia). exact (ip_header_cksum_ok len id src dest Hs Hd).
Qed.

(** A datagram for us goes to the packet handler. *)
Lemma rx_udp n dst src len id ipsrc ipdst dport sport payload rest flen :
  no_vlan n -> length dst = 6%nat -> length src = 6%nat -> zlen payload = len -> 28 + len < 65536 ->
  42 + len <= flen < 2 ^ 31 -> is_u32 ipsrc -> is_u32 ipdst ->
  NetOurIP (cfg n) = 0 \/ ipdst = NetOurIP (cfg n) \/ ipdst = 0xFFFFFFFF ->
  NetReceive n (dst ++ src ++ put16 PROT_IP ++ ip_udp_header len id ipsrc ipdst dport sport ++ payload ++ rest) flen =
    (n, [], Some (RxCall (payload ++ rest) (u16 dport) (u16 sport) len)).
Proof.
  intros Hv Hd Hs Hz Hl Hf Hsrc Hdst Hus. pose proof (zlen_nonneg payload). unfold NetReceive.
  rewrite (proj2 (Z.ltb_ge _ _)) by (unfold ETHER_HDR_SIZE; lia).
  destruct (rx_plain n dst src PROT_IP (ip_udp_header len id ipsrc ipdst dport sport ++ payload ++ rest) flen Hv Hd Hs)
    as [-> ->]; [unfold PROT_IP; lia|discriminate|]. cbn [negb].
  change (PROT_IP =? PROT_ARP) with false. change (PROT_IP =? PROT_RARP) with false. rewrite Z.eqb_refl. cbv iota.
  f_equal. rewrite !(app_assoc dst), !(app_assoc (dst ++ src)).
  assert (length ((dst ++ src) ++ put16 PROT_IP) = 14%nat) as H14 by (rewrite !length_app, Hd, Hs; reflexivity).
  pose proof (ip_udp_header_cksum _ len id ipsrc ipdst dport sport (payload ++ rest) _ H14 (proj1 Hsrc) (proj1 Hdst)) as Ec.
  revert Ec. unfold ip_udp_header. generalize (Z.lnot (NetCksum (ip_header len id ipsrc ipdst 0) 0 10)) as sum.
  intros sum Ec.
  destruct (ip_fields ((dst ++ src) ++ put16 PROT_IP) len id ipsrc ipdst sum dport sport (payload ++ rest) 14)
    as (E0 & E2 & E6 & E9 & Ed & Es & Edp & El & Er); [exact H14|lia|lia|assumption|assumption|].
  unfold rx_ip, rx_ip_ok. rewrite E0, E2, E6, E9, Ec, Ed, Es, Edp, El, Er.
  change (2 ^ 31) with 2147483648 in Hf. rewrite (u32_small (flen - 14)) by lia.
  rewrite (proj2 (Z.ltb_ge (flen - 14) IP_HDR_SIZE)), (proj2 (Z.ltb_ge (flen - 14) (28 + len))) by (unfold IP_HDR_SIZE; lia).
  change ((0x45 .& 0xf0) =? 0x40) with true. change (5 <? (0x45 .& 0x0f)) with false.
  change ((IP_FLAGS_DFRAG .& (IP_OFFS .| IP_FLAGS_MFRAG)) =? 0) with true.
  change (IPPROTO_UDP =? IPPROTO_ICMP) with false. rewrite Z.eqb_refl. cbn [negb].
  assert (negb (NetOurIP (cfg n) =? 0) && negb (ipdst =? NetOurIP (cfg n)) && negb (ipdst =? 0xFFFFFFFF) = false) as ->.
  { destruct Hus as [-> | [-> | ->]]; rewrite Z.eqb_refl; cbn; rewrite ?andb_false_r; reflexivity. }
  cbn [negb]. do 2 f_equal. rewrite u32_small; lia.
Qed.

(** ** An exchange between two hosts *)

Lemma take_retarget pkt mac k l :
  length mac = 6%nat -> take k pkt = NetEtherNullAddr ++ l -> (6 <= k <= length pkt)%nat ->
  take k (write_at pkt 0 mac) = mac ++ l.
Proof.
  intros Hm Ht Hk. unfold write_at. rewrite take_0, Hm. cbn [app Nat.add].
  rewrite take_app_ge by lia. rewrite Hm. f_equal.
  transitivity (drop 6 (take k pkt)); [|rewrite Ht; reflexivity].
  rewrite take_drop_commute. f_equal. f_equal. lia.
Qed.

Lemma udp_frame_plain n mac id dest dport sport payload :
  no_vlan n ->
  udp_frame n mac id dest dport sport payload =
    mac ++ NetOurEther (cfg n) ++ put16 PROT_IP ++
    ip_udp_header (zlen payload) id (NetOurIP (cfg n)) dest dport sport ++ payload.
Proof. intros H. unfold udp_frame. rewrite eth_header_plain by exact H. rewrite <- !app_assoc. reflexivity. Qed.

(** C8: a datagram for a host of the same network whose address is unknown
    reaches that host's packet handler: the sender keeps it and broadcasts an ARP
    request, the peer answers, the answer releases the datagram, and the
    peer's handler gets the payload, the ports and the length (whatever follows
    the frames in the receive buffers). *)
Theorem arp_udp_exchange A B now dport sport len r1 r2 r3 :
  net_ok A -> net_ok B -> no_vlan A -> no_vlan B -> fits A len ->
  NetOurIP (cfg A) <> 0 -> NetOurIP (cfg B) <> 0 -> NetOurIP (cfg B) <> 0xFFFFFFFF ->
  NetOurIP (cfg B) .& NetOurSubnetMask (cfg A) = NetOurIP (cfg A) .& NetOurSubnetMask (cfg A) ->
  NetServerEther A = NetEtherNullAddr ->
  exists A1 A2 request answer datagram,
    NetSendUDPPacket A now p_NetServerEther (NetOurIP (cfg B)) dport sport len = (A1, [EthSend request], 1) /\
    NetReceive B (request ++ r1) (zlen request) = (B, [EthSend answer], None) /\
    NetReceive A1 (answer ++ r2) (zlen answer) = (A2, [EthSend datagram], None) /\
    NetReceive B (datagram ++ r3) (zlen datagram) =
      (B, [], Some (RxCall (tx_payload A len ++ r3) (u16 dport) (u16 sport) len)) /\
    NetServerEther A2 = NetOurEther (cfg B) /\ NetArpWaitPacketIP (arp A2) = 0.
Proof.
  intros HA HB VA VB Hf IA IB IB' Hsub HE.
  pose proof (ok_ether A HA) as [LA _]. pose proof (ok_ether B HB) as [LB _].
  assert (udp_dest (NetOurIP (cfg B)) = NetOurIP (cfg B)) as Hd
    by (unfold udp_dest; rewrite (proj2 (Z.eqb_neq _ _)) by assumption; reflexivity).
  assert (udp_ether (NetOurIP (cfg B)) p_NetServerEther = p_NetServerEther) as He
    by (unfold udp_ether; rewrite Hd, (proj2 (Z.eqb_neq _ _)) by assumption; reflexivity).
  pose proof (zlen_tx_payload A len HA Hf) as Hz.
  destruct (send_waits A now p_NetServerEther (NetOurIP (cfg B)) dport sport len HA Hf) as (pkt & tx & Lp & Lt & Ht & Es);
    [rewrite He; exact HE|]. cbv zeta in Es.
  set (size := NetEthHdrSize A + IP_HDR_SIZE + len) in *.
  set (A1 := waiting (set_ipid A (u32 (NetIPID A + 1))) (udp_dest (NetOurIP (cfg B)))
               (udp_ether (NetOurIP (cfg B)) p_NetServerEther) pkt size now) in *.
  assert (NetArpWaitReplyIP (arp A1) = NetOurIP (cfg B)) as Hreply.
  { subst A1. unfold waiting, set_arp_reply, arp_target. cbn [arp set_arp cfg set_ipid NetArpWaitReplyIP NetArpWaitPacketIP].
    rewrite Hd, Hsub, Z.eqb_refl. reflexivity. }
  rewrite Hreply, eth_header_plain, <- !app_assoc in Es by exact VA.
  set (dg := udp_frame A (NetOurEther (cfg B)) (NetIPID A) (NetOurIP (cfg B)) dport sport (tx_payload A len)).
  eexists _, _, _, _, dg. split; [exact Es|]. split.
  { rewrite <- !app_assoc. apply rx_arp_request; auto.
    unfold arp_packet. rewrite !zlen_app. unfold zlen. rewrite LA. cbn. lia. }
  split.
  { assert (net_ok (set_tx A1 tx)) as HA1 by (subst A1; unfold waiting, set_arp_reply; auto 10 with uboot).
    rewrite <- !app_assoc. rewrite (rx_arp_reply (set_tx A1 tx) (NetOurEther (cfg A)) (NetOurEther (cfg B))
      (NetOurEther (cfg B)) (NetOurIP (cfg B)) (NetOurEther (cfg A)) r2 _ p_NetServerEther); auto.
    - f_equal. f_equal. f_equal. f_equal. change (NetArpWaitTxPacketSize _) with size.
      change (NetArpWaitTxPacket _) with pkt. rewrite udp_frame_plain, Hd in Ht by exact VA.
      pose proof (fits_le A len Hf). subst dg. rewrite udp_frame_plain by exact VA. apply take_retarget; auto.
      subst size. rewrite Lp. rewrite eth_size_plain in * by exact VA. unfold IP_HDR_SIZE in *. destruct Hf. lia.
    - unfold arp_packet. rewrite !zlen_app. unfold zlen. rewrite LA, LB. cbn. lia.
    - subst A1. cbn. rewrite He. reflexivity.
    - subst A1. cbn. rewrite Hd. exact IB.
    - apply (ok_ip B HB). }
  split; [|split; reflexivity].
  subst dg. rewrite udp_frame_plain by exact VA. rewrite <- !app_assoc. rewrite Hz.
  assert (42 + len <= zlen (NetOurEther (cfg B) ++ NetOurEther (cfg A) ++ put16 PROT_IP ++
    ip_udp_header len (NetIPID A) (NetOurIP (cfg A)) (NetOurIP (cfg B)) dport sport ++ tx_payload A len) <= 42 + len) as Hl.
  { rewrite !zlen_app, Hz. unfold zlen. rewrite LA, LB, length_ip_udp_header. cbn [put16 length]. lia. }
  pose proof (fits_le A len Hf) as Hle. rewrite eth_size_plain in Hle by exact VA. unfold PKTSIZE_ALIGN in Hle.
  apply rx_udp; auto; try lia; [apply (ok_ip A HA)|apply (ok_ip B HB)].
Qed.

(** Two hosts of the board's default network, [payload] in the transmit buffer. *)
Definition ex_loop : net_loop := NetLoop_ NETLOOP_CONTINUE 1 false true false rx_none None 0 0 0 None.
Definition ex_host (ip : Z) (mac server payload : list Z) : net :=
  Net (NetCfg ip 0xC0A80064 0xFFFFFF00 0 mac 0xFFFF 0xFFFF)
      (NetArp 0 0 None (repeat 0 PKTSIZE_ALIGN) 0 0 0) ex_loop server 0
      (write_at (repeat 0 PKTSIZE_ALIGN) 42 payload).
Definition ex_mac_a : list Z := [0x00; 0x00; 0x5b; 0xee; 0xde; 0xad].
Definition ex_mac_b : list Z := [0x00; 0x10; 0x20; 0x30; 0x40; 0x50].
Definition ex_a : net := ex_host 0xC0A80069 ex_mac_a NetEtherNullAddr (str "hello").
Definition ex_b : net := ex_host 0xC0A80064 ex_mac_b NetEtherNullAddr [].

Lemma ex_host_ok ip mac server payload :
  is_u32 ip -> (length mac = 6%nat /\ all_u8 mac = true) -> (length server = 6%nat /\ all_u8 server = true) ->
  (length payload <= 1000)%nat -> net_ok (ex_host ip mac server payload).
Proof.
  intros Hi [Hm1 Hm2] [Hs1 Hs2] Hp. constructor.
  - split; [exact Hm1|apply all_u8_spec, Hm2].
  - split; [exact Hs1|apply all_u8_spec, Hs2].
  - exact Hi.
  - change (length (write_at (repeat 0 PKTSIZE_ALIGN) 42 payload) = PKTSIZE_ALIGN).
    rewrite write_at_length; rewrite repeat_length; unfold PKTSIZE_ALIGN; lia.
  - reflexivity.
  - cbn. unfold_words. lia.
Qed.

Lemma arp_udp_exchange_witness :
  exists A1 A2 request answer datagram,
    NetSendUDPPacket ex_a 0 p_NetServerEther 0xC0A80064 69 1024 5 = (A1, [EthSend request], 1) /\
    NetReceive ex_b (request ++ []) (zlen request) = (ex_b, [EthSend answer], None) /\
    NetReceive A1 (answer ++ []) (zlen answer) = (A2, [EthSend datagram], None) /\
    NetReceive ex_b (datagram ++ []) (zlen datagram) =
      (ex_b, [], Some (RxCall (str "hello" ++ []) 69 1024 5)) /\
    NetServerEther A2 = ex_mac_b /\ NetArpWaitPacketIP (arp A2) = 0.
Proof.
  apply (arp_udp_exchange ex_a ex_b 0 69 1024 5 [] [] []).
  - apply ex_host_ok; [unfold_words; lia|split; reflexivity|split; reflexivity|cbn; lia].
  - apply ex_host_ok; [unfold_words; lia|split; reflexivity|split; reflexivity|cbn; lia].
  - reflexivity.
  - reflexivity.
  - split; [lia|]. apply Z.leb_le. vm_compute. reflexivity.
  - discriminate.
  - discriminate.
  - discriminate.
  - reflexivity.
  - reflexivity.
Defined.

(** ** What reaches the packet handler *)

(** The condition that the code checks on an IP frame at [p] of [len] bytes. *)
Definition ip_acceptable (n : net) (b : list Z) (p : nat) (len : Z) : Prop :=
  get16 b (p + 2) <= len /\ get8 b p .& 0xf0 = 0x40 /\ get8 b p .& 0x0f <= 5 /\ NetCksumOk b p 10 = true /\
  (NetOurIP (cfg n) = 0 \/ get_be32 b (p + 16) = NetOurIP (cfg n) \/ get_be32 b (p + 16) = 0xFFFFFFFF) /\
  get16 b (p + 6) .& (IP_OFFS .| IP_FLAGS_MFRAG) = 0.

Lemma rx_ip_ok_spec n b p len : rx_ip_ok n b p len = true -> ip_acceptable n b p len.
Proof.
  unfold rx_ip_ok. repeat match goal with |- context [if ?c then false else _] => destruct c eqn:?; [discriminate|] end.
  intros H. cbv zeta in H. destruct (_ && _ && _) eqn:E; [discriminate|].
  split_and!; try (apply Z.ltb_ge; assumption); try (apply Z.eqb_eq, negb_false_iff; assumption);
    try (apply negb_false_iff; assumption); [|apply Z.eqb_eq, H].
  apply andb_false_iff in E as [E|E]; [apply andb_false_iff in E as [E|E]|];
    apply negb_false_iff, Z.eqb_eq in E; auto.
Qed.


Definition ex_short_udp : list Z :=
  ex_mac_b ++ ex_mac_a ++ put16 PROT_IP ++
  ip_header 0 7 0xC0A80069 0xC0A80064 (Z.lnot (NetCksum (ip_header 0 7 0xC0A80069 0xC0A80064 0) 0 10)) ++
  put16 69 ++ put16 1024 ++ put16 4 ++ put16 0.

(** The length of the UDP header is not checked against the datagram: a value
    below 8 makes the handler's length wrap around. *)
Lemma udp_length_unchecked :
  NetReceive ex_b ex_short_udp 42 = (ex_b, [], Some (RxCall [] 1024 69 (2 ^ 32 - 4))).
Proof. vm_compute. reflexivity. Qed.

(** ** The invariant of the layer *)

(** Well-formed, a state of the loop, and no reply awaited for the broadcast address. *)
Record net_inv (n : net) : Prop := {
  inv_ok : net_ok n;
  inv_state : NETLOOP_CONTINUE <= NetState (loop n) <= NETLOOP_FAIL;
  inv_mac : NetArpWaitPacketMAC (arp n) <> Some p_NetBcastAddr
}.

Lemma net_inv_tx n tx : net_inv n -> length tx = PKTSIZE_ALIGN -> net_inv (set_tx n tx).
Proof. intros [] H. constructor; auto with uboot. Qed.
Lemma net_inv_ipid n i : net_inv n -> is_u32 i -> net_inv (set_ipid n i).
Proof. intros [] H. constructor; auto with uboot. Qed.
Lemma net_inv_server n e : net_inv n -> mac_ok e -> net_inv (set_server_ether n e).
Proof. intros [] H. constructor; auto with uboot. Qed.
Lemma net_inv_loop n l : net_inv n -> NETLOOP_CONTINUE <= NetState l <= NETLOOP_FAIL -> net_inv (set_loop n l).
Proof. intros [] H. constructor; auto with uboot. Qed.
Lemma net_inv_arp n a :
  net_inv n -> length (NetArpWaitTxPacket a) = PKTSIZE_ALIGN -> NetArpWaitPacketMAC a <> Some p_NetBcastAddr ->
  net_inv (set_arp n a).
Proof. intros [] H1 H2. constructor; auto with uboot. Qed.
Lemma net_inv_state n s : net_inv n -> NETLOOP_CONTINUE <= s <= NETLOOP_FAIL -> net_inv (set_state n s).
Proof. intros H Hs. apply net_inv_loop; assumption. Qed.
Lemma net_inv_timeout n now iv f : net_inv n -> net_inv (NetSetTimeout n now iv f).
Proof. intros H. unfold NetSetTimeout. destruct (iv =? 0); apply net_inv_loop; try assumption; apply H. Qed.
Lemma net_inv_handler n f : net_inv n -> net_inv (NetSetHandler n f).
Proof. intros H. apply net_inv_loop; [assumption|apply H]. Qed.
#[export] Hint Resolve net_inv_tx net_inv_ipid net_inv_server net_inv_state net_inv_timeout net_inv_handler : uboot.

Lemma net_inv_arp_reply n ip : net_inv n -> net_inv (set_arp_reply n ip).
Proof. intros H. apply net_inv_arp; [exact H|apply (inv_ok n H)|apply (inv_mac n H)]. Qed.
Lemma net_inv_arp_timer n a b : net_inv n -> net_inv (set_arp_timer n a b).
Proof. intros H. apply net_inv_arp; [exact H|apply (inv_ok n H)|apply (inv_mac n H)]. Qed.
#[export] Hint Resolve net_inv_arp_reply net_inv_arp_timer : uboot.

Lemma net_inv_request n : net_inv n -> net_inv (fst (ArpRequest n)).
Proof. intros H. destruct (arp_request_spec n (inv_ok n H)) as (tx & Htx & ->). cbn [fst]. auto with uboot. Qed.

Lemma net_inv_send n now ether dest dport sport len :
  net_inv n -> fits n len -> net_inv (fst (fst (NetSendUDPPacket n now ether dest dport sport len))).
Proof.
  intros H Hf. pose proof (inv_ok n H) as Hn.
  destruct (decide (ether_of n (udp_ether dest ether) = NetEtherNullAddr)) as [E|E].
  - destruct (send_waits n now ether dest dport sport len Hn Hf E) as (pkt & tx & Hp & Ht & _ & ->). cbn [fst].
    apply net_inv_tx; [|exact Ht]. apply net_inv_arp_reply. apply net_inv_arp; [auto with uboot|exact Hp|].
    cbn. intros Eb. simplify_eq. rewrite Eb in E. discriminate E.
  - destruct (send_known n now ether dest dport sport len Hn Hf E) as (tx & Ht & ->). cbn [fst]. auto with uboot.
Qed.

Lemma sub_u8 b o n : Forall is_u8 b -> Forall is_u8 (sub b o n).
Proof. intros H. unfold sub. apply Forall_take, Forall_drop, H. Qed.

(** The receive buffer: [PKTSIZE_ALIGN] bytes. *)
Definition rx_buffer (b : list Z) : Prop := length b = PKTSIZE_ALIGN /\ Forall is_u8 b.

Lemma rx_link_offset n b len x p len' v : rx_link n b len = Some (x, p, len', v) -> (p <= 22)%nat.
Proof.
  unfold rx_link, E802_HDR_SIZE, ETHER_HDR_SIZE, VLAN_ETHER_HDR_SIZE. intros H.
  repeat match type of H with (if ?c then _ else _) = _ => destruct c end; simplify_eq; lia.
Qed.

Lemma sender_mac_ok b p : rx_buffer b -> (p <= 22)%nat -> mac_ok (sub b (p + 8) 6).
Proof.
  intros [Hl Hu] Hp. split; [|apply sub_u8, Hu]. apply length_sub. rewrite Hl. unfold PKTSIZE_ALIGN. lia.
Qed.

Lemma get_be32_u32 b i : is_u32 (get_be32 b i) \/ ~ Forall is_u8 b.
Proof.
  destruct (decide (Forall is_u8 b)) as [H|H]; [left|right; exact H].
  assert (forall j, is_u32 (nth j b 0) /\ 0 <= nth j b 0 < 256) as H8.
  { intros j. destruct (Nat.lt_ge_cases j (length b)).
    - rewrite List.Forall_forall in H. pose proof (H _ (nth_In b 0 H0)) as Hj. unfold_words. change (2 ^ 8) with 256 in Hj. lia.
    - rewrite nth_overflow by lia. unfold_words. lia. }
  assert (forall j k, 0 <= k <= 24 -> is_u32 (nth j b 0 .<< k)) as Hk.
  { intros j k Hk. destruct (H8 j) as [_ Hj]. rewrite Z.shiftl_mul_pow2 by lia. unfold_words.
    assert (2 ^ k <= 2 ^ 24) by (apply Z.pow_le_mono_r; lia). change (2 ^ 24) with 16777216 in *.
    change (2 ^ 32) with 4294967296. assert (0 < 2 ^ k) by (apply Z.pow_pos_nonneg; lia). nia. }
  unfold get_be32. repeat apply in_word_lor; try lia; try (apply Hk; lia). apply H8.
Qed.

Lemma NetReceive_inv n b len :
  net_inv n -> rx_buffer b ->
  net_inv (fst (fst (NetReceive n b len))) /\
  match snd (NetReceive n b len) with
  | Some r => Forall is_u8 (rx_pkt r) /\ 0 <= rx_src r < 65536 /\ 0 <= rx_len r < 2 ^ 32
  | None => True
  end.
Proof.
  intros H [Hl Hu]. unfold NetReceive. destruct (len <? ETHER_HDR_SIZE); [exact (conj H I)|].
  destruct (rx_link n b len) as [[[[x p] len'] v]|] eqn:E; [|exact (conj H I)]. apply rx_link_offset in E.
  pose proof (sender_mac_ok b p (conj Hl Hu) E) as Hm.
  destruct (negb (rx_vlan_ok n v)); [exact (conj H I)|]. destruct (x =? PROT_ARP).
  { split; [|exact I]. cbn [fst snd]. unfold rx_arp.
    destruct (len' <? ARP_HDR_SIZE); [exact H|]. destruct (negb (arp_header_ok b p)); [exact H|].
    destruct (NetOurIP (cfg n) =? 0); [exact H|].
    destruct (negb (get_be32 b (p + 24) =? NetOurIP (cfg n))); [exact H|]. cbv zeta.
    destruct (get16 b (p + 6) =? ARPOP_REQUEST); [exact H|]. destruct (get16 b (p + 6) =? ARPOP_REPLY); [|exact H].
    unfold arp_reply.
    destruct (NetArpWaitPacketMAC (arp n)) as [mac|] eqn:Em; [|exact H]. destruct (NetArpWaitPacketIP (arp n) =? 0); [exact H|].
    destruct (get_be32 b (p + 14) =? NetArpWaitReplyIP (arp n)); [|exact H]. cbv zeta. cbn [fst].
    assert (mac = p_NetServerEther) as -> by (destruct mac; [reflexivity|destruct (inv_mac n H Em)]).
    apply net_inv_arp; [cbn [set_ether]; auto with uboot| |discriminate]. cbn.
    pose proof (ok_arptx n (inv_ok n H)) as La. destruct Hm as [Lm _].
    rewrite write_at_length; [exact La|]. rewrite Lm, La. unfold PKTSIZE_ALIGN. lia. }
  destruct (x =? PROT_RARP).
  { unfold rx_rarp. destruct (len' <? ARP_HDR_SIZE); [exact (conj H I)|].
    destruct (negb (get16 b (p + 6) =? RARPOP_REPLY) || negb (arp_header_ok b p)); [exact (conj H I)|]. cbv zeta. cbn [fst snd].
    split; [|cbn; split_and!; [constructor|lia..]]. apply net_inv_server; [|exact Hm].
    destruct H as [[] ? ?]. constructor; [|assumption..]. constructor; try assumption.
    destruct (get_be32_u32 b (p + 24)) as [Hw|Hw]; [exact Hw|destruct (Hw Hu)]. }
  destruct (x =? PROT_IP); [|exact (conj H I)]. cbn [fst snd]. split; [exact H|]. unfold rx_ip.
  destruct (negb (rx_ip_ok n b p len')); [exact I|]. destruct (get8 b (p + 9) =? IPPROTO_ICMP); [exact I|].
  destruct (negb (get8 b (p + 9) =? IPPROTO_UDP)); [exact I|].
  cbn [rx_pkt rx_src rx_len]. split_and!; [apply Forall_drop, Hu|apply get16_range, Hu..|apply u32_range|apply u32_range].
Qed.

(** Receiving leaves the loop control alone. *)
Lemma loop_set_ether n p e : loop (set_ether n p e) = loop n.
Proof. destruct p; reflexivity. Qed.
Lemma NetReceive_loop n b len : loop (fst (fst (NetReceive n b len))) = loop n.
Proof.
  unfold NetReceive. destruct (len <? _); [reflexivity|].
  destruct (rx_link n b len) as [[[[x p] l] v]|]; [|reflexivity].
  destruct (negb _); [reflexivity|]. destruct (x =? PROT_ARP).
  { cbn [fst]. unfold rx_arp, arp_reply. cbv zeta.
    repeat (case_match; try reflexivity). cbn [fst]. apply loop_set_ether. }
  destruct (x =? PROT_RARP); [|destruct (x =? PROT_IP); reflexivity].
  unfold rx_rarp. cbv zeta. repeat (case_match; simplify_eq; try reflexivity).
Qed.

Section inv_env.
Context (getenv : list Z -> option (list Z)) (eth_names : list (list Z)).

Lemma net_inv_start_again n now : net_inv n -> net_inv (fst (NetStartAgain getenv eth_names n now)).
Proof.
  intros H. assert (forall s, s = NETLOOP_FAIL \/ s = NETLOOP_RESTART -> NETLOOP_CONTINUE <= s <= NETLOOP_FAIL) as Hs
    by (intros s [-> | ->]; unfold NETLOOP_CONTINUE, NETLOOP_FAIL, NETLOOP_RESTART; lia).
  assert (forall n ff, net_inv n -> net_inv (fst (eth_try_another getenv eth_names n ff))) as Ht.
  { intros m ff Hm. unfold eth_try_another. case_decide; [exact Hm|]. destruct eth_names; [exact Hm|]. cbv zeta. cbn [fst].
    case_decide; repeat apply net_inv_loop; try exact Hm; apply Hm. }
  assert (net_inv (fst (start_again getenv eth_names n now))) as Hg.
  { unfold start_again. set (n1 := set_try n _).
    assert (net_inv n1) as H1 by (apply net_inv_loop; [exact H|apply H]).
    pose proof (Ht n1 (negb (NetRestarted (loop n1))) H1) as H2.
    destruct (eth_try_another getenv eth_names n1 (negb (NetRestarted (loop n1)))) as [n2 out]. cbn [fst] in H2.
    destruct (NetRestartWrap (loop n2)); [|cbn [fst]; auto with uboot].
    assert (net_inv (set_wrap n2 false)) as H3 by (apply net_inv_loop; [exact H2|apply H2]).
    destruct (NetDevExists (loop (set_wrap n2 false))); cbn [fst]; auto with uboot. }
  unfold NetStartAgain. destruct (retry_limit getenv) as [r|]; [|exact Hg].
  destruct (r <=? u32 (NetTryCount (loop n))); [cbn [fst]; auto with uboot|exact Hg].
Qed.

Lemma net_inv_arp_check n now : net_inv n -> net_inv (fst (ArpTimeoutCheck getenv eth_names n now)).
Proof.
  intros H. unfold ArpTimeoutCheck. destruct (NetArpWaitPacketIP (arp n) =? 0); [exact H|].
  destruct (ARP_TIMEOUT <? u32 (now - NetArpWaitTimerStart (arp n))); [|exact H].
  destruct (ARP_TIMEOUT_COUNT <=? s32 (NetArpWaitTry (arp n) + 1)); [apply net_inv_start_again|apply net_inv_request]; auto with uboot.
Qed.
End inv_env.
