(* ===== verification/Tftp.v ===== *)
(** * The TFTP client and the network loop (net/tftp.c, NetLoop of net/net.c)

    The client's state is the network layer's, the globals of tftp.c, the memory
    the file is loaded into and the transferred size.  [client_rx] is a received
    frame: NetReceive and the packet handler it calls; [client_tick] one turn of
    the timers.  A server is any source of frames. *)

From stdpp Require Import relations.
From S2P Require Import Prelude CMem Strto Vsprintf Bytes Net.

(** ** Constants *)

Definition WELL_KNOWN_PORT : Z := 69.
Definition TIMEOUT : Z := 5000.
Definition TIMEOUT_COUNT : Z := 10.
Definition TFTP_RRQ : Z := 1.
Definition TFTP_DATA : Z := 3.
Definition TFTP_ACK : Z := 4.
Definition TFTP_ERROR : Z := 5.
Definition TFTP_OACK : Z := 6.
Definition TFTP_ERR_FILE_NOT_FOUND : Z := 1.
Definition TFTP_ERR_ACCESS_DENIED : Z := 2.
Definition STATE_RRQ : Z := 1.
Definition STATE_DATA : Z := 2.
Definition STATE_TOO_LARGE : Z := 3.
Definition STATE_BAD_MAGIC : Z := 4.
Definition STATE_OACK : Z := 5.
Definition TFTP_BLOCK_SIZE : Z := 512.
Definition TFTP_SEQUENCE_SIZE : Z := 1 .<< 16.
Definition TFTP_MTU_BLOCKSIZE : Z := 1468.
Definition MAX_LEN : nat := 128.

(** ** State *)

Record tftp_cfg := TftpCfg {
  TftpTimeoutMSecs : Z;
  TftpBlkSizeOption : Z;
  TftpServerIP : Z;
  TftpOurPort : Z;
  tftp_filename : list Z
}.
Record tftp := Tftp {
  tcfg : tftp_cfg;
  TftpServerPort : Z;
  TftpTimeoutCount : Z;
  TftpTimeoutCountMax : Z;
  TftpBlock : Z;
  TftpLastBlock : Z;
  TftpBlockWrap : Z;
  TftpBlockWrapOffset : Z;
  TftpState : Z;
  TftpBlkSize : Z
}.
Record client := Client {
  cnet : net;
  ct : tftp;
  cmem : mem;
  NetBootFileXferSize : Z;
  load_addr : Z
}.

Definition set_net (c : client) (n : net) : client := Client n (ct c) (cmem c) (NetBootFileXferSize c) (load_addr c).
Definition set_tftp (c : client) (t : tftp) : client := Client (cnet c) t (cmem c) (NetBootFileXferSize c) (load_addr c).
Definition set_mem (c : client) (m : mem) : client := Client (cnet c) (ct c) m (NetBootFileXferSize c) (load_addr c).
Definition set_xfer (c : client) (s : Z) : client := Client (cnet c) (ct c) (cmem c) s (load_addr c).

Definition set_port (t : tftp) (p : Z) : tftp :=
  Tftp (tcfg t) p (TftpTimeoutCount t) (TftpTimeoutCountMax t) (TftpBlock t) (TftpLastBlock t) (TftpBlockWrap t)
    (TftpBlockWrapOffset t) (TftpState t) (TftpBlkSize t).
Definition set_count (t : tftp) (n : Z) : tftp :=
  Tftp (tcfg t) (TftpServerPort t) n (TftpTimeoutCountMax t) (TftpBlock t) (TftpLastBlock t) (TftpBlockWrap t)
    (TftpBlockWrapOffset t) (TftpState t) (TftpBlkSize t).
Definition set_count_max (t : tftp) (n : Z) : tftp :=
  Tftp (tcfg t) (TftpServerPort t) (TftpTimeoutCount t) n (TftpBlock t) (TftpLastBlock t) (TftpBlockWrap t)
    (TftpBlockWrapOffset t) (TftpState t) (TftpBlkSize t).
Definition set_block (t : tftp) (b : Z) : tftp :=
  Tftp (tcfg t) (TftpServerPort t) (TftpTimeoutCount t) (TftpTimeoutCountMax t) b (TftpLastBlock t) (TftpBlockWrap t)
    (TftpBlockWrapOffset t) (TftpState t) (TftpBlkSize t).
Definition set_last (t : tftp) (b : Z) : tftp :=
  Tftp (tcfg t) (TftpServerPort t) (TftpTimeoutCount t) (TftpTimeoutCountMax t) (TftpBlock t) b (TftpBlockWrap t)
    (TftpBlockWrapOffset t) (TftpState t) (TftpBlkSize t).
Definition set_block_wrap (t : tftp) (w off : Z) : tftp :=
  Tftp (tcfg t) (TftpServerPort t) (TftpTimeoutCount t) (TftpTimeoutCountMax t) (TftpBlock t) (TftpLastBlock t) w
    off (TftpState t) (TftpBlkSize t).
Definition set_tstate (t : tftp) (s : Z) : tftp :=
  Tftp (tcfg t) (TftpServerPort t) (TftpTimeoutCount t) (TftpTimeoutCountMax t) (TftpBlock t) (TftpLastBlock t)
    (TftpBlockWrap t) (TftpBlockWrapOffset t) s (TftpBlkSize t).
Definition set_blksize (t : tftp) (b : Z) : tftp :=
  Tftp (tcfg t) (TftpServerPort t) (TftpTimeoutCount t) (TftpTimeoutCountMax t) (TftpBlock t) (TftpLastBlock t)
    (TftpBlockWrap t) (TftpBlockWrapOffset t) (TftpState t) b.

(** ** Sending *)

(** The packet of each state; none for a state outside the switch. *)
Definition tftp_packet (t : tftp) : list Z :=
  let s := TftpState t in
  if s =? STATE_RRQ then
    put16 TFTP_RRQ ++ tftp_filename (tcfg t) ++ [0] ++ str "octet" ++ [0] ++ str "timeout" ++ [0] ++
    format_int (str "%lu") (TftpTimeoutMSecs (tcfg t) / 1000) ++ [0] ++
    str "blksize" ++ [0] ++ format_int (str "%d") (TftpBlkSizeOption (tcfg t)) ++ [0]
  else if (s =? STATE_OACK) || (s =? STATE_DATA) then put16 TFTP_ACK ++ put16 (TftpBlock t)
  else if s =? STATE_TOO_LARGE then put16 TFTP_ERROR ++ put16 3 ++ str "File too large" ++ [0]
  else if s =? STATE_BAD_MAGIC then put16 TFTP_ERROR ++ put16 2 ++ str "File has bad magic" ++ [0]
  else [].

Definition TftpSend (c : client) (now : Z) : client * list action :=
  let t := ct c in
  let n := cnet c in
  let pkt := tftp_packet t in
  let n := set_tx n (write_at (NetTxPacket n) (Z.to_nat (NetEthHdrSize n + IP_HDR_SIZE)) pkt) in
  let '(n, out, _) :=
    NetSendUDPPacket n now p_NetServerEther (TftpServerIP (tcfg t)) (TftpServerPort t) (TftpOurPort (tcfg t)) (zlen pkt) in
  (set_net c n, out).

(** ** Receiving *)

(** [len] bytes of the packet at [src] go to memory. *)
Definition store_block (c : client) (block : Z) (src : list Z) (len : Z) : client :=
  let t := ct c in
  let offset := u32 (u32 (block * TftpBlkSize t) + TftpBlockWrapOffset t) in
  let newsize := u32 (offset + len) in
  let c := set_mem c (put_bytes (cmem c) (u32 (load_addr c + offset)) (take (Z.to_nat len) src)) in
  if NetBootFileXferSize c <? newsize then set_xfer c newsize else c.

Section environment.
Context (getenv : list Z -> option (list Z)) (eth_names : list (list Z)).

Definition start_over (c : client) (now : Z) : client * list action :=
  let '(n, out) := NetStartAgain getenv eth_names (cnet c) now in (set_net c n, out).

(** for (i=0; i+8<len; i++): a "blksize" option sets the block size; [n] is len - 8. *)
Fixpoint oack_options (n : nat) (pkt : list Z) (blksize : Z) : Z :=
  match n with
  | O => blksize
  | S k =>
      let blksize :=
        if decide (take 8 pkt = str "blksize" ++ [0]) then u16 (fst (simple_strtoul (drop 8 pkt) 10)) else blksize in
      oack_options k (tl pkt) blksize
  end.

Definition handle_oack (c : client) (now : Z) (pkt : list Z) (src len : Z) : client * list action :=
  let t := set_port (set_tstate (ct c) STATE_OACK) src in
  let t := set_blksize t (oack_options (Z.to_nat (len - 8)) pkt (TftpBlkSize t)) in
  TftpSend (set_tftp c t) now.

(** A new block: store it, acknowledge it, and finish on a short one. *)
Definition accept_block (c : client) (now : Z) (pkt : list Z) (len : Z) : client * list action :=
  let t := ct c in
  let t := set_count_max (set_last t (TftpBlock t)) TIMEOUT_COUNT in
  let c := set_tftp c t in
  let c := set_net c (NetSetTimeout (cnet c) now (TftpTimeoutMSecs (tcfg t)) TftpTimeout) in
  let c := store_block c (TftpBlock t - 1) (drop 2 pkt) len in
  let '(c, out) := TftpSend c now in
  (if len <? TftpBlkSize (ct c) then set_net c (set_state (cnet c) NETLOOP_SUCCESS) else c, out).

Definition handle_data (c : client) (now : Z) (pkt : list Z) (src len : Z) : client * list action :=
  if len <? 2 then (c, [])
  else
    let len := len - 2 in
    let t := set_block (ct c) (get16 pkt 0) in
    let t :=
      if TftpBlock t =? 0 then
        set_block_wrap t (u32 (TftpBlockWrap t + 1))
          (u32 (TftpBlockWrapOffset t + u32 (TftpBlkSize t * TFTP_SEQUENCE_SIZE)))
      else t in
    let first := (TftpState t =? STATE_RRQ) || (TftpState t =? STATE_OACK) in
    let t := if first then set_block_wrap (set_last (set_port (set_tstate t STATE_DATA) src) 0) 0 0 else t in
    let c := set_tftp c t in
    if first && negb (TftpBlock t =? 1) then start_over c now
    else if TftpBlock t =? TftpLastBlock t then (c, [])
    else accept_block c now pkt len.

Definition handle_error (c : client) (now : Z) (pkt : list Z) : client * list action :=
  let code := get16 pkt 0 in
  if (code =? TFTP_ERR_FILE_NOT_FOUND) || (code =? TFTP_ERR_ACCESS_DENIED) then
    (set_net c (set_state (cnet c) NETLOOP_FAIL), [EthHalt])
  else start_over c now.

Definition tftp_handler (c : client) (now : Z) (pkt : list Z) (dest src len : Z) : client * list action :=
  if negb (dest =? u32 (TftpOurPort (tcfg (ct c)))) then (c, [])
  else if negb (TftpState (ct c) =? STATE_RRQ) && negb (src =? u32 (TftpServerPort (ct c))) then (c, [])
  else if len <? 2 then (c, [])
  else
    let len := len - 2 in
    let proto := get16 pkt 0 in
    let pkt := drop 2 pkt in
    if proto =? TFTP_OACK then handle_oack c now pkt src len
    else if proto =? TFTP_DATA then handle_data c now pkt src len
    else if proto =? TFTP_ERROR then handle_error c now pkt
    else (c, []).

Definition tftp_timeout (c : client) (now : Z) : client * list action :=
  let t := set_count (ct c) (s32 (TftpTimeoutCount (ct c) + 1)) in
  let c := set_tftp c t in
  if TftpTimeoutCountMax t <? TftpTimeoutCount t then start_over c now
  else
    let c := set_net c (NetSetTimeout (cnet c) now (TftpTimeoutMSecs (tcfg t)) TftpTimeout) in
    TftpSend c now.

(** ** The loop *)

(** A frame from the driver; the handlers of the other protocols are not the client's. *)
Definition client_rx (c : client) (now : Z) (inpkt : list Z) (len : Z) : client * list action :=
  let '(n, out, call) := NetReceive (cnet c) inpkt len in
  let c := set_net c n in
  match call with
  | None => (c, out)
  | Some r =>
      match packetHandler (loop n) with
      | TftpHandler =>
          let '(c, out') := tftp_handler c now (rx_pkt r) (rx_dest r) (rx_src r) (rx_len r) in (c, out ++ out')
      | _ => (c, out)
      end
  end.

(** The ARP timer, then the protocol's timer. *)
Definition run_timeout (c : client) (now : Z) : client * list action :=
  let l := loop (cnet c) in
  match timeHandler l with
  | None => (c, [])
  | Some h =>
      if timeDelta l <? u32 (now - timeStart l) then
        let c := set_net c (NetSetTimeout (cnet c) now 0 h) in
        match h with
        | TftpTimeout => tftp_timeout c now
        | startAgainTimeout => (set_net c (set_state (cnet c) NETLOOP_RESTART), [])
        | _ => (c, [])
        end
      else (c, [])
  end.
Definition client_tick (c : client) (now : Z) : client * list action :=
  let '(n, out) := ArpTimeoutCheck getenv eth_names (cnet c) now in
  let '(c, out') := run_timeout (set_net c n) now in
  (c, out ++ out').

(** ** Starting *)

(** strncpy into the 128 bytes, the last one zeroed. *)
Definition file_name (s : list Z) : list Z := take (MAX_LEN - 1) s.

(** The part behind the first ':' of a boot file name. *)
Fixpoint after_colon (s : list Z) : option (list Z) :=
  match s with
  | [] => None
  | c :: s => if c =? chr ":" then Some s else after_colon s
  end.

Definition default_filename (ip : Z) : list Z :=
  match vsprintf (str "%02lX%02lX%02lX%02lX.img")
          [Aint (ip .& 0xFF); Aint ((ip .>> 8) .& 0xFF); Aint ((ip .>> 16) .& 0xFF); Aint ((ip .>> 24) .& 0xFF)] with
  | Some (s, _) => s
  | None => []
  end.

(** The options of the user; [old] are the current values. *)
Definition blksize_option (old : Z) : Z :=
  match getenv (str "tftpblocksize") with
  | Some ep => u16 (fst (simple_strtol ep 10))
  | None => old
  end.
Definition timeout_option (old : Z) : Z :=
  let ms :=
    match getenv (str "tftptimeout") with
    | Some ep => u32 (fst (simple_strtol ep 10))
    | None => old
    end in
  if ms <? 1000 then 1000 else ms.

(** The server and the file name: a boot file name may carry a server's address. *)
Definition boot_target (n : net) (BootFile : list Z) : Z * list Z :=
  match BootFile with
  | [] => (NetServerIP (cfg n), file_name (default_filename (NetOurIP (cfg n))))
  | _ =>
      match after_colon BootFile with
      | None => (NetServerIP (cfg n), file_name BootFile)
      | Some p => (string_to_ip (Some BootFile), file_name p)
      end
  end.

Definition tftp_options (old : tftp_cfg) (n : net) (BootFile : list Z) (now : Z) : tftp_cfg :=
  let '(server, name) := boot_target n BootFile in
  TftpCfg (timeout_option (TftpTimeoutMSecs old)) (blksize_option (TftpBlkSizeOption old)) server
    (1024 + now mod 3072) name.

(** [count_max] is TftpRRQTimeoutCountMax. *)
Definition TftpStart (c : client) (now : Z) (BootFile : list Z) (count_max : Z) : client * list action :=
  let t := ct c in
  let o := tftp_options (tcfg t) (cnet c) BootFile now in
  let n := NetSetHandler (NetSetTimeout (cnet c) now (TftpTimeoutMSecs o) TftpTimeout) TftpHandler in
  let n := set_server_ether n (repeat 0 6) in
  let t := Tftp o WELL_KNOWN_PORT 0 count_max 0 (TftpLastBlock t) (TftpBlockWrap t) (TftpBlockWrapOffset t) STATE_RRQ
             TFTP_BLOCK_SIZE in
  TftpSend (set_net (set_tftp c t) n) now.

(** NetInitLoop: the addresses from the board information and the environment,
    when the environment has changed. *)
Definition NetInitLoop (n : net) (changed : bool) (bi_ip_addr vlan nvlan : Z) : net :=
  if changed then
    let ip v := string_to_ip (getenv v) in
    set_cfg n (NetCfg bi_ip_addr (ip (str "serverip")) (ip (str "netmask")) (ip (str "gatewayip")) (NetOurEther (cfg n)) vlan nvlan)
  else n.

Definition set_loop_flags (n : net) (restarted exists_ : bool) : net :=
  let l := loop n in
  set_loop n (NetLoop_ (NetState l) (NetTryCount l) restarted exists_ (NetRestartWrap l) (packetHandler l)
                (timeHandler l) (timeStart l) (timeDelta l) (eth_current l) (first_failed l)).

(** net_check_prereq for TFTP: 1 refused, 2 device not configured, 0 ready. *)
Definition net_check_prereq (c : client) (now : Z) : Z * client * list action :=
  let g := cfg (cnet c) in
  if NetServerIP g =? 0 then (1, c, [])
  else if NetOurIP g =? 0 then (1, c, [])
  else if decide (NetOurEther g = NetEtherNullAddr) then
    match eth_names with
    | [] => (1, c, [])
    | _ => let '(c, out) := start_over c now in (2, c, out)
    end
  else (0, c, []).

(** From the label restart to the loop; [ether] is the current device's address. *)
Definition net_restart (c : client) (now : Z) (ether : nat -> list Z) (changed : bool) (bi_ip_addr vlan nvlan : Z)
    (BootFile : list Z) (count_max : Z) : option Z * client * list action :=
  let n := cnet c in
  let g := cfg n in
  let n := set_cfg n (NetCfg (NetOurIP g) (NetServerIP g) (NetOurSubnetMask g) (NetOurGatewayIP g)
                        (ether (eth_current (loop n))) (NetOurVLAN g) (NetOurNativeVLAN g)) in
  let n := NetInitLoop (set_state n NETLOOP_CONTINUE) changed bi_ip_addr vlan nvlan in
  let '(r, c, out) := net_check_prereq (set_net c n) now in
  if r =? 1 then (Some (-1), c, out ++ [EthHalt])
  else if r =? 2 then (None, c, out)
  else
    let c := set_net c (set_loop_flags (cnet c) (NetRestarted (loop (cnet c))) true) in
    let '(c, out') := TftpStart c now BootFile count_max in
    (None, set_xfer c 0, out ++ out').

Inductive verdict := Running | Restart | Return (code : Z).

(** One turn of the loop: the frames the driver has, the console, the timers. *)
Definition loop_iter (c : client) (now : Z) (frames : list (list Z * Z)) (ctrlc : bool)
  : verdict * client * list action :=
  let '(c, out) :=
    fold_left (fun '(c, out) f => let '(c, out') := client_rx c now (fst f) (snd f) in (c, out ++ out'))
      frames (c, []) in
  if ctrlc then (Return (-1), c, out ++ [EthHalt])
  else
    let '(c, out') := client_tick c now in
    let out := out ++ out' in
    let s := NetState (loop (cnet c)) in
    if s =? NETLOOP_RESTART then
      (Restart, set_net c (set_loop_flags (cnet c) true (NetDevExists (loop (cnet c)))), out)
    else if s =? NETLOOP_SUCCESS then
      let vars :=
        if 0 <? NetBootFileXferSize c then
          [SetEnv (str "filesize") (format_int (str "%lX") (NetBootFileXferSize c));
           SetEnv (str "fileaddr") (format_int (str "%lX") (load_addr c))]
        else [] in
      (Return (s32 (NetBootFileXferSize c)), c, out ++ vars ++ [EthHalt])
    else if s =? NETLOOP_FAIL then (Return (-1), c, out)
    else (Running, c, out).
End environment.

(** * Properties *)

(** ** Sending *)

Lemma net_send_frame n now ether dest dport sport len :
  net_ok n -> fits n len -> ether_of n (udp_ether dest ether) <> NetEtherNullAddr ->
  exists tx ipid, let n' := set_tx (set_ipid n ipid) tx in
    net_ok n' /\
    NetSendUDPPacket n now ether dest dport sport len =
      (n', [EthSend (udp_frame n (ether_of n (udp_ether dest ether)) (NetIPID n) (udp_dest dest) dport sport
                       (tx_payload n len))], 0).
Proof.
  intros Hn Hf He. destruct (send_known n now ether dest dport sport len Hn Hf He) as (tx & Htx & E).
  exists tx, (u32 (NetIPID n + 1)). split; [auto with uboot|exact E].
Qed.

Lemma ether_known n dest : NetServerEther n <> NetEtherNullAddr -> ether_of n (udp_ether dest p_NetServerEther) <> NetEtherNullAddr.
Proof. intros H. unfold udp_ether. destruct (_ =? _); [discriminate|exact H]. Qed.

(** Setting the timer only changes the timer. *)
Lemma NetSetTimeout_shape n now iv f :
  exists l, NetSetTimeout n now iv f = set_loop n l /\ packetHandler l = packetHandler (loop n) /\
    NetState l = NetState (loop n) /\ (timeHandler l = None \/ timeHandler l = Some f).
Proof. unfold NetSetTimeout. destruct (iv =? 0); eexists; (split; [reflexivity|]); cbn; auto. Qed.

(** The frame that carries the client's packet. *)
Definition tftp_frame (c : client) : list Z :=
  let t := ct c in
  let n := cnet c in
  udp_frame n (ether_of n (udp_ether (TftpServerIP (tcfg t)) p_NetServerEther)) (NetIPID n)
    (udp_dest (TftpServerIP (tcfg t))) (TftpServerPort t) (TftpOurPort (tcfg t)) (tftp_packet t).

(** A payload put behind the headers goes out as it is, and only the transmit buffer and
    the packet counter change. *)
Lemma send_payload n now dest dport sport pkt :
  net_ok n -> fits n (zlen pkt) -> NetServerEther n <> NetEtherNullAddr ->
  exists tx ipid, let n' := set_tx (set_ipid n ipid) tx in
    net_ok n' /\
    NetSendUDPPacket (set_tx n (write_at (NetTxPacket n) (Z.to_nat (NetEthHdrSize n + IP_HDR_SIZE)) pkt)) now
      p_NetServerEther dest dport sport (zlen pkt) =
      (n', [EthSend (udp_frame n (ether_of n (udp_ether dest p_NetServerEther)) (NetIPID n) (udp_dest dest) dport sport pkt)], 0).
Proof.
  intros Hn Hf He. set (off := Z.to_nat (NetEthHdrSize n + IP_HDR_SIZE)). pose proof (fits_le _ _ Hf) as Hle.
  assert (off + length pkt <= PKTSIZE_ALIGN)%nat as Hoff.
  { subst off. destruct (eth_size n) as [E|E]; rewrite E in *; unfold zlen, IP_HDR_SIZE in *; lia. }
  pose proof (ok_tx _ Hn) as Htx. set (n1 := set_tx n (write_at (NetTxPacket n) off pkt)).
  assert (net_ok n1) as Hn1 by (apply net_ok_set_tx; [exact Hn|rewrite write_at_length; lia]).
  destruct (net_send_frame n1 now p_NetServerEther dest dport sport (zlen pkt) Hn1 Hf (ether_known n1 _ He)) as (tx & ipid & Hn' & E).
  exists tx, ipid. split; [destruct Hn'; constructor; assumption|]. rewrite E. do 4 f_equal.
  assert (tx_payload n1 (zlen pkt) = pkt) as Hp.
  { unfold tx_payload. change (Z.to_nat (NetEthHdrSize n1 + IP_HDR_SIZE)) with off. unfold zlen. rewrite Nat2Z.id.
    apply sub_write_same; [reflexivity|lia]. }
  rewrite Hp. reflexivity.
Qed.

(** With the server's address known, sending emits the packet and only touches
    the transmit buffer and the packet counter. *)
Lemma TftpSend_known c now :
  net_ok (cnet c) -> fits (cnet c) (zlen (tftp_packet (ct c))) -> NetServerEther (cnet c) <> NetEtherNullAddr ->
  exists tx ipid, let n' := set_tx (set_ipid (cnet c) ipid) tx in
    net_ok n' /\ TftpSend c now = (set_net c n', [EthSend (tftp_frame c)]).
Proof.
  intros Hn Hf He. destruct (send_payload (cnet c) now (TftpServerIP (tcfg (ct c))) (TftpServerPort (ct c))
    (TftpOurPort (tcfg (ct c))) (tftp_packet (ct c)) Hn Hf He) as (tx & ipid & Hn' & E).
  exists tx, ipid. split; [exact Hn'|]. unfold TftpSend. cbv zeta. rewrite E. reflexivity.
Qed.

(** ** A transfer *)

Section transfer.
Context (getenv : list Z -> option (list Z)) (eth_names : list (list Z)).
(** The file, the block size, the load address, the two hosts' ports. *)
Context (file : list Z) (b la srv port : Z) (S : net) (m0 : mem).
Hypothesis Hb : 0 < b <= 60000.
Hypothesis Hla : 0 <= la.
Hypothesis Hroom : la + zlen file < 2 ^ 32.
Hypothesis Hsrv : 0 <= srv < 65536.
Hypothesis Hport : 0 <= port < 65536.
Hypothesis HS : net_ok S.
Hypothesis VS : no_vlan S.

(** Block [k] of the file, from 1, and the number of blocks: the last one is short. *)
Definition file_block (k : Z) : list Z := sub file (Z.to_nat ((k - 1) * b)) (Z.to_nat b).
Definition blocks : Z := zlen file / b + 1.
Definition data_packet (k : Z) : list Z := put16 TFTP_DATA ++ put16 k ++ file_block k.

(** The frame of the server's packet for the client [c]. *)
Definition data_frame (c : client) (id k : Z) : list Z :=
  udp_frame S (NetOurEther (cfg (cnet c))) id (NetOurIP (cfg (cnet c))) port srv (data_packet k).

(** What the client meets: a data packet (with its packet number, and what is
    behind it in the buffer), or a turn of the timers. *)
Inductive event := Data (k id : Z) (behind : list Z) | Tick.

Definition deliver (c : client) (e : event * Z) : client * list action :=
  match fst e with
  | Data k id behind =>
      let f := data_frame c id k in client_rx getenv eth_names c (snd e) (f ++ behind) (zlen f)
  | Tick => client_tick getenv eth_names c (snd e)
  end.
Fixpoint deliver_all (c : client) (es : list (event * Z)) : client :=
  match es with [] => c | e :: es => deliver_all (fst (deliver c e)) es end.

(** The packets of a server that has sent [k] blocks: the next one, or the last
    one again (not the block numbered 0), and any turns of the timers between. *)
Inductive script : Z -> list (event * Z) -> Prop :=
  | script_done : script blocks []
  | script_next k id behind now es :
      0 <= k < blocks -> script (k + 1) es -> script k ((Data (k + 1) id behind, now) :: es)
  | script_again k id behind now es :
      0 < k < blocks -> k mod 65536 <> 0 -> script k es -> script k ((Data k id behind, now) :: es)
  | script_tick k now es : 0 <= k < blocks -> script k es -> script k ((Tick, now) :: es).

Fixpoint ticks (es : list (event * Z)) : Z :=
  match es with
  | [] => 0
  | (Tick, _) :: es => 1 + ticks es
  | _ :: es => ticks es
  end.

(** The client is ready for packets; [budget] timeouts are left. *)
Record ready (c : client) (budget : Z) : Prop := {
  r_net : net_ok (cnet c);
  r_vlan : no_vlan (cnet c);
  r_ip : NetOurIP (cfg (cnet c)) <> 0;
  r_handler : packetHandler (loop (cnet c)) = TftpHandler;
  r_timer : timeHandler (loop (cnet c)) = None \/ timeHandler (loop (cnet c)) = Some TftpTimeout;
  r_continue : NetState (loop (cnet c)) = NETLOOP_CONTINUE;
  r_ether : NetServerEther (cnet c) <> NetEtherNullAddr;
  r_arp : NetArpWaitPacketIP (arp (cnet c)) = 0;
  r_port : TftpOurPort (tcfg (ct c)) = port;
  r_blk : TftpBlkSize (ct c) = b;
  r_la : load_addr c = la;
  r_rrq : TftpState (ct c) = STATE_RRQ -> fits (cnet c) (zlen (tftp_packet (ct c)));
  r_max : TftpTimeoutCountMax (ct c) = TIMEOUT_COUNT;
  r_count : 0 <= budget /\ 0 <= TftpTimeoutCount (ct c) /\ TftpTimeoutCount (ct c) + budget <= TIMEOUT_COUNT
}.

(** [k] blocks have arrived, none of them short. *)
Record receiving (c : client) (k : Z) : Prop := {
  g_full : 0 <= k /\ k * b <= zlen file;
  g_state : if k =? 0 then TftpState (ct c) = STATE_RRQ \/ TftpState (ct c) = STATE_OACK /\ TftpServerPort (ct c) = srv
            else TftpState (ct c) = STATE_DATA /\ TftpServerPort (ct c) = srv /\ TftpLastBlock (ct c) = k mod 65536 /\
                 TftpBlockWrapOffset (ct c) = u32 (b * (65536 * (k / 65536)));
  g_xfer : NetBootFileXferSize c = k * b;
  g_mem : bytes_at (cmem c) la (take (Z.to_nat (k * b)) file);
  g_outside : same_outside la (la + zlen file) m0 (cmem c)
}.

(** The whole file has arrived. *)
Definition received (c : client) : Prop :=
  NetState (loop (cnet c)) = NETLOOP_SUCCESS /\ NetBootFileXferSize c = zlen file /\
  bytes_at (cmem c) la file /\ same_outside la (la + zlen file) m0 (cmem c).

Lemma length_file_block k :
  0 < k -> (k - 1) * b <= zlen file -> zlen (file_block k) = Z.min b (zlen file - (k - 1) * b).
Proof.
  intros Hk Hl. unfold file_block, sub, zlen in *. rewrite length_take, length_drop.
  assert (0 <= (k - 1) * b) by nia. lia.
Qed.

(** A data packet reaches the handler. *)
Lemma deliver_data c k id behind now :
  ready c 0 -> 0 < k -> (k - 1) * b <= zlen file ->
  let p := data_packet k in
  deliver c (Data k id behind, now) = tftp_handler getenv eth_names c now (p ++ behind) port srv (zlen p).
Proof.
  intros R Hk Hl p. pose proof (length_file_block k Hk Hl) as Lb.
  assert (4 <= zlen p <= 60004) as Lp.
  { subst p. unfold data_packet. rewrite !zlen_app, Lb. change (zlen (put16 TFTP_DATA)) with 2.
    change (zlen (put16 k)) with 2. lia. }
  unfold deliver. cbn [fst snd]. unfold client_rx, data_frame. rewrite (udp_frame_plain _ _ _ _ _ _ _ VS), <- !app_assoc.
  pose proof (proj1 (ok_ether _ (r_net c 0 R))) as L1. pose proof (proj1 (ok_ether _ HS)) as L2.
  fold p. rewrite (rx_udp (cnet c) _ _ (zlen p)); auto; try lia.
  - rewrite (r_handler c 0 R). cbn [rx_pkt rx_dest rx_src rx_len]. rewrite !u16_small by lia.
    replace (set_net c (cnet c)) with c by (destruct c; reflexivity). destruct (tftp_handler _ _ _ _ _ _ _ _). reflexivity.
  - apply (r_vlan c 0 R).
  - rewrite !zlen_app. change (zlen (put16 PROT_IP)) with 2. change (zlen (ip_udp_header _ _ _ _ _ _)) with 28.
    assert (zlen (NetOurEther (cfg (cnet c))) = 6) as -> by (unfold zlen; rewrite L1; reflexivity).
    assert (zlen (NetOurEther (cfg S)) = 6) as -> by (unfold zlen; rewrite L2; reflexivity). lia.
  - apply (ok_ip _ HS).
  - apply (ok_ip _ (r_net c 0 R)).
Qed.

(** The client's variables when it takes block [k + 1]. *)
Record taking (t t' : tftp) (k : Z) : Prop := {
  t_cfg : tcfg t' = tcfg t;
  t_port : TftpServerPort t' = srv;
  t_count : TftpTimeoutCount t' = TftpTimeoutCount t;
  t_block : TftpBlock t' = (k + 1) mod 65536;
  t_off : TftpBlockWrapOffset t' = u32 (b * (65536 * ((k + 1) / 65536)));
  t_state : TftpState t' = STATE_DATA;
  t_blk : TftpBlkSize t' = b
}.

Lemma wrap_offset k :
  0 <= k ->
  (if (k + 1) mod 65536 =? 0 then u32 (u32 (b * (65536 * (k / 65536))) + u32 (b * TFTP_SEQUENCE_SIZE))
   else u32 (b * (65536 * (k / 65536)))) = u32 (b * (65536 * ((k + 1) / 65536))).
Proof.
  intros Hk. change TFTP_SEQUENCE_SIZE with 65536. destruct (Z.eqb_spec ((k + 1) mod 65536) 0) as [E|E].
  - unfold u32, wrap. rewrite Z.add_mod_idemp_l, Z.add_mod_idemp_r by lia. f_equal.
    assert ((k + 1) / 65536 = k / 65536 + 1) as -> by (Z.div_mod_to_equations; lia). ring.
  - do 3 f_equal. Z.div_mod_to_equations. lia.
Qed.

Lemma handler_takes c k now behind :
  ready c 0 -> receiving c k ->
  let p := data_packet (k + 1) in
  exists t', taking (ct c) t' k /\
    tftp_handler getenv eth_names c now (p ++ behind) port srv (zlen p) =
      accept_block (set_tftp c t') now (put16 (k + 1) ++ file_block (k + 1) ++ behind) (zlen (file_block (k + 1))).
Proof.
  intros R G p. destruct (g_full c k G) as [Hk Hkb].
  pose proof (length_file_block (k + 1) ltac:(lia) ltac:(lia)) as Lb. pose proof (zlen_nonneg (file_block (k + 1))) as Hz.
  assert (zlen p = 4 + zlen (file_block (k + 1))) as Lp.
  { subst p. unfold data_packet. rewrite !zlen_app. change (zlen (put16 TFTP_DATA)) with 2.
    change (zlen (put16 (k + 1))) with 2. lia. }
  unfold tftp_handler. rewrite (r_port c 0 R), u32_small, Z.eqb_refl by lia. cbn [negb].
  assert (negb (TftpState (ct c) =? STATE_RRQ) && negb (srv =? u32 (TftpServerPort (ct c))) = false) as ->.
  { pose proof (g_state c k G) as Hs. destruct (k =? 0).
    - destruct Hs as [-> | [_ ->]]; [reflexivity|]. rewrite u32_small, Z.eqb_refl, andb_false_r by lia. reflexivity.
    - destruct Hs as (_ & -> & _). rewrite u32_small, Z.eqb_refl, andb_false_r by lia. reflexivity. }
  rewrite Lp, (proj2 (Z.ltb_ge _ 2)) by lia. subst p. unfold data_packet. rewrite <- !app_assoc.
  rewrite get16_put16. change (u16 TFTP_DATA =? TFTP_OACK) with false. change (u16 TFTP_DATA =? TFTP_DATA) with true.
  cbv iota. change (drop 2 (put16 TFTP_DATA ++ ?l)) with l. unfold handle_data.
  rewrite (proj2 (Z.ltb_ge _ 2)) by lia.
  change (drop 2 (put16 TFTP_DATA ++ put16 (k + 1) ++ file_block (k + 1) ++ behind))
    with (put16 (k + 1) ++ file_block (k + 1) ++ behind).
  rewrite get16_put16. assert (u16 (k + 1) = (k + 1) mod 65536) as -> by reflexivity.
  replace (4 + zlen (file_block (k + 1)) - 2 - 2) with (zlen (file_block (k + 1))) by lia.
  pose proof (wrap_offset k Hk) as Ho. pose proof (g_state c k G) as Hs.
  destruct (Z.eqb_spec k 0) as [->|Hk0].
  - change ((0 + 1) mod 65536) with 1 in *. 
    assert ((TftpState (ct c) =? STATE_RRQ) || (TftpState (ct c) =? STATE_OACK) = true) as Hf
      by (destruct Hs as [-> | [-> _]]; reflexivity).
    eexists. split; [|cbn [TftpBlock TftpState set_block set_block_wrap Z.eqb]; rewrite Hf; cbn; reflexivity].
    constructor; cbn; try reflexivity; [|apply (r_blk c 0 R)].
    change ((0 + 1) / 65536) with 0. rewrite !Z.mul_0_r. reflexivity.
  - destruct Hs as (Hst & Hsp & Hl & Hoff).
    eexists (if (k + 1) mod 65536 =? 0 then
      set_block_wrap (set_block (ct c) ((k + 1) mod 65536)) (u32 (TftpBlockWrap (ct c) + 1))
        (u32 (TftpBlockWrapOffset (ct c) + u32 (TftpBlkSize (ct c) * TFTP_SEQUENCE_SIZE)))
      else set_block (ct c) ((k + 1) mod 65536)).
    rewrite <- Hoff in Ho. split.
    + pose proof (r_blk c 0 R) as Hbk. destruct ((k + 1) mod 65536 =? 0); constructor; cbn; rewrite ?Hbk; auto.
    + assert (((k + 1) mod 65536 =? k mod 65536) = false) as Hne by (apply Z.eqb_neq; Z.div_mod_to_equations; lia).
      cbn [TftpBlock set_block]. destruct ((k + 1) mod 65536 =? 0) eqn:E0;
        cbn [TftpState set_block set_block_wrap TftpBlock TftpLastBlock]; rewrite Hst; cbn [orb andb];
        change ((STATE_DATA =? STATE_RRQ) || (STATE_DATA =? STATE_OACK)) with false; cbv iota; cbn [andb];
        cbn [TftpBlock set_block set_block_wrap TftpLastBlock]; rewrite Hl, Hne; reflexivity.
Qed.

Lemma fits_small n len : 0 <= len <= 100 -> fits n len.
Proof.
  intros H. split; [lia|]. destruct (odd_bit len ltac:(lia)) as [E|E]; rewrite E;
    destruct (eth_size n) as [-> | ->]; unfold IP_HDR_SIZE, PKTSIZE_ALIGN; lia.
Qed.

(** The block lands behind the ones before it. *)
Lemma block_offset t t' k :
  taking t t' k -> 0 <= k -> k * b <= zlen file ->
  u32 (u32 ((TftpBlock t' - 1) * TftpBlkSize t') + TftpBlockWrapOffset t') = k * b.
Proof.
  intros T Hk Hkb. rewrite (t_block _ _ _ T), (t_off _ _ _ T), (t_blk _ _ _ T). unfold u32, wrap.
  rewrite Z.add_mod_idemp_l, Z.add_mod_idemp_r by lia.
  replace (((k + 1) mod 65536 - 1) * b + b * (65536 * ((k + 1) / 65536))) with (k * b)
    by (pose proof (Z.div_mod (k + 1) 65536 ltac:(lia)); nia).
  apply Z.mod_small. split; [nia|]. lia.
Qed.

Lemma store_block_spec c t' k behind bud :
  ready c bud -> receiving c k -> taking (ct c) t' k ->
  forall c1, ct c1 = t' -> cmem c1 = cmem c -> NetBootFileXferSize c1 = NetBootFileXferSize c -> load_addr c1 = load_addr c ->
  let L := zlen (file_block (k + 1)) in
  let c2 := store_block c1 (TftpBlock t' - 1) (file_block (k + 1) ++ behind) L in
  cnet c2 = cnet c1 /\ ct c2 = t' /\ load_addr c2 = la /\ NetBootFileXferSize c2 = k * b + L /\
  bytes_at (cmem c2) la (take (Z.to_nat (k * b + L)) file) /\ same_outside la (la + zlen file) m0 (cmem c2).
Proof.
  intros R G T c1 Et Em Ex El L. destruct (g_full c k G) as [Hk Hkb].
  pose proof (length_file_block (k + 1) ltac:(lia) ltac:(lia)) as Lb. fold L in Lb.
  replace ((k + 1 - 1) * b) with (k * b) in Lb by lia. pose proof (zlen_nonneg (file_block (k + 1))) as HL. fold L in HL.
  change (2 ^ 32) with 4294967296 in Hroom.
  unfold store_block. cbn [NetBootFileXferSize set_mem]. rewrite Et, (block_offset _ _ _ T Hk Hkb), El, (r_la c bud R), Em, Ex, (g_xfer c k G).
  rewrite take_app_length' by (unfold L, zlen; lia).
  assert (0 <= k * b) by nia. rewrite (u32_small (k * b + L)), (u32_small (la + k * b)) by lia.
  assert (sub file (Z.to_nat (k * b)) (Z.to_nat b) = file_block (k + 1)) as Hfb
    by (unfold file_block; do 3 f_equal; lia).
  set (m := put_bytes (cmem c) (la + k * b) (file_block (k + 1))).
  assert (bytes_at m la (take (Z.to_nat (k * b + L)) file)) as Hm.
  { replace (Z.to_nat (k * b + L)) with (Z.to_nat (k * b) + Z.to_nat L)%nat by lia. rewrite take_sub.
    assert (sub file (Z.to_nat (k * b)) (Z.to_nat L) = file_block (k + 1)) as ->.
    { rewrite <- Hfb. unfold sub. destruct (Z.le_gt_cases b (zlen file - k * b)).
      - f_equal. lia.
      - rewrite !take_ge by (rewrite length_drop; unfold zlen in *; lia). reflexivity. }
    apply bytes_at_app. assert (zlen (take (Z.to_nat (k * b)) file) = k * b) as Hz.
    { unfold zlen in *. rewrite length_take. lia. }
    split; [|rewrite Hz; apply put_bytes_at]. eapply bytes_at_ext; [|apply (g_mem c k G)].
    intros x Hx. apply put_bytes_outside. lia. }
  assert (same_outside la (la + zlen file) m0 m) as Hout.
  { eapply same_outside_trans; [apply (g_outside c k G)|]. eapply same_outside_weaken; [apply put_bytes_outside| |]; fold L; lia. }
  destruct (Z.ltb_spec (k * b) (k * b + L)); cbn [cnet ct cmem NetBootFileXferSize load_addr set_mem set_xfer];
    split_and!; auto; try congruence.
  - rewrite El. apply (r_la c bud R).
  - rewrite El. apply (r_la c bud R).
  - rewrite Ex, (g_xfer c k G). lia.
Qed.

(** The acknowledgement of a block. *)
Definition ack_packet (k : Z) : list Z := put16 TFTP_ACK ++ put16 k.
Lemma zlen_ack k : zlen (ack_packet k) = 4.
Proof. reflexivity. Qed.

Lemma ready_net c bud n :
  ready c bud -> net_ok n -> cfg n = cfg (cnet c) -> loop n = loop (cnet c) -> NetServerEther n = NetServerEther (cnet c) ->
  arp n = arp (cnet c) -> ready (set_net c n) bud.
Proof.
  intros [] Hn Ec El Ee Ea. constructor; cbn [cnet ct load_addr set_net]; unfold no_vlan, fits, NetEthHdrSize in *; rewrite ?Ec, ?El, ?Ee, ?Ea; auto.
Qed.

(** A block is stored and acknowledged; a short one completes the transfer. *)
Lemma accept_spec c t' k behind bud now :
  ready c bud -> receiving c k -> taking (ct c) t' k ->
  let L := zlen (file_block (k + 1)) in
  let r := accept_block (set_tftp c t') now (put16 (k + 1) ++ file_block (k + 1) ++ behind) L in
  (exists f, snd r = [EthSend f]) /\ if L <? b then received (fst r) else ready (fst r) bud /\ receiving (fst r) (k + 1).
Proof.
  intros R G T L. destruct (g_full c k G) as [Hk Hkb].
  pose proof (length_file_block (k + 1) ltac:(lia) ltac:(lia)) as Lb. fold L in Lb.
  replace ((k + 1 - 1) * b) with (k * b) in Lb by lia.
  unfold accept_block. cbn [ct set_tftp]. change (drop 2 (put16 (k + 1) ++ ?l)) with l.
  set (t2 := set_count_max (set_last t' (TftpBlock t')) TIMEOUT_COUNT).
  assert (taking (ct c) t2 k) as T2 by (destruct T; constructor; assumption).
  destruct (NetSetTimeout_shape (cnet c) now (TftpTimeoutMSecs (tcfg t2)) TftpTimeout) as (l & El1 & Eh & Es1 & Et1).
  change (cnet (set_tftp (set_tftp c t') t2)) with (cnet c). rewrite El1. set (n1 := set_loop (cnet c) l).
  set (c1 := set_net (set_tftp (set_tftp c t') t2) n1).
  destruct (store_block_spec c t2 k behind bud R G T2 c1 eq_refl eq_refl eq_refl eq_refl)
    as (En & Et & El & Ex & Hm & Ho). fold L in En, Et, El, Ex, Hm, Ho.
  change (TftpBlock t2) with (TftpBlock t') in *. fold c1. set (c2 := store_block c1 (TftpBlock t' - 1) (file_block (k + 1) ++ behind) L) in *.
  assert (net_ok n1) as Hn1 by (apply net_ok_set_loop, (r_net c bud R)).
  assert (tftp_packet t2 = ack_packet ((k + 1) mod 65536)) as Hp.
  { unfold tftp_packet. rewrite (t_state _ _ _ T2), (t_block _ _ _ T2). reflexivity. }
  assert (NetServerEther n1 <> NetEtherNullAddr) as He by apply (r_ether c bud R).
  destruct (TftpSend_known c2 now) as (tx & ipid & Hn' & Es).
  { rewrite En. exact Hn1. }
  { rewrite En, Et, Hp, zlen_ack. apply fits_small. lia. }
  { rewrite En. exact He. }
  rewrite Es. set (n3 := set_tx (set_ipid (cnet c2) ipid) tx) in *. cbn [fst snd ct set_net]. rewrite Et.
  rewrite (t_blk _ _ _ T2). split; [eexists; reflexivity|].
  assert (NetBootFileXferSize (set_net c2 n3) = k * b + L) as Ex3 by exact Ex.
  destruct (Z.ltb_spec L b) as [Hlt|Hge].
  - assert (k * b + L = zlen file) as Ef by lia. rewrite Ef in *. split_and!; [reflexivity|exact Ex| |exact Ho].
    rewrite take_ge in Hm by (unfold zlen; lia). exact Hm.
  - assert (k * b + L = (k + 1) * b) as Ef by lia. rewrite Ef in *. split.
    + assert (set_net c2 n3 = set_net (set_tftp c2 t2) n3) as -> by (unfold set_net, set_tftp; cbn; rewrite Et; reflexivity).
      apply (ready_net (set_tftp c2 t2)); [|exact Hn'|reflexivity..].
      destruct R. constructor; rewrite ?En; cbn [cnet ct load_addr set_tftp]; rewrite ?En; auto; try assumption.
      * cbn. congruence.
      * cbn. congruence.
      * rewrite (t_cfg _ _ _ T2). assumption.
      * apply (t_blk _ _ _ T2).
      * rewrite (t_state _ _ _ T2). discriminate.
      * rewrite (t_count _ _ _ T2). assumption.
    + constructor; cbn [cnet ct cmem NetBootFileXferSize load_addr set_net]; auto.
      * split; [lia|]. lia.
      * rewrite (proj2 (Z.eqb_neq (k + 1) 0)) by lia. rewrite Et.
        split_and!; [apply (t_state _ _ _ T2)|apply (t_port _ _ _ T2)|apply (t_block _ _ _ T)|apply (t_off _ _ _ T2)].
Qed.

Lemma ready_weaken c bud bud' : ready c bud -> 0 <= bud' <= bud -> ready c bud'.
Proof. intros [] H. constructor; auto. lia. Qed.

(** The last block again changes nothing but the current block number. *)
Lemma again_spec c k id behind bud now :
  ready c bud -> receiving c k -> 0 < k -> k mod 65536 <> 0 ->
  let c' := fst (deliver c (Data k id behind, now)) in ready c' bud /\ receiving c' k.
Proof.
  intros R G Hk Hkm. destruct (g_full c k G) as [_ Hkb].
  assert (ready c 0) as R0 by (apply (ready_weaken c bud _ R); destruct (r_count c bud R); lia).
  rewrite (deliver_data c k id behind now R0 Hk) by lia.
  pose proof (length_file_block k ltac:(lia) ltac:(lia)) as Lb. pose proof (zlen_nonneg (file_block k)) as Hz.
  assert (zlen (data_packet k) = 4 + zlen (file_block k)) as Lp.
  { unfold data_packet. rewrite !zlen_app. change (zlen (put16 TFTP_DATA)) with 2. change (zlen (put16 k)) with 2. lia. }
  pose proof (g_state c k G) as Hs. rewrite (proj2 (Z.eqb_neq k 0)) in Hs by lia. destruct Hs as (Hst & Hsp & Hl & Hoff).
  assert (tftp_handler getenv eth_names c now (data_packet k ++ behind) port srv (zlen (data_packet k))
          = (set_tftp c (set_block (ct c) (k mod 65536)), [])) as ->.
  { unfold tftp_handler. rewrite (r_port c bud R), u32_small, Z.eqb_refl by lia. cbn [negb].
    rewrite Hsp, u32_small, Z.eqb_refl, andb_false_r by lia.
    rewrite Lp, (proj2 (Z.ltb_ge _ 2)) by lia. unfold data_packet. rewrite <- !app_assoc.
    rewrite get16_put16. change (u16 TFTP_DATA =? TFTP_OACK) with false. change (u16 TFTP_DATA =? TFTP_DATA) with true.
    cbv iota. unfold handle_data. rewrite (proj2 (Z.ltb_ge _ 2)) by lia.
    change (drop 2 (put16 TFTP_DATA ++ put16 k ++ file_block k ++ behind)) with (put16 k ++ file_block k ++ behind).
    rewrite get16_put16. change (u16 k) with (k mod 65536). cbn [TftpBlock set_block].
    rewrite (proj2 (Z.eqb_neq (k mod 65536) 0)) by assumption. cbn [TftpState set_block]. rewrite Hst.
    change ((STATE_DATA =? STATE_RRQ) || (STATE_DATA =? STATE_OACK)) with false. cbn [andb].
    cbn [TftpBlock TftpLastBlock set_block]. rewrite Hl, Z.eqb_refl. reflexivity. }
  cbn [fst]. split.
  - destruct R. constructor; cbn [cnet ct load_addr set_tftp]; auto. cbn. rewrite Hst. discriminate.
  - destruct G. constructor; auto.
Qed.

Lemma blocks_last k :
  0 <= k -> k * b <= zlen file -> (k + 1 =? blocks) = (zlen (file_block (k + 1)) <? b).
Proof.
  intros Hk Hkb. rewrite length_file_block by lia. replace ((k + 1 - 1) * b) with (k * b) by lia. unfold blocks.
  destruct (Z.ltb_spec (Z.min b (zlen file - k * b)) b) as [H|H].
  - apply Z.eqb_eq. f_equal. apply Z.div_unique with (zlen file - k * b); lia.
  - apply Z.eqb_neq. intros E. assert (k = zlen file / b) as -> by lia.
    pose proof (Z.div_mod (zlen file) b ltac:(lia)). pose proof (Z.mod_pos_bound (zlen file) b ltac:(lia)). lia.
Qed.

(** The next block is taken. *)
Lemma next_spec c k id behind bud now :
  ready c bud -> receiving c k ->
  let c' := fst (deliver c (Data (k + 1) id behind, now)) in
  if k + 1 =? blocks then received c' else ready c' bud /\ receiving c' (k + 1).
Proof.
  intros R G. destruct (g_full c k G) as [H0 Hkb].
  assert (ready c 0) as R0 by (apply (ready_weaken c bud _ R); destruct (r_count c bud R); lia).
  rewrite (deliver_data c (k + 1) id behind now R0) by lia.
  destruct (handler_takes c k now behind R0 G) as (t' & T & ->).
  rewrite (blocks_last k H0 Hkb). apply (accept_spec c t' k behind bud now R G T).
Qed.

(** A timeout sends the last packet again; the transfer does not move. *)
Lemma tick_spec c k bud now :
  ready c (bud + 1) -> 0 <= bud -> receiving c k ->
  let c' := fst (deliver c (Tick, now)) in ready c' bud /\ receiving c' k.
Proof.
  intros R Hbud G. unfold deliver. cbn [fst snd]. unfold client_tick, ArpTimeoutCheck. rewrite (r_arp _ _ R). cbn [Z.eqb].
  assert (set_net c (cnet c) = c) as -> by (destruct c; reflexivity).
  assert (ready c bud) as R' by (apply (ready_weaken _ _ _ R); lia).
  unfold run_timeout. destruct (r_timer _ _ R) as [E|E]; rewrite E; [split; assumption|].
  destruct (timeDelta _ <? _); [|split; assumption]. unfold tftp_timeout.
  destruct (r_count _ _ R) as (_ & Hc0 & Hc). unfold TIMEOUT_COUNT in Hc.
  assert (s32 (TftpTimeoutCount (ct c) + 1) = TftpTimeoutCount (ct c) + 1) as Hs.
  { unfold s32, swrap. rewrite wrap_small by (unfold_words; lia). rewrite (proj2 (Z.ltb_lt _ _)) by lia. reflexivity. }
  cbn [ct set_net]. rewrite Hs. cbn [TftpTimeoutCountMax TftpTimeoutCount set_count].
  rewrite (r_max _ _ R), (proj2 (Z.ltb_ge _ _)) by (unfold TIMEOUT_COUNT; lia).
  set (t2 := set_count (ct c) (TftpTimeoutCount (ct c) + 1)).
  destruct (NetSetTimeout_shape (cnet c) now 0 TftpTimeout) as (l0 & E0 & Eh0 & Es0 & _). rewrite E0.
  change (cnet (set_tftp (set_net c (set_loop (cnet c) l0)) t2)) with (set_loop (cnet c) l0).
  destruct (NetSetTimeout_shape (set_loop (cnet c) l0) now (TftpTimeoutMSecs (tcfg t2)) TftpTimeout) as (l & El & Eh & Es & Et).
  rewrite El. set (n1 := set_loop (set_loop (cnet c) l0) l). set (c2 := set_net _ n1).
  assert (net_ok n1) as Hn1 by (apply net_ok_set_loop, net_ok_set_loop, (r_net _ _ R)).
  destruct (TftpSend_known c2 now) as (tx & ipid & Hn' & Ep); [exact Hn1| |apply (r_ether _ _ R)|].
  { change (fits (cnet c) (zlen (tftp_packet (ct c)))). pose proof (g_state c k G) as Hst.
    assert (TftpState (ct c) = STATE_RRQ \/ zlen (tftp_packet (ct c)) = 4) as [Hq|Hq].
    { unfold tftp_packet. destruct (k =? 0); [destruct Hst as [->|[-> _]]|destruct Hst as [-> _]]; auto. }
    - apply (r_rrq _ _ R Hq).
    - rewrite Hq. apply fits_small. lia. }
  rewrite Ep. cbn [fst]. split.
  - apply (ready_net c2); [|exact Hn'|reflexivity..]. subst c2.
    destruct R'. constructor; cbn [cnet ct load_addr set_tftp set_net]; auto.
    + cbn. cbn in Eh. congruence.
    + cbn. cbn in Es. congruence.
    + subst t2. cbn [TftpTimeoutCount set_count]. unfold TIMEOUT_COUNT. lia.
  - destruct G. constructor; auto.
Qed.

Lemma script_end k es : script k es -> k <= blocks.
Proof. intros H. destruct H; lia. Qed.

Lemma transfer_complete k es c :
  script k es -> k < blocks -> ready c (ticks es) -> receiving c k -> received (deliver_all c es).
Proof.
  intros H. revert c. induction H as [|k id behind now es Hk H IH|k id behind now es Hk Hm H IH|k now es Hk H IH];
    intros c Hlt R G; [lia| | |]; cbn [deliver_all].
  - pose proof (next_spec c k id behind _ now R G) as N. cbv zeta in N.
    destruct (Z.eqb_spec (k + 1) blocks) as [E|E].
    + rewrite E in H. inversion H; subst; try lia. exact N.
    + destruct N as [N1 N2]. apply IH; [lia|exact N1|exact N2].
  - destruct (again_spec c k id behind _ now R G) as [N1 N2]; [lia|exact Hm|]. apply IH; [lia|exact N1|exact N2].
  - cbn [ticks] in R. assert (0 <= ticks es) as Ht.
    { clear. induction es as [|[[]] es IH]; cbn; lia. }
    destruct (tick_spec c k (ticks es) now) as [N1 N2]; [replace (ticks es + 1) with (1 + ticks es) by lia; exact R|exact Ht|exact G|].
    apply IH; [lia|exact N1|exact N2].
Qed.

End transfer.

Definition ex_env (v : list Z) : option (list Z) := None.
Definition ex_client : client :=
  Client ex_a (Tftp (TftpCfg 5000 1468 0 0 []) 0 0 10 0 0 0 0 0 512) (fun _ => 0) 0 0x1000000.
(** The request, the ARP answer of the server, and the two packets of a file of 600 bytes. *)
Definition ex_started : client := fst (TftpStart ex_env ex_client 77 (str "uImage") 10).
Definition ex_arp_answer : list Z :=
  ex_mac_a ++ ex_mac_b ++ put16 PROT_ARP ++ arp_packet ARPOP_REPLY ex_mac_b 0xC0A80064 ex_mac_a 0xC0A80069.
Definition ex_requested : client := fst (client_rx ex_env [] ex_started 80 ex_arp_answer 42).
Definition ex_file : list Z := map (fun i => u8 (Z.of_nat i)) (seq 0 600).
Definition ex_run : list (event * Z) :=
  [(Tick, 6000); (Data 1 5 [1; 2; 3], 6010); (Tick, 12000); (Data 1 6 [], 12010); (Data 2 7 [], 12020)].


(** ** The invariant of the client *)

(** The variables in their ranges (the state is 0 before the first start); the states for a file that is too large or has a
    bad magic number are never entered. *)
Record tftp_inv (t : tftp) : Prop := {
  inv_ms : is_u32 (TftpTimeoutMSecs (tcfg t));
  inv_opt : is_u16 (TftpBlkSizeOption (tcfg t));
  inv_name : (length (tftp_filename (tcfg t)) < MAX_LEN)%nat;
  inv_tstate : TftpState t = 0 \/ TftpState t = STATE_RRQ \/ TftpState t = STATE_DATA \/ TftpState t = STATE_OACK;
  inv_block : is_u16 (TftpBlock t);
  inv_last : is_u16 (TftpLastBlock t);
  inv_wrap : is_u32 (TftpBlockWrap t);
  inv_off : is_u32 (TftpBlockWrapOffset t);
  inv_blk : is_u16 (TftpBlkSize t)
}.
Record client_inv (c : client) : Prop := {
  ci_net : net_inv (cnet c);
  ci_tftp : tftp_inv (ct c);
  ci_mem : mem_ok (cmem c);
  ci_xfer : is_u32 (NetBootFileXferSize c)
}.

Lemma format_int_length fmt v s : vsprintf fmt [Aint v] = Some (s, zlen s) -> format_int fmt v = s.
Proof. intros H. unfold format_int. rewrite H. reflexivity. Qed.

(** Every packet fits the transmit buffer. *)
Lemma tftp_packet_fits n t : tftp_inv t -> fits n (zlen (tftp_packet t)).
Proof.
  intros H. assert (zlen (tftp_packet t) <= 190) as Hl.
  { unfold tftp_packet. destruct (inv_ms t H) as [M1 M2]. change (2 ^ 32) with 4294967296 in M2.
    destruct (inv_opt t H) as [O1 O2]. change (2 ^ 16) with 65536 in O2.
    destruct (vsprintf_lu_length (TftpTimeoutMSecs (tcfg t) / 1000)) as (s1 & E1 & L1).
    { change (2 ^ 32) with 4294967296. Z.div_mod_to_equations. lia. }
    destruct (vsprintf_d_length (TftpBlkSizeOption (tcfg t))) as (s2 & E2 & L2).
    { change (2 ^ 31) with 2147483648. lia. }
    rewrite (format_int_length _ _ _ E1), (format_int_length _ _ _ E2).
    pose proof (inv_name t H) as Hn. unfold MAX_LEN in Hn.
    destruct (TftpState t =? STATE_RRQ).
    - unfold zlen. rewrite !length_app. cbn [length put16 str]. lia.
    - destruct (_ || _); [vm_compute; discriminate|]. destruct (TftpState t =? STATE_TOO_LARGE); [vm_compute; discriminate|].
      destruct (TftpState t =? STATE_BAD_MAGIC); vm_compute; discriminate. }
  pose proof (zlen_nonneg (tftp_packet t)). split; [lia|].
  destruct (odd_bit (zlen (tftp_packet t)) ltac:(lia)) as [E|E]; rewrite E;
    destruct (eth_size n) as [-> | ->]; unfold IP_HDR_SIZE, PKTSIZE_ALIGN; lia.
Qed.

Lemma inv_set_net c n : client_inv c -> net_inv n -> client_inv (set_net c n).
Proof. intros [] H. constructor; assumption. Qed.
Lemma inv_set_tftp c t : client_inv c -> tftp_inv t -> client_inv (set_tftp c t).
Proof. intros [] H. constructor; assumption. Qed.
Lemma inv_set_xfer c s : client_inv c -> is_u32 s -> client_inv (set_xfer c s).
Proof. intros [] H. constructor; assumption. Qed.
#[local] Hint Resolve inv_set_net inv_set_tftp inv_set_xfer : uboot.

Lemma inv_send c now : client_inv c -> client_inv (fst (TftpSend c now)).
Proof.
  intros H. unfold TftpSend. pose proof (tftp_packet_fits (cnet c) (ct c) (ci_tftp c H)) as Hf.
  set (n1 := set_tx _ _). assert (net_inv n1) as H1.
  { apply net_inv_tx; [apply (ci_net c H)|]. pose proof (fits_le _ _ Hf) as Hle.
    pose proof (ok_tx _ (inv_ok _ (ci_net c H))) as Ht. rewrite write_at_length; [exact Ht|]. rewrite Ht.
    destruct (eth_size (cnet c)) as [E|E]; rewrite E in *; unfold zlen, IP_HDR_SIZE in *; lia. }
  pose proof (net_inv_send n1 now p_NetServerEther (TftpServerIP (tcfg (ct c))) (TftpServerPort (ct c))
    (TftpOurPort (tcfg (ct c))) (zlen (tftp_packet (ct c))) H1 Hf) as H2.
  destruct (NetSendUDPPacket n1 now _ _ _ _ _) as [[n2 out] r]. cbn [fst] in *. auto with uboot.
Qed.

Lemma inv_store c block src len : client_inv c -> Forall is_u8 src -> client_inv (store_block c block src len).
Proof.
  intros H Hs. unfold store_block. set (m := put_bytes _ _ _).
  assert (client_inv (set_mem c m)) as H1.
  { destruct H. constructor; try assumption. apply put_bytes_ok; [assumption|apply Forall_take, Hs]. }
  destruct (_ <? _); [apply inv_set_xfer; [exact H1|apply u32_range]|exact H1].
Qed.

Section inv_env.
Context (getenv : list Z -> option (list Z)) (eth_names : list (list Z)).

Lemma inv_start_over c now : client_inv c -> client_inv (fst (start_over getenv eth_names c now)).
Proof.
  intros H. unfold start_over. pose proof (net_inv_start_again getenv eth_names (cnet c) now (ci_net c H)) as Hn.
  destruct (NetStartAgain _ _ _ _). cbn [fst] in *. auto with uboot.
Qed.

Lemma inv_oack n : forall pkt b, is_u16 b -> is_u16 (oack_options n pkt b).
Proof.
  induction n as [|n IH]; intros pkt b H; cbn [oack_options]; [exact H|]. apply IH. case_decide; [apply u16_range|exact H].
Qed.

Lemma u16_is_u16 x : is_u16 (u16 x).
Proof. apply u16_range. Qed.
Lemma small_word x w : 0 <= x -> x < 2 ^ w -> in_word w x.
Proof. intros. split; assumption. Qed.
#[local] Hint Resolve u16_is_u16 u32_is_u32 : uboot.

Lemma inv_accept c now pkt len :
  client_inv c -> Forall is_u8 pkt -> client_inv (fst (accept_block c now pkt len)).
Proof.
  intros H Hp. unfold accept_block. cbv zeta. set (t := set_count_max _ _). set (c1 := set_net _ _).
  assert (client_inv c1) as H1.
  { apply inv_set_net; [|apply net_inv_timeout, (ci_net c H)]. apply inv_set_tftp; [exact H|].
    destruct (ci_tftp c H). constructor; assumption. }
  pose proof (inv_send (store_block c1 (TftpBlock t - 1) (drop 2 pkt) len) now
    (inv_store _ _ _ _ H1 (Forall_drop _ _ _ Hp))) as H2.
  destruct (TftpSend _ _) as [c2 out]. cbn [fst] in *.
  destruct (_ <? _); [|exact H2]. cbn [fst]. apply inv_set_net; [exact H2|].
  apply net_inv_state; [apply (ci_net _ H2)|]. unfold NETLOOP_CONTINUE, NETLOOP_SUCCESS, NETLOOP_FAIL. lia.
Qed.

Lemma inv_data c now pkt src len :
  client_inv c -> Forall is_u8 pkt -> client_inv (fst (handle_data getenv eth_names c now pkt src len)).
Proof.
  intros H Hp. unfold handle_data. destruct (len <? 2); [exact H|]. cbv zeta.
  pose proof (get16_range pkt 0 Hp) as Hg.
  set (t1 := if TftpBlock (set_block (ct c) (get16 pkt 0)) =? 0 then _ else _).
  assert (tftp_inv t1) as H1.
  { subst t1. destruct (ci_tftp c H). destruct (_ =? 0); constructor; try assumption; try exact Hg; apply u32_range. }
  clearbody t1. set (first := (TftpState t1 =? STATE_RRQ) || (TftpState t1 =? STATE_OACK)).
  set (t2 := if first then _ else t1).
  assert (client_inv (set_tftp c t2)) as H2.
  { apply inv_set_tftp; [exact H|]. subst t2. destruct first; [|exact H1]. destruct H1.
    constructor; try assumption; cbn; auto; unfold_words; lia. }
  clearbody t2. destruct (first && _); [apply inv_start_over, H2|]. destruct (TftpBlock t2 =? TftpLastBlock t2); [exact H2|]. apply inv_accept; assumption.
Qed.

Lemma inv_handler c now pkt dest src len :
  client_inv c -> Forall is_u8 pkt -> client_inv (fst (tftp_handler getenv eth_names c now pkt dest src len)).
Proof.
  intros H Hp. unfold tftp_handler. destruct (negb (dest =? _)); [exact H|]. destruct (_ && _); [exact H|].
  destruct (len <? 2); [exact H|]. cbv zeta. pose proof (Forall_drop _ 2 _ Hp) as Hd.
  destruct (get16 pkt 0 =? TFTP_OACK).
  - unfold handle_oack. apply inv_send, inv_set_tftp; [exact H|]. destruct (ci_tftp c H).
    constructor; try assumption; cbn; auto. apply inv_oack. assumption.
  - destruct (get16 pkt 0 =? TFTP_DATA); [apply inv_data; assumption|].
    destruct (get16 pkt 0 =? TFTP_ERROR); [|exact H]. unfold handle_error.
    destruct (_ || _); [|apply inv_start_over, H]. cbn [fst]. apply inv_set_net; [exact H|].
    apply net_inv_state; [apply (ci_net c H)|]. unfold NETLOOP_CONTINUE, NETLOOP_FAIL. lia.
Qed.

Lemma inv_rx c now b len : client_inv c -> rx_buffer b -> client_inv (fst (client_rx getenv eth_names c now b len)).
Proof.
  intros H Hb. unfold client_rx. destruct (NetReceive_inv (cnet c) b len (ci_net c H) Hb) as [Hn Hr].
  destruct (NetReceive (cnet c) b len) as [[n out] r]. cbn [fst snd] in *.
  assert (client_inv (set_net c n)) as H1 by auto with uboot.
  destruct r as [r|]; [|exact H1]. destruct (packetHandler (loop n)); try exact H1.
  pose proof (inv_handler (set_net c n) now (rx_pkt r) (rx_dest r) (rx_src r) (rx_len r) H1 (proj1 Hr)) as H2.
  destruct (tftp_handler _ _ _ _ _ _ _ _). exact H2.
Qed.

Lemma inv_tftp_timeout c now : client_inv c -> client_inv (fst (tftp_timeout getenv eth_names c now)).
Proof.
  intros H. unfold tftp_timeout. cbv zeta. set (t := set_count _ _).
  assert (client_inv (set_tftp c t)) as H1.
  { apply inv_set_tftp; [exact H|]. destruct (ci_tftp c H). constructor; assumption. }
  destruct (_ <? _); [apply inv_start_over, H1|]. apply inv_send, inv_set_net; [exact H1|].
  apply net_inv_timeout, (ci_net _ H1).
Qed.

Lemma inv_tick c now : client_inv c -> client_inv (fst (client_tick getenv eth_names c now)).
Proof.
  intros H. unfold client_tick. pose proof (net_inv_arp_check getenv eth_names (cnet c) now (ci_net c H)) as Hn.
  destruct (ArpTimeoutCheck _ _ _ _) as [n out]. cbn [fst] in Hn.
  assert (client_inv (set_net c n)) as H1 by auto with uboot.
  assert (client_inv (fst (run_timeout getenv eth_names (set_net c n) now))) as H2.
  { unfold run_timeout. destruct (timeHandler _) as [h|]; [|exact H1]. destruct (_ <? _); [|exact H1]. cbv zeta.
    assert (client_inv (set_net (set_net c n) (NetSetTimeout (cnet (set_net c n)) now 0 h))) as H2
      by (apply inv_set_net; [exact H1|apply net_inv_timeout, (ci_net _ H1)]).
    destruct h; [|apply inv_tftp_timeout, H2|exact H2..]. cbn [fst]. apply inv_set_net; [exact H2|].
    apply net_inv_state; [apply (ci_net _ H2)|]. unfold NETLOOP_CONTINUE, NETLOOP_RESTART, NETLOOP_FAIL. lia. }
  destruct (run_timeout _ _ _ _). exact H2.
Qed.

Lemma inv_options old n BootFile now :
  is_u32 (TftpTimeoutMSecs old) -> is_u16 (TftpBlkSizeOption old) ->
  let o := tftp_options getenv old n BootFile now in
  is_u32 (TftpTimeoutMSecs o) /\ is_u16 (TftpBlkSizeOption o) /\ (length (tftp_filename o) < MAX_LEN)%nat.
Proof.
  intros H1 H2. unfold tftp_options. cbv zeta.
  assert (forall s, (length (file_name s) < MAX_LEN)%nat) as Hn by (intros s; unfold file_name, MAX_LEN; rewrite length_take; lia).
  assert ((length (snd (boot_target n BootFile)) < MAX_LEN)%nat) as Hb.
  { unfold boot_target. destruct BootFile; [apply Hn|]. destruct (after_colon _); apply Hn. }
  destruct (boot_target n BootFile) as [server name]. cbn [TftpTimeoutMSecs TftpBlkSizeOption tftp_filename]. split_and!.
  - unfold timeout_option. destruct (getenv _) as [ep|]; cbv zeta.
    + destruct (_ <? 1000); [unfold_words; lia|auto with uboot].
    + destruct (_ <? 1000); [unfold_words; lia|exact H1].
  - unfold blksize_option. destruct (getenv _); auto with uboot.
  - exact Hb.
Qed.

Lemma mac_ok_null : mac_ok (repeat 0 6).
Proof. split; [reflexivity|]. repeat constructor; unfold_words; lia. Qed.

Lemma inv_start c now BootFile count_max :
  client_inv c -> client_inv (fst (TftpStart getenv c now BootFile count_max)).
Proof.
  intros H. unfold TftpStart. cbv zeta.
  destruct (inv_options (tcfg (ct c)) (cnet c) BootFile now (inv_ms _ (ci_tftp c H)) (inv_opt _ (ci_tftp c H))) as (O1 & O2 & O3).
  set (o := tftp_options _ _ _ _ _) in *. apply inv_send. apply inv_set_net.
  - apply inv_set_tftp; [exact H|]. destruct (ci_tftp c H). constructor; auto; cbn; unfold TFTP_BLOCK_SIZE; unfold_words; lia.
  - cbn [cnet set_tftp]. apply net_inv_server; [|apply mac_ok_null]. apply net_inv_handler, net_inv_timeout, (ci_net c H).
Qed.

Lemma inv_restart c now ether changed bi vlan nvlan BootFile count_max :
  client_inv c -> (forall i, mac_ok (ether i)) -> is_u32 bi ->
  client_inv (snd (fst (net_restart getenv eth_names c now ether changed bi vlan nvlan BootFile count_max))).
Proof.
  intros H He Hbi. unfold net_restart. cbv zeta. set (n0 := set_cfg _ _).
  assert (net_inv n0) as H0.
  { subst n0. destruct (ci_net c H) as [[] ? ?]. constructor; [constructor|..]; try assumption. apply He. }
  set (n1 := NetInitLoop getenv (set_state n0 NETLOOP_CONTINUE) changed bi vlan nvlan).
  assert (net_inv n1) as H1.
  { assert (net_inv (set_state n0 NETLOOP_CONTINUE)) as Hs
      by (apply net_inv_state; [exact H0|unfold NETLOOP_CONTINUE, NETLOOP_FAIL; lia]).
    subst n1. unfold NetInitLoop. destruct changed; [|exact Hs]. cbv zeta. destruct Hs as [[] ? ?].
    constructor; [constructor|..]; assumption. }
  assert (client_inv (set_net c n1)) as H2 by auto with uboot. clearbody n1.
  assert (client_inv (snd (fst (net_check_prereq getenv eth_names (set_net c n1) now)))) as H3.
  { unfold net_check_prereq. cbv zeta. destruct (_ =? 0); [exact H2|]. destruct (_ =? 0); [exact H2|].
    case_decide; [|exact H2]. destruct eth_names as [|e es] eqn:Ee; [exact H2|].
    pose proof (inv_start_over (set_net c n1) now H2) as Hso. rewrite Ee in Hso. destruct (start_over _ _ _ _). exact Hso. }
  destruct (net_check_prereq _ _ _ _) as [[r c1] out]. cbn [fst snd] in H3.
  destruct (r =? 1); [exact H3|]. destruct (r =? 2); [exact H3|].
  set (c2 := set_net c1 _). assert (client_inv c2) as H4.
  { apply inv_set_net; [exact H3|]. apply net_inv_loop; [apply (ci_net _ H3)|apply (ci_net _ H3)]. }
  pose proof (inv_start c2 now BootFile count_max H4) as H5. destruct (TftpStart _ _ _ _ _) as [c3 out'].
  cbn [fst snd] in *. apply inv_set_xfer; [exact H5|unfold_words; lia].
Qed.

(** Anything that can happen to the client: a frame of arbitrary bytes, a turn of
    the timers at any time, the start of another attempt. *)
Inductive client_step : client -> client -> Prop :=
  | step_rx c now b len : rx_buffer b -> client_step c (fst (client_rx getenv eth_names c now b len))
  | step_tick c now : client_step c (fst (client_tick getenv eth_names c now))
  | step_restart c now ether changed bi vlan nvlan BootFile count_max :
      (forall i, mac_ok (ether i)) -> is_u32 bi ->
      client_step c (snd (fst (net_restart getenv eth_names c now ether changed bi vlan nvlan BootFile count_max))).

(** C9: whatever frames arrive and however the timers run, every state the client
    reaches is well-formed: the packet buffers keep their size, every counter its
    width, every packet it builds fits the buffer, no ARP answer is awaited for
    the broadcast address, and the states TOO_LARGE and BAD_MAGIC, which have
    code in TftpSend, are never entered. *)
Theorem client_invariant c c' : rtc client_step c c' -> client_inv c -> client_inv c'.
Proof.
  intros Hr. induction Hr as [|c c1 c2 Hs _ IH]; [auto|]. intros H. apply IH.
  destruct Hs; [apply inv_rx; assumption|apply inv_tick; assumption|apply inv_restart; assumption].
Qed.
End inv_env.

Lemma ex_client_inv : client_inv ex_requested.
Proof.
  constructor.
  - constructor.
    + constructor; try (vm_compute; reflexivity); try (split; [vm_compute; reflexivity|apply all_u8_spec; vm_compute; reflexivity]).
      * apply (ok_ip ex_a). apply ex_host_ok; [unfold_words; lia|split; reflexivity|split; reflexivity|cbn; lia].
      * unfold_words. split; [apply Z.leb_le|apply Z.ltb_lt]; vm_compute; reflexivity.
    + split; apply Z.leb_le; vm_compute; reflexivity.
    + vm_compute. discriminate.
  - constructor; try (unfold_words; split; [apply Z.leb_le|apply Z.ltb_lt]; vm_compute; reflexivity).
    + apply Nat.ltb_lt. vm_compute. reflexivity.
    + right. left. vm_compute. reflexivity.
  - exact zero_ok.
  - unfold_words. split; [apply Z.leb_le|apply Z.ltb_lt]; vm_compute; reflexivity.
Qed.

(** The last packet of the server, in a full receive buffer, and a timeout. *)
Definition ex_buffer : list Z :=
  write_at (repeat 0 PKTSIZE_ALIGN) 0 (data_frame ex_file 512 1024 1101 ex_b ex_requested 9 1).
Lemma client_invariant_witness :
  client_inv ex_requested /\
  client_inv (fst (client_tick ex_env [] (fst (client_rx ex_env [] ex_requested 100 ex_buffer 558)) 20000)) /\
  NetBootFileXferSize (fst (client_rx ex_env [] ex_requested 100 ex_buffer 558)) = 512.
Proof.
  split; [exact ex_client_inv|]. split; [|vm_compute; reflexivity].
  apply (client_invariant ex_env [] ex_requested); [|exact ex_client_inv].
  eapply rtc_l; [|eapply rtc_l; [|apply rtc_refl]].
  - apply (step_rx ex_env [] ex_requested 100 ex_buffer 558). split; [vm_compute; reflexivity|apply all_u8_spec; vm_compute; reflexivity].
  - apply (step_tick ex_env [] _ 20000).
Defined.

(** ** Errors from the server *)

Section errors.
Context (getenv : list Z -> option (list Z)) (name : list Z).

(** With one device, starting again waits ten seconds with the handler that ignores packets. *)
Lemma start_again_single n now :
  getenv (str "netretry") = None -> getenv (str "ethrotate") <> Some (str "no") ->
  eth_current (loop n) = 0%nat -> NetRestarted (loop n) = false -> NetDevExists (loop n) = true ->
  exists n' out, NetStartAgain getenv [name] n now = (n', out) /\
    NetState (loop n') = NetState (loop n) /\ packetHandler (loop n') = startAgainHandler /\
    timeHandler (loop n') = Some startAgainTimeout /\ timeStart (loop n') = now /\ timeDelta (loop n') = 10000 /\
    arp n' = arp n /\ cfg n' = cfg n.
Proof.
  intros Hr He Hc Hs Hd. unfold NetStartAgain, retry_limit. rewrite Hr. unfold start_again, eth_try_another. cbn [loop set_try set_loop].
  rewrite decide_False by exact He. cbn [NetRestarted]. rewrite Hs. cbv zeta. cbn [negb].
  unfold eth_next. cbn [length eth_current]. rewrite Hc. change ((0 + 1) mod 1)%nat with 0%nat.
  rewrite decide_True by reflexivity. cbn. rewrite Hd. eexists _, _. split; [reflexivity|]. cbn. auto 10.
Qed.

End errors.

Definition ex_error : list Z := put16 TFTP_ERROR ++ put16 3 ++ str "disk full".

(** ** What the code does not guard against *)

(** A data packet of a given block number in the middle of a transfer. *)
Definition ex_receiving (last off : Z) : client :=
  set_tftp ex_requested
    (Tftp (tcfg (ct ex_requested)) 1024 0 10 last last 0 off STATE_DATA 512).
Definition ex_data (k : Z) : list Z := put16 TFTP_DATA ++ put16 k ++ repeat 7 512.

(** The packet numbered 0 again is taken for another wrap-around before it is
    recognised as a repetition: the next block lands 32 MiB too far. *)
Lemma block_zero_again :
  let c := ex_receiving 65535 0 in
  let once := fst (tftp_handler ex_env [] c 0 (ex_data 0) 1101 1024 516) in
  let twice := fst (tftp_handler ex_env [] once 0 (ex_data 0) 1101 1024 516) in
  TftpBlockWrapOffset (ct once) = 512 * 65536 /\ TftpBlockWrapOffset (ct twice) = 2 * 512 * 65536.
Proof. split; vm_compute; reflexivity. Qed.

(** The block number alone says where a packet is stored: nothing ties it to the
    block expected or to the room at the load address. *)
Lemma store_anywhere :
  let c := fst (tftp_handler ex_env [] (ex_receiving 1 0) 0 (ex_data 65535) 1101 1024 516) in
  cmem c (0x1000000 + 65534 * 512) = 7 /\ NetBootFileXferSize c = 65535 * 512.
Proof. split; vm_compute; reflexivity. Qed.

(** Timeouts are counted over the whole transfer: progress does not clear the count. *)
Lemma timeout_count_kept :
  TftpTimeoutCount (ct (deliver_all ex_env [] ex_file 512 1024 1101 ex_b ex_requested ex_run)) = 2.
Proof. vm_compute. reflexivity. Qed.
