(* ===== verification/Nfs.v ===== *)
(** * The NFS client (net/nfs.c)

    A file is read over three RPC programs of the server: the portmapper gives the ports of the
    mount and the file service, the mount daemon a handle of the directory,
    the file service a handle of the file and its bytes.  The client is a
    state machine with one request under way; the state is the network layer's, the memory the
    file is loaded into and the globals of nfs.c.  The path is kept in a
    buffer that the C code cuts in two by a NUL: a piece of memory here, with
    the file name an offset in it. *)

From S2P Require Import Prelude CMem Strto Vsprintf Bytes Mac Net Tftp.

(** ** Constants *)

Definition SUNRPC_PORT : Z := 111.
Definition PROG_PORTMAP : Z := 100000.
Definition PROG_NFS : Z := 100003.
Definition PROG_MOUNT : Z := 100005.
Definition MSG_CALL : Z := 0.
Definition PORTMAP_GETPORT : Z := 3.
Definition MOUNT_ADDENTRY : Z := 1.
Definition MOUNT_UMOUNTALL : Z := 4.
Definition NFS_LOOKUP : Z := 4.
Definition NFS_READLINK : Z := 5.
Definition NFS_READ : Z := 6.
Definition NFS_FHSIZE : Z := 32.
Definition NFSERR_ISDIR : Z := 21.
Definition NFSERR_INVAL : Z := 22.
Definition NFS_READ_SIZE : Z := 1024.
Definition NFS_RETRY_COUNT : Z := 30.
Definition NFS_TIMEOUT : Z := 2000.
Definition STATE_PRCLOOKUP_PROG_MOUNT_REQ : Z := 1.
Definition STATE_PRCLOOKUP_PROG_NFS_REQ : Z := 2.
Definition STATE_MOUNT_REQ : Z := 3.
Definition STATE_UMOUNT_REQ : Z := 4.
Definition STATE_LOOKUP_REQ : Z := 5.
Definition STATE_READ_REQ : Z := 6.
Definition STATE_READLINK_REQ : Z := 7.
(** The size of the path buffer: a longer text has left it. *)
Definition PATH_SIZE : nat := 2048.

(** ** State *)

Record nfs_where := Where { NfsServerIP : Z; NfsOurPort : Z; nfs_filename : Z; nfs_path_buff : mem }.
Record nfs_server := Srv { NfsSrvMountPort : Z; NfsSrvNfsPort : Z; fs_mounted : bool; dirfh : list Z; filefh : list Z }.
Record nfs := Nfs {
  nwhere : nfs_where; nsrv : nfs_server;
  rpc_id : Z; nfs_offset : Z; nfs_len : Z; NfsDownloadState : Z; NfsTimeoutCount : Z; NfsState : Z
}.
Record nclient := NClient { nbase : client; nst : nfs }.

Definition set_where (w : nfs_where) (s : nfs) : nfs :=
  Nfs w (nsrv s) (rpc_id s) (nfs_offset s) (nfs_len s) (NfsDownloadState s) (NfsTimeoutCount s) (NfsState s).
Definition set_srv (v : nfs_server) (s : nfs) : nfs :=
  Nfs (nwhere s) v (rpc_id s) (nfs_offset s) (nfs_len s) (NfsDownloadState s) (NfsTimeoutCount s) (NfsState s).
Definition set_id (i : Z) (s : nfs) : nfs :=
  Nfs (nwhere s) (nsrv s) i (nfs_offset s) (nfs_len s) (NfsDownloadState s) (NfsTimeoutCount s) (NfsState s).
Definition set_range (o n : Z) (s : nfs) : nfs :=
  Nfs (nwhere s) (nsrv s) (rpc_id s) o n (NfsDownloadState s) (NfsTimeoutCount s) (NfsState s).
Definition set_outcome (d : Z) (s : nfs) : nfs :=
  Nfs (nwhere s) (nsrv s) (rpc_id s) (nfs_offset s) (nfs_len s) d (NfsTimeoutCount s) (NfsState s).
Definition set_timeouts (k : Z) (s : nfs) : nfs :=
  Nfs (nwhere s) (nsrv s) (rpc_id s) (nfs_offset s) (nfs_len s) (NfsDownloadState s) k (NfsState s).
Definition set_nstate (v : Z) (s : nfs) : nfs :=
  Nfs (nwhere s) (nsrv s) (rpc_id s) (nfs_offset s) (nfs_len s) (NfsDownloadState s) (NfsTimeoutCount s) v.
Definition set_path (m : mem) (s : nfs) : nfs :=
  set_where (Where (NfsServerIP (nwhere s)) (NfsOurPort (nwhere s)) (nfs_filename (nwhere s)) m) s.
Definition set_st (f : nfs -> nfs) (c : nclient) : nclient := NClient (nbase c) (f (nst c)).
Definition set_base (f : client -> client) (c : nclient) : nclient := NClient (f (nbase c)) (nst c).
Definition nnet (c : nclient) : net := cnet (nbase c).

(** ** Paths *)

(** One behind the last slash of the first [n] bytes; one before the buffer if there is none. *)
Fixpoint last_slash (n : nat) (m : mem) : Z :=
  match n with O => -1 | S n => if m (Z.of_nat n) =? chr "/" then Z.of_nat n + 1 else last_slash n m end.
Definition nfs_path (m : mem) : list Z := text_at PATH_SIZE m 0.
Definition basename (m : mem) : Z := last_slash (List.length (nfs_path m)) m.
Definition dirname (m : mem) : mem := upd m (basename m - 1) 0.
(** nfs_filename = basename (nfs_path); nfs_path = dirname (nfs_path) *)
Definition split_path (s : nfs) : nfs :=
  let w := nwhere s in
  set_where (Where (NfsServerIP w) (NfsOurPort w) (basename (nfs_path_buff w)) (dirname (nfs_path_buff w))) s.

(** ** Requests *)

Definition words (l : list Z) : list Z := flat_map put_be32 l.
(** AUTH_UNIX with an empty host name, user and group 0, and an empty verifier. *)
Definition rpc_add_credentials : list Z := words [1; 20; 0; 0; 0; 0; 0; 0; 0].
(** Text on full words, its length in front. *)
Definition rpc_text (t : list Z) : list Z := put_be32 (zlen t) ++ t ++ repeat 0 (Z.to_nat ((- zlen t) mod 4)).

Definition rpc_req (prog proc : Z) (data : list Z) (c : nclient) (now : Z) : nclient * list action :=
  let id := u32 (rpc_id (nst c) + 1) in
  let pkt := words [id; MSG_CALL; 2; prog; 2; proc] ++ data in
  let n := nnet c in
  let n := set_tx n (write_at (NetTxPacket n) (Z.to_nat (NetEthHdrSize n + IP_HDR_SIZE)) pkt) in
  let s := set_id id (nst c) in
  let sport := if prog =? PROG_PORTMAP then SUNRPC_PORT
               else if prog =? PROG_MOUNT then NfsSrvMountPort (nsrv s) else NfsSrvNfsPort (nsrv s) in
  let '(n, out, _) := NetSendUDPPacket n now p_NetServerEther (NfsServerIP (nwhere s)) sport (NfsOurPort (nwhere s)) (zlen pkt) in
  (NClient (set_net (nbase c) n) s, out).

Definition rpc_lookup_req (prog ver : Z) : nclient -> Z -> nclient * list action :=
  rpc_req PROG_PORTMAP PORTMAP_GETPORT (words [0; 0; 0; 0; prog; ver; 17; 0]).
Definition nfs_mount_req (path : list Z) : nclient -> Z -> nclient * list action :=
  rpc_req PROG_MOUNT MOUNT_ADDENTRY (rpc_add_credentials ++ rpc_text path).
Definition nfs_umountall_req (c : nclient) (now : Z) : nclient * list action :=
  if (NfsSrvMountPort (nsrv (nst c)) =? -1) || negb (fs_mounted (nsrv (nst c))) then (c, [])
  else rpc_req PROG_MOUNT MOUNT_UMOUNTALL rpc_add_credentials c now.
Definition nfs_readlink_req (c : nclient) : Z -> nclient * list action :=
  rpc_req PROG_NFS NFS_READLINK (rpc_add_credentials ++ filefh (nsrv (nst c))) c.
Definition nfs_lookup_req (fname : list Z) (c : nclient) : Z -> nclient * list action :=
  rpc_req PROG_NFS NFS_LOOKUP (rpc_add_credentials ++ dirfh (nsrv (nst c)) ++ rpc_text fname) c.
Definition nfs_read_req (offset readlen : Z) (c : nclient) : Z -> nclient * list action :=
  rpc_req PROG_NFS NFS_READ (rpc_add_credentials ++ filefh (nsrv (nst c)) ++ words [offset; readlen; 0]) c.

Definition NfsSend (c : nclient) (now : Z) : nclient * list action :=
  let s := nst c in
  let st := NfsState s in
  if st =? STATE_PRCLOOKUP_PROG_MOUNT_REQ then rpc_lookup_req PROG_MOUNT 1 c now
  else if st =? STATE_PRCLOOKUP_PROG_NFS_REQ then rpc_lookup_req PROG_NFS 2 c now
  else if st =? STATE_MOUNT_REQ then nfs_mount_req (nfs_path (nfs_path_buff (nwhere s))) c now
  else if st =? STATE_UMOUNT_REQ then nfs_umountall_req c now
  else if st =? STATE_LOOKUP_REQ then
    nfs_lookup_req (text_at PATH_SIZE (nfs_path_buff (nwhere s)) (nfs_filename (nwhere s))) c now
  else if st =? STATE_READ_REQ then nfs_read_req (nfs_offset s) (nfs_len s) c now
  else if st =? STATE_READLINK_REQ then nfs_readlink_req c now
  else (c, []).

(** ** Replies *)

(** A copy stops at the end of the receive buffer here. *)
Definition nfs_store_block (c : client) (src : list Z) (offset len : Z) : client :=
  let newsize := u32 (offset + u32 len) in
  let c := Tftp.set_mem c (put_bytes (cmem c) (u32 (load_addr c + offset)) (take (Z.to_nat (u32 len)) src)) in
  if NetBootFileXferSize c <? newsize then set_xfer c newsize else c.

Section replies.
(** What the stack held where a reply is copied to. *)
Context (stack : list Z).

Definition rpc_copy (pkt : list Z) (len : Z) : list Z := write_at stack 0 (take (Z.to_nat len) pkt).
Definition rpc_id_ok (s : nfs) (b : list Z) : bool := get_be32 b 0 =? rpc_id s.
(** rstatus, verifier and astatus are 0. *)
Definition rpc_accepted (b : list Z) : bool := (get_be32 b 8 =? 0) && (get_be32 b 12 =? 0) && (get_be32 b 20 =? 0).
(** The [i]-th word of the results. *)
Definition rpc_data (b : list Z) (i : nat) : Z := get_be32 b (24 + 4 * i).

Definition rpc_lookup_reply (prog : Z) (pkt : list Z) (len : Z) (s : nfs) : Z * nfs :=
  let b := rpc_copy pkt len in
  if negb (rpc_id_ok s b) then (-1, s)
  else if negb (rpc_accepted b) then (-1, s)
  else
    let v := nsrv s in
    let port := s32 (rpc_data b 0) in
    (0, if prog =? PROG_MOUNT then set_srv (Srv port (NfsSrvNfsPort v) (fs_mounted v) (dirfh v) (filefh v)) s
        else set_srv (Srv (NfsSrvMountPort v) port (fs_mounted v) (dirfh v) (filefh v)) s).

Definition nfs_mount_reply (pkt : list Z) (len : Z) (s : nfs) : Z * nfs :=
  let b := rpc_copy pkt len in
  if negb (rpc_id_ok s b) then (-1, s)
  else if negb (rpc_accepted b && (rpc_data b 0 =? 0)) then (-1, s)
  else let v := nsrv s in
    (0, set_srv (Srv (NfsSrvMountPort v) (NfsSrvNfsPort v) true (sub b 28 (Z.to_nat NFS_FHSIZE)) (filefh v)) s).

Definition nfs_umountall_reply (pkt : list Z) (len : Z) (s : nfs) : Z * nfs :=
  let b := rpc_copy pkt len in
  if negb (rpc_id_ok s b) then (-1, s)
  else if negb (rpc_accepted b) then (-1, s)
  else let v := nsrv s in
    (0, set_srv (Srv (NfsSrvMountPort v) (NfsSrvNfsPort v) false (repeat 0 (Z.to_nat NFS_FHSIZE)) (filefh v)) s).

Definition nfs_lookup_reply (pkt : list Z) (len : Z) (s : nfs) : Z * nfs :=
  let b := rpc_copy pkt len in
  if negb (rpc_id_ok s b) then (-1, s)
  else if negb (rpc_accepted b && (rpc_data b 0 =? 0)) then (-1, s)
  else let v := nsrv s in
    (0, set_srv (Srv (NfsSrvMountPort v) (NfsSrvNfsPort v) (fs_mounted v) (dirfh v) (sub b 28 (Z.to_nat NFS_FHSIZE))) s).

(** A relative target goes behind the directory, an absolute one replaces it. *)
Definition nfs_readlink_reply (pkt : list Z) (len : Z) (s : nfs) : Z * nfs :=
  let b := rpc_copy pkt len in
  if negb (rpc_id_ok s b) then (-1, s)
  else if negb (rpc_accepted b && (rpc_data b 0 =? 0)) then (-1, s)
  else
    let rlen := s32 (rpc_data b 1) in
    let target := sub b 32 (Z.to_nat (u32 rlen)) in
    let m := nfs_path_buff (nwhere s) in
    if negb (get8 b 32 =? chr "/") then
      let m := put_bytes m (zlen (nfs_path m)) [chr "/"; 0] in
      let pathlen := zlen (nfs_path m) in
      (0, set_path (upd (put_bytes m pathlen target) (pathlen + rlen) 0) s)
    else (0, set_path (upd (put_bytes m 0 target) rlen 0) s).

(** The number of bytes read, or minus an error. *)
Definition nfs_read_reply (pkt : list Z) (c : nclient) : Z * nclient :=
  let s := nst c in
  if negb (rpc_id_ok s pkt) then (-1, c)
  else if negb (rpc_accepted pkt && (rpc_data pkt 0 =? 0)) then
    if negb (get_be32 pkt 8 =? 0) then (-9999, c)
    else if negb (get_be32 pkt 20 =? 0) then (-9999, c)
    else (s32 (- rpc_data pkt 0), c)
  else
    let rlen := s32 (rpc_data pkt 18) in
    (rlen, set_base (fun b => nfs_store_block b (drop 100 pkt) (nfs_offset s) rlen) c).

(** ** The client *)

Section environment.
Context (getenv : list Z -> option (list Z)) (eth_names : list (list Z)).

Definition set_timer (now : Z) (c : nclient) : nclient :=
  set_base (fun b => set_net b (NetSetTimeout (cnet b) now NFS_TIMEOUT NfsTimeout)) c.
Definition nfs_timeout (c : nclient) (now : Z) : nclient * list action :=
  let c := set_st (set_timeouts (s32 (NfsTimeoutCount (nst c) + 1))) c in
  if NFS_RETRY_COUNT <? NfsTimeoutCount (nst c) then
    let '(b, out) := start_over getenv eth_names (nbase c) now in (NClient b (nst c), out)
  else NfsSend (set_timer now c) now.

Definition enter (st : Z) (c : nclient) (now : Z) : nclient * list action := NfsSend (set_st (set_nstate st) c) now.
Definition finish (v : Z) (c : nclient) : nclient := set_base (fun b => set_net b (set_state (cnet b) v)) c.

Definition nfs_handler (c : nclient) (now : Z) (pkt : list Z) (dest src len : Z) : nclient * list action :=
  let s := nst c in
  if negb (dest =? u32 (NfsOurPort (nwhere s))) then (c, [])
  else
    let st := NfsState s in
    if st =? STATE_PRCLOOKUP_PROG_MOUNT_REQ then
      enter STATE_PRCLOOKUP_PROG_NFS_REQ (set_st (fun s => snd (rpc_lookup_reply PROG_MOUNT pkt len s)) c) now
    else if st =? STATE_PRCLOOKUP_PROG_NFS_REQ then
      enter STATE_MOUNT_REQ (set_st (fun s => snd (rpc_lookup_reply PROG_NFS pkt len s)) c) now
    else if st =? STATE_MOUNT_REQ then
      let '(r, s) := nfs_mount_reply pkt len s in
      enter (if negb (r =? 0) then STATE_UMOUNT_REQ else STATE_LOOKUP_REQ) (NClient (nbase c) s) now
    else if st =? STATE_UMOUNT_REQ then
      let '(r, s) := nfs_umountall_reply pkt len s in
      (finish (if negb (r =? 0) then NETLOOP_FAIL else NfsDownloadState s) (NClient (nbase c) s), [])
    else if st =? STATE_LOOKUP_REQ then
      let '(r, s) := nfs_lookup_reply pkt len s in
      if negb (r =? 0) then enter STATE_UMOUNT_REQ (NClient (nbase c) s) now
      else enter STATE_READ_REQ (NClient (nbase c) (set_range 0 NFS_READ_SIZE s)) now
    else if st =? STATE_READLINK_REQ then
      let '(r, s) := nfs_readlink_reply pkt len s in
      if negb (r =? 0) then enter STATE_UMOUNT_REQ (NClient (nbase c) s) now
      else enter STATE_MOUNT_REQ (NClient (nbase c) (split_path s)) now
    else if st =? STATE_READ_REQ then
      let '(rlen, c) := nfs_read_reply pkt c in
      let c := set_timer now c in
      if 0 <? rlen then NfsSend (set_st (fun s => set_range (s32 (nfs_offset s + rlen)) (nfs_len s) s) c) now
      else if (rlen =? - NFSERR_ISDIR) || (rlen =? - NFSERR_INVAL) then enter STATE_READLINK_REQ c now
      else enter STATE_UMOUNT_REQ (if rlen =? 0 then set_st (set_outcome NETLOOP_SUCCESS) c else c) now
    else (c, []).

Definition nfs_default_filename (ip : Z) : list Z :=
  match vsprintf (str "/nfsroot/%02lX%02lX%02lX%02lX.img")
          [Aint (ip .& 0xFF); Aint ((ip .>> 8) .& 0xFF); Aint ((ip .>> 16) .& 0xFF); Aint ((ip .>> 24) .& 0xFF)] with
  | Some (s, _) => s
  | None => []
  end.
(** The server and the path, from the boot file's name. *)
Definition nfs_target (n : net) (BootFile : list Z) : Z * list Z :=
  match BootFile with
  | [] => (NetServerIP (cfg n), nfs_default_filename (NetOurIP (cfg n)))
  | _ =>
      match after_colon BootFile with
      | None => (NetServerIP (cfg n), BootFile)
      | Some p => (string_to_ip (Some BootFile), p)
      end
  end.
Definition NfsStart (c : nclient) (now : Z) (BootFile : list Z) : nclient * list action :=
  let '(server, path) := nfs_target (nnet c) BootFile in
  let s := nst c in
  let w := nwhere s in
  let s := set_where (Where server (NfsOurPort w) (nfs_filename w) (put_bytes (nfs_path_buff w) 0 (path ++ [0]))) (set_outcome NETLOOP_FAIL s) in
  let s := split_path s in
  let n := NetSetHandler (NetSetTimeout (nnet c) now NFS_TIMEOUT NfsTimeout) NfsHandler in
  let n := set_server_ether n (repeat 0 6) in
  let s := set_nstate STATE_PRCLOOKUP_PROG_MOUNT_REQ (set_timeouts 0 s) in
  let w := nwhere s in
  let s := set_where (Where (NfsServerIP w) 1000 (nfs_filename w) (nfs_path_buff w)) s in
  NfsSend (NClient (set_net (nbase c) n) s) now.
End environment.
End replies.

(** ** A frame and a turn of the timers *)

(** As long as the loop runs the NFS handlers. *)
Section loop.
Context (stack : list Z) (getenv : list Z -> option (list Z)) (eth_names : list (list Z)).
Definition nfs_rx (c : nclient) (now : Z) (inpkt : list Z) (len : Z) : nclient * list action :=
  let '(n, out, call) := NetReceive (nnet c) inpkt len in
  let c := set_base (fun b => set_net b n) c in
  match call with
  | None => (c, out)
  | Some r =>
      match packetHandler (loop n) with
      | NfsHandler => let '(c, out') := nfs_handler stack c now (rx_pkt r) (rx_dest r) (rx_src r) (rx_len r) in (c, out ++ out')
      | _ => (c, out)
      end
  end.
Definition nfs_run_timeout (c : nclient) (now : Z) : nclient * list action :=
  let l := loop (nnet c) in
  match timeHandler l with
  | Some NfsTimeout =>
      if timeDelta l <? u32 (now - timeStart l) then
        nfs_timeout getenv eth_names (set_base (fun b => set_net b (NetSetTimeout (cnet b) now 0 NfsTimeout)) c) now
      else (c, [])
  | _ => (c, [])
  end.
Definition nfs_tick (c : nclient) (now : Z) : nclient * list action :=
  let '(n, out) := ArpTimeoutCheck getenv eth_names (nnet c) now in
  let '(c, out') := nfs_run_timeout (set_base (fun b => set_net b n) c) now in
  (c, out ++ out').
End loop.

(** * Properties *)

(** ** Messages *)

Lemma length_words l : List.length (words l) = (4 * List.length l)%nat.
Proof. unfold words. induction l as [|x l IH]; [reflexivity|]. cbn [flat_map List.length]. rewrite length_app, IH. cbn. lia. Qed.
Lemma get_words l r i : (i < List.length l)%nat -> get_be32 (words l ++ r) (4 * i) = u32 (nth i l 0).
Proof.
  intros Hi. rewrite <- (take_drop i l). unfold words. rewrite flat_map_app, <- app_assoc. fold (words (take i l)) (words (drop i l)).
  replace (4 * i)%nat with (4 * i + 0)%nat by lia. rewrite get_be32_app by (rewrite length_words, length_take; lia).
  rewrite app_nth2 by (rewrite length_take; lia). rewrite length_take, Nat.min_l, Nat.sub_diag by lia.
  destruct (drop i l) as [|x t] eqn:E; [apply (f_equal List.length) in E; rewrite length_drop in E; cbn in E; lia|].
  unfold words. cbn [flat_map nth]. rewrite <- app_assoc. apply get_put_be32.
Qed.
Lemma drop_words l r : drop (4 * List.length l) (words l ++ r) = r.
Proof. apply drop_app_length'. rewrite length_words. reflexivity. Qed.

Definition rpc_call (id prog proc : Z) (data : list Z) : list Z := words [id; MSG_CALL; 2; prog; 2; proc] ++ data.

(** ** A server *)

Section server.
(** The ports of its services, the exported directory and the file in it with their handles, the file's attributes
    and contents. *)
Context (mport nport : Z) (dir fname dh fh attr file : list Z).

Definition rpc_reply (id : Z) (data : list Z) : list Z := words [id; 1; 0; 0; 0; 0] ++ data.
Definition opaque (l : list Z) : list Z := sub l 4 (Z.to_nat (get_be32 l 0)).
(** The part of the file at an offset. *)
Definition part (off cnt : Z) : list Z := sub file (Z.to_nat off) (Z.to_nat cnt).
Definition NFSERR_NOENT : Z := 2.
(** The answer to a call (RFC 1057 portmapper, RFC 1094 mount and file service). *)
Definition serve (req : list Z) : list Z :=
  let id := get_be32 req 0 in
  let prog := get_be32 req 12 in
  let proc := get_be32 req 20 in
  let args := drop 24 req in
  if (prog =? PROG_PORTMAP) && (proc =? PORTMAP_GETPORT) then
    let p := get_be32 args 16 in
    rpc_reply id (words [if p =? PROG_MOUNT then mport else if p =? PROG_NFS then nport else 0])
  else
    let args := drop 36 args in
    if (prog =? PROG_MOUNT) && (proc =? MOUNT_ADDENTRY) then
      if decide (opaque args = dir) then rpc_reply id (words [0] ++ dh) else rpc_reply id (words [NFSERR_NOENT])
    else if (prog =? PROG_MOUNT) && (proc =? MOUNT_UMOUNTALL) then rpc_reply id []
    else if (prog =? PROG_NFS) && (proc =? NFS_LOOKUP) then
      if decide (take 32 args = dh /\ opaque (drop 32 args) = fname) then rpc_reply id (words [0] ++ fh ++ attr)
      else rpc_reply id (words [NFSERR_NOENT])
    else if (prog =? PROG_NFS) && (proc =? NFS_READ) then
      if decide (take 32 args = fh) then
        let data := part (get_be32 args 32) (get_be32 args 36) in
        rpc_reply id (words [0] ++ attr ++ words [zlen data] ++ data)
      else rpc_reply id (words [NFSERR_NOENT])
    else words [id; 1; 0; 0; 0; 3].

Hypothesis Ldh : List.length dh = 32%nat.
Hypothesis Lfh : List.length fh = 32%nat.
Hypothesis Lattr : List.length attr = 68%nat.
Hypothesis Ldir : zlen dir <= 500.
Hypothesis Lname : zlen fname <= 500.
Hypothesis Hm : 0 < mport < 65536.
Hypothesis Hn : 0 < nport < 65536.
Hypothesis Hfile : zlen file < 2 ^ 31.

Lemma call_fields id prog proc data r : is_u32 id -> is_u32 prog -> is_u32 proc ->
  get_be32 (rpc_call id prog proc data ++ r) 0 = id /\ get_be32 (rpc_call id prog proc data ++ r) 12 = prog /\
  get_be32 (rpc_call id prog proc data ++ r) 20 = proc /\ drop 24 (rpc_call id prog proc data ++ r) = data ++ r.
Proof.
  intros Hi Hp Hq. unfold rpc_call. rewrite <- app_assoc. set (l := [id; MSG_CALL; 2; prog; 2; proc]).
  assert (forall i, (i < 6)%nat -> get_be32 (words l ++ data ++ r) (4 * i) = u32 (nth i l 0)) as G by (intros; apply get_words; assumption).
  unfold_words. split; [etrans; [apply (G 0%nat); lia|apply u32_small; exact Hi]|].
  split; [etrans; [apply (G 3%nat); lia|apply u32_small; exact Hp]|].
  split; [etrans; [apply (G 5%nat); lia|apply u32_small; exact Hq]|]. exact (drop_words l _).
Qed.
Lemma opaque_text t : zlen t < 2 ^ 32 -> opaque (rpc_text t) = t.
Proof.
  intros Ht. unfold opaque, rpc_text. rewrite get_put_be32. pose proof (zlen_nonneg t). change (2 ^ 32) with 4294967296 in Ht.
  rewrite u32_small by lia. unfold zlen. rewrite Nat2Z.id. unfold sub. change 4%nat with (List.length (put_be32 (Z.of_nat (List.length t)))).
  rewrite drop_app_length, take_app_length. reflexivity.
Qed.
Lemma length_credentials : List.length rpc_add_credentials = 36%nat.
Proof. reflexivity. Qed.
Lemma drop_credentials l : drop 36 (rpc_add_credentials ++ l) = l.
Proof. apply drop_app_length'. reflexivity. Qed.

(** What the server says to each request of the client. *)
Lemma serve_port id prog ver : is_u32 id -> is_u32 prog ->
  serve (rpc_call id PROG_PORTMAP PORTMAP_GETPORT (words [0; 0; 0; 0; prog; ver; 17; 0])) =
    rpc_reply id (words [if prog =? PROG_MOUNT then mport else if prog =? PROG_NFS then nport else 0]).
Proof.
  intros Hi Hp. unfold serve. rewrite <- (app_nil_r (rpc_call _ _ _ _)).
  destruct (call_fields id PROG_PORTMAP PORTMAP_GETPORT (words [0; 0; 0; 0; prog; ver; 17; 0]) [] Hi) as (E1 & E2 & E3 & E4); try (split; discriminate || reflexivity).
  rewrite E1, E2, E3, E4. rewrite !Z.eqb_refl. cbn [andb].
  assert (get_be32 (words [0; 0; 0; 0; prog; ver; 17; 0] ++ []) 16 = prog) as ->; [|reflexivity].
  etrans; [apply (get_words _ _ 4); cbn; lia|]. apply u32_small. exact Hp.
Qed.
Lemma serve_mount id : is_u32 id ->
  serve (rpc_call id PROG_MOUNT MOUNT_ADDENTRY (rpc_add_credentials ++ rpc_text dir)) = rpc_reply id (words [0] ++ dh).
Proof.
  intros Hi. unfold serve. rewrite <- (app_nil_r (rpc_call _ _ _ _)).
  destruct (call_fields id PROG_MOUNT MOUNT_ADDENTRY (rpc_add_credentials ++ rpc_text dir) [] Hi) as (E1 & E2 & E3 & E4); try (split; discriminate || reflexivity).
  rewrite E1, E2, E3, E4, app_nil_r, drop_credentials, opaque_text by lia. rewrite decide_True by reflexivity. reflexivity.
Qed.
Lemma serve_umount id : is_u32 id -> serve (rpc_call id PROG_MOUNT MOUNT_UMOUNTALL rpc_add_credentials) = rpc_reply id [].
Proof.
  intros Hi. unfold serve. rewrite <- (app_nil_r (rpc_call _ _ _ _)).
  destruct (call_fields id PROG_MOUNT MOUNT_UMOUNTALL rpc_add_credentials [] Hi) as (E1 & E2 & E3 & E4); try (split; discriminate || reflexivity).
  rewrite E1, E2, E3. reflexivity.
Qed.
Lemma serve_lookup id : is_u32 id ->
  serve (rpc_call id PROG_NFS NFS_LOOKUP (rpc_add_credentials ++ dh ++ rpc_text fname)) = rpc_reply id (words [0] ++ fh ++ attr).
Proof.
  intros Hi. unfold serve. rewrite <- (app_nil_r (rpc_call _ _ _ _)).
  destruct (call_fields id PROG_NFS NFS_LOOKUP (rpc_add_credentials ++ dh ++ rpc_text fname) [] Hi) as (E1 & E2 & E3 & E4); try (split; discriminate || reflexivity).
  rewrite E1, E2, E3, E4, app_nil_r, drop_credentials, take_app_length', drop_app_length', opaque_text by lia.
  change (PROG_NFS =? PROG_PORTMAP) with false. change (PROG_NFS =? PROG_MOUNT) with false. cbn [andb].
  rewrite decide_True by auto. reflexivity.
Qed.
Lemma serve_read id off cnt : is_u32 id -> is_u32 off -> is_u32 cnt ->
  serve (rpc_call id PROG_NFS NFS_READ (rpc_add_credentials ++ fh ++ words [off; cnt; 0])) =
    rpc_reply id (words [0] ++ attr ++ words [zlen (part off cnt)] ++ part off cnt).
Proof.
  intros Hi Ho Hc. unfold serve. rewrite <- (app_nil_r (rpc_call _ _ _ _)).
  destruct (call_fields id PROG_NFS NFS_READ (rpc_add_credentials ++ fh ++ words [off; cnt; 0]) [] Hi) as (E1 & E2 & E3 & E4); try (split; discriminate || reflexivity).
  rewrite E1, E2, E3, E4, app_nil_r, drop_credentials, take_app_length' by lia.
  change (PROG_NFS =? PROG_PORTMAP) with false. change (PROG_NFS =? PROG_MOUNT) with false. change (NFS_READ =? NFS_LOOKUP) with false.
  change (PROG_NFS =? PROG_NFS) with true. cbn [andb].
  rewrite decide_True by reflexivity.
  assert (forall i, (i < 3)%nat -> get_be32 (fh ++ words [off; cnt; 0]) (32 + 4 * i) = u32 (nth i [off; cnt; 0] 0)) as G.
  { intros i Hj. rewrite get_be32_app by exact Lfh. rewrite <- (app_nil_r (words _)). apply get_words. exact Hj. }
  assert (get_be32 (fh ++ words [off; cnt; 0]) 32 = off) as -> by (etrans; [apply (G 0%nat); lia|apply u32_small; exact Ho]).
  assert (get_be32 (fh ++ words [off; cnt; 0]) 36 = cnt) as -> by (etrans; [apply (G 1%nat); lia|apply u32_small; exact Hc]). reflexivity.
Qed.

(** ** A reply at the client *)

Lemma reply_field id data r i : (i < 6)%nat -> get_be32 (rpc_reply id data ++ r) (4 * i) = u32 (nth i [id; 1; 0; 0; 0; 0] 0).
Proof. intros Hi. unfold rpc_reply. rewrite <- app_assoc. apply get_words. exact Hi. Qed.
Lemma reply_data id data r i : rpc_data (rpc_reply id data ++ r) i = get_be32 (data ++ r) (4 * i).
Proof. unfold rpc_data, rpc_reply. rewrite <- app_assoc. apply get_be32_app. rewrite length_words. reflexivity. Qed.
Lemma reply_id id data r s : is_u32 id -> rpc_id s = id -> rpc_id_ok s (rpc_reply id data ++ r) = true.
Proof.
  intros Hi <-. unfold rpc_id_ok. apply Z.eqb_eq. etrans; [apply (reply_field _ data r 0); lia|]. apply u32_small. exact Hi.
Qed.
Lemma reply_accepted id data r : rpc_accepted (rpc_reply id data ++ r) = true.
Proof.
  unfold rpc_accepted. assert (forall i, (1 < i < 6)%nat -> get_be32 (rpc_reply id data ++ r) (4 * i) = 0) as G.
  { intros i Hi. rewrite reply_field by lia. destruct i as [|[|[|[|[|[|i]]]]]]; try lia; reflexivity. }
  assert (get_be32 (rpc_reply id data ++ r) 8 = 0) as -> by (apply (G 2%nat); lia).
  assert (get_be32 (rpc_reply id data ++ r) 12 = 0) as -> by (apply (G 3%nat); lia).
  assert (get_be32 (rpc_reply id data ++ r) 20 = 0) as -> by (apply (G 5%nat); lia). reflexivity.
Qed.
Lemma copy_reply stack p behind : exists r, rpc_copy stack (p ++ behind) (zlen p) = p ++ r.
Proof.
  unfold rpc_copy, zlen. rewrite Nat2Z.id, take_app_length. unfold write_at. rewrite take_0. eexists. reflexivity.
Qed.
Lemma first_word x data r : is_u32 x -> get_be32 ((words [x] ++ data) ++ r) (4 * 0) = x.
Proof. intros Hx. rewrite <- app_assoc, get_words by (cbn; lia). apply u32_small. exact Hx. Qed.
Lemma handle_at id h data r : List.length h = 32%nat -> sub (rpc_reply id (words [0] ++ h ++ data) ++ r) 28 32 = h.
Proof.
  intros Lh. unfold rpc_reply. rewrite <- !app_assoc. rewrite (app_assoc (words _) (words _)).
  change 28%nat with (28 + 0)%nat. rewrite sub_app_skip by reflexivity. unfold sub. rewrite drop_0. apply take_app_length'. lia.
Qed.

(** ** A run *)

Section run.
Context (stack : list Z) (getenv : list Z -> option (list Z)) (eth_names : list (list Z)).
(** The server's network layer, the load address, the memory before. *)
Context (N : net) (la : Z) (m0 : mem).
Hypothesis HN : net_ok N.
Hypothesis VN : no_vlan N.
Hypothesis Hla : 0 <= la.
Hypothesis Hroom : la + zlen file < 2 ^ 32.

(** The request of a frame, and the last one of some actions. *)
Definition request_of (frame : list Z) : list Z := drop 42 frame.
Definition last_request (out : list action) (req : list Z) : list Z :=
  fold_left (fun req a => match a with EthSend f => request_of f | _ => req end) out req.

(** The server answers the last request it got (with its packet number, from a port of its, and what is behind the frame in the
    receive buffer), or the timers turn. *)
Inductive event := Answer (id port : Z) (behind : list Z) | Turn.
Definition answer_frame (c : nclient) (req : list Z) (id port : Z) : list Z :=
  udp_frame N (NetOurEther (cfg (nnet c))) id (NetOurIP (cfg (nnet c))) 1000 port (serve req).
Definition happens (cr : nclient * list Z) (e : event * Z) : nclient * list Z :=
  let '(c, req) := cr in
  let '(c', out) :=
    match fst e with
    | Answer id port behind => let f := answer_frame c req id port in nfs_rx stack c (snd e) (f ++ behind) (zlen f)
    | Turn => nfs_tick getenv eth_names c (snd e)
    end in
  (c', last_request out req).
(** The loop goes on as long as its state says so. *)
Fixpoint run_all (cr : nclient * list Z) (es : list (event * Z)) : nclient * list Z :=
  match es with
  | [] => cr
  | e :: es => if NetState (loop (nnet (fst cr))) =? NETLOOP_CONTINUE then run_all (happens cr e) es else cr
  end.

Definition answers (es : list (event * Z)) : Z := zlen (List.filter (fun e => match fst e with Answer _ _ _ => true | Turn => false end) es).
Definition turns (es : list (event * Z)) : Z := zlen (List.filter (fun e => match fst e with Answer _ _ _ => false | Turn => true end) es).

(** The reads that bring bytes, and all the answers a download takes: two ports, two handles, the reads, the empty one and the
    unmounting. *)
Definition reads : Z := (zlen file + 1023) / 1024.
Definition needed : Z := 6 + reads.
(** The bytes there are after [r] answers. *)
Definition got (r : Z) : Z := if r <? 4 then 0 else Z.min (1024 * (r - 4)) (zlen file).

(** The client can go on; [budget] timeouts are left. *)
Record online (c : nclient) (budget : Z) : Prop := {
  o_net : net_ok (nnet c);
  o_vlan : no_vlan (nnet c);
  o_ip : NetOurIP (cfg (nnet c)) <> 0;
  o_handler : packetHandler (loop (nnet c)) = NfsHandler;
  o_timer : timeHandler (loop (nnet c)) = None \/ timeHandler (loop (nnet c)) = Some NfsTimeout;
  o_ether : NetServerEther (nnet c) <> NetEtherNullAddr;
  o_arp : NetArpWaitPacketIP (arp (nnet c)) = 0;
  o_port : NfsOurPort (nwhere (nst c)) = 1000;
  o_dir : nfs_path (nfs_path_buff (nwhere (nst c))) = dir;
  o_name : text_at PATH_SIZE (nfs_path_buff (nwhere (nst c))) (nfs_filename (nwhere (nst c))) = fname;
  o_la : load_addr (nbase c) = la;
  o_id : is_u32 (rpc_id (nst c));
  o_count : 0 <= budget /\ 0 <= NfsTimeoutCount (nst c) /\ NfsTimeoutCount (nst c) + budget <= NFS_RETRY_COUNT
}.

Definition state_of (r : Z) : Z :=
  if r =? 0 then STATE_PRCLOOKUP_PROG_MOUNT_REQ else if r =? 1 then STATE_PRCLOOKUP_PROG_NFS_REQ else if r =? 2 then STATE_MOUNT_REQ
  else if r =? 3 then STATE_LOOKUP_REQ else if r <=? 4 + reads then STATE_READ_REQ else STATE_UMOUNT_REQ.
(** After [r] answers. *)
Record stage (c : nclient) (r : Z) : Prop := {
  s_state : NfsState (nst c) = state_of r;
  s_mport : 1 <= r -> NfsSrvMountPort (nsrv (nst c)) = mport;
  s_nport : 2 <= r -> NfsSrvNfsPort (nsrv (nst c)) = nport;
  s_dir : 3 <= r <= 5 + reads -> fs_mounted (nsrv (nst c)) = true /\ dirfh (nsrv (nst c)) = dh;
  s_file : 4 <= r -> filefh (nsrv (nst c)) = fh /\ nfs_offset (nst c) = got r /\ nfs_len (nst c) = 1024;
  s_xfer : NetBootFileXferSize (nbase c) = got r;
  s_mem : bytes_at (cmem (nbase c)) la (take (Z.to_nat (got r)) file);
  s_outside : same_outside la (la + zlen file) m0 (cmem (nbase c));
  s_outcome : 5 + reads <= r -> NfsDownloadState (nst c) = NETLOOP_SUCCESS;
  s_done : NetState (loop (nnet c)) = if r =? needed then NETLOOP_SUCCESS else NETLOOP_CONTINUE
}.

(** The call of a state: program, procedure, arguments. *)
Definition call_of (s : nfs) : Z * Z * list Z :=
  let st := NfsState s in
  if st =? STATE_PRCLOOKUP_PROG_MOUNT_REQ then (PROG_PORTMAP, PORTMAP_GETPORT, words [0; 0; 0; 0; PROG_MOUNT; 1; 17; 0])
  else if st =? STATE_PRCLOOKUP_PROG_NFS_REQ then (PROG_PORTMAP, PORTMAP_GETPORT, words [0; 0; 0; 0; PROG_NFS; 2; 17; 0])
  else if st =? STATE_MOUNT_REQ then (PROG_MOUNT, MOUNT_ADDENTRY, rpc_add_credentials ++ rpc_text dir)
  else if st =? STATE_UMOUNT_REQ then (PROG_MOUNT, MOUNT_UMOUNTALL, rpc_add_credentials)
  else if st =? STATE_LOOKUP_REQ then (PROG_NFS, NFS_LOOKUP, rpc_add_credentials ++ dirfh (nsrv s) ++ rpc_text fname)
  else (PROG_NFS, NFS_READ, rpc_add_credentials ++ filefh (nsrv s) ++ words [nfs_offset s; nfs_len s; 0]).
Definition request (s : nfs) : list Z := let '(prog, proc, data) := call_of s in rpc_call (rpc_id s) prog proc data.

(** *** Sending *)

Lemma online_sent c bud tx ipid id : online c bud -> net_ok (set_tx (set_ipid (nnet c) ipid) tx) -> is_u32 id ->
  online (NClient (set_net (nbase c) (set_tx (set_ipid (nnet c) ipid) tx)) (set_id id (nst c))) bud.
Proof. intros [] Hk Hi. constructor; auto. Qed.
Lemma stage_sent c r tx ipid id : stage c r ->
  stage (NClient (set_net (nbase c) (set_tx (set_ipid (nnet c) ipid) tx)) (set_id id (nst c))) r.
Proof. intros []. constructor; auto. Qed.

Lemma request_in_frame n mac id dest dport sport p : no_vlan n -> mac_ok mac -> net_ok n -> request_of (udp_frame n mac id dest dport sport p) = p.
Proof.
  intros Hv [L1 _] Hk. rewrite udp_frame_plain by exact Hv. unfold request_of. rewrite !app_assoc. apply drop_app_length'.
  rewrite !length_app, L1, (proj1 (ok_ether _ Hk)). reflexivity.
Qed.

Lemma rpc_req_known c bud now prog proc data : online c bud -> zlen data <= 600 ->
  let id := u32 (rpc_id (nst c) + 1) in
  exists tx ipid f, net_ok (set_tx (set_ipid (nnet c) ipid) tx) /\
    rpc_req prog proc data c now =
      (NClient (set_net (nbase c) (set_tx (set_ipid (nnet c) ipid) tx)) (set_id id (nst c)), [EthSend f]) /\
    request_of f = rpc_call id prog proc data.
Proof.
  intros O Hd id. unfold rpc_req. fold id. fold (rpc_call id prog proc data). cbv zeta. set (pkt := rpc_call id prog proc data).
  set (port := if prog =? PROG_PORTMAP then _ else _). pose proof (zlen_nonneg data).
  assert (zlen pkt = 24 + zlen data) as Lp by (unfold pkt, rpc_call; rewrite zlen_app; unfold zlen at 1; rewrite length_words; reflexivity).
  destruct (send_payload (nnet c) now (NfsServerIP (nwhere (nst c))) port (NfsOurPort (nwhere (nst c))) pkt (o_net _ _ O)) as (tx & ipid & Hk & E).
  - rewrite Lp. split; [lia|]. rewrite eth_size_plain by apply O. destruct (odd_bit (24 + zlen data)) as [-> | ->]; unfold IP_HDR_SIZE, PKTSIZE_ALIGN; lia.
  - apply O.
  - eexists tx, ipid, _. split; [exact Hk|]. cbn [nwhere set_id] in *. rewrite E. split; [reflexivity|].
    apply request_in_frame; [apply O|apply ether_of_ok, O|apply O].
Qed.

Lemma length_text t : 0 <= zlen (rpc_text t) <= zlen t + 7.
Proof.
  unfold rpc_text. rewrite !zlen_app. change (zlen (put_be32 _)) with 4. pose proof (Z.mod_pos_bound (- zlen t) 4 ltac:(lia)).
  assert (zlen (repeat 0 (Z.to_nat ((- zlen t) mod 4))) = (- zlen t) mod 4) as -> by (unfold zlen at 1; rewrite repeat_length; lia).
  pose proof (zlen_nonneg t). lia.
Qed.
Lemma reads_nonneg : 0 <= reads.
Proof. unfold reads. pose proof (zlen_nonneg file). apply Z.div_pos; lia. Qed.

Lemma state_known c r : stage c r -> 0 <= r < needed ->
  NfsState (nst c) = STATE_PRCLOOKUP_PROG_MOUNT_REQ \/ NfsState (nst c) = STATE_PRCLOOKUP_PROG_NFS_REQ \/ NfsState (nst c) = STATE_MOUNT_REQ \/
  (NfsState (nst c) = STATE_UMOUNT_REQ /\ fs_mounted (nsrv (nst c)) = true /\ NfsSrvMountPort (nsrv (nst c)) = mport) \/
  (NfsState (nst c) = STATE_LOOKUP_REQ /\ dirfh (nsrv (nst c)) = dh) \/
  (NfsState (nst c) = STATE_READ_REQ /\ filefh (nsrv (nst c)) = fh).
Proof.
  intros G Hr. unfold needed in Hr. pose proof reads_nonneg. pose proof (s_state _ _ G) as Es. unfold state_of in Es.
  destruct (Z.eqb_spec r 0); [auto|]. destruct (Z.eqb_spec r 1); [auto|]. destruct (Z.eqb_spec r 2); [auto|].
  destruct (Z.eqb_spec r 3); [do 4 right; left; split; [exact Es|apply (s_dir _ _ G); lia]|].
  destruct (Z.leb_spec r (4 + reads)); [do 5 right; split; [exact Es|apply (s_file _ _ G); lia]|].
  do 3 right. left. split; [exact Es|]. split; [apply (s_dir _ _ G); lia|apply (s_mport _ _ G); lia].
Qed.
(** [NfsSend] makes the call of the state. *)
Lemma send_call c bud r now : online c bud -> stage c r -> 0 <= r < needed ->
  let '(prog, proc, data) := call_of (nst c) in NfsSend c now = rpc_req prog proc data c now /\ zlen data <= 600.
Proof.
  intros O G Hr. pose proof (length_text dir). pose proof (length_text fname). unfold call_of, NfsSend.
  destruct (state_known c r G Hr) as [E|[E|[E|[(E & Em & Ep)|[(E & Eh)|(E & Eh)]]]]]; rewrite E; cbn [Z.eqb Pos.eqb STATE_PRCLOOKUP_PROG_MOUNT_REQ
    STATE_PRCLOOKUP_PROG_NFS_REQ STATE_MOUNT_REQ STATE_UMOUNT_REQ STATE_LOOKUP_REQ STATE_READ_REQ].
  - split; [reflexivity|vm_compute; discriminate].
  - split; [reflexivity|vm_compute; discriminate].
  - rewrite (o_dir _ _ O). split; [reflexivity|]. rewrite zlen_app. change (zlen rpc_add_credentials) with 36. lia.
  - unfold nfs_umountall_req. rewrite Em, Ep, (proj2 (Z.eqb_neq mport (-1))) by lia. split; [reflexivity|vm_compute; discriminate].
  - rewrite (o_name _ _ O), Eh. unfold nfs_lookup_req. rewrite Eh. split; [reflexivity|]. rewrite !zlen_app.
    change (zlen rpc_add_credentials) with 36. assert (zlen dh = 32) as -> by (unfold zlen; rewrite Ldh; reflexivity). lia.
  - unfold nfs_read_req. rewrite Eh. split; [reflexivity|]. rewrite !zlen_app.
    change (zlen rpc_add_credentials) with 36. assert (zlen fh = 32) as -> by (unfold zlen; rewrite Lfh; reflexivity).
    unfold zlen. rewrite length_words. cbn. lia.
Qed.
(** Sending does not change the stage, and the server then has its request. *)
Lemma send_stage c bud r now : online c bud -> stage c r -> 0 <= r < needed ->
  let '(c', out) := NfsSend c now in
  online c' bud /\ stage c' r /\ forall req, last_request out req = request (nst c').
Proof.
  intros O G Hr. pose proof (send_call c bud r now O G Hr) as H. unfold request.
  assert (forall id, call_of (set_id id (nst c)) = call_of (nst c)) as Ec by reflexivity.
  destruct (call_of (nst c)) as [[prog proc] data]. destruct H as [-> Hd].
  destruct (rpc_req_known c bud now prog proc data O Hd) as (tx & ipid & f & Hk & E & Ef). rewrite E.
  split; [apply online_sent; auto; apply u32_range|]. split; [apply stage_sent, G|]. intros req. cbn [last_request fold_left nst].
  rewrite Ec, Ef. reflexivity.
Qed.

(** *** Answers *)

Lemma length_part off : 0 <= off -> zlen (part off 1024) = Z.max 0 (Z.min 1024 (zlen file - off)).
Proof. intros H. unfold part, sub, zlen. rewrite length_take, length_drop. lia. Qed.
Lemma got_bounds r : 0 <= got r <= zlen file.
Proof. unfold got. pose proof (zlen_nonneg file). destruct (r <? 4) eqn:E; [lia|]. apply Z.ltb_ge in E. lia. Qed.
Lemma got_next r : 4 <= r -> got (r + 1) = got r + zlen (part (got r) 1024).
Proof.
  intros Hr. pose proof (got_bounds r). rewrite length_part by lia. unfold got. rewrite !(proj2 (Z.ltb_ge _ _)) by lia. lia.
Qed.
Lemma reads_left r : 4 <= r -> (0 < zlen (part (got r) 1024) <-> r < 4 + reads).
Proof.
  intros Hr. pose proof (got_bounds r). rewrite length_part by lia. unfold got, reads. rewrite (proj2 (Z.ltb_ge _ _)) by lia.
  pose proof (zlen_nonneg file). Z.div_mod_to_equations. lia.
Qed.
Lemma got_all r : 4 + reads <= r -> got r = zlen file.
Proof. unfold got, reads. pose proof (zlen_nonneg file). intros H1. rewrite (proj2 (Z.ltb_ge _ _)) by (Z.div_mod_to_equations; lia). Z.div_mod_to_equations. lia. Qed.

(** The results in the answer to a state's call. *)
Definition results (r : Z) : list Z :=
  if r =? 0 then words [mport] else if r =? 1 then words [nport] else if r =? 2 then words [0] ++ dh
  else if r =? 3 then words [0] ++ fh ++ attr
  else if r <=? 4 + reads then words [0] ++ attr ++ words [zlen (part (got r) 1024)] ++ part (got r) 1024 else [].
Lemma serve_request c bud r : online c bud -> stage c r -> 0 <= r < needed -> serve (request (nst c)) = rpc_reply (rpc_id (nst c)) (results r).
Proof.
  intros O G Hr. pose proof reads_nonneg. pose proof (o_id _ _ O) as Hi. unfold needed in Hr. pose proof (s_state _ _ G) as Es. unfold state_of in Es.
  unfold request, call_of, results. rewrite Es.
  destruct (Z.eqb_spec r 0); [apply serve_port; [exact Hi|split; reflexivity || discriminate]|].
  destruct (Z.eqb_spec r 1); [apply serve_port; [exact Hi|split; reflexivity || discriminate]|].
  destruct (Z.eqb_spec r 2); [apply serve_mount, Hi|].
  destruct (Z.eqb_spec r 3); [destruct (s_dir _ _ G) as [_ Eh]; [lia|]; cbn [Z.eqb Pos.eqb STATE_PRCLOOKUP_PROG_MOUNT_REQ
    STATE_PRCLOOKUP_PROG_NFS_REQ STATE_MOUNT_REQ STATE_UMOUNT_REQ STATE_LOOKUP_REQ STATE_READ_REQ]; rewrite Eh; apply serve_lookup, Hi|].
  destruct (Z.leb_spec r (4 + reads)); [|apply serve_umount, Hi].
  destruct (s_file _ _ G) as (Ef & Eo & El); [lia|]. cbn [Z.eqb Pos.eqb STATE_PRCLOOKUP_PROG_MOUNT_REQ
    STATE_PRCLOOKUP_PROG_NFS_REQ STATE_MOUNT_REQ STATE_UMOUNT_REQ STATE_LOOKUP_REQ STATE_READ_REQ]. rewrite Ef, Eo, El.
  pose proof (got_bounds r). change (2 ^ 31) with 2147483648 in Hfile. apply serve_read; [exact Hi|unfold_words; lia|split; reflexivity || discriminate].
Qed.
Lemma length_results r : 0 <= zlen (results r) <= 1200.
Proof.
  pose proof (zlen_nonneg (results r)). split; [assumption|]. unfold results.
  assert (zlen dh = 32 /\ zlen fh = 32 /\ zlen attr = 68) as (L1 & L2 & L3) by (unfold zlen; rewrite Ldh, Lfh, Lattr; auto).
  assert (forall x, zlen (words [x]) = 4) as L4 by (intros; unfold zlen; rewrite length_words; reflexivity).
  destruct (r =? 0); [rewrite L4; lia|]. destruct (r =? 1); [rewrite L4; lia|]. destruct (r =? 2); [rewrite zlen_app, L4; lia|].
  destruct (r =? 3); [rewrite !zlen_app, L4; lia|]. destruct (r <=? 4 + reads); [|change (zlen []) with 0; lia]. rewrite !zlen_app, !L4.
  pose proof (got_bounds r). rewrite length_part by lia. lia.
Qed.

(** The answer reaches the handler. *)
Lemma answer_arrives c bud req id port behind now : online c bud -> zlen (serve req) <= 2000 ->
  happens (c, req) (Answer id port behind, now) =
    let '(c', out) := nfs_handler stack c now (serve req ++ behind) 1000 (u16 port) (zlen (serve req)) in (c', last_request out req).
Proof.
  intros O Lp. set (p := serve req) in *. pose proof (zlen_nonneg p). unfold happens, nfs_rx, answer_frame. cbn [fst snd]. fold p.
  rewrite udp_frame_plain by exact VN. rewrite <- !app_assoc.
  pose proof (proj1 (ok_ether _ (o_net _ _ O))) as L1. pose proof (proj1 (ok_ether _ HN)) as L2.
  rewrite (rx_udp (nnet c) _ _ (zlen p)); auto; try lia.
  - rewrite (o_handler _ _ O). cbn [rx_pkt rx_dest rx_src rx_len]. change (u16 1000) with 1000.
    replace (set_base (fun b => set_net b (nnet c)) c) with c by (destruct c as [[] ?]; reflexivity).
    destruct (nfs_handler _ _ _ _ _ _ _). reflexivity.
  - apply O.
  - rewrite !zlen_app. change (zlen (put16 PROT_IP)) with 2. change (zlen (ip_udp_header _ _ _ _ _ _)) with 28.
    assert (zlen (NetOurEther (cfg (nnet c))) = 6) as -> by (unfold zlen; rewrite L1; reflexivity).
    assert (zlen (NetOurEther (cfg N)) = 6) as -> by (unfold zlen; rewrite L2; reflexivity). lia.
  - apply (ok_ip _ HN).
  - apply (ok_ip _ (o_net _ _ O)).
Qed.

(** The next stage, before the next call is sent (there is none behind the last). *)
Definition moves (c : nclient) (bud r : Z) (result : nclient * list action) (now : Z) : Prop :=
  exists c1, online c1 bud /\ stage c1 (r + 1) /\ result = (if r + 1 <? needed then NfsSend c1 now else (c1, [])).

Lemma online_st c bud f : online c bud -> nwhere (f (nst c)) = nwhere (nst c) -> rpc_id (f (nst c)) = rpc_id (nst c) ->
  NfsTimeoutCount (f (nst c)) = NfsTimeoutCount (nst c) -> online (set_st f c) bud.
Proof. intros [] E1 E2 E3. constructor; cbn [nst set_st nbase] in *; unfold nnet in *; cbn [nbase set_st] in *; rewrite ?E1, ?E2, ?E3; auto. Qed.
Lemma online_wait c bud now ms : online c bud -> online (set_base (fun b => set_net b (NetSetTimeout (cnet b) now ms NfsTimeout)) c) bud.
Proof.
  intros []. destruct (NetSetTimeout_shape (cnet (nbase c)) now ms NfsTimeout) as (l & El & Eh & _ & Et).
  unfold nnet in *. constructor; cbn [nbase nst set_base nnet]; unfold nnet; cbn [cnet set_net nbase set_base]; rewrite ?El; cbn [loop cfg arp set_loop NetServerEther]; auto.
  - apply net_ok_set_loop. assumption.
  - congruence.
Qed.
Lemma online_timer c bud now : online c bud -> online (set_timer now c) bud.
Proof. apply online_wait. Qed.

(** The facts of the stage before, and what the handler changed. *)
Ltac next_stage G El Eg := destruct G; constructor; unfold needed in *; cbn [nst nbase set_st set_nstate NfsState nsrv nfs_offset nfs_len NfsDownloadState];
  rewrite ?El, ?Eg; auto; try (intros; exfalso; lia); try (intros; reflexivity);
  try (intros; cbn; match goal with F : _ -> ?x = ?y |- ?x = ?y => apply F; lia end);
  try (match goal with F : NetState _ = _ |- NetState _ = _ => etrans; [exact F|]; rewrite !(proj2 (Z.eqb_neq _ _)) by lia; reflexivity end).

Lemma handled_port c bud r now behind port : online c bud -> stage c r -> r = 0 \/ r = 1 ->
  let p := rpc_reply (rpc_id (nst c)) (results r) in
  moves c bud r (nfs_handler stack c now (p ++ behind) 1000 port (zlen p)) now.
Proof.
  intros O G Hr p. pose proof reads_nonneg. pose proof (got_bounds r) as Hg. destruct (copy_reply stack p behind) as [x Ex].
  assert (forall prog, rpc_lookup_reply stack prog (p ++ behind) (zlen p) (nst c) =
    let v := nsrv (nst c) in
    (0, if prog =? PROG_MOUNT then set_srv (Srv (if r =? 0 then mport else nport) (NfsSrvNfsPort v) (fs_mounted v) (dirfh v) (filefh v)) (nst c)
        else set_srv (Srv (NfsSrvMountPort v) (if r =? 0 then mport else nport) (fs_mounted v) (dirfh v) (filefh v)) (nst c))) as El.
  { intros prog. unfold rpc_lookup_reply. rewrite Ex. unfold p. rewrite reply_id, reply_accepted by (apply O || reflexivity). cbn [negb].
    rewrite reply_data. assert (s32 (get_be32 (results r ++ x) (4 * 0)) = if r =? 0 then mport else nport) as ->; [|reflexivity].
    assert (results r = words [if r =? 0 then mport else nport]) as -> by (destruct Hr as [-> | ->]; reflexivity).
    rewrite get_words by (cbn; lia). cbn [nth]. destruct (r =? 0); rewrite u32_small by lia; apply s32_small; lia. }
  unfold nfs_handler. rewrite (o_port _ _ O). change (1000 =? u32 1000) with true. cbn [negb].
  pose proof (s_state _ _ G) as Es. unfold state_of in Es.
  assert (got (r + 1) = got r) as Eg by (destruct Hr as [-> | ->]; reflexivity).
  destruct Hr as [-> | ->]; cbn [Z.eqb Pos.eqb] in Es; rewrite Es; cbn [Z.eqb Pos.eqb STATE_PRCLOOKUP_PROG_MOUNT_REQ STATE_PRCLOOKUP_PROG_NFS_REQ];
    eexists; (split; [|split; [|rewrite (proj2 (Z.ltb_lt _ _)) by (unfold needed; lia); reflexivity]]);
    try (apply (online_st (set_st _ c)); [|reflexivity..]; apply online_st; [exact O|..]; rewrite El; reflexivity).
  - next_stage G El Eg.
  - next_stage G El Eg.
Qed.

(** The handler, opened up to the state. *)
Ltac open_handler O Es := unfold nfs_handler; rewrite (o_port _ _ O); change (1000 =? u32 1000) with true; cbn [negb]; rewrite Es;
  cbn [Z.eqb Pos.eqb STATE_PRCLOOKUP_PROG_MOUNT_REQ STATE_PRCLOOKUP_PROG_NFS_REQ STATE_MOUNT_REQ STATE_UMOUNT_REQ STATE_LOOKUP_REQ STATE_READ_REQ STATE_READLINK_REQ].
Lemma status_ok h rest x : (rpc_data (rpc_reply h (words [0] ++ rest) ++ x) 0 =? 0) = true.
Proof. rewrite reply_data. rewrite first_word by (split; reflexivity || discriminate). reflexivity. Qed.
Lemma not_last r : r + 1 < needed -> (r + 1 <? needed) = true.
Proof. apply Z.ltb_lt. Qed.

Lemma handled_mount c bud now behind port : online c bud -> stage c 2 ->
  let p := rpc_reply (rpc_id (nst c)) (results 2) in
  moves c bud 2 (nfs_handler stack c now (p ++ behind) 1000 port (zlen p)) now.
Proof.
  intros O G p. pose proof reads_nonneg. destruct (copy_reply stack p behind) as [x Ex].
  assert (nfs_mount_reply stack (p ++ behind) (zlen p) (nst c) =
    (0, let v := nsrv (nst c) in set_srv (Srv (NfsSrvMountPort v) (NfsSrvNfsPort v) true dh (filefh v)) (nst c))) as El.
  { unfold nfs_mount_reply. rewrite Ex. unfold p. rewrite reply_id, reply_accepted by (apply O || reflexivity).
    change (results 2) with (words [0] ++ dh). rewrite status_ok. cbn [negb andb]. change (Z.to_nat NFS_FHSIZE) with 32%nat.
    rewrite <- (app_nil_r dh) at 1. rewrite handle_at by exact Ldh. reflexivity. }
  pose proof (s_state _ _ G) as Es. open_handler O Es. rewrite El. cbn [negb Z.eqb].
  eexists. split; [|split; [|rewrite not_last by (unfold needed; lia); reflexivity]].
  - apply (online_st (NClient (nbase c) _)); [|reflexivity..]. apply (online_st c bud (fun s => set_srv _ s) O); reflexivity.
  - next_stage G El (eq_refl (got 3)).
Qed.

Lemma handled_lookup c bud now behind port : online c bud -> stage c 3 ->
  let p := rpc_reply (rpc_id (nst c)) (results 3) in
  moves c bud 3 (nfs_handler stack c now (p ++ behind) 1000 port (zlen p)) now.
Proof.
  intros O G p. pose proof reads_nonneg. destruct (copy_reply stack p behind) as [x Ex].
  assert (nfs_lookup_reply stack (p ++ behind) (zlen p) (nst c) =
    (0, let v := nsrv (nst c) in set_srv (Srv (NfsSrvMountPort v) (NfsSrvNfsPort v) (fs_mounted v) (dirfh v) fh) (nst c))) as El.
  { unfold nfs_lookup_reply. rewrite Ex. unfold p. rewrite reply_id, reply_accepted by (apply O || reflexivity).
    change (results 3) with (words [0] ++ fh ++ attr). rewrite status_ok. cbn [negb andb]. change (Z.to_nat NFS_FHSIZE) with 32%nat.
    rewrite handle_at by exact Lfh. reflexivity. }
  assert (got 4 = 0) as Eg4 by (unfold got; change (4 <? 4) with false; cbv iota; pose proof (zlen_nonneg file); lia).
  assert (got (3 + 1) = got 3) as Eg by exact Eg4.
  pose proof (s_state _ _ G) as Es. open_handler O Es. rewrite El. cbn [negb Z.eqb].
  eexists. split; [|split; [|rewrite not_last by (unfold needed; lia); reflexivity]].
  - apply (online_st (NClient (nbase c) _)); [|reflexivity..]. apply (online_st c bud (fun s => set_range _ _ (set_srv _ s)) O); reflexivity.
  - assert (state_of (3 + 1) = STATE_READ_REQ) as Er by (unfold state_of; cbn [Z.add Z.eqb Pos.eqb Pos.add]; rewrite (proj2 (Z.leb_le _ _)) by lia; reflexivity).
    next_stage G El Eg. intros _. cbn. apply s_dir0. lia.
Qed.

Lemma take_taken (n : nat) (l : list Z) : take (List.length (take n l)) l = take n l.
Proof.
  rewrite length_take. destruct (Nat.le_gt_cases n (List.length l)) as [H|H]; [rewrite Nat.min_l by lia; reflexivity|].
  rewrite Nat.min_r, !take_ge by lia. reflexivity.
Qed.
(** A part of the file is stored behind what is there. *)
Lemma store_part cl r behind : 4 <= r -> load_addr cl = la -> NetBootFileXferSize cl = got r ->
  bytes_at (cmem cl) la (take (Z.to_nat (got r)) file) -> same_outside la (la + zlen file) m0 (cmem cl) ->
  let d := part (got r) 1024 in
  let cl' := nfs_store_block cl (d ++ behind) (got r) (zlen d) in
  cnet cl' = cnet cl /\ load_addr cl' = la /\ NetBootFileXferSize cl' = got (r + 1) /\
  bytes_at (cmem cl') la (take (Z.to_nat (got (r + 1))) file) /\ same_outside la (la + zlen file) m0 (cmem cl').
Proof.
  intros Hr El Ex Hb Ho d cl'. pose proof (got_bounds r). pose proof (got_bounds (r + 1)) as H1. pose proof (zlen_nonneg d) as Hd.
  rewrite (got_next r Hr) in *. fold d in H1 |- *. change (2 ^ 32) with 4294967296 in Hroom.
  assert (take (Z.to_nat (got r + zlen d)) file = take (Z.to_nat (got r)) file ++ d) as Et.
  { replace (Z.to_nat (got r + zlen d)) with (Z.to_nat (got r) + Z.to_nat (zlen d))%nat by lia. rewrite take_sub. f_equal.
    unfold d, part, zlen, sub. rewrite Nat2Z.id. apply take_taken. }
  set (m := put_bytes (cmem cl) (la + got r) d).
  assert (bytes_at m la (take (Z.to_nat (got r + zlen d)) file)) as Hmem.
  { rewrite Et. apply bytes_at_app. assert (zlen (take (Z.to_nat (got r)) file) = got r) as -> by (unfold zlen in *; rewrite length_take; lia).
    split; [|apply put_bytes_at]. eapply bytes_at_ext; [|exact Hb]. intros y Hy. apply put_bytes_outside.
    unfold zlen in *. rewrite length_take in Hy. lia. }
  assert (same_outside la (la + zlen file) m0 m) as Hout
    by (eapply same_outside_trans; [exact Ho|]; eapply same_outside_weaken; [apply put_bytes_outside| |]; lia).
  subst cl'. unfold nfs_store_block. cbn [NetBootFileXferSize Tftp.set_mem].
  rewrite El, Ex, (u32_small (zlen d)), (u32_small (got r + zlen d)), (u32_small (la + got r)) by lia.
  rewrite take_app_length' by (unfold zlen; lia). fold m.
  destruct (Z.ltb_spec (got r) (got r + zlen d)); cbn [cnet cmem NetBootFileXferSize load_addr Tftp.set_mem set_xfer]; split_and!; auto; lia.
Qed.

(** A reply with bytes, as the client takes it apart. *)
Lemma read_reply id d behind s cl : is_u32 id -> rpc_id s = id -> zlen d <= 1024 ->
  nfs_read_reply (rpc_reply id (words [0] ++ attr ++ words [zlen d] ++ d) ++ behind) (NClient cl s) =
    (zlen d, NClient (nfs_store_block cl (d ++ behind) (nfs_offset s) (zlen d)) s).
Proof.
  intros Hi Es Hd. pose proof (zlen_nonneg d). set (res := words [0] ++ attr ++ words [zlen d] ++ d).
  unfold nfs_read_reply. cbn [nst]. rewrite reply_id, reply_accepted by assumption. unfold res at 1. rewrite status_ok. cbn [negb andb].
  assert (s32 (rpc_data (rpc_reply id res ++ behind) 18) = zlen d) as ->.
  { rewrite reply_data. unfold res. rewrite <- !app_assoc, (app_assoc (words [0])). change (4 * 18)%nat with (72 + 0)%nat.
    rewrite get_be32_app by (rewrite length_app, length_words, Lattr; reflexivity). rewrite (get_words [zlen d] _ 0) by (cbn; lia).
    cbn [nth]. rewrite u32_small by (unfold_words; lia). apply s32_small. lia. }
  assert (drop 100 (rpc_reply id res ++ behind) = d ++ behind) as ->; [|reflexivity].
  unfold res, rpc_reply. rewrite <- !app_assoc, (app_assoc attr), (app_assoc (words [0])), (app_assoc (words [_;_;_;_;_;_])).
  apply drop_app_length'. rewrite !length_app, !length_words, Lattr. reflexivity.
Qed.
Lemma nnet_st c f : nnet (set_st f c) = nnet c.
Proof. reflexivity. Qed.

Lemma stage_stored c r c1 : stage c r -> 4 <= r <= 4 + reads -> nsrv (nst c1) = nsrv (nst c) -> nfs_len (nst c1) = nfs_len (nst c) ->
  NetBootFileXferSize (nbase c1) = got (r + 1) -> bytes_at (cmem (nbase c1)) la (take (Z.to_nat (got (r + 1))) file) ->
  same_outside la (la + zlen file) m0 (cmem (nbase c1)) -> nfs_offset (nst c1) = got (r + 1) -> NfsState (nst c1) = state_of (r + 1) ->
  (5 + reads <= r + 1 -> NfsDownloadState (nst c1) = NETLOOP_SUCCESS) ->
  NetState (loop (nnet c1)) = NetState (loop (nnet c)) -> stage c1 (r + 1).
Proof.
  intros G Hr Ev El Ex Hb Ho Eo Es Hd En. destruct (s_file _ _ G) as (F1 & F2 & F3); [lia|].
  constructor; rewrite ?Ev; auto; unfold needed; try lia; intros.
  - apply (s_mport _ _ G). lia.
  - apply (s_nport _ _ G). lia.
  - apply (s_dir _ _ G). lia.
  - split; [exact F1|]. split; [exact Eo|congruence].
  - rewrite En, (s_done _ _ G). unfold needed. rewrite !(proj2 (Z.eqb_neq _ _)) by lia. reflexivity.
Qed.

Lemma handled_read c bud r now behind port : online c bud -> stage c r -> 4 <= r <= 4 + reads ->
  let p := rpc_reply (rpc_id (nst c)) (results r) in
  moves c bud r (nfs_handler stack c now (p ++ behind) 1000 port (zlen p)) now.
Proof.
  intros O G Hr p. pose proof reads_nonneg. set (d := part (got r) 1024). pose proof (got_bounds r) as Hg. pose proof (got_bounds (r + 1)) as Hg1.
  pose proof (got_next r ltac:(lia)) as Hn1. fold d in Hn1. pose proof (reads_left r ltac:(lia)) as Hleft. fold d in Hleft.
  pose proof (zlen_nonneg d) as Hd. assert (zlen d <= 1024) as Hd2 by (unfold d; rewrite length_part by lia; lia).
  destruct (s_file _ _ G) as (Ef & Eo & El); [lia|].
  assert (results r = words [0] ++ attr ++ words [zlen d] ++ d) as Er.
  { unfold results. rewrite !(proj2 (Z.eqb_neq r _)), (proj2 (Z.leb_le _ _)) by lia. reflexivity. }
  pose proof (read_reply (rpc_id (nst c)) d behind (nst c) (nbase c) (o_id _ _ O) eq_refl Hd2) as Ek. rewrite <- Er in Ek. fold p in Ek.
  destruct (store_part (nbase c) r behind) as (S1 & S2 & S3 & S4 & S5); [lia|apply O|apply G|apply G|apply G|]. fold d in S1, S2, S3, S4, S5.
  rewrite Eo in Ek. set (cl := nfs_store_block _ _ _ _) in *.
  assert (online (NClient cl (nst c)) bud) as O1 by (destruct O; constructor; unfold nnet in *; cbn [nbase nst]; rewrite ?S1; auto).
  pose proof (online_timer _ _ now O1) as O2. set (c2 := set_timer now _) in *.
  assert (nbase c2 = set_net cl (NetSetTimeout (cnet cl) now NFS_TIMEOUT NfsTimeout)) as B2 by reflexivity.
  assert (NetState (loop (nnet c2)) = NetState (loop (nnet c))) as Est by (unfold nnet at 1; rewrite B2; cbn [cnet set_net]; rewrite S1; reflexivity).
  pose proof (s_state _ _ G) as Es. unfold state_of in Es. rewrite !(proj2 (Z.eqb_neq r _)), (proj2 (Z.leb_le _ _)) in Es by lia.
  open_handler O Es. assert (c = NClient (nbase c) (nst c)) as Ec by (destruct c; reflexivity). rewrite <- Ec in Ek. rewrite Ek. fold c2.
  destruct (Z.ltb_spec 0 (zlen d)) as [Hpos|Hz].
  - assert (r < 4 + reads) as Hlt by tauto. eexists. split; [|split; [|rewrite not_last by (unfold needed; lia); reflexivity]].
    + apply online_st; [exact O2|reflexivity..].
    + apply (stage_stored c); auto; cbn [nst set_st set_range nfs_offset NfsState]; [|change (NfsState (nst c2)) with (NfsState (nst c))|lia].
      * change (nfs_offset (nst c2)) with (nfs_offset (nst c)). rewrite Eo, Hn1. apply s32_small. change (2 ^ 31) with 2147483648 in Hfile. lia.
      * rewrite Es. unfold state_of. rewrite !(proj2 (Z.eqb_neq (r + 1) _)), (proj2 (Z.leb_le _ _)) by lia. reflexivity.
  - assert (zlen d = 0) as Ez by lia. assert (r = 4 + reads) as Hlast by lia. rewrite Ez in *.
    change (0 =? - NFSERR_ISDIR) with false. change (0 =? - NFSERR_INVAL) with false. cbn [orb Z.eqb].
    eexists. split; [|split; [|rewrite not_last by (unfold needed; lia); reflexivity]].
    + apply (online_st (set_st _ _)); [|reflexivity..]. apply online_st; [exact O2|reflexivity..].
    + apply (stage_stored c); auto; cbn [nst set_st set_nstate set_outcome nfs_offset NfsState].
      * change (nfs_offset (nst c2)) with (nfs_offset (nst c)). rewrite Eo. lia.
      * unfold state_of. rewrite !(proj2 (Z.eqb_neq (r + 1) _)), (proj2 (Z.leb_gt _ _)) by lia. reflexivity.
Qed.

Lemma handled_umount c bud now behind port : online c bud -> stage c (5 + reads) ->
  let p := rpc_reply (rpc_id (nst c)) (results (5 + reads)) in
  moves c bud (5 + reads) (nfs_handler stack c now (p ++ behind) 1000 port (zlen p)) now.
Proof.
  intros O G p. pose proof reads_nonneg. destruct (copy_reply stack p behind) as [x Ex].
  assert (nfs_umountall_reply stack (p ++ behind) (zlen p) (nst c) =
    (0, let v := nsrv (nst c) in set_srv (Srv (NfsSrvMountPort v) (NfsSrvNfsPort v) false (repeat 0 32) (filefh v)) (nst c))) as El.
  { unfold nfs_umountall_reply. rewrite Ex. unfold p. rewrite reply_id, reply_accepted by (apply O || reflexivity). reflexivity. }
  assert (state_of (5 + reads) = STATE_UMOUNT_REQ /\ state_of (5 + reads + 1) = STATE_UMOUNT_REQ) as [E1 E2].
  { unfold state_of. rewrite !(proj2 (Z.eqb_neq _ _)), !(proj2 (Z.leb_gt _ _)) by lia. auto. }
  assert (got (5 + reads + 1) = got (5 + reads)) as Eg by (rewrite !got_all by lia; reflexivity).
  pose proof (s_state _ _ G) as Es. rewrite E1 in Es. open_handler O Es. rewrite El. cbn [negb Z.eqb].
  eexists. split; [|split; [|rewrite (proj2 (Z.ltb_ge _ _)) by (unfold needed; lia); reflexivity]].
  - destruct O. constructor; auto. apply net_ok_set_loop. assumption.
  - pose proof (s_outcome _ _ G ltac:(lia)) as Eo. next_stage G El Eg.
    + rewrite E2. exact Es.
    + intros _. apply s_file0. lia.
    + rewrite (proj2 (Z.eqb_eq _ _)) by lia. exact Eo.
Qed.

(** Every answer moves the client one stage on. *)
Lemma handled c bud r now behind port : online c bud -> stage c r -> 0 <= r < needed ->
  let p := rpc_reply (rpc_id (nst c)) (results r) in
  moves c bud r (nfs_handler stack c now (p ++ behind) 1000 port (zlen p)) now.
Proof.
  intros O G Hr. unfold needed in Hr. destruct (Z.le_gt_cases r 1); [apply handled_port; auto; lia|].
  destruct (Z.eq_dec r 2) as [-> | H2]; [apply handled_mount; assumption|]. destruct (Z.eq_dec r 3) as [-> | H3]; [apply handled_lookup; assumption|].
  destruct (Z.le_gt_cases r (4 + reads)); [apply handled_read; auto; lia|].
  assert (r = 5 + reads) as -> by lia. apply handled_umount; assumption.
Qed.

(** After [r] answers, [budget] timeouts left: the client is there, and the server has its request. *)
Definition there (cr : nclient * list Z) (bud r : Z) : Prop :=
  online (fst cr) bud /\ stage (fst cr) r /\ (r < needed -> snd cr = request (nst (fst cr))).

Lemma answered cr bud r id port behind now : there cr bud r -> 0 <= r < needed -> there (happens cr (Answer id port behind, now)) bud (r + 1).
Proof.
  intros (O & G & Q) Hr. destruct cr as [c req]. cbn [fst snd] in *. specialize (Q ltac:(lia)). subst req.
  pose proof (serve_request c bud r O G Hr) as Es. pose proof (length_results r) as Lr.
  assert (zlen (rpc_reply (rpc_id (nst c)) (results r)) = 24 + zlen (results r)) as Lp
    by (unfold rpc_reply; rewrite zlen_app; unfold zlen at 1; rewrite length_words; reflexivity).
  rewrite (answer_arrives c bud) by (try exact O; rewrite Es; lia). rewrite Es.
  destruct (handled c bud r now behind (u16 port) O G Hr) as (c1 & O1 & G1 & ->). destruct (Z.ltb_spec (r + 1) needed).
  - pose proof (send_stage c1 bud (r + 1) now O1 G1 ltac:(lia)) as S. destruct (NfsSend c1 now) as [c' out]. destruct S as (S1 & S2 & S3).
    split; [exact S1|]. split; [exact S2|]. intros _. apply S3.
  - split; [exact O1|]. split; [exact G1|]. intros. lia.
Qed.
Lemma online_weaken c b b' : online c b -> 0 <= b' <= b -> online c b'.
Proof. intros [] H. constructor; auto. lia. Qed.

Lemma stage_timer c r k now : stage c r ->
  stage (set_timer now (set_st (set_timeouts k) (set_base (fun b => set_net b (NetSetTimeout (cnet b) now 0 NfsTimeout)) c))) r.
Proof. intros []. constructor; auto. Qed.

Lemma turned cr bud r now : there cr (bud + 1) r -> 0 <= bud -> 0 <= r < needed -> there (happens cr (Turn, now)) bud r.
Proof.
  intros (O & G & Q) Hb Hr. destruct cr as [c req]. cbn [fst snd] in *. unfold happens, nfs_tick, ArpTimeoutCheck. cbn [fst snd].
  rewrite (o_arp _ _ O). cbn [Z.eqb]. assert (set_base (fun b => set_net b (nnet c)) c = c) as -> by (destruct c as [[] ?]; reflexivity).
  pose proof (online_weaken _ _ bud O ltac:(lia)) as O'. unfold nfs_run_timeout.
  destruct (o_timer _ _ O) as [E|E]; rewrite E; [split; [exact O'|split; assumption]|].
  destruct (timeDelta _ <? _); [|split; [exact O'|split; assumption]].
  unfold nfs_timeout. destruct (o_count _ _ O) as (_ & Hc0 & Hc). unfold NFS_RETRY_COUNT in Hc.
  pose proof (online_wait c (bud + 1) now 0 O) as O1. set (c1 := set_base _ c) in *.
  change (NfsTimeoutCount (nst c1)) with (NfsTimeoutCount (nst c)). rewrite s32_small by (change (2 ^ 31) with 2147483648; lia).
  cbn [nst set_st NfsTimeoutCount set_timeouts]. rewrite (proj2 (Z.ltb_ge _ _)) by (unfold NFS_RETRY_COUNT; lia).
  set (c2 := set_st _ c1). assert (online c2 bud) as O2.
  { destruct O1. subst c2. constructor; auto. cbn [nst set_st NfsTimeoutCount set_timeouts]. unfold NFS_RETRY_COUNT. lia. }
  pose proof (online_timer c2 bud now O2) as O3.
  assert (stage (set_timer now c2) r) as G3 by (apply stage_timer, G).
  pose proof (send_stage _ bud r now O3 G3 Hr) as S. destruct (NfsSend _ now) as [c' out]. destruct S as (S1 & S2 & S3).
  split; [exact S1|]. split; [exact S2|]. intros _. apply S3.
Qed.

Lemma stage_running c r : stage c r -> 0 <= r <= needed -> (NetState (loop (nnet c)) =? NETLOOP_CONTINUE) = (r <? needed).
Proof.
  intros G Hr. rewrite (s_done _ _ G). destruct (Z.eqb_spec r needed), (Z.ltb_spec r needed); try lia; reflexivity.
Qed.
Lemma runs es : forall cr r, there cr (turns es) r -> 0 <= r <= needed -> needed - r <= answers es -> stage (fst (run_all cr es)) needed.
Proof.
  induction es as [|[e now] es IH]; intros cr r T Hr Ha.
  { change (answers []) with 0 in Ha. assert (r = needed) as <- by lia. apply T. }
  cbn [run_all]. rewrite (stage_running _ r) by (apply T || lia). destruct (Z.ltb_spec r needed) as [Hlt|]; [|assert (r = needed) as <- by lia; apply T].
  pose proof (zlen_nonneg (List.filter (fun e => match fst e with Answer _ _ _ => false | Turn => true end) es)) as Ht.
  destruct e as [id port behind|].
  - apply (IH _ (r + 1)); [apply answered; [exact T|lia]|lia|].
    assert (answers ((Answer id port behind, now) :: es) = 1 + answers es) by (unfold answers; cbn [List.filter fst]; rewrite zlen_cons; lia). lia.
  - apply (IH _ r); [|lia|exact Ha]. apply turned; [|exact Ht|lia].
    assert (turns ((Turn, now) :: es) = 1 + turns es) as Et by (unfold turns; cbn [List.filter fst]; rewrite zlen_cons; lia).
    rewrite Et, Z.add_comm in T. exact T.
Qed.

End run.
End server.

Definition ex_nfs : nfs := Nfs (Where 0 0 0 (fun _ => 0)) (Srv 0 0 false (repeat 0 32) (repeat 0 32)) 0 (-1) 0 0 0 0.
Definition ex_nstarted : nclient := fst (NfsStart (NClient ex_client ex_nfs) 10 (str "/srv/boot/kernel")).
Definition ex_nasked : nclient := fst (nfs_rx [] ex_nstarted 80 ex_arp_answer 42).
Definition ex_dh : list Z := repeat 1 32.
Definition ex_fh : list Z := repeat 2 32.
Definition ex_attr : list Z := repeat 0 68.
Definition ex_nfile : list Z := map (fun i => u8 (Z.of_nat i)) (seq 0 1100).
Definition ex_answers : list (event * Z) :=
  [(Answer 1 111 [], 90); (Turn, 5000); (Answer 2 111 [7; 7], 5010); (Answer 3 700 [], 5020); (Answer 4 2049 [], 5030);
   (Answer 5 2049 [], 5040); (Turn, 9000); (Answer 6 2049 [1], 9010); (Answer 7 2049 [], 9020); (Answer 8 700 [], 9030)].


(** ** What the client does not check *)

(** The answer to a port request is taken for one whatever it says: with another call's number the port stays what it was, and the client
    goes on to the next request all the same. *)
Lemma port_answer_unchecked stack c now pkt src len :
  NfsState (nst c) = STATE_PRCLOOKUP_PROG_MOUNT_REQ -> rpc_id_ok (nst c) (rpc_copy stack pkt len) = false ->
  nfs_handler stack c now pkt (u32 (NfsOurPort (nwhere (nst c)))) src len = enter STATE_PRCLOOKUP_PROG_NFS_REQ c now.
Proof.
  intros Es Hi. unfold nfs_handler. rewrite Z.eqb_refl, Es. change (STATE_PRCLOOKUP_PROG_MOUNT_REQ =? STATE_PRCLOOKUP_PROG_MOUNT_REQ) with true.
  cbn [negb]. unfold enter, set_st, rpc_lookup_reply. rewrite Hi. reflexivity.
Qed.
(** A second answer to a read, which carries the number of a call that is over, ends the download: the server is asked to unmount
    and the outcome stays the failure it started with. *)
Lemma late_answer_aborts stack c now pkt src len :
  NfsState (nst c) = STATE_READ_REQ -> rpc_id_ok (nst c) pkt = false ->
  nfs_handler stack c now pkt (u32 (NfsOurPort (nwhere (nst c)))) src len = enter STATE_UMOUNT_REQ (set_timer now c) now.
Proof.
  intros Es Hi. unfold nfs_handler. rewrite Z.eqb_refl, Es. cbn [negb Z.eqb Pos.eqb STATE_PRCLOOKUP_PROG_MOUNT_REQ STATE_PRCLOOKUP_PROG_NFS_REQ
    STATE_MOUNT_REQ STATE_UMOUNT_REQ STATE_LOOKUP_REQ STATE_READ_REQ STATE_READLINK_REQ].
  unfold nfs_read_reply. rewrite Hi. reflexivity.
Qed.
(** When the server refuses the mount, the client enters the state that asks for the unmounting but sends nothing, as nothing is mounted:
    the loop turns until the timeouts are used up. *)
Lemma refused_mount_is_silent stack c now pkt src len :
  NfsState (nst c) = STATE_MOUNT_REQ -> fs_mounted (nsrv (nst c)) = false -> fst (nfs_mount_reply stack pkt len (nst c)) = -1 ->
  snd (nfs_handler stack c now pkt (u32 (NfsOurPort (nwhere (nst c)))) src len) = [].
Proof.
  intros Es Hf Hr. unfold nfs_handler. rewrite Z.eqb_refl, Es. cbn [negb Z.eqb Pos.eqb STATE_PRCLOOKUP_PROG_MOUNT_REQ STATE_PRCLOOKUP_PROG_NFS_REQ
    STATE_MOUNT_REQ]. unfold nfs_mount_reply in *. destruct (negb (rpc_id_ok _ _)); [|destruct (negb _); [|discriminate Hr]];
    unfold enter, NfsSend, set_st, set_nstate, nfs_umountall_req; cbn; rewrite Hf, orb_true_r; reflexivity.
Qed.
(** Without a slash in the path, the file's name starts one byte before the path, and the directory's terminator is written two
    before it. *)
Lemma path_without_slash : basename (put_bytes (fun _ => 7) 0 (str "kernel" ++ [0])) = -1 /\
  dirname (put_bytes (fun _ => 7) 0 (str "kernel" ++ [0])) (-2) = 0.
Proof. vm_compute. auto. Qed.
(** The number of bytes a read brought is what the answer says, whatever was asked for and however long the answer is: here 3000, behind an answer
    that ends after the number. *)
Definition ex_bold_answer : list Z := rpc_reply (rpc_id ex_nfs) (words [0] ++ ex_attr ++ words [3000]).
Lemma read_length_unchecked :
  zlen ex_bold_answer = 100 /\
  let '(r, c) := nfs_read_reply (ex_bold_answer ++ repeat 9 3000) (NClient ex_client (set_range 0 1024 ex_nfs)) in
  r = 3000 /\ NetBootFileXferSize (nbase c) = 3000 /\ cmem (nbase c) (0x1000000 + 2999) = 9.
Proof. vm_compute. auto. Qed.
