(* ===== verification/Bootp.v ===== *)
(** * BOOTP and RARP (net/bootp.c, net/rarp.c), and the boot commands over them

    The two protocols find the addresses of a host that knows only its Ethernet
    address; a good answer hands over to the file transfer of [Tftp] or [Nfs]
    inside the same loop.  The file closes with the loop's dispatch over
    all protocols (net/net.c) and what common/cmd_net.c does around it. *)

From S2P Require Import Prelude CMem Strto Vsprintf Bytes Env Mac Net Tftp Nfs.

(** ** Constants *)

Definition BOOTP_VENDOR_MAGIC : Z := 0x63825363.
Definition TIMEOUT : Z := 5000.
Definition TIMEOUT_COUNT : Z := 5.
Definition SELECT_TIMEOUT : Z := 3000.
Definition PORT_BOOTPS : Z := 67.
Definition PORT_BOOTPC : Z := 68.
Definition OPT_SIZE : Z := 64.
Definition BOOTP_HDR_SIZE : Z := 300.
Definition OP_BOOTREQUEST : Z := 1.
Definition OP_BOOTREPLY : Z := 2.
Definition DHCP_OFFER : Z := 2.
Definition DHCP_ACK : Z := 5.
Definition DHCP_NAK : Z := 6.
Definition HWT_ETHER : Z := 1.
Definition HWL_ETHER : Z := 6.
Definition RARPOP_REQUEST : Z := 3.
Definition PKTSIZE : nat := 1518.

(** ** State *)

(** What the protocols find out (net.c), and their own variables. *)
Record bootp := Boot {
  BootFile : list Z;
  NetBootFileSize : Z;
  NetOurDNSIP : Z;
  NetOurHostName : list Z;
  NetOurRootPath : list Z;
  NetOurNISDomain : list Z;
  BootpID : Z; BootpTry : Z; RarpTry : Z
}.
Record pclient := PClient { pn : nclient; pb : bootp }.

Definition set_file (f : list Z) (b : bootp) : bootp :=
  Boot f (NetBootFileSize b) (NetOurDNSIP b) (NetOurHostName b) (NetOurRootPath b) (NetOurNISDomain b) (BootpID b) (BootpTry b) (RarpTry b).
Definition set_size (z : Z) (b : bootp) : bootp :=
  Boot (BootFile b) z (NetOurDNSIP b) (NetOurHostName b) (NetOurRootPath b) (NetOurNISDomain b) (BootpID b) (BootpTry b) (RarpTry b).
Definition set_dns (z : Z) (b : bootp) : bootp :=
  Boot (BootFile b) (NetBootFileSize b) z (NetOurHostName b) (NetOurRootPath b) (NetOurNISDomain b) (BootpID b) (BootpTry b) (RarpTry b).
Definition set_host (t : list Z) (b : bootp) : bootp :=
  Boot (BootFile b) (NetBootFileSize b) (NetOurDNSIP b) t (NetOurRootPath b) (NetOurNISDomain b) (BootpID b) (BootpTry b) (RarpTry b).
Definition set_root (t : list Z) (b : bootp) : bootp :=
  Boot (BootFile b) (NetBootFileSize b) (NetOurDNSIP b) (NetOurHostName b) t (NetOurNISDomain b) (BootpID b) (BootpTry b) (RarpTry b).
Definition set_nis (t : list Z) (b : bootp) : bootp :=
  Boot (BootFile b) (NetBootFileSize b) (NetOurDNSIP b) (NetOurHostName b) (NetOurRootPath b) t (BootpID b) (BootpTry b) (RarpTry b).
Definition set_request (id try_ : Z) (b : bootp) : bootp :=
  Boot (BootFile b) (NetBootFileSize b) (NetOurDNSIP b) (NetOurHostName b) (NetOurRootPath b) (NetOurNISDomain b) id try_ (RarpTry b).
Definition set_rarp (try_ : Z) (b : bootp) : bootp :=
  Boot (BootFile b) (NetBootFileSize b) (NetOurDNSIP b) (NetOurHostName b) (NetOurRootPath b) (NetOurNISDomain b) (BootpID b) (BootpTry b) try_.

Definition pnet (c : pclient) : net := nnet (pn c).
Definition pbase (c : pclient) : client := nbase (pn c).
Definition set_pbase (f : client -> client) (c : pclient) : pclient := PClient (Nfs.set_base f (pn c)) (pb c).
Definition set_pnet (n : net) (c : pclient) : pclient := set_pbase (fun b => set_net b n) c.
Definition set_boot (f : bootp -> bootp) (c : pclient) : pclient := PClient (pn c) (f (pb c)).

(** The addresses of [net_cfg], one at a time. *)
Definition set_ip (ip : Z) (g : net_cfg) : net_cfg :=
  NetCfg ip (NetServerIP g) (NetOurSubnetMask g) (NetOurGatewayIP g) (NetOurEther g) (NetOurVLAN g) (NetOurNativeVLAN g).
Definition set_server (ip : Z) (g : net_cfg) : net_cfg :=
  NetCfg (NetOurIP g) ip (NetOurSubnetMask g) (NetOurGatewayIP g) (NetOurEther g) (NetOurVLAN g) (NetOurNativeVLAN g).
Definition set_mask (ip : Z) (g : net_cfg) : net_cfg :=
  NetCfg (NetOurIP g) (NetServerIP g) ip (NetOurGatewayIP g) (NetOurEther g) (NetOurVLAN g) (NetOurNativeVLAN g).
Definition set_gateway (ip : Z) (g : net_cfg) : net_cfg :=
  NetCfg (NetOurIP g) (NetServerIP g) (NetOurSubnetMask g) ip (NetOurEther g) (NetOurVLAN g) (NetOurNativeVLAN g).

(** A string in a buffer. *)
Fixpoint text_of (l : list Z) : list Z := match l with [] => [] | c :: l => if c =? 0 then [] else c :: text_of l end.

(** ** The reply *)

Definition BootpCheckPkt (id : Z) (pkt : list Z) (dest src len : Z) : Z :=
  let op := get8 pkt 0 in
  if negb (dest =? PORT_BOOTPC) || negb (src =? PORT_BOOTPS) then -1
  else if len <? BOOTP_HDR_SIZE - OPT_SIZE then -2
  else if negb (op =? OP_BOOTREQUEST) && negb (op =? OP_BOOTREPLY) && negb (op =? DHCP_OFFER) && negb (op =? DHCP_ACK) && negb (op =? DHCP_NAK) then -3
  else if negb (get8 pkt 1 =? HWT_ETHER) then -4
  else if negb (get8 pkt 2 =? HWL_ETHER) then -5
  else if negb (get_be32 pkt 4 =? id) then -6
  else 0.

(** [frame] is the received frame, [pkt] the message in it. *)
Definition BootpCopyNetParams (frame pkt : list Z) (c : pclient) : pclient * list action :=
  let n := pnet c in
  let g := set_ip (get_be32 pkt 16) (cfg n) in
  let tmp_ip := get_be32 pkt 20 in
  let g := if negb (tmp_ip =? 0) then set_server tmp_ip g else g in
  let n := set_server_ether (set_cfg n g) (sub frame 6 6) in
  let file := text_of (drop 108 pkt) in
  let c := set_pnet n c in
  let c := if 0 <? zlen file then set_boot (set_file (copy_filename file 128)) c else c in
  (c, match BootFile (pb c) with [] => [] | f => [SetEnv (str "bootfile") f] end).

Definition truncate_sz (maxlen curlen : Z) : Z := if maxlen <=? curlen then maxlen - 1 else curlen.

(** One option: its number, its length, its data. *)
Definition BootpVendorFieldProcess (ext : list Z) (gb : net_cfg * bootp) : net_cfg * bootp :=
  let '(g, b) := gb in
  let size := get8 ext 1 in
  let b := set_size 0 b in
  let ip := get_be32 ext 2 in
  let text maxlen := sub ext 2 (Z.to_nat (truncate_sz maxlen size)) in
  let opt := get8 ext 0 in
  if opt =? 1 then (if NetOurSubnetMask g =? 0 then set_mask ip g else g, b)
  else if opt =? 3 then (if NetOurGatewayIP g =? 0 then set_gateway ip g else g, b)
  else if opt =? 6 then (g, if NetOurDNSIP b =? 0 then set_dns ip b else b)
  else if opt =? 12 then (g, if cur (NetOurHostName b) =? 0 then set_host (text 32) b else b)
  else if opt =? 13 then
    (g, if size =? 2 then set_size (get16 ext 2) b else if size =? 4 then set_size (u16 ip) b else b)
  else if opt =? 17 then (g, if cur (NetOurRootPath b) =? 0 then set_root (text 64) b else b)
  else if opt =? 40 then (g, if cur (NetOurNISDomain b) =? 0 then set_nis (text 32) b else b)
  else (g, b).

(** [left] is end - ext. *)
Fixpoint vendor_loop (fuel : nat) (ext : list Z) (left : Z) (gb : net_cfg * bootp) : net_cfg * bootp :=
  match fuel with
  | O => gb
  | S fuel =>
      if (0 <? left) && negb (get8 ext 0 =? 0xff) then
        if get8 ext 0 =? 0 then vendor_loop fuel (tl ext) (left - 1) gb
        else
          let step := get8 ext 1 + 2 in
          vendor_loop fuel (drop (Z.to_nat step) ext) (left - step)
            (if 0 <=? left - step then BootpVendorFieldProcess ext gb else gb)
      else gb
  end.
Definition BootpVendorProcess (ext : list Z) (size : Z) : net_cfg * bootp -> net_cfg * bootp := vendor_loop (Z.to_nat size) ext size.

Section environment.
Context (getenv : list Z -> option (list Z)) (eth_names : list (list Z)).

Definition start_tftp (c : pclient) (now : Z) : pclient * list action :=
  let '(b, out) := TftpStart getenv (pbase c) now (BootFile (pb c)) Tftp.TIMEOUT_COUNT in (set_pbase (fun _ => b) c, out).
Definition start_nfs (c : pclient) (now : Z) : pclient * list action :=
  let '(n, out) := NfsStart (pn c) now (BootFile (pb c)) in (PClient n (pb c), out).
(** After the addresses: nothing, NFS or TFTP, as autoload says. *)
Definition autoload (c : pclient) (now : Z) : pclient * list action :=
  match getenv (str "autoload") with
  | Some s =>
      if cur s =? chr "n" then (set_pnet (set_state (pnet c) NETLOOP_SUCCESS) c, [])
      else if decide (s = str "NFS") then start_nfs c now
      else start_tftp c now
  | None => start_tftp c now
  end.

Definition bootp_handler (c : pclient) (now : Z) (frame pkt : list Z) (dest src len : Z) : pclient * list action :=
  if negb (BootpCheckPkt (BootpID (pb c)) pkt dest src len =? 0) then (c, [])
  else
    let '(c, out) := BootpCopyNetParams frame pkt c in
    let c :=
      if get_be32 pkt 236 =? BOOTP_VENDOR_MAGIC then
        let '(g, b) := BootpVendorProcess (drop 240 pkt) len (cfg (pnet c), pb c) in
        set_boot (fun _ => b) (set_pnet (set_cfg (pnet c) g) c)
      else c in
    let c := set_pnet (NetSetTimeout (pnet c) now 0 BootpTimeout) c in
    let '(c, out') := autoload c now in
    (c, out ++ out').

(** ** The request *)

(** Subnet mask, gateway, host name, boot file size and boot path are asked for. *)
Definition BootpExtended : list Z :=
  [99; 130; 83; 99] ++ [1; 4] ++ repeat 0 4 ++ [3; 4] ++ repeat 0 4 ++ [12; 32] ++ repeat 0 32 ++ [13; 2] ++ repeat 0 2 ++
  [17; 32] ++ repeat 0 32 ++ [255].
Definition pad_to (k : nat) (l : list Z) : list Z := l ++ repeat 0 (k - List.length l).
Definition bootp_message (id secs : Z) (ether file : list Z) : list Z :=
  [OP_BOOTREQUEST; HWT_ETHER; HWL_ETHER; 0] ++ put_be32 id ++ put16 secs ++ repeat 0 18 ++ pad_to 16 ether ++ repeat 0 64 ++
  pad_to 128 (copy_filename file 128) ++ BootpExtended.

Definition BootpRequest (c : pclient) (now : Z) : pclient * list action :=
  let n := pnet c in
  let e := NetOurEther (cfg n) in
  let tx := write_at (NetTxPacket n) 0 (repeat 0 PKTSIZE) in
  let '(tx, size) := NetSetEther n tx 0 NetBcastAddr PROT_IP in
  let id := u32 (get_be32 e 2 + now) in
  let msg := bootp_message id (u16 (now / 1000)) e (BootFile (pb c)) in
  let tx := write_at tx (Z.to_nat (size + IP_HDR_SIZE)) msg in
  let iplen := BOOTP_HDR_SIZE - OPT_SIZE + zlen BootpExtended in
  let '(n, tx) := NetSetIP n tx (Z.to_nat size) 0xFFFFFFFF PORT_BOOTPS PORT_BOOTPC iplen in
  let n := NetSetHandler (NetSetTimeout (set_tx n tx) now SELECT_TIMEOUT BootpTimeout) BootpHandler in
  (set_boot (fun b => set_request id (s32 (BootpTry b + 1)) b) (set_pnet n c), [EthSend (take (Z.to_nat (size + IP_HDR_SIZE + iplen)) tx)]).

Definition start_again_p (c : pclient) (now : Z) : pclient * list action :=
  let '(n, out) := NetStartAgain getenv eth_names (pnet c) now in (set_pnet n c, out).
Definition bootp_timeout (c : pclient) (now : Z) : pclient * list action :=
  if TIMEOUT_COUNT <=? BootpTry (pb c) then start_again_p c now
  else BootpRequest (set_pnet (NetSetTimeout (pnet c) now TIMEOUT BootpTimeout) c) now.

(** ** RARP *)

Definition rarp_handler (c : pclient) (now : Z) : pclient * list action := autoload c now.
Definition RarpRequest (c : pclient) (now : Z) : pclient * list action :=
  let n := pnet c in
  let e := NetOurEther (cfg n) in
  let '(tx, size) := NetSetEther n (NetTxPacket n) 0 NetBcastAddr PROT_RARP in
  let tx := write_at tx (Z.to_nat size) (arp_packet RARPOP_REQUEST e (NetOurIP (cfg n)) e 0xFFFFFFFF) in
  let out := [EthSend (take (Z.to_nat (size + ARP_HDR_SIZE)) tx)] in
  let n := NetSetHandler (NetSetTimeout (set_tx n tx) now TIMEOUT RarpTimeout) RarpHandler in
  (set_boot (fun b => set_rarp (s32 (RarpTry b + 1)) b) (set_pnet n c), out).
Definition rarp_timeout (c : pclient) (now : Z) : pclient * list action :=
  if TIMEOUT_COUNT <=? RarpTry (pb c) then start_again_p c now
  else RarpRequest (set_pnet (NetSetTimeout (pnet c) now TIMEOUT RarpTimeout) c) now.

(** ** The loop over all protocols *)

Inductive proto_t := TFTP | BOOTP | RARP | NFS.
(** switch (protocol) of NetLoop: the first request. *)
Definition proto_start (p : proto_t) (c : pclient) (now : Z) : pclient * list action :=
  let unaddressed c := set_pnet (set_cfg (pnet c) (set_ip 0 (cfg (pnet c)))) c in
  let '(c, out) :=
    match p with
    | TFTP => start_tftp c now
    | BOOTP => BootpRequest (set_boot (fun b => set_request (BootpID b) 0 b) (unaddressed c)) now
    | RARP => RarpRequest (set_boot (set_rarp 0) (unaddressed c)) now
    | NFS => start_nfs c now
    end in
  (set_pbase (fun b => set_xfer b 0) c, out).

Section dispatch.
Context (stack : list Z).
(** A received frame: the handler that is installed. *)
Definition proto_rx (c : pclient) (now : Z) (inpkt : list Z) (len : Z) : pclient * list action :=
  let '(n, out, call) := NetReceive (pnet c) inpkt len in
  let c := set_pnet n c in
  match call with
  | None => (c, out)
  | Some r =>
      let '(c, out') :=
        match packetHandler (loop n) with
        | TftpHandler =>
            let '(b, out') := tftp_handler getenv eth_names (pbase c) now (rx_pkt r) (rx_dest r) (rx_src r) (rx_len r) in (set_pbase (fun _ => b) c, out')
        | NfsHandler =>
            let '(nc, out') := nfs_handler stack (pn c) now (rx_pkt r) (rx_dest r) (rx_src r) (rx_len r) in (PClient nc (pb c), out')
        | BootpHandler => bootp_handler c now inpkt (rx_pkt r) (rx_dest r) (rx_src r) (rx_len r)
        | RarpHandler => rarp_handler c now
        | startAgainHandler | rx_none => (c, [])
        end in
      (c, out ++ out')
  end.
(** The ARP timer and the timer that is installed. *)
Definition proto_timeout (c : pclient) (now : Z) : pclient * list action :=
  let l := loop (pnet c) in
  match timeHandler l with
  | None => (c, [])
  | Some h =>
      if timeDelta l <? u32 (now - timeStart l) then
        let c := set_pnet (NetSetTimeout (pnet c) now 0 h) c in
        match h with
        | startAgainTimeout => (set_pnet (set_state (pnet c) NETLOOP_RESTART) c, [])
        | TftpTimeout => let '(b, out) := tftp_timeout getenv eth_names (pbase c) now in (set_pbase (fun _ => b) c, out)
        | NfsTimeout => let '(nc, out) := nfs_timeout getenv eth_names (pn c) now in (PClient nc (pb c), out)
        | BootpTimeout => bootp_timeout c now
        | RarpTimeout => rarp_timeout c now
        end
      else (c, [])
  end.
Definition proto_tick (c : pclient) (now : Z) : pclient * list action :=
  let '(n, out) := ArpTimeoutCheck getenv eth_names (pnet c) now in
  let '(c, out') := proto_timeout (set_pnet n c) now in
  (c, out ++ out').
End dispatch.
End environment.

(** ** The commands *)

(** The addresses that were found, as variables. *)
Definition netboot_update_env (c : pclient) : list action :=
  let g := cfg (pnet c) in
  let b := pb c in
  let ip name v := if v =? 0 then [] else match ip_to_string v with Some t => [SetEnv name t] | None => [] end in
  let text name t := if cur t =? 0 then [] else [SetEnv name (text_of t)] in
  ip (str "gatewayip") (NetOurGatewayIP g) ++ ip (str "netmask") (NetOurSubnetMask g) ++ text (str "hostname") (NetOurHostName b) ++ text (str "rootpath") (NetOurRootPath b) ++
  ip (str "ipaddr") (NetOurIP g) ++ ip (str "serverip") (NetServerIP g) ++ ip (str "dnsip") (NetOurDNSIP b) ++ text (str "domain") (NetOurNISDomain b).

(** The words of a boot command: load address and boot file; [None] prints the usage. *)
Definition netboot_args (getenv : list Z -> option (list Z)) (argv : list (list Z)) (load_addr : Z) (file : list Z) : option (Z * list Z) :=
  let load_addr := match getenv (str "loadaddr") with Some s => fst (simple_strtoul s 16) | None => load_addr end in
  match argv with
  | [_] => Some (load_addr, file)
  | [_; a] => let '(addr, end_) := simple_strtoul a 16 in if decide (end_ = []) then Some (addr, file) else Some (load_addr, copy_filename a 128)
  | [_; a; f] => Some (fst (simple_strtoul a 16), copy_filename f 128)
  | _ => None
  end.

(** * Properties *)

(** ** Options *)

(** An option as a server writes it: RFC 1048. *)
Definition encode_option (o : Z * list Z) : list Z := fst o :: zlen (snd o) :: snd o.
Definition option_ok (o : Z * list Z) : Prop :=
  0 < fst o < 255 /\ zlen (snd o) < 256 /\ (fst o = 1 \/ fst o = 3 \/ fst o = 6 -> 4 <= zlen (snd o)).
(** What an option tells: the first value given to an address or a name stays. *)
Definition learn (gb : net_cfg * bootp) (o : Z * list Z) : net_cfg * bootp :=
  let '(g, b) := gb in
  let '(code, data) := o in
  let b := set_size 0 b in
  let text maxlen := take (Z.to_nat (maxlen - 1)) data in
  if code =? 1 then (if NetOurSubnetMask g =? 0 then set_mask (get_be32 data 0) g else g, b)
  else if code =? 3 then (if NetOurGatewayIP g =? 0 then set_gateway (get_be32 data 0) g else g, b)
  else if code =? 6 then (g, if NetOurDNSIP b =? 0 then set_dns (get_be32 data 0) b else b)
  else if code =? 12 then (g, if cur (NetOurHostName b) =? 0 then set_host (text 32) b else b)
  else if code =? 13 then
    (g, if zlen data =? 2 then set_size (get16 data 0) b else if zlen data =? 4 then set_size (u16 (get_be32 data 0)) b else b)
  else if code =? 17 then (g, if cur (NetOurRootPath b) =? 0 then set_root (text 64) b else b)
  else if code =? 40 then (g, if cur (NetOurNISDomain b) =? 0 then set_nis (text 32) b else b)
  else (g, b).

Lemma option_word data x y r : 4 <= zlen data -> get_be32 (x :: y :: data ++ r) 2 = get_be32 data 0.
Proof. destruct data as [|a [|b [|c [|d data]]]]; unfold zlen; cbn [List.length]; try lia. reflexivity. Qed.
Lemma option_half data x y r : zlen data = 2 -> get16 (x :: y :: data ++ r) 2 = get16 data 0.
Proof. destruct data as [|a [|b [|c data]]]; unfold zlen; cbn [List.length]; try lia. reflexivity. Qed.
Lemma option_text data x y r k : 0 < k -> sub (x :: y :: data ++ r) 2 (Z.to_nat (truncate_sz k (zlen data))) = take (Z.to_nat (k - 1)) data.
Proof.
  intros Hk. unfold sub, truncate_sz. cbn [drop]. rewrite drop_0. destruct (Z.leb_spec k (zlen data)) as [H|H]; unfold zlen in *.
  - apply take_app_le. lia.
  - rewrite Nat2Z.id, take_app_length, take_ge by lia. reflexivity.
Qed.
Lemma field_learn o r gb : option_ok o -> BootpVendorFieldProcess (encode_option o ++ r) gb = learn gb o.
Proof.
  destruct o as [code data], gb as [g b]. intros (Hc & Hl & H4). cbn [fst snd] in *. unfold BootpVendorFieldProcess, learn, encode_option. cbn [fst snd app].
  change (get8 (code :: zlen data :: data ++ r) 0) with code. change (get8 (code :: zlen data :: data ++ r) 1) with (zlen data).
  rewrite !option_text by lia.
  destruct (Z.eqb_spec code 1); [rewrite option_word by auto; reflexivity|]. destruct (Z.eqb_spec code 3); [rewrite option_word by auto; reflexivity|].
  destruct (Z.eqb_spec code 6); [rewrite option_word by auto; reflexivity|]. destruct (Z.eqb_spec code 12); [reflexivity|].
  destruct (Z.eqb_spec code 13); [|reflexivity]. destruct (Z.eqb_spec (zlen data) 2); [rewrite option_half by assumption; reflexivity|].
  destruct (Z.eqb_spec (zlen data) 4); [rewrite option_word by lia; reflexivity|reflexivity].
Qed.
(** The walk over the vendor area learns every option up to the end mark. *)
Lemma vendor_learns opts r fuel left gb : Forall option_ok opts -> zlen (concat (map encode_option opts)) < left -> (List.length opts < fuel)%nat ->
  vendor_loop fuel (concat (map encode_option opts) ++ [255] ++ r) left gb = fold_left learn opts gb.
Proof.
  intros H. revert fuel left gb. induction H as [|o opts Ho _ IH]; intros fuel left gb Hl Hf; (destruct fuel as [|fuel]; [lia|]).
  - cbn [map concat app] in *. change (zlen []) with 0 in Hl. cbn [vendor_loop]. rewrite (proj2 (Z.ltb_lt 0 left)) by lia. reflexivity.
  - cbn [map concat fold_left List.length] in *. rewrite zlen_app in Hl. rewrite <- app_assoc.
    pose proof (zlen_nonneg (concat (map encode_option opts))). pose proof (zlen_nonneg (snd o)).
    assert (zlen (encode_option o) = zlen (snd o) + 2) as Le by (unfold encode_option; rewrite !zlen_cons; lia).
    set (t := concat (map encode_option opts) ++ [255] ++ r) in *. cbn [vendor_loop]. rewrite (proj2 (Z.ltb_lt 0 left)) by lia.
    change (get8 (encode_option o ++ t) 0) with (fst o). change (get8 (encode_option o ++ t) 1) with (zlen (snd o)).
    destruct Ho as (Hc & Hd & H4). rewrite (proj2 (Z.eqb_neq (fst o) 0xff)), (proj2 (Z.eqb_neq (fst o) 0)) by lia. cbn [negb andb].
    rewrite (proj2 (Z.leb_le _ _)) by lia. rewrite field_learn by (split; [exact Hc|split; assumption]).
    rewrite drop_app_length' by (unfold zlen in *; lia). apply IH; lia.
Qed.

(** ** An exchange *)

Record bootp_server := Server { yiaddr : Z; siaddr : Z; bfile : list Z; options : list (Z * list Z) }.
Record server_ok (s : bootp_server) : Prop := {
  sv_yi : is_u32 (yiaddr s);
  sv_si : is_u32 (siaddr s);
  sv_file : Forall (fun c => c <> 0) (bfile s) /\ zlen (bfile s) < 128;
  sv_options : Forall option_ok (options s) /\ zlen (concat (map encode_option (options s))) <= 1000
}.
(** The answer to a request: RFC 951. *)
Definition bootp_reply (s : bootp_server) (req : list Z) : list Z :=
  [OP_BOOTREPLY; HWT_ETHER; HWL_ETHER; 0] ++ sub req 4 4 ++ repeat 0 8 ++ put_be32 (yiaddr s) ++ put_be32 (siaddr s) ++ repeat 0 4 ++ sub req 28 16 ++
  repeat 0 64 ++ pad_to 128 (bfile s) ++ put_be32 BOOTP_VENDOR_MAGIC ++ concat (map encode_option (options s)) ++ [255].
(** What the client is to know afterwards. *)
Definition configured (s : bootp_server) (gb : net_cfg * bootp) : net_cfg * bootp :=
  let '(g, b) := gb in
  let g := set_ip (yiaddr s) g in
  let g := if siaddr s =? 0 then g else set_server (siaddr s) g in
  fold_left learn (options s) (g, match bfile s with [] => b | f => set_file (copy_filename f 128) b end).

Lemma length_copy_filename src : (List.length (copy_filename src 128) <= 127)%nat.
Proof.
  assert (forall n l, (List.length (copy_filename_loop n l) <= n)%nat) as H.
  { induction n as [|n IH]; intros [|c l]; cbn [copy_filename_loop List.length]; try lia. destruct (c =? 34); cbn [List.length]; [lia|]. specialize (IH l). lia. }
  unfold copy_filename. destruct (cur src =? 34); [pose proof (H (Z.to_nat (128 - 1 - 1)) (tl src))|pose proof (H (Z.to_nat (128 - 1)) src)]; lia.
Qed.
Lemma length_pad k l : (List.length l <= k)%nat -> List.length (pad_to k l) = k.
Proof. intros H. unfold pad_to. rewrite length_app, repeat_length. lia. Qed.
Lemma zlen_message id secs e f : List.length e = 6%nat -> zlen (bootp_message id secs e f) = 325.
Proof.
  intros He. pose proof (length_copy_filename f). unfold bootp_message, zlen. rewrite !length_app, !length_pad, !repeat_length by lia. reflexivity.
Qed.
(** Writes to places apart. *)
Lemma write_at_swap buf i j k l : (i + List.length k <= j)%nat -> (j + List.length l <= List.length buf)%nat ->
  write_at (write_at buf i k) j l = write_at (write_at buf j l) i k.
Proof.
  intros H1 H2. set (d := (j - (i + List.length k))%nat).
  assert (forall b : list Z, (j <= List.length b)%nat -> drop (i + List.length k) (take j b) = sub b (i + List.length k) d) as E.
  { intros b Hb. unfold sub. rewrite take_drop_commute. f_equal. f_equal. lia. }
  transitivity (take i buf ++ k ++ sub buf (i + List.length k) d ++ l ++ drop (j + List.length l) buf).
  - unfold write_at at 1. replace j with (i + List.length k + d)%nat at 1 by lia. rewrite take_sub, write_at_take, sub_write_after by lia.
    replace (j + List.length l)%nat with (i + List.length k + (j + List.length l - (i + List.length k)))%nat at 1 by lia.
    rewrite <- drop_drop, write_at_drop, drop_drop by lia. rewrite <- !app_assoc. do 5 f_equal. lia.
  - unfold write_at at 1. unfold write_at. rewrite take_app_le, take_take, Nat.min_l by (rewrite ?length_take; lia).
    rewrite drop_app_le by (rewrite length_take; lia). rewrite E by lia. reflexivity.
Qed.

(** The request as it goes out. *)
Lemma request_spec c now : net_ok (pnet c) -> no_vlan (pnet c) ->
  let n := pnet c in
  let id := u32 (get_be32 (NetOurEther (cfg n)) 2 + now) in
  let msg := bootp_message id (u16 (now / 1000)) (NetOurEther (cfg n)) (BootFile (pb c)) in
  exists tx, List.length tx = PKTSIZE_ALIGN /\
    BootpRequest c now =
      (set_boot (fun b => set_request id (s32 (BootpTry b + 1)) b)
         (set_pnet (NetSetHandler (NetSetTimeout (set_tx (set_ipid n (u32 (NetIPID n + 1))) tx) now SELECT_TIMEOUT BootpTimeout) BootpHandler) c),
       [EthSend (udp_frame n NetBcastAddr (NetIPID n) 0xFFFFFFFF PORT_BOOTPS PORT_BOOTPC msg)]).
Proof.
  intros Hn Hv n id msg. pose proof (zlen_message id (u16 (now / 1000)) (NetOurEther (cfg n)) (BootFile (pb c)) (proj1 (ok_ether _ Hn))) as Lm. fold msg in Lm.
  change (no_vlan n) in Hv. change (net_ok n) in Hn. assert (NetEthHdrSize n = 14) as Es by (unfold NetEthHdrSize; rewrite Hv; reflexivity).
  unfold BootpRequest. fold n. set (z := write_at (NetTxPacket n) 0 (repeat 0 PKTSIZE)).
  assert (List.length z = PKTSIZE_ALIGN) as Lz by (unfold z; rewrite write_at_length; rewrite ?repeat_length, (ok_tx _ Hn); reflexivity || (apply Nat.leb_le; reflexivity)).
  assert (42 + List.length msg <= List.length z)%nat as Hfit by (rewrite Lz; unfold zlen in Lm; change PKTSIZE_ALIGN with (367 + 1169)%nat; lia).
  set (z2 := write_at z 42 msg). assert (List.length z2 = PKTSIZE_ALIGN) as Lz2 by (unfold z2; rewrite write_at_length; assumption).
  destruct (headers_spec n z2 NetBcastAddr 0xFFFFFFFF PORT_BOOTPS PORT_BOOTPC 325 Hn) as (b & E1 & E2 & Lb & Et & Ep); [|reflexivity|exact Lz2|].
  { unfold fits. rewrite Es. split; [lia|vm_compute; discriminate]. }
  destruct (NetSetEther_spec n z NetBcastAddr PROT_IP eq_refl (proj1 (ok_ether _ Hn))) as [E0 Le]. rewrite E0. rewrite Es in *.
  change (Z.to_nat (14 + IP_HDR_SIZE)) with 42%nat in *. change (BOOTP_HDR_SIZE - OPT_SIZE + zlen BootpExtended) with 325. fold id. fold msg.
  change (Z.to_nat 14) with 14%nat in *. rewrite write_at_swap by (rewrite ?Le; lia). fold z2. rewrite E2.
  exists b. split; [exact Lb|]. do 3 f_equal.
  change (Z.to_nat (14 + IP_HDR_SIZE + 325)) with (42 + Z.to_nat 325)%nat. rewrite take_sub, Et, Ep. unfold z2.
  rewrite sub_write_same by (unfold zlen in Lm; lia). unfold udp_frame. rewrite Lm, <- app_assoc. reflexivity.
Qed.

Lemma text_of_pad f k r : Forall (fun c => c <> 0) f -> (List.length f < k)%nat -> text_of (pad_to k f ++ r) = f.
Proof.
  intros Hf Hk. unfold pad_to. destruct (k - List.length f)%nat as [|j] eqn:E; [lia|]. cbn [repeat]. rewrite <- app_assoc. clear E Hk.
  induction Hf as [|c f Hc _ IH]; [reflexivity|]. cbn [app text_of]. rewrite (proj2 (Z.eqb_neq c 0) Hc). f_equal. exact IH.
Qed.

(** The client's view of the server's answer to its request. *)
Lemma reply_view s id secs e f r : server_ok s -> is_u32 id -> List.length e = 6%nat ->
  let p := bootp_reply s (bootp_message id secs e f) ++ r in
  BootpCheckPkt id p PORT_BOOTPC PORT_BOOTPS (zlen (bootp_reply s (bootp_message id secs e f))) = 0 /\
  get_be32 p 16 = yiaddr s /\ get_be32 p 20 = siaddr s /\ text_of (drop 108 p) = bfile s /\ get_be32 p 236 = BOOTP_VENDOR_MAGIC /\
  drop 240 p = concat (map encode_option (options s)) ++ [255] ++ r /\
  zlen (bootp_reply s (bootp_message id secs e f)) = 241 + zlen (concat (map encode_option (options s))).
Proof.
  intros S Hid He p. destruct (sv_file s S) as [Hf Lf]. unfold zlen in Lf.
  set (msg := bootp_message id secs e f) in *. assert (sub msg 4 4 = put_be32 id) as Eid by reflexivity.
  assert (List.length (sub msg 28 16) = 16%nat) as Lh.
  { apply length_sub. pose proof (zlen_message id secs e f He) as L. fold msg in L. unfold zlen in L. lia. }
  set (opts := concat (map encode_option (options s))) in *.
  assert (p = ([OP_BOOTREPLY; HWT_ETHER; HWL_ETHER; 0] ++ put_be32 id ++ repeat 0 8) ++ (put_be32 (yiaddr s) ++ put_be32 (siaddr s) ++ repeat 0 4) ++
    (sub msg 28 16 ++ repeat 0 64) ++ pad_to 128 (bfile s) ++ put_be32 BOOTP_VENDOR_MAGIC ++ opts ++ [255] ++ r) as Ep.
  { subst p. unfold bootp_reply. rewrite Eid, <- !app_assoc. reflexivity. }
  assert (List.length (pad_to 128 (bfile s)) = 128%nat) as Lpad by (apply length_pad; lia).
  assert (zlen (bootp_reply s msg) = 241 + zlen opts) as Lr.
  { unfold bootp_reply. rewrite Eid. unfold zlen. rewrite !length_app, Lh, Lpad, !repeat_length. fold opts. cbn [List.length put_be32]. lia. }
  assert (drop 108 p = pad_to 128 (bfile s) ++ put_be32 BOOTP_VENDOR_MAGIC ++ opts ++ [255] ++ r) as E108.
  { assert (forall A B C T : list Z, List.length A = 16%nat -> List.length B = 12%nat -> List.length C = 80%nat -> drop 108 (A ++ B ++ C ++ T) = T) as D.
    { intros A B C T LA LB LC. rewrite !app_assoc. apply drop_app_length'. rewrite !length_app, LA, LB, LC. reflexivity. }
    rewrite Ep. apply D; [reflexivity..|]. rewrite length_app, Lh. reflexivity. }
  assert (drop 236 p = put_be32 BOOTP_VENDOR_MAGIC ++ opts ++ [255] ++ r) as E236.
  { change 236%nat with (108 + 128)%nat. rewrite <- drop_drop, E108. apply drop_app_length'. exact (eq_sym Lpad). }
  assert (drop 16 p = (put_be32 (yiaddr s) ++ put_be32 (siaddr s) ++ repeat 0 4) ++ (sub msg 28 16 ++ repeat 0 64) ++
    pad_to 128 (bfile s) ++ put_be32 BOOTP_VENDOR_MAGIC ++ opts ++ [255] ++ r) as E16 by (rewrite Ep; apply drop_app_length'; reflexivity).
  assert (forall i, get_be32 p i = get_be32 (drop i p) 0) as Eg by (intros i; unfold get_be32, get8; rewrite !List.nth_skipn, Nat.add_0_r; reflexivity).
  repeat apply conj.
  - unfold BootpCheckPkt. rewrite Lr, Ep. pose proof (zlen_nonneg opts). rewrite (proj2 (Z.ltb_ge _ _)) by (unfold BOOTP_HDR_SIZE, OPT_SIZE; lia).
    rewrite <- !app_assoc. change (get_be32 ([OP_BOOTREPLY; HWT_ETHER; HWL_ETHER; 0] ++ ?x) 4) with (get_be32 x 0). rewrite get_put_be32, u32_small by exact Hid.
    rewrite !Z.eqb_refl. reflexivity.
  - rewrite Eg, E16, <- !app_assoc, get_put_be32. apply u32_small, (sv_yi s S).
  - rewrite Eg. change 20%nat with (16 + 4)%nat. rewrite <- drop_drop, E16, <- !app_assoc. rewrite (drop_app_length' (put_be32 (yiaddr s))) by reflexivity.
    rewrite get_put_be32. apply u32_small, (sv_si s S).
  - rewrite E108. apply text_of_pad; [exact Hf|lia].
  - rewrite Eg, E236, get_put_be32. reflexivity.
  - change 240%nat with (236 + 4)%nat. rewrite <- drop_drop, E236. reflexivity.
  - exact Lr.
Qed.

Lemma learn_file opts : forall gb, BootFile (snd (fold_left learn opts gb)) = BootFile (snd gb).
Proof.
  induction opts as [|[code data] opts IH]; intros [g b]; [reflexivity|]. cbn [fold_left]. rewrite IH. unfold learn. cbn [snd].
  repeat match goal with |- context [if ?x then _ else _] => destruct x end; reflexivity.
Qed.
Lemma set_pnet_same c : set_pnet (pnet c) c = c.
Proof. destruct c as [[[] ?] ?]. reflexivity. Qed.

Lemma length_options l : (List.length l <= List.length (concat (map encode_option l)))%nat.
Proof.
  induction l as [|o l IH]; [reflexivity|]. cbn [map concat]. rewrite length_app.
  change (List.length (encode_option o)) with (S (S (List.length (snd o)))). cbn [List.length]. lia.
Qed.
(** The handler and a good reply. *)
Lemma handler_learns getenv c now s id secs e f r frame : server_ok s -> is_u32 id -> List.length e = 6%nat -> BootpID (pb c) = id ->
  let p := bootp_reply s (bootp_message id secs e f) in
  let learned := configured s (cfg (pnet c), pb c) in
  let c2 := PClient (set_base (fun b => set_net b (NetSetTimeout (set_server_ether (set_cfg (pnet c) (fst learned)) (sub frame 6 6)) now 0 BootpTimeout)) (pn c)) (snd learned) in
  bootp_handler getenv c now frame (p ++ r) PORT_BOOTPC PORT_BOOTPS (zlen p) =
    (let '(c3, o) := autoload getenv c2 now in (c3, match BootFile (snd learned) with [] => [] | f => [SetEnv (str "bootfile") f] end ++ o)).
Proof.
  intros S Hid He Eb p learned c2. destruct (reply_view s id secs e f r S Hid He) as (V1 & V2 & V3 & V4 & V5 & V6 & V7). fold p in V1, V2, V3, V4, V5, V6, V7.
  unfold bootp_handler. rewrite Eb, V1, Z.eqb_refl. cbn [negb]. unfold BootpCopyNetParams. rewrite V2, V3, V4, V5, V6, Z.eqb_refl.
  destruct (sv_options s S) as [Ho Lo]. unfold BootpVendorProcess.
  assert (forall gb, vendor_loop (Z.to_nat (zlen p)) (concat (map encode_option (options s)) ++ [255] ++ r) (zlen p) gb = fold_left learn (options s) gb) as Ev.
  { intros gb. apply vendor_learns; [exact Ho|lia|]. pose proof (length_options (options s)). unfold zlen in *. lia. }
  rewrite !Ev. set (g1 := set_ip (yiaddr s) (cfg (pnet c))).
  assert ((if negb (siaddr s =? 0) then set_server (siaddr s) g1 else g1) = (if siaddr s =? 0 then g1 else set_server (siaddr s) g1)) as Eg by (destruct (siaddr s =? 0); reflexivity).
  rewrite Eg. set (b1 := match bfile s with [] => pb c | fl => set_file (copy_filename fl 128) (pb c) end).
  assert (learned = fold_left learn (options s) (if siaddr s =? 0 then g1 else set_server (siaddr s) g1, b1)) as El by reflexivity.
  pose proof (learn_file (options s) (if siaddr s =? 0 then g1 else set_server (siaddr s) g1, b1)) as Ef. rewrite <- El in Ef. cbn [snd] in Ef. rewrite Ef.
  assert ((0 <? zlen (bfile s)) = match bfile s with [] => false | _ => true end) as Ez.
  { destruct (bfile s); [reflexivity|]. apply Z.ltb_lt. rewrite zlen_cons. pose proof (zlen_nonneg l). lia. }
  rewrite Ez. subst b1 c2. rewrite El. destruct (bfile s) as [|ch fl]; cbn [set_boot set_pnet set_pbase pnet pn pb nnet nbase cnet set_net set_base cfg set_server_ether set_cfg];
    destruct (fold_left learn _ _) as [g2 b2]; reflexivity.
Qed.

Lemma unaddressed_ok n : net_ok n -> net_ok (set_cfg n (set_ip 0 (cfg n))).
Proof. intros []. constructor; cbn; auto. split; [lia|reflexivity]. Qed.


Definition ex_boot_server : bootp_server :=
  Server 0xC0A80069 0xC0A80064 (str "uImage") [(1, [255; 255; 255; 0]); (3, [192; 168; 0; 1]); (12, str "bab750"); (13, [4; 0])].
Definition ex_boot_client : pclient :=
  PClient (NClient ex_client ex_nfs) (Boot [] 0 0 [] [] [] 0 0 0).
Definition ex_only_config (v : list Z) : option (list Z) := if decide (v = str "autoload") then Some (str "no") else None.

(** ** What the code does not do *)

(** The size of the boot file lasts only until the next option. *)
Lemma file_size_forgotten g b d : NetBootFileSize (snd (fold_left learn [(13, [4; 0]); (2, d)] (g, b))) = 0 /\
  NetBootFileSize (snd (fold_left learn [(2, d); (13, [4; 0])] (g, b))) = 1024.
Proof. split; reflexivity. Qed.
(** The size is kept in 16 bits, also when four bytes of it come. *)
Lemma file_size_cut g b : NetBootFileSize (snd (learn (g, b) (13, [0; 1; 0; 16]))) = 16.
Proof. reflexivity. Qed.
(** A request is taken for a reply. *)
Lemma request_accepted id secs e f : is_u32 id ->
  BootpCheckPkt id (bootp_message id secs e f) PORT_BOOTPC PORT_BOOTPS 300 = 0.
Proof.
  intros Hi. unfold BootpCheckPkt, bootp_message. change (get_be32 ([OP_BOOTREQUEST; HWT_ETHER; HWL_ETHER; 0] ++ put_be32 id ++ ?x) 4) with (get_be32 (put_be32 id ++ x) 0).
  rewrite get_put_be32, u32_small by exact Hi. rewrite !Z.eqb_refl. reflexivity.
Qed.
(** The walk over the options is given the length of the whole message from the vendor area on: an option in the 240 bytes behind the message, in the receive
    buffer of an earlier frame, counts. *)
Definition ex_open_reply : list Z :=
  [OP_BOOTREPLY; HWT_ETHER; HWL_ETHER; 0] ++ put_be32 7 ++ repeat 0 228 ++ put_be32 BOOTP_VENDOR_MAGIC.
Lemma options_behind_message :
  zlen ex_open_reply = 240 /\
  let c := set_boot (set_request 7 1) ex_boot_client in
  let c := fst (bootp_handler ex_only_config c 0 [] (ex_open_reply ++ [3; 4; 6; 6; 6; 6; 255]) PORT_BOOTPC PORT_BOOTPS 240) in
  NetOurGatewayIP (cfg (pnet ex_boot_client)) = 0 /\ NetOurGatewayIP (cfg (pnet c)) = 0x06060606.
Proof. vm_compute. auto. Qed.
(** The wait of 5 s that a timeout sets is replaced by the 3 s of the request. *)
Lemma retry_after_select_timeout getenv eth_names c now : BootpTry (pb c) < TIMEOUT_COUNT ->
  timeDelta (loop (pnet (fst (bootp_timeout getenv eth_names c now)))) = SELECT_TIMEOUT.
Proof.
  intros H. unfold bootp_timeout. rewrite (proj2 (Z.leb_gt _ _)) by exact H. unfold BootpRequest.
  destruct (NetSetEther _ _ _ _ _) as [tx size]. destruct (NetSetIP _ _ _ _ _ _ _) as [n tx']. reflexivity.
Qed.
