(* ===== verification/Image.v ===== *)
(** * Legacy boot images (common/image.c, include/image.h)

    An image header is its address; the fields are big-endian words of memory.
    The translation tables carry the entries this board compiles.  Progress
    output ([image_print_contents] and the other messages) is left out. *)

From S2P Require Import Prelude CMem CString Strto Crc Lmb Bytes.

(** ** Constants *)

Definition IH_OS_LINUX : Z := 5.
Definition IH_OS_NETBSD : Z := 2.
Definition IH_OS_VXWORKS : Z := 14.
Definition IH_OS_QNX : Z := 16.
Definition IH_OS_U_BOOT : Z := 17.
Definition IH_OS_RTEMS : Z := 18.
Definition IH_ARCH_PPC : Z := 7.
Definition IH_TYPE_STANDALONE : Z := 1.
Definition IH_TYPE_KERNEL : Z := 2.
Definition IH_TYPE_RAMDISK : Z := 3.
Definition IH_TYPE_MULTI : Z := 4.
Definition IH_COMP_NONE : Z := 0.
Definition IH_COMP_GZIP : Z := 1.
Definition IH_MAGIC : Z := 0x27051956.
Definition IH_NMLEN : Z := 32.
Definition IMAGE_FORMAT_INVALID : Z := 0.
Definition IMAGE_FORMAT_LEGACY : Z := 1.
Definition CONFIG_SYS_SDRAM_BASE : Z := 0.

(** ** Header fields *)

(** The size of image_header_t: seven words, four bytes, the name. *)
Definition image_get_header_size : Z := 28 + 4 + IH_NMLEN.

Definition image_get_magic (m : mem) (hdr : Z) : Z := load32 m hdr.
Definition image_get_hcrc (m : mem) (hdr : Z) : Z := load32 m (hdr + 4).
Definition image_get_time (m : mem) (hdr : Z) : Z := load32 m (hdr + 8).
Definition image_get_size (m : mem) (hdr : Z) : Z := load32 m (hdr + 12).
Definition image_get_load (m : mem) (hdr : Z) : Z := load32 m (hdr + 16).
Definition image_get_ep (m : mem) (hdr : Z) : Z := load32 m (hdr + 20).
Definition image_get_dcrc (m : mem) (hdr : Z) : Z := load32 m (hdr + 24).
Definition image_get_os (m : mem) (hdr : Z) : Z := m (hdr + 28).
Definition image_get_arch (m : mem) (hdr : Z) : Z := m (hdr + 29).
Definition image_get_type (m : mem) (hdr : Z) : Z := m (hdr + 30).
Definition image_get_comp (m : mem) (hdr : Z) : Z := m (hdr + 31).

Definition image_get_data_size (m : mem) (hdr : Z) : Z := image_get_size m hdr.
Definition image_get_data (hdr : Z) : Z := u32 (hdr + image_get_header_size).
Definition image_get_image_size (m : mem) (hdr : Z) : Z := u32 (image_get_size m hdr + image_get_header_size).
Definition image_get_image_end (m : mem) (hdr : Z) : Z := u32 (hdr + image_get_image_size m hdr).

Definition image_set_hcrc (m : mem) (hdr val : Z) : mem := store32 m (hdr + 4) val.

Definition image_check_magic (m : mem) (hdr : Z) : bool := image_get_magic m hdr =? IH_MAGIC.
Definition image_check_type (m : mem) (hdr type : Z) : bool := image_get_type m hdr =? type.
Definition image_check_arch (m : mem) (hdr arch : Z) : bool := image_get_arch m hdr =? arch.
Definition image_check_os (m : mem) (hdr os : Z) : bool := image_get_os m hdr =? os.
Definition image_check_target_arch (m : mem) (hdr : Z) : bool := image_check_arch m hdr IH_ARCH_PPC.

(** ** Checksums *)

(** The header is copied to the stack (an object of its own, at 0) with its CRC
    field blanked. *)
Definition image_check_hcrc (m : mem) (hdr : Z) : bool :=
  let header := image_set_hcrc (fun x => m (hdr + x)) 0 0 in
  crc32 header 0 0 image_get_header_size =? image_get_hcrc m hdr.

(** crc32_wd() is crc32() in a build without a watchdog. *)
Definition image_check_dcrc (m : mem) (hdr : Z) : bool :=
  crc32 m 0 (image_get_data hdr) (image_get_data_size m hdr) =? image_get_dcrc m hdr.

(** ** Multi-component images *)

(** The number of words before the first zero one. *)
Fixpoint multi_count_loop (fuel : nat) (m : mem) (size : Z) (count : Z) : option Z :=
  match fuel with
  | O => None
  | S f => if load32 m size =? 0 then Some count else multi_count_loop f m (size + 4) (count + 1)
  end.
Definition image_multi_count (fuel : nat) (m : mem) (hdr : Z) : option Z :=
  multi_count_loop fuel m (image_get_data hdr) 0.

(** for (i = 0; i < idx; i++) offset += (size[i] + 3) & ~3 *)
Fixpoint multi_offset (idx : nat) (m : mem) (size offset : Z) : Z :=
  match idx with
  | O => offset
  | S k => multi_offset k m (size + 4) (u32 (offset + (u32 (load32 m size + 3) .& not32 3)))
  end.

(** The address and the length of component [idx]. *)
Definition image_multi_getimg (fuel : nat) (m : mem) (hdr idx : Z) : option (Z * Z) :=
  match image_multi_count fuel m hdr with
  | None => None
  | Some count =>
      let size := image_get_data hdr in
      let img_data := u32 (size + (count + 1) * 4) in
      Some (if idx <? count then (u32 (img_data + multi_offset (Z.to_nat idx) m size 0), load32 m (size + idx * 4))
            else (0, 0))
  end.

(** ** Translation tables *)

Record table_entry := Entry { id : Z; sname : option (list Z); lname : list Z }.
Definition entry (i : Z) (s l : list Z) : table_entry := Entry i (Some s) l.

Definition uimage_arch : list table_entry :=
  [Entry 0 None (str "Invalid ARCH"); entry 1 (str "alpha") (str "Alpha"); entry 2 (str "arm") (str "ARM");
   entry 3 (str "x86") (str "Intel x86"); entry 4 (str "ia64") (str "IA64"); entry 12 (str "m68k") (str "M68K");
   entry 14 (str "microblaze") (str "MicroBlaze"); entry 5 (str "mips") (str "MIPS");
   entry 6 (str "mips64") (str "MIPS 64 Bit"); entry 15 (str "nios2") (str "NIOS II");
   entry 7 (str "powerpc") (str "PowerPC"); entry 7 (str "ppc") (str "PowerPC"); entry 8 (str "s390") (str "IBM S390");
   entry 9 (str "sh") (str "SuperH"); entry 10 (str "sparc") (str "SPARC"); entry 11 (str "sparc64") (str "SPARC 64 Bit");
   entry 16 (str "blackfin") (str "Blackfin"); entry 17 (str "avr32") (str "AVR32"); entry (-1) [] []].
Definition uimage_os : list table_entry :=
  [Entry 0 None (str "Invalid OS"); entry 5 (str "linux") (str "Linux"); entry 2 (str "netbsd") (str "NetBSD");
   entry 18 (str "rtems") (str "RTEMS"); entry 17 (str "u-boot") (str "U-Boot"); entry 16 (str "qnx") (str "QNX");
   entry 14 (str "vxworks") (str "VxWorks"); entry (-1) [] []].
Definition uimage_type : list table_entry :=
  [Entry 0 None (str "Invalid Image"); entry 7 (str "filesystem") (str "Filesystem Image");
   entry 5 (str "firmware") (str "Firmware"); entry 2 (str "kernel") (str "Kernel Image");
   entry 4 (str "multi") (str "Multi-File Image"); entry 3 (str "ramdisk") (str "RAMDisk Image");
   entry 6 (str "script") (str "Script"); entry 1 (str "standalone") (str "Standalone Program");
   entry 8 (str "flat_dt") (str "Flat Device Tree"); entry 9 (str "kwbimage") (str "Kirkwood Boot Image");
   entry 10 (str "imximage") (str "Freescale i.MX Boot Image"); entry (-1) [] []].
Definition uimage_comp : list table_entry :=
  [entry 0 (str "none") (str "uncompressed"); entry 2 (str "bzip2") (str "bzip2 compressed");
   entry 1 (str "gzip") (str "gzip compressed"); entry 3 (str "lzma") (str "lzma compressed");
   entry 4 (str "lzo") (str "lzo compressed"); entry (-1) [] []].

(** The loops stop at an entry with a negative id. *)
Fixpoint get_table_entry_name (table : list table_entry) (msg : list Z) (i : Z) : list Z :=
  match table with
  | [] => msg
  | t :: table => if id t <? 0 then msg else if id t =? i then lname t else get_table_entry_name table msg i
  end.
Fixpoint get_table_entry_id (table : list table_entry) (name : list Z) : Z :=
  match table with
  | [] => -1
  | t :: table =>
      if id t <? 0 then -1
      else if decide (sname t = Some name) then id t else get_table_entry_id table name
  end.

Definition genimg_get_os_name (os : Z) : list Z := get_table_entry_name uimage_os (str "Unknown OS") os.
Definition genimg_get_arch_name (arch : Z) : list Z := get_table_entry_name uimage_arch (str "Unknown Architecture") arch.
Definition genimg_get_type_name (type : Z) : list Z := get_table_entry_name uimage_type (str "Unknown Image") type.
Definition genimg_get_comp_name (comp : Z) : list Z := get_table_entry_name uimage_comp (str "Unknown Compression") comp.
Definition genimg_get_os_id (name : list Z) : Z := get_table_entry_id uimage_os name.
Definition genimg_get_arch_id (name : list Z) : Z := get_table_entry_id uimage_arch name.
Definition genimg_get_type_id (name : list Z) : Z := get_table_entry_id uimage_type name.
Definition genimg_get_comp_id (name : list Z) : Z := get_table_entry_id uimage_comp name.

(** FIT images are not compiled in. *)
Definition genimg_get_format (m : mem) (img_addr : Z) : Z :=
  if image_check_magic m img_addr then IMAGE_FORMAT_LEGACY else IMAGE_FORMAT_INVALID.
Definition genimg_get_image (img_addr : Z) : Z := img_addr.

(** ** Environment *)

Section environment.
Context (getenv : list Z -> option (list Z)) (bi_memsize : Z).

Definition getenv_yesno (var : list Z) : bool :=
  match getenv var with Some (c :: _) => negb (c =? chr "n") | _ => true end.

Definition getenv_bootm_low : Z :=
  match getenv (str "bootm_low") with
  | Some s => fst (simple_strtoul s 16)
  | None => CONFIG_SYS_SDRAM_BASE
  end.
Definition getenv_bootm_size : Z :=
  match getenv (str "bootm_size") with
  | Some s => u32 (fst (simple_strtoull s 16))
  | None =>
      let tmp := match getenv (str "bootm_low") with
                 | Some s => u32 (fst (simple_strtoull s 16))
                 | None => 0
                 end in
      u32 (bi_memsize - tmp)
  end.

(** Without a watchdog one call of memmove(). *)
Definition memmove_wd (m : mem) (to from len : Z) : mem :=
  if to =? from then m else snd (memmove m to from len).

(** ** The initial ramdisk *)

Definition image_get_ramdisk (m : mem) (rd_addr arch : Z) (verify : bool) : option Z :=
  if negb (image_check_magic m rd_addr) then None
  else if negb (image_check_hcrc m rd_addr) then None
  else if verify && negb (image_check_dcrc m rd_addr) then None
  else if negb (image_check_os m rd_addr IH_OS_LINUX) || negb (image_check_arch m rd_addr arch) ||
          negb (image_check_type m rd_addr IH_TYPE_RAMDISK) then None
  else Some rd_addr.

(** The result is the return code, rd_start and rd_end.  [hdr_os] is
    images->legacy_hdr_os and [hdr_copy] images->legacy_hdr_os_copy when
    images->legacy_hdr_valid is set; [None] only when the fuel runs out. *)
Definition boot_get_ramdisk (fuel : nat) (m : mem) (argv : list (list Z)) (hdr_os : option (Z * mem))
    (verify : bool) (arch : Z) : option (Z * Z * Z) :=
  let found rd_data rd_len := if rd_data =? 0 then (0, 0, 0) else (0, rd_data, u32 (rd_data + rd_len)) in
  match argv with
  | _ :: _ :: a :: _ =>
      if decide (a = str "-") then Some (found 0 0)
      else
        let rd_addr := genimg_get_image (fst (simple_strtoul a 16)) in
        if genimg_get_format m rd_addr =? IMAGE_FORMAT_LEGACY then
          match image_get_ramdisk m rd_addr arch verify with
          | None => Some (1, 0, 0)
          | Some rd_hdr => Some (found (image_get_data rd_hdr) (image_get_data_size m rd_hdr))
          end
        else Some (1, 0, 0)
  | _ =>
      match hdr_os with
      | Some (hdr, copy) =>
          if image_check_type copy 0 IH_TYPE_MULTI then
            match image_multi_getimg fuel m hdr 1 with
            | Some (rd_data, rd_len) => Some (found rd_data rd_len)
            | None => None
            end
          else Some (found 0 0)
      | None => Some (found 0 0)
      end
  end.

(** The return code, initrd_start, initrd_end, the new memory and reservations. *)
Definition boot_ramdisk_high (fuel : nat) (l : lmb) (m : mem) (rd_data rd_len : Z)
  : option (Z * Z * Z * lmb * mem) :=
  let initrd_high :=
    match getenv (str "initrd_high") with Some s => fst (simple_strtoul s 16) | None => 0xffffffff end in
  let copy_to_ram :=
    match getenv (str "initrd_high") with Some _ => negb (initrd_high =? 0xffffffff) | None => true end in
  if rd_data =? 0 then Some (0, 0, 0, l, m)
  else if negb copy_to_ram then
    Some (0, rd_data, u32 (rd_data + rd_len), snd (lmb_reserve l rd_data rd_len), m)
  else
    match (if negb (initrd_high =? 0) then lmb_alloc_base fuel l rd_len 0x1000 initrd_high
           else lmb_alloc fuel l rd_len 0x1000) with
    | None => None
    | Some (initrd_start, l) =>
        if initrd_start =? 0 then Some (-1, 0, 0, l, m)
        else Some (0, initrd_start, u32 (initrd_start + rd_len), l, memmove_wd m initrd_start rd_data rd_len)
    end.
End environment.

(** * Properties *)

(** ** Words in memory *)


Lemma load32_be32 m a v : mem_ok m -> is_u32 v -> bytes_at m a (put_be32 v) -> load32 m a = v.
Proof.
  intros Hm Hv (H0 & H1 & H2 & H3 & _). rewrite <- (load_store32 m a v Hm Hv).
  apply load32_ext. intros i Hi. unfold store32.
  assert (i = 0 \/ i = 1 \/ i = 2 \/ i = 3) as [->|[->|[->| ->]]] by lia; rewrite ?Z.add_0_r; upd_tac.
  - exact H0.
  - exact H1.
  - rewrite <- H2. f_equal. lia.
  - rewrite <- H3. f_equal. lia.
Qed.

(** A changed byte changes the word. *)
Lemma load32_byte_change m p a v :
  mem_ok m -> is_u8 v -> p <= a < p + 4 -> v <> m a -> load32 (upd m a v) p <> load32 m p.
Proof.
  intros Hm Hv Ha Hne E. rewrite !load32_sum in E by auto with cmem.
  pose proof (Hm p). pose proof (Hm (p + 1)). pose proof (Hm (p + 2)). pose proof (Hm (p + 3)). unfold_words.
  assert (a = p \/ a = p + 1 \/ a = p + 2 \/ a = p + 3) as [->|[->|[->| ->]]] by lia;
    rewrite upd_eq in E; rewrite !upd_ne in E by lia; lia.
Qed.
Lemma load32_other m p a v : ~ (p <= a < p + 4) -> load32 (upd m a v) p = load32 m p.
Proof. intros H. apply load32_ext. intros i Hi. apply upd_ne. lia. Qed.

Lemma zlen_be32 v : zlen (put_be32 v) = 4.
Proof. reflexivity. Qed.
#[export] Hint Rewrite zlen_be32 : clen.

(** ** Multi-component images *)

(** The payload of a multi-component image, as image.h describes it: the sizes,
    a zero word, the components, each but the last padded to whole words. *)
Definition round4 (n : Z) : Z := (n + 3) / 4 * 4.
Definition pad4 (c : list Z) : list Z := c ++ repeat 0 (Z.to_nat (round4 (zlen c) - zlen c)).
Fixpoint components (cs : list (list Z)) : list Z :=
  match cs with [] => [] | [c] => c | c :: cs => pad4 c ++ components cs end.
Definition size_table (cs : list (list Z)) : list Z := concat (map (fun c => put_be32 (zlen c)) cs) ++ put_be32 0.
Definition multi_payload (cs : list (list Z)) : list Z := size_table cs ++ components cs.

Lemma round4_bounds n : 0 <= n -> n <= round4 n < n + 4.
Proof. intros. unfold round4. Z.div_mod_to_equations. lia. Qed.
Lemma zlen_pad4 c : zlen (pad4 c) = round4 (zlen c).
Proof.
  unfold pad4. pose proof (round4_bounds (zlen c) (zlen_nonneg c)). rewrite zlen_app. unfold zlen at 2.
  rewrite repeat_length. lia.
Qed.
Lemma round4_mask n : 0 <= n < 2 ^ 32 - 3 -> u32 (n + 3) .& not32 3 = round4 n.
Proof.
  intros Hn. change (2 ^ 32) with 4294967296 in Hn. rewrite u32_small by lia. unfold round4.
  pose proof (align_down_spec (n + 3) 2 ltac:(lia) ltac:(lia)) as E. unfold lmb_align_down in E.
  change (2 ^ 2) with 4 in E. rewrite <- E. reflexivity.
Qed.
Lemma size_table_cons c cs : size_table (c :: cs) = put_be32 (zlen c) ++ size_table cs.
Proof. reflexivity. Qed.
Lemma zlen_size_table cs : zlen (size_table cs) = 4 * (zlen cs + 1).
Proof.
  induction cs as [|c cs IH]; [reflexivity|]. rewrite size_table_cons, zlen_app, IH, zlen_be32, zlen_cons. lia.
Qed.

Section multi.
Context (m : mem) (Hm : mem_ok m).

Definition sizes_ok (cs : list (list Z)) : Prop := Forall (fun c => c <> [] /\ zlen c < 2 ^ 32 - 3) cs.

Lemma size_word (c : list Z) p r : c <> [] /\ zlen c < 2 ^ 32 - 3 -> bytes_at m p (put_be32 (zlen c) ++ r) ->
  load32 m p = zlen c /\ load32 m p <> 0 /\ bytes_at m (p + 4) r.
Proof.
  intros [Hc Hl] H. apply bytes_at_app in H as [H1 H2]. rewrite zlen_be32 in H2.
  assert (load32 m p = zlen c) as E.
  { apply load32_be32; [exact Hm| |exact H1]. pose proof (zlen_nonneg c). unfold_words. lia. }
  split; [exact E|]. split; [|exact H2]. rewrite E. destruct c; [congruence|]. zlen_simpl. lia.
Qed.

Lemma multi_count_spec cs : forall fuel p n,
  bytes_at m p (size_table cs) -> sizes_ok cs -> (length cs < fuel)%nat ->
  multi_count_loop fuel m p n = Some (n + zlen cs).
Proof.
  induction cs as [|c cs IH]; intros fuel p n H Hs Hf; (destruct fuel as [|fuel]; [simpl in Hf; lia|]); cbn [multi_count_loop].
  - rewrite (load32_be32 m p 0 Hm ltac:(unfold_words; lia) H). cbn. rewrite zlen_nil. f_equal. lia.
  - inversion Hs as [|? ? Hc Hs']; subst. rewrite size_table_cons in H.
    destruct (size_word c p _ Hc H) as (_ & E & H').
    rewrite (proj2 (Z.eqb_neq _ _) E), IH by (auto; simpl in Hf; lia). rewrite zlen_cons. f_equal. lia.
Qed.

(** The offset the loop adds up is where the components put the next one. *)
Lemma multi_offset_spec cs1 : forall cs2 p off,
  bytes_at m p (size_table (cs1 ++ cs2)) -> sizes_ok (cs1 ++ cs2) ->
  0 <= off -> off + zlen (concat (map pad4 cs1)) < 2 ^ 32 ->
  multi_offset (length cs1) m p off = off + zlen (concat (map pad4 cs1)) /\
  bytes_at m (p + 4 * zlen cs1) (size_table cs2).
Proof.
  induction cs1 as [|c cs1 IH]; intros cs2 p off H Hs Ho Hb; cbn [length multi_offset app map concat] in *.
  - rewrite zlen_nil, Z.mul_0_r, !Z.add_0_r. auto.
  - inversion Hs as [|? ? Hc Hs']; subst. rewrite size_table_cons in H.
    destruct (size_word c p _ Hc H) as (E & _ & H'). rewrite zlen_app, zlen_pad4 in Hb. rewrite E.
    pose proof (zlen_nonneg c). pose proof (zlen_nonneg (concat (map pad4 cs1))).
    pose proof (round4_bounds (zlen c) ltac:(lia)). change (2 ^ 32) with 4294967296 in *.
    rewrite round4_mask by (change (2 ^ 32) with 4294967296; lia). rewrite u32_small by lia.
    destruct (IH cs2 (p + 4) (off + round4 (zlen c)) H' Hs' ltac:(lia) ltac:(lia)) as [E1 E2].
    rewrite E1, zlen_app, zlen_pad4, zlen_cons. split; [lia|].
    replace (p + 4 * (zlen cs1 + 1)) with (p + 4 + 4 * zlen cs1) by lia. exact E2.
Qed.

Lemma components_split cs1 c cs2 : exists r, components (cs1 ++ c :: cs2) = concat (map pad4 cs1) ++ c ++ r.
Proof.
  induction cs1 as [|d cs1 [r IH]]; cbn [app map concat].
  - destruct cs2 as [|e cs2]; cbn [components]; [exists []; rewrite app_nil_r; reflexivity|].
    unfold pad4. rewrite <- app_assoc. eauto.
  - exists r. rewrite <- app_assoc, <- IH. destruct cs1; reflexivity.
Qed.
End multi.

(** In a multi-component image laid out as image.h says, every component is found
    with its exact length at an address where its bytes are, and an index
    behind the last one gives address and length 0. *)
Theorem image_multi_getimg_correct fuel m hdr cs i :
  mem_ok m -> 0 <= hdr -> hdr + 64 + zlen (multi_payload cs) < 2 ^ 32 ->
  bytes_at m (hdr + 64) (multi_payload cs) -> Forall (fun c => c <> []) cs -> (length cs < fuel)%nat ->
  match cs !! i with
  | Some c => exists a, image_multi_getimg fuel m hdr (Z.of_nat i) = Some (a, zlen c) /\
      hdr + 64 < a /\ a + zlen c <= hdr + 64 + zlen (multi_payload cs) /\ bytes_at m a c
  | None => image_multi_getimg fuel m hdr (Z.of_nat i) = Some (0, 0)
  end.
Proof.
  intros Hm Hh Hl H Hne Hf. change (2 ^ 32) with 4294967296 in Hl. unfold multi_payload in *.
  rewrite zlen_app, zlen_size_table in Hl. apply bytes_at_app in H as [Ht Hc]. rewrite zlen_size_table in Hc.
  pose proof (zlen_nonneg cs) as Hn. pose proof (zlen_nonneg (components cs)) as Hcl.
  assert (sizes_ok cs) as Hs.
  { apply List.Forall_forall. intros c Hin. rewrite List.Forall_forall in Hne. split; [auto|].
    apply in_split in Hin as (l1 & l2 & ->). destruct (components_split l1 c l2) as [r E].
    rewrite E, !zlen_app in Hl. change (2 ^ 32) with 4294967296. zlen_simpl. lia. }
  unfold image_multi_getimg, image_multi_count, image_get_data, image_get_header_size, IH_NMLEN.
  change (28 + 4 + 32) with 64. rewrite (u32_small (hdr + 64)) by lia.
  rewrite (multi_count_spec m Hm cs fuel (hdr + 64) 0 Ht Hs Hf), Z.add_0_l.
  rewrite (u32_small (hdr + 64 + (zlen cs + 1) * 4)) by lia.
  destruct (cs !! i) as [c|] eqn:Ei.
  - apply list_elem_of_split_length in Ei as (l1 & l2 & -> & ->).
    rewrite zlen_app, zlen_cons in *. pose proof (zlen_nonneg l2). fold (zlen l1).
    rewrite (proj2 (Z.ltb_lt _ _)) by lia. destruct (components_split l1 c l2) as [r E]. rewrite E in *.
    apply bytes_at_app in Hc as [_ Hc]. apply bytes_at_app in Hc as [Hc _]. rewrite !zlen_app in *.
    pose proof (zlen_nonneg (concat (map pad4 l1))). pose proof (zlen_nonneg c). pose proof (zlen_nonneg r). pose proof (zlen_nonneg l1).
    destruct (multi_offset_spec m Hm l1 (c :: l2) (hdr + 64) 0 Ht Hs ltac:(lia) ltac:(change (2 ^ 32) with 4294967296; lia)) as [Eo Hs'].
    replace (Z.to_nat (zlen l1)) with (length l1) by (unfold zlen; lia). rewrite Eo, Z.add_0_l. rewrite size_table_cons in Hs'.
    apply Forall_app in Hs as [_ Hs]. inversion Hs as [|? ? Hcs _]; subst.
    destruct (size_word m Hm c _ _ Hcs Hs') as (El & _ & _).
    replace (hdr + 64 + zlen l1 * 4) with (hdr + 64 + 4 * zlen l1) by lia. rewrite El, u32_small by lia.
    rewrite zlen_size_table, zlen_app, zlen_cons. eexists. split; [reflexivity|]. split; [lia|]. split; [lia|].
    replace (hdr + 64 + (zlen l1 + (zlen l2 + 1) + 1) * 4 + zlen (concat (map pad4 l1))) with
      (hdr + 64 + 4 * (zlen l1 + (zlen l2 + 1) + 1) + zlen (concat (map pad4 l1))) by lia. exact Hc.
  - apply lookup_ge_None in Ei. unfold zlen at 1. rewrite (proj2 (Z.ltb_ge _ _)) by lia. reflexivity.
Qed.

Definition ex_multi : list (list Z) := [str "kernel"; str "initrd!"].
Lemma image_multi_getimg_correct_witness :
  let m := put_bytes (fun _ => 0) 64 (multi_payload ex_multi) in
  exists a, image_multi_getimg 3 m 0 1 = Some (a, 7) /\ 64 < a /\ bytes_at m a (str "initrd!").
Proof.
  intros m. destruct (image_multi_getimg_correct 3 m 0 ex_multi 1) as (a & E & H1 & _ & H2).
  - apply put_bytes_ok; [apply zero_ok|]. apply all_u8_spec. reflexivity.
  - lia.
  - reflexivity.
  - apply put_bytes_at.
  - repeat constructor; discriminate.
  - apply Nat.ltb_lt. reflexivity.
  - exists a. split; [exact E|]. split; [exact H1|exact H2].
Defined.

(** ** Image files *)

(** What mkimage writes: the header fields besides magic, size and checksums. *)
Record fields := Fields {
  f_time : Z; f_load : Z; f_ep : Z; f_os : Z; f_arch : Z; f_type : Z; f_comp : Z; f_name : list Z
}.
Definition fields_ok (f : fields) : Prop :=
  is_u32 (f_time f) /\ is_u32 (f_load f) /\ is_u32 (f_ep f) /\
  Forall is_u8 [f_os f; f_arch f; f_type f; f_comp f] /\ Forall is_u8 (f_name f) /\ zlen (f_name f) = IH_NMLEN.

Definition header_bytes (f : fields) (hcrc dcrc size : Z) : list Z :=
  put_be32 IH_MAGIC ++ put_be32 hcrc ++ put_be32 (f_time f) ++ put_be32 size ++ put_be32 (f_load f) ++
  put_be32 (f_ep f) ++ put_be32 dcrc ++ [f_os f; f_arch f; f_type f; f_comp f] ++ f_name f.
Definition crc32_ref (l : list Z) : Z := crc_ref l 0xffffffff .^ 0xffffffff.
Definition mkimage (f : fields) (data : list Z) : list Z :=
  let dcrc := crc32_ref data in
  header_bytes f (crc32_ref (header_bytes f 0 dcrc (zlen data))) dcrc (zlen data) ++ data.

(** The image of [f] and [data] is in memory at [hdr]. *)
Record image_at (m : mem) (hdr : Z) (f : fields) (data : list Z) : Prop := {
  at_mem : mem_ok m;
  at_fields : fields_ok f;
  at_data : Forall is_u8 data;
  at_low : 0 <= hdr;
  at_high : hdr + 64 + zlen data < 2 ^ 32;
  at_bytes : bytes_at m hdr (mkimage f data)
}.

Lemma put_be32_u8 v : Forall is_u8 (put_be32 v).
Proof. repeat constructor; apply u8_range. Qed.
Lemma ones_u32 : is_u32 0xffffffff.
Proof. unfold_words. lia. Qed.
#[export] Hint Resolve put_be32_u8 ones_u32 : uboot.

Lemma crc32_ref_u32 l : Forall is_u8 l -> is_u32 (crc32_ref l).
Proof. intros. apply in_word_lxor; [lia| |apply ones_u32]. apply crc_ref_u32; auto with uboot. Qed.
Lemma header_u8 f hcrc dcrc size : fields_ok f -> Forall is_u8 (header_bytes f hcrc dcrc size).
Proof.
  intros (_ & _ & _ & H4 & H5 & _). unfold header_bytes. repeat (apply Forall_app; split); auto with uboot.
Qed.
Lemma zlen_header f hcrc dcrc size : fields_ok f -> zlen (header_bytes f hcrc dcrc size) = 64.
Proof.
  intros (_ & _ & _ & _ & _ & H). unfold header_bytes. rewrite !zlen_app, H, !zlen_be32. reflexivity.
Qed.

(** crc32() of a region is the CRC of its bytes. *)
Lemma crc32_bytes m p l : mem_ok m -> bytes_at m p l -> crc32 m 0 p (zlen l) = crc32_ref l.
Proof.
  intros Hm H. unfold crc32, crc32_ref. rewrite Z.lxor_0_l, crc32_no_comp_spec by
    (auto with uboot; apply zlen_nonneg). unfold zlen. rewrite Nat2Z.id, (read_bytes_at m p l H). reflexivity.
Qed.

(** The words of a header. *)
Lemma header_fields m a f hcrc dcrc size :
  mem_ok m -> fields_ok f -> is_u32 hcrc -> is_u32 dcrc -> is_u32 size -> bytes_at m a (header_bytes f hcrc dcrc size) ->
  image_get_magic m a = IH_MAGIC /\ image_get_hcrc m a = hcrc /\ image_get_size m a = size /\
  image_get_load m a = f_load f /\ image_get_ep m a = f_ep f /\ image_get_dcrc m a = dcrc /\
  image_get_os m a = f_os f /\ image_get_arch m a = f_arch f /\ image_get_type m a = f_type f /\
  image_get_comp m a = f_comp f.
Proof.
  intros Hm (H1 & H2 & H3 & _ & _ & _) Hh Hd Hs H. unfold header_bytes in H.
  repeat (apply bytes_at_app in H; destruct H as [? H]; rewrite ?zlen_be32 in H).
  repeat match goal with K : bytes_at _ (_ + _ + _) _ |- _ => rewrite <- ?Z.add_assoc in K end. cbn [Z.add Pos.add Pos.succ] in *.
  repeat match goal with K : bytes_at m _ [_; _; _; _] |- _ => destruct K as (? & ? & ? & ? & _) end.
  unfold image_get_magic, image_get_hcrc, image_get_size, image_get_load, image_get_ep, image_get_dcrc,
    image_get_os, image_get_arch, image_get_type, image_get_comp.
  split_and!; try (apply load32_be32; auto; unfold IH_MAGIC; unfold_words; lia).
  all: match goal with K : ?g ?x = ?v |- ?g ?y = ?v => rewrite <- K; f_equal; lia end.
Qed.

Lemma bytes_at_shift m hdr p l : bytes_at (fun x => m (hdr + x)) p l <-> bytes_at m (hdr + p) l.
Proof.
  revert p. induction l as [|c l IH]; intros p; cbn [bytes_at]; [tauto|]. rewrite IH.
  replace (hdr + (p + 1)) with (hdr + p + 1) by lia. tauto.
Qed.
Lemma bytes_at_move m m' a b l :
  (forall i, 0 <= i < zlen l -> m' (b + i) = m (a + i)) -> bytes_at m a l -> bytes_at m' b l.
Proof.
  intros H Hl. replace b with (b + 0) by lia. apply bytes_at_shift.
  apply (bytes_at_ext (fun x => m (a + x))); [exact H|]. apply bytes_at_shift. rewrite Z.add_0_r. exact Hl.
Qed.
Lemma bytes_at_store32 m a v : bytes_at (store32 m a v) a (put_be32 v).
Proof.
  unfold store32. cbn [bytes_at put_be32]. replace (a + 1 + 1) with (a + 2) by lia. replace (a + 2 + 1) with (a + 3) by lia.
  repeat split; upd_tac; reflexivity.
Qed.

(** Blanking the CRC field of the copy gives the header the CRC was taken of. *)
Lemma blank_header m hdr f hcrc dcrc size :
  mem_ok m -> fields_ok f -> bytes_at m hdr (header_bytes f hcrc dcrc size) ->
  let h := image_set_hcrc (fun x => m (hdr + x)) 0 0 in
  mem_ok h /\ bytes_at h 0 (header_bytes f 0 dcrc size).
Proof.
  intros Hm Hf H h. assert (mem_ok (fun x => m (hdr + x))) as Hm' by (intros x; apply Hm).
  split; [apply store32_ok, Hm'|].
  replace hdr with (hdr + 0) in H by lia. apply bytes_at_shift in H. unfold header_bytes in *.
  apply bytes_at_app in H as [H1 H]. apply bytes_at_app in H as [_ H].
  assert (forall p l, bytes_at (fun x => m (hdr + x)) p l -> p + zlen l <= 4 \/ 8 <= p -> bytes_at h p l) as Hout.
  { intros p l Hl Hp. eapply bytes_at_ext; [|exact Hl]. intros x Hx. apply store32_outside. lia. }
  apply bytes_at_app. split; [apply Hout; [exact H1|rewrite zlen_be32; lia]|].
  apply bytes_at_app. split; [apply bytes_at_store32|]. apply Hout; [exact H|rewrite !zlen_be32; lia].
Qed.

(** An image as mkimage writes it passes every check, and the fields are read back. *)
Lemma image_valid m hdr f data :
  image_at m hdr f data ->
  image_check_magic m hdr = true /\ image_check_hcrc m hdr = true /\ image_check_dcrc m hdr = true /\
  image_get_data hdr = hdr + 64 /\ image_get_data_size m hdr = zlen data /\ image_get_image_end m hdr = hdr + 64 + zlen data /\
  image_get_load m hdr = f_load f /\ image_get_ep m hdr = f_ep f /\ image_get_os m hdr = f_os f /\
  image_get_arch m hdr = f_arch f /\ image_get_type m hdr = f_type f /\ image_get_comp m hdr = f_comp f /\
  bytes_at m (hdr + 64) data.
Proof.
  intros [Hm Hf Hd Hl Hh H]. change (2 ^ 32) with 4294967296 in Hh. pose proof (zlen_nonneg data) as Hz. unfold mkimage in H.
  apply bytes_at_app in H as [H1 H2]. rewrite zlen_header in H2 by exact Hf.
  set (dcrc := crc32_ref data) in *. set (h0 := header_bytes f 0 dcrc (zlen data)) in *.
  assert (is_u32 dcrc) as Hdu by (apply crc32_ref_u32, Hd).
  assert (is_u32 (crc32_ref h0)) as Hhu by (apply crc32_ref_u32, header_u8, Hf).
  assert (is_u32 (zlen data)) as Hsu by (unfold_words; lia).
  destruct (header_fields m hdr f (crc32_ref h0) dcrc (zlen data) Hm Hf Hhu Hdu Hsu H1)
    as (E1 & E2 & E3 & E4 & E5 & E6 & E7 & E8 & E9 & E10).
  destruct (blank_header m hdr f (crc32_ref h0) dcrc (zlen data) Hm Hf H1) as [Hm' H0].
  unfold image_check_magic, image_check_hcrc, image_check_dcrc, image_get_image_end, image_get_image_size, image_get_data_size,
    image_get_data. rewrite E1, E2, E3, E6. unfold image_get_header_size, IH_NMLEN. change (28 + 4 + 32) with 64.
  rewrite !u32_small by (rewrite ?u32_small by lia; lia).
  split_and!; auto; try lia; try apply Z.eqb_refl.
  - apply Z.eqb_eq. rewrite <- (crc32_bytes _ 0 h0 Hm' H0). unfold h0. rewrite zlen_header by exact Hf. reflexivity.
  - apply Z.eqb_eq. apply crc32_bytes; assumption.
Qed.

(** Nothing below looks into the CRC. *)
#[local] Opaque crc32.

(** A changed byte of a header with the right CRC is noticed. *)
Lemma header_change m hdr a v :
  mem_ok m -> is_u8 v -> image_check_hcrc m hdr = true -> hdr <= a < hdr + 64 -> v <> m a ->
  image_check_hcrc (upd m a v) hdr = false.
Proof.
  intros Hm Hv Hc Ha Hne. unfold image_check_hcrc, image_get_hcrc in *. apply Z.eqb_eq in Hc.
  change image_get_header_size with 64 in *. apply Z.eqb_neq. intros E.
  set (g := fun x => m (hdr + x)) in *. set (g' := fun x => upd m a v (hdr + x)) in *.
  assert (mem_ok g) as Hg by (intros x; apply Hm). assert (mem_ok g') as Hg' by (intros x; apply upd_ok; assumption).
  assert (forall x, g' x = upd g (a - hdr) v x) as Hgg.
  { intros x. unfold g', g, upd. case_z; case_z; try lia; reflexivity. }
  destruct (decide (4 <= a - hdr < 8)) as [H48|H48].
  - (* the CRC field itself *)
    assert (crc32 (image_set_hcrc g' 0 0) 0 0 64 = crc32 (image_set_hcrc g 0 0) 0 0 64) as Es.
    { apply crc32_ext; try apply store32_ok; auto with uboot; try lia; [unfold_words; lia|].
      intros i Hi. rewrite Z.add_0_l. unfold image_set_hcrc. destruct (decide (4 <= i < 8)).
      - unfold store32, upd. repeat case_z; try lia; reflexivity.
      - rewrite !store32_outside by lia. rewrite Hgg. apply upd_ne. lia. }
    rewrite Es, Hc in E. symmetry in E. revert E. apply load32_byte_change; auto; lia.
  - rewrite load32_other, <- Hc in E by lia. revert E.
    rewrite (crc32_ext (upd (image_set_hcrc g 0 0) (a - hdr) v) (image_set_hcrc g' 0 0) 0 0 0 64);
      [|apply upd_ok; [apply store32_ok, Hg|exact Hv]|apply store32_ok, Hg'|unfold_words; lia|lia|].
    + apply crc32_byte_change; [apply store32_ok, Hg|unfold_words; lia|exact Hv|lia|].
      unfold image_set_hcrc. rewrite store32_outside by lia. unfold g. replace (hdr + (a - hdr)) with a by lia. exact Hne.
    + intros i Hi. rewrite Z.add_0_l. unfold image_set_hcrc, store32. rewrite Z.add_0_l.
      unfold upd at 1 2 3 4 6 7 8 9. rewrite Hgg. unfold upd. repeat case_z; try lia; reflexivity.
Qed.

(** A changed byte of the data with the right CRC is noticed. *)
Lemma data_change m hdr a v :
  mem_ok m -> is_u8 v -> image_check_dcrc m hdr = true -> 0 <= hdr -> hdr + 64 < 2 ^ 32 ->
  hdr + 64 <= a < hdr + 64 + image_get_data_size m hdr -> v <> m a -> image_check_dcrc (upd m a v) hdr = false.
Proof.
  intros Hm Hv Hc Hh Hl Ha Hne. change (2 ^ 32) with 4294967296 in Hl.
  unfold image_check_dcrc, image_get_dcrc, image_get_data_size, image_get_size, image_get_data in *.
  change image_get_header_size with 64 in *. rewrite !load32_other by lia. rewrite u32_small in * by lia.
  apply Z.eqb_eq in Hc. rewrite <- Hc. apply Z.eqb_neq.
  apply crc32_byte_change; auto; unfold_words; lia.
Qed.
Lemma magic_other m hdr a v : hdr + 4 <= a -> image_check_magic (upd m a v) hdr = image_check_magic m hdr.
Proof. intros. unfold image_check_magic, image_get_magic. rewrite load32_other by lia. reflexivity. Qed.
Lemma hcrc_other m hdr a v : mem_ok m -> is_u8 v -> hdr + 64 <= a -> image_check_hcrc (upd m a v) hdr = image_check_hcrc m hdr.
Proof.
  intros Hm Hv Ha. unfold image_check_hcrc, image_get_hcrc. rewrite load32_other by lia.
  change image_get_header_size with 64. f_equal. unfold image_set_hcrc. apply crc32_ext; try apply store32_ok.
  - intros x. apply Hm.
  - intros x. apply (upd_ok m a v Hm Hv).
  - unfold_words. lia.
  - lia.
  - intros i Hi. rewrite Z.add_0_l. unfold store32. rewrite Z.add_0_l. unfold upd. repeat case_z; try lia; reflexivity.
Qed.

(** ** A small image *)

Definition ex_fields : fields := Fields 0x4ce4aaaa 0x400000 0x400100 5 7 2 0 (str "Linux-2.6" ++ repeat 0 23).
Definition ex_data : list Z := str "kernel code".
Definition ex_image_mem : mem := put_bytes (fun _ => 0) 0x800000 (mkimage ex_fields ex_data).

Lemma mkimage_u8 f data : fields_ok f -> Forall is_u8 data -> Forall is_u8 (mkimage f data).
Proof. intros Hf Hd. unfold mkimage. apply Forall_app. split; [apply header_u8, Hf|exact Hd]. Qed.
Lemma put_image_at m hdr f data :
  mem_ok m -> fields_ok f -> Forall is_u8 data -> 0 <= hdr -> hdr + 64 + zlen data < 2 ^ 32 ->
  image_at (put_bytes m hdr (mkimage f data)) hdr f data.
Proof.
  intros. constructor; auto; [|apply put_bytes_at].
  apply put_bytes_ok; [assumption|apply mkimage_u8; assumption].
Qed.
Lemma ex_fields_ok : fields_ok ex_fields.
Proof.
  unfold fields_ok, ex_fields. cbn [f_time f_load f_ep f_os f_arch f_type f_comp f_name]. unfold_words.
  split_and!; try lia; try reflexivity; repeat constructor; vm_compute; congruence.
Qed.
