(* ===== verification/Bootm.v ===== *)
(** * The bootm command (common/cmd_bootm.c, arch/powerpc/lib/bootm.c,
    lib/gunzip.c, the allocation part of common/image.c)

    The state is the static [images] of cmd_bootm.c, the memory and the
    variables set on the way; an outcome says whether the command returned or to
    whom control went.  inflate() of zlib is a parameter.  The booted system's own
    starters other than Linux's are not modelled beyond the handover. *)

From S2P Require Import Prelude CMem CString Strto Vsprintf Crc Lmb CmdLine Image.

(** ** Constants *)

Definition CONFIG_SYS_BOOTM_LEN : Z := 0x800000.
Definition CONFIG_SYS_BARGSIZE : Z := 256.
Definition CONFIG_SYS_BOOTMAPSZ : Z := 8 .<< 20.
Definition CONFIG_SYS_LINUX_LOWMEM_MAX_SIZE : Z := 768 * 1024 * 1024.
Definition BOOTM_STATE_START : Z := 1.
Definition BOOTM_STATE_LOADOS : Z := 2.
Definition BOOTM_STATE_RAMDISK : Z := 4.
Definition BOOTM_STATE_OS_CMDLINE : Z := 0x10.
Definition BOOTM_STATE_OS_BD_T : Z := 0x20.
Definition BOOTM_STATE_OS_PREP : Z := 0x40.
Definition BOOTM_STATE_OS_GO : Z := 0x80.
Definition BOOTM_ERR_RESET : Z := -1.
Definition BOOTM_ERR_OVERLAP : Z := -2.
Definition BOOTM_ERR_UNIMPLEMENTED : Z := -3.
Definition sizeof_bd_t : Z := 56.
Definition DEFLATED : Z := 8.
Definition HEAD_CRC : Z := 2.
Definition EXTRA_FIELD : Z := 4.
Definition ORIG_NAME : Z := 8.
Definition COMMENT : Z := 0x10.
Definition RESERVED : Z := 0xe0.
Definition Z_OK : Z := 0.
Definition Z_STREAM_END : Z := 1.

(** ** State *)

Record image_info := ImageInfo {
  start : Z; end_ : Z; image_start : Z; image_len : Z; load : Z; comp : Z; type : Z; os : Z
}.
(** [legacy_hdr_os]: the header's address and the copy, when legacy_hdr_valid. *)
Record bootm_headers := Headers {
  legacy_hdr_os : option (Z * mem);
  os_info : image_info;
  ep : Z;
  rd_start : Z; rd_end : Z;
  initrd_start : Z; initrd_end : Z;
  cmdline_start : Z; cmdline_end : Z;
  kbd : Z;
  verify : bool;
  state : Z;
  lmb_of : lmb
}.

(** memset (&images, 0, sizeof (images)) *)
Definition images_zero : bootm_headers :=
  Headers None (ImageInfo 0 0 0 0 0 0 0 0) 0 0 0 0 0 0 0 0 false 0
    (Lmb (Region 0 (repeat (Prop_ 0 0) 9)) (Region 0 (repeat (Prop_ 0 0) 9))).

Definition set_lmb (i : bootm_headers) (l : lmb) : bootm_headers :=
  Headers (legacy_hdr_os i) (os_info i) (ep i) (rd_start i) (rd_end i) (initrd_start i) (initrd_end i)
    (cmdline_start i) (cmdline_end i) (kbd i) (verify i) (state i) l.
Definition set_state (i : bootm_headers) (s : Z) : bootm_headers :=
  Headers (legacy_hdr_os i) (os_info i) (ep i) (rd_start i) (rd_end i) (initrd_start i) (initrd_end i)
    (cmdline_start i) (cmdline_end i) (kbd i) (verify i) s (lmb_of i).
Definition set_kernel (i : bootm_headers) (hdr : option (Z * mem)) (o : image_info) (e : Z) : bootm_headers :=
  Headers hdr o e (rd_start i) (rd_end i) (initrd_start i) (initrd_end i)
    (cmdline_start i) (cmdline_end i) (kbd i) (verify i) (state i) (lmb_of i).
Definition set_rd (i : bootm_headers) (s e : Z) : bootm_headers :=
  Headers (legacy_hdr_os i) (os_info i) (ep i) s e (initrd_start i) (initrd_end i)
    (cmdline_start i) (cmdline_end i) (kbd i) (verify i) (state i) (lmb_of i).
Definition set_initrd (i : bootm_headers) (s e : Z) : bootm_headers :=
  Headers (legacy_hdr_os i) (os_info i) (ep i) (rd_start i) (rd_end i) s e
    (cmdline_start i) (cmdline_end i) (kbd i) (verify i) (state i) (lmb_of i).
Definition set_cmdline (i : bootm_headers) (s e : Z) : bootm_headers :=
  Headers (legacy_hdr_os i) (os_info i) (ep i) (rd_start i) (rd_end i) (initrd_start i) (initrd_end i)
    s e (kbd i) (verify i) (state i) (lmb_of i).
Definition set_kbd (i : bootm_headers) (k : Z) : bootm_headers :=
  Headers (legacy_hdr_os i) (os_info i) (ep i) (rd_start i) (rd_end i) (initrd_start i) (initrd_end i)
    (cmdline_start i) (cmdline_end i) k (verify i) (state i) (lmb_of i).

(** The entries of boot_os[]: NULL, the starters, and what lies behind the table. *)
Inductive boot_os_fn := bf_NULL | do_bootm_linux_ | do_bootm_netbsd | do_bootm_rtems | do_bootm_vxworks
  | do_bootm_qnxelf | bf_beyond.
Definition boot_os (o : Z) : boot_os_fn :=
  if o =? IH_OS_LINUX then do_bootm_linux_
  else if o =? IH_OS_NETBSD then do_bootm_netbsd
  else if o =? IH_OS_RTEMS then do_bootm_rtems
  else if o =? IH_OS_VXWORKS then do_bootm_vxworks
  else if o =? IH_OS_QNX then do_bootm_qnxelf
  else if o <=? IH_OS_RTEMS then bf_NULL
  else bf_beyond.

(** Returned to the caller; the board is reset; the kernel entered with its six
    arguments; a standalone program called; another system's starter called (a
    NULL one or one read behind the table included). *)
Inductive outcome :=
  | Returned (r : Z)
  | Reset
  | Kernel (entry kbd initrd_start initrd_end cmd_start cmd_end : Z)
  | Application (entry : Z) (args : list (list Z))
  | Starter (f : boot_os_fn).

(** ** Decompression *)

Section zlib.
(** inflateInit2(), and inflate() on (next_in, avail_in) into (next_out, avail_out):
    its result, the final next_out and the memory. *)
Context (inflateInit2 : Z) (inflate : mem -> Z -> Z -> Z -> Z -> Z * Z * mem).

Definition zunzip (m : mem) (dst dstlen src lenp : Z) (stoponerr : bool) (offset : Z) : Z * Z * mem :=
  if negb (inflateInit2 =? Z_OK) then (-1, lenp, m)
  else
    let '(r, next_out, m) := inflate m (u32 (src + offset)) (u32 (lenp - offset)) dst dstlen in
    if negb (r =? Z_STREAM_END) && stoponerr then (-1, lenp, m) else (0, u32 (next_out - dst), m).

(** while (src[i++] != 0); *)
Fixpoint skip_string (fuel : nat) (m : mem) (src i : Z) : option Z :=
  match fuel with
  | O => None
  | S f => if m (src + i) =? 0 then Some (i + 1) else skip_string f m src (i + 1)
  end.

(** The offset of the compressed data; [Some None] for a header that is not gzip's. *)
Definition gunzip_header (fuel : nat) (m : mem) (src : Z) : option (option Z) :=
  let flags := m (src + 3) in
  let has f := negb (flags .& f =? 0) in
  if negb (m (src + 2) =? DEFLATED) || has RESERVED then Some None
  else
    let i := if has EXTRA_FIELD then 12 + m (src + 10) + (m (src + 11) .<< 8) else 10 in
    match (if has ORIG_NAME then skip_string fuel m src i else Some i) with
    | None => None
    | Some i =>
        match (if has COMMENT then skip_string fuel m src i else Some i) with
        | None => None
        | Some i => Some (Some (if has HEAD_CRC then i + 2 else i))
        end
    end.

(** The result, the new length and the memory. *)
Definition gunzip (fuel : nat) (m : mem) (dst dstlen src lenp : Z) : option (Z * Z * mem) :=
  match gunzip_header fuel m src with
  | None => None
  | Some None => Some (-1, lenp, m)
  | Some (Some i) => if lenp <=? i then Some (-1, lenp, m) else Some (zunzip m dst dstlen src lenp true i)
  end.

(** The result, load_end (0 when it is not set) and the memory. *)
Definition bootm_load_os (fuel : nat) (o : image_info) (m : mem) : option (Z * Z * mem) :=
  let overlap load_end := if (load o <? end_ o) && (start o <? load_end) then BOOTM_ERR_OVERLAP else 0 in
  if comp o =? IH_COMP_NONE then
    let m := if load o =? start o then m else memmove_wd m (load o) (image_start o) (image_len o) in
    let load_end := u32 (load o + image_len o) in
    Some (overlap load_end, load_end, m)
  else if comp o =? IH_COMP_GZIP then
    match gunzip fuel m (load o) CONFIG_SYS_BOOTM_LEN (image_start o) (image_len o) with
    | None => None
    | Some (r, image_len, m) =>
        if negb (r =? 0) then Some (BOOTM_ERR_RESET, 0, m)
        else let load_end := u32 (load o + image_len) in Some (overlap load_end, load_end, m)
    end
  else Some (BOOTM_ERR_UNIMPLEMENTED, 0, m).

(** ** The command *)

Section command.
(** getenv, the memory size of bd_info, gd->ram_size, the stack pointer, bd_info's
    bytes, the default load address; one fuel for the loops. *)
Context (getenv : list Z -> option (list Z)) (bi_memsize ram_size sp : Z) (bd : list Z) (load_addr : Z) (fuel : nat).

Definition arch_lmb_reserve (l : lmb) : lmb :=
  let bootmap_base := getenv_bootm_low getenv in
  let bootm_size := getenv_bootm_size getenv bi_memsize in
  let size := Z.min (Z.min bootm_size ram_size) CONFIG_SYS_LINUX_LOWMEM_MAX_SIZE in
  let l := if size <? bootm_size then snd (lmb_reserve l (u32 (bootmap_base + size)) (bootm_size - size)) else l in
  let sp := u32 (sp - 4096) in
  snd (lmb_reserve l sp (u32 (CONFIG_SYS_SDRAM_BASE + ram_size - sp))).

Definition bootm_start_lmb : lmb :=
  let l := snd (lmb_add lmb_init (getenv_bootm_low getenv) (getenv_bootm_size getenv bi_memsize)) in
  arch_lmb_reserve l.

Definition image_get_kernel (m : mem) (img_addr : Z) (verify : bool) : option Z :=
  if negb (image_check_magic m img_addr) then None
  else if negb (image_check_hcrc m img_addr) then None
  else if verify && negb (image_check_dcrc m img_addr) then None
  else if negb (image_check_target_arch m img_addr) then None
  else Some img_addr.

(** The header, the data and its length; [Some None] is the NULL result. *)
Definition boot_get_kernel (m : mem) (argv : list (list Z)) (verify : bool) : option (option (Z * Z * Z)) :=
  let img_addr :=
    match argv with _ :: a :: _ => fst (simple_strtoul a 16) | _ => load_addr end in
  let img_addr := genimg_get_image img_addr in
  if negb (genimg_get_format m img_addr =? IMAGE_FORMAT_LEGACY) then Some None
  else
    match image_get_kernel m img_addr verify with
    | None => Some None
    | Some hdr =>
        let t := image_get_type m hdr in
        if (t =? IH_TYPE_KERNEL) || (t =? IH_TYPE_STANDALONE) then
          Some (Some (hdr, image_get_data hdr, image_get_data_size m hdr))
        else if t =? IH_TYPE_MULTI then
          match image_multi_getimg fuel m hdr 0 with
          | None => None
          | Some (data, len) => Some (Some (hdr, data, len))
          end
        else Some None
    end.

Definition bootm_start (m : mem) (argv : list (list Z)) : option (Z * bootm_headers) :=
  let verify := getenv_yesno getenv (str "verify") in
  let i := Headers None (os_info images_zero) 0 0 0 0 0 0 0 0 verify 0 bootm_start_lmb in
  match boot_get_kernel m argv verify with
  | None => None
  | Some None => Some (1, i)
  | Some (Some (hdr, data, len)) =>
      let copy := fun x => m (hdr + x) in
      if len =? 0 then Some (1, set_kernel i (Some (hdr, copy)) (ImageInfo 0 0 data 0 0 0 0 0) (ep i))
      else
        let info st := ImageInfo st (image_get_image_end m hdr) data len (image_get_load m hdr)
                         (image_get_comp m hdr) (image_get_type m hdr) (image_get_os m hdr) in
        let o := info 0 in
        let i := set_kernel i (Some (hdr, copy)) o (image_get_ep copy 0) in
        let started i := set_state (set_kernel i (legacy_hdr_os i) (info hdr) (ep i)) BOOTM_STATE_START in
        if ((type o =? IH_TYPE_KERNEL) || (type o =? IH_TYPE_MULTI)) && (os o =? IH_OS_LINUX) then
          match boot_get_ramdisk fuel m argv (legacy_hdr_os i) verify IH_ARCH_PPC with
          | None => None
          | Some (ret, s, e) =>
              let i := set_rd i s e in
              if negb (ret =? 0) then Some (1, i) else Some (0, started i)
          end
        else Some (0, started i)
  end.

(** ** Linux *)

Definition boot_get_cmdline (l : lmb) (m : mem) (bootmap_base : Z) : option (Z * Z * Z * lmb * mem) :=
  match lmb_alloc_base fuel l CONFIG_SYS_BARGSIZE 0xf (u32 (CONFIG_SYS_BOOTMAPSZ + bootmap_base)) with
  | None => None
  | Some (cmdline, l) =>
      if cmdline =? 0 then Some (-1, 0, 0, l, m)
      else
        let s := match getenv (str "bootargs") with Some s => s | None => [] end in
        Some (0, cmdline, u32 (cmdline + zlen s), l, put_bytes m cmdline (s ++ [0]))
  end.

Definition boot_get_kbd (l : lmb) (m : mem) (bootmap_base : Z) : option (Z * Z * lmb * mem) :=
  match lmb_alloc_base fuel l sizeof_bd_t 0xf (u32 (CONFIG_SYS_BOOTMAPSZ + bootmap_base)) with
  | None => None
  | Some (kbd, l) => if kbd =? 0 then Some (-1, 0, l, m) else Some (0, kbd, l, put_bytes m kbd bd)
  end.

(** bi_intfreq and bi_busfreq in MHz. *)
Definition set_clocks_in_mhz (m : mem) (kbd : Z) : mem :=
  match getenv (str "clocks_in_mhz") with
  | Some _ =>
      let m := store32 m (kbd + 44) (load32 m (kbd + 44) / 1000000) in
      store32 m (kbd + 48) (load32 m (kbd + 48) / 1000000)
  | None => m
  end.

(** The three steps of boot_body_linux(); the result is their return code. *)
Definition boot_cmdline_linux (i : bootm_headers) (m : mem) : option (Z * bootm_headers * mem) :=
  match boot_get_cmdline (lmb_of i) m (getenv_bootm_low getenv) with
  | None => None
  | Some (ret, s, e, l, m) =>
      let i := set_lmb i l in Some (ret, (if ret =? 0 then set_cmdline i s e else i), m)
  end.
Definition boot_bd_t_linux (i : bootm_headers) (m : mem) : option (Z * bootm_headers * mem) :=
  match boot_get_kbd (lmb_of i) m (getenv_bootm_low getenv) with
  | None => None
  | Some (ret, k, l, m) =>
      let i := set_kbd (set_lmb i l) k in Some (ret, i, if ret =? 0 then set_clocks_in_mhz m k else m)
  end.
Definition boot_ramdisk_linux (i : bootm_headers) (m : mem) : option (Z * bootm_headers * mem) :=
  match boot_ramdisk_high getenv fuel (lmb_of i) m (rd_start i) (u32 (rd_end i - rd_start i)) with
  | None => None
  | Some (ret, s, e, l, m) =>
      let i := set_lmb i l in
      Some (ret, set_initrd i s (if ret =? 0 then e else initrd_end i), m)
  end.
Definition boot_body_linux (i : bootm_headers) (m : mem) : option (Z * bootm_headers * mem) :=
  match boot_cmdline_linux i m with
  | Some (0, i, m) =>
      match boot_bd_t_linux i m with
      | Some (0, i, m) => boot_ramdisk_linux i m
      | r => r
      end
  | r => r
  end.

Definition boot_jump_linux (i : bootm_headers) : outcome :=
  Kernel (ep i) (kbd i) (initrd_start i) (initrd_end i) (cmdline_start i) (cmdline_end i).

(** The whole start, with flag 0. *)
Definition do_bootm_linux (i : bootm_headers) (m : mem) : option (outcome * bootm_headers * mem) :=
  match boot_body_linux i m with
  | None => None
  | Some (ret, i, m) => Some (if negb (ret =? 0) then Returned ret else boot_jump_linux i, i, m)
  end.

(** ** do_bootm *)

(** The variables set, then the end: a standalone program starts only if the
    variable autostart is not "no". *)
Definition bootm_start_standalone (i : bootm_headers) (argv : list (list Z)) : outcome * list (list Z * list Z) :=
  if decide (getenv (str "autostart") = Some (str "no")) then
    (Returned 0, [(str "filesize", format_int (str "%lX") (image_len (os_info i)))])
  else (Application (ep i) (tl argv), []).

(** Where a starter's return leads: do_bootm resets the board. *)
Definition start_os (i : bootm_headers) (m : mem) : option (outcome * bootm_headers * mem) :=
  match boot_os (os (os_info i)) with
  | bf_NULL => Some (Returned 1, i, m)
  | do_bootm_linux_ =>
      match do_bootm_linux i m with
      | Some (Returned _, i, m) => Some (Reset, i, m)
      | r => r
      end
  | f => Some (Starter f, i, m)
  end.

Definition run_image (i : bootm_headers) (m : mem) (argv : list (list Z))
  : option (outcome * bootm_headers * mem * list (list Z * list Z)) :=
  match bootm_load_os fuel (os_info i) m with
  | None => None
  | Some (ret, load_end, m) =>
      if ret =? BOOTM_ERR_RESET then Some (Reset, i, m, [])
      else if ret =? BOOTM_ERR_UNIMPLEMENTED then Some (Returned 1, i, m, [])
      else
        let o := os_info i in
        let i := set_lmb i (snd (lmb_reserve (lmb_of i) (load o) (u32 (load_end - load o)))) in
        if type o =? IH_TYPE_STANDALONE then
          let '(r, vars) := bootm_start_standalone i argv in Some (r, i, m, vars)
        else
          match start_os i m with
          | None => None
          | Some (r, i, m) => Some (r, i, m, [])
          end
  end.

(** *** Sub-commands *)

Definition cmd_bootm_sub : list (cmd_tbl Z) :=
  [CmdTbl (str "start") 0 1 false BOOTM_STATE_START; CmdTbl (str "loados") 0 1 false BOOTM_STATE_LOADOS;
   CmdTbl (str "ramdisk") 0 1 false BOOTM_STATE_RAMDISK; CmdTbl (str "cmdline") 0 1 false BOOTM_STATE_OS_CMDLINE;
   CmdTbl (str "bdt") 0 1 false BOOTM_STATE_OS_BD_T; CmdTbl (str "prep") 0 1 false BOOTM_STATE_OS_PREP;
   CmdTbl (str "go") 0 1 false BOOTM_STATE_OS_GO].

(** do_bootm_linux() with one of the stage flags; any other starter is only named. *)
Definition stage_fn (flag : Z) (i : bootm_headers) (m : mem) : option (outcome * bootm_headers * mem) :=
  match boot_os (os (os_info i)) with
  | do_bootm_linux_ =>
      if flag =? BOOTM_STATE_OS_CMDLINE then
        match boot_cmdline_linux i m with Some (_, i, m) => Some (Returned 0, i, m) | None => None end
      else if flag =? BOOTM_STATE_OS_BD_T then
        match boot_bd_t_linux i m with Some (_, i, m) => Some (Returned 0, i, m) | None => None end
      else if flag =? BOOTM_STATE_OS_PREP then Some (Returned 0, i, m)
      else Some (boot_jump_linux i, i, m)
  | f => Some (Starter f, i, m)
  end.

Definition run_stage (s : Z) (i : bootm_headers) (m : mem)
  : option (outcome * bootm_headers * mem * list (list Z * list Z)) :=
  if s =? BOOTM_STATE_LOADOS then
    match bootm_load_os fuel (os_info i) m with
    | None => None
    | Some (ret, load_end, m) =>
        if negb (ret =? 0) then Some (Returned ret, i, m, [])
        else
          let o := os_info i in
          Some (Returned 0, set_lmb i (snd (lmb_reserve (lmb_of i) (load o) (u32 (load_end - load o)))), m, [])
    end
  else if s =? BOOTM_STATE_RAMDISK then
    match boot_ramdisk_linux i m with
    | None => None
    | Some (ret, i, m) =>
        Some (Returned ret, i, m,
          if ret =? 0 then [(str "initrd_start", format_int (str "%lx") (initrd_start i));
                            (str "initrd_end", format_int (str "%lx") (initrd_end i))] else [])
    end
  else match stage_fn s i m with Some (r, i, m) => Some (r, i, m, []) | None => None end.

Definition do_bootm_subcommand (i : bootm_headers) (m : mem) (argv : list (list Z))
  : option (outcome * bootm_headers * mem * list (list Z * list Z)) :=
  match find_cmd_tbl (nth 1 argv []) cmd_bootm_sub with
  | None => Some (Returned 1, i, m, [])
  | Some c =>
      let s := cmd c in
      if s =? BOOTM_STATE_START then
        match bootm_start m (tl argv) with Some (r, i) => Some (Returned r, i, m, []) | None => None end
      else if s <=? state i then Some (Returned 1, i, m, [])
      else run_stage s (set_state i (state i .| s)) m
  end.

(** Is the first argument a sub-command? *)
Definition is_subcommand (argv : list (list Z)) : bool :=
  match argv with
  | _ :: a :: _ =>
      match snd (simple_strtoul a 16) with
      | [] => false
      | c :: _ => negb (c =? chr ":") && negb (c =? chr "#")
      end
  | _ => false
  end.

Definition do_bootm (i : bootm_headers) (m : mem) (argv : list (list Z))
  : option (outcome * bootm_headers * mem * list (list Z * list Z)) :=
  if is_subcommand argv then do_bootm_subcommand i m argv
  else
    match bootm_start m argv with
    | None => None
    | Some (ret, i) => if negb (ret =? 0) then Some (Returned 1, i, m, []) else run_image i m argv
    end.
End command.
End zlib.

(** * Properties *)

(** ** Finding the kernel *)

Section kernel.
Context (load_addr : Z) (fuel : nat).

(** The address the command looks at. *)
Definition kernel_addr (argv : list (list Z)) : Z :=
  match argv with _ :: a :: _ => fst (simple_strtoul a 16) | _ => load_addr end.

Lemma boot_get_kernel_accepts m argv verify hdr f data :
  image_at m hdr f data -> kernel_addr argv = hdr -> f_arch f = IH_ARCH_PPC -> f_type f = IH_TYPE_KERNEL ->
  boot_get_kernel load_addr fuel m argv verify = Some (Some (hdr, hdr + 64, zlen data)).
Proof.
  intros H Ha Harch Ht. destruct (image_valid m hdr f data H) as
    (E1 & E2 & E3 & E4 & E5 & _ & _ & _ & _ & E7 & E8 & _ & _).
  unfold boot_get_kernel, image_get_kernel, genimg_get_format, genimg_get_image, image_check_target_arch, image_check_arch.
  fold (kernel_addr argv). rewrite Ha, E1. cbn [negb]. change (IMAGE_FORMAT_LEGACY =? IMAGE_FORMAT_LEGACY) with true.
  rewrite E2, E3, E7, Harch. destruct verify; cbn [negb andb Z.eqb Pos.eqb IH_ARCH_PPC]; rewrite E8, Ht, E4, E5; reflexivity.
Qed.

(** A failed check ends the search. *)
Lemma boot_get_kernel_refuses m argv hdr :
  kernel_addr argv = hdr -> image_check_hcrc m hdr = false \/ image_check_dcrc m hdr = false ->
  boot_get_kernel load_addr fuel m argv true = Some None.
Proof.
  intros Ha H. unfold boot_get_kernel, image_get_kernel, genimg_get_format, genimg_get_image.
  fold (kernel_addr argv). rewrite Ha. destruct (image_check_magic m hdr); [|reflexivity]. cbn [negb].
  change (IMAGE_FORMAT_LEGACY =? IMAGE_FORMAT_LEGACY) with true. cbn [negb].
  destruct H as [-> | ->]; [reflexivity|]. destruct (image_check_hcrc m hdr); reflexivity.
Qed.
End kernel.

(** C19: a kernel image as mkimage writes it is accepted, with the address and the length of
    its data; with verification on, the same image with any one byte changed, in
    the header or in the data, is refused. *)
Theorem boot_get_kernel_correct load_addr fuel m argv hdr f data :
  image_at m hdr f data -> kernel_addr load_addr argv = hdr ->
  f_arch f = IH_ARCH_PPC -> f_type f = IH_TYPE_KERNEL ->
  (forall verify, boot_get_kernel load_addr fuel m argv verify = Some (Some (hdr, hdr + 64, zlen data))) /\
  bytes_at m (hdr + 64) data /\
  forall a v, hdr <= a < hdr + 64 + zlen data -> is_u8 v -> v <> m a ->
    boot_get_kernel load_addr fuel (upd m a v) argv true = Some None.
Proof.
  intros H Ha Harch Ht. pose proof (image_valid m hdr f data H) as V.
  destruct V as (_ & E2 & E3 & _ & E5 & _ & _ & _ & _ & _ & _ & _ & Hb). destruct H as [Hm Hf Hd Hl Hh Hat] eqn:EH.
  split; [intros; eapply boot_get_kernel_accepts; eauto|]. split; [exact Hb|]. intros a v Hr Hv Hne.
  apply boot_get_kernel_refuses with (hdr := hdr); [exact Ha|].
  destruct (Z_lt_dec a (hdr + 64)); [left; apply header_change; auto; lia|].
  right. apply data_change; auto; rewrite ?E5; pose proof (zlen_nonneg data); lia.
Qed.

Lemma boot_get_kernel_correct_witness :
  let m := ex_image_mem in let argv := [str "bootm"; str "800000"] in
  boot_get_kernel 0 0 m argv true = Some (Some (0x800000, 0x800040, 11)) /\
  boot_get_kernel 0 0 (upd m 0x800042 0) argv true = Some None.
Proof.
  intros m argv.
  destruct (boot_get_kernel_correct 0 0 m argv 0x800000 ex_fields ex_data) as (H1 & _ & H2); [|reflexivity..|].
  - apply put_image_at; [apply zero_ok|apply ex_fields_ok|apply all_u8_spec; reflexivity|lia|reflexivity].
  - split; [exact (H1 true)|]. apply H2; [vm_compute; split; congruence|unfold_words; lia|vm_compute; congruence].
Defined.

(** ** Loading *)

Lemma memmove_wd_spec m dest src count : 0 <= count -> moved dest src count m (memmove_wd m dest src count).
Proof.
  intros Hc. unfold memmove_wd. destruct (Z.eqb_spec dest src) as [->|]; [|apply memmove_spec, Hc].
  split; [reflexivity|apply same_outside_refl].
Qed.
Lemma moved_bytes dest src l m m' : moved dest src (zlen l) m m' -> bytes_at m src l -> bytes_at m' dest l.
Proof. intros [H _] Hb. eapply bytes_at_move; eauto. Qed.

(** *** gzip members (RFC 1952) *)

Record gz_header := GzHeader {
  g_text : bool; g_mtime : list Z; g_xfl : Z; g_os : Z;
  g_extra : option (list Z); g_name : option (list Z); g_comment : option (list Z); g_hcrc : option (list Z)
}.
Definition opt_bit (b : bool) (v : Z) : Z := if b then v else 0.
Definition has {A} (o : option A) : bool := match o with Some _ => true | None => false end.
Definition g_flags (h : gz_header) : Z :=
  opt_bit (g_text h) 1 + opt_bit (has (g_hcrc h)) 2 + opt_bit (has (g_extra h)) 4 +
  opt_bit (has (g_name h)) 8 + opt_bit (has (g_comment h)) 16.
Definition opt_string (o : option (list Z)) : list Z := match o with Some s => s ++ [0] | None => [] end.
Definition opt_extra (o : option (list Z)) : list Z :=
  match o with Some e => [zlen e mod 256; zlen e / 256] ++ e | None => [] end.
Definition gz_bytes (h : gz_header) : list Z :=
  [0x1f; 0x8b; 8; g_flags h] ++ g_mtime h ++ [g_xfl h; g_os h] ++ opt_extra (g_extra h) ++
  opt_string (g_name h) ++ opt_string (g_comment h) ++ default [] (g_hcrc h).
Definition no_zero (o : option (list Z)) : Prop := Forall (fun c => c <> 0) (default [] o).
Record gz_ok (h : gz_header) : Prop := {
  ok_mtime : zlen (g_mtime h) = 4;
  ok_extra : zlen (default [] (g_extra h)) < 65536;
  ok_name : no_zero (g_name h);
  ok_comment : no_zero (g_comment h);
  ok_hcrc : has (g_hcrc h) = true -> zlen (default [] (g_hcrc h)) = 2
}.

Lemma flag_bits t c e n k :
  let f := opt_bit t 1 + opt_bit c 2 + opt_bit e 4 + opt_bit n 8 + opt_bit k 16 in
  negb (f .& RESERVED =? 0) = false /\ negb (f .& EXTRA_FIELD =? 0) = e /\ negb (f .& ORIG_NAME =? 0) = n /\
  negb (f .& COMMENT =? 0) = k /\ negb (f .& HEAD_CRC =? 0) = c.
Proof. destruct t, c, e, n, k; vm_compute; auto. Qed.

Lemma skip_string_spec m src s : forall fuel i,
  Forall (fun c => c <> 0) s -> bytes_at m (src + i) (s ++ [0]) -> (length s < fuel)%nat ->
  skip_string fuel m src i = Some (i + zlen (s ++ [0])).
Proof.
  induction s as [|c s IH]; intros fuel i Hs Hb Hf; (destruct fuel as [|fuel]; [simpl in Hf; lia|]); cbn [skip_string];
    destruct Hb as [Hc Hb]; rewrite Hc; [reflexivity|].
  inversion Hs as [|? ? Hc0 Hs']; subst. rewrite (proj2 (Z.eqb_neq _ _) Hc0).
  rewrite IH; [|exact Hs'|rewrite Z.add_assoc; exact Hb|simpl in Hf; lia]. cbn [app]. rewrite zlen_cons. f_equal. lia.
Qed.

(** An optional string, in the way the header's loops skip it. *)
Lemma skip_optional m src o fuel i :
  no_zero o -> bytes_at m (src + i) (opt_string o) -> (length (opt_string o) <= fuel)%nat ->
  (if has o then skip_string fuel m src i else Some i) = Some (i + zlen (opt_string o)).
Proof.
  intros Hn Hb Hf. destruct o as [s|]; cbn [has opt_string] in *; [|rewrite zlen_nil, Z.add_0_r; reflexivity].
  apply skip_string_spec; [exact Hn|exact Hb|]. rewrite length_app in Hf. simpl in Hf. lia.
Qed.

Lemma bytes_at_addr m a b l : bytes_at m a l -> a = b -> bytes_at m b l.
Proof. intros H ->. exact H. Qed.

Lemma extra_length m src o :
  zlen (default [] o) < 65536 -> bytes_at m (src + 10) (opt_extra o) ->
  (if has o then 12 + m (src + 10) + (m (src + 11) .<< 8) else 10) = 10 + zlen (opt_extra o).
Proof.
  intros He Hb. destruct o as [e|]; [|reflexivity]. cbn [has opt_extra default app] in *. destruct Hb as (E1 & E2 & _).
  replace (src + 10 + 1) with (src + 11) in E2 by lia. rewrite E1, E2, !zlen_cons, Z.shiftl_mul_pow2 by lia.
  Z.div_mod_to_equations. lia.
Qed.

Lemma gunzip_header_spec fuel m src h :
  gz_ok h -> bytes_at m src (gz_bytes h) -> (length (gz_bytes h) <= fuel)%nat ->
  gunzip_header fuel m src = Some (Some (zlen (gz_bytes h))).
Proof.
  intros [Ht He Hn Hc Hh] Hb Hf. unfold gz_bytes in *. rewrite !length_app in Hf.
  apply bytes_at_app in Hb as [(_ & _ & E2 & E3 & _) Hb]. replace (src + 1 + 1) with (src + 2) in * by lia.
  replace (src + 2 + 1) with (src + 3) in * by lia.
  apply bytes_at_app in Hb as [_ Hb]. apply bytes_at_app in Hb as [_ Hb].
  apply bytes_at_app in Hb as [H1 Hb]. apply bytes_at_app in Hb as [H2 Hb]. apply bytes_at_app in Hb as [H3 _].
  rewrite !zlen_app, Ht. zlen_simpl. rewrite ?zlen_cons, ?zlen_nil, Ht in *.
  unfold gunzip_header. rewrite E2, E3. change (8 =? DEFLATED) with true. cbn [negb orb].
  destruct (flag_bits (g_text h) (has (g_hcrc h)) (has (g_extra h)) (has (g_name h)) (has (g_comment h)))
    as (F1 & F2 & F3 & F4 & F5). fold (g_flags h) in *. rewrite F1, F2, F3, F4, F5.
  rewrite (extra_length m src _ He) by (eapply bytes_at_addr; [exact H1|lia]).
  rewrite skip_optional; [|exact Hn|eapply bytes_at_addr; [exact H2|lia]|lia].
  rewrite skip_optional; [|exact Hc|eapply bytes_at_addr; [exact H3|lia]|lia].
  do 2 f_equal. destruct (g_hcrc h); cbn [has] in *; [rewrite (Hh eq_refl)|change (zlen (default [] None)) with 0]; lia.
Qed.

(** *** zlib

    [deflated z d]: the deflate stream [z] decodes to [d]. *)
Record zlib_promises (inflateInit2 : Z) (inflate : mem -> Z -> Z -> Z -> Z -> Z * Z * mem)
    (deflated : list Z -> list Z -> Prop) : Prop := {
  inits : inflateInit2 = Z_OK;
  inflates m src n dst space z d :
    bytes_at m src z -> zlen z <= n -> deflated z d -> zlen d <= space -> src + n <= dst \/ dst + space <= src ->
    exists m', inflate m src n dst space = (Z_STREAM_END, dst + zlen d, m') /\
      bytes_at m' dst d /\ same_outside dst (dst + space) m m'
}.

(** A gzip member: header, stream, the eight bytes of trailer. *)
Definition gzip_member (h : gz_header) (z trailer : list Z) : list Z := gz_bytes h ++ z ++ trailer.

Section gunzip.
Context (inflateInit2 : Z) (inflate : mem -> Z -> Z -> Z -> Z -> Z * Z * mem) (deflated : list Z -> list Z -> Prop).
Context (Hz : zlib_promises inflateInit2 inflate deflated).

Lemma gunzip_spec fuel m dst space src h z d trailer :
  gz_ok h -> deflated z d -> z <> [] -> 0 <= src -> 0 <= dst -> zlen d <= space ->
  src + zlen (gzip_member h z trailer) < 4294967296 -> dst + zlen d < 4294967296 ->
  src + zlen (gzip_member h z trailer) <= dst \/ dst + space <= src ->
  bytes_at m src (gzip_member h z trailer) -> (length (gz_bytes h) <= fuel)%nat ->
  exists m', gunzip inflateInit2 inflate fuel m dst space src (zlen (gzip_member h z trailer)) = Some (0, zlen d, m') /\
    bytes_at m' dst d /\ same_outside dst (dst + space) m m'.
Proof.
  intros Hh Hd Hne H0 H1 Hs Hls Hld Hdis Hb Hf. unfold gzip_member in *.
  apply bytes_at_app in Hb as [Hg Hb]. apply bytes_at_app in Hb as [Hb _].
  assert (0 < zlen z) as Hzl by (destruct z; [congruence|]; zlen_simpl; lia).
  unfold gunzip. rewrite (gunzip_header_spec fuel m src h Hh Hg Hf). zlen_simpl.
  rewrite (proj2 (Z.leb_gt _ _)) by lia. unfold zunzip. rewrite (inits _ _ _ Hz). cbn [negb Z.eqb Z_OK].
  rewrite !u32_small by lia.
  destruct (inflates _ _ _ Hz m (src + zlen (gz_bytes h)) (zlen (gz_bytes h) + (zlen z + zlen trailer) - zlen (gz_bytes h))
    dst space z d Hb ltac:(lia) Hd Hs ltac:(lia)) as (m' & E & R).
  rewrite E. change (negb (Z_STREAM_END =? Z_STREAM_END) && true) with false. cbn iota.
  replace (dst + zlen d - dst) with (zlen d) by lia. rewrite u32_small by lia. eauto.
Qed.
End gunzip.

(** *** bootm_load_os *)

Section load.
Context (inflateInit2 : Z) (inflate : mem -> Z -> Z -> Z -> Z -> Z * Z * mem) (deflated : list Z -> list Z -> Prop).
Context (Hz : zlib_promises inflateInit2 inflate deflated).

(** What an image stores for the plain bytes, by its compression. *)
Inductive stored_as : Z -> list Z -> list Z -> Prop :=
  | stored_plain d : stored_as IH_COMP_NONE d d
  | stored_gzip h z trailer d : gz_ok h -> deflated z d -> z <> [] -> zlen d <= CONFIG_SYS_BOOTM_LEN ->
      stored_as IH_COMP_GZIP (gzip_member h z trailer) d.

(** Where the loader may write. *)
Definition load_space (comp : Z) (d : list Z) : Z := if comp =? IH_COMP_NONE then zlen d else CONFIG_SYS_BOOTM_LEN.

(** [o] describes an image at [start o] whose data is [stored]. *)
Record described (m : mem) (o : image_info) (stored d : list Z) : Prop := {
  d_start : 0 <= start o <= image_start o;
  d_end : image_start o + image_len o <= end_ o < 4294967296;
  d_len : image_len o = zlen stored;
  d_bytes : bytes_at m (image_start o) stored;
  d_stored : stored_as (comp o) stored d;
  d_some : d <> [];
  d_load : 0 <= load o;
  d_fits : load o + zlen d < 4294967296
}.
Definition clashes (o : image_info) (d : list Z) : Prop :=
  exists a, start o <= a < end_ o /\ load o <= a < load o + zlen d.

Lemma overlap_code o stored d m :
  described m o stored d ->
  let r := if (load o <? end_ o) && (start o <? load o + zlen d) then BOOTM_ERR_OVERLAP else 0 in
  (r = 0 /\ ~ clashes o d) \/ (r = BOOTM_ERR_OVERLAP /\ clashes o d).
Proof.
  intros [H1 H2 H3 _ Hst Hd _ _]. assert (0 < zlen d) by (destruct d; [congruence|zlen_simpl; lia]).
  pose proof (zlen_nonneg stored). unfold clashes.
  assert (start o < end_ o) as He.
  { inversion Hst as [|h z trailer ? ? ? Hne]; subst; [lia|]. unfold gzip_member in *. destruct z; [congruence|]. zlen_simpl. lia. }
  destruct (Z.ltb_spec (load o) (end_ o)), (Z.ltb_spec (start o) (load o + zlen d)); [right|left..];
    (split; [reflexivity|]); [|intros (a & ? & ?); lia..].
  exists (Z.max (start o) (load o)). lia.
Qed.

Lemma bootm_load_spec fuel o m stored d :
  described m o stored d -> load o <> start o ->
  (comp o = IH_COMP_GZIP -> end_ o <= load o \/ load o + CONFIG_SYS_BOOTM_LEN <= start o) -> (length stored <= fuel)%nat ->
  exists r m', bootm_load_os inflateInit2 inflate fuel o m = Some (r, load o + zlen d, m') /\
    bytes_at m' (load o) d /\ same_outside (load o) (load o + load_space (comp o) d) m m' /\
    ((r = 0 /\ ~ clashes o d) \/ (r = BOOTM_ERR_OVERLAP /\ clashes o d)).
Proof.
  intros H Hx Hg Hf. pose proof (overlap_code o stored d m H) as R. cbv zeta in R.
  destruct H as [H1 H2 H3 Hb Hst Hd H4 H5]. pose proof (zlen_nonneg d). unfold bootm_load_os, load_space.
  destruct Hst as [d|h z trailer d Hh Hdef Hne Hs].
  - change (IH_COMP_NONE =? IH_COMP_NONE) with true. cbn iota. rewrite (proj2 (Z.eqb_neq _ _) Hx), H3, u32_small by lia.
    pose proof (memmove_wd_spec m (load o) (image_start o) (zlen d) ltac:(lia)) as M.
    do 2 eexists. split; [reflexivity|]. split; [eapply moved_bytes; eauto|]. split; [apply M|exact R].
  - change (IH_COMP_GZIP =? IH_COMP_NONE) with false. change (IH_COMP_GZIP =? IH_COMP_GZIP) with true. cbn iota.
    specialize (Hg eq_refl). rewrite H3. destruct (gunzip_spec inflateInit2 inflate deflated Hz fuel m (load o) CONFIG_SYS_BOOTM_LEN (image_start o) h z d trailer)
      as (m' & E & E1 & E2); auto; try lia.
    { unfold gzip_member in Hf. rewrite length_app in Hf. lia. }
    rewrite E. cbn [negb Z.eqb]. rewrite u32_small by lia. do 2 eexists. split; [reflexivity|]. auto.
Qed.
End load.


(** A codec: a length byte, then the bytes. *)
Definition toy_deflated (z d : list Z) : Prop := z = zlen d :: d.
Definition toy_inflate (m : mem) (src n dst space : Z) : Z * Z * mem :=
  (Z_STREAM_END, dst + m src, copy_up (Z.to_nat (m src)) m dst (src + 1)).
Lemma toy_promises : zlib_promises Z_OK toy_inflate toy_deflated.
Proof.
  constructor; [reflexivity|]. intros m src n dst space z d Hb Hn -> Hs Hd. destruct Hb as [E Hb].
  pose proof (zlen_nonneg d). rewrite zlen_cons in Hn. unfold toy_inflate. rewrite E. eexists. split; [reflexivity|].
  destruct (copy_up_spec (Z.to_nat (zlen d)) m dst (src + 1)) as [O C]; [lia|]. rewrite Z2Nat.id in * by lia. split.
  - eapply bytes_at_move; [exact C|exact Hb].
  - eapply same_outside_weaken; [exact O|lia|lia].
Qed.

Definition ex_gz : gz_header := GzHeader false [0; 0; 0; 0] 2 3 None (Some (str "vmlinux")) None None.
Definition ex_member : list Z := gzip_member ex_gz (11 :: ex_data) (repeat 0 8).
Definition ex_info (c : Z) (stored : list Z) : image_info :=
  ImageInfo 0x1000000 (0x1000040 + zlen stored) 0x1000040 (zlen stored) 0x400000 c IH_TYPE_KERNEL IH_OS_LINUX.
Lemma ex_stored : stored_as toy_deflated IH_COMP_GZIP ex_member ex_data.
Proof.
  apply stored_gzip; [|reflexivity|discriminate|vm_compute; congruence].
  constructor; [reflexivity|reflexivity| |constructor|discriminate]. repeat constructor; vm_compute; congruence.
Qed.


(** An image executed where it is always counts as overwritten. *)
Lemma xip_overlaps inflateInit2 inflate fuel o m :
  comp o = IH_COMP_NONE -> load o = start o -> 0 <= start o < end_ o -> 0 < image_len o -> load o + image_len o < 4294967296 ->
  bootm_load_os inflateInit2 inflate fuel o m = Some (BOOTM_ERR_OVERLAP, load o + image_len o, m).
Proof.
  intros Hc Hl Hs Hn Hf. unfold bootm_load_os. rewrite Hc. change (IH_COMP_NONE =? IH_COMP_NONE) with true. cbn iota.
  rewrite (proj2 (Z.eqb_eq _ _) Hl), u32_small by lia. rewrite !(proj2 (Z.ltb_lt _ _)) by lia. reflexivity.
Qed.

(** ** The order of the stages *)

Section session.
Context (inflateInit2 : Z) (inflate : mem -> Z -> Z -> Z -> Z -> Z * Z * mem).
Context (getenv : list Z -> option (list Z)) (bi_memsize ram_size sp : Z) (bd : list Z) (load_addr : Z) (fuel : nat).

(** The bootm commands of a console session, as long as they return to it. *)
Fixpoint session (i : bootm_headers) (m : mem) (calls : list (list (list Z))) : option (bootm_headers * mem) :=
  match calls with
  | [] => Some (i, m)
  | argv :: calls =>
      match do_bootm inflateInit2 inflate getenv bi_memsize ram_size sp bd load_addr fuel i m argv with
      | Some (Returned _, i, m, _) => session i m calls
      | _ => None
      end
  end.

(** The stage a call asks for, "bootm start" and a plain bootm apart. *)
Definition stage_of (argv : list (list Z)) : option Z :=
  if is_subcommand argv then
    match find_cmd_tbl (nth 1 argv []) cmd_bootm_sub with
    | Some c => if cmd c =? BOOTM_STATE_START then None else Some (cmd c)
    | None => None
    end
  else None.

(** The stages' bodies leave the state word alone. *)
Lemma cmdline_state i m r i' m' : boot_cmdline_linux getenv fuel i m = Some (r, i', m') -> state i' = state i.
Proof.
  unfold boot_cmdline_linux. destruct (boot_get_cmdline _ _ _ _ _) as [[[[[? ?] ?] ?] ?]|]; [|discriminate].
  intros [= _ <- _]. case_match; reflexivity.
Qed.
Lemma bd_t_state i m r i' m' : boot_bd_t_linux getenv bd fuel i m = Some (r, i', m') -> state i' = state i.
Proof.
  unfold boot_bd_t_linux. destruct (boot_get_kbd _ _ _ _ _) as [[[[? ?] ?] ?]|]; [|discriminate].
  intros [= _ <- _]. reflexivity.
Qed.
Lemma ramdisk_state i m r i' m' : boot_ramdisk_linux getenv fuel i m = Some (r, i', m') -> state i' = state i.
Proof.
  unfold boot_ramdisk_linux. destruct (boot_ramdisk_high _ _ _ _ _ _) as [[[[[? ?] ?] ?] ?]|]; [|discriminate].
  intros [= _ <- _]. reflexivity.
Qed.
Lemma stage_fn_state s i m r i' m' : stage_fn getenv bd fuel s i m = Some (r, i', m') -> state i' = state i.
Proof.
  unfold stage_fn. destruct (boot_os _); try (intros [= _ <- _]; reflexivity). repeat case_match; intros [= _ <- _]; subst;
    first [reflexivity | eapply cmdline_state; eassumption | eapply bd_t_state; eassumption].
Qed.
Lemma run_stage_state s i m r i' m' v :
  run_stage inflateInit2 inflate getenv bd fuel s i m = Some (r, i', m', v) -> state i' = state i.
Proof.
  unfold run_stage. repeat case_match; intros [= _ <- _ _]; subst;
    first [reflexivity | eapply ramdisk_state; eassumption | eapply stage_fn_state; eassumption].
Qed.

(** A call for a stage that is not past the ones run is refused; any other records its stage. *)
Lemma stage_call i m argv s r i' m' v :
  stage_of argv = Some s ->
  do_bootm inflateInit2 inflate getenv bi_memsize ram_size sp bd load_addr fuel i m argv = Some (r, i', m', v) ->
  (s <= state i /\ (r, i', m', v) = (Returned 1, i, m, [])) \/ (state i < s /\ state i' = state i .| s).
Proof.
  unfold stage_of, do_bootm, do_bootm_subcommand. destruct (is_subcommand argv); [|discriminate].
  destruct (find_cmd_tbl _ _) as [c|]; [|discriminate]. destruct (cmd c =? BOOTM_STATE_START); [discriminate|].
  intros [= <-]. destruct (Z.leb_spec (cmd c) (state i)); [intros [= <- <- <- <-]; auto|].
  intros E. apply run_stage_state in E. rewrite E. auto.
Qed.
Lemma stage_refused i m argv s :
  stage_of argv = Some s -> s <= state i ->
  do_bootm inflateInit2 inflate getenv bi_memsize ram_size sp bd load_addr fuel i m argv = Some (Returned 1, i, m, []).
Proof.
  unfold stage_of, do_bootm, do_bootm_subcommand. destruct (is_subcommand argv); [|discriminate].
  destruct (find_cmd_tbl _ _) as [c|]; [|discriminate]. destruct (cmd c =? BOOTM_STATE_START); [discriminate|].
  intros [= <-] Hs. rewrite (proj2 (Z.leb_le _ _) Hs). reflexivity.
Qed.

Lemma lor_ge_l a b : 0 <= a -> 0 <= b -> a <= a .| b.
Proof.
  intros Ha Hb. apply Z.ldiff_le; [apply Z.lor_nonneg; auto|]. apply Z.bits_inj'. intros n Hn.
  rewrite Z.ldiff_spec, Z.lor_spec, Z.bits_0. btauto.
Qed.

Lemma session_state calls : forall i m i' m',
  Forall (fun a => stage_of a <> None) calls -> 0 <= state i -> session i m calls = Some (i', m') -> state i <= state i'.
Proof.
  induction calls as [|argv calls IH]; intros i m i' m' Hc H0 E; cbn [session] in E; [injection E as -> ->; lia|].
  inversion Hc as [|? ? Hs Hc']; subst. destruct (stage_of argv) as [s|] eqn:Es; [|congruence].
  destruct (do_bootm _ _ _ _ _ _ _ _ _ _ _ _) as [[[[r i1] m1] v]|] eqn:Ed; [|discriminate].
  assert (state i <= state i1).
  { destruct (stage_call _ _ _ _ _ _ _ _ Es Ed) as [[_ [= _ -> _ _]]|[Hl ->]]; [lia|]. apply lor_ge_l; lia. }
  destruct r; try discriminate. specialize (IH i1 m1 i' m' Hc' ltac:(lia) E). lia.
Qed.
End session.

(** C22: the stages of a session run in order: once a stage has been asked for, every later
    call for it or for an earlier one is refused with the usage message and
    changes nothing, whatever stages are called in between. *)
Theorem bootm_stages_ordered inflateInit2 inflate getenv bi_memsize ram_size sp bd load_addr fuel
    i m argv s r i1 m1 v calls i2 m2 argv' s' :
  let bootm := do_bootm inflateInit2 inflate getenv bi_memsize ram_size sp bd load_addr fuel in
  0 <= state i -> stage_of argv = Some s -> bootm i m argv = Some (Returned r, i1, m1, v) ->
  Forall (fun a => stage_of a <> None) calls ->
  session inflateInit2 inflate getenv bi_memsize ram_size sp bd load_addr fuel i1 m1 calls = Some (i2, m2) ->
  stage_of argv' = Some s' -> s' <= s -> bootm i2 m2 argv' = Some (Returned 1, i2, m2, []).
Proof.
  intros bootm H0 Hs E Hc Es Hs' Hle. eapply stage_refused; [exact Hs'|].
  assert (0 <= s) as Hs0.
  { unfold stage_of in Hs. destruct (is_subcommand argv); [|discriminate].
    destruct (find_cmd_tbl _ _) as [c|] eqn:Ec; [|discriminate]. apply find_cmd_in in Ec.
    case_match; [discriminate|]. injection Hs as <-. cbn in Ec. intuition (subst c; vm_compute; congruence). }
  assert (s <= state i1 /\ 0 <= state i1) as [H1 H2].
  { destruct (stage_call _ _ _ _ _ _ _ _ _ _ _ _ _ _ _ _ _ Hs E) as [[? [= _ -> _ _]]|[Hl ->]]; [lia|].
    rewrite Z.lor_comm. split; [apply lor_ge_l; lia|]. apply Z.lor_nonneg. lia. }
  apply session_state in Es; auto. lia.
Qed.

Definition ex_headers : bootm_headers :=
  set_state (set_kernel images_zero None (ex_info IH_COMP_NONE ex_data) 0x400000) BOOTM_STATE_START.
Lemma bootm_stages_ordered_witness :
  let i := set_state ex_headers (1 .| 0x40) in
  do_bootm Z_OK toy_inflate (fun _ => None) 0x2000000 0x2000000 0x1e00000 [] 0 10 i (fun _ => 0) [str "bootm"; str "ramdisk"] =
    Some (Returned 1, i, fun _ => 0, []).
Proof.
  intros i.
  apply (bootm_stages_ordered Z_OK toy_inflate (fun _ => None) 0x2000000 0x2000000 0x1e00000 [] 0 10
    ex_headers (fun _ => 0) [str "bootm"; str "prep"] 0x40 0 i (fun _ => 0) [] [] i (fun _ => 0) [str "bootm"; str "ramdisk"] 4).
  - vm_compute. congruence.
  - reflexivity.
  - reflexivity.
  - constructor.
  - reflexivity.
  - reflexivity.
  - lia.
Defined.

(** ** The handover to Linux *)

(** *** Allocating *)

(** [l] stands for the ranges [lr], valid ones. *)
Definition reserves (l : lmb) (lr : list lmb_property) : Prop :=
  rep (reserved l) lr /\ Forall Lmb.valid lr /\ lr <> [].
(** [l'] reserves the block [b, e) besides what [lr] covers, of which the first [size] bytes were free. *)
Definition grown (lr lr' : list lmb_property) (b e : Z) : Prop :=
  forall a, covers lr' a <-> covers lr a \/ b <= a < e.
Definition free_block (lr : list lmb_property) (b e : Z) : Prop := forall a, b <= a < e -> ~ covers lr a.

Lemma range_ok_valid lr : Forall Lmb.valid lr -> Forall range_ok lr.
Proof. apply List.Forall_impl. intros p Hp. unfold range_ok. ranges. lia. Qed.
Lemma not_overlaps_free lr b size : Forall (fun q => ~ overlaps b size q) lr -> free_block lr b (b + size).
Proof.
  intros H a Ha Hc. apply List.Exists_exists in Hc as (q & Hin & Hq). rewrite List.Forall_forall in H.
  apply (H q Hin). unfold overlaps. ranges. lia.
Qed.
Lemma not_overlaps_disjoint b size q : 0 < size -> Lmb.valid q -> ~ overlaps b size q ->
  disjoint_from (Prop_ b size) q.
Proof. unfold overlaps. intros. ranges. lia. Qed.

Section allocation.
Context (fuel : nat) (l : lmb) (lm lr : list lmb_property) (Hm : rep (memory l) lm) (Vm : Forall range_ok lm).
Context (Hr : reserves l lr) (Hf : (8 < fuel)%nat).

Lemma fuel_enough : (length lr < fuel)%nat.
Proof. destruct Hr as [[_ (rest & _ & _ & H)] _]. lia. Qed.

(** A block whose size the alignment does not round up keeps the table in order. *)
Lemma alloc_exact size align max_addr :
  wf lr -> 0 < size -> size <= max_addr < 4294967296 -> lmb_align_up size align = size ->
  exists b l', lmb_alloc_base fuel l size align max_addr = Some (b, l') /\
    (b = 0 \/ exists lr', 0 <= b /\ b + size <= max_addr /\ free_block lr b (b + size) /\
       memory l' = memory l /\ reserves l' lr' /\ wf lr' /\ grown lr lr' b (b + size)).
Proof.
  intros Hw Hs Hmax Hal. destruct Hr as (Hrep & Hv & Hne).
  destruct (alloc_base_spec fuel l lm lr size align max_addr Hm Vm Hrep (range_ok_valid _ Hv) ltac:(lia) ltac:(lia) fuel_enough)
    as (b & l' & E & R). exists b, l'. split; [exact E|].
  destruct R as [->|(p & Hp & R1 & R2 & R3 & _ & R5 & R6 & R7)]; [auto|]. right.
  rewrite List.Forall_forall in Vm. specialize (Vm p Hp). unfold range_ok in Vm. rewrite Hal in *.
  assert (Lmb.valid (Prop_ b size)) as Hx by (ranges; lia).
  assert (Forall (disjoint_from (Prop_ b size)) lr) as Hd.
  { apply List.Forall_forall. intros q Hq. rewrite List.Forall_forall in R5, Hv. apply not_overlaps_disjoint; auto. }
  pose proof (add_region_spec (Prop_ b size) (reserved l) lr Hx Hrep Hw Hne Hd) as [(lr' & _ & N & Rp & W & C)|[Efull _]].
  - pose proof (not_overlaps_free lr b size R5). pose proof (wf_valid _ W). exists lr'. subst l'. cbn [rbase rsize] in *. unfold reserves. split_and!; auto; lia.
  - cbn [rbase rsize] in *. rewrite Efull in R6. cbn in R6. lia.
Qed.

(** Any other block: the table covers what it covered, the block and its rounded tail. *)
Lemma alloc_rounded size align max_addr :
  wf lr -> 0 < size <= lmb_align_up size align -> size <= max_addr ->
  max_addr + (lmb_align_up size align - size) < 4294967296 ->
  exists b l', lmb_alloc_base fuel l size align max_addr = Some (b, l') /\
    (b = 0 \/ exists lr', 0 <= b /\ b + size <= max_addr /\ free_block lr b (b + size) /\
       memory l' = memory l /\ reserves l' lr' /\ grown lr lr' b (b + lmb_align_up size align)).
Proof.
  intros Hw Hs Hmax Hal. destruct Hr as (Hrep & Hv & Hne).
  destruct (alloc_base_spec fuel l lm lr size align max_addr Hm Vm Hrep (range_ok_valid _ Hv) ltac:(lia) ltac:(lia) fuel_enough)
    as (b & l' & E & R). exists b, l'. split; [exact E|].
  destruct R as [->|(p & Hp & R1 & R2 & R3 & _ & R5 & R6 & R7)]; [auto|]. right.
  rewrite List.Forall_forall in Vm. specialize (Vm p Hp). unfold range_ok in Vm.
  set (x := Prop_ b (lmb_align_up size align)).
  assert (Lmb.valid x) as Hx by (unfold x; ranges; lia).
  assert (Forall (fun q => rbase q <> rbase x) lr) as Hd.
  { apply List.Forall_forall. intros q Hq. rewrite List.Forall_forall in R5, Hv. specialize (R5 q Hq). specialize (Hv q Hq).
    unfold overlaps, x in *. ranges. lia. }
  pose proof (add_region_tail x (reserved l) lr Hx Hrep Hw Hne Hd) as T. cbn [rbase rsize x] in T.
  destruct (lmb_add_region _ _ _) as [r rgn]. cbn [fst snd] in *. destruct (T R6) as (lr' & Rp & V & C).
  exists lr'. subst l'. split_and!; auto; try lia.
  - apply not_overlaps_free, R5.
  - split; [exact Rp|]. split; [exact V|]. intros ->.
    assert (covers [] b) as Hc by (apply C; right; unfold x; ranges; lia). inversion Hc.
Qed.
End allocation.

(** *** The blocks *)

Section blocks.
Context (getenv : list Z -> option (list Z)) (bd : list Z) (fuel : nat) (Hf : (8 < fuel)%nat).
Context (Hbd : zlen bd = sizeof_bd_t).

(** The boot arguments. *)
Definition bootargs : list Z := default [] (getenv (str "bootargs")).
Context (Hargs : zlen bootargs < CONFIG_SYS_BARGSIZE).

Lemma put_within m a l e : a + zlen l <= e -> same_outside a e m (put_bytes m a l).
Proof. intros. eapply same_outside_weaken; [apply put_bytes_outside|lia|lia]. Qed.

Section low.
Context (l : lmb) (lm lr : list lmb_property) (Hm : rep (memory l) lm) (Vm : Forall range_ok lm) (Hr : reserves l lr) (Hw : wf lr).
Context (m : mem) (low limit : Z) (Hlimit : limit = CONFIG_SYS_BOOTMAPSZ + low) (Hlow : 0 <= low) (Hhigh : limit + 8 < 4294967296).

Lemma get_cmdline_spec :
  exists ret s e l' m', boot_get_cmdline getenv fuel l m low = Some (ret, s, e, l', m') /\
    (ret = -1 \/ ret = 0 /\ 0 <= s /\ s + CONFIG_SYS_BARGSIZE <= limit /\ e = s + zlen bootargs /\
       bytes_at m' s (bootargs ++ [0]) /\ same_outside s (s + CONFIG_SYS_BARGSIZE) m m' /\
       free_block lr s (s + CONFIG_SYS_BARGSIZE) /\ memory l' = memory l /\
       exists lr', reserves l' lr' /\ wf lr' /\ grown lr lr' s (s + CONFIG_SYS_BARGSIZE)).
Proof.
  assert (CONFIG_SYS_BOOTMAPSZ = 8388608) as Eb by reflexivity. assert (CONFIG_SYS_BARGSIZE = 256) as Ea by reflexivity.
  unfold boot_get_cmdline. rewrite u32_small by lia. rewrite <- Hlimit.
  destruct (alloc_exact fuel l lm lr Hm Vm Hr Hf CONFIG_SYS_BARGSIZE 0xf limit Hw ltac:(lia) ltac:(lia) eq_refl)
    as (b & l' & E & R). rewrite E. destruct (Z.eqb_spec b 0); [do 5 eexists; split; [reflexivity|auto]|].
  destruct R as [|(lr' & R1 & R2 & R3 & R4 & R5 & R6 & R7)]; [congruence|]. pose proof (zlen_nonneg bootargs).
  do 5 eexists. split; [reflexivity|]. right. fold (default [] (getenv (str "bootargs"))).
  assert (match getenv (str "bootargs") with Some s => s | None => [] end = bootargs) as ->.
  { unfold bootargs. destruct (getenv _); reflexivity. }
  rewrite u32_small by lia. split_and!; auto.
  - apply put_bytes_at.
  - apply put_within. rewrite zlen_app, zlen_cons, zlen_nil. lia.
  - exists lr'. auto.
Qed.

Lemma get_kbd_spec :
  exists ret k l' m', boot_get_kbd bd fuel l m low = Some (ret, k, l', m') /\
    (ret = -1 \/ ret = 0 /\ 0 <= k /\ k + sizeof_bd_t <= limit /\
       bytes_at m' k bd /\ same_outside k (k + sizeof_bd_t) m m' /\
       free_block lr k (k + sizeof_bd_t) /\ memory l' = memory l /\
       exists lr', reserves l' lr' /\ grown lr lr' k (k + 64)).
Proof.
  assert (CONFIG_SYS_BOOTMAPSZ = 8388608) as Eb by reflexivity. assert (sizeof_bd_t = 56) as Ea by reflexivity.
  unfold boot_get_kbd. rewrite u32_small by lia. rewrite <- Hlimit.
  assert (lmb_align_up sizeof_bd_t 0xf = 64) as Eu by reflexivity.
  destruct (alloc_rounded fuel l lm lr Hm Vm Hr Hf sizeof_bd_t 0xf limit Hw ltac:(lia) ltac:(lia) ltac:(lia))
    as (b & l' & E & R). rewrite E, Eu in *. destruct (Z.eqb_spec b 0); [do 4 eexists; split; [reflexivity|auto]|].
  destruct R as [|(lr' & R1 & R2 & R3 & R4 & R5 & R6)]; [congruence|].
  do 4 eexists. split; [reflexivity|]. right. split_and!; auto.
  - apply put_bytes_at.
  - apply put_within. lia.
  - exists lr'. auto.
Qed.
End low.

(** initrd_high: not set, no limit, or one above the ramdisk's length. *)
Definition initrd_high_ok (rd_len : Z) : Prop :=
  match getenv (str "initrd_high") with
  | None => rd_len <= 0xffffffff
  | Some s => let h := fst (simple_strtoul s 16) in h <> 0xffffffff /\ (h = 0 \/ rd_len <= h < 4294967296)
  end.

Lemma ramdisk_high_spec l lm lr m rd_data rd_len :
  rep (memory l) lm -> Forall range_ok lm -> reserves l lr -> 0 < rd_data -> 0 < rd_len < 4294967296 ->
  initrd_high_ok rd_len ->
  exists ret s e l' m', boot_ramdisk_high getenv fuel l m rd_data rd_len = Some (ret, s, e, l', m') /\
    (ret = -1 \/ ret = 0 /\ 0 < s /\ e = s + rd_len /\ moved s rd_data rd_len m m' /\ free_block lr s (s + rd_len)).
Proof.
  intros Hm Vm Hr Hd Hl Hi. destruct Hr as (Hrep & Hv & Hne) eqn:EHr. clear EHr.
  assert (forall max, max = 0 \/ rd_len <= max < 4294967296 ->
    exists ret s e l' m',
      match lmb_alloc_base fuel l rd_len 0x1000 max with
      | None => None
      | Some (initrd_start, l) =>
          if initrd_start =? 0 then Some (-1, 0, 0, l, m)
          else Some (0, initrd_start, u32 (initrd_start + rd_len), l, memmove_wd m initrd_start rd_data rd_len)
      end = Some (ret, s, e, l', m') /\
      (ret = -1 \/ ret = 0 /\ 0 < s /\ e = s + rd_len /\ moved s rd_data rd_len m m' /\ free_block lr s (s + rd_len))) as A.
  { intros max Hmax.
    destruct (alloc_base_spec fuel l lm lr rd_len 0x1000 max Hm Vm Hrep (range_ok_valid _ Hv) ltac:(lia) Hmax) as (b & l' & E & R).
    { exact (fuel_enough fuel l lr Hr Hf). }
    rewrite E. destruct (Z.eqb_spec b 0); [do 5 eexists; split; [reflexivity|auto]|].
    destruct R as [|(p & Hp & R1 & R2 & _ & _ & R5 & _)]; [congruence|].
    rewrite List.Forall_forall in Vm. specialize (Vm p Hp). unfold range_ok in Vm. rewrite u32_small by lia.
    do 5 eexists. split; [reflexivity|]. right. split_and!; auto; try lia.
    - apply memmove_wd_spec. lia.
    - apply not_overlaps_free, R5. }
  unfold boot_ramdisk_high, initrd_high_ok in *. rewrite (proj2 (Z.eqb_neq rd_data 0)) by lia.
  destruct (getenv (str "initrd_high")) as [s|].
  - destruct Hi as [H1 H2]. rewrite (proj2 (Z.eqb_neq _ _) H1). cbn [negb].
    destruct (Z.eqb_spec (fst (simple_strtoul s 16)) 0) as [E|E]; cbn [negb].
    + unfold lmb_alloc. apply A. auto.
    + apply A. lia.
  - change (negb (0xffffffff =? 0)) with true. cbn [negb]. apply A. lia.
Qed.
End blocks.

(** *** boot_body_linux *)

(** What is reserved keeps its bytes. *)
Definition keeps (lr : list lmb_property) (m m' : mem) : Prop := forall a, covers lr a -> m' a = m a.
Lemma free_keeps lr b e m m' : same_outside b e m m' -> free_block lr b e -> keeps lr m m'.
Proof.
  intros Ho Hf a Ha. apply Ho. destruct (decide (b <= a < e)) as [Hi|]; [destruct (Hf a Hi Ha)|lia].
Qed.
Lemma keeps_grown lr lr' b e m m' : keeps lr' m m' -> grown lr lr' b e -> keeps lr m m'.
Proof. intros H G a Ha. apply H, G. auto. Qed.
Lemma keeps_block lr lr' b e m m' a l : keeps lr' m m' -> grown lr lr' b e -> b <= a -> a + zlen l <= e ->
  bytes_at m a l -> bytes_at m' a l.
Proof. intros H G Hb He. apply bytes_at_ext. intros x Hx. apply H, G. right. lia. Qed.
Lemma keeps_trans lr m1 m2 m3 : keeps lr m1 m2 -> keeps lr m2 m3 -> keeps lr m1 m3.
Proof. intros H1 H2 a Ha. rewrite H2, H1; auto. Qed.

Section body.
Context (getenv : list Z -> option (list Z)) (bd : list Z) (fuel : nat).

(** The ramdisk's bytes to be moved, if there is one. *)
Definition rd_len (i : bootm_headers) : Z := rd_end i - rd_start i.
Record rd_ok (i : bootm_headers) (lr : list lmb_property) (limit : Z) : Prop := {
  rd_low : 0 < rd_start i;
  rd_size : 0 < rd_len i < 4294967296;
  rd_high : initrd_high_ok getenv (rd_len i);
  rd_safe a : rd_start i <= a < rd_end i -> covers lr a \/ limit <= a
}.

(** What the kernel is handed: the argument string with its end, the board's
    information, the ramdisk's bytes; and the reserved memory as it was. *)
Record handed_over (i i' : bootm_headers) (lr : list lmb_property) (limit : Z) (m m' : mem) : Prop := {
  h_entry : ep i' = ep i;
  h_args : bytes_at m' (cmdline_start i') (bootargs getenv ++ [0]) /\ cmdline_end i' = cmdline_start i' + zlen (bootargs getenv);
  h_args_low : 0 <= cmdline_start i' /\ cmdline_end i' < limit;
  h_bd : bytes_at m' (kbd i') bd;
  h_bd_low : 0 <= kbd i' /\ kbd i' + sizeof_bd_t <= limit;
  h_rd : if rd_start i =? 0 then initrd_start i' = 0 /\ initrd_end i' = 0
         else initrd_end i' = initrd_start i' + rd_len i /\
              forall k, 0 <= k < rd_len i -> m' (initrd_start i' + k) = m (rd_start i + k);
  h_kept : keeps lr m m'
}.

Lemma boot_body_spec i m lm lr limit :
  (8 < fuel)%nat -> zlen bd = sizeof_bd_t -> zlen (bootargs getenv) < CONFIG_SYS_BARGSIZE ->
  getenv (str "clocks_in_mhz") = None ->
  limit = CONFIG_SYS_BOOTMAPSZ + getenv_bootm_low getenv -> 0 <= getenv_bootm_low getenv -> limit + 8 < 4294967296 ->
  rep (memory (lmb_of i)) lm -> Forall range_ok lm -> reserves (lmb_of i) lr -> wf lr ->
  rd_start i = 0 \/ rd_ok i lr limit ->
  exists ret i' m', boot_body_linux getenv bd fuel i m = Some (ret, i', m') /\
    (ret = -1 \/ ret = 0 /\ handed_over i i' lr limit m m').
Proof.
  intros Hf Hbd Hargs Hclk Hlim Hlow Hhigh Hm Vm Hr Hw Hrd. unfold boot_body_linux, boot_cmdline_linux.
  destruct (get_cmdline_spec getenv fuel Hf Hargs (lmb_of i) lm lr Hm Vm Hr Hw m _ limit Hlim Hlow Hhigh)
    as (r1 & s & e & l1 & m1 & E1 & R1). rewrite E1. clear E1.
  destruct R1 as [->|(-> & A1 & A2 & A3 & A4 & A5 & A6 & A7 & lr1 & A8 & A9 & A10)]; [do 3 eexists; split; [reflexivity|auto]|].
  cbn [Z.eqb]. set (i1 := set_cmdline (set_lmb i l1) s e). unfold boot_bd_t_linux. change (lmb_of i1) with l1. rewrite <- A7 in Hm.
  destruct (get_kbd_spec bd fuel Hf Hbd l1 lm lr1 Hm Vm A8 A9 m1 _ limit Hlim Hlow Hhigh)
    as (r2 & k & l2 & m2 & E2 & R2). rewrite E2. clear E2.
  destruct R2 as [->|(-> & B1 & B2 & B3 & B4 & B5 & B6 & lr2 & B7 & B8)]; [do 3 eexists; split; [reflexivity|auto]|].
  unfold set_clocks_in_mhz. rewrite Hclk. cbn [Z.eqb]. set (i2 := set_kbd (set_lmb i1 l2) k).
  pose proof (free_keeps _ _ _ _ _ A5 A6) as K1. pose proof (free_keeps _ _ _ _ _ B4 B5) as K2.
  assert (bytes_at m2 s (bootargs getenv ++ [0])) as A4'.
  { apply (keeps_block lr lr1 s (s + CONFIG_SYS_BARGSIZE) m1 m2); auto; [lia|]. rewrite zlen_app, zlen_cons, zlen_nil. lia. }
  unfold boot_ramdisk_linux. change (rd_start i2) with (rd_start i). change (rd_end i2) with (rd_end i). change (lmb_of i2) with l2.
  fold (rd_len i). destruct Hrd as [H0|[D1 D2 D3 D4]].
  - unfold boot_ramdisk_high. rewrite H0. cbn [Z.eqb]. do 3 eexists. split; [reflexivity|]. right. split; [reflexivity|].
    constructor; cbn; auto; try lia.
    + rewrite H0. split; reflexivity.
    + apply (keeps_trans _ _ m1); [exact K1|apply (keeps_grown _ _ _ _ _ _ K2 A10)].
  - rewrite <- B6 in Hm. rewrite u32_small by lia.
    destruct (ramdisk_high_spec getenv fuel Hf l2 lm lr2 m2 (rd_start i) (rd_len i) Hm Vm B7 D1 D2 D3)
      as (r3 & s3 & e3 & l3 & m3 & E3 & R3). rewrite E3. clear E3.
    destruct R3 as [->|(-> & C1 & C2 & [C3 C4] & C5)]; [do 3 eexists; split; [reflexivity|auto]|].
    pose proof (free_keeps _ _ _ _ _ C4 C5) as K3. pose proof (keeps_grown _ _ _ _ _ _ K3 B8) as K3'.
    do 3 eexists. split; [reflexivity|]. right. split; [reflexivity|].
    constructor; cbn; auto; try lia.
    + split; [|exact A3]. apply (keeps_block lr lr1 s (s + CONFIG_SYS_BARGSIZE) m2 m3); auto; [lia|].
      rewrite zlen_app, zlen_cons, zlen_nil. lia.
    + apply (keeps_block lr1 lr2 k (k + 64) m2 m3); auto; try lia. rewrite Hbd. unfold sizeof_bd_t. lia.
    + rewrite (proj2 (Z.eqb_neq (rd_start i) 0)) by lia. split; [exact C2|]. intros j Hj. rewrite C3 by exact Hj.
      destruct (D4 (rd_start i + j) ltac:(unfold rd_len in Hj; lia)) as [Hc|Hc].
      * rewrite (keeps_grown _ _ _ _ _ _ K2 A10), K1; auto.
      * rewrite B4 by lia. apply A5. lia.
    + apply (keeps_trans _ _ m1); [exact K1|]. apply (keeps_trans _ _ m2); [apply (keeps_grown _ _ _ _ _ _ K2 A10)|].
      apply (keeps_grown _ _ _ _ _ _ K3' A10).
Qed.
End body.

(** *** From the image to the kernel's first instruction *)

Section boot.
Context (inflateInit2 : Z) (inflate : mem -> Z -> Z -> Z -> Z -> Z * Z * mem) (deflated : list Z -> list Z -> Prop).
Context (Hz : zlib_promises inflateInit2 inflate deflated).
Context (getenv : list Z -> option (list Z)) (bd : list Z) (fuel : nat) (Hf : (8 < fuel)%nat).
Context (Hbd : zlen bd = sizeof_bd_t) (Hargs : zlen (bootargs getenv) < CONFIG_SYS_BARGSIZE).
Context (Hclk : getenv (str "clocks_in_mhz") = None).
Context (limit : Z) (Hlimit : limit = CONFIG_SYS_BOOTMAPSZ + getenv_bootm_low getenv).
Context (Hlow : 0 <= getenv_bootm_low getenv) (Hhigh : limit + 8 < 4294967296).

(** The state [i] a kernel is entered from, with the plain bytes [d] at [at_]; the
    ramdisk's bytes are those [m] had. *)
Record linux_ready (d : list Z) (at_ : Z) (rd : option (list Z)) (i : bootm_headers) (m : mem) : Prop := {
  r_kernel : bytes_at m at_ d;
  r_args : bytes_at m (cmdline_start i) (bootargs getenv ++ [0]) /\ cmdline_end i = cmdline_start i + zlen (bootargs getenv);
  r_args_low : 0 <= cmdline_start i /\ cmdline_end i < limit;
  r_bd : bytes_at m (kbd i) bd;
  r_bd_low : 0 <= kbd i /\ kbd i + sizeof_bd_t <= limit;
  r_rd : match rd with
         | None => initrd_start i = 0 /\ initrd_end i = 0
         | Some b => bytes_at m (initrd_start i) b /\ initrd_end i = initrd_start i + zlen b
         end
}.

(** The loaded kernel and the reservations [lr] it has to keep clear of. *)
Record room (i : bootm_headers) (lm lr : list lmb_property) (d : list Z) : Prop := {
  m_rep : rep (memory (lmb_of i)) lm;
  m_ok : Forall range_ok lm;
  m_res : rep (reserved (lmb_of i)) lr;
  m_wf : wf lr;
  m_some : lr <> [];
  m_left : (length lr < 8)%nat;
  m_clear : Forall (disjoint_from (Prop_ (load (os_info i)) (zlen d))) lr
}.

(** The ramdisk's bytes: out of the reach of the loader and of the low blocks. *)
Definition ramdisk_clear (m : mem) (i : bootm_headers) (space : Z) (rd : option (list Z)) : Prop :=
  match rd with
  | None => rd_start i = 0
  | Some b => 0 < rd_start i /\ rd_end i = rd_start i + zlen b /\ 0 < zlen b < 4294967296 /\
      initrd_high_ok getenv (zlen b) /\ limit <= rd_start i /\
      (rd_end i <= load (os_info i) \/ load (os_info i) + space <= rd_start i) /\ bytes_at m (rd_start i) b
  end.

Lemma run_image_spec i m argv lm lr stored d rd :
  let o := os_info i in
  described deflated m o stored d -> load o <> start o ->
  (comp o = IH_COMP_GZIP -> end_ o <= load o \/ load o + CONFIG_SYS_BOOTM_LEN <= start o) -> (length stored <= fuel)%nat ->
  type o <> IH_TYPE_STANDALONE -> os o = IH_OS_LINUX -> room i lm lr d -> ramdisk_clear m i (load_space (comp o) d) rd ->
  exists r i' m', run_image inflateInit2 inflate getenv bd fuel i m argv = Some (r, i', m', []) /\
    (r = Reset \/
     r = Kernel (ep i) (kbd i') (initrd_start i') (initrd_end i') (cmdline_start i') (cmdline_end i') /\
     linux_ready d (load o) rd i' m').
Proof.
  intros o Hd Hx Hg Hfu Ht Hos [R1 R2 R3 R4 R5 R6 R7] Hrd.
  destruct (bootm_load_spec _ _ _ Hz fuel o m stored d Hd Hx Hg Hfu) as (r & m1 & E & L1 & L2 & L3).
  assert (Lmb.valid (Prop_ (load o) (zlen d))) as Hv.
  { destruct Hd as [_ _ _ _ _ Hne H1 H2]. destruct d; [congruence|]. ranges. zlen_simpl. lia. }
  unfold run_image. fold o. rewrite E. assert ((r =? BOOTM_ERR_RESET) = false /\ (r =? BOOTM_ERR_UNIMPLEMENTED) = false) as [-> ->].
  { destruct L3 as [[-> _]|[-> _]]; split; reflexivity. }
  rewrite (proj2 (Z.eqb_neq _ _) Ht).
  replace (load o + zlen d - load o) with (zlen d) by lia. rewrite u32_small by (ranges; lia).
  pose proof (add_region_spec (Prop_ (load o) (zlen d)) (reserved (lmb_of i)) lr Hv R3 R4 R5 R7) as [(lr1 & _ & N & Rp & W & C)|[_ F]]; [|lia].
  cbn [rbase rsize] in *. set (i1 := set_lmb i _).
  assert (reserves (lmb_of i1) lr1) as Hr.
  { unfold i1, lmb_reserve. destruct (lmb_add_region _ _ _) as [q v]. split; [exact Rp|]. split; [apply wf_valid, W|exact N]. }
  assert (memory (lmb_of i1) = memory (lmb_of i)) as Hmem by (unfold i1, lmb_reserve; destruct (lmb_add_region _ _ _); reflexivity).
  rewrite <- Hmem in R1.
  destruct (boot_body_spec getenv bd fuel i1 m1 lm lr1 limit Hf Hbd Hargs Hclk Hlimit Hlow Hhigh R1 R2 Hr W) as (ret & i2 & m2 & Eb & B).
  { change (rd_start i1) with (rd_start i). destruct rd as [b|]; [right|left; exact Hrd].
    destruct Hrd as (D1 & D2 & D3 & D4 & D5 & D6 & D7). constructor; unfold rd_len; change (rd_start i1) with (rd_start i);
      change (rd_end i1) with (rd_end i); rewrite ?D2; try lia.
    - replace (rd_start i + zlen b - rd_start i) with (zlen b) by lia. exact D4. }
  unfold start_os. change (os (os_info i1)) with (os o). rewrite Hos. change (boot_os IH_OS_LINUX) with do_bootm_linux_. cbn iota.
  unfold do_bootm_linux. rewrite Eb. destruct B as [->|[-> [H1 H2 H3 H4 H5 H6 H7]]]; cbn [negb Z.eqb]; do 3 eexists; (split; [reflexivity|]); [auto|].
  right. unfold boot_jump_linux. rewrite H1. split; [reflexivity|]. constructor; auto.
  - apply (bytes_at_ext m1); [|exact L1]. intros x Hx'. apply H7, C. right. exact Hx'.
  - change (rd_start i1) with (rd_start i) in H6. destruct rd as [b|]; cbn [ramdisk_clear] in Hrd.
    + destruct Hrd as (D1 & D2 & D3 & D4 & D5 & D6 & D7). rewrite (proj2 (Z.eqb_neq _ _)) in H6 by lia.
      unfold rd_len in H6. change (rd_start i1) with (rd_start i) in H6. change (rd_end i1) with (rd_end i) in H6. rewrite D2 in H6.
      replace (rd_start i + zlen b - rd_start i) with (zlen b) in H6 by lia. destruct H6 as [H6 H8]. split; [|exact H6].
      apply (bytes_at_move m m2 (rd_start i)); [|exact D7]. intros k Hk. rewrite H8 by exact Hk. apply L2. fold o in D6. lia.
    + rewrite Hrd in H6. exact H6.
Qed.
End boot.

(** *** bootm *)

Lemma stored_some deflated c s d : stored_as deflated c s d -> d <> [] -> s <> [].
Proof. intros H Hd. destruct H; [exact Hd|]. discriminate. Qed.

(** The ramdisk of a command line: none, or the data of a verified image at its third word. *)
Inductive ramdisk_arg (m : mem) : list (list Z) -> option (Z * list Z) -> Prop :=
  | rd_none argv : (length argv <= 2)%nat -> ramdisk_arg m argv None
  | rd_dash c a rest : ramdisk_arg m (c :: a :: str "-" :: rest) None
  | rd_image c a r rest hdr f b :
      r <> str "-" -> fst (simple_strtoul r 16) = hdr -> image_at m hdr f b ->
      f_os f = IH_OS_LINUX -> f_arch f = IH_ARCH_PPC -> f_type f = IH_TYPE_RAMDISK -> b <> [] ->
      ramdisk_arg m (c :: a :: r :: rest) (Some (hdr + 64, b)).
Definition rd_range (rd : option (Z * list Z)) : Z * Z :=
  match rd with None => (0, 0) | Some (a, b) => (a, a + zlen b) end.

Lemma get_ramdisk_spec fuel m argv rd hdr copy verify :
  ramdisk_arg m argv rd -> image_check_type copy 0 IH_TYPE_MULTI = false ->
  boot_get_ramdisk fuel m argv (Some (hdr, copy)) verify IH_ARCH_PPC = Some (0, (rd_range rd).1, (rd_range rd).2).
Proof.
  intros [argv' Hl|c a rest|c a r rest h f b Hr Ha Hi Hos Harch Ht Hb] Hm; unfold boot_get_ramdisk.
  - rewrite Hm. destruct argv' as [|? [|? [|? ?]]]; try reflexivity. simpl in Hl. lia.
  - rewrite decide_True by reflexivity. reflexivity.
  - rewrite decide_False by exact Hr. unfold genimg_get_image, genimg_get_format, image_get_ramdisk. rewrite Ha.
    destruct (image_valid m h f b Hi) as (E1 & E2 & E3 & E4 & E5 & _ & _ & _ & E6 & E7 & E8 & _ & _).
    destruct Hi as [_ _ _ H0 H1 _]. change (2 ^ 32) with 4294967296 in H1. pose proof (zlen_nonneg b).
    rewrite E1. change (IMAGE_FORMAT_LEGACY =? IMAGE_FORMAT_LEGACY) with true. cbn [negb]. rewrite E2, E3. cbn [negb].
    rewrite andb_false_r. unfold image_check_os, image_check_arch, image_check_type. rewrite E6, E7, E8, Hos, Harch, Ht, !Z.eqb_refl.
    cbn [negb orb]. rewrite E4, E5, (proj2 (Z.eqb_neq (h + 64) 0)), u32_small by lia. reflexivity.
Qed.

Section command_line.
Context (getenv : list Z -> option (list Z)) (ram_size sp load_addr : Z) (fuel : nat).
Context (Hlow : getenv (str "bootm_low") = None) (Hsize : getenv (str "bootm_size") = None).
Context (Hram : 0 < ram_size <= CONFIG_SYS_LINUX_LOWMEM_MAX_SIZE) (Hsp : 4096 < sp < ram_size).

(** From one page below the stack pointer to the end of memory. *)
Definition stack_area : lmb_property := Prop_ (sp - 4096) (ram_size - (sp - 4096)).

Lemma start_lmb :
  rep (memory (bootm_start_lmb getenv ram_size ram_size sp)) [Prop_ 0 ram_size] /\
  rep (reserved (bootm_start_lmb getenv ram_size ram_size sp)) [stack_area].
Proof.
  change CONFIG_SYS_LINUX_LOWMEM_MAX_SIZE with 805306368 in Hram.
  unfold bootm_start_lmb, getenv_bootm_low, getenv_bootm_size, arch_lmb_reserve, getenv_bootm_low, getenv_bootm_size.
  rewrite Hlow, Hsize. change CONFIG_SYS_SDRAM_BASE with 0. change CONFIG_SYS_LINUX_LOWMEM_MAX_SIZE with 805306368.
  rewrite Z.sub_0_r, !(u32_small ram_size) by lia. rewrite Z.min_id, Z.min_l, Z.ltb_irrefl by lia.
  rewrite (u32_small (sp - 4096)) by lia. rewrite u32_small by lia. rewrite Z.add_0_l.
  unfold lmb_add, lmb_reserve, lmb_init. cbn.
  split; (split; [reflexivity|]; eexists; split_and!; [reflexivity|reflexivity|simpl; lia]).
Qed.

(** What "bootm start" finds in a kernel image. *)
Definition found (m : mem) (hdr : Z) (f : fields) (data : list Z) (rd : option (Z * list Z)) : bootm_headers :=
  Headers (Some (hdr, fun x => m (hdr + x)))
    (ImageInfo hdr (hdr + 64 + zlen data) (hdr + 64) (zlen data) (f_load f) (f_comp f) (f_type f) (f_os f))
    (f_ep f) (rd_range rd).1 (rd_range rd).2 0 0 0 0 0 (getenv_yesno getenv (str "verify")) BOOTM_STATE_START
    (bootm_start_lmb getenv ram_size ram_size sp).

Lemma bootm_start_spec m argv hdr f data rd :
  image_at m hdr f data -> kernel_addr load_addr argv = hdr -> data <> [] ->
  f_arch f = IH_ARCH_PPC -> f_type f = IH_TYPE_KERNEL -> f_os f = IH_OS_LINUX -> ramdisk_arg m argv rd ->
  bootm_start getenv ram_size ram_size sp load_addr fuel m argv = Some (0, found m hdr f data rd).
Proof.
  intros Hi Ha Hne Harch Ht Hos Hrd. unfold bootm_start.
  rewrite (boot_get_kernel_accepts load_addr fuel m argv _ hdr f data Hi Ha Harch Ht).
  destruct (image_valid m hdr f data Hi) as (_ & _ & _ & _ & _ & E6 & E7 & E8 & E9 & _ & E11 & E12 & _).
  assert ((zlen data =? 0) = false) as -> by (apply Z.eqb_neq; destruct data; [congruence|zlen_simpl; lia]).
  assert (image_get_ep (fun x => m (hdr + x)) 0 = f_ep f) as Eep.
  { rewrite <- E8. unfold image_get_ep. apply load32_ext. intros i _. f_equal. lia. }
  assert (image_check_type (fun x => m (hdr + x)) 0 IH_TYPE_MULTI = false) as Emulti.
  { unfold image_check_type, image_get_type in *. rewrite Z.add_0_l, E11, Ht. reflexivity. }
  rewrite E6, E7, E9, E11, E12, Ht, Hos. change ((IH_TYPE_KERNEL =? IH_TYPE_KERNEL) || (IH_TYPE_KERNEL =? IH_TYPE_MULTI)) with true.
  change (true && (IH_OS_LINUX =? IH_OS_LINUX)) with true.
  cbn [type os set_kernel os_info legacy_hdr_os ep state set_rd rd_start rd_end set_state]. rewrite Z.eqb_refl. cbn [orb andb].
  rewrite (get_ramdisk_spec fuel m argv rd _ _ _ Hrd Emulti). cbn [Z.eqb negb].
  unfold found. rewrite Ht, Hos, <- Eep. reflexivity.
Qed.
End command_line.

(** The ramdisk's bytes stay clear of the loader, and of the 8 MB below which the
    argument string and the board's information are put. *)
Definition rd_clear (getenv : list Z -> option (list Z)) (load_ space : Z) (rd : option (Z * list Z)) : Prop :=
  match rd with
  | None => True
  | Some (a, b) => initrd_high_ok getenv (zlen b) /\ CONFIG_SYS_BOOTMAPSZ <= a /\ (a + zlen b <= load_ \/ load_ + space <= a)
  end.

Lemma rd_bytes m argv a b : ramdisk_arg m argv (Some (a, b)) ->
  0 < a /\ 0 < zlen b /\ a + zlen b < 4294967296 /\ bytes_at m a b.
Proof.
  intros H. inversion H; subst. match goal with K : image_at _ _ _ _ |- _ => pose proof (image_valid _ _ _ _ K) as V; destruct K as [_ _ _ H0 H1 _] end.
  destruct V as (_ & _ & _ & _ & _ & _ & _ & _ & _ & _ & _ & _ & Hb).
  change (2 ^ 32) with 4294967296 in H1. destruct b; [congruence|]. split_and!; auto; zlen_simpl; lia.
Qed.


Definition ex_rd_fields : fields := Fields 0x4ce4aaaa 0 0 5 7 3 0 (str "initrd" ++ repeat 0 26).
Definition ex_rd : list Z := str "ramdisk".
Definition ex_env (name : list Z) : option (list Z) :=
  if decide (name = str "bootargs") then Some (str "root=/dev/ram console=ttyS0") else None.
Definition ex_bd : list Z := repeat 7 56.
Definition ex_boot_mem : mem := put_bytes ex_image_mem 0x900000 (mkimage ex_rd_fields ex_rd).
Definition ex_bootm : option (outcome * bootm_headers * mem * list (list Z * list Z)) :=
  do_bootm Z_OK toy_inflate ex_env 0x2000000 0x2000000 0x1e00000 ex_bd 0 100 images_zero ex_boot_mem
    [str "bootm"; str "800000"; str "900000"].

Lemma ex_rd_fields_ok : fields_ok ex_rd_fields.
Proof.
  unfold fields_ok, ex_rd_fields. cbn [f_time f_load f_ep f_os f_arch f_type f_comp f_name]. unfold_words.
  split_and!; try lia; try reflexivity; repeat constructor; vm_compute; congruence.
Qed.
Lemma ex_images : image_at ex_boot_mem 0x800000 ex_fields ex_data /\ image_at ex_boot_mem 0x900000 ex_rd_fields ex_rd.
Proof.
  assert (image_at ex_image_mem 0x800000 ex_fields ex_data) as [Hm Hf Hd Hl Hh Hb].
  { apply put_image_at; [apply zero_ok|apply ex_fields_ok|apply all_u8_spec; reflexivity|lia|reflexivity]. }
  assert (image_at ex_boot_mem 0x900000 ex_rd_fields ex_rd) as H2.
  { apply put_image_at; [exact Hm|apply ex_rd_fields_ok|apply all_u8_spec; reflexivity|lia|reflexivity]. }
  split; [|exact H2]. split; [exact (at_mem _ _ _ _ H2)|exact Hf|exact Hd|exact Hl|exact Hh|]. eapply bytes_at_ext; [|exact Hb].
  intros x Hx. assert (zlen (mkimage ex_fields ex_data) = 75) as E by reflexivity. rewrite E in Hx.
  apply put_bytes_outside. lia.
Qed.

Definition outcome_of (r : option (outcome * bootm_headers * mem * list (list Z * list Z))) : option outcome :=
  match r with Some (o, _, _, _) => Some o | None => None end.

(** The kernel is entered: nothing resets this board. *)
Lemma ex_bootm_enters : outcome_of ex_bootm = Some (Kernel 0x400100 0x7ffec0 0x1dfe000 0x1dfe007 0x7fff00 0x7fff1b).
Proof. vm_compute. reflexivity. Qed.


(** "bootm cmdline" before any "bootm start" calls the NULL entry of boot_os[]. *)
Lemma cmdline_without_start :
  outcome_of (do_bootm Z_OK toy_inflate ex_env 0x2000000 0x2000000 0x1e00000 ex_bd 0 100 images_zero (fun _ => 0) [str "bootm"; str "cmdline"])
    = Some (Starter bf_NULL).
Proof. vm_compute. reflexivity. Qed.

(** The OS byte of the header is an index into a table of nineteen. *)
Lemma boot_os_index_unchecked : boot_os 19 = bf_beyond /\ boot_os 255 = bf_beyond /\ boot_os IH_OS_U_BOOT = bf_NULL.
Proof. split_and!; reflexivity. Qed.

(** Arguments longer than the block run into what lies behind it. *)
Lemma cmdline_overflows :
  let long (name : list Z) := if decide (name = str "bootargs") then Some (repeat 65 300) else None in
  match boot_get_cmdline long 10 ex_lmb (fun _ => 0) 0 with
  | Some (r, s, _, _, m) => (r, s, m (s + 256), m (s + 299))
  | None => (0, 0, 0, 0)
  end = (0, 0x7fff00, 65, 65).
Proof. vm_compute. reflexivity. Qed.

(** With an odd bootm_low the string lands on an odd address. *)
Lemma cmdline_unaligned :
  let low (name : list Z) := if decide (name = str "bootm_low") then Some (str "1") else None in
  match boot_get_cmdline low 10 ex_lmb (fun _ => 0) 1 with
  | Some (r, s, _, _, _) => (r, s mod 16)
  | None => (0, 0)
  end = (0, 1).
Proof. vm_compute. reflexivity. Qed.
