(* ===== verification/Srom.v ===== *)
(** * The revision EEPROM (board/eltec/bab7xx/el_srom.c)

    The board's revision information sits in a serial EEPROM behind two port
    bits, clock and data, that the driver moves itself.  The ports are the
    class of the clock chip's file; what the EEPROM promises about every
    movement of the two lines is a class of its own, against which reading
    and writing are proved.  Delays are left out. *)

From S2P Require Import Prelude CMem Rtc.

(** ** The driver *)

Definition I2C_BUS_DAT : Z := CONFIG_SYS_ISA_IO + 0x220.
Definition I2C_BUS_DIR : Z := CONFIG_SYS_ISA_IO + 0x221.
Definition FIRST_DEVICE : Z := 0x00.
Definition SECOND_DEVICE : Z := 0x04.
Definition FIRST_BLOCK : Z := 0x00.
Definition SECOND_BLOCK : Z := 0x02.
Definition BLOCK_SIZE : Z := 0x100.
Definition ERROR : Z := -1.

Section driver.
Context {St : Type} `{PortIO St}.

Definition eepStart (s : St) : St :=
  let s := out8 I2C_BUS_DAT 0x60 s in
  let s := out8 I2C_BUS_DIR 0x60 s in
  let s := out8 I2C_BUS_DAT 0x40 s in
  out8 I2C_BUS_DAT 0x00 s.

Definition eepStop (s : St) : St :=
  let s := out8 I2C_BUS_DAT 0x00 s in
  let s := out8 I2C_BUS_DIR 0x60 s in
  let s := out8 I2C_BUS_DAT 0x40 s in
  let s := out8 I2C_BUS_DAT 0x60 s in
  out8 I2C_BUS_DIR 0x00 s.

Fixpoint read_bits (n : nat) (buf : Z) (s : St) : Z * St :=
  match n with
  | O => (buf, s)
  | S n =>
      let s := out8 I2C_BUS_DAT 0x00 s in
      let s := out8 I2C_BUS_DAT 0x40 s in
      let buf := u8 (buf .<< 1) in
      let '(v, s) := in8 I2C_BUS_DAT s in
      let buf := if v .& 0x20 =? 0 then buf .& 0xfe else buf .| 0x01 in
      read_bits n buf (out8 I2C_BUS_DAT 0x00 s)
  end.
Definition eepReadByte (s : St) : Z * St := read_bits 8 0x00 (out8 I2C_BUS_DIR 0x40 s).

(** The data line by the byte's top bit, the clock low or high. *)
Definition sda (buf clk : Z) : Z := (if buf .& 0x80 =? 0 then 0x00 else 0x20) .| clk.
Fixpoint write_bits (n : nat) (buf : Z) (s : St) : St :=
  match n with
  | O => s
  | S n =>
      let s := out8 I2C_BUS_DAT (sda buf 0) s in
      let s := out8 I2C_BUS_DAT (sda buf 0x40) s in
      let s := out8 I2C_BUS_DAT (sda buf 0) s in
      write_bits n (u8 (buf .<< 1)) s
  end.
Definition eepWriteByte (buf : Z) (s : St) : St :=
  let s := out8 I2C_BUS_DAT (sda buf 0) s in
  write_bits 8 buf (out8 I2C_BUS_DIR 0x60 s).

Definition eepReadAck (s : St) : Z * St :=
  let s := out8 I2C_BUS_DIR 0x40 s in
  let s := out8 I2C_BUS_DAT 0x00 s in
  let s := out8 I2C_BUS_DAT 0x40 s in
  let '(v, s) := in8 I2C_BUS_DAT s in
  let retval := if v .& 0x20 =? 0 then 0 else ERROR in
  (retval, out8 I2C_BUS_DAT 0x00 s).

Definition eepWriteAck (ack : Z) (s : St) : St :=
  let d := if ack =? 0 then 0x00 else 0x20 in
  let s := out8 I2C_BUS_DAT d s in
  let s := out8 I2C_BUS_DIR 0x60 s in
  let s := out8 I2C_BUS_DAT (d .| 0x40) s in
  out8 I2C_BUS_DAT d s.

(** The bytes go to the buffer one by one: the result lists those stored. *)
Fixpoint load_loop (n : nat) (addr cnt device block : Z) (s : St) : Z * list Z * St :=
  match n with
  | O => (cnt, [], s)
  | S n =>
      let s := eepStart s in
      let s := eepWriteByte (0xA0 .| device .| block) s in
      let '(r, s) := eepReadAck s in
      if r =? ERROR then (ERROR, [], eepStop s)
      else
        let s := eepWriteByte addr s in
        let addr := u8 (addr + 1) in
        let '(r, s) := eepReadAck s in
        if r =? ERROR then (ERROR, [], eepStop s)
        else
          let s := eepStart s in
          let s := eepWriteByte (0xA1 .| device .| block) s in
          let '(r, s) := eepReadAck s in
          if r =? ERROR then (ERROR, [], eepStop s)
          else
            let '(b, s) := eepReadByte s in
            let s := eepStop (eepWriteAck 1 s) in
            let next block := let '(r, l, s) := load_loop n addr cnt device block s in (r, b :: l, s) in
            if (addr =? 0) && negb (n =? 0)%nat then
              if block =? FIRST_BLOCK then next SECOND_BLOCK else (ERROR, [b], s)
            else next block
  end.
Definition el_srom_load (addr cnt device block : Z) (s : St) : Z * list Z * St :=
  load_loop (Z.to_nat cnt) addr cnt device block s.

(** The loop that asks until the chip answers. *)
Fixpoint store_poll (fuel : nat) (device block : Z) (s : St) : option St :=
  match fuel with
  | O => None
  | S f =>
      let s := eepWriteByte (0xA0 .| device .| block) (eepStart s) in
      let '(r, s) := eepReadAck s in
      if r =? ERROR then store_poll f device block (eepStop s) else Some s
  end.

Fixpoint store_loop (fuel : nat) (addr : Z) (buf : list Z) (cnt device block : Z) (s : St) : option (Z * St) :=
  match buf with
  | [] => Some (cnt, s)
  | b :: buf =>
      match store_poll fuel device block s with
      | None => None
      | Some s =>
          let s := eepWriteByte addr s in
          let addr := u8 (addr + 1) in
          let '(r, s) := eepReadAck s in
          if r =? ERROR then Some (ERROR, s)
          else
            let store block :=
              let s := eepWriteByte b s in
              let '(r, s) := eepReadAck s in
              if r =? ERROR then Some (ERROR, s) else store_loop fuel addr buf cnt device block (eepStop s) in
            if (addr =? 0) && negb (length buf =? 0)%nat then
              if block =? FIRST_BLOCK then store SECOND_BLOCK else Some (ERROR, s)
            else store block
      end
  end.
Definition el_srom_store (fuel : nat) (addr : Z) (buf : list Z) (device block : Z) (s : St) : option (Z * St) :=
  store_loop fuel addr buf (Z.of_nat (length buf)) device block s.
End driver.

(** *** Checksum *)

Fixpoint checksum_bits (n : nat) (byte accu : Z) : Z :=
  match n with
  | O => accu
  | S n =>
      let f := if (byte .& 1) .^ (accu .& 1) =? 0 then 0 else 0x84083001 in
      checksum_bits n (byte .>> 1) ((accu .>> 1) .^ f)
  end.
Definition el_srom_checksum (l : list Z) : Z := fold_left (fun accu byte => checksum_bits 8 byte accu) l 0.

(** * The chip

    A two-wire EEPROM of two blocks of 256 bytes, as its data sheet tells: data
    changes while the clock is low; a data edge while it is high starts or
    stops a transfer; on a falling clock edge a bit has been taken over. *)

Inductive phase :=
  | Idle
  | Started
  | Control (l : list bool)
  | Word (blk : Z) (l : list bool)
  | Data (blk : Z) (l : list bool)
  | Ack (next : phase)
  | Sending (blk : Z) (l : list bool)
  | Handover (blk : Z).

Record eeprom := Eeprom { cells : Z -> Z; ptr : Z; pending : list (Z * Z); busy : nat; ph : phase }.
Definition set_ph (p : phase) (e : eeprom) : eeprom := Eeprom (cells e) (ptr e) (pending e) (busy e) p.

Definition byte_bits (v : Z) : list bool := map (Z.testbit v) [7; 6; 5; 4; 3; 2; 1; 0].
Definition bits_val (l : list bool) : Z := fold_left (fun a b => 2 * a + Z.b2z b) l 0.
(** The cell of an address in a block (the block bit of the control byte). *)
Definition cell_no (blk addr : Z) : Z := blk * 128 + addr.

Section chip.
(** Its select bits, and how many polls a write cycle lasts. *)
Context (device : Z) (cycle : nat).

Definition decode_control (v : Z) (e : eeprom) : eeprom :=
  if negb (v .& 0xfc =? 0xa0 .| device) then set_ph Idle e
  else match busy e with
  | S k => Eeprom (cells e) (ptr e) (pending e) k Idle
  | O =>
      let blk := v .& 2 in
      if v .& 1 =? 0 then set_ph (Ack (Word blk [])) e
      else set_ph (Ack (Sending blk (byte_bits (cells e (cell_no blk (ptr e)))))) e
  end.

(** A falling clock edge; [b] is the level of the data line. *)
Definition falling (b : bool) (e : eeprom) : eeprom :=
  match ph e with
  | Idle => e
  | Started => set_ph (Control []) e
  | Control l => if (length l =? 7)%nat then decode_control (bits_val (l ++ [b])) e else set_ph (Control (l ++ [b])) e
  | Word blk l =>
      if (length l =? 7)%nat then Eeprom (cells e) (bits_val (l ++ [b])) (pending e) (busy e) (Ack (Data blk []))
      else set_ph (Word blk (l ++ [b])) e
  | Data blk l =>
      if (length l =? 7)%nat then
        (* within a page of sixteen *)
        Eeprom (cells e) (ptr e / 16 * 16 + (ptr e + 1) mod 16)
          (pending e ++ [(cell_no blk (ptr e), bits_val (l ++ [b]))]) (busy e) (Ack (Data blk []))
      else set_ph (Data blk (l ++ [b])) e
  | Ack next => set_ph next e
  | Sending blk [] => e
  | Sending blk [_] => set_ph (Handover blk) e
  | Sending blk (_ :: l) => set_ph (Sending blk l) e
  | Handover blk =>
      if b then set_ph Idle e
      else let p := (ptr e + 1) mod 256 in
           Eeprom (cells e) p (pending e) (busy e) (Sending blk (byte_bits (cells e (cell_no blk p))))
  end.
Definition on_start (e : eeprom) : eeprom := Eeprom (cells e) (ptr e) [] (busy e) Started.
(** A stop starts the write cycle. *)
Definition on_stop (e : eeprom) : eeprom :=
  Eeprom (fold_left (fun c p x => if x =? p.1 then p.2 else c x) (pending e) (cells e)) (ptr e) []
    (match pending e with [] => busy e | _ => cycle end) Idle.

(** Is the data line released? *)
Definition drive (e : eeprom) : bool :=
  match ph e with Ack _ => false | Sending _ (b :: _) => b | _ => true end.

(** The two port registers with the chip on their lines; a pin that is an input is pulled up. *)
Record lines := Lines { ldat : Z; ldir : Z; chip : eeprom }.
Definition pin (bit : Z) (dat dir : Z) : bool := if Z.testbit dir bit then Z.testbit dat bit else true.
Definition wire (x : lines) : bool := pin 5 (ldat x) (ldir x) && drive (chip x).
Definition set_port (dat dir : Z) (x : lines) : lines :=
  let e := chip x in
  Lines dat dir
    (match pin 6 (ldat x) (ldir x), pin 6 dat dir with
     | true, true =>
         let b' := pin 5 dat dir && drive e in
         if wire x && negb b' then on_start e else if negb (wire x) && b' then on_stop e else e
     | true, false => falling (wire x) e
     | _, _ => e
     end).

(** The promise. *)
Class EepromPort (St : Type) `{PortIO St} := {
  bus : St -> lines;
  bus_dat s v : bus (out8 I2C_BUS_DAT v s) = set_port v (ldir (bus s)) (bus s);
  bus_dir s v : bus (out8 I2C_BUS_DIR v s) = set_port (ldat (bus s)) v (bus s);
  bus_in s : Z.testbit (in8 I2C_BUS_DAT s).1 5 = wire (bus s) /\ bus (in8 I2C_BUS_DAT s).2 = bus s
}.
End chip.

(** * Properties *)

(** ** Transfers *)

Section transfers.
Context (device : Z) (cycle : nat) {St : Type} `{EepromPort device cycle St}.

(** The clock is held low by the driver, data pins 0 or as the last bit. *)
Definition held (s : St) (e : eeprom) : Prop :=
  exists d r, bus device cycle s = Lines d r e /\ Z.testbit d 6 = false /\ Z.testbit r 6 = true.
Definition resting (s : St) (e : eeprom) : Prop := exists d, bus device cycle s = Lines d 0 e.

Lemma mask_bit k v : 0 <= k -> (v .& 2 ^ k =? 0) = negb (Z.testbit v k).
Proof.
  intros Hk. destruct (Z.testbit v k) eqn:B; cbn [negb].
  - apply Z.eqb_neq. intros Z0. pose proof (Z.land_spec v (2 ^ k) k) as L.
    rewrite Z0, B, Z.bits_0, Z.pow2_bits_true in L by lia. discriminate.
  - apply Z.eqb_eq. apply Z.bits_inj'. intros i Hi. rewrite Z.land_spec, Z.bits_0.
    destruct (Z.eq_dec i k) as [->|]; [rewrite B; reflexivity|]. rewrite Z.pow2_bits_false by lia. apply andb_false_r.
Qed.
Lemma bit_5 v : (v .& 0x20 =? 0) = negb (Z.testbit v 5).
Proof. apply (mask_bit 5). lia. Qed.
Lemma bit_7 v : (v .& 0x80 =? 0) = negb (Z.testbit v 7).
Proof. apply (mask_bit 7). lia. Qed.

(** Movements of the lines, by the registers' old and new values. *)
Lemma move_dat s v d r e : bus device cycle s = Lines d r e ->
  bus device cycle (out8 I2C_BUS_DAT v s) = set_port device cycle v r (Lines d r e).
Proof. intros E. rewrite bus_dat, E. reflexivity. Qed.
Lemma move_dir s v d r e : bus device cycle s = Lines d r e ->
  bus device cycle (out8 I2C_BUS_DIR v s) = set_port device cycle d v (Lines d r e).
Proof. intros E. rewrite bus_dir, E. reflexivity. Qed.

Lemma set_port_low d d' r r' e : pin 6 d r = false ->
  set_port device cycle d' r' (Lines d r e) = Lines d' r' e.
Proof. intros Hc. unfold set_port. cbn [ldat ldir chip]. rewrite Hc. reflexivity. Qed.
Lemma set_port_high d d' r r' e : pin 6 d r = true -> pin 6 d' r' = true ->
  pin 5 d r && drive e = pin 5 d' r' && drive e -> set_port device cycle d' r' (Lines d r e) = Lines d' r' e.
Proof.
  intros H1 H2 H3. unfold set_port, wire. cbn [ldat ldir chip]. rewrite H1, H2, H3.
  destruct (pin 5 d' r' && drive e); reflexivity.
Qed.
Lemma set_port_falling d d' r r' e : pin 6 d r = true -> pin 6 d' r' = false ->
  set_port device cycle d' r' (Lines d r e) = Lines d' r' (falling device (pin 5 d r && drive e) e).
Proof. intros H1 H2. unfold set_port, wire. cbn [ldat ldir chip]. rewrite H1, H2. reflexivity. Qed.
Lemma set_port_start d d' r r' e : pin 6 d r = true -> pin 6 d' r' = true -> drive e = true ->
  pin 5 d r = true -> pin 5 d' r' = false -> set_port device cycle d' r' (Lines d r e) = Lines d' r' (on_start e).
Proof. intros H1 H2 H3 H4 H5. unfold set_port, wire. cbn [ldat ldir chip]. rewrite H1, H2, H3, H4, H5. reflexivity. Qed.
Lemma set_port_stop d d' r r' e : pin 6 d r = true -> pin 6 d' r' = true -> drive e = true ->
  pin 5 d r = false -> pin 5 d' r' = true -> set_port device cycle d' r' (Lines d r e) = Lines d' r' (on_stop cycle e).
Proof. intros H1 H2 H3 H4 H5. unfold set_port, wire. cbn [ldat ldir chip]. rewrite H1, H2, H3, H4, H5. reflexivity. Qed.

(** The state of the lines after each primitive. *)
Lemma eepStart_held s e : held s e -> drive e = true ->
  held (eepStart s) (set_ph (Control []) (on_start e)).
Proof.
  intros (d & r & E & Hd & Hr) Hf. unfold eepStart.
  assert (pin 6 d r = false) as Hl by (unfold pin; rewrite Hr; exact Hd).
  apply (move_dat _ 0x60) in E. rewrite (set_port_low _ _ _ _ _ Hl) in E.
  apply (move_dir _ 0x60) in E. rewrite set_port_high in E;
    [|unfold pin; rewrite Hr; reflexivity|reflexivity|unfold pin; destruct (Z.testbit r 5); reflexivity].
  apply (move_dat _ 0x40) in E. rewrite set_port_start in E by (exact Hf || reflexivity).
  apply (move_dat _ 0x00) in E. rewrite set_port_falling in E by reflexivity.
  do 2 eexists. split; [exact E|]. split; reflexivity.
Qed.
Lemma eepStart_resting s e : resting s e -> drive e = true ->
  held (eepStart s) (set_ph (Control []) (on_start e)).
Proof.
  intros (d & E) Hf. unfold eepStart.
  apply (move_dat _ 0x60) in E. rewrite set_port_high in E by reflexivity.
  apply (move_dir _ 0x60) in E. rewrite set_port_high in E by reflexivity.
  apply (move_dat _ 0x40) in E. rewrite set_port_start in E by (exact Hf || reflexivity).
  apply (move_dat _ 0x00) in E. rewrite set_port_falling in E by reflexivity.
  do 2 eexists. split; [exact E|]. split; reflexivity.
Qed.
Lemma eepStop_held s e : held s e -> drive e = true -> resting (eepStop s) (on_stop cycle e).
Proof.
  intros (d & r & E & Hd & Hr) Hf. unfold eepStop.
  assert (pin 6 d r = false) as Hl by (unfold pin; rewrite Hr; exact Hd).
  apply (move_dat _ 0x00) in E. rewrite (set_port_low _ _ _ _ _ Hl) in E.
  apply (move_dir _ 0x60) in E. rewrite set_port_low in E by (unfold pin; rewrite Hr; reflexivity).
  apply (move_dat _ 0x40) in E. rewrite set_port_low in E by reflexivity.
  apply (move_dat _ 0x60) in E. rewrite set_port_stop in E by (exact Hf || reflexivity).
  apply (move_dir _ 0x00) in E. rewrite set_port_high in E by reflexivity.
  eexists. exact E.
Qed.

(** *** Bits *)

(** One clock pulse with a level on the data line. *)
Definition pulse (b : bool) (e : eeprom) : eeprom := falling device (b && drive e) e.
Definition pulses (l : list bool) (e : eeprom) : eeprom := fold_left (fun e b => pulse b e) l e.

Lemma sda_pins buf :
  pin 6 (sda buf 0) 0x60 = false /\ pin 6 (sda buf 0x40) 0x60 = true /\ pin 5 (sda buf 0x40) 0x60 = Z.testbit buf 7 /\
  Z.testbit (sda buf 0) 6 = false.
Proof. unfold sda. rewrite bit_7. destruct (Z.testbit buf 7); repeat split. Qed.

(** The top bits of the shifted byte are its bits in turn. *)
Fixpoint top_bits (n : nat) (v : Z) : list bool :=
  match n with O => [] | S n => Z.testbit v 7 :: top_bits n (u8 (v .<< 1)) end.
Lemma top_bits_byte v : is_u8 v -> top_bits 8 v = byte_bits v.
Proof.
  intros Hv. apply (bool_decide_eq_true (top_bits 8 v = byte_bits v)).
  exact (forall_below_spec 256 (fun v => bool_decide (top_bits 8 v = byte_bits v)) eq_refl v Hv).
Qed.
Lemma bits_val_byte v : is_u8 v -> bits_val (byte_bits v) = v.
Proof.
  intros Hv. apply Z.eqb_eq.
  exact (forall_below_spec 256 (fun v => bits_val (byte_bits v) =? v) eq_refl v Hv).
Qed.

Lemma write_bits_held n : forall buf s d e,
  bus device cycle s = Lines d 0x60 e -> Z.testbit d 6 = false ->
  exists d', bus device cycle (write_bits n buf s) = Lines d' 0x60 (pulses (top_bits n buf) e) /\ Z.testbit d' 6 = false.
Proof.
  induction n as [|n IH]; intros buf s d e E Hd; cbn [write_bits top_bits]; [eauto|].
  destruct (sda_pins buf) as (P1 & P2 & P3 & P4).
  apply (move_dat _ (sda buf 0)) in E. rewrite set_port_low in E by exact Hd.
  apply (move_dat _ (sda buf 0x40)) in E. rewrite set_port_low in E by exact P1.
  apply (move_dat _ (sda buf 0)) in E. rewrite set_port_falling, P3 in E by assumption.
  exact (IH (u8 (buf .<< 1)) _ _ _ E P4).
Qed.
Lemma eepWriteByte_held v s e : is_u8 v -> held s e -> held (eepWriteByte v s) (pulses (byte_bits v) e).
Proof.
  intros Hv (d & r & E & Hd & Hr). unfold eepWriteByte. destruct (sda_pins v) as (P1 & _ & _ & P4).
  apply (move_dat _ (sda v 0)) in E. rewrite set_port_low in E by (unfold pin; rewrite Hr; exact Hd).
  apply (move_dir _ 0x60) in E. rewrite set_port_low in E by (unfold pin; rewrite Hr; exact P4).
  destruct (write_bits_held 8 v _ _ _ E P4) as (d' & E' & Hd'). rewrite top_bits_byte in E' by exact Hv.
  exists d', 0x60. auto.
Qed.

Lemma eepReadAck_held s e : held s e ->
  (eepReadAck s).1 = (if drive e then ERROR else 0) /\ held (eepReadAck s).2 (pulse true e).
Proof.
  intros (d & r & E & Hd & Hr). unfold eepReadAck.
  apply (move_dir _ 0x40) in E. rewrite set_port_low in E by (unfold pin; rewrite Hr; exact Hd).
  apply (move_dat _ 0x00) in E. rewrite set_port_low in E by (unfold pin; exact Hd).
  apply (move_dat _ 0x40) in E. rewrite set_port_low in E by reflexivity.
  match type of E with bus _ _ ?x = _ => set (s1 := x) in * end. destruct (bus_in device cycle s1) as [B1 B2].
  destruct (in8 I2C_BUS_DAT s1) as [v s2]. cbn [fst snd] in *. rewrite bit_5, B1, E. rewrite E in B2.
  apply (move_dat _ 0x00) in B2. rewrite set_port_falling in B2 by reflexivity. split.
  - unfold wire. cbn [ldat ldir chip]. change (pin 5 0x40 0x40) with true. destruct (drive e); reflexivity.
  - do 2 eexists. split; [exact B2|]. split; reflexivity.
Qed.

Lemma eepWriteAck_held s e : held s e -> held (eepWriteAck 1 s) (pulse true e).
Proof.
  intros (d & r & E & Hd & Hr). unfold eepWriteAck. cbn [Z.eqb].
  apply (move_dat _ 0x20) in E. rewrite set_port_low in E by (unfold pin; rewrite Hr; exact Hd).
  apply (move_dir _ 0x60) in E. rewrite set_port_low in E by (unfold pin; rewrite Hr; reflexivity).
  apply (move_dat _ (0x20 .| 0x40)) in E. rewrite set_port_low in E by reflexivity.
  apply (move_dat _ 0x20) in E. rewrite set_port_falling in E by reflexivity.
  do 2 eexists. split; [exact E|]. split; reflexivity.
Qed.

(** *** Bytes *)

(** Eight pulses in a phase that collects bits. *)
Lemma pulses_collect (k : list bool -> phase) (fin : list bool -> eeprom) e :
  (forall l, drive (set_ph (k l) e) = true) ->
  (forall l b, falling device b (set_ph (k l) e) = if (length l =? 7)%nat then fin (l ++ [b]) else set_ph (k (l ++ [b])) e) ->
  forall bs l, bs <> [] -> (length l + length bs = 8)%nat -> pulses bs (set_ph (k l) e) = fin (l ++ bs).
Proof.
  intros Hd Hf. induction bs as [|b bs IH]; intros l Hn Hl; [congruence|]. cbn [pulses fold_left].
  unfold pulse at 2. rewrite Hd, andb_true_r, Hf. cbn [length] in Hl. destruct bs as [|c bs].
  - rewrite (proj2 (Nat.eqb_eq _ _)) by (simpl in Hl; lia). reflexivity.
  - rewrite (proj2 (Nat.eqb_neq _ _)) by (simpl in Hl; lia).
    change (pulses (c :: bs) (set_ph (k (l ++ [b])) e) = fin (l ++ b :: c :: bs)).
    rewrite IH; [rewrite <- app_assoc; reflexivity|discriminate|rewrite length_app; simpl in *; lia].
Qed.

Lemma pulses_control v e : is_u8 v -> ph e = Control [] -> pulses (byte_bits v) e = decode_control device v e.
Proof.
  intros Hv He. replace e with (set_ph (Control []) e) at 1 by (destruct e; cbn in *; subst; reflexivity).
  rewrite (pulses_collect Control (fun l => decode_control device (bits_val l) e)); try reflexivity; try discriminate.
  rewrite app_nil_l, bits_val_byte by exact Hv. reflexivity.
Qed.
Lemma pulses_word v e blk : is_u8 v -> ph e = Word blk [] ->
  pulses (byte_bits v) e = Eeprom (cells e) v (pending e) (busy e) (Ack (Data blk [])).
Proof.
  intros Hv He. replace e with (set_ph (Word blk []) e) at 1 by (destruct e; cbn in *; subst; reflexivity).
  rewrite (pulses_collect (Word blk) (fun l => Eeprom (cells e) (bits_val l) (pending e) (busy e) (Ack (Data blk []))));
    try reflexivity; try discriminate. rewrite app_nil_l, bits_val_byte by exact Hv. reflexivity.
Qed.
Lemma pulses_data v e blk : is_u8 v -> ph e = Data blk [] ->
  pulses (byte_bits v) e = Eeprom (cells e) (ptr e / 16 * 16 + (ptr e + 1) mod 16)
    (pending e ++ [(cell_no blk (ptr e), v)]) (busy e) (Ack (Data blk [])).
Proof.
  intros Hv He. replace e with (set_ph (Data blk []) e) at 1 by (destruct e; cbn in *; subst; reflexivity).
  rewrite (pulses_collect (Data blk) (fun l => Eeprom (cells e) (ptr e / 16 * 16 + (ptr e + 1) mod 16)
    (pending e ++ [(cell_no blk (ptr e), bits_val l)]) (busy e) (Ack (Data blk []))));
    try reflexivity; try discriminate. rewrite app_nil_l, bits_val_byte by exact Hv. reflexivity.
Qed.

(** Reading collects what the chip sends. *)
Definition add_bit (buf : Z) (b : bool) : Z :=
  let buf := u8 (buf .<< 1) in if b then buf .| 0x01 else buf .& 0xfe.
Definition sent (blk : Z) (l : list bool) (e : eeprom) : eeprom :=
  match l with [] => set_ph (Handover blk) e | _ => set_ph (Sending blk l) e end.

Lemma read_bits_held blk l : forall buf s d e,
  bus device cycle s = Lines d 0x40 (sent blk l e) -> Z.testbit d 6 = false ->
  let '(v, s') := read_bits (length l) buf s in
  v = fold_left add_bit l buf /\
  exists d', bus device cycle s' = Lines d' 0x40 (set_ph (Handover blk) e) /\ Z.testbit d' 6 = false.
Proof.
  induction l as [|b l IH]; intros buf s d e E Hd; cbn [read_bits length]; [eauto|].
  apply (move_dat _ 0x00) in E. rewrite set_port_low in E by exact Hd.
  apply (move_dat _ 0x40) in E. rewrite set_port_low in E by reflexivity.
  match type of E with bus _ _ ?x = _ => set (s1 := x) in * end. destruct (bus_in device cycle s1) as [B1 B2].
  destruct (in8 I2C_BUS_DAT s1) as [v s2]. cbn [fst snd] in *. rewrite bit_5, B1, E. rewrite E in B2.
  apply (move_dat _ 0x00) in B2. rewrite set_port_falling in B2 by reflexivity.
  assert (falling device (pin 5 0x40 0x40 && drive (sent blk (b :: l) e)) (sent blk (b :: l) e) = sent blk l e) as Ef.
  { destruct l; reflexivity. }
  rewrite Ef in B2. specialize (IH (add_bit buf b) _ _ e B2 eq_refl). cbn [fold_left].
  replace (if negb (wire (Lines 0x40 0x40 (sent blk (b :: l) e))) then u8 (buf .<< 1) .& 0xfe else u8 (buf .<< 1) .| 0x01)
    with (add_bit buf b) by (unfold add_bit, wire; destruct b; reflexivity).
  exact IH.
Qed.
Lemma add_bits_byte v : is_u8 v -> fold_left add_bit (byte_bits v) 0 = v.
Proof.
  intros Hv. apply Z.eqb_eq.
  exact (forall_below_spec 256 (fun v => fold_left add_bit (byte_bits v) 0 =? v) eq_refl v Hv).
Qed.
Lemma eepReadByte_held blk v s e : is_u8 v -> held s e -> ph e = Sending blk (byte_bits v) ->
  (eepReadByte s).1 = v /\ held (eepReadByte s).2 (set_ph (Handover blk) e).
Proof.
  intros Hv (d & r & E & Hd & Hr) He. unfold eepReadByte.
  apply (move_dir _ 0x40) in E. rewrite set_port_low in E by (unfold pin; rewrite Hr; exact Hd).
  replace e with (sent blk (byte_bits v) e) in E by (destruct e; cbn in *; subst; reflexivity).
  pose proof (read_bits_held blk (byte_bits v) 0 _ _ _ E Hd) as R. change (length (byte_bits v)) with 8%nat in R.
  destruct (read_bits 8 0 _) as [b s']. destruct R as [-> (d' & E' & Hd')]. rewrite add_bits_byte by exact Hv.
  split; [reflexivity|]. exists d', 0x40. auto.
Qed.

(** ** Transactions *)

Context (Hdevice : device = FIRST_DEVICE \/ device = SECOND_DEVICE).
Definition is_block (b : Z) : Prop := b = FIRST_BLOCK \/ b = SECOND_BLOCK.

Ltac selects Hb := destruct Hdevice as [-> | ->], Hb as [-> | ->]; vm_compute; reflexivity.

Lemma control_u8 b r : is_block b -> r = 0xA0 \/ r = 0xA1 -> is_u8 (r .| device .| b).
Proof.
  intros Hb [-> | ->]; destruct Hdevice as [-> | ->], Hb as [-> | ->]; vm_compute; split; congruence.
Qed.
Lemma select_bits b : is_block b ->
  ((0xA0 .| device .| b) .& 0xfc =? 0xa0 .| device) = true /\ (0xA0 .| device .| b) .& 2 = b /\ ((0xA0 .| device .| b) .& 1 =? 0) = true /\
  ((0xA1 .| device .| b) .& 0xfc =? 0xa0 .| device) = true /\ (0xA1 .| device .| b) .& 2 = b /\ ((0xA1 .| device .| b) .& 1 =? 0) = false.
Proof. intros Hb. split_and!; selects Hb. Qed.

(** The chip between transfers. *)
Definition at_rest (e : eeprom) : Prop := ph e = Idle /\ pending e = [].

Lemma decode_write b e : is_block b -> busy e = O -> decode_control device (0xA0 .| device .| b) e = set_ph (Ack (Word b [])) e.
Proof.
  intros Hb He. destruct (select_bits b Hb) as (E1 & E2 & E3 & _). unfold decode_control. rewrite E1, E2, E3, He. reflexivity.
Qed.
Lemma decode_busy b e k : is_block b -> busy e = S k ->
  decode_control device (0xA0 .| device .| b) e = Eeprom (cells e) (ptr e) (pending e) k Idle.
Proof.
  intros Hb He. destruct (select_bits b Hb) as (E1 & _). unfold decode_control. rewrite E1, He. reflexivity.
Qed.
Lemma decode_read b e : is_block b -> busy e = O ->
  decode_control device (0xA1 .| device .| b) e = set_ph (Ack (Sending b (byte_bits (cells e (cell_no b (ptr e)))))) e.
Proof.
  intros Hb He. destruct (select_bits b Hb) as (_ & _ & _ & E1 & E2 & E3). unfold decode_control. rewrite E1, E2, E3, He. reflexivity.
Qed.

(** Selecting the chip: it answers, or counts one poll of its write cycle. *)
Definition selected (s : St) (b : Z) : St := eepWriteByte (0xA0 .| device .| b) (eepStart s).
Lemma select_ready s e b : is_block b -> resting s e -> at_rest e -> busy e = O ->
  (eepReadAck (selected s b)).1 = 0 /\ held (eepReadAck (selected s b)).2 (set_ph (Word b []) e).
Proof.
  intros Hb Hr [Hp Hn] Hbusy. assert (drive e = true) as Hd by (unfold drive; rewrite Hp; reflexivity).
  pose proof (eepStart_resting s e Hr Hd) as H1. apply (eepWriteByte_held _ _ _ (control_u8 b _ Hb (or_introl eq_refl))) in H1.
  rewrite pulses_control, decode_write in H1 by (auto using control_u8 || exact Hbusy || reflexivity).
  apply eepReadAck_held in H1 as [A1 A2]. split; [exact A1|].
  replace (set_ph (Word b []) e) with (pulse true (set_ph (Ack (Word b [])) (set_ph (Control []) (on_start e)))); [exact A2|].
  destruct e; cbn in *; subst; reflexivity.
Qed.
Lemma select_busy s e b k : is_block b -> resting s e -> at_rest e -> busy e = S k ->
  (eepReadAck (selected s b)).1 = ERROR /\
  resting (eepStop (eepReadAck (selected s b)).2) (Eeprom (cells e) (ptr e) [] k Idle).
Proof.
  intros Hb Hr [Hp Hn] Hbusy. assert (drive e = true) as Hd by (unfold drive; rewrite Hp; reflexivity).
  pose proof (eepStart_resting s e Hr Hd) as H1. apply (eepWriteByte_held _ _ _ (control_u8 b _ Hb (or_introl eq_refl))) in H1.
  rewrite pulses_control, (decode_busy _ _ k) in H1 by (auto using control_u8 || exact Hbusy || reflexivity).
  apply eepReadAck_held in H1 as [A1 A2]. split; [exact A1|].
  apply eepStop_held in A2; [|reflexivity]. exact A2.
Qed.

(** *** Reading *)

(** One byte: select, address, select for reading, the byte, no acknowledge, stop. *)
Lemma read_one s e b addr : is_block b -> resting s e -> at_rest e -> busy e = O -> is_u8 addr -> is_u8 (cells e (cell_no b addr)) ->
  let s1 := (eepReadAck (selected s b)).2 in
  let s2 := eepReadAck (eepWriteByte addr s1) in
  let s3 := eepReadAck (eepWriteByte (0xA1 .| device .| b) (eepStart s2.2)) in
  let r := eepReadByte s3.2 in
  s2.1 = 0 /\ s3.1 = 0 /\ r.1 = cells e (cell_no b addr) /\
  resting (eepStop (eepWriteAck 1 r.2)) (Eeprom (cells e) addr [] O Idle).
Proof.
  intros Hb Hr Hrest Hbusy Ha Hc s1 s2 s3 r. destruct (select_ready s e b Hb Hr Hrest Hbusy) as [_ H1]. fold s1 in H1.
  destruct Hrest as [Hp Hn].
  apply (eepWriteByte_held _ _ _ Ha) in H1. rewrite (pulses_word addr (set_ph (Word b []) e) b Ha eq_refl) in H1. cbn [cells pending busy set_ph] in H1.
  apply eepReadAck_held in H1 as [A1 A2]. fold s2 in A1, A2. split; [exact A1|].
  apply eepStart_held in A2; [|reflexivity]. apply (eepWriteByte_held _ _ _ (control_u8 b 0xA1 Hb (or_intror eq_refl))) in A2.
  rewrite pulses_control, decode_read in A2 by (auto using control_u8 || exact Hbusy || reflexivity).
  apply eepReadAck_held in A2 as [B1 B2]. fold s3 in B1, B2. split; [exact B1|].
  apply (eepReadByte_held b (cells e (cell_no b addr))) in B2 as [C1 C2]; [|exact Hc|reflexivity]. fold r in C1, C2.
  split; [exact C1|]. apply eepWriteAck_held in C2. apply eepStop_held in C2; [|reflexivity].
  replace (Eeprom (cells e) addr [] O Idle) with (on_stop cycle (pulse true
    (set_ph (Handover b) (pulse true (set_ph (Ack (Sending b (byte_bits (cells e (cell_no b addr)))))
      (set_ph (Control []) (on_start (pulse true (Eeprom (cells e) addr (pending e) (busy e) (Ack (Data b []))))))))))); [exact C2|].
  destruct e; cbn in *; subst; reflexivity.
Qed.

Lemma load_loop_spec n : forall addr cnt b s e, is_block b -> resting s e -> at_rest e -> busy e = O -> mem_ok (cells e) ->
  0 <= addr < 256 ->
  let room := Z.to_nat (512 - cell_no b addr) in
  let '(r, l, s') := load_loop n addr cnt device b s in
  r = (if (n <=? room)%nat then cnt else ERROR) /\ l = read_bytes (cells e) (cell_no b addr) (Nat.min n room) /\
  exists e', resting s' e' /\ at_rest e' /\ busy e' = O /\ cells e' = cells e.
Proof.
  induction n as [|n IH]; intros addr cnt b s e Hb Hr Hrest Hbusy Hm Ha room; [cbn; split_and!; eauto|].
  assert (1 <= room)%nat as Hroom by (unfold room, cell_no; destruct Hb as [-> | ->]; unfold FIRST_BLOCK, SECOND_BLOCK; lia).
  destruct (select_ready s e b Hb Hr Hrest Hbusy) as [A0 _].
  destruct (read_one s e b addr Hb Hr Hrest Hbusy Ha (Hm _)) as (A1 & A2 & A3 & A4). cbv zeta in *.
  cbn [load_loop]. fold (selected s b). destruct (eepReadAck (selected s b)) as [r0 s1]. cbn [fst snd] in *. subst r0.
  change (0 =? ERROR) with false. cbn iota.
  destruct (eepReadAck (eepWriteByte addr s1)) as [r1 s2]. cbn [fst snd] in *. subst r1. change (0 =? ERROR) with false. cbn iota.
  destruct (eepReadAck (eepWriteByte (0xA1 .| device .| b) (eepStart s2))) as [r2 s3]. cbn [fst snd] in *. subst r2. change (0 =? ERROR) with false. cbn iota.
  destruct (eepReadByte s3) as [v s4]. cbn [fst snd] in *. subst v. set (s5 := eepStop (eepWriteAck 1 s4)) in *.
  set (e1 := Eeprom (cells e) addr [] O Idle) in *.
  assert (forall b', is_block b' -> (addr < 255 /\ b' = b) \/ (addr = 255 /\ cell_no b' 0 = cell_no b addr + 1) ->
    let '(r, l, s') := (let '(r, l, s') := load_loop n (u8 (addr + 1)) cnt device b' s5 in (r, cells e (cell_no b addr) :: l, s')) in
    r = (if (S n <=? room)%nat then cnt else ERROR) /\ l = read_bytes (cells e) (cell_no b addr) (Nat.min (S n) room) /\
    exists e', resting s' e' /\ at_rest e' /\ busy e' = O /\ cells e' = cells e) as Next.
  { intros b' Hb' Hc. specialize (IH (u8 (addr + 1)) cnt b' s5 e1 Hb' A4 (conj eq_refl eq_refl) eq_refl Hm (u8_range _)).
    cbv zeta in IH. assert (cell_no b' (u8 (addr + 1)) = cell_no b addr + 1) as Ec.
    { destruct Hc as [[Hlt ->]|[-> Hc]]; [rewrite u8_small by lia; unfold cell_no; lia|exact Hc]. }
    rewrite Ec in IH. destruct (load_loop _ _ _ _ _ _) as [[r l] s']. destruct IH as (I1 & I2 & I3).
    replace room with (S (Z.to_nat (512 - (cell_no b addr + 1)))) by (unfold room in *; lia).
    split; [|split; [|exact I3]].
    - rewrite I1. reflexivity.
    - rewrite I2. reflexivity. }
  destruct (Z.eq_dec addr 255) as [->|Hne].
  - change (u8 (255 + 1)) with 0 in *. cbn [Z.eqb andb]. destruct (Nat.eqb_spec n 0) as [->|Hn]; cbn [negb].
    + cbn [load_loop]. replace (1 <=? room)%nat with true by (symmetry; apply Nat.leb_le; lia).
      rewrite Nat.min_l by lia. split_and!; [reflexivity|reflexivity|]. exists e1. split_and!; auto. split; reflexivity.
    + destruct Hb as [-> | ->].
      * apply Next; [right; reflexivity|right; split; reflexivity].
      * change room with 1%nat in *. rewrite (proj2 (Nat.leb_gt _ _)) by lia. rewrite Nat.min_r by lia.
        split_and!; [reflexivity|reflexivity|]. exists e1. split_and!; auto. split; reflexivity.
  - rewrite (proj2 (Z.eqb_neq (u8 (addr + 1)) 0)) by (rewrite u8_small; lia). apply Next; [exact Hb|left; split; [lia|reflexivity]].
Qed.

(** A chip in its write cycle does not answer: the first byte's failure ends the request. *)
Lemma load_busy addr cnt b s e k : 0 < cnt -> is_block b -> resting s e -> at_rest e -> busy e = S k ->
  let '(r, l, s') := el_srom_load addr cnt device b s in
  r = ERROR /\ l = [] /\ resting s' (Eeprom (cells e) (ptr e) [] k Idle).
Proof.
  intros Hc Hb Hr Hrest Hbusy. unfold el_srom_load. destruct (Z.to_nat cnt) as [|n] eqn:En; [lia|]. cbn [load_loop].
  destruct (select_busy s e b k Hb Hr Hrest Hbusy) as [A1 A2]. fold (selected s b).
  destruct (eepReadAck (selected s b)) as [r s1]. cbn [fst snd] in *. subst r.
  change (ERROR =? ERROR) with true. cbn iota. auto.
Qed.

(** *** Writing *)

Lemma poll_spec k : forall fuel b s e, is_block b -> resting s e -> at_rest e -> busy e = k -> (k < fuel)%nat ->
  exists s', store_poll fuel device b s = Some s' /\
    exists p, held s' (Eeprom (cells e) p [] O (Word b [])).
Proof.
  induction k as [|k IH]; intros fuel b s e Hb Hr Hrest Hbusy Hf; (destruct fuel as [|fuel]; [lia|]); cbn [store_poll]; fold (selected s b).
  - destruct (select_ready s e b Hb Hr Hrest Hbusy) as [A1 A2]. destruct (eepReadAck (selected s b)) as [r s1].
    cbn [fst snd] in *. subst r. change (0 =? ERROR) with false. cbn iota. eexists. split; [reflexivity|]. exists (ptr e).
    destruct Hrest as [_ Hn]. destruct e; cbn in *; subst. exact A2.
  - destruct (select_busy s e b k Hb Hr Hrest Hbusy) as [A1 A2]. destruct (eepReadAck (selected s b)) as [r s1].
    cbn [fst snd] in *. subst r. change (ERROR =? ERROR) with true. cbn iota.
    apply (IH fuel b _ _ Hb A2); [split; reflexivity|reflexivity|lia].
Qed.

(** One byte: poll, address, byte, stop. *)
Lemma write_one s c p b b' addr v : is_u8 addr -> is_u8 v -> is_block b' ->
  held s (Eeprom c p [] O (Word b [])) ->
  let s1 := eepReadAck (eepWriteByte addr s) in
  let s2 := eepReadAck (eepWriteByte v s1.2) in
  s1.1 = 0 /\ s2.1 = 0 /\
  exists p', resting (eepStop s2.2) (Eeprom (upd c (cell_no b addr) v) p' [] cycle Idle).
Proof.
  intros Ha Hv Hb' H1 s1 s2. apply (eepWriteByte_held _ _ _ Ha) in H1.
  rewrite (pulses_word addr (Eeprom c p [] O (Word b [])) b Ha eq_refl) in H1. cbn [cells pending busy] in H1.
  apply eepReadAck_held in H1 as [A1 A2]. fold s1 in A1, A2. split; [exact A1|].
  apply (eepWriteByte_held _ _ _ Hv) in A2.
  rewrite (pulses_data v (pulse true (Eeprom c addr [] O (Ack (Data b [])))) b Hv eq_refl) in A2.
  apply eepReadAck_held in A2 as [B1 B2]. fold s2 in B1, B2. split; [exact B1|].
  apply eepStop_held in B2; [|reflexivity]. eexists. exact B2.
Qed.

Lemma store_loop_spec buf : forall fuel addr cnt b s e, is_block b -> resting s e -> at_rest e ->
  (busy e < fuel)%nat -> (cycle < fuel)%nat -> Forall is_u8 buf -> 0 <= addr < 256 -> cell_no b addr + zlen buf <= 512 ->
  exists s', store_loop fuel addr buf cnt device b s = Some (cnt, s') /\
    exists e', resting s' e' /\ at_rest e' /\ cells e' = put_bytes (cells e) (cell_no b addr) buf /\
      busy e' = match buf with [] => busy e | _ => cycle end.
Proof.
  induction buf as [|v buf IH]; intros fuel addr cnt b s e Hb Hr Hrest Hbusy Hcy Hu Ha Hroom; cbn [store_loop put_bytes].
  - eexists. split; [reflexivity|]. exists e. auto.
  - inversion Hu as [|? ? Hv Hu']; subst. rewrite zlen_cons in Hroom. pose proof (zlen_nonneg buf) as Hz.
    destruct (poll_spec (busy e) fuel b s e Hb Hr Hrest eq_refl Hbusy) as (s0 & -> & p & Hsel).
    destruct (write_one s0 (cells e) p b b addr v Ha Hv Hb Hsel) as (A1 & A2 & p' & A3).
    destruct (eepReadAck (eepWriteByte addr s0)) as [r1 s1]. cbn [fst snd] in *. subst r1. change (0 =? ERROR) with false. cbn iota.
    destruct (eepReadAck (eepWriteByte v s1)) as [r2 s2]. cbn [fst snd] in *. subst r2. change (0 =? ERROR) with false. cbn iota.
    set (e1 := Eeprom (upd (cells e) (cell_no b addr) v) p' [] cycle Idle) in *.
    assert (forall b', is_block b' -> buf = [] \/ cell_no b' (u8 (addr + 1)) = cell_no b addr + 1 ->
      exists s', store_loop fuel (u8 (addr + 1)) buf cnt device b' (eepStop s2) = Some (cnt, s') /\
        exists e', resting s' e' /\ at_rest e' /\ cells e' = put_bytes (cells e1) (cell_no b addr + 1) buf /\ busy e' = cycle) as Next.
    { intros b' Hb' Hc. destruct buf as [|w buf].
      - cbn. eexists. split; [reflexivity|]. exists e1. split_and!; auto. split; reflexivity.
      - destruct Hc as [|Hc]; [discriminate|]. rewrite <- Hc.
        destruct (IH fuel (u8 (addr + 1)) cnt b' (eepStop s2) e1 Hb' A3 (conj eq_refl eq_refl) Hcy Hcy Hu' (u8_range _) ltac:(rewrite Hc; lia))
          as (s' & E & e' & I1 & I2 & I3 & I4).
        exists s'. split; [exact E|]. exists e'. auto. }
    destruct (Z.eq_dec addr 255) as [->|Hne].
    + change (u8 (255 + 1)) with 0 in *. cbn [Z.eqb andb]. destruct (Nat.eqb_spec (length buf) 0) as [Hn|Hn]; cbn [negb].
      * apply (Next b Hb). left. destruct buf; [reflexivity|discriminate].
      * destruct Hb as [-> | ->]; [apply (Next SECOND_BLOCK); [right; reflexivity|right; reflexivity]|].
        unfold cell_no, SECOND_BLOCK, zlen in Hroom. lia.
    + rewrite (proj2 (Z.eqb_neq (u8 (addr + 1)) 0)) by (rewrite u8_small; lia). cbn [andb]. apply (Next b Hb). right.
      rewrite u8_small by lia. unfold cell_no. lia.
Qed.
End transfers.

(** ** Main results *)

Section stored.
Context (device : Z) (cycle : nat) {St : Type} `{EepromPort device cycle St}.

(** C27: storing bytes into the revision EEPROM puts them into its cells and changes no other
    cell, however long earlier write cycles last, across the end of the first
    block too; once the last write cycle is over, loading returns the bytes. *)
Theorem srom_store_load fuel addr buf b s e :
  device = FIRST_DEVICE \/ device = SECOND_DEVICE -> is_block b ->
  resting device cycle s e -> at_rest e -> mem_ok (cells e) ->
  (busy e < fuel)%nat -> (cycle < fuel)%nat -> Forall is_u8 buf -> 0 <= addr < 256 -> cell_no b addr + zlen buf <= 512 ->
  exists s' e', el_srom_store fuel addr buf device b s = Some (zlen buf, s') /\
    resting device cycle s' e' /\ at_rest e' /\ cells e' = put_bytes (cells e) (cell_no b addr) buf /\
    forall s2 e2, resting device cycle s2 e2 -> at_rest e2 -> busy e2 = O -> cells e2 = cells e' ->
      (el_srom_load addr (zlen buf) device b s2).1 = (zlen buf, buf).
Proof.
  intros Hd Hb Hr Hrest Hm Hbusy Hcy Hu Ha Hroom. unfold el_srom_store.
  destruct (store_loop_spec device cycle Hd buf fuel addr (zlen buf) b s e Hb Hr Hrest Hbusy Hcy Hu Ha Hroom)
    as (s' & E & e' & I1 & I2 & I3 & _).
  exists s', e'. split; [exact E|]. split_and!; auto. intros s2 e2 R1 R2 R3 R4. unfold el_srom_load.
  rewrite I3 in R4. assert (mem_ok (cells e2)) as Hm2 by (rewrite R4; apply put_bytes_ok; assumption).
  pose proof (load_loop_spec device cycle Hd (Z.to_nat (zlen buf)) addr (zlen buf) b s2 e2 Hb R1 R2 R3 Hm2 Ha) as L.
  cbv zeta in L. destruct (load_loop _ _ _ _ _ _) as [[r l] s3]. destruct L as (L1 & L2 & _). cbn [fst].
  rewrite (proj2 (Nat.leb_le _ _)) in L1 by lia. rewrite Nat.min_l in L2 by lia.
  rewrite L1, L2, R4. f_equal. unfold zlen. rewrite Nat2Z.id. apply read_bytes_at, put_bytes_at.
Qed.
End stored.

(** A machine that is the two registers and the chip. *)
#[export] Instance lines_io : PortIO lines := {
  out8 p v x := if p =? I2C_BUS_DAT then set_port SECOND_DEVICE 3 v (ldir x) x
                else if p =? I2C_BUS_DIR then set_port SECOND_DEVICE 3 (ldat x) v x else x;
  in8 _ x := (if wire x then 0x20 else 0, x)
}.
#[export] Instance lines_eeprom : EepromPort SECOND_DEVICE 3 lines.
Proof.
  refine {| bus x := x |}.
  - reflexivity.
  - reflexivity.
  - intros x. split; [|reflexivity]. cbn. destruct (wire x); reflexivity.
Defined.
Definition ex_chip : lines := Lines 0 0 (Eeprom (fun _ => 0xff) 0 [] 2 Idle).

Lemma srom_store_load_witness :
  exists s' e', el_srom_store 4 0xfe (str "ELTEC") SECOND_DEVICE FIRST_BLOCK ex_chip = Some (5, s') /\
    resting SECOND_DEVICE 3 s' e' /\ cells e' 0x100 = 84.
Proof.
  destruct (srom_store_load SECOND_DEVICE 3 4 0xfe (str "ELTEC") FIRST_BLOCK ex_chip (chip ex_chip)) as (s' & e' & E & R & _ & C & _).
  - right. reflexivity.
  - left. reflexivity.
  - exists 0. reflexivity.
  - split; reflexivity.
  - intros x. cbn. unfold_words. lia.
  - cbn. lia.
  - lia.
  - repeat constructor; vm_compute; congruence.
  - lia.
  - vm_compute. congruence.
  - exists s', e'. split; [exact E|]. split; [exact R|]. rewrite C. reflexivity.
Defined.

(** A load right after a store meets the write cycle and fails: the reading side does not ask again. *)
Lemma load_after_store :
  match el_srom_store 4 0 (str "ELTEC") SECOND_DEVICE FIRST_BLOCK ex_chip with
  | Some (r, s) => (r, fst (fst (el_srom_load 0 5 SECOND_DEVICE FIRST_BLOCK s)))
  | None => (0, 0)
  end = (5, ERROR).
Proof. vm_compute. reflexivity. Qed.

(** ** The checksum *)

Definition POLY : Z := 0x84083001.
(** One division step. *)
Definition crc_step (a : Z) : Z := (a .>> 1) .^ (if a .& 1 =? 0 then 0 else POLY).

Lemma sum_step_u32 a : is_u32 a -> is_u32 (crc_step a).
Proof. intros Ha. unfold crc_step. destruct (_ =? _); auto with cbits; apply in_word_lxor; auto with cbits; vm_compute; split; congruence. Qed.
Lemma land_1 a : a .& 1 = Z.b2z (Z.testbit a 0).
Proof. change 1 with (Z.ones 1). rewrite Z.land_ones by lia. rewrite Z.bit0_mod. reflexivity. Qed.

Lemma checksum_bits_step n : forall byte accu, 0 <= byte < 2 ^ Z.of_nat n ->
  checksum_bits n byte accu = iter n crc_step (accu .^ byte).
Proof.
  induction n as [|n IH]; intros byte accu Hb; cbn [checksum_bits iter].
  - change (2 ^ Z.of_nat 0) with 1 in Hb. replace byte with 0 by lia. rewrite Z.lxor_0_r. reflexivity.
  - rewrite Nat2Z.inj_succ, Z.pow_succ_r in Hb by lia. rewrite IH.
    2:{ rewrite Z.shiftr_div_pow2 by lia. change (2 ^ 1) with 2. Z.div_mod_to_equations. lia. }
    f_equal. unfold crc_step. assert (byte .& 1 .^ (accu .& 1) = (accu .^ byte) .& 1) as -> by (by_bits i; btauto).
    change 0x84083001 with POLY. by_bits i. btauto.
Qed.

(** The step can be undone: bit 31 of the result is the bit shifted out. *)
Lemma crc_step_inj a b : is_u32 a -> is_u32 b -> crc_step a = crc_step b -> a = b.
Proof.
  intros Ha Hb E. unfold crc_step in E. rewrite !land_1 in E.
  assert (forall x, is_u32 x -> Z.testbit (x .>> 1) 31 = false) as Htop.
  { intros x Hx. rewrite Z.shiftr_spec by lia. apply (testbit_high 32); auto; lia. }
  assert (Z.testbit a 0 = Z.testbit b 0) as E0.
  { pose proof (f_equal (fun x => Z.testbit x 31) E) as T. cbn beta in T. rewrite !Z.lxor_spec, !Htop in T by assumption.
    destruct (Z.testbit a 0), (Z.testbit b 0); cbn [Z.b2z Z.eqb] in T; try reflexivity; discriminate. }
  rewrite E0 in E. apply Z.bits_inj'. intros i Hi. destruct (Z.eq_dec i 0) as [->|]; [exact E0|].
  pose proof (f_equal (fun x => Z.testbit x (i - 1)) E) as T. cbn beta in T. rewrite !Z.lxor_spec, !Z.shiftr_spec in T by lia.
  replace (i - 1 + 1) with i in T by lia. destruct (Z.testbit a i), (Z.testbit b i), (Z.testbit _ (i - 1)); (reflexivity || discriminate).
Qed.
Lemma iter_step_inj n : forall a b, is_u32 a -> is_u32 b -> iter n crc_step a = iter n crc_step b -> a = b.
Proof.
  induction n as [|n IH]; intros a b Ha Hb E; cbn [iter] in E; [exact E|].
  apply crc_step_inj; auto. apply IH; auto using sum_step_u32.
Qed.
Lemma u8_u32 b : is_u8 b -> is_u32 b.
Proof. unfold_words. lia. Qed.
Lemma checksum_byte_u32 byte accu : is_u8 byte -> is_u32 accu -> is_u32 (checksum_bits 8 byte accu).
Proof.
  intros Hb Ha. rewrite checksum_bits_step by exact Hb. apply iter_inv; [apply sum_step_u32|].
  apply in_word_lxor; auto using u8_u32. lia.
Qed.

Lemma checksum_change l1 l2 a b :
  Forall is_u8 l1 -> Forall is_u8 l2 -> is_u8 a -> is_u8 b ->
  el_srom_checksum (l1 ++ a :: l2) = el_srom_checksum (l1 ++ b :: l2) -> a = b.
Proof.
  intros H1 H2 Ha Hb. unfold el_srom_checksum. rewrite !fold_left_app. cbn [fold_left].
  assert (forall l x, Forall is_u8 l -> is_u32 x -> is_u32 (fold_left (fun accu byte => checksum_bits 8 byte accu) l x)) as Hok.
  { induction l as [|c l IH]; intros x Hl Hx; [exact Hx|]. inversion Hl; subst. apply IH; auto using checksum_byte_u32. }
  assert (forall l x y, Forall is_u8 l -> is_u32 x -> is_u32 y ->
    fold_left (fun accu byte => checksum_bits 8 byte accu) l x = fold_left (fun accu byte => checksum_bits 8 byte accu) l y -> x = y) as Hinj.
  { induction l as [|c l IH]; intros x y Hl Hx Hy E; [exact E|]. inversion Hl as [|? ? Hc Hl']; subst. cbn [fold_left] in E.
    apply IH in E; auto using checksum_byte_u32. rewrite !checksum_bits_step in E by exact Hc.
    apply iter_step_inj in E; try (apply in_word_lxor; auto using u8_u32; lia).
    apply (f_equal (fun z => z .^ c)) in E. rewrite !Z.lxor_assoc, Z.lxor_nilpotent, !Z.lxor_0_r in E. exact E. }
  set (x := fold_left _ l1 0). assert (is_u32 x) as Hx by (apply Hok; [exact H1|vm_compute; split; congruence]).
  intros E. apply Hinj in E; auto using checksum_byte_u32. rewrite !checksum_bits_step in E by assumption.
  apply iter_step_inj in E; try (apply in_word_lxor; auto using u8_u32; lia).
  apply (f_equal (fun z => x .^ z)) in E. rewrite <- !Z.lxor_assoc, Z.lxor_nilpotent, !Z.lxor_0_l in E. exact E.
Qed.

(** C40: the revision checksum notices every change of a single byte. *)
Theorem el_srom_checksum_detects l1 l2 a b :
  Forall is_u8 l1 -> Forall is_u8 l2 -> is_u8 a -> is_u8 b ->
  el_srom_checksum (l1 ++ a :: l2) = el_srom_checksum (l1 ++ b :: l2) -> a = b.
Proof. apply checksum_change. Qed.
Lemma el_srom_checksum_detects_witness :
  el_srom_checksum (str "V-BAB750-X") <> el_srom_checksum (str "V-BAB740-X").
Proof.
  intros E. assert (53 = 52) as F; [|discriminate].
  apply (el_srom_checksum_detects (str "V-BAB7") (str "0-X") 53 52);
    [repeat constructor; vm_compute; congruence|repeat constructor; vm_compute; congruence|vm_compute; split; congruence|vm_compute; split; congruence|exact E].
Defined.
