(* ===== verification/Pci.v ===== *)
(** * The PCI bus (drivers/pci/pci.c, pci_auto.c, pci_indirect.c, board/eltec/bab7xx/pci.c)

    The host bridge ("hose"), its address regions, the accesses to the configuration
    space and the scan that gives every device its addresses.  The machine behind the
    two bridge registers is arbitrary: what the scan promises holds whatever
    the devices answer.  A computation threads the hose and the machine;
    [None] means that the recursion over the bridges ran out of fuel.  The
    blocks handed out are recorded beside the state, for the theorems only. *)

From S2P Require Import Prelude.

(** ** Registers and classes *)

Definition PCI_VENDOR_ID : Z := 0x00.
Definition PCI_DEVICE_ID : Z := 0x02.
Definition PCI_COMMAND : Z := 0x04.
Definition PCI_COMMAND_IO : Z := 0x1.
Definition PCI_COMMAND_MEMORY : Z := 0x2.
Definition PCI_COMMAND_MASTER : Z := 0x4.
Definition PCI_COMMAND_SERR : Z := 0x100.
Definition PCI_STATUS : Z := 0x06.
Definition PCI_CLASS_PROG : Z := 0x09.
Definition PCI_CLASS_DEVICE : Z := 0x0a.
Definition PCI_CACHE_LINE_SIZE : Z := 0x0c.
Definition PCI_LATENCY_TIMER : Z := 0x0d.
Definition PCI_HEADER_TYPE : Z := 0x0e.
Definition PCI_BASE_ADDRESS_0 : Z := 0x10.
Definition PCI_BASE_ADDRESS_1 : Z := 0x14.
Definition PCI_BASE_ADDRESS_SPACE : Z := 0x01.
Definition PCI_BASE_ADDRESS_MEM_TYPE_MASK : Z := 0x06.
Definition PCI_BASE_ADDRESS_MEM_TYPE_64 : Z := 0x04.
Definition PCI_BASE_ADDRESS_MEM_PREFETCH : Z := 0x08.
(** ~0x0fULL and ~0x03ULL *)
Definition PCI_BASE_ADDRESS_MEM_MASK : Z := 0xfffffffffffffff0.
Definition PCI_BASE_ADDRESS_IO_MASK : Z := 0xfffffffffffffffc.
Definition PCI_PRIMARY_BUS : Z := 0x18.
Definition PCI_SECONDARY_BUS : Z := 0x19.
Definition PCI_SUBORDINATE_BUS : Z := 0x1a.
Definition PCI_IO_BASE : Z := 0x1c.
Definition PCI_IO_LIMIT : Z := 0x1d.
Definition PCI_MEMORY_BASE : Z := 0x20.
Definition PCI_MEMORY_LIMIT : Z := 0x22.
Definition PCI_PREF_MEMORY_BASE : Z := 0x24.
Definition PCI_PREF_MEMORY_LIMIT : Z := 0x26.
Definition PCI_IO_BASE_UPPER16 : Z := 0x30.
Definition PCI_IO_LIMIT_UPPER16 : Z := 0x32.
Definition PCI_INTERRUPT_LINE : Z := 0x3c.
Definition PCI_INTERRUPT_PIN : Z := 0x3d.
Definition PCI_CLASS_PROCESSOR_POWERPC : Z := 0x0b20.
Definition PCI_CLASS_BRIDGE_PCI : Z := 0x0604.
Definition PCI_CLASS_STORAGE_IDE : Z := 0x0101.
Definition PCI_CLASS_BRIDGE_CARDBUS : Z := 0x0607.
Definition PCIAUTO_IDE_MODE_MASK : Z := 0x05.
Definition CONFIG_SYS_PCI_CACHE_LINE_SIZE : Z := 8.
Definition PCI_MAX_PCI_DEVICES : Z := 32.
Definition PCI_MAX_PCI_FUNCTIONS : Z := 8.
Definition PCI_ANY_ID : Z := 0xffffffff.
Definition PCI_REGION_MEM : Z := 0x0.
Definition PCI_REGION_IO : Z := 0x1.
Definition PCI_REGION_TYPE : Z := 0x1.
Definition PCI_REGION_PREFETCH : Z := 0x8.
Definition PCI_REGION_SYS_MEMORY : Z := 0x100.

(** ** Data *)

(** A device number is an int: bus, device and function in bits 16, 11 and 8. *)
Definition PCI_BUS (d : Z) : Z := (d .>> 16) .& 0xff.
Definition PCI_DEV (d : Z) : Z := (d .>> 11) .& 0x1f.
Definition PCI_FUNC (d : Z) : Z := (d .>> 8) .& 0x7.
Definition PCI_BDF (b d f : Z) : Z := (b .<< 16) .| (d .<< 11) .| (f .<< 8).

Record pci_region := Region { bus_start : Z; phys_start : Z; size : Z; flags : Z; bus_lower : Z }.
Definition set_lower (r : pci_region) (l : Z) : pci_region := Region (bus_start r) (phys_start r) (size r) (flags r) l.
Definition pci_set_region (bus phys sz fl : Z) : pci_region := Region bus phys sz fl 0.
#[export] Instance pci_region_inhabited : Inhabited pci_region := populate (Region 0 0 0 0 0).

(** The two functions an entry of a board's table may name. *)
Inductive cfgfunc := pci_cfgfunc_config_device | pci_cfgfunc_do_nothing.
Record pci_config_table := Entry {
  t_vendor : Z; t_device : Z; t_class : Z; t_bus : Z; t_dev : Z; t_func : Z; config_device : cfgfunc; priv : Z * Z * Z
}.

(** The pointers of the allocator are indices of [regions]. *)
Record pci_controller := Hose {
  first_busno : Z; last_busno : Z; regions : list pci_region; config_table : list pci_config_table;
  pci_mem : option nat; pci_prefetch : option nat; pci_io : option nat; current_busno : Z
}.
Definition set_regions (h : pci_controller) (l : list pci_region) : pci_controller :=
  Hose (first_busno h) (last_busno h) l (config_table h) (pci_mem h) (pci_prefetch h) (pci_io h) (current_busno h).
Definition set_current (h : pci_controller) (b : Z) : pci_controller :=
  Hose (first_busno h) (last_busno h) (regions h) (config_table h) (pci_mem h) (pci_prefetch h) (pci_io h) b.
Definition set_last (h : pci_controller) (b : Z) : pci_controller :=
  Hose (first_busno h) b (regions h) (config_table h) (pci_mem h) (pci_prefetch h) (pci_io h) (current_busno h).
Definition set_pools (h : pci_controller) (m p i : option nat) : pci_controller :=
  Hose (first_busno h) (last_busno h) (regions h) (config_table h) m p i (current_busno h).

(** The machine: accesses of one, two or four bytes, little endian beyond one. *)
Class PciIO (St : Type) := {
  io_out : Z -> Z -> Z -> St -> St;
  io_in : Z -> Z -> St -> Z * St
}.

(** What the scan did, for the theorems only: an address handed out of a
    region, a value written to a configuration register. *)
Inductive event := Granted (region : nat) (addr size : Z) | Wrote (width dev offset v : Z).

Section pci.
Context {St : Type} `{PciIO St} (cfg_addr cfg_data : Z).

Record world := World { hose : pci_controller; machine : St; log : list event }.
Definition M (A : Type) : Type := world -> option (A * world).
#[export] Instance M_ret : MRet M := fun A a w => Some (a, w).
#[export] Instance M_bind : MBind M := fun A B k m w =>
  match m w with Some (a, w) => k a w | None => None end.
Definition get_hose : M pci_controller := fun w => Some (hose w, w).
Definition put_hose (h : pci_controller) : M unit := fun w => Some (tt, World h (machine w) (log w)).
Definition note (e : event) : M unit := fun w => Some (tt, World (hose w) (machine w) (log w ++ [e])).

(** ** Configuration space (pci_indirect.c) *)

Definition select (h : pci_controller) (dev offset : Z) : Z :=
  let dev := PCI_BDF (PCI_BUS dev - first_busno h) (PCI_DEV dev) (PCI_FUNC dev) in
  u32 (dev .| (offset .& 0xfc) .| 0x80000000).
(** The byte offset of the data register, by the width of the access. *)
Definition data_mask (w : Z) : Z := if w =? 1 then 3 else if w =? 2 then 2 else 0.
Definition read_config (w dev offset : Z) : M Z := fun s =>
  let st := io_out 4 cfg_addr (select (hose s) dev offset) (machine s) in
  let '(v, st) := io_in w (cfg_data + (offset .& data_mask w)) st in
  Some (wrap (8 * w) v, World (hose s) st (log s)).
Definition write_config (w dev offset v : Z) : M unit := fun s =>
  let v := wrap (8 * w) v in
  let st := io_out 4 cfg_addr (select (hose s) dev offset) (machine s) in
  let st := io_out w (cfg_data + (offset .& data_mask w)) v st in
  Some (tt, World (hose s) st (log s ++ [Wrote w dev offset v])).
Definition read_byte := read_config 1.
Definition read_word := read_config 2.
Definition read_dword := read_config 4.
Definition write_byte := write_config 1.
Definition write_word := write_config 2.
Definition write_dword := write_config 4.

(** ** Address allocation (pci_auto.c) *)

(** ((x - 1) | (size - 1)) + 1 *)
Definition round_up (x size : Z) : Z := u32 ((u32 (x - 1) .| u32 (size - 1)) + 1).

Definition pciauto_region_init (res : pci_region) : pci_region :=
  set_lower res (if bus_start res =? 0 then 0x1000 else bus_start res).
Definition region_align (res : pci_region) (size : Z) : pci_region := set_lower res (round_up (bus_lower res) size).

Definition region_at (i : nat) : M pci_region := h ← get_hose; mret (regions h !!! i).
Definition put_region (i : nat) (r : pci_region) : M unit :=
  h ← get_hose; put_hose (set_regions h (<[i := r]> (regions h))).
Definition pciauto_region_align (i : nat) (sz : Z) : M unit :=
  r ← region_at i; put_region i (region_align r sz).

(** The address, or nothing. *)
Definition pciauto_region_allocate (res : option nat) (sz : Z) : M (option Z) :=
  match res with
  | None => mret None
  | Some i =>
      r ← region_at i;
      let addr := round_up (bus_lower r) sz in
      if size r <? u32 (addr - bus_start r + sz) then mret None
      else put_region i (set_lower r (u32 (addr + sz)));; note (Granted i addr sz);; mret (Some addr)
  end.

(** The size a base register asks for, by its answer to all ones. *)
Definition io_bar_size (resp : Z) : Z := u32 ((Z.lnot (resp .& PCI_BASE_ADDRESS_IO_MASK) .& 0xffff) + 1).
Definition mem_bar_size (resp : Z) : Z := u32 (Z.lnot (resp .& PCI_BASE_ADDRESS_MEM_MASK) + 1).

(** [n] bounds the registers left. *)
Fixpoint setup_bars (n : nat) (dev bar limit : Z) (mem prefetch io : option nat) (cmdstat : Z) : M Z :=
  match n with
  | O => mret cmdstat
  | S n =>
      if negb (bar <? limit) then mret cmdstat
      else
        write_dword dev bar 0xffffffff;;
        resp ← read_dword dev bar;
        if resp =? 0 then setup_bars n dev (bar + 4) limit mem prefetch io cmdstat
        else
          let is_io := negb (resp .& PCI_BASE_ADDRESS_SPACE =? 0) in
          let is_64 := negb is_io && (resp .& PCI_BASE_ADDRESS_MEM_TYPE_MASK =? PCI_BASE_ADDRESS_MEM_TYPE_64) in
          bar_size ← (if is_io then mret (io_bar_size resp)
                      else if is_64 then
                        write_dword dev (bar + 4) 0xffffffff;;
                        upper ← read_dword dev (bar + 4);
                        mret (mem_bar_size ((upper .<< 32) .| resp))
                      else mret (mem_bar_size resp));
          let res := if is_io then io
                     else if (match prefetch with Some _ => true | None => false end) &&
                             negb (resp .& PCI_BASE_ADDRESS_MEM_PREFETCH =? 0) then prefetch else mem in
          a ← pciauto_region_allocate res bar_size;
          match a with
          | None => setup_bars n dev (bar + 4) limit mem prefetch io cmdstat
          | Some addr =>
              write_dword dev bar addr;;
              (if is_64 then write_dword dev (bar + 4) 0 else mret tt);;
              setup_bars n dev (bar + (if is_64 then 8 else 4)) limit mem prefetch io
                (cmdstat .| (if is_io then PCI_COMMAND_IO else PCI_COMMAND_MEMORY))
          end
  end.

Definition pciauto_setup_device (dev : Z) (bars_num : nat) (mem prefetch io : option nat) : M unit :=
  cmdstat ← read_dword dev PCI_COMMAND;
  let cmdstat := (cmdstat .& not32 (PCI_COMMAND_IO .| PCI_COMMAND_MEMORY)) .| PCI_COMMAND_MASTER in
  cmdstat ← setup_bars bars_num dev PCI_BASE_ADDRESS_0 (PCI_BASE_ADDRESS_0 + Z.of_nat bars_num * 4) mem prefetch io cmdstat;
  write_dword dev PCI_COMMAND cmdstat;;
  write_byte dev PCI_CACHE_LINE_SIZE CONFIG_SYS_PCI_CACHE_LINE_SIZE;;
  write_byte dev PCI_LATENCY_TIMER 0x80.

(** The two windows of a bridge open at the next free address ... *)
Definition mem_base (lower : Z) : Z := (lower .& 0xfff00000) .>> 16.
Definition io_base (lower : Z) : Z := (lower .& 0x0000f000) .>> 8.
Definition io_base_upper (lower : Z) : Z := (lower .& 0xffff0000) .>> 16.
(** ... and close below the next free address after the buses behind it. *)
Definition mem_limit (lower : Z) : Z := u32 (lower - 1) .>> 16.
Definition io_limit (lower : Z) : Z := (u32 (lower - 1) .& 0x0000f000) .>> 8.
Definition io_limit_upper (lower : Z) : Z := (u32 (lower - 1) .& 0xffff0000) .>> 16.

Definition pciauto_prescan_setup_bridge (dev sub_bus : Z) : M unit :=
  h ← get_hose;
  cmdstat ← read_dword dev PCI_COMMAND;
  write_byte dev PCI_PRIMARY_BUS (PCI_BUS dev - first_busno h);;
  write_byte dev PCI_SECONDARY_BUS (sub_bus - first_busno h);;
  write_byte dev PCI_SUBORDINATE_BUS 0xff;;
  cmdstat ← match pci_mem h with
            | Some i =>
                pciauto_region_align i 0x100000;;
                r ← region_at i;
                write_word dev PCI_MEMORY_BASE (mem_base (bus_lower r));;
                mret (cmdstat .| PCI_COMMAND_MEMORY)
            | None => mret cmdstat
            end;
  cmdstat ← match pci_prefetch h with
            | Some i =>
                pciauto_region_align i 0x100000;;
                r ← region_at i;
                write_word dev PCI_PREF_MEMORY_BASE (mem_base (bus_lower r));;
                mret (cmdstat .| PCI_COMMAND_MEMORY)
            | None =>
                write_word dev PCI_PREF_MEMORY_BASE 0x1000;;
                write_word dev PCI_PREF_MEMORY_LIMIT 0x0;;
                mret cmdstat
            end;
  cmdstat ← match pci_io h with
            | Some i =>
                pciauto_region_align i 0x1000;;
                r ← region_at i;
                write_byte dev PCI_IO_BASE (io_base (bus_lower r));;
                write_word dev PCI_IO_BASE_UPPER16 (io_base_upper (bus_lower r));;
                mret (cmdstat .| PCI_COMMAND_IO)
            | None => mret cmdstat
            end;
  write_dword dev PCI_COMMAND (cmdstat .| PCI_COMMAND_MASTER).

Definition pciauto_postscan_setup_bridge (dev sub_bus : Z) : M unit :=
  h ← get_hose;
  write_byte dev PCI_SUBORDINATE_BUS (sub_bus - first_busno h);;
  match pci_mem h with
  | Some i =>
      pciauto_region_align i 0x100000;;
      r ← region_at i;
      write_word dev PCI_MEMORY_LIMIT (mem_limit (bus_lower r))
  | None => mret tt
  end;;
  match pci_prefetch h with
  | Some i =>
      pciauto_region_align i 0x100000;;
      r ← region_at i;
      write_word dev PCI_PREF_MEMORY_LIMIT (mem_limit (bus_lower r))
  | None => mret tt
  end;;
  match pci_io h with
  | Some i =>
      pciauto_region_align i 0x1000;;
      r ← region_at i;
      write_byte dev PCI_IO_LIMIT (io_limit (bus_lower r));;
      write_word dev PCI_IO_LIMIT_UPPER16 (io_limit_upper (bus_lower r))
  | None => mret tt
  end.

(** The largest region of each kind serves the scan; the first among equals. *)
Definition larger (rs : list pci_region) (best : option nat) (i : nat) : option nat :=
  match best with
  | None => Some i
  | Some j => if size (rs !!! j) <? size (rs !!! i) then Some i else best
  end.
Definition pick (rs : list pci_region) (i : nat) (h : pci_controller) : pci_controller :=
  let f := flags (rs !!! i) in
  if f =? PCI_REGION_IO then set_pools h (pci_mem h) (pci_prefetch h) (larger rs (pci_io h) i)
  else if f =? PCI_REGION_MEM then set_pools h (larger rs (pci_mem h) i) (pci_prefetch h) (pci_io h)
  else if f =? PCI_REGION_MEM .| PCI_REGION_PREFETCH then
    set_pools h (pci_mem h) (larger rs (pci_prefetch h) i) (pci_io h)
  else h.
Definition init_pool (p : option nat) (rs : list pci_region) : list pci_region :=
  match p with Some i => <[i := pciauto_region_init (rs !!! i)]> rs | None => rs end.
Definition pciauto_config_init (h : pci_controller) : pci_controller :=
  let h := set_pools h None (pci_prefetch h) None in
  let h := fold_left (fun h i => pick (regions h) i h) (seq 0 (List.length (regions h))) h in
  set_regions h (init_pool (pci_io h) (init_pool (pci_prefetch h) (init_pool (pci_mem h) (regions h)))).

(** ** Devices with a table entry (pci.c) *)

(** Addresses from the entry instead of a region. *)
Fixpoint config_bars (n : nat) (dev bar io mem : Z) : M unit :=
  match n with
  | O => mret tt
  | S n =>
      if negb (bar <=? PCI_BASE_ADDRESS_0 + 5 * 4) then mret tt
      else
        write_dword dev bar 0xffffffff;;
        resp ← read_dword dev bar;
        if resp =? 0 then config_bars n dev (bar + 4) io mem
        else if negb (resp .& PCI_BASE_ADDRESS_SPACE =? 0) then
          let bar_size := u32 (Z.lnot (resp .& PCI_BASE_ADDRESS_IO_MASK) + 1) in
          let io := round_up io bar_size in
          write_dword dev bar io;;
          config_bars n dev (bar + 4) (u32 (io + bar_size)) mem
        else
          let is_64 := resp .& PCI_BASE_ADDRESS_MEM_TYPE_MASK =? PCI_BASE_ADDRESS_MEM_TYPE_64 in
          bar_size ← (if is_64 then
                        write_dword dev (bar + 4) 0xffffffff;;
                        upper ← read_dword dev (bar + 4);
                        mret (mem_bar_size ((upper .<< 32) .| resp))
                      else mret (mem_bar_size resp));
          let mem := round_up mem bar_size in
          write_dword dev bar mem;;
          (if is_64 then write_dword dev (bar + 4) 0 else mret tt);;
          config_bars n dev (bar + (if is_64 then 8 else 4)) io (u32 (mem + bar_size))
  end.

Definition pci_hose_config_device (dev io mem command : Z) : M unit :=
  write_dword dev PCI_COMMAND 0;;
  config_bars 6 dev PCI_BASE_ADDRESS_0 io mem;;
  write_byte dev PCI_CACHE_LINE_SIZE 0x08;;
  write_byte dev PCI_LATENCY_TIMER 0x80;;
  pin ← read_byte dev PCI_INTERRUPT_PIN;
  (if negb (pin =? 0) then write_byte dev PCI_INTERRUPT_LINE 0xff else mret tt);;
  old_command ← read_dword dev PCI_COMMAND;
  write_dword dev PCI_COMMAND ((old_command .& 0xffff0000) .| command).

Definition id_matches (want got : Z) : bool := (want =? PCI_ANY_ID) || (want =? got).
(** The table ends at a zero vendor. *)
Fixpoint pci_find_config (table : list pci_config_table) (class vendor device bus dev func : Z) : option pci_config_table :=
  match table with
  | [] => None
  | e :: rest =>
      if t_vendor e =? 0 then None
      else if id_matches (t_vendor e) vendor && id_matches (t_device e) device && id_matches (t_class e) class
              && id_matches (t_bus e) bus && id_matches (t_dev e) dev && id_matches (t_func e) func then Some e
      else pci_find_config rest class vendor device bus dev func
  end.

Definition run_entry (e : pci_config_table) (dev : Z) : M unit :=
  match config_device e with
  | pci_cfgfunc_config_device => let '(io, mem, command) := priv e in pci_hose_config_device dev io mem command
  | pci_cfgfunc_do_nothing => mret tt
  end.

(** ** The scan *)

Definition bump_busno : M Z :=
  h ← get_hose; put_hose (set_current h (current_busno h + 1));; mret (current_busno h + 1).
Definition current : M Z := h ← get_hose; mret (current_busno h).

(** [scan] is the scan of a bus. *)
Definition pciauto_config_device (scan : Z -> M Z) (dev : Z) : M Z :=
  let sub_bus := PCI_BUS dev in
  class ← read_word dev PCI_CLASS_DEVICE;
  h ← get_hose;
  let setup n := pciauto_setup_device dev n (pci_mem h) (pci_prefetch h) (pci_io h) in
  if class =? PCI_CLASS_PROCESSOR_POWERPC then setup 6%nat;; mret sub_bus
  else if class =? PCI_CLASS_BRIDGE_PCI then
    b ← bump_busno;
    setup 2%nat;;
    pciauto_prescan_setup_bridge dev b;;
    n ← scan b;
    pciauto_postscan_setup_bridge dev (Z.max n sub_bus);;
    current
  else if class =? PCI_CLASS_STORAGE_IDE then
    prg_iface ← read_byte dev PCI_CLASS_PROG;
    if prg_iface .& PCIAUTO_IDE_MODE_MASK =? 0 then mret sub_bus
    else setup 6%nat;; mret sub_bus
  else if class =? PCI_CLASS_BRIDGE_CARDBUS then
    setup 0%nat;; bump_busno;; mret sub_bus
  else setup 6%nat;; mret sub_bus.

Definition pci_skip_dev (h : pci_controller) (dev : Z) : bool := dev =? PCI_BDF (first_busno h) 0 0.

(** The device numbers of a bus one after the other, [n] of them from [dev] on. *)
Fixpoint scan_devs (scan : Z -> M Z) (n : nat) (dev found_multi sub_bus : Z) : M Z :=
  match n with
  | O => mret sub_bus
  | S n =>
      h ← get_hose;
      let next := scan_devs scan n (dev + PCI_BDF 0 0 1) in
      if pci_skip_dev h dev then next found_multi sub_bus
      else if negb (PCI_FUNC dev =? 0) && (found_multi =? 0) then next found_multi sub_bus
      else
        header_type ← read_byte dev PCI_HEADER_TYPE;
        vendor ← read_word dev PCI_VENDOR_ID;
        if (vendor =? 0xffff) || (vendor =? 0x0000) then next found_multi sub_bus
        else
          let found_multi := if PCI_FUNC dev =? 0 then header_type .& 0x80 else found_multi in
          device ← read_word dev PCI_DEVICE_ID;
          class ← read_word dev PCI_CLASS_DEVICE;
          match pci_find_config (config_table h) class vendor device (PCI_BUS dev) (PCI_DEV dev) (PCI_FUNC dev) with
          | Some e =>
              run_entry e dev;;
              c ← current;
              next found_multi (Z.max sub_bus c)
          | None =>
              m ← pciauto_config_device scan dev;
              next found_multi (Z.max sub_bus m)
          end
  end.

(** PCI_BDF(bus,31,7) itself is not visited. *)
Definition bus_devs : nat := Z.to_nat (PCI_BDF 0 (PCI_MAX_PCI_DEVICES - 1) (PCI_MAX_PCI_FUNCTIONS - 1) .>> 8).
Fixpoint pci_hose_scan_bus (fuel : nat) (bus : Z) : M Z :=
  match fuel with
  | O => fun _ => None
  | S fuel => scan_devs (pci_hose_scan_bus fuel) bus_devs (PCI_BDF bus 0 0) 0 bus
  end.

Definition pci_hose_scan (fuel : nat) : M Z :=
  h ← get_hose;
  let h := if current_busno h <? first_busno h then set_current h (first_busno h) else h in
  put_hose (pciauto_config_init h);;
  pci_hose_scan_bus fuel (current_busno h).

(** ** Hoses by bus number *)

Fixpoint pci_bus_to_hose (head : list pci_controller) (bus : Z) : option pci_controller :=
  match head with
  | [] => None
  | h :: next => if (first_busno h <=? bus) && (bus <=? last_busno h) then Some h else pci_bus_to_hose next bus
  end.
Definition pci_register_hose (head : list pci_controller) (h : pci_controller) : list pci_controller := head ++ [h].
Definition pci_last_busno (head : list pci_controller) : Z :=
  match head !! (List.length head - 1)%nat with Some h => last_busno h | None => -1 end.

(** The accesses by bus number, with the hose of this world the only one registered. *)
Definition pci_read_config (w dev offset : Z) : M Z :=
  h ← get_hose;
  match pci_bus_to_hose [h] (PCI_BUS dev) with
  | None => mret (2 ^ (8 * w) - 1)
  | Some _ => read_config w dev offset
  end.
Definition pci_write_config (w dev offset v : Z) : M unit :=
  h ← get_hose;
  match pci_bus_to_hose [h] (PCI_BUS dev) with
  | None => mret tt
  | Some _ => write_config w dev offset v
  end.

(** Bytes and words by accesses of a double word. *)
Definition via_shift (off_mask offset : Z) : Z := (offset .& off_mask) * 8.
Definition via_extract (off_mask offset val32 : Z) : Z := val32 .>> via_shift off_mask offset.
Definition via_insert (off_mask val_mask offset v val32 : Z) : Z :=
  let shift := via_shift off_mask offset in
  let ldata := u32 ((v .& val_mask) .<< shift) in
  let mask := u32 (val_mask .<< shift) in
  (val32 .& not32 mask) .| ldata.
Definition pci_hose_read_config_byte_via_dword (dev offset : Z) : M Z :=
  val32 ← read_dword dev (offset .& 0xfc); mret (u8 (via_extract 0x03 offset val32)).
Definition pci_hose_read_config_word_via_dword (dev offset : Z) : M Z :=
  val32 ← read_dword dev (offset .& 0xfc); mret (u16 (via_extract 0x02 offset val32)).
Definition pci_hose_write_config_byte_via_dword (dev offset v : Z) : M unit :=
  val32 ← read_dword dev (offset .& 0xfc); write_dword dev (offset .& 0xfc) (via_insert 0x03 0x000000ff offset v val32).
Definition pci_hose_write_config_word_via_dword (dev offset v : Z) : M unit :=
  val32 ← read_dword dev (offset .& 0xfc); write_dword dev (offset .& 0xfc) (via_insert 0x02 0x0000ffff offset v val32).

(** ** Looking a device up by its identity *)

(** The place, or the matches still to pass over. *)
Fixpoint match_ids (ids : list (Z * Z)) (vendor device bdf index : Z) : Z + Z :=
  match ids with
  | [] => inr index
  | (v, d) :: rest =>
      if v =? 0 then inr index
      else if (vendor =? v) && (device =? d) then
        if index <=? 0 then inl bdf else match_ids rest vendor device bdf (index - 1)
      else match_ids rest vendor device bdf index
  end.
Fixpoint find_on_bus (ids : list (Z * Z)) (n : nat) (bdf found_multi index : Z) : M (Z + Z * Z) :=
  match n with
  | O => mret (inr (found_multi, index))
  | S n =>
      let probe found_multi :=
        vendor ← pci_read_config 2 bdf PCI_VENDOR_ID;
        device ← pci_read_config 2 bdf PCI_DEVICE_ID;
        match match_ids ids vendor device bdf index with
        | inl r => mret (inl r)
        | inr index => find_on_bus ids n (bdf + PCI_BDF 0 0 1) found_multi index
        end in
      if PCI_FUNC bdf =? 0 then
        header_type ← pci_read_config 1 bdf PCI_HEADER_TYPE;
        probe (header_type .& 0x80)
      else if found_multi =? 0 then find_on_bus ids n (bdf + PCI_BDF 0 0 1) found_multi index
      else probe found_multi
  end.
Fixpoint find_on_buses (ids : list (Z * Z)) (n : nat) (bus found_multi index : Z) : M Z :=
  match n with
  | O => mret (-1)
  | S n =>
      r ← find_on_bus ids 256 (PCI_BDF bus 0 0) found_multi index;
      match r with
      | inl bdf => mret bdf
      | inr (found_multi, index) => find_on_buses ids n (bus + 1) found_multi index
      end
  end.
Definition pci_find_devices (ids : list (Z * Z)) (index : Z) : M Z :=
  h ← get_hose; find_on_buses ids (Z.to_nat (last_busno h - first_busno h + 1)) (first_busno h) 0 index.
Definition pci_find_device (vendor device index : Z) : M Z := pci_find_devices [(vendor, device); (0, 0)] index.

(** ** Address translation *)

Definition region_serves (fl skip_mask : Z) (res : pci_region) : bool :=
  ((flags res .^ fl) .& PCI_REGION_TYPE =? 0) && (flags res .& skip_mask =? 0).
Definition in_region (res : pci_region) (bus_addr : Z) : bool :=
  (bus_start res <=? bus_addr) && (bus_addr <? u32 (bus_start res + size res)).
Fixpoint __pci_hose_phys_to_bus (rs : list pci_region) (phys_addr fl skip_mask : Z) : option Z :=
  match rs with
  | [] => None
  | res :: rs =>
      let bus_addr := u32 (phys_addr - phys_start res + bus_start res) in
      if region_serves fl skip_mask res && in_region res bus_addr then Some bus_addr
      else __pci_hose_phys_to_bus rs phys_addr fl skip_mask
  end.
Fixpoint __pci_hose_bus_to_phys (rs : list pci_region) (bus_addr fl skip_mask : Z) : option Z :=
  match rs with
  | [] => None
  | res :: rs =>
      if region_serves fl skip_mask res && in_region res bus_addr then Some (u32 (bus_addr - bus_start res + phys_start res))
      else __pci_hose_bus_to_phys rs bus_addr fl skip_mask
  end.
(** Regions that are not system memory come first; 0 when none matches. *)
Definition two_pass (look : Z -> option Z) (fl : Z) : Z :=
  let second := default 0 (look 0) in
  if fl .& PCI_REGION_MEM =? PCI_REGION_MEM then default second (look PCI_REGION_SYS_MEMORY) else second.
Definition pci_hose_phys_to_bus (h : option pci_controller) (phys_addr fl : Z) : Z :=
  match h with None => 0 | Some h => two_pass (__pci_hose_phys_to_bus (regions h) phys_addr fl) fl end.
Definition pci_hose_bus_to_phys (h : option pci_controller) (bus_addr fl : Z) : Z :=
  match h with None => 0 | Some h => two_pass (__pci_hose_bus_to_phys (regions h) bus_addr fl) fl end.
Definition pci_phys_to_mem (head : list pci_controller) (dev addr : Z) : Z :=
  pci_hose_phys_to_bus (pci_bus_to_hose head (PCI_BUS dev)) addr PCI_REGION_MEM.
Definition pci_mem_to_phys (head : list pci_controller) (dev addr : Z) : Z :=
  pci_hose_bus_to_phys (pci_bus_to_hose head (PCI_BUS dev)) addr PCI_REGION_MEM.
Definition pci_phys_to_io (head : list pci_controller) (dev addr : Z) : Z :=
  pci_hose_phys_to_bus (pci_bus_to_hose head (PCI_BUS dev)) addr PCI_REGION_IO.
Definition pci_io_to_phys (head : list pci_controller) (dev addr : Z) : Z :=
  pci_hose_bus_to_phys (pci_bus_to_hose head (PCI_BUS dev)) addr PCI_REGION_IO.

(** The address a base register of memory leads to; map_physmem is the identity. *)
Definition pci_map_bar (pdev bar fl : Z) : M Z :=
  bar_response ← pci_read_config 4 pdev bar;
  h ← get_hose;
  mret (pci_hose_bus_to_phys (pci_bus_to_hose [h] (PCI_BUS pdev)) (bar_response .& not32 0xf) fl).
End pci.

(** ** The board (board/eltec/bab7xx/pci.c, include/configs/BAB7xx.h, address map A) *)

Definition CONFIG_SYS_PCI_MEMORY_BUS : Z := 0x80000000.
Definition CONFIG_SYS_PCI_MEMORY_PHYS : Z := 0.
Definition CONFIG_SYS_PCI_MEMORY_SIZE : Z := 0x80000000.
Definition CONFIG_SYS_PCI_MEM_BUS : Z := 0.
Definition CONFIG_SYS_PCI_MEM_PHYS : Z := 0xc0000000.
Definition CONFIG_SYS_PCI_MEM_SIZE : Z := 0x3f000000.
Definition CONFIG_SYS_ISA_MEM_BUS : Z := 0.
Definition CONFIG_SYS_ISA_MEM_PHYS : Z := 0.
Definition CONFIG_SYS_ISA_MEM_SIZE : Z := 0.
Definition CONFIG_SYS_PCI_IO_BUS : Z := 0x1000.
Definition CONFIG_SYS_PCI_IO_PHYS : Z := 0x81000000.
Definition CONFIG_SYS_PCI_IO_SIZE : Z := 0x01000000 - CONFIG_SYS_PCI_IO_BUS.
Definition CONFIG_SYS_ISA_IO_BUS : Z := 0.
Definition CONFIG_SYS_ISA_IO_PHYS : Z := 0x80000000.
Definition CONFIG_SYS_ISA_IO_SIZE : Z := 0x00800000.
Definition MPC106_REG_ADDR : Z := 0x80000cf8.
Definition MPC106_REG_DATA : Z := 0x80000cfc.
Definition PCI_PICR1 : Z := 0xA8.
Definition PCI_PICR2 : Z := 0xAC.

Definition board_regions : list pci_region :=
  [ pci_set_region CONFIG_SYS_PCI_MEMORY_BUS CONFIG_SYS_PCI_MEMORY_PHYS (CONFIG_SYS_PCI_MEMORY_SIZE - 1)
      (PCI_REGION_MEM .| PCI_REGION_SYS_MEMORY);
    pci_set_region CONFIG_SYS_PCI_MEM_BUS CONFIG_SYS_PCI_MEM_PHYS CONFIG_SYS_PCI_MEM_SIZE PCI_REGION_MEM;
    pci_set_region CONFIG_SYS_ISA_MEM_BUS CONFIG_SYS_ISA_MEM_PHYS CONFIG_SYS_ISA_MEM_SIZE PCI_REGION_MEM;
    pci_set_region CONFIG_SYS_PCI_IO_BUS CONFIG_SYS_PCI_IO_PHYS CONFIG_SYS_PCI_IO_SIZE PCI_REGION_IO;
    pci_set_region CONFIG_SYS_ISA_IO_BUS CONFIG_SYS_ISA_IO_PHYS CONFIG_SYS_ISA_IO_SIZE PCI_REGION_IO ].
(** local_hose is in the zeroed data of the program. *)
Definition local_hose : pci_controller := Hose 0 0xff board_regions [] None None None 0.

(** Cache, arbiter and processor settings of the MPC106. *)
Definition picr2_set : Z := (0x3 .<< 18) .| 0x10000000 .| (0x3 .<< 9) .| (0x3 .<< 2).
Definition picr2_clear : Z := 0x40000000 .| 0x80000000.
Definition picr1_set : Z := u32 (63 .<< 24) .| (0x2 .<< 22) .| 0x800 .| 0x200 .| 0x60000 .| 0x10 .| 0x8.

Section board.
Context {St : Type} `{PciIO St}.

Definition pci_init_board (fuel : nat) : M (St := St) unit :=
  put_hose local_hose;;
  n ← pci_hose_scan MPC106_REG_ADDR MPC106_REG_DATA fuel;
  h ← get_hose; put_hose (set_last h n);;
  let rd w off := pci_read_config MPC106_REG_ADDR MPC106_REG_DATA w (PCI_BDF 0 0 0) off in
  let wr w off v := pci_write_config MPC106_REG_ADDR MPC106_REG_DATA w (PCI_BDF 0 0 0) off v in
  reg32 ← rd 4 PCI_PICR2;
  wr 4 PCI_PICR2 ((reg32 .| picr2_set) .& not32 picr2_clear);;
  reg16 ← rd 2 PCI_COMMAND;
  wr 2 PCI_COMMAND (reg16 .| (PCI_COMMAND_SERR .| PCI_COMMAND_MASTER .| PCI_COMMAND_MEMORY));;
  wr 2 PCI_STATUS 0xffff;;
  reg32 ← rd 4 PCI_PICR1;
  wr 4 PCI_PICR1 (reg32 .| picr1_set).
End board.

(** ** Addresses: the free space of a region only grows *)

(** Regions that end below 3 GB leave room for the rounding; see [grant_wraps]. *)
Definition LIM : Z := 0xC0000000.

Lemma round_up_range x s : 1 <= x <= LIM -> 0 < s <= 2 ^ 29 -> x <= round_up x s <= LIM.
Proof.
  unfold LIM. intros Hx Hs. assert (0 <= x - 1 < 2 ^ 32 /\ 0 <= s - 1 < 2 ^ 29) as [Ha Hb] by lia.
  unfold round_up. rewrite (u32_small (x - 1)), (u32_small (s - 1)) by lia.
  remember (x - 1) as a. remember (s - 1) as b.
  assert (a <= a .| b) as L.
  { pose proof (Z.add_lor_land a b). pose proof (land_le b a ltac:(lia)) as L. rewrite (Z.land_comm b a) in L. lia. }
  assert ((a .| b) .>> 29 <= 5) as U.
  { rewrite Z.shiftr_lor, (Z.shiftr_div_pow2 b), (Z.div_small b), Z.lor_0_r, Z.shiftr_div_pow2 by lia.
    apply Zlt_succ_le, Z.div_lt_upper_bound; lia. }
  rewrite Z.shiftr_div_pow2 in U by lia.
  pose proof (Z.div_mod (a .| b) (2 ^ 29) ltac:(lia)). pose proof (Z.mod_pos_bound (a .| b) (2 ^ 29) ltac:(lia)).
  change (2 ^ 29) with 536870912 in *. rewrite u32_small; lia.
Qed.

(** The address of a block whose size is a power of two is a multiple of it. *)
Lemma round_up_aligned x k : 1 <= x <= LIM -> 0 <= k <= 29 -> (2 ^ k | round_up x (2 ^ k)).
Proof.
  intros Hx Hk. assert (0 < 2 ^ k <= 2 ^ 29) as Hs by (split; [lia|apply Z.pow_le_mono_r; lia]).
  pose proof (round_up_range x (2 ^ k) Hx Hs) as R. unfold round_up, LIM in *.
  rewrite (u32_small (x - 1)), (u32_small (2 ^ k - 1)) in * by lia.
  replace (2 ^ k - 1) with (Z.ones k) in * by (rewrite Z.ones_equiv; lia).
  assert ((x - 1) .| Z.ones k = (((x - 1) .>> k) .<< k) .| Z.ones k) as E.
  { by_bits i. destruct (Z.ltb_spec i k).
    - rewrite Z.ones_spec_low, !orb_true_r by lia. reflexivity.
    - rewrite Z.ones_spec_high, !orb_false_r, Z.shiftr_spec by lia. f_equal. lia. }
  rewrite E, lor_add_disjoint, Z.ones_equiv in * by (rewrite ?Z.ones_equiv; lia).
  rewrite Z.shiftr_div_pow2 in * by lia. remember ((x - 1) / 2 ^ k) as q.
  replace (q * 2 ^ k + Z.pred (2 ^ k) + 1) with ((q + 1) * 2 ^ k) in * by lia.
  assert (0 <= q) by (subst q; apply Z.div_pos; lia).
  assert (q * 2 ^ k <= x - 1) by (subst q; rewrite Z.mul_comm; apply Z.mul_div_le; lia).
  rewrite u32_small by lia. exists (q + 1). lia.
Qed.

(** A 2 GB block: the end of the address space wraps to zero and passes the
    check of the room, and 0x80000000 is handed out of a region that ends far below. *)
Example grant_wraps : u32 (round_up 0x1000 0x80000000 - 0 + 0x80000000) = 0 /\ round_up 0x1000 0x80000000 = 0x80000000.
Proof. split; reflexivity. Qed.

Definition region_ok (r : pci_region) : Prop :=
  0 <= bus_start r /\ 0 <= size r /\ bus_start r + size r <= LIM /\ bus_start r <= bus_lower r /\ 1 <= bus_lower r <= LIM.
Definition lower (h : pci_controller) (i : nat) : Z := bus_lower (regions h !!! i).
(** The regions the scan draws from. *)
Definition pool (h : pci_controller) (i : nat) : Prop :=
  pci_mem h = Some i \/ pci_prefetch h = Some i \/ pci_io h = Some i.
Definition fits (h : pci_controller) : Prop :=
  forall i, pool h i -> (i < List.length (regions h))%nat /\ region_ok (regions h !!! i).

(** What a step of the scan keeps of the hose. *)
Record frame (h h' : pci_controller) : Prop := Frame {
  frame_first : first_busno h' = first_busno h;
  frame_mem : pci_mem h' = pci_mem h;
  frame_prefetch : pci_prefetch h' = pci_prefetch h;
  frame_io : pci_io h' = pci_io h;
  frame_length : List.length (regions h') = List.length (regions h);
  frame_region : forall i, regions h' !!! i = set_lower (regions h !!! i) (lower h' i)
}.
#[export] Instance frame_preorder : PreOrder frame.
Proof.
  split.
  - intros h. split; try reflexivity. intros i. unfold lower. destruct (regions h !!! i). reflexivity.
  - intros h1 h2 h3 [A1 A2 A3 A4 A5 A6] [B1 B2 B3 B4 B5 B6]. split; try congruence.
    intros i. rewrite B6, A6. reflexivity.
Qed.
Lemma frame_pool h h' i : frame h h' -> pool h' i <-> pool h i.
Proof. intros [? E1 E2 E3 ? ?]. unfold pool. rewrite E1, E2, E3. tauto. Qed.

Definition sizes_ok (l : list event) : Prop :=
  Forall (fun e => match e with Granted _ _ s => 0 < s <= 2 ^ 29 | Wrote _ _ _ _ => True end) l.

(** The blocks of region [i] lie one after the other between [lo] and [hi],
    inside the region, a block of 2^k bytes at a multiple of 2^k. *)
Fixpoint packed (r : pci_region) (i : nat) (lo hi : Z) (l : list event) : Prop :=
  match l with
  | [] => lo <= hi
  | Granted j a s :: l =>
      if decide (j = i) then
        lo <= a /\ a + s <= bus_start r + size r /\ (forall k, 0 <= k -> s = 2 ^ k -> (s | a)) /\ packed r i (a + s) hi l
      else packed r i lo hi l
  | Wrote _ _ _ _ :: l => packed r i lo hi l
  end.

Lemma packed_weaken r i lo lo' hi hi' l : lo' <= lo -> hi <= hi' -> packed r i lo hi l -> packed r i lo' hi' l.
Proof.
  revert lo lo'. induction l as [|[j a s|] l IH]; intros lo lo' Hlo Hhi; simpl; [lia| |eauto].
  destruct (decide (j = i)); [|eauto]. intros (A & B & C & D). split_and!; auto; [lia|]. eapply IH; [| |exact D]; lia.
Qed.
Lemma packed_app r i lo mid hi l1 l2 : packed r i lo mid l1 -> packed r i mid hi l2 -> packed r i lo hi (l1 ++ l2).
Proof.
  revert lo. induction l1 as [|[j a s|] l1 IH]; intros lo; simpl; [| |eauto].
  - intros L P. apply (packed_weaken r i mid lo hi hi); auto; lia.
  - destruct (decide (j = i)); [|eauto]. intros (A & B & C & D) P. split_and!; eauto.
Qed.
Lemma packed_le r i lo hi l : sizes_ok l -> packed r i lo hi l -> lo <= hi.
Proof.
  intros S. revert lo. induction S as [|[j a s|] l Hs S IH]; intros lo; simpl; [lia| |apply IH].
  destruct (decide (j = i)); [|apply IH]. intros (A & B & C & D). specialize (IH _ D). lia.
Qed.
Lemma packed_set_lower r x i lo hi l : packed (set_lower r x) i lo hi l <-> packed r i lo hi l.
Proof.
  revert lo. induction l as [|[j a s|] l IH]; intros lo; simpl; [tauto| |apply IH].
  destruct (decide (j = i)); rewrite ?IH; tauto.
Qed.
(** Writes are not blocks. *)
Lemma packed_writes r i lo hi l : lo <= hi -> Forall (fun e => match e with Wrote _ _ _ _ => True | _ => False end) l ->
  packed r i lo hi l.
Proof. intros L F. induction F as [|[|] l He F IH]; simpl; [lia|destruct He|exact IH]. Qed.
(** Any block: between the bounds. *)
Lemma packed_in r i lo hi l a s : sizes_ok l -> packed r i lo hi l -> In (Granted i a s) l ->
  lo <= a /\ a + s <= hi /\ a + s <= bus_start r + size r /\ (forall k, 0 <= k -> s = 2 ^ k -> (s | a)).
Proof.
  intros S. revert lo. induction S as [|[j a' s'|] l Hs S IH]; intros lo; simpl; [tauto| |].
  - destruct (decide (j = i)) as [->|n].
    + intros (A & B & C & D) [E|E].
      * injection E as -> ->. split_and!; auto. eapply packed_le; eauto.
      * specialize (IH _ D E). destruct IH as (? & ? & ? & ?). split_and!; auto. lia.
    + intros P [E|E]; [congruence|]. eauto.
  - intros P [E|E]; [congruence|]. eauto.
Qed.
(** Any two blocks: the earlier one ends before the later one. *)
Lemma packed_before r i lo hi l1 l2 l3 a s a' s' : sizes_ok (l1 ++ Granted i a s :: l2 ++ Granted i a' s' :: l3) ->
  packed r i lo hi (l1 ++ Granted i a s :: l2 ++ Granted i a' s' :: l3) -> a + s <= a'.
Proof.
  revert lo. induction l1 as [|[j b t|] l1 IH]; intros lo S; simpl.
  - rewrite decide_True by reflexivity. intros (A & B & C & D). apply Forall_inv_tail in S.
    apply (fun I => proj1 (packed_in r i (a + s) hi (l2 ++ Granted i a' s' :: l3) a' s' S D I)). apply in_or_app. right. left. reflexivity.
  - apply Forall_inv_tail in S. destruct (decide (j = i)); [|eauto]. intros (A & B & C & D). eauto.
  - apply Forall_inv_tail in S. eauto.
Qed.

(** ** What every part of the scan keeps *)

Section keeps.
Context {St : Type} `{PciIO St} (cfg_addr cfg_data : Z).

(** [l] is what was done between two worlds. *)
Record evolves (w : world (St := St)) (l : list event) (w' : world (St := St)) : Prop := Evolves {
  ev_log : log w' = log w ++ l;
  ev_frame : frame (hose w) (hose w');
  ev_pools : Forall (fun e => match e with Granted i _ _ => pool (hose w) i | Wrote _ _ _ _ => True end) l;
  ev_fits : fits (hose w) -> sizes_ok l ->
    fits (hose w') /\ forall i, pool (hose w) i -> packed (regions (hose w) !!! i) i (lower (hose w) i) (lower (hose w') i) l
}.
Lemma evolves_nil (w w' : world (St := St)) : log w' = log w -> hose w' = hose w -> evolves w [] w'.
Proof.
  intros E1 E2. split; rewrite ?E1, ?E2, ?app_nil_r; try reflexivity; [constructor|].
  intros F _. split; [exact F|]. intros i _. simpl. lia.
Qed.
Lemma evolves_trans (w1 w2 w3 : world (St := St)) l1 l2 : evolves w1 l1 w2 -> evolves w2 l2 w3 -> evolves w1 (l1 ++ l2) w3.
Proof.
  intros [A1 A2 A4 A3] [B1 B2 B4 B3]. split.
  - rewrite B1, A1, app_assoc. reflexivity.
  - etransitivity; eassumption.
  - apply Forall_app. split; [exact A4|]. revert B4. apply Forall_impl. intros [i a s|]; [|auto]. apply (frame_pool _ _ i A2).
  - intros F S. apply Forall_app in S as [S1 S2]. destruct (A3 F S1) as [F2 P1]. destruct (B3 F2 S2) as [F3 P2].
    split; [exact F3|]. intros i Hi. eapply packed_app; [apply P1, Hi|].
    pose proof (proj2 (frame_pool _ _ i A2) Hi) as Hi2. specialize (P2 i Hi2).
    rewrite (frame_region _ _ A2 i) in P2. apply packed_set_lower in P2. exact P2.
Qed.

(** A computation run on pools [ps] that only evolves the world. *)
Definition pools (h : pci_controller) : option nat * option nat * option nat := (pci_mem h, pci_prefetch h, pci_io h).
Definition safe {A} (ps : option nat * option nat * option nat) (m : M A) : Prop :=
  forall (w w' : world (St := St)) a, pools (hose w) = ps -> m w = Some (a, w') -> exists l, evolves w l w'.

Lemma bind_inv {A B} (m : M A) (k : A -> M B) (w w' : world (St := St)) b :
  (m ≫= k) w = Some (b, w') -> exists a w1, m w = Some (a, w1) /\ k a w1 = Some (b, w').
Proof. unfold mbind, M_bind. destruct (m w) as [[a w1]|]; [|discriminate]. eauto. Qed.

Lemma safe_bind {A B} ps (m : M A) (k : A -> M B) : safe ps m -> (forall a, safe ps (k a)) -> safe ps (m ≫= k).
Proof.
  intros Hm Hk w w' b Hps E. apply bind_inv in E as (a & w1 & E1 & E2).
  destruct (Hm _ _ _ Hps E1) as [l1 V1]. destruct (Hk a w1 w' b) as [l2 V2]; [|exact E2|].
  - unfold pools in *. rewrite (frame_mem _ _ (ev_frame _ _ _ V1)), (frame_prefetch _ _ (ev_frame _ _ _ V1)),
      (frame_io _ _ (ev_frame _ _ _ V1)). exact Hps.
  - exists (l1 ++ l2). eapply evolves_trans; eassumption.
Qed.
Lemma safe_ret {A} ps (a : A) : safe ps (mret a).
Proof. intros w w' b _ E. injection E as -> ->. exists []. apply evolves_nil; reflexivity. Qed.
Lemma safe_hose {A} ps (k : pci_controller -> M A) : (forall h, pools h = ps -> safe ps (k h)) -> safe ps (get_hose ≫= k).
Proof. intros Hk w w' a Hps E. exact (Hk (hose w) Hps w w' a Hps E). Qed.
Lemma safe_read ps n dev off : safe ps (read_config cfg_addr cfg_data n dev off).
Proof.
  intros w w' v _ E. unfold read_config in E. destruct (io_in n _ _) as [x st]. injection E as _ <-.
  exists []. apply evolves_nil; reflexivity.
Qed.
Lemma safe_write ps n dev off v : safe ps (write_config cfg_addr cfg_data n dev off v).
Proof.
  intros w w' [] _ E. injection E as <-. exists [Wrote n dev off (wrap (8 * n) v)]. split; cbn; [reflexivity..| |].
  - repeat constructor.
  - intros F _. split; [exact F|]. intros i _. lia.
Qed.

Lemma lower_insert h i j r : (j < List.length (regions h))%nat ->
  lower (set_regions h (<[j := r]> (regions h))) i = if decide (i = j) then bus_lower r else lower h i.
Proof.
  intros Hj. unfold lower. cbn. destruct (decide (i = j)) as [->|n].
  - rewrite list_lookup_total_insert_eq by exact Hj. reflexivity.
  - rewrite list_lookup_total_insert_ne by congruence. reflexivity.
Qed.
(** Moving the free space of one region on. *)
Lemma frame_set_lower h j x : frame h (set_regions h (<[j := set_lower (regions h !!! j) x]> (regions h))).
Proof.
  split; try reflexivity; cbn; [apply length_insert|]. intros i. unfold lower. cbn.
  destruct (decide (i = j)) as [->|n].
  - destruct (decide (j < List.length (regions h))%nat) as [L|L].
    + rewrite list_lookup_total_insert_eq by exact L. reflexivity.
    + rewrite list_insert_ge by lia. destruct (regions h !!! j). reflexivity.
  - rewrite list_lookup_total_insert_ne by congruence. destruct (regions h !!! i). reflexivity.
Qed.
Lemma fits_set_lower h j x : fits h -> pool h j -> bus_start (regions h !!! j) <= x -> 1 <= x <= LIM ->
  fits (set_regions h (<[j := set_lower (regions h !!! j) x]> (regions h))).
Proof.
  intros F Pj L R i Hi. destruct (F j Pj) as [Lj Oj]. destruct (F i Hi) as [Li Oi]. cbn. rewrite length_insert.
  split; [exact Li|]. destruct (decide (i = j)) as [->|n].
  - rewrite list_lookup_total_insert_eq by exact Li. unfold region_ok in *. cbn. tauto.
  - rewrite list_lookup_total_insert_ne by congruence. exact Oi.
Qed.
Lemma evolves_lower h st0 st1 lg0 l j x :
  Forall (fun e => match e with Granted i _ _ => pool h i | Wrote _ _ _ _ => True end) l ->
  (fits h -> sizes_ok l -> pool h j /\ lower h j <= x <= LIM /\ packed (regions h !!! j) j (lower h j) x l /\
    forall i, i <> j -> forall r lo, packed r i lo lo l) ->
  evolves (World h (st0 : St) lg0) l (World (set_regions h (<[j := set_lower (regions h !!! j) x]> (regions h))) st1 (lg0 ++ l)).
Proof.
  intros Hl C. split; [reflexivity|apply frame_set_lower|exact Hl|]. cbn [hose]. intros F S.
  destruct (C F S) as (Pj & R & P & N). destruct (F j Pj) as [Lj Oj]. unfold region_ok in Oj.
  split; [apply fits_set_lower; unfold lower in *; auto; lia|]. intros i Hi.
  rewrite lower_insert by exact Lj. destruct (decide (i = j)) as [->|n]; [exact P|]. apply N. exact n.
Qed.

Lemma safe_align ps i sz : ps.1.1 = Some i \/ ps.1.2 = Some i \/ ps.2 = Some i -> 0 < sz <= 2 ^ 29 ->
  safe ps (pciauto_region_align i sz).
Proof.
  intros Hi Hsz [h st lg] w' [] Hps E. injection E as <-. cbn [hose machine log] in *.
  exists []. unfold region_align. fold (lower h i). rewrite <- (app_nil_r lg) at 2. apply evolves_lower; [constructor|].
  intros F _. assert (pool h i) as Pi by (subst ps; exact Hi). destruct (F i Pi) as [_ Oi]. unfold region_ok in Oi.
  pose proof (round_up_range (lower h i) sz ltac:(unfold lower; lia) Hsz).
  split_and!; auto; simpl; lia.
Qed.
Lemma allocate_run h (st : St) lg i sz :
  let addr := round_up (lower h i) sz in
  pciauto_region_allocate (Some i) sz (World h st lg) =
    if size (regions h !!! i) <? u32 (addr - bus_start (regions h !!! i) + sz) then Some (None, World h st lg)
    else Some (Some addr, World (set_regions h (<[i := set_lower (regions h !!! i) (u32 (addr + sz))]> (regions h))) st
                            (lg ++ [Granted i addr sz])).
Proof.
  intros addr. unfold pciauto_region_allocate, region_at, put_region, get_hose, put_hose, note, mbind, M_bind, mret, M_ret.
  cbn [hose]. fold (lower h i). fold addr. destruct (_ <? _); reflexivity.
Qed.
Lemma safe_allocate ps res sz : res = None \/ ps.1.1 = res \/ ps.1.2 = res \/ ps.2 = res -> safe ps (pciauto_region_allocate res sz).
Proof.
  intros Hi [h st lg] w' a Hps E. destruct res as [i|]; [|eapply safe_ret; [exact Hps|exact E]].
  destruct Hi as [Hi|Hi]; [discriminate|]. assert (pool h i) as Pi by (subst ps; exact Hi).
  rewrite allocate_run in E. cbv zeta in E. set (addr := round_up (lower h i) sz) in *. destruct (Z.ltb_spec (size (regions h !!! i)) (u32 (addr - bus_start (regions h !!! i) + sz))).
  { eapply (safe_ret ps None); [exact Hps|exact E]. }
  injection E as _ <-. exists [Granted i addr sz]. apply evolves_lower; [constructor; [exact Pi|constructor]|]. intros F S.
  destruct (F i Pi) as [_ Oi]. unfold region_ok, LIM in Oi. apply Forall_inv in S.
  pose proof (round_up_range (lower h i) sz ltac:(unfold lower; unfold LIM; lia) S) as R. fold addr in R. unfold lower, LIM in *.
  rewrite u32_small in H0 by lia. rewrite u32_small by lia. split_and!; auto; try lia.
  - simpl. rewrite decide_True by reflexivity. split_and!; try lia. intros k Hk ->.
    apply round_up_aligned; [unfold LIM; lia|]. split; [exact Hk|]. apply (Z.pow_le_mono_r_iff 2); lia.
  - intros j n r lo. simpl. rewrite decide_False by congruence. lia.
Qed.

Lemma safe_region_at ps i : safe ps (region_at i).
Proof. apply safe_hose. intros. apply safe_ret. Qed.
Lemma safe_current ps : safe ps current.
Proof. apply safe_hose. intros. apply safe_ret. Qed.
(** A change of the bus counter is none of the addresses. *)
Lemma safe_bump ps : safe ps bump_busno.
Proof.
  intros [h st lg] w' a _ E. injection E as _ <-. exists []. split; cbn; rewrite ?app_nil_r; [reflexivity| |constructor|].
  - split; try reflexivity. intros i. cbn. unfold lower. cbn. destruct (regions h !!! i). reflexivity.
  - intros F _. split; [exact F|]. intros i _. unfold lower. cbn. lia.
Qed.

Ltac safe_tac := repeat first
  [ progress intros
  | apply safe_ret | apply safe_read | apply safe_write | apply safe_region_at | apply safe_current
  | apply safe_bump | apply (safe_bind _ bump_busno); [apply safe_bump|]
  | apply (safe_bind _ current); [apply safe_current|]
  | apply safe_hose; intros ? <-
  | (apply safe_align; [solve [auto]|lia])
  | (apply safe_allocate; solve [auto])
  | solve [eauto]
  | apply safe_bind
  | case_match ].

Lemma safe_setup_bars n dev bar limit m p i cmdstat :
  safe (m, p, i) (setup_bars cfg_addr cfg_data n dev bar limit m p i cmdstat).
Proof.
  revert bar cmdstat. induction n as [|n IH]; intros bar cmdstat; simpl; [apply safe_ret|].
  destruct (negb _); [apply safe_ret|]. apply safe_bind; [apply safe_write|intros _].
  apply safe_bind; [apply safe_read|intros resp]. destruct (resp =? 0); [apply IH|].
  apply safe_bind; [safe_tac|intros bar_size]. apply safe_bind; [|safe_tac].
  apply safe_allocate. destruct (negb _); [auto|]. destruct p; simpl; [destruct (negb _)|]; auto.
Qed.
Lemma safe_setup_device dev n m p i : safe (m, p, i) (pciauto_setup_device cfg_addr cfg_data dev n m p i).
Proof. unfold pciauto_setup_device. apply safe_bind; [apply safe_read|intros]. apply safe_bind; [apply safe_setup_bars|safe_tac]. Qed.
Lemma safe_prescan ps dev b : safe ps (pciauto_prescan_setup_bridge cfg_addr cfg_data dev b).
Proof. unfold pciauto_prescan_setup_bridge. safe_tac. Qed.
Lemma safe_postscan ps dev b : safe ps (pciauto_postscan_setup_bridge cfg_addr cfg_data dev b).
Proof. unfold pciauto_postscan_setup_bridge. safe_tac. Qed.
Lemma safe_config_bars ps n dev bar io mem : safe ps (config_bars cfg_addr cfg_data n dev bar io mem).
Proof. revert bar io mem. induction n as [|n IH]; intros bar io mem; simpl; safe_tac. Qed.
Lemma safe_entry ps e dev : safe ps (run_entry cfg_addr cfg_data e dev).
Proof.
  unfold run_entry. destruct (config_device e); [|apply safe_ret]. destruct (priv e) as [[io mem] command].
  unfold pci_hose_config_device. pose proof (safe_config_bars ps). safe_tac.
Qed.
Lemma safe_config_device ps scan dev : (forall b, safe ps (scan b)) -> safe ps (pciauto_config_device cfg_addr cfg_data scan dev).
Proof.
  intros Hs. unfold pciauto_config_device. apply safe_bind; [apply safe_read|intros class].
  pose proof (safe_prescan ps). pose proof (safe_postscan ps).
  apply safe_hose. intros h Hps.
  assert (forall n, safe ps (pciauto_setup_device cfg_addr cfg_data dev n (pci_mem h) (pci_prefetch h) (pci_io h))) as Hd
    by (intros n; subst ps; apply safe_setup_device).
  safe_tac.
Qed.
Lemma safe_scan_devs ps scan n dev fm sb : (forall b, safe ps (scan b)) -> safe ps (scan_devs cfg_addr cfg_data scan n dev fm sb).
Proof.
  intros Hs. revert dev fm sb. induction n as [|n IH]; intros dev fm sb; simpl; [apply safe_ret|].
  apply safe_hose. intros h _. destruct (pci_skip_dev h dev); [apply IH|]. destruct (_ && _); [apply IH|].
  do 2 (apply safe_bind; [apply safe_read|intros ?]). destruct (_ || _); [apply IH|].
  do 2 (apply safe_bind; [apply safe_read|intros ?]). destruct (pci_find_config _ _ _ _ _ _ _).
  - apply safe_bind; [apply safe_entry|intros _]. apply safe_bind; [apply safe_current|intros c]. apply IH.
  - apply safe_bind; [apply safe_config_device, Hs|intros m]. apply IH.
Qed.
Lemma safe_scan_bus ps fuel bus : safe ps (pci_hose_scan_bus cfg_addr cfg_data fuel bus).
Proof.
  revert bus. induction fuel as [|fuel IH]; intros bus; cbn [pci_hose_scan_bus]; [intros w w' a _; discriminate|].
  apply safe_scan_devs. exact IH.
Qed.

(** ** The pools the scan starts with *)

Definition auto_kind (fl : Z) : Prop := fl = PCI_REGION_IO \/ fl = PCI_REGION_MEM \/ fl = PCI_REGION_MEM .| PCI_REGION_PREFETCH.
(** What a table of regions must promise. *)
Definition region_fits (r : pci_region) : Prop :=
  auto_kind (flags r) -> 0 <= bus_start r /\ 0 <= size r /\ bus_start r + size r <= LIM.

Lemma larger_some rs best i j : larger rs best i = Some j -> j = i \/ best = Some j.
Proof. unfold larger. destruct best; [case_match|]; intros [= <-]; auto. Qed.

(** Each pool is a region of its kind. *)
Definition pools_ok (rs : list pci_region) (h : pci_controller) : Prop :=
  regions h = rs /\ forall i, pool h i -> (i < List.length rs)%nat /\ auto_kind (flags (rs !!! i)).
Lemma pick_ok rs h i : (i < List.length rs)%nat -> pools_ok rs h -> pools_ok rs (pick rs i h).
Proof.
  intros Li [E P]. unfold pick.
  destruct (Z.eqb_spec (flags (rs !!! i)) PCI_REGION_IO); [|destruct (Z.eqb_spec (flags (rs !!! i)) PCI_REGION_MEM);
    [|destruct (Z.eqb_spec (flags (rs !!! i)) (PCI_REGION_MEM .| PCI_REGION_PREFETCH)); [|split; assumption]]].
  all: split; [exact E|]; intros j [Hj|[Hj|Hj]]; cbn in Hj; try (apply P; unfold pool; tauto).
  all: apply larger_some in Hj as [->|Hj]; [split; [exact Li|unfold auto_kind; auto]|apply P; unfold pool; tauto].
Qed.
Lemma init_pool_spec p rs i : List.length (init_pool p rs) = List.length rs /\
  init_pool p rs !!! i = if decide (p = Some i /\ (i < List.length rs)%nat) then pciauto_region_init (rs !!! i) else rs !!! i.
Proof.
  destruct p as [j|]; cbn; [|split; [reflexivity|rewrite decide_False by (intros []; discriminate); reflexivity]].
  rewrite length_insert. split; [reflexivity|]. destruct (decide (Some j = Some i /\ _)) as [[[= <-] L]|n].
  - apply list_lookup_total_insert_eq, L.
  - destruct (decide (i = j)) as [->|n'].
    + destruct (decide (j < List.length rs)%nat); [exfalso; tauto|]. rewrite list_insert_ge by lia. reflexivity.
    + apply list_lookup_total_insert_ne. congruence.
Qed.
Lemma region_init_ok r : region_fits r -> auto_kind (flags r) -> region_ok (pciauto_region_init r).
Proof.
  intros F K. destruct (F K) as (A & B & C). unfold region_ok, pciauto_region_init, LIM in *. cbn.
  destruct (Z.eqb_spec (bus_start r) 0); lia.
Qed.

Lemma config_init_ok h : pci_prefetch h = None -> Forall region_fits (regions h) ->
  let h' := pciauto_config_init h in
  fits h' /\ (forall i, pool h' i -> regions h' !!! i = pciauto_region_init (regions h !!! i) /\ auto_kind (flags (regions h !!! i))).
Proof.
  intros Ep F. unfold pciauto_config_init.
  set (h0 := set_pools h None (pci_prefetch h) None).
  set (h1 := fold_left _ _ h0).
  assert (pools_ok (regions h) h1) as [E P].
  { subst h1. assert (pools_ok (regions h) h0) as P0.
    { split; [reflexivity|]. intros i. unfold pool. cbn. rewrite Ep. intuition discriminate. }
    assert (forall i, In i (seq 0 (List.length (regions h0))) -> (i < List.length (regions h))%nat) as L
      by (intros i Hi; apply in_seq in Hi; cbn in Hi; lia).
    revert L P0. generalize h0, (seq 0 (List.length (regions h0))). clear. intros h0 l. revert h0.
    induction l as [|i l IH]; intros h0 L P0; cbn; [exact P0|]. apply IH; [intros; apply L; right; assumption|].
    pose proof P0 as [-> _]. apply pick_ok; [apply L; left; reflexivity|exact P0]. }
  clearbody h1. cbv zeta.
  set (rs := init_pool _ _).
  assert (forall i, pool h1 i -> (i < List.length rs)%nat /\ rs !!! i = pciauto_region_init (regions h !!! i)) as R.
  { intros i Hi. destruct (P i Hi) as [Li _]. subst rs. rewrite E.
    pose proof (init_pool_spec (pci_mem h1) (regions h) i) as [L1 R1].
    pose proof (init_pool_spec (pci_prefetch h1) (init_pool (pci_mem h1) (regions h)) i) as [L2 R2].
    pose proof (init_pool_spec (pci_io h1) (init_pool (pci_prefetch h1) (init_pool (pci_mem h1) (regions h))) i) as [L3 R3].
    rewrite L2, L1 in *. split; [lia|]. rewrite R3, R2, R1.
    unfold pool in Hi. destruct Hi as [Hi|[Hi|Hi]]; rewrite Hi; repeat case_decide; try reflexivity; exfalso; tauto. }
  split; [|intros i Hi; split; [apply R, Hi|apply P, Hi]].
  intros i Hi. destruct (R i Hi) as [Li Ei]. split; [exact Li|]. cbn [set_regions regions]. rewrite Ei.
  destruct (P i Hi) as [Li' K]. apply region_init_ok; [|exact K].
  apply (Forall_lookup_total_1 _ _ _ F Li').
Qed.

(** What the blocks handed out of the regions [rs] satisfy. *)
Record blocks_ok (rs : list pci_region) (l : list event) : Prop := BlocksOk {
  blocks_in : forall i a s, In (Granted i a s) l ->
    (i < List.length rs)%nat /\ auto_kind (flags (rs !!! i)) /\
    (bus_start (rs !!! i) = 0 -> 0x1000 <= a) /\ bus_start (rs !!! i) <= a /\ a + s <= bus_start (rs !!! i) + size (rs !!! i);
  blocks_aligned : forall i a k, 0 <= k -> In (Granted i a (2 ^ k)) l -> (2 ^ k | a);
  blocks_disjoint : forall i a s a' s' l1 l2 l3, l = l1 ++ Granted i a s :: l2 ++ Granted i a' s' :: l3 -> a + s <= a'
}.

Lemma scan_evolves fuel h (st : St) lg n w' : pci_prefetch h = None -> Forall region_fits (regions h) ->
  pci_hose_scan cfg_addr cfg_data fuel (World h st lg) = Some (n, w') ->
  exists h1 l, evolves (World h1 st lg) l w' /\ fits h1 /\ List.length (regions h1) = List.length (regions h) /\
    forall i, pool h1 i -> regions h1 !!! i = pciauto_region_init (regions h !!! i) /\ auto_kind (flags (regions h !!! i)).
Proof.
  intros Ep F E. unfold pci_hose_scan in E. apply bind_inv in E as (h0 & w0 & E0 & E). injection E0 as <- <-.
  cbn [hose] in E. apply bind_inv in E as ([] & w1 & E1 & E). injection E1 as <-. cbn [machine log] in E.
  remember (if current_busno h <? first_busno h then set_current h (first_busno h) else h) as h0 eqn:Eh.
  assert (pci_prefetch h0 = None /\ regions h0 = regions h) as [Ep0 R0] by (subst h0; destruct (_ <? _); auto).
  destruct (config_init_ok h0 Ep0 ltac:(rewrite R0; exact F)) as [F1 P1]. rewrite R0 in P1.
  destruct (safe_scan_bus _ _ _ _ _ _ eq_refl E) as [l V].
  exists (pciauto_config_init h0), l. split_and!; auto.
  unfold pciauto_config_init. cbn [set_regions regions].
  rewrite !(proj1 (init_pool_spec _ _ 0)), <- R0. f_equal.
  generalize (seq 0 (List.length (regions (set_pools h0 None (pci_prefetch h0) None)))).
  change (regions h0) with (regions (set_pools h0 None (pci_prefetch h0) None)) at 1.
  generalize (set_pools h0 None (pci_prefetch h0) None). clear. intros h l. revert h.
  induction l as [|i l IH]; intros h; cbn; [reflexivity|]. rewrite IH. unfold pick. repeat case_match; reflexivity.
Qed.


(** ** The windows of a bridge *)

Lemma round_up_multiple x k : 1 <= x <= LIM -> 0 <= k <= 29 -> (2 ^ k | x) -> round_up x (2 ^ k) = x.
Proof.
  intros Hx Hk [q E]. assert (0 < 2 ^ k <= 2 ^ 29) as Hs by (split; [lia|apply Z.pow_le_mono_r; lia]).
  unfold LIM in Hx. assert (0 < q) by nia. unfold round_up. rewrite (u32_small (x - 1)), (u32_small (2 ^ k - 1)) by lia.
  replace (x - 1) with (((q - 1) .<< k) .| Z.ones k).
  2: { rewrite lor_add_disjoint, Z.ones_equiv by (rewrite ?Z.ones_equiv; lia). lia. }
  replace (2 ^ k - 1) with (Z.ones k) by (rewrite Z.ones_equiv; lia).
  rewrite <- Z.lor_assoc, Z.lor_diag, lor_add_disjoint, Z.ones_equiv by (rewrite ?Z.ones_equiv; lia).
  rewrite u32_small; lia.
Qed.

Definition is_write (e : event) : Prop := match e with Wrote _ _ _ _ => True | Granted _ _ _ => False end.
Definition MB : Z := 2 ^ 20.

(** What happens between the buses: registers are written, and the free space
    of a region moves to the next boundary unless it is at a megabyte already. *)
Record settles (w : world (St := St)) (l : list event) (w' : world (St := St)) : Prop := Settles {
  se_log : log w' = log w ++ l;
  se_writes : Forall is_write l;
  se_frame : frame (hose w) (hose w');
  se_fits : fits (hose w) -> fits (hose w') /\ forall i, pool (hose w) i ->
    lower (hose w) i <= lower (hose w') i /\ ((MB | lower (hose w) i) -> lower (hose w') i = lower (hose w) i)
}.
Lemma settles_nil (w w' : world (St := St)) : log w' = log w -> hose w' = hose w -> settles w [] w'.
Proof.
  intros E1 E2. split; rewrite ?E1, ?E2, ?app_nil_r; try reflexivity; [constructor|].
  intros F. split; [exact F|]. intros i _. split; [lia|auto].
Qed.
Lemma settles_trans w1 w2 w3 l1 l2 : settles w1 l1 w2 -> settles w2 l2 w3 -> settles w1 (l1 ++ l2) w3.
Proof.
  intros [A1 A2 A3 A4] [B1 B2 B3 B4]. split.
  - rewrite B1, A1, app_assoc. reflexivity.
  - apply Forall_app. auto.
  - etransitivity; eassumption.
  - intros F. destruct (A4 F) as [F2 P]. destruct (B4 F2) as [F3 Q]. split; [exact F3|]. intros i Hi.
    destruct (P i Hi) as [P1 P2]. destruct (Q i (proj2 (frame_pool _ _ i A3) Hi)) as [Q1 Q2].
    split; [lia|]. intros D. rewrite <- P2 by exact D. apply Q2. rewrite P2 by exact D. exact D.
Qed.
Lemma settles_write n dev off v (w w' : world (St := St)) u : write_config cfg_addr cfg_data n dev off v w = Some (u, w') ->
  settles w [Wrote n dev off (wrap (8 * n) v)] w' /\ hose w' = hose w.
Proof.
  intros E. injection E as _ <-. split; [|reflexivity]. split; cbn; [reflexivity|constructor; [exact I|constructor]|reflexivity|].
  intros F. split; [exact F|]. intros i _. split; [lia|auto].
Qed.
Lemma settles_read n dev off (w w' : world (St := St)) v : read_config cfg_addr cfg_data n dev off w = Some (v, w') ->
  settles w [] w' /\ hose w' = hose w.
Proof.
  unfold read_config. destruct (io_in _ _ _). intros E. injection E as _ <-. split; [apply settles_nil|]; reflexivity.
Qed.
Lemma settles_align i k (w w' : world (St := St)) u : 12 <= k <= 20 -> pool (hose w) i ->
  pciauto_region_align i (2 ^ k) w = Some (u, w') ->
  settles w [] w' /\ (fits (hose w) -> (2 ^ k | lower (hose w') i)).
Proof.
  intros Hk Hi E. injection E as _ <-. unfold region_align. fold (lower (hose w) i). cbn [hose log machine].
  assert (0 < 2 ^ k <= 2 ^ 29) as Hs by (split; [lia|apply Z.pow_le_mono_r; lia]).
  assert (fits (hose w) -> (i < List.length (regions (hose w)))%nat /\ 1 <= lower (hose w) i <= LIM /\ bus_start (regions (hose w) !!! i) <= lower (hose w) i) as B.
  { intros F. destruct (F i Hi) as [Li O]. unfold region_ok in O. unfold lower. split_and!; auto; lia. }
  split.
  - split; cbn [hose log]; [rewrite app_nil_r; reflexivity|constructor|apply frame_set_lower|]. intros F.
    destruct (B F) as (Li & R & R2). pose proof (round_up_range _ _ R Hs).
    split; [apply fits_set_lower; auto; lia|]. intros j Hj. rewrite lower_insert by exact Li.
    destruct (decide (j = i)) as [->|n]; [|split; [lia|auto]]. cbn. split; [lia|]. intros D.
    apply round_up_multiple; auto; [lia|]. etransitivity; [|exact D]. unfold MB. exists (2 ^ (20 - k)).
    rewrite <- Z.pow_add_r by lia. f_equal. lia.
  - intros F. destruct (B F) as (Li & R & R2). rewrite lower_insert, decide_True by auto. apply round_up_aligned; [exact R|lia].
Qed.

Ltac step E := let a := fresh "a" in let w := fresh "w" in let E1 := fresh "E" in apply bind_inv in E as (a & w & E1 & E).

(** Align a pool, then go on with its next free address. *)
Lemma aligned_then {B} i k (f : pci_region -> M B) (w w' : world (St := St)) b : 12 <= k <= 20 -> pool (hose w) i ->
  (pciauto_region_align i (2 ^ k);; r ← region_at i; f r) w = Some (b, w') ->
  exists w1, settles w [] w1 /\ (fits (hose w) -> (2 ^ k | lower (hose w1) i)) /\ f (regions (hose w1) !!! i) w1 = Some (b, w').
Proof.
  intros Hk Hi E. step E. destruct (settles_align i k _ _ _ Hk Hi E0) as [S D]. exists w0.
  split; [exact S|]. split; [exact D|exact E].
Qed.

(** [l] opens, or closes, a window at the next free address [lower] of a pool:
    [ws lower] are the registers that say so. *)
Definition marks (h : pci_controller) (p : option nat) (align : Z) (ws : Z -> list event) (l : list event) : Prop :=
  forall i, p = Some i -> (align | lower h i) /\ forall e, In e (ws (lower h i)) -> In e l.

Definition mem_opening (dev lower : Z) : list event := [Wrote 2 dev PCI_MEMORY_BASE (wrap 16 (mem_base lower))].
Definition prefetch_opening (dev lower : Z) : list event := [Wrote 2 dev PCI_PREF_MEMORY_BASE (wrap 16 (mem_base lower))].
Definition io_opening (dev lower : Z) : list event :=
  [Wrote 1 dev PCI_IO_BASE (wrap 8 (io_base lower)); Wrote 2 dev PCI_IO_BASE_UPPER16 (wrap 16 (io_base_upper lower))].
Definition mem_closing (dev lower : Z) : list event := [Wrote 2 dev PCI_MEMORY_LIMIT (wrap 16 (mem_limit lower))].
Definition prefetch_closing (dev lower : Z) : list event := [Wrote 2 dev PCI_PREF_MEMORY_LIMIT (wrap 16 (mem_limit lower))].
Definition io_closing (dev lower : Z) : list event :=
  [Wrote 1 dev PCI_IO_LIMIT (wrap 8 (io_limit lower)); Wrote 2 dev PCI_IO_LIMIT_UPPER16 (wrap 16 (io_limit_upper lower))].

(** Later settling moves no pool that is at a megabyte. *)
Lemma marks_settles w w' p ws l1 l2 : fits (hose w) -> (forall i, p = Some i -> pool (hose w) i) ->
  settles w l2 w' -> marks (hose w) p MB ws l1 -> marks (hose w') p MB ws (l1 ++ l2).
Proof.
  intros F Hp [_ _ _ S] Hm i Hi. destruct (Hm i Hi) as [D I]. destruct (S F) as [_ S']. destruct (S' i (Hp i Hi)) as [_ ->]; [|exact D].
  split; [exact D|]. intros e He. apply in_or_app. auto.
Qed.
Lemma marks_before h p align ws l0 l : marks h p align ws l -> marks h p align ws (l0 ++ l).
Proof. intros Hm i Hi. destruct (Hm i Hi) as [D I]. split; [exact D|]. intros e He. apply in_or_app. auto. Qed.

(** A computation that reads, and writes the registers [ws]. *)
Definition writes {A} (m : M A) (ws : list event) : Prop :=
  forall (w w' : world (St := St)) a, m w = Some (a, w') -> settles w ws w' /\ hose w' = hose w.
Lemma writes_ret {A} (a : A) : writes (mret a) [].
Proof. intros w w' b E. injection E as _ <-. split; [apply settles_nil|]; reflexivity. Qed.
Lemma writes_read n dev off : writes (read_config cfg_addr cfg_data n dev off) [].
Proof. intros w w' v. apply settles_read. Qed.
Lemma writes_write n dev off v : writes (write_config cfg_addr cfg_data n dev off v) [Wrote n dev off (wrap (8 * n) v)].
Proof. intros w w' u. apply settles_write. Qed.
Lemma writes_bind {A B} (m : M A) (k : A -> M B) l1 l2 : writes m l1 -> (forall a, writes (k a) l2) -> writes (m ≫= k) (l1 ++ l2).
Proof.
  intros Hm Hk w w' b E. step E. destruct (Hm _ _ _ E0) as [S1 H1]. destruct (Hk _ _ _ _ E) as [S2 H2].
  split; [eapply settles_trans; eassumption|congruence].
Qed.
Lemma writes_eq {A} (m : M A) l l' : writes m l -> l = l' -> writes m l'.
Proof. intros W <-. exact W. Qed.
Ltac writes_tac := repeat first
  [ apply writes_ret | apply writes_read | apply writes_write | (eapply writes_bind; [|intros ?]) ].

(** One kind of window: nothing of it, or the mark. *)
Lemma window_part {A} p k (w w' : world (St := St)) (a : A) (some : pci_region -> M A) (none : M A) ws : 12 <= k <= 20 ->
  (forall i, p = Some i -> pool (hose w) i) -> fits (hose w) ->
  (forall r, writes (some r) (ws (bus_lower r))) -> (exists l, writes none l) ->
  match p with
  | Some i => pciauto_region_align i (2 ^ k);; r ← region_at i; some r
  | None => none
  end w = Some (a, w') ->
  exists l, settles w l w' /\ marks (hose w') p (2 ^ k) ws l.
Proof.
  intros Hk Hp F Hs Hn E. destruct p as [i|].
  - destruct (aligned_then i k _ _ _ _ Hk (Hp i eq_refl) E) as (w1 & S & D & E1).
    destruct (Hs _ _ _ _ E1) as [S2 E2]. exists ([] ++ ws (lower (hose w1) i)). split; [eapply settles_trans; eassumption|].
    intros j [= <-]. rewrite E2. split; [apply D, F|auto].
  - destruct Hn as [l Hn]. destruct (Hn _ _ _ E) as [S _]. exists l. split; [exact S|]. intros i. discriminate.
Qed.


Lemma pools_in (h h' : pci_controller) : frame h h' ->
  (forall i, pci_mem h = Some i -> pool h' i) /\ (forall i, pci_prefetch h = Some i -> pool h' i) /\
  (forall i, pci_io h = Some i -> pool h' i).
Proof. intros F. split_and!; intros i Hi; apply (frame_pool _ _ i F); unfold pool; tauto. Qed.

(** The three windows, one after the other, of the pools of [h]. *)
Lemma three_parts {A B C} h (m0 : M A) (m1 : A -> M B) (m2 : B -> M C) (w w' : world (St := St)) c wm wp wi :
  (forall (w w' : world (St := St)) a, fits (hose w) -> frame h (hose w) -> m0 w = Some (a, w') ->
     exists l, settles w l w' /\ marks (hose w') (pci_mem h) MB wm l) ->
  (forall a (w w' : world (St := St)) b, fits (hose w) -> frame h (hose w) -> m1 a w = Some (b, w') ->
     exists l, settles w l w' /\ marks (hose w') (pci_prefetch h) MB wp l) ->
  (forall b (w w' : world (St := St)) c, fits (hose w) -> frame h (hose w) -> m2 b w = Some (c, w') ->
     exists l, settles w l w' /\ marks (hose w') (pci_io h) 0x1000 wi l) ->
  fits (hose w) -> frame h (hose w) -> (a ← m0; b ← m1 a; m2 b) w = Some (c, w') ->
  exists l, settles w l w' /\ marks (hose w') (pci_mem h) MB wm l /\ marks (hose w') (pci_prefetch h) MB wp l /\
    marks (hose w') (pci_io h) 0x1000 wi l.
Proof.
  intros C0 C1 C2 F R E. step E. step E.
  destruct (C0 _ _ _ F R E0) as (l1 & S1 & A1). pose proof (proj1 (se_fits _ _ _ S1 F)) as F1.
  assert (frame h (hose w0)) as R1 by (etransitivity; [exact R|exact (se_frame _ _ _ S1)]).
  destruct (C1 _ _ _ _ F1 R1 E1) as (l2 & S2 & A2). pose proof (proj1 (se_fits _ _ _ S2 F1)) as F2.
  assert (frame h (hose w1)) as R2 by (etransitivity; [exact R1|exact (se_frame _ _ _ S2)]).
  destruct (C2 _ _ _ _ F2 R2 E) as (l3 & S3 & A3).
  exists (l1 ++ l2 ++ l3). split; [eapply settles_trans; [exact S1|eapply settles_trans; eassumption]|]. split_and!.
  - apply (marks_settles w0 w' _ _ _ (l2 ++ l3) F1 (proj1 (pools_in _ _ R1)) (settles_trans _ _ _ _ _ S2 S3) A1).
  - apply marks_before, (marks_settles w1 w' _ _ _ l3 F2 (proj1 (proj2 (pools_in _ _ R2))) S3 A2).
  - apply marks_before, marks_before, A3.
Qed.
Lemma writes_after {A B} (m : M A) (k : A -> M B) l w w' b : writes m l -> (m ≫= k) w = Some (b, w') ->
  exists a w1, settles w l w1 /\ hose w1 = hose w /\ k a w1 = Some (b, w').
Proof. intros W E. step E. destruct (W _ _ _ E0) as [S Eh]. eauto. Qed.

(** What a set-up of the bridge [dev] does: three windows marked. *)
Definition windows (dev : Z) (wm wp wi : Z -> Z -> list event) (w : world (St := St)) (l : list event) (w' : world (St := St)) : Prop :=
  settles w l w' /\ marks (hose w') (pci_mem (hose w)) MB (wm dev) l /\
  marks (hose w') (pci_prefetch (hose w)) MB (wp dev) l /\ marks (hose w') (pci_io (hose w)) 0x1000 (wi dev) l.

Ltac window_by R E k := pose proof (pools_in _ _ R) as (? & ? & ?);
  change 0x100000 with (2 ^ 20) in E; change 0x1000 with (2 ^ 12) in E;
  eapply (window_part _ k); [lia|assumption|assumption| | |exact E];
  [intros r; cbv beta; eapply writes_eq; [writes_tac|reflexivity]|eexists; writes_tac].

Lemma prescan_opens dev b (w w' : world (St := St)) u : fits (hose w) ->
  pciauto_prescan_setup_bridge cfg_addr cfg_data dev b w = Some (u, w') ->
  exists l, windows dev mem_opening prefetch_opening io_opening w l w'.
Proof.
  intros F E. unfold pciauto_prescan_setup_bridge in E. step E. injection E0 as <- <-.
  apply (writes_after _ _ _ _ _ _ (writes_read _ _ _)) in E as (cmd & v0 & S0 & H0 & E).
  apply (writes_after _ _ _ _ _ _ (writes_write _ _ _ _)) in E as (? & v1 & S1 & H1 & E).
  apply (writes_after _ _ _ _ _ _ (writes_write _ _ _ _)) in E as (? & v2 & S2 & H2 & E).
  apply (writes_after _ _ _ _ _ _ (writes_write _ _ _ _)) in E as (? & v & S3 & H3 & E).
  assert (exists l, settles w l v /\ hose v = hose w) as (l & T & Hx).
  { eexists. split; [|congruence]. do 3 (eapply settles_trans; [|eassumption]). exact S0. }
  clear -F E T Hx. pose proof (proj1 (se_fits _ _ _ T F)) as Fv.
  eapply (three_parts (hose w)) in E as (l' & S & A1 & A2 & A3).
  - exists (l ++ l'). split; [eapply settles_trans; eassumption|]. split_and!; apply marks_before; eassumption.
  - intros v1 v2 c F1 R E1. window_by R E1 20.
  - intros c v1 v2 c' F1 R E1. window_by R E1 20.
  - intros c v1 v2 c' F1 R E1. step E1. assert (exists l, settles v1 l w0 /\ marks (hose w0) (pci_io (hose w)) (2 ^ 12) (io_opening dev) l) as (l1 & S1 & A1).
    { window_by R E0 12. }
    destruct (writes_write _ _ _ _ _ _ _ E1) as [S2 H2]. eexists. split; [eapply settles_trans; eassumption|].
    intros i Hi. rewrite H2. destruct (A1 i Hi) as [D I]. split; [exact D|]. intros e He. apply in_or_app. auto.
  - exact Fv.
  - rewrite Hx. reflexivity.
Qed.
Lemma postscan_closes dev b (w w' : world (St := St)) u : fits (hose w) ->
  pciauto_postscan_setup_bridge cfg_addr cfg_data dev b w = Some (u, w') ->
  exists l, windows dev mem_closing prefetch_closing io_closing w l w'.
Proof.
  intros F E. unfold pciauto_postscan_setup_bridge in E. step E. injection E0 as <- <-.
  apply (writes_after _ _ _ _ _ _ (writes_write _ _ _ _)) in E as (? & v & T & Hx & E).
  pose proof (proj1 (se_fits _ _ _ T F)) as Fv.
  eapply (three_parts (hose w)) in E as (l' & S & A1 & A2 & A3).
  - eexists. split; [eapply settles_trans; eassumption|]. split_and!; apply marks_before; eassumption.
  - intros v1 v2 c F1 R E1. window_by R E1 20.
  - intros c v1 v2 c' F1 R E1. window_by R E1 20.
  - intros c v1 v2 c' F1 R E1. window_by R E1 12.
  - exact Fv.
  - rewrite Hx. reflexivity.
Qed.

(** A bridge forwards what lies between the addresses its registers name: the
    low bits of the registers read as zero, those of a limit as ones. *)
Definition mem_first (base : Z) : Z := (base .& 0xfff0) .<< 16.
Definition mem_last (limit : Z) : Z := ((limit .& 0xfff0) .<< 16) + 0xfffff.
Definition io_first (base upper : Z) : Z := (upper .<< 16) + ((base .& 0xf0) .<< 8).
Definition io_last (limit upper : Z) : Z := (upper .<< 16) + ((limit .& 0xf0) .<< 8) + 0xfff.

Ltac fields :=
  change 0xfff00000 with (Z.ones 12 .<< 20); change 0xfff0 with (Z.ones 12 .<< 4);
  change 0xffff0000 with (Z.ones 16 .<< 16); change 0x0000f000 with (Z.ones 4 .<< 12); change 0xf0 with (Z.ones 4 .<< 4);
  rewrite ?land_field, ?Z.shiftr_div_pow2, ?Z.shiftl_mul_pow2 by lia;
  change (2 ^ 20) with 1048576 in *; change (2 ^ 16) with 65536 in *; change (2 ^ 12) with 4096 in *;
  change (2 ^ 8) with 256 in *; change (2 ^ 4) with 16 in *.

Lemma mem_window_of lo : 1 <= lo <= LIM -> (MB | lo) ->
  mem_first (wrap 16 (mem_base lo)) = lo /\ mem_last (wrap 16 (mem_limit lo)) = lo - 1.
Proof.
  unfold LIM, MB. intros R [q ->]. change (2 ^ 20) with 1048576 in *.
  unfold mem_first, mem_last, mem_base, mem_limit, wrap. rewrite u32_small by lia. fields.
  Z.div_mod_to_equations. lia.
Qed.
Lemma io_window_of lo : 1 <= lo <= LIM -> (0x1000 | lo) ->
  io_first (wrap 8 (io_base lo)) (wrap 16 (io_base_upper lo)) = lo /\
  io_last (wrap 8 (io_limit lo)) (wrap 16 (io_limit_upper lo)) = lo - 1.
Proof.
  unfold LIM. intros R [q ->].
  unfold io_first, io_last, io_base, io_base_upper, io_limit, io_limit_upper, wrap. rewrite u32_small by lia. fields.
  Z.div_mod_to_equations. lia.
Qed.

(** The window [first..last] of pool [i] is that of the blocks [behind] a bridge:
    the bridge's own blocks [own], and whatever was handed out before, lie below it,
    and what is still free after lies above. *)
Definition window_exact (h h' : pci_controller) (i : nat) (own behind : list event) (first last : Z) : Prop :=
  (forall a s, In (Granted i a s) own -> lower h i <= a /\ a + s <= first) /\
  (forall a s, In (Granted i a s) behind -> first <= a /\ a + s - 1 <= last) /\
  lower h i <= first /\ last < lower h' i.

Lemma settles_evolves w l w' : settles w l w' -> evolves w l w'.
Proof.
  intros [A B C D]. split; auto.
  - revert B. apply Forall_impl. intros [|]; [intros []|auto].
  - intros F _. destruct (D F) as [F' L]. split; [exact F'|]. intros i Hi. apply packed_writes; [apply L, Hi|exact B].
Qed.
Lemma lower_bounds h i : fits h -> pool h i -> 1 <= lower h i <= LIM.
Proof. intros F Hi. destruct (F i Hi) as [_ O]. unfold region_ok in O. unfold lower. tauto. Qed.

Lemma evolves_fits w l w' : evolves w l w' -> fits (hose w) -> sizes_ok l -> fits (hose w').
Proof. intros V F S. apply (ev_fits _ _ _ V F S). Qed.
Lemma evolves_sizes w l w' : evolves w l w' -> sizes_ok (log w') -> sizes_ok (log w) /\ sizes_ok l.
Proof. intros V S. rewrite (ev_log _ _ _ V) in S. apply Forall_app in S. exact S. Qed.
Lemma evolves_pools w l w' : evolves w l w' -> pools (hose w') = pools (hose w).
Proof.
  intros [_ F _ _]. unfold pools. rewrite (frame_mem _ _ F), (frame_prefetch _ _ F), (frame_io _ _ F). reflexivity.
Qed.

(** The course of a bridge: its own registers, open, scan, close. *)
Lemma bridge_course fuel dev (w w0 w' : world (St := St)) r :
  read_config cfg_addr cfg_data 2 dev PCI_CLASS_DEVICE w = Some (PCI_CLASS_BRIDGE_PCI, w0) ->
  pciauto_config_device cfg_addr cfg_data (pci_hose_scan_bus cfg_addr cfg_data fuel) dev w = Some (r, w') ->
  fits (hose w) -> sizes_ok (log w') ->
  exists w1 w2 w3 own opening behind closing, evolves w own w1 /\
    windows dev mem_opening prefetch_opening io_opening w1 opening w2 /\ evolves w2 behind w3 /\
    windows dev mem_closing prefetch_closing io_closing w3 closing w' /\
    fits (hose w2) /\ fits (hose w3) /\ sizes_ok own /\ sizes_ok behind.
Proof.
  intros Er E F S. unfold pciauto_config_device in E. step E. unfold read_word in E0. rewrite Er in E0.
  injection E0 as <- <-. assert (hose w0 = hose w /\ log w0 = log w) as [H0 L0].
  { destruct (settles_read _ _ _ _ _ _ Er) as [[L _ _ _] Hh]. rewrite app_nil_r in L. auto. }
  step E. injection E0 as <- <-. cbv zeta in E. change (PCI_CLASS_BRIDGE_PCI =? PCI_CLASS_PROCESSOR_POWERPC) with false in E.
  change (PCI_CLASS_BRIDGE_PCI =? PCI_CLASS_BRIDGE_PCI) with true in E. cbn iota in E.
  step E. step E. step E. step E. step E. injection E as _ <-.
  rename w1 into v0, w2 into v1, w3 into v2, w4 into v3, w5 into v4.
  destruct (safe_bump _ _ _ _ eq_refl E0) as [l0 V0].
  assert (exists l, evolves v0 l v1) as [l1 V1].
  { apply (safe_setup_device dev 2 (pci_mem (hose w0)) (pci_prefetch (hose w0)) (pci_io (hose w0)) _ _ _ (evolves_pools _ _ _ V0) E1). }
  destruct (safe_prescan _ _ _ _ _ _ eq_refl E2) as [l2 V2].
  destruct (safe_scan_bus _ _ _ _ _ _ eq_refl E3) as [l3 V3].
  destruct (safe_postscan _ _ _ _ _ _ eq_refl E4) as [l4 V4].
  pose proof (evolves_trans _ _ _ _ _ (evolves_nil w w0 L0 H0) (evolves_trans _ _ _ _ _ V0 V1)) as V.
  destruct (evolves_sizes _ _ _ V4 S) as [S4 _]. destruct (evolves_sizes _ _ _ V3 S4) as [S3 Sb].
  destruct (evolves_sizes _ _ _ V2 S3) as [S2 So2]. destruct (evolves_sizes _ _ _ V S2) as [_ So].
  pose proof (evolves_fits _ _ _ V F So) as F1. pose proof (evolves_fits _ _ _ V2 F1 So2) as F2.
  pose proof (evolves_fits _ _ _ V3 F2 Sb) as F3.
  destruct (prescan_opens _ _ _ _ _ F1 E2) as [opening W2]. destruct (postscan_closes _ _ _ _ _ F3 E4) as [closing W4].
  exists v1, v2, v3, ([] ++ l0 ++ l1), opening, l3, closing. auto 10.
Qed.

Lemma window_exact_intro w w1 w2 w3 w' own opening behind closing i : pool (hose w) i -> fits (hose w) ->
  evolves w own w1 -> settles w1 opening w2 -> evolves w2 behind w3 -> settles w3 closing w' ->
  sizes_ok own -> sizes_ok behind ->
  window_exact (hose w) (hose w') i own behind (lower (hose w2) i) (lower (hose w') i - 1).
Proof.
  intros Hi F V1 V2 V3 V4 S1 S3. destruct (ev_fits _ _ _ V1 F S1) as [F1 P1]. destruct (se_fits _ _ _ V2 F1) as [F2 L2].
  destruct (ev_fits _ _ _ V3 F2 S3) as [F3 P3]. destruct (se_fits _ _ _ V4 F3) as [F4 L4].
  pose proof (proj2 (frame_pool _ _ i (ev_frame _ _ _ V1)) Hi) as Hi1.
  pose proof (proj2 (frame_pool _ _ i (se_frame _ _ _ V2)) Hi1) as Hi2.
  pose proof (proj2 (frame_pool _ _ i (ev_frame _ _ _ V3)) Hi2) as Hi3.
  specialize (P1 i Hi). specialize (P3 i Hi2). destruct (L2 i Hi1) as [L2' _]. destruct (L4 i Hi3) as [L4' _].
  pose proof (packed_le _ _ _ _ _ S1 P1). split; [|split; [|lia]].
  - intros a s I. destruct (packed_in _ _ _ _ _ _ _ S1 P1 I) as (? & ? & _). lia.
  - intros a s I. destruct (packed_in _ _ _ _ _ _ _ S3 P3 I) as (? & ? & _). lia.
Qed.


(** ** The scan returns *)

(** A computation that returns and leaves the bus numbers alone. *)
Definition busno (w : world (St := St)) : Z * Z := (first_busno (hose w), current_busno (hose w)).
Definition returns {A} (m : M A) : Prop :=
  forall w : world (St := St), exists a w', m w = Some (a, w') /\ busno w' = busno w.
Lemma bind_run {A B} (m : M A) (k : A -> M B) (w w' : world (St := St)) a : m w = Some (a, w') -> (m ≫= k) w = k a w'.
Proof. intros E. unfold mbind, M_bind. rewrite E. reflexivity. Qed.
Lemma returns_bind {A B} (m : M A) (k : A -> M B) : returns m -> (forall a, returns (k a)) -> returns (m ≫= k).
Proof.
  intros Hm Hk w. destruct (Hm w) as (a & w1 & E1 & C1). destruct (Hk a w1) as (b & w2 & E2 & C2).
  exists b, w2. rewrite (bind_run _ _ _ _ _ E1). split; [exact E2|congruence].
Qed.
Lemma returns_ret {A} (a : A) : returns (mret a).
Proof. intros w. exists a, w. split; reflexivity. Qed.
Lemma returns_read n dev off : returns (read_config cfg_addr cfg_data n dev off).
Proof. intros w. unfold read_config. destruct (io_in _ _ _). do 2 eexists. split; reflexivity. Qed.
Lemma returns_write n dev off v : returns (write_config cfg_addr cfg_data n dev off v).
Proof. intros w. do 2 eexists. split; reflexivity. Qed.
Lemma returns_get : returns get_hose.
Proof. intros w. do 2 eexists. split; reflexivity. Qed.
Lemma returns_note e : returns (note e).
Proof. intros w. do 2 eexists. split; reflexivity. Qed.
Lemma returns_put_region i r : returns (put_region i r).
Proof. intros w. do 2 eexists. split; reflexivity. Qed.
Ltac returns_tac := repeat first
  [ progress intros
  | apply returns_ret | apply returns_read | apply returns_write | apply returns_get | apply returns_note | apply returns_put_region
  | solve [eauto] | apply returns_bind | case_match ].
Lemma returns_align i sz : returns (pciauto_region_align i sz).
Proof. unfold pciauto_region_align, region_at. returns_tac. Qed.
Lemma returns_region_at i : returns (region_at i).
Proof. unfold region_at. returns_tac. Qed.
Lemma returns_allocate res sz : returns (pciauto_region_allocate res sz).
Proof. unfold pciauto_region_allocate, region_at. destruct res; returns_tac. Qed.
Lemma returns_setup_bars n dev bar limit m p i c : returns (setup_bars cfg_addr cfg_data n dev bar limit m p i c).
Proof. revert bar c. pose proof returns_allocate. induction n as [|n IH]; intros bar c; simpl; returns_tac. Qed.
Lemma returns_setup_device dev n m p i : returns (pciauto_setup_device cfg_addr cfg_data dev n m p i).
Proof. unfold pciauto_setup_device. pose proof returns_setup_bars. returns_tac. Qed.
Lemma returns_prescan dev b : returns (pciauto_prescan_setup_bridge cfg_addr cfg_data dev b).
Proof. unfold pciauto_prescan_setup_bridge. pose proof returns_align. pose proof returns_region_at. returns_tac. Qed.
Lemma returns_postscan dev b : returns (pciauto_postscan_setup_bridge cfg_addr cfg_data dev b).
Proof. unfold pciauto_postscan_setup_bridge. pose proof returns_align. pose proof returns_region_at. returns_tac. Qed.
Lemma returns_config_bars n dev bar io mem : returns (config_bars cfg_addr cfg_data n dev bar io mem).
Proof. revert bar io mem. induction n as [|n IH]; intros bar io mem; simpl; returns_tac. Qed.
Lemma returns_entry e dev : returns (run_entry cfg_addr cfg_data e dev).
Proof.
  unfold run_entry, pci_hose_config_device. pose proof returns_config_bars. destruct (config_device e); [|apply returns_ret].
  destruct (priv e) as [[io mem] command]. returns_tac.
Qed.

(** The place of a device as one number. *)
Definition place (dev : Z) : Z := PCI_BDF (PCI_BUS dev) (PCI_DEV dev) (PCI_FUNC dev).
Definition is_bridge (class : Z) : Prop := class = PCI_CLASS_BRIDGE_PCI \/ class = PCI_CLASS_BRIDGE_CARDBUS.
(** On the bus of a hose that starts at [first], bridges answer at the places [L] at most. *)
Definition bridges_at (first : Z) (L : list Z) : Prop :=
  forall dev (w w' : world (St := St)) class, first_busno (hose w) = first ->
    read_config cfg_addr cfg_data 2 dev PCI_CLASS_DEVICE w = Some (class, w') -> is_bridge class -> In (place dev) L.

Lemma PCI_BDF_sum b d f : 0 <= b -> 0 <= d < 32 -> 0 <= f < 8 -> PCI_BDF b d f = b * 65536 + d * 2048 + f * 256.
Proof.
  intros Hb Hd Hf. unfold PCI_BDF. rewrite <- Z.lor_assoc.
  rewrite (lor_add_disjoint b _ 16); [|lia|].
  - replace (f .<< 8) with (f * 256) by (rewrite Z.shiftl_mul_pow2 by lia; reflexivity).
    rewrite (lor_add_disjoint d _ 11) by (change (2 ^ 11) with 2048; lia). change (2 ^ 11) with 2048. change (2 ^ 16) with 65536. lia.
  - replace (f .<< 8) with (f * 256) by (rewrite Z.shiftl_mul_pow2 by lia; reflexivity).
    rewrite (lor_add_disjoint d _ 11) by (change (2 ^ 11) with 2048; lia). change (2 ^ 11) with 2048. change (2 ^ 16) with 65536. lia.
Qed.
Lemma place_id b k : 0 <= b < 256 -> 0 <= k < 256 -> place (b * 65536 + k * 256) = b * 65536 + k * 256 /\ PCI_BUS (b * 65536 + k * 256) = b.
Proof.
  intros Hb Hk. unfold place, PCI_BUS, PCI_DEV, PCI_FUNC.
  change 0xff with (Z.ones 8). change 0x1f with (Z.ones 5). change 0x7 with (Z.ones 3).
  rewrite !Z.land_ones, !Z.shiftr_div_pow2 by lia.
  change (2 ^ 16) with 65536. change (2 ^ 11) with 2048. change (2 ^ 8) with 256. change (2 ^ 5) with 32. change (2 ^ 3) with 8.
  rewrite PCI_BDF_sum by (try apply Z.mod_pos_bound; Z.div_mod_to_equations; lia).
  split; Z.div_mod_to_equations; lia.
Qed.

(** The places from [lo] on, below [hi]. *)
Definition count (L : list Z) (lo hi : Z) : Z := Z.of_nat (List.length (List.filter (fun l => (lo <=? l) && (l <? hi)) L)).
Definition top : Z := 256 * 65536.
Lemma count_split L a b c : a <= b <= c -> count L a c = count L a b + count L b c.
Proof.
  intros R. unfold count. induction L as [|x L IH]; [reflexivity|]. cbn [List.filter].
  destruct (Z.leb_spec a x), (Z.ltb_spec x c), (Z.ltb_spec x b), (Z.leb_spec b x); try lia; cbn [andb List.length]; lia.
Qed.
Lemma count_nonneg L a b : 0 <= count L a b.
Proof. unfold count. lia. Qed.
Lemma count_member L a b : In a L -> a < b -> 1 <= count L a b.
Proof.
  intros I R. unfold count. assert (In a (List.filter (fun l => (a <=? l) && (l <? b)) L)) as F.
  { apply filter_In. split; [exact I|]. rewrite Z.leb_refl. apply Z.ltb_lt. exact R. }
  destruct (List.filter _ L); [destruct F|]. cbn [List.length]. lia.
Qed.
Lemma count_le L a b : count L a b <= Z.of_nat (List.length L).
Proof. unfold count. pose proof (List.filter_length_le (fun l => (a <=? l) && (l <? b)) L). lia. Qed.

(** Buses used and bridges still ahead, with the scan at place [d] of bus [b]
    and [c] the last bus given out: nothing increases it. *)
Definition budget (L : list Z) (c b d : Z) : Z := c + count L ((c + 1) * 65536) top + count L d ((b + 1) * 65536).

Section total.
Context (first : Z) (L : list Z) (HL : bridges_at first L).
(** [m] returns, with the bus counter no lower and the budget of the rest of bus [b] kept. *)
Definition scans {A} (m : M A) (b d d' : Z) : Prop :=
  forall w : world (St := St), first_busno (hose w) = first -> b <= current_busno (hose w) -> budget L (current_busno (hose w)) b d <= 255 ->
  exists a w', m w = Some (a, w') /\ first_busno (hose w') = first /\ current_busno (hose w) <= current_busno (hose w') /\
    budget L (current_busno (hose w')) b d' <= budget L (current_busno (hose w)) b d.

Lemma count_next c : 0 <= c < 255 -> count L ((c + 1) * 65536) top = count L ((c + 1) * 65536) ((c + 2) * 65536) + count L ((c + 2) * 65536) top.
Proof. intros. apply count_split. unfold top. lia. Qed.

Lemma config_device_scans scan b k : 0 <= b -> 0 <= k < 255 ->
  (forall c, b < c <= 255 -> scans (scan c) c (c * 65536) ((c + 1) * 65536)) ->
  scans (pciauto_config_device cfg_addr cfg_data scan (b * 65536 + k * 256)) b (b * 65536 + k * 256) (b * 65536 + (k + 1) * 256).
Proof.
  intros Hb Hk Hs w Hw Hc Bd. set (d := b * 65536 + k * 256) in *.
  pose proof (count_nonneg L ((current_busno (hose w) + 1) * 65536) top) as N1.
  pose proof (count_nonneg L d ((b + 1) * 65536)) as N2. unfold budget in Bd.
  assert (count L d ((b + 1) * 65536) = count L d (b * 65536 + (k + 1) * 256) + count L (b * 65536 + (k + 1) * 256) ((b + 1) * 65536)) as Ed
    by (apply count_split; lia).
  pose proof (count_nonneg L d (b * 65536 + (k + 1) * 256)) as N3.
  pose proof (count_nonneg L (b * 65536 + (k + 1) * 256) ((b + 1) * 65536)) as N4.
  unfold pciauto_config_device.
  destruct (returns_read 2 d PCI_CLASS_DEVICE w) as (class & w0 & E0 & C0). injection C0 as W0 C0.
  unfold read_word. rewrite (bind_run _ _ _ _ _ E0). erewrite bind_run by reflexivity. cbv zeta.
  assert (forall r : M Z, returns r -> exists a w', r w0 = Some (a, w') /\ first_busno (hose w') = first /\ current_busno (hose w) <= current_busno (hose w') /\
    budget L (current_busno (hose w')) b (b * 65536 + (k + 1) * 256) <= budget L (current_busno (hose w)) b d) as Plain.
  { intros r Hr. destruct (Hr w0) as (a & w1 & E1 & C1). injection C1 as W1 C1. exists a, w1. rewrite C1, C0. unfold budget.
    split_and!; [exact E1|congruence|lia|lia]. }
  assert (is_bridge class -> 1 <= count L d (b * 65536 + (k + 1) * 256)) as In1.
  { intros Bc. apply count_member; [|lia]. pose proof (HL _ _ _ _ Hw E0 Bc) as I. unfold d in I.
    rewrite (proj1 (place_id b k ltac:(lia) ltac:(lia))) in I. exact I. }
  pose proof returns_setup_device as RS.
  destruct (class =? PCI_CLASS_PROCESSOR_POWERPC); [apply Plain; returns_tac|].
  destruct (Z.eqb_spec class PCI_CLASS_BRIDGE_PCI) as [Ec|_].
  { specialize (In1 (or_introl Ec)). set (c := current_busno (hose w)) in *.
    destruct w0 as [h0 st0 lg0]. cbn [hose] in *.
    assert (exists v, bump_busno (World h0 st0 lg0) = Some (c + 1, v) /\ first_busno (hose v) = first /\ current_busno (hose v) = c + 1) as (v0 & B0 & Wv & Cv)
      by (exists (World (set_current h0 (current_busno h0 + 1)) st0 lg0); rewrite <- C0; split; [|split; [cbn; congruence|]]; reflexivity).
    rewrite (bind_run _ _ _ _ _ B0).
    destruct (RS d 2%nat (pci_mem h0) (pci_prefetch h0) (pci_io h0) v0) as ([] & v1 & E1 & C1). injection C1 as W1 C1. rewrite (bind_run _ _ _ _ _ E1).
    destruct (returns_prescan d (c + 1) v1) as ([] & v2 & E2 & C2). injection C2 as W2 C2. rewrite (bind_run _ _ _ _ _ E2).
    pose proof (count_next c ltac:(lia)) as Nx.
    replace ((c + 2) * 65536) with ((c + 1 + 1) * 65536) in Nx by lia.
    destruct (Hs (c + 1) ltac:(lia) v2) as (n & v3 & E3 & W3 & C3 & B3).
    { congruence. }
    { lia. }
    { unfold budget. rewrite C2, C1, Cv. lia. }
    rewrite (bind_run _ _ _ _ _ E3).
    destruct (returns_postscan d (Z.max n (PCI_BUS d)) v3) as ([] & v4 & E4 & C4). injection C4 as W4 C4. rewrite (bind_run _ _ _ _ _ E4).
    exists (current_busno (hose v4)), v4. split; [reflexivity|]. split; [congruence|]. unfold budget in *. rewrite C2, C1, Cv in *. rewrite C4.
    pose proof (count_nonneg L ((c + 1 + 1) * 65536) ((c + 1 + 1) * 65536)). lia. }
  destruct (class =? PCI_CLASS_STORAGE_IDE); [apply Plain; returns_tac|].
  destruct (Z.eqb_spec class PCI_CLASS_BRIDGE_CARDBUS) as [Ec|_]; [|apply Plain; returns_tac].
  specialize (In1 (or_intror Ec)). set (c := current_busno (hose w)) in *. pose proof (count_next c ltac:(lia)) as Nx.
  replace ((c + 2) * 65536) with ((c + 1 + 1) * 65536) in Nx by lia. pose proof (count_nonneg L ((c + 1) * 65536) ((c + 1 + 1) * 65536)).
  destruct (RS d 0%nat (pci_mem (hose w0)) (pci_prefetch (hose w0)) (pci_io (hose w0)) w0) as ([] & v1 & E1 & C1). injection C1 as W1 C1.
  rewrite (bind_run _ _ _ _ _ E1). do 2 eexists. split; [reflexivity|]. split; [cbn; congruence|]. cbn [hose current_busno set_current]. unfold budget.
  rewrite C1, C0. lia.
Qed.

Lemma scan_devs_scans scan b n k fm sb : 0 <= b -> 0 <= k -> k + Z.of_nat n = 255 ->
  (forall c, b < c <= 255 -> scans (scan c) c (c * 65536) ((c + 1) * 65536)) ->
  scans (scan_devs cfg_addr cfg_data scan n (b * 65536 + k * 256) fm sb) b (b * 65536 + k * 256) ((b + 1) * 65536).
Proof.
  intros Hb Hk Hn Hs. revert k fm sb Hk Hn. induction n as [|n IH]; intros k fm sb Hk Hn w Hw Hc Bd.
  { exists sb, w. split; [reflexivity|]. split; [exact Hw|]. split; [lia|]. unfold budget.
    rewrite (count_split L (b * 65536 + k * 256) ((b + 1) * 65536) ((b + 1) * 65536)) by lia.
    pose proof (count_nonneg L (b * 65536 + k * 256) ((b + 1) * 65536)). lia. }
  cbn [scan_devs]. erewrite bind_run by reflexivity. set (d := b * 65536 + k * 256) in *.
  change (PCI_BDF 0 0 1) with 256. replace (d + 256) with (b * 65536 + (k + 1) * 256) by lia.
  assert (forall c, budget L c b (b * 65536 + (k + 1) * 256) <= budget L c b d) as Bk.
  { intros c. unfold budget. rewrite (count_split L d (b * 65536 + (k + 1) * 256) ((b + 1) * 65536)) by lia.
    pose proof (count_nonneg L d (b * 65536 + (k + 1) * 256)). lia. }
  assert (forall fm sb (w0 : world (St := St)), first_busno (hose w0) = first -> current_busno (hose w) <= current_busno (hose w0) ->
    budget L (current_busno (hose w0)) b (b * 65536 + (k + 1) * 256) <= budget L (current_busno (hose w)) b d ->
    exists a w', scan_devs cfg_addr cfg_data scan n (b * 65536 + (k + 1) * 256) fm sb w0 = Some (a, w') /\
      first_busno (hose w') = first /\ current_busno (hose w) <= current_busno (hose w') /\ budget L (current_busno (hose w')) b ((b + 1) * 65536) <= budget L (current_busno (hose w)) b d) as Next.
  { intros fm' sb' w0 W0 C0 B0. destruct (IH (k + 1) fm' sb' ltac:(lia) ltac:(lia) w0) as (a & w' & E & W & C & B); [exact W0|lia|lia|].
    exists a, w'. split_and!; [exact E|exact W|lia|lia]. }
  assert (forall fm sb (w0 : world (St := St)), busno w0 = busno w ->
    exists a w', scan_devs cfg_addr cfg_data scan n (b * 65536 + (k + 1) * 256) fm sb w0 = Some (a, w') /\
      first_busno (hose w') = first /\ current_busno (hose w) <= current_busno (hose w') /\ budget L (current_busno (hose w')) b ((b + 1) * 65536) <= budget L (current_busno (hose w)) b d) as Same.
  { intros fm' sb' w0 C0. injection C0 as W0 C0. apply Next; [congruence|rewrite C0; lia|rewrite C0; apply Bk]. }
  destruct (pci_skip_dev _ _); [apply Same; reflexivity|]. destruct (_ && _); [apply Same; reflexivity|].
  destruct (returns_read 1 d PCI_HEADER_TYPE w) as (ht & w0 & E0 & C0). unfold read_byte. rewrite (bind_run _ _ _ _ _ E0).
  destruct (returns_read 2 d PCI_VENDOR_ID w0) as (v & w1 & E1 & C1). unfold read_word. rewrite (bind_run _ _ _ _ _ E1).
  destruct (_ || _); [apply Same; congruence|].
  destruct (returns_read 2 d PCI_DEVICE_ID w1) as (dv & w2 & E2 & C2). rewrite (bind_run _ _ _ _ _ E2).
  destruct (returns_read 2 d PCI_CLASS_DEVICE w2) as (cl & w3 & E3 & C3). rewrite (bind_run _ _ _ _ _ E3).
  assert (busno w3 = busno w) as C by congruence. pose proof C as [= W C'].
  destruct (pci_find_config _ _ _ _ _ _ _) as [e|].
  - destruct (returns_entry e d w3) as ([] & w4 & E4 & C4). rewrite (bind_run _ _ _ _ _ E4). erewrite bind_run by reflexivity.
    apply Same. congruence.
  - destruct (config_device_scans scan b k Hb ltac:(lia) Hs w3) as (m & w4 & E4 & W4 & C4 & B4); [congruence|lia|rewrite C'; exact Bd|].
    fold d in E4, B4. rewrite (bind_run _ _ _ _ _ E4). apply Next; [exact W4|rewrite <- C'; assumption..].
Qed.

Lemma scan_bus_scans fuel b : 0 <= b <= 255 -> 256 - b <= Z.of_nat fuel ->
  scans (pci_hose_scan_bus cfg_addr cfg_data fuel b) b (b * 65536) ((b + 1) * 65536).
Proof.
  revert b. induction fuel as [|fuel IH]; intros b Hb Hf; [lia|]. cbn [pci_hose_scan_bus].
  rewrite PCI_BDF_sum by lia. replace (b * 65536 + 0 * 2048 + 0 * 256) with (b * 65536 + 0 * 256) by lia.
  replace (b * 65536) with (b * 65536 + 0 * 256) at 2 by lia.
  apply scan_devs_scans; [lia|lia|reflexivity|]. intros c Hc. apply IH; lia.
Qed.
End total.

Lemma picks_bus l h : let h' := fold_left (fun h i => pick (regions h) i h) l h in
  first_busno h' = first_busno h /\ current_busno h' = current_busno h.
Proof.
  revert h. induction l as [|i l IH]; intros h; cbn; [auto|]. destruct (IH (pick (regions h) i h)) as [-> ->].
  unfold pick. repeat case_match; auto.
Qed.
Lemma config_init_first h : first_busno (pciauto_config_init h) = first_busno h.
Proof. unfold pciauto_config_init. cbv zeta. etransitivity; [apply picks_bus|reflexivity]. Qed.
Lemma config_init_current h : current_busno (pciauto_config_init h) = current_busno h.
Proof. unfold pciauto_config_init. cbv zeta. etransitivity; [apply picks_bus|reflexivity]. Qed.

(** C29: the scan returns, though it calls itself for every bridge it finds and numbers
    the buses from what the devices answer: if [L] are the places where a bridge
    answers, and there are bus numbers left for them, fuel 256 is enough, and no more buses are
    numbered than there are bridges. *)
Theorem pci_scan_returns fuel L (w : world (St := St)) :
  let start := Z.max (first_busno (hose w)) (current_busno (hose w)) in
  bridges_at (first_busno (hose w)) L -> 0 <= start -> start + Z.of_nat (List.length L) <= 255 -> (256 <= fuel)%nat ->
  exists n w', pci_hose_scan cfg_addr cfg_data fuel w = Some (n, w') /\
    start <= current_busno (hose w') <= start + Z.of_nat (List.length L).
Proof.
  intros start HL Hs Hl Hf. unfold pci_hose_scan. erewrite bind_run by reflexivity. cbv zeta.
  set (h := if _ <? _ then _ else _). assert (current_busno h = start) as Eh.
  { unfold h, start. destruct (Z.ltb_spec (current_busno (hose w)) (first_busno (hose w))); cbn; lia. }
  erewrite bind_run by reflexivity. rewrite Eh.
  assert (budget L start start (start * 65536) <= start + Z.of_nat (List.length L)) as B.
  { pose proof (count_le L (start * 65536) top). unfold budget.
    rewrite (count_split L (start * 65536) ((start + 1) * 65536) top) in H0 by (unfold top; lia). lia. }
  destruct (scan_bus_scans _ L HL fuel start ltac:(lia) ltac:(lia) (World (pciauto_config_init h) (machine w) (log w)))
    as (n & w' & E & _ & C & B'); cbn [hose]; rewrite ?config_init_first, ?config_init_current, ?Eh in *; [|lia|lia|].
  { unfold h. destruct (_ <? _); reflexivity. }
  cbn [hose] in C, B'. rewrite config_init_current, Eh in C, B'.
  exists n, w'. split; [exact E|]. split; [exact C|]. unfold budget at 1 in B'.
  pose proof (count_nonneg L ((current_busno (hose w') + 1) * 65536) top).
  pose proof (count_nonneg L ((start + 1) * 65536) ((start + 1) * 65536)). lia.
Qed.
End keeps.

(** ** Address translation on this board *)

Definition board_hoses : list pci_controller := pci_register_hose [] local_hose.

Lemma board_hose_found dev : pci_bus_to_hose board_hoses (PCI_BUS dev) = Some local_hose.
Proof.
  unfold PCI_BUS. change 0xff with 255. rewrite land_255. pose proof (u8_range (dev .>> 16)). cbn.
  rewrite (proj2 (Z.leb_le 0 _)), (proj2 (Z.leb_le _ 0xff)) by lia. reflexivity.
Qed.

Ltac board_lookup :=
  unfold pci_phys_to_mem, pci_mem_to_phys, pci_phys_to_io, pci_io_to_phys; rewrite board_hose_found;
  unfold pci_hose_phys_to_bus, pci_hose_bus_to_phys, two_pass; cbn [regions local_hose];
  cbn [board_regions __pci_hose_phys_to_bus __pci_hose_bus_to_phys];
  repeat match goal with
  | |- context [region_serves ?f ?s ?r] => let v := eval vm_compute in (region_serves f s r) in change (region_serves f s r) with v
  end;
  cbn [andb]; unfold in_region;
  repeat match goal with
  | |- context [bus_start (pci_set_region ?a ?b ?c ?d)] => let v := eval vm_compute in a in change (bus_start (pci_set_region a b c d)) with v
  | |- context [phys_start (pci_set_region ?a ?b ?c ?d)] => let v := eval vm_compute in b in change (phys_start (pci_set_region a b c d)) with v
  | |- context [size (pci_set_region ?a ?b ?c ?d)] => let v := eval vm_compute in c in change (size (pci_set_region a b c d)) with v
  end;
  change (PCI_REGION_MEM .& PCI_REGION_MEM =? PCI_REGION_MEM) with true;
  change (PCI_REGION_IO .& PCI_REGION_MEM =? PCI_REGION_MEM) with true; cbn iota.
Ltac board_tac := board_lookup; unfold u32, wrap; change (2 ^ 32) with 4294967296;
  repeat case_match; simpl; rewrite ?andb_true_iff, ?andb_false_iff, ?Z.leb_le, ?Z.ltb_lt, ?Z.leb_gt, ?Z.ltb_ge in *;
  Z.div_mod_to_equations; lia.

(** CPU and bus addresses translate into each other and back on the
    board's table, over the windows of its regions: PCI memory, main
    memory as the devices see it, whose last byte is left out, and I/O. *)
Theorem board_translation_roundtrip dev :
  (forall p, 0xc0000000 <= p < 0xff000000 ->
     pci_phys_to_mem board_hoses dev p = p - 0xc0000000 /\ pci_mem_to_phys board_hoses dev (p - 0xc0000000) = p) /\
  (forall p, 0 <= p < 0x7fffffff ->
     pci_phys_to_mem board_hoses dev p = 0x80000000 + p /\ pci_mem_to_phys board_hoses dev (0x80000000 + p) = p) /\
  (forall b, 0x1000 <= b < 0x1000000 ->
     pci_io_to_phys board_hoses dev b = 0x81000000 + (b - 0x1000) /\ pci_phys_to_io board_hoses dev (0x81000000 + (b - 0x1000)) = b) /\
  (forall b, 0 <= b < 0x1000 ->
     pci_io_to_phys board_hoses dev b = 0x80000000 + b /\ pci_phys_to_io board_hoses dev (0x80000000 + b) = b).
Proof.
  split_and!; intros x Hx; split.
  all: board_tac.
Qed.

(** The two I/O regions overlap on the bus: an ISA port beyond the first 4 KB
    translates to the bus and back to another address of the CPU. *)
Example isa_io_not_inverse :
  pci_phys_to_io board_hoses 0 0x80001000 = 0x1000 /\ pci_io_to_phys board_hoses 0 0x1000 = 0x81000000.
Proof. split; reflexivity. Qed.
(** The last byte of main memory is in no region. *)
Example last_byte_unmapped : pci_phys_to_mem board_hoses 0 0x7fffffff = 0.
Proof. reflexivity. Qed.

(** ** The bridge registers on the wire *)

(** The word written to the address register names bus, device, function and register. *)
Lemma select_decodes h dev off : first_busno h = 0 -> 0 <= off < 256 ->
  select h dev off .& 0xffff00 = place dev /\ select h dev off .& 0xfc = off .& 0xfc.
Proof.
  intros Hf Ho. unfold select. rewrite Hf, Z.sub_0_r. fold (place dev).
  assert (exists k, 0 <= k < 65536 /\ place dev = k .<< 8) as (k & Hk & ->).
  { unfold place, PCI_BUS, PCI_DEV, PCI_FUNC. change 0xff with (Z.ones 8). change 0x1f with (Z.ones 5). change 0x7 with (Z.ones 3).
    rewrite !Z.land_ones by lia. change (2 ^ 8) with 256. change (2 ^ 5) with 32. change (2 ^ 3) with 8.
    pose proof (Z.mod_pos_bound (dev .>> 16) 256 ltac:(lia)). pose proof (Z.mod_pos_bound (dev .>> 11) 32 ltac:(lia)).
    pose proof (Z.mod_pos_bound (dev .>> 8) 8 ltac:(lia)).
    exists ((dev .>> 16) mod 256 * 256 + (dev .>> 11) mod 32 * 8 + (dev .>> 8) mod 8). split; [lia|].
    rewrite PCI_BDF_sum, Z.shiftl_mul_pow2 by lia. change (2 ^ 8) with 256. lia. }
  change 0xfc with (Z.ones 6 .<< 2). change 0xffff00 with (Z.ones 16 .<< 8). rewrite (land_field off) by lia.
  pose proof (Z.mod_pos_bound (off / 2 ^ 2) (2 ^ 6) ltac:(lia)) as Hm. change (2 ^ 6) with 64 in *. change (2 ^ 2) with 4 in *.
  rewrite (lor_add_disjoint k _ 8) by (change (2 ^ 8) with 256; lia).
  rewrite Z.lor_comm. change 0x80000000 with (1 .<< 31). change (2 ^ 8) with 256.
  rewrite (lor_add_disjoint 1 _ 31) by (change (2 ^ 31) with 2147483648; lia). change (2 ^ 31) with 2147483648.
  rewrite u32_small, !land_field, Z.shiftl_mul_pow2 by lia.
  change (2 ^ 8) with 256. change (2 ^ 16) with 65536. change (2 ^ 6) with 64. change (2 ^ 2) with 4.
  split; Z.div_mod_to_equations; lia.
Qed.

(** Writing a byte or a word of a register through a double word changes nothing else. *)
Lemma via_roundtrip mask val_mask bits offset v val32 : (mask = 3 /\ bits = 8 \/ mask = 2 /\ bits = 16) ->
  val_mask = Z.ones bits -> 0 <= offset -> is_u32 val32 ->
  let s := via_shift mask offset in
  wrap bits (via_extract mask offset (via_insert mask val_mask offset v val32)) = wrap bits v /\
  forall i, 0 <= i < 32 -> (i < s \/ s + bits <= i) ->
    Z.testbit (via_insert mask val_mask offset v val32) i = Z.testbit val32 i.
Proof.
  intros Hm -> Ho Hv s.
  assert (0 <= s /\ s + bits <= 32 /\ 0 < bits) as (S1 & S2 & B).
  { unfold s, via_shift. pose proof (land_le mask offset ltac:(lia)). rewrite (Z.land_comm mask) in H.
    destruct Hm as [[-> ->]|[-> ->]]; [lia|].
    change 2 with (Z.ones 1 .<< 1) in *. rewrite land_field in * by lia. change (2 ^ 1) with 2 in *.
    pose proof (Z.mod_pos_bound (offset / 2) 2 ltac:(lia)). lia. }
  unfold via_extract, via_insert. fold s. unfold not32, u32. split.
  - by_bits i. rewrite !wrap_spec by lia. destruct (Z.ltb_spec i bits); [|rewrite !andb_false_r; reflexivity].
    rewrite Z.shiftr_spec, Z.lor_spec, Z.land_spec, !wrap_spec, Z.lnot_spec, !wrap_spec, !Z.shiftl_spec, Z.land_spec by lia.
    rewrite (Z.ones_spec_low bits) by lia. rewrite (proj2 (Z.ltb_lt (i + s) 32)) by lia.
    replace (i + s - s) with i by lia. btauto.
  - intros i Hi Hout. rewrite Z.lor_spec, Z.land_spec, !wrap_spec, Z.lnot_spec, !wrap_spec, !Z.shiftl_spec, Z.land_spec by lia.
    rewrite (proj2 (Z.ltb_lt i 32)) by lia. destruct Hout.
    + rewrite !(Z.testbit_neg_r _ (i - s)) by lia. btauto.
    + rewrite (Z.ones_spec_high bits) by lia. btauto.
Qed.

(** ** A small bus, for the examples and the witnesses

    Its devices only answer: the state is the address register.  A bridge in
    slot 1 with a network card of 1 MB and 64 ports behind it, a disk
    controller with 16 ports in slot 2. *)

Record card := Card { c_place : Z; c_regs : list (Z * Z) }.
Definition small_bus : list card :=
  [ Card (PCI_BDF 0 1 0) [(0x00, 0x00261011); (0x08, 0x06040000)];
    Card (PCI_BDF 1 4 0) [(0x00, 0x12298086); (0x08, 0x02000000); (0x10, 0xfff00000); (0x14, 0xffffffc1)];
    Card (PCI_BDF 0 2 0) [(0x00, 0x000f1000); (0x08, 0x01000000); (0x10, 0xfffffff1); (0x14, 0xffffff00)] ].
(** Registers a card does not name read zero, cards that are not there all ones. *)
Definition bus_reg (cs : list card) (latch : Z) : Z :=
  match List.find (fun c => c_place c =? latch .& 0xffff00) cs with
  | None => 0xffffffff
  | Some c => match List.find (fun r => fst r =? latch .& 0xfc) (c_regs c) with None => 0 | Some r => snd r end
  end.
#[export] Instance small_io : PciIO Z := {
  io_out w port v latch := if port =? MPC106_REG_ADDR then v else latch;
  io_in w port latch := (bus_reg small_bus latch .>> (8 * (port - MPC106_REG_DATA)), latch)
}.
Abbreviation small_scan fuel := (pci_hose_scan (St := Z) MPC106_REG_ADDR MPC106_REG_DATA fuel (World local_hose 0 [])).
Definition granted (l : list event) : list event :=
  List.filter (fun e => match e with Granted _ _ _ => true | Wrote _ _ _ _ => false end) l.

Example small_scan_result :
  (match small_scan 3 with Some (n, w) => Some (n, granted (log w)) | None => None end) =
  Some (1, [Granted 1 0x100000 0x100000; Granted 3 0x1000 0x40; Granted 3 0x2000 0x10; Granted 1 0x200000 0x100]).
Proof. vm_compute. reflexivity. Qed.
(** Too little fuel for the bridge. *)
Example small_scan_fuel : small_scan 1 = None.
Proof. vm_compute. reflexivity. Qed.
(** A base register of 64 bits that asks for 4 GB: the size is truncated to
    zero, address zero is handed out, and what was handed out is free again. *)
Example wide_bar_grants_zero :
  mem_bar_size ((0xffffffff .<< 32) .| 0xc) = 0 /\
  pciauto_region_allocate (Some 0%nat) 0 (World (Hose 0 0 [Region 0 0 0x3f000000 0 0x300000] [] (Some 0%nat) None None 0) 0 []) =
    Some (Some 0, World (Hose 0 0 [Region 0 0 0x3f000000 0 0] [] (Some 0%nat) None None 0) 0 [Granted 0 0 0]).
Proof. split; reflexivity. Qed.

Definition sizes_okb (l : list event) : bool :=
  forallb (fun e => match e with Granted _ _ s => (0 <? s) && (s <=? 2 ^ 29) | Wrote _ _ _ _ => true end) l.
Lemma sizes_okb_ok l : sizes_okb l = true -> sizes_ok l.
Proof.
  intros E. apply List.Forall_forall. intros e I. unfold sizes_okb in E. rewrite forallb_forall in E. specialize (E e I).
  destruct e; [|exact Logic.I]. apply andb_true_iff in E as [A B]. apply Z.ltb_lt in A. apply Z.leb_le in B. lia.
Qed.
Lemma board_regions_fit : Forall region_fits board_regions.
Proof.
  apply List.Forall_forall. intros r I K. cbn in I. unfold auto_kind in K.
  repeat destruct I as [<-|I]; try contradiction; vm_compute; vm_compute in K; intuition discriminate.
Qed.

Lemma small_scan_sizes : match small_scan 3 with Some (_, w) => sizes_okb (log w) | None => false end = true.
Proof. vm_compute. reflexivity. Qed.


(** The world in which the scan meets the bridge of the small bus. *)
Definition bridge_world : world (St := Z) := World (pciauto_config_init local_hose) 0 [].
Abbreviation bridge_config :=
  (pciauto_config_device MPC106_REG_ADDR MPC106_REG_DATA (pci_hose_scan_bus MPC106_REG_ADDR MPC106_REG_DATA 2) (PCI_BDF 0 1 0) bridge_world).
Lemma bridge_world_fits : fits (hose bridge_world).
Proof. apply config_init_ok; [reflexivity|exact board_regions_fit]. Qed.
Lemma bridge_config_sizes : match bridge_config with Some (_, w) => sizes_okb (log w) | None => false end = true.
Proof. vm_compute. reflexivity. Qed.
Abbreviation bridge_class := (read_config MPC106_REG_ADDR MPC106_REG_DATA 2 (PCI_BDF 0 1 0) PCI_CLASS_DEVICE bridge_world).
Lemma bridge_class_value : (match bridge_class with Some (c, _) => c =? PCI_CLASS_BRIDGE_PCI | None => false end) = true.
Proof. vm_compute. reflexivity. Qed.
Lemma bridge_world_mem : pci_mem (hose bridge_world) = Some 1%nat.
Proof. vm_compute. reflexivity. Qed.

Lemma small_bridges : bridges_at MPC106_REG_ADDR MPC106_REG_DATA (St := Z) 0 [PCI_BDF 0 1 0].
Proof.
  intros dev w w' class Hf E B. unfold read_config in E. cbn [io_out io_in small_io] in E. rewrite Z.eqb_refl in E.
  destruct (select_decodes (hose w) dev PCI_CLASS_DEVICE Hf) as [D1 D2]; [unfold PCI_CLASS_DEVICE; lia|].
  injection E as Ec _. unfold bus_reg in Ec. rewrite D1, D2 in Ec. cbn [small_bus List.find c_place] in Ec.
  destruct (Z.eqb_spec (PCI_BDF 0 1 0) (place dev)) as [<-|_]; [left; reflexivity|exfalso].
  destruct (PCI_BDF 1 4 0 =? place dev); [|destruct (PCI_BDF 0 2 0 =? place dev)];
    vm_compute in Ec; subst class; destruct B; discriminate.
Qed.
Lemma pci_scan_returns_witness : exists n w', small_scan 256 = Some (n, w') /\ 0 <= current_busno (hose w') <= 1.
Proof.
  apply (pci_scan_returns MPC106_REG_ADDR MPC106_REG_DATA 256 [PCI_BDF 0 1 0] (World local_hose 0 [])); [exact small_bridges|cbn; lia..].
Defined.
