(* ===== verification/Dcsrom.v ===== *)
(** * The EEPROM of the network controller (board/eltec/bab7xx/dc_srom.c)

    A serial EEPROM of 64 words on three lines that the driver moves one by one
    through a register of the DEC21143.  The accesses are those of the PCI
    bus; the chip is an automaton on the lines, its place behind the register a typeclass. *)

From S2P Require Import Prelude Pci.

Definition SROM_RD : Z := 0x00004000.
Definition SROM_WR : Z := 0x00002000.
Definition SROM_SR : Z := 0x00000800.
Definition DT_IN : Z := 0x00000004.
Definition DT_CLK : Z := 0x00000002.
Definition DT_CS : Z := 0x00000001.

(** le16_to_cpu on this big-endian processor. *)
Definition swab16 (x : Z) : Z := ((u16 x .& 0x00ff) .<< 8) .| ((u16 x .& 0xff00) .>> 8).

(** ** The driver *)

Section driver.
Context {St : Type} `{PciIO St}.

Definition sendto_srom (command addr : Z) (s : St) : St := io_out 4 addr (u32 command) s.
Definition getfrom_srom (addr : Z) (s : St) : Z * St := let '(v, s) := io_in 4 addr s in (s32 v, s).

Definition srom_latch (command addr : Z) (s : St) : St :=
  let s := sendto_srom command addr s in
  let s := sendto_srom (command .| DT_CLK) addr s in
  sendto_srom command addr s.
Definition srom_command_rd (command addr : Z) (s : St) : St :=
  let s := srom_latch command addr s in
  let s := srom_latch command addr s in
  srom_latch ((command .& 0x0000ff00) .| DT_CS) addr s.
Definition srom_command_wr (command addr : Z) (s : St) : St :=
  let s := srom_latch command addr s in
  let s := srom_latch ((command .& 0x0000ff00) .| DT_CS) addr s in
  srom_latch command addr s.

(** The sign bit of [a] goes first. *)
Fixpoint address_bits (n : nat) (command addr a : Z) (s : St) : St :=
  match n with
  | O => s
  | S n => address_bits n command addr (s8 (a .<< 1)) (srom_latch (command .| (if a <? 0 then DT_IN else 0)) addr s)
  end.
Definition srom_address (command addr offset : Z) (s : St) : St :=
  snd (getfrom_srom addr (address_bits 6 command addr (s8 (u8 (offset .<< 2))) s)).

Fixpoint read_bits (n : nat) (command addr word : Z) (s : St) : Z * St :=
  match n with
  | O => (word, s)
  | S n =>
      let s := sendto_srom (command .| DT_CLK) addr s in
      let '(tmp, s) := getfrom_srom addr s in
      let s := sendto_srom command addr s in
      read_bits n command addr (s16 ((word .<< 1) .| ((tmp .>> 3) .& 0x01))) s
  end.
Definition srom_data_rd (command addr : Z) (s : St) : Z * St :=
  let '(word, s) := read_bits 16 command addr 0 s in
  (word, sendto_srom (command .& 0x0000ff00) addr s).

Fixpoint write_bits (n : nat) (command addr longVal : Z) (s : St) : St :=
  match n with
  | O => s
  | S n =>
      let tmp := (longVal .& 0x8000) .>> 13 in
      let s := sendto_srom (tmp .| command) addr s in
      let s := sendto_srom (tmp .| command .| DT_CLK) addr s in
      let s := sendto_srom (tmp .| command) addr s in
      write_bits n command addr (u32 (longVal .<< 1)) s
  end.
(** do ... while (--tmp): is the chip ready at one of [n] looks? *)
Fixpoint wait_ready (n : nat) (addr : Z) (s : St) : bool * St :=
  match n with
  | O => (false, s)
  | S n =>
      let '(v, s) := getfrom_srom addr s in
      if v .& 0x8 =? 0x8 then (true, s) else wait_ready n addr s
  end.
Definition srom_data_wr (command addr val : Z) (s : St) : Z * St :=
  let s := write_bits 16 command addr (swab16 val) s in
  let s := sendto_srom (command .& 0x0000ff00) addr s in
  let s := sendto_srom command addr s in
  let '(ready, s) := wait_ready 100 addr s in
  (if ready then 0 else -1, s).

Definition srom_rd (addr offset : Z) (s : St) : Z * St :=
  let s := sendto_srom (SROM_RD .| SROM_SR) addr s in
  let s := srom_latch (SROM_RD .| SROM_SR .| DT_CS) addr s in
  let s := srom_command_rd (SROM_RD .| SROM_SR .| DT_IN .| DT_CS) addr s in
  let s := srom_address (SROM_RD .| SROM_SR .| DT_CS) addr offset s in
  srom_data_rd (SROM_RD .| SROM_SR .| DT_CS) addr s.

Fixpoint latch_times (n : nat) (command addr : Z) (s : St) : St :=
  match n with O => s | S n => latch_times n command addr (srom_latch command addr s) end.
Definition srom_wr_enable (addr : Z) (s : St) : St :=
  let s := sendto_srom (SROM_WR .| SROM_SR) addr s in
  let s := srom_latch (SROM_WR .| SROM_SR .| DT_CS) addr s in
  let s := srom_latch (SROM_WR .| SROM_SR .| DT_IN .| DT_CS) addr s in
  let s := srom_latch (SROM_WR .| SROM_SR .| DT_CS) addr s in
  let s := srom_latch (SROM_WR .| SROM_SR .| DT_CS) addr s in
  latch_times 6 (SROM_WR .| SROM_SR .| DT_IN .| DT_CS) addr s.
Definition srom_wr (addr offset val : Z) (s : St) : Z * St :=
  let s := srom_wr_enable addr s in
  let s := sendto_srom (SROM_WR .| SROM_SR) addr s in
  let s := srom_latch (SROM_WR .| SROM_SR .| DT_CS) addr s in
  let s := srom_command_wr (SROM_WR .| SROM_SR .| DT_IN .| DT_CS) addr s in
  let s := srom_address (SROM_WR .| SROM_SR .| DT_CS) addr offset s in
  srom_data_wr (SROM_WR .| SROM_SR .| DT_CS) addr val s.

(** [n] words from [offset] on. *)
Fixpoint load_words (n : nat) (addr offset : Z) (s : St) : list Z * St :=
  match n with
  | O => ([], s)
  | S n =>
      let '(tmp, s) := srom_rd addr offset s in
      let '(l, s) := load_words n addr (offset + 1) s in
      (swab16 tmp :: l, s)
  end.
Fixpoint store_words (src : list Z) (addr offset : Z) (s : St) : Z * St :=
  match src with
  | [] => (0, s)
  | v :: src =>
      let '(r, s) := srom_wr addr offset v s in
      if r =? -1 then (-1, s) else store_words src addr (offset + 1) s
  end.

(** ** The controller on the PCI bus *)

Definition lift {A} (f : St -> A * St) : M (St := St) A := fun w =>
  let '(a, s) := f (machine w) in Some (a, World (hose w) s (log w)).
Definition dc_srom_iobase (cfg_addr cfg_data : Z) : M (St := St) Z :=
  bar ← pci_read_config cfg_addr cfg_data 4 (PCI_BDF 0 14 0) PCI_BASE_ADDRESS_1;
  h ← get_hose;
  mret (u32 (pci_mem_to_phys [h] (PCI_BDF 0 14 0) (u32 (bar .& PCI_BASE_ADDRESS_MEM_MASK)) + 0x48)).
Definition dc_srom_load (cfg_addr cfg_data : Z) : M (St := St) (list Z) :=
  addr ← dc_srom_iobase cfg_addr cfg_data; lift (load_words 64 addr 0).
(** [src] is the array of 64 shorts. *)
Definition dc_srom_store (cfg_addr cfg_data : Z) (src : list Z) : M (St := St) Z :=
  addr ← dc_srom_iobase cfg_addr cfg_data; lift (store_words (take 64 src) addr 0).
End driver.

(** * The chip

    A Microwire EEPROM of 64 words, as its data sheet tells: while it is selected it
    takes the data line over at every rising clock edge; after a leading one
    come two bits of operation and six of address; a word written goes to the cells when
    the select line falls, and shows on the output line, once selected again, when it is done. *)

Inductive mphase :=
  | Ready
  | Opcode (n : nat) (acc : Z)
  | Output (w : Z) (n : nat)
  | Input (a : Z) (n : nat) (acc : Z)
  | Loaded (a v : Z)
  | Status
  | Ignoring.
Record microwire := Microwire { words : Z -> Z; wen : bool; busy : nat; mph : mphase }.
Definition set_mph (p : mphase) (c : microwire) : microwire := Microwire (words c) (wen c) (busy c) p.

(** Two bits of operation, six of address. *)
Definition decode_op (v : Z) (c : microwire) : microwire :=
  let op := v .>> 6 in
  let a := v .& 0x3f in
  if op =? 2 then set_mph (Output (words c a) 0) c
  else if op =? 1 then set_mph (Input a 0 0) c
  else if (op =? 0) && (a .>> 4 =? 3) then Microwire (words c) true (busy c) Ignoring
  else if (op =? 0) && (a .>> 4 =? 0) then Microwire (words c) false (busy c) Ignoring
  else set_mph Ignoring c.
Definition clock (b : bool) (c : microwire) : microwire :=
  match mph c with
  | Ready => if b then set_mph (match busy c with O => Opcode 0 0 | S _ => Ignoring end) c else c
  | Opcode n acc =>
      let acc := 2 * acc + Z.b2z b in
      if (n =? 7)%nat then decode_op acc c else set_mph (Opcode (S n) acc) c
  | Output w n => set_mph (Output w (S n)) c
  | Input a n acc =>
      let acc := 2 * acc + Z.b2z b in
      if (n =? 15)%nat then set_mph (Loaded a acc) c else set_mph (Input a (S n) acc) c
  | Loaded _ _ | Status | Ignoring => c
  end.

Section chip.
(** [cycle] looks at the output line see a write going on. *)
Context (cycle : nat).

Definition deselect (c : microwire) : microwire :=
  match mph c with
  | Loaded a v =>
      if wen c then Microwire (fun x => if x =? a then v else words c x) (wen c) cycle Status else set_mph Ready c
  | _ => set_mph Ready c
  end.

(** The output line: a zero before the word, the word from its high bit on;
    after a write, ready or not. *)
Definition out_line (c : microwire) : bool :=
  match mph c with
  | Output w O => false
  | Output w n => Z.testbit w (16 - Z.of_nat n)
  | Status => match busy c with O => true | S _ => false end
  | _ => true
  end.
Definition look (c : microwire) : microwire :=
  match mph c with Status => Microwire (words c) (wen c) (pred (busy c)) Status | _ => c end.

Record wires := Wires { cs : bool; clk : bool; chip : microwire }.
(** The register is written. *)
Definition set_wires (v : Z) (x : wires) : wires :=
  let cs' := Z.testbit v 0 in
  let clk' := Z.testbit v 1 in
  let c := chip x in
  let c := if cs x && negb cs' then deselect c else c in
  Wires cs' clk' (if cs' && negb (clk x) && clk' then clock (Z.testbit v 2) c else c).

(** The promise: the chip hangs on the register at [addr]; no access elsewhere moves its lines. *)
Class SromPort (addr : Z) (St : Type) `{PciIO St} := {
  wires_of : St -> wires;
  wires_out s v : Z.testbit v 11 = true -> wires_of (io_out 4 addr v s) = set_wires v (wires_of s);
  wires_in s : Z.testbit (io_in 4 addr s).1 3 = out_line (chip (wires_of s)) /\
    wires_of (io_in 4 addr s).2 = Wires (cs (wires_of s)) (clk (wires_of s)) (look (chip (wires_of s)));
  wires_elsewhere s n port v : port <> addr ->
    wires_of (io_out n port v s) = wires_of s /\ wires_of (io_in n port s).2 = wires_of s
}.
End chip.

(** * Properties *)

Lemma swab16_eq x : swab16 x = u16 x mod 256 * 256 + u16 x / 256.
Proof.
  unfold swab16. pose proof (u16_range x). rewrite land_255. change 0xff00 with (Z.ones 8 .<< 8).
  rewrite land_field by lia. rewrite lor_add_disjoint.
  - rewrite Z.shiftr_div_pow2 by lia. unfold u8, wrap. change (2 ^ 8) with 256. Z.div_mod_to_equations. lia.
  - lia.
  - rewrite Z.shiftr_div_pow2 by lia. change (2 ^ 8) with 256. Z.div_mod_to_equations. lia.
Qed.
Lemma swab16_u16 x : is_u16 (swab16 x).
Proof. rewrite swab16_eq. pose proof (u16_range x). unfold in_word. change (2 ^ 16) with 65536. Z.div_mod_to_equations. lia. Qed.
Lemma swab16_involutive v : is_u16 v -> swab16 (swab16 v) = v.
Proof.
  intros Hv. pose proof (swab16_u16 v) as Hs. unfold in_word in *. change (2 ^ 16) with 65536 in *.
  rewrite (swab16_eq (swab16 v)), (u16_small (swab16 v)), swab16_eq, (u16_small v) by lia.
  Z.div_mod_to_equations. lia.
Qed.
Lemma u16_s16 x : u16 (s16 x) = u16 x.
Proof.
  unfold s16, u16, swrap, wrap. change (2 ^ 16) with 65536. change (2 ^ (16 - 1)) with 32768.
  destruct (Z.ltb_spec (x mod 65536) 32768); Z.div_mod_to_equations; lia.
Qed.
Lemma s16_u16 x y : u16 x = u16 y -> s16 x = s16 y.
Proof. unfold s16, swrap, u16. intros ->. reflexivity. Qed.
Lemma swab16_s16 x : swab16 (s16 x) = swab16 x.
Proof. rewrite !swab16_eq, u16_s16. reflexivity. Qed.

Lemma s32_testbit v i : 0 <= i < 31 -> Z.testbit (s32 v) i = Z.testbit v i.
Proof.
  intros Hi. assert (Z.testbit (wrap 32 v) i = Z.testbit v i) as E
    by (rewrite wrap_spec, (proj2 (Z.ltb_lt i 32)) by lia; apply andb_true_r).
  unfold s32, swrap. destruct (_ <? _); [exact E|]. rewrite <- E.
  replace (wrap 32 v - 2 ^ 32) with (wrap 32 v + (- 2 ^ (32 - i - 1)) * 2 ^ (i + 1)).
  2: { rewrite Z.mul_opp_l, <- Z.pow_add_r by lia. replace (32 - i - 1 + (i + 1)) with 32 by lia. lia. }
  rewrite <- (Z.mod_pow2_bits_low _ (i + 1)), Z.mod_add, Z.mod_pow2_bits_low by lia. reflexivity.
Qed.

(** ** One transfer on the lines *)

Section transfers.
Context (cycle : nat) (addr : Z) {St : Type} `{SromPort cycle addr St}.
Local Abbreviation wires_of s := (wires_of cycle (addr := addr) s).

Definition clocks (l : list bool) (c : microwire) : microwire := fold_left (fun c b => clock b c) l c.
(** Selected, with the clock low. *)
Definition held (s : St) (c : microwire) : Prop := wires_of s = Wires true false c.
(** A word of the driver that selects the chip and leaves the clock low. *)
Definition is_cmd (v : Z) : Prop :=
  0 <= v < 2 ^ 32 /\ Z.testbit v 0 = true /\ Z.testbit v 1 = false /\ Z.testbit v 11 = true.

Lemma wires_sendto v s : 0 <= v < 2 ^ 32 -> Z.testbit v 11 = true -> wires_of (sendto_srom v addr s) = set_wires cycle v (wires_of s).
Proof. intros Hv Hb. unfold sendto_srom. rewrite u32_small by exact Hv. apply wires_out. exact Hb. Qed.
Lemma clk_bits v : is_cmd v -> 0 <= v .| DT_CLK < 2 ^ 32 /\ forall i, 0 <= i -> Z.testbit (v .| DT_CLK) i = Z.testbit v i || (i =? 1).
Proof.
  intros (Hv & _). split; [apply (in_word_lor 32); unfold in_word, DT_CLK; lia|]. intros i Hi.
  rewrite Z.lor_spec. f_equal. unfold DT_CLK. change 2 with (2 ^ 1). rewrite Z.pow2_bits_eqb by lia.
  destruct (Z.eqb_spec 1 i), (Z.eqb_spec i 1); congruence || lia.
Qed.
Lemma high_sendto v s c : is_cmd v -> held s c ->
  wires_of (sendto_srom (v .| DT_CLK) addr s) = Wires true true (clock (Z.testbit v 2) c).
Proof.
  intros Hv E. pose proof (clk_bits v Hv) as [R B]. destruct Hv as (Hr & B0 & B1 & B11).
  rewrite wires_sendto, E by (auto; rewrite B, B11 by lia; reflexivity). unfold set_wires. cbn [cs clk chip].
  rewrite !B, B0, B1 by lia. cbn. rewrite orb_false_r. reflexivity.
Qed.
Lemma low_sendto v s c k : is_cmd v -> wires_of s = Wires true k c -> held (sendto_srom v addr s) c.
Proof.
  intros (Hr & B0 & B1 & B11) E. unfold held. rewrite wires_sendto, E by assumption. unfold set_wires. cbn [cs clk chip].
  rewrite B0, B1. cbn. rewrite !andb_false_r. reflexivity.
Qed.
Lemma latch_clocks v s c : is_cmd v -> held s c -> held (srom_latch v addr s) (clock (Z.testbit v 2) c).
Proof.
  intros Hv E. unfold srom_latch. eapply low_sendto; [exact Hv|]. apply high_sendto; [exact Hv|].
  eapply low_sendto; [exact Hv|exact E].
Qed.
(** The chip is deselected, or selected anew. *)
Lemma off_sendto v s b c : 0 <= v < 2 ^ 32 -> Z.testbit v 11 = true -> Z.testbit v 0 = false -> Z.testbit v 1 = false ->
  wires_of s = Wires b false c -> wires_of (sendto_srom v addr s) = Wires false false (if b then deselect cycle c else c).
Proof.
  intros Hv B11 B0 B1 E. rewrite wires_sendto, E by assumption. unfold set_wires. cbn [cs clk chip]. rewrite B0, B1.
  destruct b; reflexivity.
Qed.
Lemma on_sendto v s c : is_cmd v -> wires_of s = Wires false false c -> held (sendto_srom v addr s) c.
Proof.
  intros (Hr & B0 & B1 & B11) E. unfold held. rewrite wires_sendto, E by assumption. unfold set_wires. cbn [cs clk chip].
  rewrite B0, B1. reflexivity.
Qed.
Lemma get_look s b k c : wires_of s = Wires b k c ->
  Z.testbit (getfrom_srom addr s).1 3 = out_line c /\ wires_of (getfrom_srom addr s).2 = Wires b k (look c).
Proof.
  intros E. unfold getfrom_srom. pose proof (wires_in cycle s) as [B W]. rewrite E in B, W. destruct (io_in 4 addr s) as [v s'].
  cbn [fst snd cs clk chip] in *. split; [|exact W]. rewrite <- B. apply s32_testbit. lia.
Qed.

(** ** Operation and address *)

Lemma cmd_in v (b : bool) : is_cmd v -> Z.testbit v 2 = false ->
  is_cmd (v .| (if b then DT_IN else 0)) /\ Z.testbit (v .| (if b then DT_IN else 0)) 2 = b.
Proof.
  intros (Hr & B0 & B1 & B11) B2. destruct b; [|rewrite Z.lor_0_r; unfold is_cmd; auto].
  unfold is_cmd. rewrite !Z.lor_spec, B0, B1, B2, B11. split_and!; try reflexivity; apply (in_word_lor 32); unfold in_word, DT_IN; lia.
Qed.
Fixpoint sign_bits (n : nat) (a : Z) : list bool :=
  match n with O => [] | S n => (a <? 0) :: sign_bits n (s8 (a .<< 1)) end.
Lemma address_clocks n v a s c : is_cmd v -> Z.testbit v 2 = false -> held s c ->
  held (address_bits n v addr a s) (clocks (sign_bits n a) c).
Proof.
  intros Hv B2. revert a s c. induction n as [|n IH]; intros a s c Hs; simpl; [exact Hs|]. apply IH.
  destruct (cmd_in v (a <? 0) Hv B2) as [Hc Hb]. rewrite <- Hb at 2. apply latch_clocks; assumption.
Qed.
Lemma latch_times_clocks n v s c : is_cmd v -> held s c -> held (latch_times n v addr s) (clocks (replicate n (Z.testbit v 2)) c).
Proof. intros Hv. revert s c. induction n as [|n IH]; intros s c Hs; simpl; [exact Hs|]. apply IH, latch_clocks; assumption. Qed.

Definition bits_value (l : list bool) (acc : Z) : Z := fold_left (fun a b => 2 * a + Z.b2z b) l acc.
Lemma bits_value_acc l acc : bits_value l acc = acc * 2 ^ Z.of_nat (List.length l) + bits_value l 0.
Proof.
  revert acc. induction l as [|b l IH]; intros acc; cbn [bits_value fold_left List.length]; [rewrite Z.mul_1_r; lia|].
  fold (bits_value l (2 * acc + Z.b2z b)). fold (bits_value l (2 * 0 + Z.b2z b)).
  rewrite IH, (IH (2 * 0 + Z.b2z b)), Nat2Z.inj_succ, Z.pow_succ_r by lia. lia.
Qed.
Lemma decode_any v ws wn bz p q : decode_op v (Microwire ws wn bz p) = decode_op v (Microwire ws wn bz q).
Proof. reflexivity. Qed.
Lemma opcode_run l ws wn bz n acc : (n < 8)%nat -> List.length l = (8 - n)%nat ->
  clocks l (Microwire ws wn bz (Opcode n acc)) = decode_op (bits_value l acc) (Microwire ws wn bz Ready).
Proof.
  revert n acc. induction l as [|b l IH]; intros n acc Hn Hl; cbn [List.length] in Hl; [lia|].
  cbn [clocks fold_left bits_value]. fold (clocks l). fold (bits_value l).
  unfold clock at 2. cbn [mph]. destruct (Nat.eqb_spec n 7) as [->|Hn7].
  - destruct l; [reflexivity|cbn [List.length] in Hl; lia].
  - apply (IH (S n)); lia.
Qed.
Lemma sign_bits_length n a : List.length (sign_bits n a) = n.
Proof. revert a. induction n as [|n IH]; intros a; simpl; [reflexivity|]. rewrite IH. reflexivity. Qed.
Lemma sign_bits_value offset : 0 <= offset < 64 -> bits_value (sign_bits 6 (s8 (u8 (offset .<< 2)))) 0 = offset.
Proof.
  intros Ho. apply Z.eqb_eq.
  exact (forall_below_spec 64 (fun o => bits_value (sign_bits 6 (s8 (u8 (o .<< 2)))) 0 =? o) eq_refl offset Ho).
Qed.

(** Two bits of operation and an address, to a chip that waits. *)
Definition op_bits (op1 op0 : bool) (offset : Z) : list bool := true :: op1 :: op0 :: sign_bits 6 (s8 (u8 (offset .<< 2))).
Definition waiting (ws : Z -> Z) (wn : bool) : microwire := Microwire ws wn 0 Ready.
Lemma op_run op1 op0 offset ws wn : 0 <= offset < 64 ->
  clocks (op_bits op1 op0 offset) (waiting ws wn) = decode_op ((2 * Z.b2z op1 + Z.b2z op0) * 64 + offset) (waiting ws wn).
Proof.
  intros Ho. change (clocks (op_bits op1 op0 offset) (waiting ws wn)) with
    (clocks (op1 :: op0 :: sign_bits 6 (s8 (u8 (offset .<< 2)))) (Microwire ws wn 0 (Opcode 0 0))).
  rewrite opcode_run by (cbn [List.length]; rewrite ?sign_bits_length; lia).
  cbn [bits_value fold_left]. fold (bits_value (sign_bits 6 (s8 (u8 (offset .<< 2))))).
  rewrite bits_value_acc, sign_bits_value, sign_bits_length by exact Ho. f_equal.
Qed.
Lemma decode_fields k offset : 0 <= offset < 64 -> (k * 64 + offset) .>> 6 = k /\ (k * 64 + offset) .& 0x3f = offset.
Proof.
  intros Ho. change 0x3f with (Z.ones 6). rewrite Z.shiftr_div_pow2, Z.land_ones by lia. change (2 ^ 6) with 64.
  split; Z.div_mod_to_equations; lia.
Qed.
Lemma read_op ws wn offset : 0 <= offset < 64 ->
  clocks (op_bits true false offset) (waiting ws wn) = Microwire ws wn 0 (Output (ws offset) 0).
Proof.
  intros Ho. rewrite op_run by exact Ho. unfold decode_op. destruct (decode_fields 2 offset Ho) as [E1 E2].
  change ((2 * Z.b2z true + Z.b2z false) * 64 + offset) with (2 * 64 + offset). rewrite E1, E2. reflexivity.
Qed.
Lemma write_op ws wn offset : 0 <= offset < 64 ->
  clocks (op_bits false true offset) (waiting ws wn) = Microwire ws wn 0 (Input offset 0 0).
Proof.
  intros Ho. rewrite op_run by exact Ho. unfold decode_op. destruct (decode_fields 1 offset Ho) as [E1 E2].
  change ((2 * Z.b2z false + Z.b2z true) * 64 + offset) with (1 * 64 + offset). rewrite E1, E2. reflexivity.
Qed.
Lemma enable_op ws wn : clocks ([true; false; false] ++ replicate 6 true) (waiting ws wn) = Microwire ws true 0 Ignoring.
Proof. reflexivity. Qed.

(** ** Data *)

Lemma read_bits_run n k v word w ws wn s : is_cmd v -> is_u16 w -> (n + k = 16)%nat ->
  held s (Microwire ws wn 0 (Output w k)) -> word = s16 (w .>> Z.of_nat n) ->
  exists s', read_bits n v addr word s = (s16 w, s') /\ held s' (Microwire ws wn 0 (Output w 16)).
Proof.
  intros Hv Hw. revert k word s. induction n as [|n IH]; intros k word s Hk Hs Ew.
  - exists s. cbn [read_bits]. subst word. rewrite Z.shiftr_0_r. replace k with 16%nat in Hs by lia. auto.
  - cbn [read_bits]. pose proof (high_sendto v s _ Hv Hs) as H1.
    destruct (get_look _ _ _ _ H1) as [B W]. destruct (getfrom_srom addr _) as [tmp s1]. cbn [fst snd] in B, W.
    apply (IH (S k)); [lia| |].
    + eapply low_sendto; [exact Hv|exact W].
    + subst word. apply s16_u16.
      assert ((tmp .>> 3) .& 1 = Z.b2z (Z.testbit w (Z.of_nat n))) as ->.
      { change 1 with (Z.ones 1). rewrite Z.land_ones by lia. change (2 ^ 1) with 2. rewrite <- Z.bit0_mod, Z.shiftr_spec by lia.
        change (0 + 3) with 3. rewrite B. cbn [out_line clock mph set_mph]. do 2 f_equal. lia. }
      by_bits i. unfold u16. rewrite !wrap_spec by lia. destruct (Z.ltb_spec i 16); [|rewrite !andb_false_r; reflexivity].
      rewrite !andb_true_r. rewrite Z.lor_spec, Z.shiftl_spec, Z.shiftr_spec by lia. destruct (Z.eq_dec i 0) as [->|].
      * rewrite Z.testbit_neg_r by lia. rewrite Z.b2z_bit0. reflexivity.
      * assert (forall x, Z.testbit (s16 x) (i - 1) = Z.testbit x (i - 1)) as ->.
        { intros x. transitivity (Z.testbit (u16 (s16 x)) (i - 1)).
          - unfold u16. rewrite wrap_spec, (proj2 (Z.ltb_lt (i - 1) 16)), andb_true_r by lia. reflexivity.
          - rewrite u16_s16. unfold u16. rewrite wrap_spec, (proj2 (Z.ltb_lt (i - 1) 16)), andb_true_r by lia. reflexivity. }
        rewrite Z.shiftr_spec by lia. replace (Z.testbit (Z.b2z (Z.testbit w (Z.of_nat n))) i) with false.
        2: { symmetry. apply (testbit_high 1); [lia|unfold in_word; change (2 ^ 1) with 2; unfold Z.b2z; case_match; lia|lia]. }
        rewrite orb_false_r. f_equal. lia.
Qed.

Lemma write_bits_run n a v longVal acc ws wn s : is_cmd v -> Z.testbit v 2 = false -> 0 <= longVal < 2 ^ 32 -> (0 < n <= 16)%nat ->
  held s (Microwire ws wn 0 (Input a (16 - n) acc)) ->
  held (write_bits n v addr longVal s)
    (Microwire ws wn 0 (Loaded a (acc * 2 ^ Z.of_nat n + (u16 longVal .>> (16 - Z.of_nat n))))).
Proof.
  intros Hv B2. revert longVal acc s. induction n as [|n IH]; intros longVal acc s Hl Hn Hs; [lia|].
  cbn [write_bits]. set (b := Z.testbit longVal 15).
  assert ((longVal .& 0x8000) .>> 13 = if b then DT_IN else 0) as ->.
  { change 0x8000 with (Z.ones 1 .<< 15). rewrite land_field, Z.shiftr_div_pow2 by lia. unfold b.
    rewrite Z.testbit_eqb by lia. change (2 ^ 13) with 8192. change (2 ^ 1) with 2. change (2 ^ 15) with 32768. unfold DT_IN.
    destruct (Z.eqb_spec (longVal / 32768 mod 2) 1); Z.div_mod_to_equations; lia. }
  rewrite (Z.lor_comm (if b then DT_IN else 0) v). destruct (cmd_in v b Hv B2) as [Hc Hb].
  assert (held (sendto_srom (v .| (if b then DT_IN else 0)) addr (sendto_srom (v .| (if b then DT_IN else 0) .| DT_CLK) addr
    (sendto_srom (v .| (if b then DT_IN else 0)) addr s))) (clock b (Microwire ws wn 0 (Input a (16 - S n) acc)))) as H1.
  { eapply low_sendto; [exact Hc|]. rewrite <- Hb at 3. apply high_sendto; [exact Hc|]. eapply low_sendto; [exact Hc|exact Hs]. }
  unfold clock in H1. cbn [mph] in H1.
  assert (u16 longVal = Z.b2z b * 32768 + longVal mod 32768 /\ 0 <= longVal mod 32768 < 32768) as [Eb Rm].
  { unfold b. rewrite Z.testbit_spec' by lia. unfold u16, wrap. change (2 ^ 16) with 65536. change (2 ^ 15) with 32768.
    Z.div_mod_to_equations. lia. }
  destruct (Nat.eqb_spec (16 - S n) 15) as [E15|E15].
  - assert (n = O) as -> by lia. cbn [write_bits]. unfold set_mph in H1. cbn [words wen busy] in H1.
    replace (acc * 2 ^ Z.of_nat 1 + (u16 longVal .>> (16 - Z.of_nat 1))) with (2 * acc + Z.b2z b); [exact H1|].
    change (2 ^ Z.of_nat 1) with 2. change (16 - Z.of_nat 1) with 15. rewrite Z.shiftr_div_pow2 by lia. change (2 ^ 15) with 32768.
    rewrite Eb. Z.div_mod_to_equations. lia.
  - unfold set_mph in H1. cbn [words wen busy] in H1. replace (S (16 - S n)) with (16 - n)%nat in H1 by lia.
    apply (IH (u32 (longVal .<< 1))) in H1; [|apply u32_range|lia].
    replace (acc * 2 ^ Z.of_nat (S n) + (u16 longVal .>> (16 - Z.of_nat (S n)))) with
      ((2 * acc + Z.b2z b) * 2 ^ Z.of_nat n + (u16 (u32 (longVal .<< 1)) .>> (16 - Z.of_nat n))); [exact H1|].
    assert (u16 (u32 (longVal .<< 1)) = 2 * (longVal mod 32768)) as ->.
    { rewrite Z.shiftl_mul_pow2 by lia. unfold u16, u32, wrap. change (2 ^ 16) with 65536. change (2 ^ 32) with 4294967296. change (2 ^ 1) with 2.
      Z.div_mod_to_equations. lia. }
    rewrite Eb, Nat2Z.inj_succ, Z.pow_succ_r, !Z.shiftr_div_pow2 by lia.
    replace (16 - Z.of_nat n) with (Z.succ (16 - Z.succ (Z.of_nat n))) by lia. rewrite (Z.pow_succ_r 2 (16 - _)) by lia.
    rewrite Z.div_mul_cancel_l by (try apply Z.pow_nonzero; lia). generalize (longVal mod 32768). intros m.
    replace 32768 with (2 ^ Z.of_nat n * 2 ^ (16 - Z.succ (Z.of_nat n))) at 1 by (rewrite <- Z.pow_add_r by lia; replace (Z.of_nat n + _) with 15 by lia; reflexivity).
    rewrite (Z.mul_assoc (Z.b2z b)), Z.div_add_l by (apply Z.pow_nonzero; lia). lia.
Qed.
Lemma wait_ready_run n k s ws wn : wires_of s = Wires true false (Microwire ws wn k Status) ->
  let '(r, s') := wait_ready n addr s in
  r = (k <? n)%nat /\ wires_of s' = Wires true false (Microwire ws wn (k - n) Status).
Proof.
  revert k s. induction n as [|n IH]; intros k s E; cbn [wait_ready].
  - rewrite Nat.sub_0_r. split; [symmetry; apply Nat.ltb_ge; lia|exact E].
  - destruct (get_look _ _ _ _ E) as [B W]. destruct (getfrom_srom addr s) as [v s1]. cbn [fst snd] in B, W.
    assert ((v .& 8 =? 8) = out_line (Microwire ws wn k Status)) as ->.
    { rewrite <- B. change 8 with (Z.ones 1 .<< 3). rewrite land_field by lia. change (Z.ones 1 .<< 3) with 8.
      rewrite Z.testbit_eqb by lia. change (2 ^ 1) with 2. change (2 ^ 3) with 8.
      destruct (Z.eqb_spec (v / 8 mod 2) 1) as [->|]; [reflexivity|]. apply Z.eqb_neq. lia. }
    cbn [out_line mph busy]. destruct k as [|k].
    + split; [reflexivity|exact W].
    + cbn [look mph words wen busy pred] in W. specialize (IH k s1 W). destruct (wait_ready n addr s1) as [r s'].
      exact IH.
Qed.

(** ** A word read, a word written *)

(** Between two operations: no write is going on, the chip may still be selected. *)
Definition rest (s : St) (ws : Z -> Z) (wn : bool) : Prop :=
  exists b p, wires_of s = Wires b false (Microwire ws wn 0 p) /\ (forall a v, p <> Loaded a v) /\ (b = false -> p = Ready).
Definition is_off (v : Z) : Prop :=
  0 <= v < 2 ^ 32 /\ Z.testbit v 11 = true /\ Z.testbit v 0 = false /\ Z.testbit v 1 = false.

Lemma rest_off v s ws wn : is_off v -> rest s ws wn -> wires_of (sendto_srom v addr s) = Wires false false (waiting ws wn).
Proof.
  intros (Hr & B11 & B0 & B1) (b & p & E & Hp & Hb). rewrite (off_sendto _ _ _ _ Hr B11 B0 B1 E). f_equal.
  destruct b; [|rewrite Hb; reflexivity]. destruct p; try reflexivity. exfalso. exact (Hp _ _ eq_refl).
Qed.
Lemma select_chip v0 v s ws wn : is_off v0 -> is_cmd v -> Z.testbit v 2 = false -> rest s ws wn ->
  held (srom_latch v addr (sendto_srom v0 addr s)) (waiting ws wn).
Proof.
  intros Hf Hv B2 R. pose proof (rest_off _ _ _ _ Hf R) as E. unfold srom_latch. eapply low_sendto; [exact Hv|].
  rewrite (high_sendto v _ (waiting ws wn) Hv), B2; [reflexivity|]. apply on_sendto; assumption.
Qed.
Lemma rest_deselected s c : wires_of s = Wires false false c -> mph c = Ready -> busy c = O -> rest s (words c) (wen c).
Proof. intros E Ep Eb. exists false, Ready. destruct c as [ws wn bz p]. cbn in *. subst. split_and!; [exact E|discriminate|reflexivity]. Qed.
Ltac cmd_tac := unfold is_cmd, is_off; split_and!; first [reflexivity | vm_compute; split; [discriminate|reflexivity] | idtac].

Lemma is_rd : is_cmd (SROM_RD .| SROM_SR .| DT_CS) /\ is_cmd (SROM_RD .| SROM_SR .| DT_IN .| DT_CS) /\ is_off (SROM_RD .| SROM_SR).
Proof. cmd_tac; vm_compute; discriminate || reflexivity. Qed.
Lemma is_wr : is_cmd (SROM_WR .| SROM_SR .| DT_CS) /\ is_cmd (SROM_WR .| SROM_SR .| DT_IN .| DT_CS) /\ is_off (SROM_WR .| SROM_SR).
Proof. cmd_tac; vm_compute; discriminate || reflexivity. Qed.

Lemma look_rest c : mph c <> Status -> look c = c.
Proof. destruct c as [? ? ? []]; cbn; congruence. Qed.
Lemma address_run v offset s c c' : is_cmd v -> Z.testbit v 2 = false -> held s c ->
  clocks (sign_bits 6 (s8 (u8 (offset .<< 2)))) c = c' -> mph c' <> Status -> held (srom_address v addr offset s) c'.
Proof.
  intros Hv B2 Hs E Hp. unfold srom_address. pose proof (address_clocks 6 v (s8 (u8 (offset .<< 2))) s c Hv B2 Hs) as H1.
  rewrite E in H1. destruct (get_look _ _ _ _ H1) as [_ W]. rewrite look_rest in W by exact Hp. exact W.
Qed.

Lemma srom_rd_spec offset s ws wn : 0 <= offset < 64 -> is_u16 (ws offset) -> rest s ws wn ->
  exists s', srom_rd addr offset s = (s16 (ws offset), s') /\ rest s' ws wn.
Proof.
  intros Ho Hw R. destruct is_rd as (C1 & C2 & O1). unfold srom_rd.
  set (s1 := srom_latch _ addr (sendto_srom _ addr s)).
  assert (held s1 (waiting ws wn)) as H1 by (apply select_chip; [exact O1|exact C1|reflexivity|exact R]).
  clearbody s1. unfold srom_command_rd.
  apply (latch_clocks _ _ _ C2) in H1. apply (latch_clocks _ _ _ C2) in H1.
  change ((SROM_RD .| SROM_SR .| DT_IN .| DT_CS) .& 0x0000ff00 .| DT_CS) with (SROM_RD .| SROM_SR .| DT_CS).
  apply (latch_clocks _ _ _ C1) in H1.
  assert (held (srom_address (SROM_RD .| SROM_SR .| DT_CS) addr offset (srom_latch (SROM_RD .| SROM_SR .| DT_CS) addr
    (srom_latch (SROM_RD .| SROM_SR .| DT_IN .| DT_CS) addr (srom_latch (SROM_RD .| SROM_SR .| DT_IN .| DT_CS) addr s1))))
    (Microwire ws wn 0 (Output (ws offset) 0))) as H2.
  { eapply address_run; [exact C1|reflexivity|exact H1|exact (read_op ws wn offset Ho)|discriminate]. }
  unfold srom_data_rd.
  destruct (read_bits_run 16 0 _ 0 _ ws wn _ C1 Hw eq_refl H2) as (s2 & E2 & H3).
  { unfold in_word in Hw. rewrite Z.shiftr_div_pow2, Z.div_small by (try lia; exact Hw). reflexivity. }
  rewrite E2. eexists. split; [reflexivity|].
  change ((SROM_RD .| SROM_SR .| DT_CS) .& 0x0000ff00) with (SROM_RD .| SROM_SR).
  destruct O1 as (Hr & B11 & B0 & B1). pose proof (off_sendto _ _ _ _ Hr B11 B0 B1 H3) as H4.
  exact (rest_deselected _ _ H4 eq_refl eq_refl).
Qed.

Lemma srom_wr_enable_spec s ws wn : rest s ws wn -> rest (srom_wr_enable addr s) ws true.
Proof.
  intros R. destruct is_wr as (C1 & C2 & O1). unfold srom_wr_enable.
  assert (held (srom_latch (SROM_WR .| SROM_SR .| DT_CS) addr (sendto_srom (SROM_WR .| SROM_SR) addr s)) (waiting ws wn)) as H1
    by (apply select_chip; [exact O1|exact C1|reflexivity|exact R]).
  apply (latch_clocks _ _ _ C2) in H1. do 2 apply (latch_clocks _ _ _ C1) in H1. apply (latch_times_clocks 6 _ _ _ C2) in H1.
  exists true, Ignoring. split; [exact H1|]. split; [discriminate|discriminate].
Qed.
Definition put (ws : Z -> Z) (a v : Z) : Z -> Z := fun x => if x =? a then v else ws x.
(** The word is written; the driver looks a hundred times whether it is done. *)
Lemma srom_wr_spec offset val s ws wn : 0 <= offset < 64 -> rest s ws wn ->
  let '(r, s') := srom_wr addr offset val s in
  words (chip (wires_of s')) = put ws offset (swab16 val) /\
  if (cycle <? 100)%nat then r = 0 /\ rest s' (put ws offset (swab16 val)) true else r = -1.
Proof.
  intros Ho R. destruct is_wr as (C1 & C2 & O1). unfold srom_wr. apply srom_wr_enable_spec in R.
  set (s0 := srom_wr_enable addr s) in *. clearbody s0.
  assert (held (srom_latch (SROM_WR .| SROM_SR .| DT_CS) addr (sendto_srom (SROM_WR .| SROM_SR) addr s0)) (waiting ws true)) as H1
    by (apply select_chip; [exact O1|exact C1|reflexivity|exact R]).
  unfold srom_command_wr. change ((SROM_WR .| SROM_SR .| DT_IN .| DT_CS) .& 0x0000ff00 .| DT_CS) with (SROM_WR .| SROM_SR .| DT_CS).
  apply (latch_clocks _ _ _ C2) in H1. apply (latch_clocks _ _ _ C1) in H1. apply (latch_clocks _ _ _ C2) in H1.
  match type of H1 with held ?x _ => set (s1 := x) in *; clearbody s1 end.
  assert (held (srom_address (SROM_WR .| SROM_SR .| DT_CS) addr offset s1) (Microwire ws true 0 (Input offset 0 0))) as H2.
  { eapply address_run; [exact C1|reflexivity|exact H1|exact (write_op ws true offset Ho)|discriminate]. }
  unfold srom_data_wr. set (s2 := srom_address _ _ _ _) in *. clearbody s2.
  pose proof (swab16_u16 val) as Hv. unfold in_word in Hv. change (2 ^ 16) with 65536 in Hv.
  apply (write_bits_run 16 offset _ (swab16 val) 0 ws true s2 C1 eq_refl ltac:(change (2 ^ 32) with 4294967296; lia) ltac:(lia)) in H2.
  rewrite u16_small in H2 by exact Hv. change (16 - Z.of_nat 16) with 0 in H2. rewrite Z.shiftr_0_r, Z.mul_0_l, Z.add_0_l in H2.
  set (s3 := write_bits _ _ _ _ _) in *. clearbody s3.
  change ((SROM_WR .| SROM_SR .| DT_CS) .& 0x0000ff00) with (SROM_WR .| SROM_SR).
  destruct O1 as (Hr & B11 & B0 & B1). pose proof (off_sendto _ _ _ _ Hr B11 B0 B1 H2) as H3. cbn [deselect mph wen] in H3.
  pose proof (on_sendto _ _ _ C1 H3) as H4.
  pose proof (wait_ready_run 100 _ _ _ _ H4) as W. destruct (wait_ready _ _ _) as [r s']. destruct W as [-> W]. rewrite W. cbn [chip words].
  split; [reflexivity|]. destruct (Nat.ltb_spec cycle 100); [|reflexivity]. split; [reflexivity|].
  replace (cycle - 100)%nat with O in W by lia. exists true, Status. split; [exact W|]. split; discriminate.
Qed.

(** ** The whole EEPROM *)

Fixpoint puts (ws : Z -> Z) (offset : Z) (l : list Z) : Z -> Z :=
  match l with [] => ws | v :: l => puts (put ws offset v) (offset + 1) l end.
Lemma puts_below ws offset l x : x < offset -> puts ws offset l x = ws x.
Proof.
  revert ws offset. induction l as [|v l IH]; intros ws offset Hx; cbn [puts]; [reflexivity|].
  rewrite IH by lia. unfold put. rewrite (proj2 (Z.eqb_neq x offset)) by lia. reflexivity.
Qed.
Lemma puts_at ws offset l i v : l !! i = Some v -> puts ws offset l (offset + Z.of_nat i) = v.
Proof.
  revert ws offset i. induction l as [|v0 l IH]; intros ws offset i E; [discriminate|]. cbn [puts]. destruct i as [|i].
  - injection E as ->. rewrite puts_below by lia. unfold put. rewrite (proj2 (Z.eqb_eq _ _)) by lia. reflexivity.
  - replace (offset + Z.of_nat (S i)) with (offset + 1 + Z.of_nat i) by lia. apply IH. exact E.
Qed.

Lemma store_words_spec l offset s ws wn : (cycle < 100)%nat -> 0 <= offset -> offset + Z.of_nat (List.length l) <= 64 -> rest s ws wn ->
  exists s' wn', store_words l addr offset s = (0, s') /\ rest s' (puts ws offset (map swab16 l)) wn'.
Proof.
  intros Hc. revert offset s ws wn. induction l as [|v l IH]; intros offset s ws wn Ho Hl R; cbn [store_words map puts List.length] in *.
  - eauto.
  - pose proof (srom_wr_spec offset v s ws wn ltac:(lia) R) as W. destruct (srom_wr addr offset v s) as [r s1].
    destruct W as [_ W]. rewrite (proj2 (Nat.ltb_lt cycle 100) Hc) in W. destruct W as [-> R1]. change (0 =? -1) with false. cbn iota.
    apply (IH (offset + 1) s1 _ true); [lia|lia|exact R1].
Qed.
(** A chip that is not done within a hundred looks: an error after the first word. *)
Lemma store_words_timeout v l s ws wn : (100 <= cycle)%nat -> rest s ws wn ->
  exists s', store_words (v :: l) addr 0 s = (-1, s') /\ words (chip (wires_of s')) = put ws 0 (swab16 v).
Proof.
  intros Hc R. cbn [store_words]. pose proof (srom_wr_spec 0 v s ws wn ltac:(lia) R) as W. destruct (srom_wr addr 0 v s) as [r s1].
  destruct W as [Ew W]. rewrite (proj2 (Nat.ltb_ge cycle 100) Hc) in W. subst r. exists s1. split; [reflexivity|exact Ew].
Qed.
Lemma load_words_spec n offset s ws wn : 0 <= offset -> offset + Z.of_nat n <= 64 ->
  (forall x, offset <= x < offset + Z.of_nat n -> is_u16 (ws x)) -> rest s ws wn ->
  exists s', load_words n addr offset s = (map (fun i => swab16 (ws (offset + Z.of_nat i))) (seq 0 n), s') /\ rest s' ws wn.
Proof.
  revert offset s. induction n as [|n IH]; intros offset s Ho Hn Hw R; cbn [load_words seq map].
  - eauto.
  - destruct (srom_rd_spec offset s ws wn ltac:(lia) (Hw offset ltac:(lia)) R) as (s1 & -> & R1).
    destruct (IH (offset + 1) s1 ltac:(lia) ltac:(lia) ltac:(intros; apply Hw; lia) R1) as (s2 & -> & R2).
    exists s2. split; [|exact R2]. f_equal. rewrite swab16_s16. f_equal; [f_equal; f_equal; lia|].
    rewrite <- seq_shift, map_map. apply map_ext. intros i. do 2 f_equal. lia.
Qed.

(** The registers of the host bridge are elsewhere. *)
Lemma rest_config cfg_addr cfg_data dev off (w w' : world (St := St)) v ws wn : cfg_addr <> addr -> cfg_data <> addr ->
  pci_read_config cfg_addr cfg_data 4 dev off w = Some (v, w') -> rest (machine w) ws wn ->
  rest (machine w') ws wn /\ hose w' = hose w.
Proof.
  intros Ha Hd E (b & p & R). enough (wires_of (machine w') = wires_of (machine w) /\ hose w' = hose w) as [W Eh]
    by (split; [exists b, p; rewrite W; exact R|exact Eh]). clear R. unfold pci_read_config, mbind, M_bind, get_hose in E.
  destruct (pci_bus_to_hose _ _); [|injection E as _ <-; auto].
  unfold read_config in E. change (data_mask 4) with 0 in E. rewrite Z.land_0_r, Z.add_0_r in E.
  destruct (io_in 4 cfg_data _) as [x st] eqn:Ei. injection E as _ <-. cbn [machine hose]. split; [|reflexivity].
  pose proof (wires_elsewhere cycle (io_out 4 cfg_addr (select (hose w) dev off) (machine w)) 4 cfg_data 0 Hd) as [_ W].
  rewrite Ei in W. cbn [snd] in W. rewrite W, (proj1 (wires_elsewhere cycle (machine w) 4 cfg_addr _ Ha)). reflexivity.
Qed.

Lemma rest_iobase cfg_addr cfg_data (w w' : world (St := St)) a ws wn : cfg_addr <> addr -> cfg_data <> addr ->
  dc_srom_iobase cfg_addr cfg_data w = Some (a, w') -> rest (machine w) ws wn -> rest (machine w') ws wn /\ hose w' = hose w.
Proof.
  intros Ha Hd E R. unfold dc_srom_iobase in E. apply bind_inv in E as (bar & u1 & E1 & E).
  pose proof (rest_config _ _ _ _ _ _ _ _ _ Ha Hd E1 R) as R1. apply bind_inv in E as (h & u2 & E2 & E).
  injection E2 as <- <-. injection E as _ <-. exact R1.
Qed.

(** C28: what is stored in the EEPROM of the network controller is what is loaded from it, and
    the chip holds the bytes in the order of the array; a chip that finishes a word
    within a hundred looks, at the place its base register leads to, is assumed. *)
Theorem dc_srom_store_load cfg_addr cfg_data (w : world (St := St)) src ws wn :
  (cycle < 100)%nat -> cfg_addr <> addr -> cfg_data <> addr ->
  (forall v, hose v = hose w -> exists v', dc_srom_iobase cfg_addr cfg_data v = Some (addr, v')) ->
  rest (machine w) ws wn -> List.length src = 64%nat -> Forall is_u16 src ->
  exists w2 w3, dc_srom_store cfg_addr cfg_data src w = Some (0, w2) /\
    (forall i v, src !! i = Some v -> words (chip (wires_of (machine w2))) (Z.of_nat i) = swab16 v) /\
    dc_srom_load cfg_addr cfg_data w2 = Some (src, w3).
Proof.
  intros Hc Ha Hd Hbase R Hl Hs.
  assert (forall v us un, hose v = hose w -> rest (machine v) us un ->
    exists v1, dc_srom_iobase cfg_addr cfg_data v = Some (addr, v1) /\ rest (machine v1) us un /\ hose v1 = hose v) as Base.
  { intros v us un Hh Rv. destruct (Hbase v Hh) as [v1 E]. exists v1. split; [exact E|]. exact (rest_iobase _ _ _ _ _ _ _ Ha Hd E Rv). }
  destruct (Base w ws wn eq_refl R) as (w1 & E1 & R1 & H1).
  assert (take 64 src = src) as Et by (rewrite <- Hl; apply take_ge; lia).
  destruct (store_words_spec src 0 (machine w1) ws wn Hc ltac:(lia) ltac:(lia) R1) as (s2 & wn2 & E2 & R2).
  set (w2 := World (hose w1) s2 (log w1)).
  assert (dc_srom_store cfg_addr cfg_data src w = Some (0, w2)) as Es.
  { unfold dc_srom_store. rewrite (bind_run _ _ _ _ _ E1). unfold lift. rewrite Et, E2. reflexivity. }
  destruct (Base w2 (puts ws 0 (map swab16 src)) wn2 H1 R2) as (w3 & E3 & R3 & _).
  assert (forall i v, src !! i = Some v -> puts ws 0 (map swab16 src) (Z.of_nat i) = swab16 v) as At.
  { intros i v Ei. rewrite <- (Z.add_0_l (Z.of_nat i)). apply puts_at. change (map swab16 src) with (swab16 <$> src). rewrite list_lookup_fmap, Ei. reflexivity. }
  destruct (load_words_spec 64 0 (machine w3) (puts ws 0 (map swab16 src)) wn2 ltac:(lia) ltac:(lia)) as (s4 & E4 & R4); [|exact R3|].
  { intros x Hx. destruct (src !! Z.to_nat x) as [v|] eqn:Ex.
    - rewrite <- (Z2Nat.id x), (At _ _ Ex) by lia. apply swab16_u16.
    - apply lookup_ge_None in Ex. lia. }
  exists w2, (World (hose w3) s4 (log w3)). split; [exact Es|]. split.
  - intros i v Ei. destruct R2 as (b & p & W & _). cbn [machine w2]. rewrite W. apply At, Ei.
  - unfold dc_srom_load. rewrite (bind_run _ _ _ _ _ E3). unfold lift. rewrite E4. do 2 f_equal.
    apply list_eq. intros i. change (map ?f (seq 0 64)) with (f <$> seq 0 64). rewrite list_lookup_fmap.
    destruct (decide (i < 64)%nat) as [Hi|Hi].
    + rewrite lookup_seq_lt by exact Hi. cbn [fmap option_fmap option_map].
      destruct (lookup_lt_is_Some_2 src i) as [v Ev]; [lia|]. rewrite Ev. f_equal. rewrite Z.add_0_l. cbn [Nat.add].
      rewrite (At _ _ Ev). apply swab16_involutive. eapply Forall_lookup_1; eauto.
    + rewrite lookup_seq_ge by lia. symmetry. apply lookup_ge_None. lia.
Qed.
End transfers.

(** ** A board with an empty EEPROM that needs two looks per word *)

Record rig := Rig { latch : Z; lines : wires }.
Definition rig_addr : Z := 0xc0100048.
#[export] Instance rig_io : PciIO rig := {
  io_out w port v s := if port =? rig_addr then Rig (latch s) (set_wires 2 v (lines s)) else if port =? MPC106_REG_ADDR then Rig v (lines s) else s;
  io_in w port s :=
    if port =? rig_addr then
      (if out_line (chip (lines s)) then 8 else 0, Rig (latch s) (Wires (cs (lines s)) (clk (lines s)) (look (chip (lines s)))))
    else (if latch s =? 0x80007014 then 0x00100000 else 0xffffffff, s)
}.
#[export] Program Instance rig_port : SromPort 2 rig_addr rig := { wires_of := lines }.
Next Obligation. intros s v _. reflexivity. Qed.
Next Obligation. intros s. cbn. destruct (out_line _); split; reflexivity. Qed.
Next Obligation.
  intros s n port v Hp. cbn. rewrite (proj2 (Z.eqb_neq _ _) Hp). destruct (_ =? _); split; reflexivity.
Qed.
Definition rig_start : rig := Rig 0 (Wires false false (Microwire (fun _ => 0xffff) false 0 Ready)).
Definition rig_data : list Z := map (fun i => 0x1200 + Z.of_nat i) (seq 0 64).

Lemma dc_srom_store_load_witness : exists w2 w3,
  dc_srom_store MPC106_REG_ADDR MPC106_REG_DATA rig_data (World local_hose rig_start []) = Some (0, w2) /\
  (forall i v, rig_data !! i = Some v -> words (chip (wires_of 2 (machine w2))) (Z.of_nat i) = swab16 v) /\
  dc_srom_load MPC106_REG_ADDR MPC106_REG_DATA w2 = Some (rig_data, w3).
Proof.
  apply (dc_srom_store_load 2 rig_addr MPC106_REG_ADDR MPC106_REG_DATA (World local_hose rig_start []) rig_data (fun _ => 0xffff) false).
  - lia.
  - discriminate.
  - discriminate.
  - intros [h s l]. cbn [hose]. intros ->. eexists. reflexivity.
  - exists false, Ready. split; [reflexivity|]. split; [discriminate|reflexivity].
  - reflexivity.
  - apply List.Forall_forall. intros v I. apply in_map_iff in I as (i & <- & I). apply in_seq in I.
    unfold in_word. change (2 ^ 16) with 65536. lia.
Defined.
