(* ===== verification/Board.v ===== *)
(** * The board (board/eltec/bab7xx/misc.c, l2cache.c, bab7xx.c)

    The last step of the start before the prompt: misc_init_r brings the revision record
    in the EEPROM, its shadow in the NVRAM and the environment together,
    asking the operator when they differ or when there is no record; then
    it switches the L2 cache on and settles what the disk code needs.  The
    second-level cache, the clock and memory sizes, the media selection of the network
    chip and the reset are the board's other operations.

    All of it acts on one machine: ports, PCI bus and special registers are
    operations on the same state.  [Identity] is the dialogue, [Start] holds what is proved of it. *)

From S2P Require Import Prelude CMem CString Strto Vsprintf Readline Rtc Env Srom Pci Dcsrom.

(** ** Constants *)

Definition PCI_VENDOR_ID_NCR : Z := 0x1000.
Definition PCI_DEVICE_ID_NCR_53C860 : Z := 0x0006.
Definition PCI_DEVICE_ID_NCR_53C875 : Z := 0x000f.
Definition PCI_VENDOR_ID_MOTOROLA : Z := 0x1057.
Definition PCI_DEVICE_ID_MOTOROLA_MPC106 : Z := 0x0002.
Definition PCI_VENDOR_ID_WINBOND : Z := 0x10ad.
Definition PCI_DEVICE_ID_WINBOND_83C553 : Z := 0x0565.
Definition WINBOND_IDEIRCR : Z := 0x43.
Definition SPRN_L2CR : Z := 0x3F9.
Definition SPRN_HID1 : Z := 0x3F1.
Definition SPRN_PVR : Z := 0x11F.
Definition L2CR_E : Z := 0x80000000.
Definition L2CR_I : Z := 0x00200000.
Definition L2CR_IP : Z := 0x00000001.
Definition CLK2P0TO1_1MB_PB_0P5DH : Z := 0x79000100.
Definition CLK2P5TO1_1MB_PB_0P5DH : Z := 0x7B000100.
Definition CPU_TYPE_750 : Z := 0x08.
Definition CONFIG_SYS_NV_SROM_COPY_ADDR : Z := 0x1ff0 + 0x10 - 0x400.
Definition CONFIG_SYS_SROM_SIZE : Z := 0x100.
Definition CONFIG_SYS_NS87308_GPIO_BASE : Z := 0x0220.
Definition MPC106_REG : Z := 0x80000000.
Definition MPC106_MSAR1 : Z := 0x80.
Definition MPC106_MEAR1 : Z := 0x90.
Definition MPC106_MBER : Z := 0xA0.
Definition RTC_WD_RB_16TH : Z := 0x0.

(** The record of the EEPROM ([revinfo]): offsets of the fields. *)
Definition magic : Z := 0x00.
Definition revrev : Z := 0x08.
Definition size_of_crc : Z := 0x0A.
Definition crc : Z := 0x0C.
Definition board_name : Z := 0x10.
Definition serial : Z := 0x60.
Definition etheraddr : Z := 0x68.
Definition revision : Z := 0x70.
Definition category : Z := 0x7E.
Definition text : Z := 0x80.
Definition res : Z := 0xC0.

(** Special registers, and a read of memory that fills the cache. *)
Class SprIO (St : Type) := {
  mtspr : Z -> Z -> St -> St;
  mfspr : Z -> St -> Z * St;
  touch : Z -> St -> St
}.

(** ** The second-level cache (l2cache.c) *)

(** PICR1 and PICR2 of the MPC106. *)
Definition PICR1_CF_CBA (v : Z) : Z := (v .& 0xff) .<< 24.
Definition PICR1_CF_BREAD_WS (v : Z) : Z := (v .& 0x3) .<< 22.
Definition PICR1_CF_DPARK : Z := 0x200.
Definition PICR1_CF_L2_COPY_BACK : Z := 0x2.
Definition PICR1_CF_L2_CACHE_MASK : Z := 0x3.
Definition PICR1_CF_APARK : Z := 0x8.
Definition PICR1_CF_CACHE_1G : Z := 0x200000.
Definition PICR2_CF_SNOOP_WS (v : Z) : Z := (v .& 0x3) .<< 18.
Definition PICR2_CF_FLUSH_L2 : Z := 0x10000000.
Definition PICR2_CF_L2_HIT_DELAY (v : Z) : Z := (v .& 0x3) .<< 9.
Definition PICR2_CF_APHASE_WS (v : Z) : Z := (v .& 0x3) .<< 2.
Definition PICR2_CF_INV_MODE : Z := 0x00001000.
Definition PICR2_CF_MOD_HIGH : Z := 0x00020000.
Definition PICR2_CF_HIT_HIGH : Z := 0x00010000.
Definition PICR2_L2_SIZE_256K : Z := 0x00000000.
Definition PICR2_L2_SIZE_512K : Z := 0x00000010.
Definition PICR2_L2_EN : Z := 0x40000000.
Definition PICR2_L2_UPDATE_EN : Z := 0x80000000.
Definition PICR2_CF_ADDR_ONLY_DISABLE : Z := 0x00004000.
Definition PICR2_CF_FAST_CASTOUT : Z := 0x00000080.
Definition PICR2_CF_WDATA : Z := 0x00000001.
Definition PICR2_CF_DATA_RAM_PBURST : Z := 0x00400000.

Definition picr1_mask : Z :=
  not32 (PICR1_CF_BREAD_WS 1 .| PICR1_CF_BREAD_WS 2 .| PICR1_CF_CBA 0xff .| PICR1_CF_CACHE_1G .|
         PICR1_CF_DPARK .| PICR1_CF_APARK .| PICR1_CF_L2_CACHE_MASK).
Definition picr1_l2 : Z := PICR1_CF_CBA 0x3f .| PICR1_CF_CACHE_1G .| PICR1_CF_APARK .| PICR1_CF_DPARK .| PICR1_CF_L2_COPY_BACK.
Definition picr2_invalidate (sz : Z) : Z :=
  PICR2_CF_INV_MODE .| PICR2_CF_HIT_HIGH .| PICR2_CF_MOD_HIGH .| PICR2_CF_L2_HIT_DELAY 1 .| PICR2_CF_APHASE_WS 1 .| sz.
Definition picr2_run (sz : Z) : Z :=
  PICR2_CF_FAST_CASTOUT .| PICR2_CF_WDATA .| PICR2_CF_ADDR_ONLY_DISABLE .| PICR2_CF_HIT_HIGH .| PICR2_CF_MOD_HIGH .|
  PICR2_L2_UPDATE_EN .| PICR2_L2_EN .| PICR2_CF_APHASE_WS 1 .| PICR2_CF_DATA_RAM_PBURST .| PICR2_CF_L2_HIT_DELAY 1 .|
  PICR2_CF_SNOOP_WS 2 .| sz.

Section board.
Context {St : Type} `{PortIO St} `{PciIO St} `{SprIO St}.

Abbreviation find_device := (pci_find_device MPC106_REG_ADDR MPC106_REG_DATA (St := St)).
Abbreviation rd_config := (pci_read_config MPC106_REG_ADDR MPC106_REG_DATA (St := St)).
Abbreviation wr_config := (pci_write_config MPC106_REG_ADDR MPC106_REG_DATA (St := St)).

(** while (mfspr(SPRN_L2CR) & L2CR_IP) ; *)
Fixpoint l2_wait (fuel : nat) (s : St) : option St :=
  match fuel with
  | O => None
  | S f => let '(v, s) := mfspr SPRN_L2CR s in if v .& L2CR_IP =? 0 then Some s else l2_wait f s
  end.
(** The transactions that fill the cache: every word below [2 * cacheSize]. *)
Fixpoint dummy_reads (n : nat) (d : Z) (s : St) : St :=
  match n with O => s | S n => dummy_reads n (d + 4) (touch d s) end.

Definition l2_cpu_enable (fuel : nat) (l2control : Z) (s : St) : option St :=
  let s := mtspr SPRN_L2CR (u32 l2control) s in
  let s := mtspr SPRN_L2CR (u32 (l2control .| L2CR_I)) s in
  s ← l2_wait fuel s; Some (mtspr SPRN_L2CR (u32 (l2control .| L2CR_E)) s).

Definition l2_bridge_enable : M (St := St) Z :=
  devbusfn ← find_device PCI_VENDOR_ID_MOTOROLA PCI_DEVICE_ID_MOTOROLA_MPC106 0;
  if devbusfn =? -1 then mret (-1)
  else
    reg32 ← rd_config 4 devbusfn PCI_PICR2;
    wr_config 4 devbusfn PCI_PICR2 (reg32 .& not32 PICR2_L2_EN);;
    gpio ← lift (in8 (CONFIG_SYS_ISA_IO + 0x220));
    let big := negb (gpio .& 0x04 =? 0) in
    let picr2CacheSize := if big then PICR2_L2_SIZE_512K else PICR2_L2_SIZE_256K in
    let cacheSize := if big then 0x80000 else 0x40000 in
    reg32 ← rd_config 4 devbusfn PCI_PICR1;
    wr_config 4 devbusfn PCI_PICR1 ((reg32 .& picr1_mask) .| picr1_l2);;
    wr_config 4 devbusfn PCI_PICR2 (picr2_invalidate picr2CacheSize);;
    lift (fun s => (tt, dummy_reads (Z.to_nat (2 * cacheSize / 4)) 0 s));;
    wr_config 4 devbusfn PCI_PICR2 (picr2_invalidate picr2CacheSize .| PICR2_CF_FLUSH_L2);;
    wr_config 4 devbusfn PCI_PICR2 (picr2_run picr2CacheSize);;
    mret 0.

(** A BAB750 has its cache at the processor, a BAB740 at the bridge. *)
Definition l2_cache_enable (fuel : nat) (l2control : Z) : M (St := St) Z :=
  if negb (l2control =? 0) then fun w =>
    match l2_cpu_enable fuel l2control (machine w) with
    | Some s => Some (0, World (hose w) s (log w))
    | None => None
    end
  else l2_bridge_enable.

(** ** Clocks, memory size, reset (bab7xx.c) *)

Definition bab7xx_get_bus_freq (s : St) : Z * St :=
  let '(data, s) := in8 (CONFIG_SYS_ISA_IO + CONFIG_SYS_NS87308_GPIO_BASE) s in
  (if negb (data .& 0x02 =? 0) then 66666666 else 83333333, s).
Definition pllratio_to_factor : list Z := [00; 75; 70; 00; 20; 65; 100; 45; 30; 55; 40; 50; 80; 60; 35; 00].
Definition bab7xx_get_gclk_freq (s : St) : Z * St :=
  let '(hid1, s) := mfspr SPRN_HID1 s in
  let '(bus, s) := bab7xx_get_bus_freq s in
  (u32 (nth (Z.to_nat (hid1 .>> 28)) pllratio_to_factor 0 * (bus / 10)), s).

Definition mpc106_read_cfg_dword (reg : Z) (s : St) : Z * St :=
  let s := io_out 4 MPC106_REG_ADDR (u32 (MPC106_REG .| (reg .& 0xFFFFFFFC))) s in
  let '(v, s) := io_in 4 (MPC106_REG_DATA .| (reg .& 0x3)) s in (u32 v, s).

(** do ... while (i), at most once per bit of [i]. *)
Fixpoint bank_sum (n : nat) (i msar1 mear1 memSize : Z) : Z :=
  match n with
  | O => memSize
  | S n =>
      let memSize := if negb (i .& 0x01 =? 0) then u32 (memSize + ((mear1 .& 0xff) - (msar1 .& 0xff) + 1)) else memSize in
      if i .>> 1 =? 0 then memSize else bank_sum n (i .>> 1) (msar1 .>> 8) (mear1 .>> 8) memSize
  end.
Definition dram_size (s : St) : Z * St :=
  let '(msar1, s) := mpc106_read_cfg_dword MPC106_MSAR1 s in
  let '(mear1, s) := mpc106_read_cfg_dword MPC106_MEAR1 s in
  let '(mber, s) := mpc106_read_cfg_dword MPC106_MBER s in
  (s32 (bank_sum 4 (mber .& 0xf) msar1 mear1 0 * 0x100000), s).

Definition do_reset (s : St) : St := rtc_set_watchdog 1 RTC_WD_RB_16TH s.

(** ** Media selection of the network chip (misc.c) *)

Definition OMR_PS : Z := 0x00040000.
Definition OMR_SDP : Z := 0x02000000.
Definition OMR_PM : Z := 0x00000080.
Definition OMR_TTM : Z := 0x00400000.
Definition DE4X5_OMR : Z := 0x030.
Definition DE4X5_SISR : Z := 0x060.
Definition DE4X5_SICR : Z := 0x068.
Definition DE4X5_TXRX : Z := 0x070.
Definition DE4X5_GPPR : Z := 0x078.

Definition INL (iobase addr : Z) (s : St) : Z * St := let '(v, s) := io_in 4 (u32 (addr + iobase)) s in (s32 v, s).
Definition OUTL (iobase command addr : Z) (s : St) : St := io_out 4 (u32 (addr + iobase)) (u32 command) s.

Definition media_reg_init (iobase csr14 csr15_dir csr15_v0 csr15_v1 csr6 : Z) (s : St) : St :=
  let s := OUTL iobase 0 DE4X5_OMR s in
  let s := OUTL iobase 0 DE4X5_SICR s in
  let s := OUTL iobase 1 DE4X5_SICR s in
  let s := OUTL iobase csr14 DE4X5_TXRX s in
  let s := OUTL iobase csr15_dir DE4X5_GPPR s in
  let s := OUTL iobase csr15_v0 DE4X5_GPPR s in
  let s := OUTL iobase csr15_v1 DE4X5_GPPR s in
  let s := OUTL iobase 0x00000301 DE4X5_SISR s in
  OUTL iobase csr6 DE4X5_OMR s.

(** for (i=0; i<2000+ext; i++): [n] bounds the rounds left, of 4000 at most. *)
Fixpoint autoneg (n : nat) (iobase i ext status : Z) (s : St) : Z * St :=
  match n with
  | O => (status, s)
  | S n =>
      if i <? 2000 + ext then
        let '(status, s) := INL iobase DE4X5_SISR s in
        let ext := if negb (status .& 0x2000 =? 0) then 2000 else ext in
        if status .& 0x7000 =? 0x5000 then (status, s) else autoneg n iobase (i + 1) ext status s
      else (status, s)
  end.
Definition dc21x4x_select_media (eltec_board iobase : Z) (s : St) : St :=
  if eltec_board =? 740 then
    let s := media_reg_init iobase 0x3ffff 0x08af0008 0x00a10008 0x00a50008 0x02400080 s in
    let '(status, s) := autoneg 4000 iobase 0 0 0 s in
    if status .& 0x0100f000 =? 0x0100d000 then media_reg_init iobase 0x37f7f 0x08270008 0x00210008 0x00250008 0x03c40280 s
    else if status .& 0x0080f000 =? 0x0080d000 then media_reg_init iobase 0x17f7f 0x08270008 0x00210008 0x00250008 0x03c40080 s
    else if status .& 0x0040f000 =? 0x0040d000 then media_reg_init iobase 0x07f7f 0x08af0008 0x00a10008 0x00a50008 0x02400280 s
    else media_reg_init iobase 0x7f7f 0x08af0008 0x00a10008 0x00a50008 (OMR_SDP .| OMR_TTM .| OMR_PM) s
  else OUTL iobase (OMR_SDP .| OMR_PS .| OMR_PM) DE4X5_OMR s.
End board.

(** ** What they compute *)

(** The memory is the sum of the enabled banks: bank [k] goes from byte [k] of one register to byte [k] of the other. *)
Definition bank_size (msar1 mear1 : Z) (k : nat) : Z :=
  ((mear1 .>> (8 * Z.of_nat k)) .& 0xff) - ((msar1 .>> (8 * Z.of_nat k)) .& 0xff) + 1.
Definition banks (i msar1 mear1 : Z) (ks : list nat) : Z :=
  fold_right Z.add 0 (map (fun k => if Z.testbit i (Z.of_nat k) then bank_size msar1 mear1 k else 0) ks).
Lemma banks_shift i a b ks : banks (i .>> 1) (a .>> 8) (b .>> 8) ks = banks i a b (map S ks).
Proof.
  unfold banks. rewrite map_map. f_equal. apply map_ext. intros k. unfold bank_size. rewrite Z.shiftr_spec, !Z.shiftr_shiftr by lia.
  replace (Z.of_nat k + 1) with (Z.of_nat (S k)) by lia. replace (8 + 8 * Z.of_nat k) with (8 * Z.of_nat (S k)) by lia. reflexivity.
Qed.
Lemma banks_none a b ks : banks 0 a b ks = 0.
Proof. unfold banks. induction ks as [|k ks IH]; cbn [map fold_right]; [reflexivity|]. rewrite Z.testbit_0_l. exact IH. Qed.
Lemma bank_sum_correct n : forall i a b sum, 0 <= i -> is_u32 sum -> bank_sum n i a b sum = u32 (sum + banks i a b (seq 0 n)).
Proof.
  induction n as [|n IH]; intros i a b sum Hi Hs; [symmetry; unfold banks; cbn; rewrite Z.add_0_r; apply u32_small, Hs|].
  cbn [bank_sum seq]. rewrite <- seq_shift. unfold banks. cbn [map fold_right]. fold (banks i a b (map S (seq 0 n))). rewrite <- banks_shift.
  unfold bank_size. change (8 * Z.of_nat 0) with 0. rewrite !Z.shiftr_0_r, land_1. change (Z.of_nat 0) with 0.
  set (sz := (b .& 0xff) - (a .& 0xff) + 1). set (sum' := if negb _ then _ else _).
  assert (is_u32 sum') as Hs' by (unfold sum'; destruct (negb _); [apply u32_range|exact Hs]).
  assert (u32 (sum' + banks (i .>> 1) (a .>> 8) (b .>> 8) (seq 0 n)) =
    u32 (sum + ((if Z.testbit i 0 then sz else 0) + banks (i .>> 1) (a .>> 8) (b .>> 8) (seq 0 n)))) as <-.
  { unfold sum'. destruct (Z.testbit i 0); cbn [Z.b2z Z.eqb negb]; [unfold u32, wrap; rewrite Zplus_mod_idemp_l|]; f_equal; lia. }
  destruct (Z.eqb_spec (i .>> 1) 0) as [E|E].
  - rewrite E, banks_none, Z.add_0_r. symmetry. apply u32_small, Hs'.
  - apply IH; [apply Z.shiftr_nonneg, Hi|exact Hs'].
Qed.

Section board_facts.
Context {St : Type} `{PortIO St} `{PciIO St} `{SprIO St}.

(** The rounds given are enough: more would not be used. *)
Lemma autoneg_rounds n : forall k iobase i ext status (s : St), 0 <= i -> ext = 0 \/ ext = 2000 -> 4000 <= i + Z.of_nat n ->
  autoneg (n + k) iobase i ext status s = autoneg n iobase i ext status s.
Proof.
  induction n as [|n IH]; intros k iobase i ext status s Hi He Hn.
  - destruct k; [reflexivity|]. cbn [Nat.add autoneg]. rewrite (proj2 (Z.ltb_ge _ _)) by lia. reflexivity.
  - cbn [Nat.add autoneg]. destruct (_ <? _); [|reflexivity]. destruct (INL iobase DE4X5_SISR s) as [v s1].
    destruct (_ =? 0x5000); [reflexivity|]. apply IH; [lia|destruct (negb _); auto|lia].
Qed.
End board_facts.

(** A reset is the watchdog with its shortest time. *)
Lemma do_reset_watchdog {St} `{RtcChip St} (s : St) r :
  cell (do_reset s) r = if r =? RTC_WATCHDOG then 0x84 else cell s r.
Proof. unfold do_reset, rtc_set_watchdog. apply rtc_write_spec; [unfold RTC_WATCHDOG; lia|split; vm_compute; congruence]. Qed.
