(* ===== verification/Frames.v ===== *)
(** * What the drivers leave alone

    The chips of the board share one machine.  Each driver reaches it
    through its own ports only, so whatever those ports cannot change is left
    alone by the whole driver: three sections, one per way to the machine, for an
    arbitrary predicate that the accesses of that way keep. *)

From S2P Require Import Prelude CMem Rtc Srom Pci Dcsrom Board.

(** ** The two-wire EEPROM *)

Section eeprom.
Context {St : Type} `{PortIO St} (P : St -> Prop).
Definition is_i2c (port : Z) : Prop := port = I2C_BUS_DAT \/ port = I2C_BUS_DIR.
Hypothesis P_out : forall port v s, is_i2c port -> P s -> P (out8 port v s).
Hypothesis P_in : forall port s, is_i2c port -> P s -> P (in8 port s).2.

Lemma dat_i2c : is_i2c I2C_BUS_DAT. Proof. left. reflexivity. Qed.
Lemma dir_i2c : is_i2c I2C_BUS_DIR. Proof. right. reflexivity. Qed.
#[local] Hint Resolve dat_i2c dir_i2c : core.
Ltac wires := repeat first [assumption | apply P_out; [auto|]].

Lemma eepStart_keeps s : P s -> P (eepStart s).
Proof. intros. unfold eepStart. wires. Qed.
Lemma eepStop_keeps s : P s -> P (eepStop s).
Proof. intros. unfold eepStop. wires. Qed.
Lemma write_bits_keeps n : forall buf s, P s -> P (Srom.write_bits n buf s).
Proof. induction n as [|n IH]; intros buf s Hs; cbn [Srom.write_bits]; [exact Hs|]. apply IH. wires. Qed.
Lemma eepWriteByte_keeps v s : P s -> P (eepWriteByte v s).
Proof. intros. apply write_bits_keeps. wires. Qed.
Lemma read_bits_keeps n : forall buf s, P s -> P (Srom.read_bits n buf s).2.
Proof.
  induction n as [|n IH]; intros buf s Hs; cbn [Srom.read_bits]; [exact Hs|].
  pose proof (P_in I2C_BUS_DAT (out8 I2C_BUS_DAT 0x40 (out8 I2C_BUS_DAT 0x00 s)) dat_i2c ltac:(wires)) as Hi.
  destruct (in8 _ _) as [v s1]. apply IH. wires.
Qed.
Lemma eepReadByte_keeps s : P s -> P (eepReadByte s).2.
Proof. intros. apply read_bits_keeps. wires. Qed.
Lemma eepReadAck_keeps s : P s -> P (eepReadAck s).2.
Proof.
  intros Hs. unfold eepReadAck.
  pose proof (P_in I2C_BUS_DAT (out8 I2C_BUS_DAT 0x40 (out8 I2C_BUS_DAT 0x00 (out8 I2C_BUS_DIR 0x40 s))) dat_i2c ltac:(wires)) as Hi.
  destruct (in8 _ _) as [v s1]. cbn [snd] in *. wires.
Qed.
Lemma eepWriteAck_keeps a s : P s -> P (eepWriteAck a s).
Proof. intros. unfold eepWriteAck. wires. Qed.
#[local] Hint Resolve eepStart_keeps eepStop_keeps eepWriteByte_keeps eepWriteAck_keeps : core.

(** One acknowledged byte. *)
Ltac ack s1 := match goal with
  | |- context [eepReadAck ?s] =>
      let H := fresh "H" in let r := fresh "r" in
      assert (P (eepReadAck s).2) as H by (apply eepReadAck_keeps; auto);
      destruct (eepReadAck s) as [r s1]; cbn [snd] in H; destruct (r =? ERROR); cbn [snd]; [auto|]
  end.

Lemma load_loop_keeps n : forall addr cnt device block s, P s -> P (load_loop n addr cnt device block s).2.
Proof.
  induction n as [|n IH]; intros addr cnt device block s Hs; cbn [load_loop]; [exact Hs|].
  ack s1. ack s2. ack s3. assert (P (eepReadByte s3).2) as Hb by (apply eepReadByte_keeps; assumption).
  destruct (eepReadByte s3) as [b s4]. cbn [snd] in Hb.
  assert (forall a b', P (let '(r, l, s) := load_loop n a cnt device b' (eepStop (eepWriteAck 1 s4)) in (r, b :: l, s)).2) as Next.
  { intros a b'. specialize (IH a cnt device b' (eepStop (eepWriteAck 1 s4)) ltac:(auto)).
    destruct (load_loop _ _ _ _ _ _) as [[r9 l] s5]. exact IH. }
  destruct (_ && _); [destruct (block =? FIRST_BLOCK); [apply Next|cbn; auto]|apply Next].
Qed.
Lemma el_srom_load_keeps addr cnt device block s : P s -> P (el_srom_load addr cnt device block s).2.
Proof. apply load_loop_keeps. Qed.

Lemma store_poll_keeps fuel : forall device block s s', P s -> store_poll fuel device block s = Some s' -> P s'.
Proof.
  induction fuel as [|f IH]; intros device block s s' Hs E; cbn [store_poll] in E; [discriminate|].
  assert (P (eepReadAck (eepWriteByte (0xA0 .| device .| block) (eepStart s))).2) as Ha by (apply eepReadAck_keeps; auto).
  destruct (eepReadAck _) as [r s1]. cbn [snd] in Ha. destruct (r =? ERROR); [eapply IH; [|exact E]; auto|]. injection E as <-. exact Ha.
Qed.
Lemma store_loop_keeps fuel buf : forall addr cnt device block s r s', P s -> store_loop fuel addr buf cnt device block s = Some (r, s') -> P s'.
Proof.
  induction buf as [|b buf IH]; intros addr cnt device block s r s' Hs E; cbn [store_loop] in E; [injection E as _ <-; exact Hs|].
  destruct (store_poll fuel device block s) as [s1|] eqn:Ep; [|discriminate]. apply store_poll_keeps in Ep; [|exact Hs].
  assert (P (eepReadAck (eepWriteByte addr s1)).2) as Ha by (apply eepReadAck_keeps; auto).
  destruct (eepReadAck _) as [r1 s2]. cbn [snd] in Ha. destruct (r1 =? ERROR); [injection E as _ <-; exact Ha|].
  assert (P (eepReadAck (eepWriteByte b s2)).2) as Hb by (apply eepReadAck_keeps; auto).
  assert (forall b', (let '(r, s) := eepReadAck (eepWriteByte b s2) in
    if r =? ERROR then Some (ERROR, s) else store_loop fuel (u8 (addr + 1)) buf cnt device b' (eepStop s)) = Some (r, s') -> P s') as Next.
  { intros b' E'. destruct (eepReadAck (eepWriteByte b s2)) as [r2 s3]. cbn [snd] in Hb.
    destruct (r2 =? ERROR); [injection E' as _ <-; exact Hb|]. eapply IH; [|exact E']. auto. }
  destruct (_ && _); [destruct (block =? FIRST_BLOCK); [exact (Next _ E)|injection E as _ <-; exact Ha]|exact (Next _ E)].
Qed.
Lemma el_srom_store_keeps fuel addr buf device block s r s' : P s -> el_srom_store fuel addr buf device block s = Some (r, s') -> P s'.
Proof. apply store_loop_keeps. Qed.
End eeprom.

(** ** The NVRAM *)

Section nvram.
Context {St : Type} `{PortIO St} (P : St -> Prop).
Definition is_rtc (port : Z) : Prop := port = RTC_PORT_ADDR0 \/ port = RTC_PORT_ADDR1 \/ port = RTC_PORT_DATA.
Hypothesis P_out : forall port v s, is_rtc port -> P s -> P (out8 port v s).
Hypothesis P_in : forall port s, is_rtc port -> P s -> P (in8 port s).2.

Lemma rtc_read_keeps reg s : P s -> P (rtc_read reg s).2.
Proof. intros. unfold rtc_read. apply P_in; [unfold is_rtc; tauto|]. repeat (apply P_out; [unfold is_rtc; tauto|]). assumption. Qed.
Lemma rtc_write_keeps reg v s : P s -> P (rtc_write reg v s).
Proof. intros. unfold rtc_write. repeat (apply P_out; [unfold is_rtc; tauto|]). assumption. Qed.
Lemma nvram_read_keeps m dest src n s : P s -> P (nvram_read m dest src n s).2.
Proof.
  revert m dest src s. induction n as [|n IH]; intros m dest src s Hs; cbn [nvram_read]; [exact Hs|].
  pose proof (rtc_read_keeps src s Hs) as Hr. destruct (rtc_read src s) as [v s1]. apply IH, Hr.
Qed.
Lemma nvram_write_keeps m dest src n s : P s -> P (nvram_write m dest src n s).
Proof. revert dest src s. induction n as [|n IH]; intros dest src s Hs; cbn [nvram_write]; [exact Hs|]. apply IH, rtc_write_keeps, Hs. Qed.
End nvram.

(** ** The PCI bus and the registers on it *)

Section pci.
Context {St : Type} `{PciIO St} (P : St -> Prop).
Hypothesis P_out : forall n a v s, P s -> P (io_out n a v s).
Hypothesis P_in : forall n a s, P s -> P (io_in n a s).2.

(** It returns, keeps the predicate and the hose. *)
Definition quiet {A} (m : M (St := St) A) : Prop := forall w, P (machine w) ->
  exists a w', m w = Some (a, w') /\ P (machine w') /\ hose w' = hose w.

Lemma quiet_ret {A} (a : A) : quiet (mret a).
Proof. intros w Hw. exists a, w. auto. Qed.
Lemma quiet_bind {A B} (m : M A) (k : A -> M B) : quiet m -> (forall a, quiet (k a)) -> quiet (m ≫= k).
Proof.
  intros Hm Hk w Hw. destruct (Hm w Hw) as (a & w1 & E1 & P1 & H1). destruct (Hk a w1 P1) as (b & w2 & E2 & P2 & H2).
  exists b, w2. rewrite (bind_run _ _ _ _ _ E1). split_and!; [exact E2|exact P2|congruence].
Qed.
Lemma quiet_hose : quiet get_hose.
Proof. intros w Hw. exists (hose w), w. auto. Qed.
Lemma quiet_lift {A} (f : St -> A * St) : (forall s, P s -> P (f s).2) -> quiet (lift f).
Proof. intros Hf w Hw. unfold lift. specialize (Hf _ Hw). destruct (f (machine w)) as [a s]. do 2 eexists. split; [reflexivity|]. auto. Qed.
Lemma quiet_read ca cd n dev off : quiet (pci_read_config ca cd n dev off).
Proof.
  intros w Hw. unfold pci_read_config, mbind, M_bind, get_hose. destruct (pci_bus_to_hose _ _); [|exact (quiet_ret _ w Hw)].
  unfold read_config. pose proof (P_in n (cd + (off .& data_mask n)) _ (P_out 4 ca (select (hose w) dev off) _ Hw)) as Hr.
  destruct (io_in n _ _) as [v s]. do 2 eexists. split; [reflexivity|]. auto.
Qed.
Lemma quiet_write ca cd n dev off v : quiet (pci_write_config ca cd n dev off v).
Proof.
  intros w Hw. unfold pci_write_config, mbind, M_bind, get_hose. destruct (pci_bus_to_hose _ _); [|exact (quiet_ret _ w Hw)].
  unfold write_config. do 2 eexists. split; [reflexivity|]. cbn. auto.
Qed.

Lemma quiet_on_bus ca cd ids n : forall bdf fm idx, quiet (find_on_bus ca cd ids n bdf fm idx).
Proof.
  induction n as [|n IH]; intros bdf fm idx; cbn [find_on_bus]; [apply quiet_ret|].
  assert (forall f, quiet (vendor ← pci_read_config ca cd 2 bdf PCI_VENDOR_ID; device ← pci_read_config ca cd 2 bdf PCI_DEVICE_ID;
    match match_ids ids vendor device bdf idx with inl r => mret (inl r) | inr i => find_on_bus ca cd ids n (bdf + PCI_BDF 0 0 1) f i end)) as Hp.
  { intros f. apply quiet_bind; [apply quiet_read|intros v]. apply quiet_bind; [apply quiet_read|intros d].
    destruct (match_ids ids v d bdf idx); [apply quiet_ret|apply IH]. }
  destruct (_ =? 0); [apply quiet_bind; [apply quiet_read|intros; apply Hp]|]. destruct (fm =? 0); [apply IH|apply Hp].
Qed.
Lemma quiet_on_buses ca cd ids n : forall bus fm idx, quiet (find_on_buses ca cd ids n bus fm idx).
Proof.
  induction n as [|n IH]; intros bus fm idx; cbn [find_on_buses]; [apply quiet_ret|].
  apply quiet_bind; [apply quiet_on_bus|]. intros [bdf|[f i]]; [apply quiet_ret|apply IH].
Qed.
Lemma quiet_find_device ca cd v d i : quiet (pci_find_device ca cd v d i).
Proof. apply quiet_bind; [apply quiet_hose|]. intros h. apply quiet_on_buses. Qed.

(** The network controller's EEPROM. *)
Lemma sendto_keeps v a s : P s -> P (sendto_srom v a s).
Proof. apply P_out. Qed.
Lemma getfrom_keeps a s : P s -> P (getfrom_srom a s).2.
Proof. intros Hs. unfold getfrom_srom. pose proof (P_in 4 a s Hs) as Hi. destruct (io_in 4 a s). exact Hi. Qed.
#[local] Hint Resolve sendto_keeps : core.
Lemma latch_keeps v a s : P s -> P (srom_latch v a s).
Proof. intros. unfold srom_latch. auto. Qed.
#[local] Hint Resolve latch_keeps : core.
Lemma latch_times_keeps n : forall v a s, P s -> P (latch_times n v a s).
Proof. induction n as [|n IH]; intros v a s Hs; cbn [latch_times]; auto. Qed.
Lemma address_bits_keeps n : forall c a v s, P s -> P (address_bits n c a v s).
Proof. induction n as [|n IH]; intros c a v s Hs; cbn [address_bits]; auto. Qed.
Lemma word_bits_keeps n : forall c a v s, P s -> P (Dcsrom.write_bits n c a v s).
Proof. induction n as [|n IH]; intros c a v s Hs; cbn [Dcsrom.write_bits]; auto 6. Qed.
Lemma wait_ready_keeps n : forall a s, P s -> P (wait_ready n a s).2.
Proof.
  induction n as [|n IH]; intros a s Hs; cbn [wait_ready]; [exact Hs|]. pose proof (getfrom_keeps a s Hs) as Hg.
  destruct (getfrom_srom a s) as [v s1]. destruct (_ =? 0x8); [exact Hg|apply IH, Hg].
Qed.
Lemma srom_wr_keeps a off v s : P s -> P (srom_wr a off v s).2.
Proof.
  intros Hs. unfold srom_wr, srom_data_wr, srom_address, srom_command_wr, srom_wr_enable. set (s1 := snd (getfrom_srom a _)).
  assert (P s1) as H1 by (apply getfrom_keeps, address_bits_keeps; do 4 apply latch_keeps; apply sendto_keeps, latch_times_keeps; auto 8).
  set (s2 := sendto_srom _ a _). assert (P s2) as H2 by (apply sendto_keeps, sendto_keeps, word_bits_keeps; exact H1).
  pose proof (wait_ready_keeps 100 a s2 H2) as H3. destruct (wait_ready 100 a s2). exact H3.
Qed.
Lemma store_words_keeps l : forall a off s, P s -> P (store_words l a off s).2.
Proof.
  induction l as [|v l IH]; intros a off s Hs; cbn [store_words]; [exact Hs|]. pose proof (srom_wr_keeps a off v s Hs) as Hw.
  destruct (srom_wr a off v s) as [r s1]. destruct (r =? -1); [exact Hw|apply IH, Hw].
Qed.
Lemma quiet_dc_srom_store ca cd src : quiet (dc_srom_store ca cd src).
Proof.
  apply quiet_bind; [|intros a; apply quiet_lift; intros s Hs; apply store_words_keeps, Hs].
  apply quiet_bind; [apply quiet_read|intros bar]. apply quiet_bind; [apply quiet_hose|intros h]. apply quiet_ret.
Qed.
End pci.

(** ** The board's machine *)

(** One machine with every chip on it: the clock chip, the revision EEPROM with its write cycle and the
    cache controller, which has finished an invalidation after at most [l2] polls.  An access meant for
    one of them, or for the PCI bus, does not reach the others. *)
Class BoardChips (cycle l2 : nat) (St : Type) `{PortIO St} `{PciIO St} `{SprIO St} := {
  board_rtc :: RtcChip St;
  board_eeprom :: EepromPort SECOND_DEVICE cycle St;
  cell_i2c s port v r : is_i2c port -> cell (out8 port v s) r = cell s r /\ cell (in8 port s).2 r = cell s r;
  bus_rtc s port v : is_rtc port ->
    bus SECOND_DEVICE cycle (out8 port v s) = bus SECOND_DEVICE cycle s /\ bus SECOND_DEVICE cycle (in8 port s).2 = bus SECOND_DEVICE cycle s;
  cell_pci s n a v r : cell (io_out n a v s) r = cell s r /\ cell (io_in n a s).2 r = cell s r;
  bus_pci s n a v :
    bus SECOND_DEVICE cycle (io_out n a v s) = bus SECOND_DEVICE cycle s /\ bus SECOND_DEVICE cycle (io_in n a s).2 = bus SECOND_DEVICE cycle s;
  cell_spr s n v r : cell (mtspr n v s) r = cell s r /\ cell (mfspr n s).2 r = cell s r /\ cell (touch n s) r = cell s r;
  bus_spr s n v : bus SECOND_DEVICE cycle (mtspr n v s) = bus SECOND_DEVICE cycle s /\
    bus SECOND_DEVICE cycle (mfspr n s).2 = bus SECOND_DEVICE cycle s /\ bus SECOND_DEVICE cycle (touch n s) = bus SECOND_DEVICE cycle s;
  l2_left : St -> nat;
  l2_started s v : (l2_left (mtspr SPRN_L2CR v s) <= l2)%nat;
  l2_polled s : match l2_left s with
    | O => (mfspr SPRN_L2CR s).1 .& L2CR_IP = 0
    | S k => l2_left (mfspr SPRN_L2CR s).2 = k
    end
}.

Section copies.
Context {cycle l2 : nat} {St : Type} `{BoardChips cycle l2 St}.

(** The EEPROM holds [ee] and is at rest, [bz] polls from ready; the NVRAM holds [nv]. *)
Definition copies (ee : mem) (nv : Z -> Z) (bz : nat) (s : St) : Prop :=
  exists e, resting SECOND_DEVICE cycle s e /\ at_rest e /\ Srom.busy e = bz /\ Srom.cells e = ee /\ forall r, cell s r = nv r.

Lemma copies_eq ee nv bz s s' : bus SECOND_DEVICE cycle s' = bus SECOND_DEVICE cycle s -> (forall r, cell s' r = cell s r) ->
  copies ee nv bz s -> copies ee nv bz s'.
Proof.
  intros Hb Hc (e & (d & R) & Hr & Hz & He & Hn). exists e. split_and!; auto.
  - exists d. congruence.
  - intros r. rewrite Hc. apply Hn.
Qed.

Lemma copies_out ee nv bz n a v s : copies ee nv bz s -> copies ee nv bz (io_out n a v s).
Proof. apply copies_eq; [apply bus_pci|intros r; apply cell_pci; exact 0]. Qed.
Lemma copies_in ee nv bz n a s : copies ee nv bz s -> copies ee nv bz (io_in n a s).2.
Proof. apply copies_eq; [apply bus_pci; exact 0|intros r; apply cell_pci; exact 0]. Qed.
Lemma copies_mtspr ee nv bz n v s : copies ee nv bz s -> copies ee nv bz (mtspr n v s).
Proof. apply copies_eq; [apply bus_spr|intros r; apply cell_spr]. Qed.
Lemma copies_mfspr ee nv bz n s : copies ee nv bz s -> copies ee nv bz (mfspr n s).2.
Proof. apply copies_eq; [apply bus_spr; exact 0|intros r; apply cell_spr; exact 0]. Qed.
Lemma copies_touch ee nv bz n s : copies ee nv bz s -> copies ee nv bz (touch n s).
Proof. apply copies_eq; [apply bus_spr; exact 0|intros r; apply cell_spr; exact 0]. Qed.
Lemma copies_gpio ee nv bz s : copies ee nv bz s -> copies ee nv bz (in8 I2C_BUS_DAT s).2.
Proof. apply copies_eq; [apply bus_in|intros r; apply cell_i2c; [exact 0|apply dat_i2c]]. Qed.

(** *** The transfers of a start *)

Lemma load_copies ee nv s : mem_ok ee -> copies ee nv 0 s ->
  exists s', el_srom_load 0x0000 0x100 SECOND_DEVICE FIRST_BLOCK s = (0x100, read_bytes ee 0 256, s') /\ copies ee nv 0 s'.
Proof.
  intros Hm (e & R & Hr & Hz & <- & Hn). unfold el_srom_load.
  pose proof (load_loop_spec SECOND_DEVICE cycle (or_intror eq_refl) 256 0 0x100 FIRST_BLOCK s e (or_introl eq_refl) R Hr Hz Hm ltac:(lia)) as L.
  pose proof (load_loop_keeps (fun s => forall r, cell s r = nv r)) as K.
  specialize (K ltac:(intros port v t Hp Ht r; rewrite (proj1 (cell_i2c t port v r Hp)); apply Ht)
    ltac:(intros port t Hp Ht r; rewrite (proj2 (cell_i2c t port 0 r Hp)); apply Ht) 256%nat 0 0x100 SECOND_DEVICE FIRST_BLOCK s Hn).
  change (Z.to_nat 0x100) with 256%nat. cbv zeta in L. destruct (load_loop _ _ _ _ _ _) as [[r l] s'].
  destruct L as (-> & -> & e' & R' & Hr' & Hz' & He'). exists s'. split; [reflexivity|]. exists e'. auto.
Qed.

Lemma store_copies fuel ee nv l s : (cycle < fuel)%nat -> Forall is_u8 l -> (0 < List.length l)%nat -> zlen l <= 512 -> copies ee nv 0 s ->
  exists s', el_srom_store fuel 0 l SECOND_DEVICE FIRST_BLOCK s = Some (zlen l, s') /\ copies (put_bytes ee 0 l) nv cycle s'.
Proof.
  intros Hf Hu Hl Hz (e & R & Hr & Hb & <- & Hn).
  destruct (store_loop_spec SECOND_DEVICE cycle (or_intror eq_refl) l fuel 0 (zlen l) FIRST_BLOCK s e (or_introl eq_refl) R Hr)
    as (s' & E & e' & R' & Hr' & He' & Hb'); [lia|exact Hf|exact Hu|lia|exact Hz|].
  exists s'. split; [exact E|]. exists e'. split_and!; auto; [destruct l; [cbn in Hl; lia|exact Hb']|].
  refine (store_loop_keeps (fun s => forall r, cell s r = nv r) _ _ fuel l 0 _ _ _ s _ s' Hn E).
  - intros port v t Hp Ht r. rewrite (proj1 (cell_i2c t port v r Hp)). apply Ht.
  - intros port t Hp Ht r. rewrite (proj2 (cell_i2c t port 0 r Hp)). apply Ht.
Qed.

Lemma nvram_read_copies ee nv bz m dest src n s : 0 <= src -> src + Z.of_nat n <= 0x2000 -> copies ee nv bz s ->
  exists m' s', nvram_read m dest src n s = (m', s') /\ copies ee nv bz s' /\
    (forall i, 0 <= i < Z.of_nat n -> m' (dest + i) = nv (src + i)) /\ same_outside dest (dest + Z.of_nat n) m m'.
Proof.
  intros H1' H2' (e & [d R] & Hr & Hb & He & Hn).
  destruct (nvram_read_spec m dest src n s H1' H2') as (m' & s' & E & Hc & Ho & Hk).
  assert (bus SECOND_DEVICE cycle s' = Lines d 0 e) as R'.
  { change s' with (m', s').2. rewrite <- E. apply (nvram_read_keeps (fun s => bus SECOND_DEVICE cycle s = Lines d 0 e)); [| |exact R].
    - intros port v t Hp Ht. rewrite (proj1 (bus_rtc t port v Hp)). exact Ht.
    - intros port t Hp Ht. rewrite (proj2 (bus_rtc t port 0 Hp)). exact Ht. }
  exists m', s'. split; [exact E|]. split; [|split; [intros i Hi; rewrite Hc by exact Hi; apply Hn|exact Ho]].
  exists e. split_and!; auto; [exists d; exact R'|]. intros r. rewrite Hk. apply Hn.
Qed.

(** The NVRAM after [n] cells were written. *)
Definition shadowed (nv : Z -> Z) (dest n : Z) (m : mem) (src : Z) : Z -> Z :=
  fun r => if (dest <=? r) && (r <? dest + n) then m (src + (r - dest)) else nv r.
Lemma nvram_write_copies ee nv bz m dest src n s : mem_ok m -> 0 <= dest -> dest + Z.of_nat n <= 0x2000 -> copies ee nv bz s ->
  copies ee (shadowed nv dest (Z.of_nat n) m src) bz (nvram_write m dest src n s).
Proof.
  intros Hm H1' H2' (e & [d R] & Hr & Hb & He & Hn). exists e. split_and!; auto.
  - exists d. apply (nvram_write_keeps (fun s => bus SECOND_DEVICE cycle s = Lines d 0 e)); [|exact R].
    intros port v t Hp Ht. rewrite (proj1 (bus_rtc t port v Hp)). exact Ht.
  - intros r. rewrite nvram_write_spec by assumption. unfold shadowed. destruct (_ && _); [reflexivity|apply Hn].
Qed.

(** *** The cache *)

Lemma l2_wait_returns fuel : forall s (P : St -> Prop), (forall s, P s -> P (mfspr SPRN_L2CR s).2) -> (l2_left s < fuel)%nat -> P s ->
  exists s', l2_wait fuel s = Some s' /\ P s'.
Proof.
  induction fuel as [|f IH]; intros s P HP Hf Hs; [lia|]. cbn [l2_wait]. pose proof (l2_polled s) as Hp. pose proof (HP s Hs) as Hs'.
  destruct (mfspr SPRN_L2CR s) as [v s1] eqn:E. cbn [fst snd] in *. destruct (Z.eqb_spec (v .& L2CR_IP) 0) as [Ez|Ez]; [eauto|].
  destruct (l2_left s) as [|k]; [congruence|]. apply (IH s1 P HP); [lia|exact Hs'].
Qed.

Lemma dummy_reads_keeps (P : St -> Prop) n : (forall d s, P s -> P (touch d s)) -> forall d s, P s -> P (dummy_reads n d s).
Proof. intros HP. induction n as [|n IH]; intros d s Hs; cbn [dummy_reads]; [exact Hs|]. apply IH, HP, Hs. Qed.

Lemma quiet_l2 fuel l2control ee nv bz : (l2 < fuel)%nat -> quiet (copies ee nv bz) (l2_cache_enable fuel l2control).
Proof.
  intros Hf. unfold l2_cache_enable. destruct (negb (l2control =? 0)).
  - intros w Hw. unfold l2_cpu_enable. set (s1 := mtspr SPRN_L2CR _ (machine w)). pose proof (l2_started s1 (u32 (l2control .| L2CR_I))) as Hl.
    destruct (l2_wait_returns fuel (mtspr SPRN_L2CR (u32 (l2control .| L2CR_I)) s1) (copies ee nv bz)) as (s2 & -> & H2').
    + intros s Hs. apply copies_mfspr, Hs.
    + lia.
    + apply copies_mtspr, copies_mtspr, Hw.
    + cbn [mbind option_bind]. do 2 eexists. split; [reflexivity|]. split; [apply copies_mtspr, H2'|reflexivity].
  - pose proof (quiet_read (copies ee nv bz) (copies_out _ _ _) (copies_in _ _ _)) as Qr.
    pose proof (quiet_write (copies ee nv bz) (copies_out _ _ _)) as Qw.
    apply quiet_bind; [apply quiet_find_device; [apply copies_out|apply copies_in]|]. intros dev.
    destruct (dev =? -1); [apply quiet_ret|].
    repeat (first [apply quiet_ret | apply quiet_bind; [first [apply Qr|apply Qw|apply quiet_lift]|intros] | progress cbv zeta]).
    + intros s Hs. apply copies_gpio, Hs.
    + intros s Hs. cbn [snd]. apply dummy_reads_keeps; [intros d t Ht; apply copies_touch, Ht|exact Hs].
Qed.
End copies.

(** ** A concrete board *)

(** The clock chip, the two-wire bus with the EEPROM, the address latch of the PCI
    bridge with the cards of [small_bus] behind it, and the polls until the cache is clean. *)
Record bench := Bench { clock : Rtc.chip; twowire : Srom.lines; latch : Z; dirty : nat }.

#[export] Instance bench_ports : PortIO bench := {
  out8 p v s := Bench (out8 p v (clock s)) (out8 p v (twowire s)) (latch s) (dirty s);
  in8 p s := ((if (p =? I2C_BUS_DAT) || (p =? I2C_BUS_DIR) then (in8 p (twowire s)).1 else (in8 p (clock s)).1), s)
}.
#[export] Instance bench_pci : PciIO bench := {
  io_out n p v s := Bench (clock s) (twowire s) (io_out n p v (latch s)) (dirty s);
  io_in n p s := ((io_in n p (latch s)).1, s)
}.
#[export] Instance bench_spr : SprIO bench := {
  mtspr r v s := Bench (clock s) (twowire s) (latch s) (if r =? SPRN_L2CR then 5 else dirty s);
  mfspr r s := match dirty s with O => (0, s) | S k => (L2CR_IP, Bench (clock s) (twowire s) (latch s) k) end;
  touch d s := s
}.

#[export] Instance bench_rtc : RtcChip bench.
Proof.
  refine {| cell s r := cell (clock s) r |}.
  - intros s r. apply cell_u8.
  - intros s lo hi Hlo Hhi. pose proof (chip_read (clock s) lo hi Hlo Hhi) as R. cbn in *. exact R.
  - intros s lo hi v Hlo Hhi Hv r. exact (chip_write (clock s) lo hi v Hlo Hhi Hv r).
Defined.
#[export] Instance bench_eeprom : EepromPort SECOND_DEVICE 3 bench.
Proof.
  refine {| bus s := twowire s |}.
  - reflexivity.
  - reflexivity.
  - intros s. exact (bus_in SECOND_DEVICE 3 (twowire s)).
Defined.
#[export] Instance bench_chips : BoardChips 3 5 bench.
Proof.
  refine {| board_rtc := bench_rtc; board_eeprom := bench_eeprom; l2_left := dirty |}.
  - intros s port v r [-> | ->]; split; reflexivity.
  - intros s port v [-> | [-> | ->]]; split; reflexivity.
  - intros; split; reflexivity.
  - intros; split; reflexivity.
  - intros s n v r. cbn. destruct (dirty s); split_and!; reflexivity.
  - intros s n v. cbn. destruct (dirty s); split_and!; reflexivity.
  - intros s v. cbn. lia.
  - intros s. cbn. destruct (dirty s); reflexivity.
Defined.

(** The board with given contents, the EEPROM at rest. *)
Definition bench_with (ee nv : mem) : bench := Bench (Rtc.Chip 0 0 nv) (Srom.Lines 0 0 (Eeprom ee 0 [] 0 Idle)) 0 0.
Lemma bench_copies ee nv : mem_ok nv -> copies (cycle := 3) (l2 := 5) ee nv 0 (bench_with ee nv).
Proof.
  intros Hn. exists (Eeprom ee 0 [] 0 Idle). split; [exists 0; reflexivity|]. split; [split; reflexivity|]. split; [reflexivity|]. split; [reflexivity|].
  intros r. apply u8_small, Hn.
Qed.
