(* ===== verification/Identity.v ===== *)
(** * The board's identity (misc_init_r of board/eltec/bab7xx/misc.c)

    The revision record is kept three times: in the EEPROM, as a shadow in the
    NVRAM, and, as far as the node address goes, in the environment and the EEPROM of the
    network controller.  misc_init_r makes them agree at every start.  Its local variables
    are a piece of memory of their own, laid out as below; what the stack held before
    is arbitrary, and the string literals behind the two arrays end any string that runs
    out of them.  The lines of the operator come from the input of the environment's state. *)

From S2P Require Import Prelude CMem CString Strto Vsprintf CmdLine Readline Rtc Env Mac Srom Pci Dcsrom Board.

(** ** The frame of the routine *)

Definition EEREV : Z := 0x1000.
Definition BUF : Z := 0x1100.
Definition LITERALS : Z := 0x1200.
Definition L_ELTEC : Z := LITERALS.
Definition L_75 : Z := LITERALS + 6.
Definition literals : list Z := str "ELTEC" ++ [0] ++ str "75" ++ [0].
(** Enough for every scan: from anywhere in the arrays the literals are nearer. *)
Definition SCAN : nat := 0x300.

Definition hex : list Z := [0; 1; 2; 3; 4; 5; 6; 7; 8; 9; 0; 0; 0; 0; 0; 0; 0; 10; 11; 12; 13; 14; 15].
Definition sromSYM : list Z :=
  repeat 0x00 18 ++
  [0x04; 0x01] ++
  repeat 0x00 7 ++
  [0x1e; 0x00; 0x00; 0x00; 0x08; 0x04; 0x86; 0x02; 0x00; 0xaf; 0x08; 0xa5; 0x00; 0x86; 0x02; 0x04; 0xaf; 0x08; 0xa5; 0x00; 0x88; 0x04; 0x03; 0x27; 0x08; 0x25; 0x00; 0x61; 0x80; 0x88; 0x04; 0x05; 0x27; 0x08; 0x25; 0x00; 0x61; 0x80] ++
  repeat 0x00 61 ++
  [0x05; 0x77].
Definition sromMII : list Z :=
  repeat 0x00 18 ++
  [0x04; 0x01; 0x00; 0x00; 0x5b; 0x00; 0x2e; 0x4d; 0x00; 0x1e; 0x00; 0x00; 0x00; 0x08; 0x01; 0x95; 0x03; 0x00; 0x00; 0x04; 0x01; 0x08; 0x00; 0x00; 0x02; 0x08; 0x02; 0x00; 0x00; 0x78; 0xe0; 0x01; 0x00; 0x50; 0x00; 0x18; 0x80] ++
  repeat 0x00 71 ++
  [0xde; 0x41].
(** The array with the node address at its bytes 20..25, as shorts. *)
Definition with_address (a : list Z) (srom : list Z) : list Z := take 20 srom ++ a ++ drop 26 srom.
Fixpoint shorts (l : list Z) : list Z :=
  match l with a :: b :: l => ((a .<< 8) .| b) :: shorts l | _ => [] end.

(** ** The state *)

Record disk := Disk { ata_reset_time : Z; scsi_reset_time : Z; scsi_dev_id : Z; scsi_max_scsi_id : Z; scsi_sym53c8xx_ccf : Z }.
Definition disk_defaults : disk := Disk 60 10 PCI_DEVICE_ID_NCR_53C875 15 0x13.

Section misc.
Context {St : Type} `{PortIO St} `{PciIO St} `{SprIO St} {C : Type} `{Console C}.
(** What lies around the table [hex] on the stack, and what a read through NULL finds. *)
Context (around_hex : Z -> Z) (null_text : list Z).
(** Bounds: on the polls of the EEPROM and the cache, on the scans of the environment. *)
Context (polls : nat) (fuel : nat).

Record board := Board {
  bus_world : world (St := St); settings : env_state (C := C); console_buffer : mem; frame : mem;
  eltec_board : Z; disks : disk
}.
Definition B (A : Type) : Type := board -> option (A * board).
#[export] Instance B_ret : MRet B := fun A a b => Some (a, b).
#[export] Instance B_bind : MBind B := fun A B' k m b => match m b with Some (a, b) => k a b | None => None end.

Definition set_world (w : world (St := St)) (b : board) : board := Board w (settings b) (console_buffer b) (frame b) (eltec_board b) (disks b).
Definition set_settings (s : env_state (C := C)) (b : board) : board :=
  Board (bus_world b) s (console_buffer b) (frame b) (eltec_board b) (disks b).
Definition set_frame (m : mem) (b : board) : board := Board (bus_world b) (settings b) (console_buffer b) m (eltec_board b) (disks b).
Definition set_disks (d : disk) (b : board) : board := Board (bus_world b) (settings b) (console_buffer b) (frame b) (eltec_board b) d.
Definition set_kind (k : Z) (b : board) : board := Board (bus_world b) (settings b) (console_buffer b) (frame b) k (disks b).

Definition asks {A} (f : board -> A) : B A := fun b => Some (f b, b).
Definition modify (f : board -> board) : B unit := fun b => Some (tt, f b).
Definition pci {A} (m : M (St := St) A) : B A := fun b =>
  match m (bus_world b) with Some (a, w) => Some (a, set_world w b) | None => None end.
Definition chip {A} (f : St -> A * St) : B A := pci (lift f).
Definition option_B {A} (o : option A) : B A := fun b => match o with Some a => Some (a, b) | None => None end.
Definition local : B mem := asks frame.
Definition put (a : Z) (l : list Z) : B unit := modify (fun b => set_frame (put_bytes (frame b) a l) b).
Definition poke (a v : Z) : B unit := modify (fun b => set_frame (upd (frame b) a v) b).
Definition poke32 (a v : Z) : B unit := modify (fun b => set_frame (store32 (frame b) a v) b).
Definition key (i : Z) : B Z := asks (fun b => console_buffer b i).

Definition set_input (l : list Z) (s : env_state (C := C)) : env_state :=
  EnvState (edata s) (ecrc s) (env_id s) (gd_baudrate s) (bi_baudrate s) (bi_ip_addr s) (Env.load_addr s) (BootFile s) (cons s) l.
(** readline (NULL) *)
Definition readline : B Z := fun b =>
  match buf_readline (console_buffer b) (input (settings b)) with
  | Some (r, m, rest) =>
      Some (r, Board (bus_world b) (set_input rest (settings b)) m (frame b) (eltec_board b) (disks b))
  | None => None
  end.

(** *** Environment *)

(** The result of setenv is not looked at. *)
Definition setvar (name value : list Z) : B unit := fun b =>
  match setenv null_text fuel (settings b) name (Some value) with
  | Some (_, s) => Some (tt, set_settings s b)
  | None => None
  end.
Definition getvar (name : list Z) : B (option Z) := b ← asks settings; option_B (getenv (edata b) name).
Definition value_at (a : Z) : B (list Z) := asks (fun b => text_at (Z.to_nat ENV_SIZE) (edata (settings b)) a).
(** The first character behind a pointer that may be NULL. *)
Definition first_char (a : option Z) : B Z :=
  match a with Some a => asks (fun b => edata (settings b) a) | None => mret (cur null_text) end.

(** ** misc_init_r, part by part *)

(** The record out of the EEPROM, what it answers; the shadow out of the NVRAM. *)
Definition load_revision : B unit :=
  l ← chip (fun s => let '(r, l, s) := el_srom_load 0x0000 0x100 SECOND_DEVICE FIRST_BLOCK s in ((r, l), s));
  put EEREV l.2;;
  m ← local;
  m ← chip (nvram_read m BUF CONFIG_SYS_NV_SROM_COPY_ADDR (Z.to_nat CONFIG_SYS_SROM_SIZE));
  modify (set_frame m).

Definition default_revision : B unit :=
  put EEREV (replicate 256 0);;
  put (EEREV + magic) (str "ELTEC" ++ [0]);;
  poke (EEREV + revrev) 1;; poke (EEREV + revrev + 1) 0;;
  put (EEREV + size_of_crc) [0x00; 0xE0];;
  poke (EEREV + category) 0x01;;
  put (EEREV + etheraddr) [0x00; 0x00; 0x5B; 0x00; 0x2E; 0x4D];;
  poke32 (EEREV + res) CLK2P0TO1_1MB_PB_0P5DH.

(** A record without the magic word is replaced: copyNv and initSrom. *)
Definition check_magic : B (bool * bool) :=
  m ← local;
  r ← option_B (strcmp SCAN m (EEREV + magic) L_ELTEC);
  if negb (r =? 0) then default_revision;; mret (true, true) else mret (false, false).

(** The two copies differ: copy, or enter a new record, or neither. *)
Definition ask_copy (copyNv initSrom : bool) : B (bool * bool) :=
  m ← local;
  if negb copyNv &&
     negb (el_srom_checksum (read_bytes m EEREV (Z.to_nat CONFIG_SYS_SROM_SIZE)) =?
           el_srom_checksum (read_bytes m BUF (Z.to_nat CONFIG_SYS_SROM_SIZE))) then
    r ← readline;
    if negb (r =? 0) then
      c ← key 0;
      let k := u8 (toupper c) in
      if k =? chr "C" then mret (true, initSrom) else if k =? chr "R" then mret (true, true) else mret (copyNv, initSrom)
    else mret (copyNv, initSrom)
  else mret (copyNv, initSrom).

(** *** The dialogue *)

Definition enter_revision : B unit :=
  modify (fun b => set_frame (memcpy (frame b) BUF (EEREV + revision) 14).2 b);;
  r ← readline;
  (if negb (r =? 0) then
     c ← key 0;
     poke (EEREV + revision) (u8 (toupper c));;
     modify (fun b => set_frame (memcpy (frame b) (EEREV + revision + 2) BUF 12).2 b)
   else mret tt);;
  r ← readline;
  if r =? 1 then c ← key 0; poke (EEREV + revision + 1) (u8 (toupper c)) else mret tt.

(** for (i=0; i<n; i++) field[i] = f (console_buffer[i]) *)
Fixpoint copy_keys (f : Z -> Z) (n : nat) (a i : Z) : B unit :=
  match n with O => mret tt | S n => c ← key i; poke a (f c);; copy_keys f n (a + 1) (i + 1) end.
Definition enter_board : B unit :=
  r ← readline;
  if r =? 11 then copy_keys (fun c => u8 (toupper c)) 11 (EEREV + board_name) 0;; poke (EEREV + board_name + 11) 0 else mret tt.
Definition enter_serial : B unit :=
  r ← readline;
  if r =? 6 then copy_keys id 6 (EEREV + serial) 0;; poke (EEREV + serial + 6) 0 else mret tt.

(** hex[toupper(c) - '0'], wherever that is. *)
Definition hex_value (c : Z) : Z :=
  let i := toupper c - chr "0" in if (0 <=? i) && (i <? 23) then nth (Z.to_nat i) hex 0 else around_hex i.
(** [n] bytes from two digits each. *)
Fixpoint copy_hex (n : nat) (a i : Z) : B unit :=
  match n with
  | O => mret tt
  | S n => c ← key i; d ← key (i + 1); poke a (u8 (16 * hex_value c + hex_value d));; copy_hex n (a + 1) (i + 2)
  end.
Definition enter_address : B unit := r ← readline; if r =? 12 then copy_hex 6 (EEREV + etheraddr) 0 else mret tt.

Definition enter_text : B unit :=
  m ← local;
  l ← option_B (strlen SCAN m (EEREV + text));
  r ← readline;
  if negb (r =? 0) then copy_keys id (Z.to_nat (63 - l)) (EEREV + text + l) 0;; poke (EEREV + text + 63) 0 else mret tt.

(** A name with "75" in it is a BAB750. *)
Definition identify : B Z :=
  m ← local;
  p ← option_B (strstr SCAN m (EEREV + board_name) L_75);
  let k := if negb (p =? NULL) then 750 else 740 in
  modify (set_kind k);; mret k.

Definition enter_cache_word : B unit :=
  pvr ← chip (mfspr SPRN_PVR);
  poke32 (EEREV + res) (if (pvr .>> 16) .& 0xffff =? CPU_TYPE_750 then CLK2P0TO1_1MB_PB_0P5DH else CLK2P5TO1_1MB_PB_0P5DH);;
  r ← readline;
  if negb (r =? 0) then copy_hex 4 (EEREV + res) 0 else mret tt.
(** The EEPROM of the network controller; a failure is only reported. *)
Definition store_address (srom : list Z) : B unit :=
  m ← local;
  _ ← pci (dc_srom_store MPC106_REG_ADDR MPC106_REG_DATA (shorts (with_address (read_bytes m (EEREV + etheraddr) 6) srom)));
  mret tt.

Definition shadow : B unit :=
  m ← local;
  chip (fun s => (tt, nvram_write m CONFIG_SYS_NV_SROM_COPY_ADDR EEREV (Z.to_nat CONFIG_SYS_SROM_SIZE) s)).
(** The checksum, the EEPROM, the shadow. *)
Definition store_revision : B unit :=
  m ← local;
  let size := (m (EEREV + size_of_crc) .<< 8) .| m (EEREV + size_of_crc + 1) in
  poke32 (EEREV + crc) (el_srom_checksum (read_bytes m (EEREV + board_name) (Z.to_nat size)));;
  m ← local;
  _ ← (fun b => match el_srom_store polls (BLOCK_SIZE - 0x100) (read_bytes m EEREV 256) SECOND_DEVICE FIRST_BLOCK (machine (bus_world b)) with
                | Some (r, s) => Some (r, set_world (World (hose (bus_world b)) s (log (bus_world b))) b)
                | None => None
                end);
  shadow.

(** The questions, down to the EEPROM of the network controller. *)
Definition enter_record : B unit :=
  enter_revision;; enter_board;; enter_serial;; enter_address;; enter_text;;
  k ← identify;
  (if k =? 750 then enter_cache_word;; store_address sromMII else mret tt);;
  if k =? 740 then poke32 (EEREV + res) 0;; store_address sromSYM else mret tt.
Definition dialogue : B unit := enter_record;; store_revision.

(** *** After the record is settled *)

Definition publish_address : B unit :=
  m ← local;
  t ← option_B (print_bytes (read_bytes m (EEREV + etheraddr) 6));
  put BUF (t.1 ++ [0]);;
  setvar (str "ethaddr") t.1.

Definition start_cache : B unit :=
  p ← getvar (str "l2cache");
  c ← first_char p;
  if c =? chr "0" then mret tt
  else m ← local; _ ← pci (l2_cache_enable polls (s32 (load32 m (EEREV + res)))); mret tt.

(** The variable sets the value, or the value the variable. *)
Definition settle_time (name : list Z) (value : Z) : B Z :=
  p ← getvar name;
  match p with
  | Some a => v ← value_at a; mret (u32 (s32 (simple_strtoul v 10).1))
  | None =>
      t ← option_B (vsprintf (str "%d") [Aint value]);
      put BUF (t.1 ++ [0]);;
      setvar name t.1;;
      mret value
  end.
Definition settle_times : B unit :=
  d ← asks disks;
  v ← settle_time (str "ata_reset_time") (ata_reset_time d);
  modify (fun b => set_disks (Disk v (scsi_reset_time d) (scsi_dev_id d) (scsi_max_scsi_id d) (scsi_sym53c8xx_ccf d)) b);;
  d ← asks disks;
  v ← settle_time (str "scsi_reset_time") (scsi_reset_time d);
  modify (fun b => set_disks (Disk (ata_reset_time d) v (scsi_dev_id d) (scsi_max_scsi_id d) (scsi_sym53c8xx_ccf d)) b).

Definition find_device (vendor device : Z) : B Z := pci (pci_find_device MPC106_REG_ADDR MPC106_REG_DATA vendor device 0).
Definition wr_byte (dev offset v : Z) : B unit := pci (pci_write_config MPC106_REG_ADDR MPC106_REG_DATA 1 dev offset v).
Definition dma_off_flag (dma_off bit bdf offset : Z) : B unit := if negb (dma_off .& bit =? 0) then wr_byte bdf offset 1 else mret tt.
Definition setup_disks : B unit :=
  bdf ← find_device PCI_VENDOR_ID_WINBOND PCI_DEVICE_ID_WINBOND_83C553;
  if 0 <? bdf then
    scsi ← find_device PCI_VENDOR_ID_NCR PCI_DEVICE_ID_NCR_53C860;
    (if 0 <? scsi then
       modify (fun b => set_disks (Disk (ata_reset_time (disks b)) (scsi_reset_time (disks b)) PCI_DEVICE_ID_NCR_53C860 7 0x15) b);;
       wr_byte bdf WINBOND_IDEIRCR 0xb0
     else mret tt);;
    p ← getvar (str "ide_dma_off");
    match p with
    | Some a =>
        v ← value_at a;
        let dma_off := (simple_strtoul v 10).1 in
        let bdf := bdf .| PCI_BDF 0 0 1 in
        dma_off_flag dma_off 1 bdf 0x46;; dma_off_flag dma_off 2 bdf 0x4a;;
        dma_off_flag dma_off 4 bdf 0x4e;; dma_off_flag dma_off 8 bdf 0x52
    | None => mret tt
    end
  else mret tt.

(** What happens to the record: nothing, a copy to the NVRAM, a dialogue. *)
Definition settle_record : B unit :=
  load_revision;;
  f ← check_magic;
  f ← ask_copy f.1 f.2;
  (if (f.2 : bool) then dialogue else mret tt);;
  (if negb f.2 && f.1 then shadow else mret tt).

Definition misc_init_r : B Z :=
  settle_record;;
  publish_address;;
  _ ← identify;
  start_cache;;
  settle_times;;
  setup_disks;;
  mret 0.

(** A start: the stack as it was, the literals in their place. *)
Definition start (w : world (St := St)) (s : env_state (C := C)) (keys stack : mem) : board :=
  Board w s keys (put_bytes stack LITERALS literals) 0 disk_defaults.
End misc.
