(* ===== verification/Start.v ===== *)
(** * What a start does to the board's identity

    The record of [Identity] against a specification: the copies in the EEPROM and the NVRAM as lists,
    the environment as a list of variables, the operator's keys.  A step of the
    routine is described by what it needs (keys that end lines) and what it leaves alone;
    the rule for a sequence adds the needs up. *)

From S2P Require Import Prelude CMem CString Strto Vsprintf CmdLine Readline Rtc Env Mac Srom Pci Dcsrom Board Frames Identity.

#[local] Arguments line_ends : simpl never.

Section start.
Context {cycle l2 : nat} {St : Type} `{BoardChips cycle l2 St} {C : Type} `{Console C}.
Context (around_hex : Z -> Z) (null_text : list Z) (polls fuel : nat).

Abbreviation board := (board (St := St) (C := C)).
Abbreviation keys b := (input (settings b)).

(** ** Steps that stay away from the copies *)

(** The frame and the console buffer hold bytes, the literals are in place. *)
Record ok (b : board) : Prop := Ok {
  ok_frame : mem_ok (frame b);
  ok_buffer : mem_ok (console_buffer b);
  ok_keys : Forall is_u8 (keys b);
  ok_literals : bytes_at (frame b) LITERALS literals
}.

(** Copies, environment and magic word stay; at most [n] lines are used up. *)
Record stays (n : nat) (b b' : board) : Prop := Stays {
  st_copies ee nv bz : copies (cycle := cycle) (l2 := l2) ee nv bz (machine (bus_world b)) ->
    copies (cycle := cycle) (l2 := l2) ee nv bz (machine (bus_world b'));
  st_settings : settings b' = set_input (keys b') (settings b);
  st_lines : (line_ends (keys b) <= line_ends (keys b') + n)%nat;
  st_suffix : keys b' `suffix_of` keys b;
  st_magic : forall i, 0 <= i < 8 -> frame b' (EEREV + i) = frame b (EEREV + i);
  st_disks : disks b' = disks b
}.

Lemma set_input_same (s : env_state (C := C)) : set_input (input s) s = s.
Proof. destruct s. reflexivity. Qed.
Lemma stays_refl b : stays 0 b b.
Proof. constructor; auto; [symmetry; apply set_input_same|lia]. Qed.
Lemma stays_trans n k b1 b2 b3 : stays n b1 b2 -> stays k b2 b3 -> stays (n + k) b1 b3.
Proof.
  intros [A1 A2 A3 A4 A5 A6] [B1 B2 B3 B4 B5 B6]. constructor; auto; [rewrite B2, A2; reflexivity|lia|etrans; eassumption| |congruence].
  intros i Hi. rewrite B5, A5 by exact Hi. reflexivity.
Qed.
Lemma stays_weaken n k b b' : (n <= k)%nat -> stays n b b' -> stays k b b'.
Proof. intros Hn [A1 A2 A3 A4 A5 A6]. constructor; auto. lia. Qed.

Definition local (n : nat) {A} (m : B A) (Q : A -> Prop) : Prop := forall b, ok b -> (n <= line_ends (keys b))%nat ->
  exists a b', m b = Some (a, b') /\ ok b' /\ stays n b b' /\ Q a.

Lemma bind_B {A A'} (m : B (St := St) (C := C) A) (k : A -> B A') b b' a : m b = Some (a, b') -> (m ≫= k) b = k a b'.
Proof. intros E. unfold mbind, B_bind. rewrite E. reflexivity. Qed.
Lemma local_bind n k {A A'} (m : B A) (f : A -> B A') Q R : local n m Q -> (forall a, Q a -> local k (f a) R) -> local (n + k) (m ≫= f) R.
Proof.
  intros Hm Hf b Hb Hn. destruct (Hm b Hb ltac:(lia)) as (a & b1 & E1 & O1 & S1 & Qa).
  destruct (Hf a Qa b1 O1) as (a2 & b2 & E2 & O2 & S2 & Qa2); [pose proof (st_lines _ _ _ S1); lia|].
  exists a2, b2. rewrite (bind_B _ _ _ _ _ E1). split_and!; auto. eapply stays_trans; eassumption.
Qed.
Lemma local_weaken n k {A} (m : B A) Q : (n <= k)%nat -> local n m Q -> local k m Q.
Proof.
  intros Hn Hm b Hb Hk. destruct (Hm b Hb ltac:(lia)) as (a & b' & E & O & S & Qa). exists a, b'. split_and!; auto.
  eapply stays_weaken; eassumption.
Qed.
Lemma local_post n {A} (m : B A) Q R : local n m Q -> (forall a, Q a -> R a : Prop) -> local n m R.
Proof. intros Hm HR b Hb Hn. destruct (Hm b Hb Hn) as (a & b' & E & O & S & Qa). exists a, b'. auto. Qed.
Lemma local_ret {A} (a : A) (Q : A -> Prop) : Q a -> local 0 (mret a) Q.
Proof. intros Ha b Hb _. exists a, b. split_and!; auto using stays_refl. Qed.
Lemma local_done (Q : unit -> Prop) : Q tt -> local 0 (mret tt) Q.
Proof. apply local_ret. Qed.

(** *** One operation each *)

Definition free (a n : Z) : Prop := EEREV + 8 <= a /\ a + n <= LITERALS.

Lemma local_frame (g : board -> mem) a n : free a n ->
  (forall b, ok b -> mem_ok (g b) /\ same_outside a (a + n) (frame b) (g b)) ->
  local 0 (modify (fun b => set_frame (g b) b)) (fun _ => True).
Proof.
  intros [Ha1 Ha2] Hg b Hb _. destruct (Hg b Hb) as [Hm Ho]. do 2 eexists. split; [reflexivity|]. destruct Hb as [B1 B2 B3 B4].
  split; [constructor; auto|split; [|exact I]].
  - cbn [frame set_frame]. eapply bytes_at_ext; [|exact B4]. intros x Hx. apply Ho. lia.
  - constructor; auto; [symmetry; apply set_input_same|cbn; lia|]. cbn [frame set_frame]. intros i Hi. apply Ho. lia.
Qed.
Lemma local_poke a v : free a 1 -> is_u8 v -> local 0 (poke a v) (fun _ => True).
Proof.
  intros Ha Hv. apply (local_frame (fun b => upd (frame b) a v) a 1 Ha). intros b [B1 _ _ _]. split; [apply upd_ok; assumption|].
  apply same_outside_upd; [auto with cmem|lia].
Qed.
Lemma local_poke32 a v : free a 4 -> local 0 (poke32 a v) (fun _ => True).
Proof.
  intros Ha. apply (local_frame (fun b => store32 (frame b) a v) a 4 Ha). intros b [B1 _ _ _]. split; [apply store32_ok, B1|].
  apply store32_outside.
Qed.
Lemma local_memcpy a s n : free a n -> 0 <= n -> a + n <= s \/ s + n <= a ->
  local 0 (modify (fun b => set_frame (memcpy (frame b) a s n).2 b)) (fun _ => True).
Proof.
  intros Ha Hn Hd. apply (local_frame (fun b => (memcpy (frame b) a s n).2) a n Ha). intros b [B1 _ _ _].
  destruct (memcpy_correct (frame b) a s n B1 Hn Hd) as [Hc Ho]. split; [|exact Ho]. intros x.
  destruct (decide (a <= x < a + n)) as [Hx|Hx]; [replace x with (a + (x - a)) by lia; rewrite Hc by lia; apply B1|rewrite Ho by exact Hx; apply B1].
Qed.
Lemma local_key i : local 0 (key i) is_u8.
Proof. intros b Hb _. do 2 eexists. split; [reflexivity|]. split_and!; auto using stays_refl. apply Hb. Qed.
Lemma local_get : local 0 Identity.local (fun m => mem_ok m /\ bytes_at m LITERALS literals).
Proof. intros b Hb _. do 2 eexists. split; [reflexivity|]. split_and!; auto using stays_refl; apply Hb. Qed.
Lemma local_option {A} (o : option A) a (Q : A -> Prop) : o = Some a -> Q a -> local 0 (option_B o) Q.
Proof. intros -> Ha b Hb _. exists a, b. split_and!; auto using stays_refl. Qed.
Lemma local_kind k : local 0 (modify (set_kind k)) (fun _ => True).
Proof.
  intros b [B1 B2 B3 B4] _. do 2 eexists. split; [reflexivity|]. split; [constructor; auto|]. split; [|exact I].
  constructor; auto; [symmetry; apply set_input_same|cbn; lia].
Qed.
Lemma local_readline : local 1 readline (fun _ => True).
Proof.
  intros b Hb Hn. pose proof Hb as [B1 B2 B3 B4]. pose proof (buf_readline_spec (console_buffer b) (keys b) B2 B3) as R.
  destruct (readline_into_buffer None (keys b)) as [[[r line] rest]|] eqn:El; [|destruct R; lia].
  destruct R as (m' & E & N & M & F & _ & R1 & R2). unfold readline. rewrite E. do 2 eexists. split; [reflexivity|].
  pose proof (buf_loop_ends (keys b) (upd (console_buffer b) 0 0) 0 0) as Hs. fold (buf_readline (console_buffer b) (keys b)) in Hs.
  rewrite E in Hs. split; [constructor; auto|]. split; [|exact I]. constructor; auto; [cbn; lia|apply Hs].
Qed.
Lemma local_pci {A} (m : M (St := St) A) : (forall ee nv bz, quiet (copies (cycle := cycle) (l2 := l2) ee nv bz) m) -> quiet (fun _ => True) m ->
  local 0 (pci m) (fun _ => True).
Proof.
  intros Hc Ht b Hb _. destruct (Ht (bus_world b) I) as (a & w & E & _). unfold pci. rewrite E. do 2 eexists. split; [reflexivity|].
  destruct Hb as [B1 B2 B3 B4]. split; [constructor; auto|split; [|exact I]].
  constructor; auto; [|symmetry; apply set_input_same|cbn; lia]. intros ee nv bz Hw. destruct (Hc ee nv bz (bus_world b) Hw) as (a' & w' & E' & Hw' & _).
  rewrite E in E'. injection E' as <- <-. exact Hw'.
Qed.

(** *** The questions *)

Lemma local_if n (c : bool) {A} (m m' : B A) Q : local n m Q -> local n m' Q -> local n (if c then m else m') Q.
Proof. destruct c; auto. Qed.
(** Steps without a question, one after the other. *)
Lemma local_then {A A'} (m : B A) (f : A -> B A') (Q : A -> Prop) R : local 0 m Q -> (forall a, Q a -> local 0 (f a) R) -> local 0 (m ≫= f) R.
Proof. apply (local_bind 0 0). Qed.
(** A question and what is done with the answer. *)
Lemma local_ask {A} (f : Z -> B A) R : (forall r, local 0 (f r) R) -> local 1 (r ← readline; f r) R.
Proof. intros Hf. apply (local_bind 1 0 readline f (fun _ => True)); [apply local_readline|auto]. Qed.

Lemma u8_any x : is_u8 (u8 x).
Proof. apply u8_range. Qed.
#[local] Hint Resolve u8_any : core.

Lemma local_copy_keys f n : forall a i, (forall c, is_u8 c -> is_u8 (f c)) -> free a (Z.of_nat n) -> local 0 (copy_keys f n a i) (fun _ => True).
Proof.
  induction n as [|n IH]; intros a i Hf [Ha1 Ha2]; cbn [copy_keys]; [apply local_done; exact I|].
  eapply local_then; [apply local_key|]. intros c Hc. eapply local_then; [apply local_poke; [split; lia|auto]|]. intros _ _.
  apply IH; [exact Hf|split; lia].
Qed.
Lemma local_copy_hex n : forall a i, free a (Z.of_nat n) -> local 0 (copy_hex around_hex n a i) (fun _ => True).
Proof.
  induction n as [|n IH]; intros a i [Ha1 Ha2]; cbn [copy_hex]; [apply local_done; exact I|].
  eapply local_then; [apply local_key|]. intros c _. eapply local_then; [apply local_key|]. intros d _.
  eapply local_then; [apply local_poke; [split; lia|auto]|]. intros _ _. apply IH. split; lia.
Qed.

Ltac free := split; unfold EEREV, BUF, LITERALS, revision, board_name, serial, etheraddr, text, res, crc; lia.

Lemma local_revision : local 2 enter_revision (fun _ => True).
Proof.
  apply (local_bind 0 2 _ _ (fun _ => True)); [apply local_memcpy; [free|lia|unfold EEREV, BUF, revision; lia]|]. intros _ _.
  apply (local_bind 1 1 _ _ (fun _ => True)); [apply local_readline|]. intros r _.
  apply (local_bind 0 1 _ _ (fun _ => True)).
  - apply local_if; [|apply local_done; exact I]. eapply local_then; [apply local_key|]. intros c _.
    eapply local_then; [apply local_poke; [free|auto]|]. intros _ _. apply local_memcpy; [free|lia|unfold EEREV, BUF, revision; lia].
  - intros _ _. apply local_ask. intros r'. apply local_if; [|apply local_done; exact I].
    eapply local_then; [apply local_key|]. intros c _. apply local_poke; [free|auto].
Qed.
Lemma local_board : local 1 enter_board (fun _ => True).
Proof.
  apply local_ask. intros r. apply local_if; [|apply local_done; exact I].
  eapply local_then; [apply local_copy_keys; [auto|free]|]. intros _ _. apply local_poke; [free|split; lia].
Qed.
Lemma local_serial : local 1 enter_serial (fun _ => True).
Proof.
  apply local_ask. intros r. apply local_if; [|apply local_done; exact I].
  eapply local_then; [apply local_copy_keys; [auto|free]|]. intros _ _. apply local_poke; [free|split; lia].
Qed.
Lemma local_address : local 1 (enter_address around_hex) (fun _ => True).
Proof. apply local_ask. intros r. apply local_if; [apply local_copy_hex; free|apply local_done; exact I]. Qed.

(** A NUL ahead ends every string. *)
Lemma cstr_ahead n : forall m a, m (a + Z.of_nat n) = 0 -> exists s, cstr m a s /\ (List.length s <= n)%nat.
Proof.
  induction n as [|n IH]; intros m a E; [exists []; rewrite Z.add_0_r in E; auto|].
  destruct (Z.eq_dec (m a) 0) as [E0|E0]; [exists []; split; [exact E0|cbn; lia]|].
  destruct (IH m (a + 1)) as (s & Hs & Hl); [rewrite <- E; f_equal; lia|]. exists (m a :: s). split; [cbn; auto|cbn; lia].
Qed.
Lemma frame_string m a : bytes_at m LITERALS literals -> EEREV <= a <= LITERALS + 5 -> exists s, cstr m a s /\ (List.length s < SCAN)%nat.
Proof.
  intros Hl Ha. destruct (cstr_ahead (Z.to_nat (LITERALS + 5 - a)) m a) as (s & Hs & Hn).
  - replace (a + _) with (LITERALS + 5) by lia. destruct Hl as (_ & _ & _ & _ & _ & E & _). rewrite <- E. f_equal.
  - exists s. split; [exact Hs|]. unfold SCAN, EEREV, LITERALS in *. lia.
Qed.

Lemma local_text : local 1 enter_text (fun _ => True).
Proof.
  apply (local_bind 0 1 _ _ _ _ local_get). intros m [Hm Hl].
  destruct (frame_string m (EEREV + text) Hl ltac:(unfold EEREV, text, LITERALS; lia)) as (s & Hs & Hn).
  apply (local_bind 0 1 _ _ (fun l => 0 <= l)); [eapply local_option; [apply strlen_spec; eassumption|apply zlen_nonneg]|]. intros l Hl0.
  apply local_ask. intros r. apply local_if; [|apply local_done; exact I].
  apply (local_then _ _ (fun _ => True)); [|intros _ _; apply local_poke; [free|split; lia]].
  destruct (Z.to_nat (63 - l)) as [|n] eqn:En; [apply local_done; exact I|]. apply local_copy_keys; [auto|].
  unfold free, EEREV, text, LITERALS in *. lia.
Qed.
Lemma strstr_some m a : mem_ok m -> bytes_at m LITERALS literals -> EEREV <= a <= LITERALS + 5 -> exists p, strstr SCAN m a L_75 = Some p.
Proof.
  intros Hm Hl Ha. destruct (frame_string m a Hl Ha) as (s & Hs & Hn).
  assert (cstr m L_75 (str "75")) as H75.
  { apply bytes_cstr; [repeat constructor; discriminate|]. change literals with ((str "ELTEC" ++ [0]) ++ str "75" ++ [0]) in Hl.
    apply bytes_at_app in Hl as [_ Hl]. exact Hl. }
  destruct (strstr_first SCAN m a L_75 s (str "75") Hs H75 Hn) as [[E _]|(i & E & _)]; [vm_compute; lia|eauto|eauto].
Qed.
Lemma local_identify : local 0 identify (fun k => k = 750 \/ k = 740).
Proof.
  eapply local_then; [apply local_get|]. intros m [Hm Hl].
  destruct (strstr_some m (EEREV + board_name) Hm Hl ltac:(unfold EEREV, board_name, LITERALS; lia)) as [p Ep].
  eapply local_then; [apply (local_option _ p (fun _ => True) Ep I)|]. intros q _. cbv zeta.
  eapply local_then; [apply local_kind|]. intros _ _. apply local_ret. destruct (negb _); auto.
Qed.

Lemma local_chip {A} (f : St -> A * St) : (forall ee nv bz s, copies (cycle := cycle) (l2 := l2) ee nv bz s -> copies (cycle := cycle) (l2 := l2) ee nv bz (f s).2) ->
  local 0 (chip f) (fun _ => True).
Proof. intros Hf. apply local_pci; [intros ee nv bz; apply quiet_lift, Hf|apply quiet_lift; auto]. Qed.
Lemma local_cache_word : local 1 (enter_cache_word around_hex) (fun _ => True).
Proof.
  apply (local_bind 0 1 _ _ (fun _ => True)); [apply local_chip; intros; apply copies_mfspr; assumption|]. intros pvr _.
  apply (local_bind 0 1 _ _ (fun _ => True)); [apply local_poke32; free|]. intros _ _.
  apply local_ask. intros r. apply local_if; [apply local_copy_hex; free|apply local_done; exact I].
Qed.
Lemma local_store_address srom : local 0 (store_address srom) (fun _ => True).
Proof.
  eapply local_then; [apply local_get|]. intros m _. eapply local_then; [|intros a _; apply local_done; exact I].
  apply local_pci; [intros ee nv bz; apply quiet_dc_srom_store; [apply copies_out|apply copies_in]|apply quiet_dc_srom_store; auto].
Qed.

(** The questions end after seven lines at most and leave copies and magic word alone. *)
Lemma local_enter_record : local 7 (enter_record around_hex) (fun _ => True).
Proof.
  apply (local_bind 2 5 _ _ (fun _ => True)); [apply local_revision|]. intros _ _.
  apply (local_bind 1 4 _ _ (fun _ => True)); [apply local_board|]. intros _ _.
  apply (local_bind 1 3 _ _ (fun _ => True)); [apply local_serial|]. intros _ _.
  apply (local_bind 1 2 _ _ (fun _ => True)); [apply local_address|]. intros _ _.
  apply (local_bind 1 1 _ _ (fun _ => True)); [apply local_text|]. intros _ _.
  apply (local_bind 0 1 _ _ _ _ local_identify). intros k _.
  apply (local_bind 1 0 _ _ (fun _ => True)).
  - apply local_if; [|apply (local_weaken 0); [lia|apply local_done; exact I]].
    apply (local_bind 1 0 _ _ (fun _ => True)); [apply local_cache_word|intros _ _; apply local_store_address].
  - intros _ _. apply local_if; [|apply local_done; exact I].
    eapply local_then; [apply local_poke32; free|]. intros _ _. apply local_store_address.
Qed.

(** ** The record, specified *)

Definition NV : Z := CONFIG_SYS_NV_SROM_COPY_ADDR.
Definition record_of (ee : mem) : list Z := read_bytes ee 0 256.
Definition shadow_of (nv : mem) : list Z := read_bytes nv NV 256.
Definition marked (r : list Z) : Prop := take 6 r = str "ELTEC" ++ [0].
Definition agree (r sh : list Z) : Prop := el_srom_checksum r = el_srom_checksum sh.
(** The size field; the checksum field is right, if it covers no more than the record. *)
Definition crc_size (r : list Z) : Z := (nth 10 r 0 .<< 8) .| nth 11 r 0.
#[local] Opaque put_bytes read_bytes.
Definition sealed (r : list Z) : Prop := crc_size r <= 0xF0 ->
  load32 (put_bytes (fun _ => 0) 0 r) crc = el_srom_checksum (take (Z.to_nat (crc_size r)) (drop 0x10 r)).
(** The first key of an answer, a capital. *)
Definition answer (line : list Z) : Z := match line with [] => 0 | c :: _ => u8 (toupper c) end.

(** What a start may do with the copies. *)
Inductive decision := Nothing | Copy | Enter (r : list Z).
Definition after_ee (d : decision) (ee : mem) : mem := match d with Enter r => put_bytes ee 0 r | _ => ee end.
Definition in_force (d : decision) (ee : mem) : list Z := match d with Enter r => r | _ => record_of ee end.
Definition after_nv (d : decision) (ee nv : mem) : mem := match d with Nothing => nv | _ => put_bytes nv NV (in_force d ee) end.

(** Which of them, and the keys that are left. *)
Inductive decides (ee nv : mem) (ks : list Z) : decision -> list Z -> Prop :=
| Agreed : marked (record_of ee) -> agree (record_of ee) (shadow_of nv) -> decides ee nv ks Nothing ks
| Declined r line rest : marked (record_of ee) -> ~ agree (record_of ee) (shadow_of nv) ->
    readline_into_buffer None ks = Some (r, line, rest) -> answer line <> chr "C" -> answer line <> chr "R" -> decides ee nv ks Nothing rest
| Copied r line rest : marked (record_of ee) -> ~ agree (record_of ee) (shadow_of nv) ->
    readline_into_buffer None ks = Some (r, line, rest) -> answer line = chr "C" -> decides ee nv ks Copy rest
| Entered rc rest :
    (~ marked (record_of ee) \/ ~ agree (record_of ee) (shadow_of nv) /\
       exists r line ks', readline_into_buffer None ks = Some (r, line, ks') /\ answer line = chr "R" /\ rest `suffix_of` ks') ->
    marked rc -> sealed rc -> List.length rc = 256%nat -> Forall is_u8 rc -> rest `suffix_of` ks -> decides ee nv ks (Enter rc) rest.

(** The keys a start may need: none, one line, or all the questions. *)
Definition enough_keys (ee nv : mem) (ks : list Z) : Prop :=
  marked (record_of ee) /\ agree (record_of ee) (shadow_of nv) \/
  marked (record_of ee) /\ (exists r line rest, readline_into_buffer None ks = Some (r, line, rest) /\ answer line <> chr "R") \/
  (8 <= line_ends ks)%nat.

(** ** The steps of settle_record *)

Abbreviation copies := (copies (cycle := cycle) (l2 := l2)).

Lemma copies_ext ee nv nv' bz s : (forall r, nv' r = nv r) -> copies ee nv bz s -> copies ee nv' bz s.
Proof. intros Hn (e & R & Hr & Hb & He & Hc). exists e. split_and!; auto. intros r. rewrite Hn. apply Hc. Qed.
Lemma copies_u8 ee nv bz s : copies ee nv bz s -> mem_ok nv.
Proof. intros (e & _ & _ & _ & _ & Hn) r. rewrite <- Hn. apply cell_u8. Qed.

(** The state after a step, but for frame, keys and kind. *)
Definition same_but (b b' : board) : Prop := bus_world b' = bus_world b /\ settings b' = settings b /\ disks b' = disks b /\ console_buffer b' = console_buffer b.

Lemma chip_run {A} (f : St -> A * St) (b : board) a s : f (machine (bus_world b)) = (a, s) ->
  chip f b = Some (a, set_world (World (hose (bus_world b)) s (log (bus_world b))) b).
Proof. intros E. unfold chip, pci, lift. rewrite E. reflexivity. Qed.

Lemma read_back m a r n : List.length r = n -> bytes_at m a r -> read_bytes m a n = r.
Proof. intros <-. apply read_bytes_at. Qed.
Lemma record_length ee : List.length (record_of ee) = 256%nat.
Proof. apply length_read_bytes. Qed.

Lemma load_revision_spec b ee nv : ok b -> mem_ok ee -> copies ee nv 0 (machine (bus_world b)) ->
  exists b', load_revision b = Some (tt, b') /\ ok b' /\ copies ee nv 0 (machine (bus_world b')) /\
    settings b' = settings b /\ disks b' = disks b /\
    read_bytes (frame b') EEREV 256 = record_of ee /\ read_bytes (frame b') BUF 256 = shadow_of nv.
Proof.
  intros [B1 B2 B3 B4] Hm Hc. destruct (load_copies ee nv _ Hm Hc) as (s1 & E1 & C1).
  set (m1 := put_bytes (frame b) EEREV (record_of ee)).
  destruct (nvram_read_copies ee nv 0 m1 BUF NV 256 s1) as (m2 & s2 & E2 & C2 & Hn & Ho); [discriminate|discriminate|exact C1|].
  assert (zlen (record_of ee) = 256) as Hz by apply zlen_read_bytes.
  unfold load_revision. erewrite bind_B by (apply chip_run; rewrite E1; reflexivity).
  cbv [mbind B_bind put modify Identity.local asks]. rewrite (chip_run _ _ m2 s2) by exact E2.
  eexists. split; [reflexivity|].
  assert (same_outside EEREV (EEREV + 256) (frame b) m1) as Ho1 by (rewrite <- Hz; apply put_bytes_outside).
  assert (bytes_at m2 EEREV (record_of ee)) as He.
  { apply (bytes_at_ext m1); [|exact (put_bytes_at (frame b) EEREV (record_of ee))]. intros x Hx. rewrite Hz in Hx. apply Ho. unfold BUF, EEREV in *. lia. }
  split; [constructor; auto|split_and!; auto].
  - intros x. cbn [frame set_frame]. destruct (decide (BUF <= x < BUF + 256)) as [Hx|Hx].
    + replace x with (BUF + (x - BUF)) by lia. rewrite Hn by lia. eapply copies_u8, C1.
    + rewrite Ho by exact Hx. apply put_bytes_ok; [exact B1|apply read_bytes_u8, Hm].
  - apply (bytes_at_ext (frame b)); [|exact B4]. intros x Hx. cbn [frame set_frame]. change (zlen literals) with 9 in Hx.
    rewrite Ho, Ho1; unfold LITERALS, BUF, EEREV in *; lia.
  - cbn [frame set_frame]. apply read_back; [apply record_length|exact He].
  - cbn [frame set_frame]. apply read_bytes_ext. exact Hn.
Qed.

(** *** The magic word *)

Lemma take_read m a k n : (k <= n)%nat -> take k (read_bytes m a n) = read_bytes m a k.
Proof.
  intros Hk. replace n with (k + (n - k))%nat by lia. rewrite read_bytes_plus, take_app_le by (rewrite length_read_bytes; lia).
  apply take_ge. rewrite length_read_bytes. lia.
Qed.
Lemma marked_bytes m : marked (read_bytes m EEREV 256) <-> bytes_at m EEREV (str "ELTEC" ++ [0]).
Proof.
  unfold marked. rewrite take_read by lia. split; intros E.
  - rewrite <- E. apply bytes_at_read.
  - apply read_back; [reflexivity|exact E].
Qed.
Lemma eltec_text : Forall (fun c => c <> 0) (str "ELTEC").
Proof. repeat constructor; discriminate. Qed.

Lemma strcmp_marked m : mem_ok m -> bytes_at m LITERALS literals ->
  exists r, strcmp SCAN m (EEREV + magic) L_ELTEC = Some r /\ (r = 0 <-> marked (read_bytes m EEREV 256)).
Proof.
  intros Hm Hl. change (EEREV + magic) with EEREV.
  destruct (frame_string m EEREV Hl) as (s & Hs & Hn); [unfold EEREV, LITERALS; lia|].
  assert (cstr m L_ELTEC (str "ELTEC")) as Ht.
  { apply bytes_cstr; [exact eltec_text|]. change literals with ((str "ELTEC" ++ [0]) ++ str "75" ++ [0]) in Hl. apply bytes_at_app in Hl as [Hl _]. exact Hl. }
  destruct (strcmp_zero_iff SCAN m EEREV L_ELTEC s (str "ELTEC") Hm Hs Ht Hn) as (r & E & Hr). exists r. split; [exact E|].
  rewrite Hr, marked_bytes. split.
  - intros ->. apply cstr_bytes, Hs.
  - intros Hb. eapply cstr_fun; [exact Hs|]. apply bytes_cstr; [exact eltec_text|exact Hb].
Qed.

(** The default record, as one change of the frame. *)
Definition default_frame (m : mem) : mem :=
  store32 (put_bytes (upd (put_bytes (upd (upd
    (put_bytes (put_bytes m EEREV (replicate 256 0)) (EEREV + magic) (str "ELTEC" ++ [0]))
    (EEREV + revrev) 1) (EEREV + revrev + 1) 0) (EEREV + size_of_crc) [0x00; 0xE0]) (EEREV + category) 0x01)
    (EEREV + etheraddr) [0x00; 0x00; 0x5B; 0x00; 0x2E; 0x4D]) (EEREV + res) CLK2P0TO1_1MB_PB_0P5DH.
Lemma default_revision_run (b : board) : default_revision b = Some (tt, set_frame (default_frame (frame b)) b).
Proof. reflexivity. Qed.

Lemma all_bytes l : all_u8 l = true -> Forall is_u8 l.
Proof. apply all_u8_spec. Qed.
Lemma same_outside_put m a l lo hi : lo <= a -> a + zlen l <= hi -> same_outside lo hi m (put_bytes m a l).
Proof. intros. eapply same_outside_weaken; [apply put_bytes_outside|lia|lia]. Qed.
Lemma same_outside_one m a v lo hi : lo <= a < hi -> same_outside lo hi m (upd m a v).
Proof. intros. apply same_outside_upd; [auto with cmem|lia]. Qed.

Lemma default_frame_ok m : mem_ok m -> mem_ok (default_frame m).
Proof.
  intros Hm. unfold default_frame.
  apply store32_ok, put_bytes_ok; [|apply all_bytes; reflexivity]. apply upd_ok; [|split; lia].
  apply put_bytes_ok; [|apply all_bytes; reflexivity]. do 2 (apply upd_ok; [|split; lia]).
  do 2 (apply put_bytes_ok; [|apply all_bytes; reflexivity]). exact Hm.
Qed.
Lemma default_frame_marked m : marked (read_bytes (default_frame m) EEREV 256) /\ same_outside EEREV (EEREV + 256) m (default_frame m).
Proof.
  set (m1 := put_bytes m EEREV (replicate 256 0)). set (m2 := put_bytes m1 (EEREV + magic) (str "ELTEC" ++ [0])).
  assert (same_outside (EEREV + 8) (EEREV + 256) m2 (default_frame m)) as Ho.
  { unfold default_frame. fold m1. fold m2.
    eapply same_outside_trans; [|eapply same_outside_weaken; [apply store32_outside|unfold res; lia|unfold res; lia]].
    eapply same_outside_trans; [|apply same_outside_put; unfold etheraddr; [lia|change (zlen [0; 0; 91; 0; 46; 77]) with 6; lia]].
    eapply same_outside_trans; [|apply same_outside_one; unfold category; lia].
    eapply same_outside_trans; [|apply same_outside_put; unfold size_of_crc; [lia|change (zlen [0; 224]) with 2; lia]].
    eapply same_outside_trans; apply same_outside_one; unfold revrev; lia. }
  split.
  - apply marked_bytes. apply (bytes_at_ext m2); [|exact (put_bytes_at m1 (EEREV + magic) _)].
    intros x Hx. change (zlen (str "ELTEC" ++ [0])) with 6 in Hx. apply Ho. lia.
  - eapply same_outside_trans; [|eapply same_outside_weaken; [exact Ho|lia|lia]].
    eapply same_outside_trans; apply same_outside_put; unfold magic; [lia|change (zlen (replicate 256 0)) with 256; lia|lia|change (zlen (str "ELTEC" ++ [0])) with 6; lia].
Qed.

(** The literals survive what stays inside the arrays. *)
Lemma ok_set_frame b m : ok b -> mem_ok m -> same_outside EEREV LITERALS (frame b) m -> ok (set_frame m b).
Proof.
  intros [B1 B2 B3 B4] Hm Ho. constructor; auto. cbn [frame set_frame]. apply (bytes_at_ext (frame b)); [|exact B4].
  intros x Hx. apply Ho. lia.
Qed.

Lemma check_magic_spec b : ok b -> exists f b', check_magic b = Some ((f, f), b') /\ ok b' /\ same_but b b' /\
  marked (read_bytes (frame b') EEREV 256) /\
  if f then ~ marked (read_bytes (frame b) EEREV 256) else marked (read_bytes (frame b) EEREV 256) /\ b' = b.
Proof.
  intros Hb. pose proof Hb as [B1 _ _ B4]. destruct (strcmp_marked (frame b) B1 B4) as (r & E & Hr).
  unfold check_magic. cbv [mbind B_bind Identity.local asks]. unfold option_B. rewrite E.
  destruct (Z.eqb_spec r 0) as [->|Hne]; cbn [negb].
  - exists false, b. split; [reflexivity|]. split; [exact Hb|]. split; [repeat split|]. tauto.
  - rewrite default_revision_run. destruct (default_frame_marked (frame b)) as [Hm Ho].
    exists true, (set_frame (default_frame (frame b)) b). split; [reflexivity|].
    split; [apply ok_set_frame; [exact Hb|apply default_frame_ok, B1|eapply same_outside_weaken; [exact Ho|lia|unfold EEREV, LITERALS; lia]]|].
    split; [repeat split|]. split; [exact Hm|tauto].
Qed.

(** *** The question *)

Lemma ask_copy_spec b (f : bool) : ok b ->
  let r := read_bytes (frame b) EEREV 256 in
  let sh := read_bytes (frame b) BUF 256 in
  f = true \/ agree r sh \/ (1 <= line_ends (keys b))%nat ->
  exists g b', ask_copy f f b = Some (g, b') /\ ok b' /\ stays 1 b b' /\ frame b' = frame b /\ bus_world b' = bus_world b /\
    if f then g = (true, true) /\ b' = b
    else (agree r sh /\ g = (false, false) /\ b' = b) \/
      (~ agree r sh /\ exists k line, readline_into_buffer None (keys b) = Some (k, line, keys b') /\
        g = (if answer line =? chr "C" then (true, false) else if answer line =? chr "R" then (true, true) else (false, false))).
Proof.
  intros Hb r sh Hn. unfold ask_copy. rewrite (bind_B _ _ _ b (frame b)) by reflexivity. fold r sh. change (Z.to_nat CONFIG_SYS_SROM_SIZE) with 256%nat. fold r sh.
  destruct f; cbn [negb andb].
  { exists (true, true), b. split_and!; auto. apply (stays_weaken 0); [lia|apply stays_refl]. }
  destruct (Z.eqb_spec (el_srom_checksum r) (el_srom_checksum sh)) as [He|He]; cbn [negb].
  { exists (false, false), b. split_and!; auto. apply (stays_weaken 0); [lia|apply stays_refl]. }
  assert (1 <= line_ends (keys b))%nat as Hl by (destruct Hn as [Hn|[Hn|Hn]]; [discriminate|destruct (He Hn)|exact Hn]).
  destruct (local_readline b Hb Hl) as (k & b1 & E1 & O1 & S1 & _). rewrite (bind_B _ _ _ _ _ E1).
  pose proof Hb as [B1 B2 B3 B4]. pose proof (buf_readline_spec (console_buffer b) (keys b) B2 B3) as R.
  destruct (readline_into_buffer None (keys b)) as [[[k' line] rest]|] eqn:El; [|destruct R; lia].
  destruct R as (m' & E & _ & _ & _ & _ & R1 & R2). unfold readline in E1. rewrite E in E1. injection E1 as <- <-.
  assert (k' = zlen line \/ k' = -1 /\ line = []) as Hz.
  { apply readline_loop_bounds in El; [apply El|lia|]. split_and!; [reflexivity|vm_compute; discriminate|reflexivity]. }
  assert (exists g, (if negb (k' =? 0) then c ← key 0; let k := u8 (toupper c) in
      if k =? chr "C" then mret (true, false) else if k =? chr "R" then mret (true, true) else mret (false, false)
    else mret (false, false)) (Board (bus_world b) (set_input rest (settings b)) m' (frame b) (eltec_board b) (disks b)) =
    Some (g, Board (bus_world b) (set_input rest (settings b)) m' (frame b) (eltec_board b) (disks b)) /\
    g = (if answer line =? chr "C" then (true, false) else if answer line =? chr "R" then (true, true) else (false, false))) as (g & Eg & Hg).
  { assert (k' <> 0 -> m' 0 = hd 0 line) as Hh.
    { intros Hk. destruct (Z.lt_ge_cases k' 0) as [Hk'|Hk'].
      - destruct (R2 Hk') as [-> E0]. destruct Hz as [Hz|[_ ->]]; [pose proof (zlen_nonneg line); lia|exact E0].
      - destruct (R1 Hk') as (-> & _ & _). destruct (Z.to_nat k') eqn:Ek; [lia|]. reflexivity. }
    destruct (Z.eqb_spec k' 0) as [->|Hk]; cbn [negb].
    - destruct (R1 ltac:(lia)) as (-> & _ & _). eexists. split; reflexivity.
    - cbv [mbind B_bind key asks]. cbn [console_buffer]. rewrite (Hh Hk).
      assert (u8 (toupper (hd 0 line)) = answer line) as -> by (destruct line; reflexivity).
      destruct (answer line =? chr "C"); [eexists; split; reflexivity|]. destruct (answer line =? chr "R"); eexists; split; reflexivity. }
  exists g. eexists. split; [exact Eg|]. split_and!; auto. right. split; [exact He|]. exists k', line. auto.
Qed.

(** *** Writing the copies *)

Lemma put_read nv a m b n i : 0 <= i < Z.of_nat n -> put_bytes nv a (read_bytes m b n) (a + i) = m (b + i).
Proof.
  intros Hi. pose proof (put_bytes_at nv a (read_bytes m b n)) as Ha. apply read_bytes_at in Ha. rewrite length_read_bytes in Ha.
  apply (f_equal (fun l => l !! Z.to_nat i)) in Ha. rewrite !read_bytes_lookup in Ha by lia. injection Ha as Ha. rewrite Z2Nat.id in Ha by lia. exact Ha.
Qed.
Lemma shadowed_put nv m x : put_bytes nv NV (read_bytes m EEREV 256) x = shadowed nv NV 256 m EEREV x.
Proof.
  unfold shadowed. destruct (Z.leb_spec NV x), (Z.ltb_spec x (NV + 256)); cbn [andb].
  2-4: rewrite put_bytes_outside; [reflexivity|rewrite zlen_read_bytes; lia].
  replace x with (NV + (x - NV)) at 1 by lia. apply put_read. lia.
Qed.

Lemma shadow_spec b ee nv bz : ok b -> copies ee nv bz (machine (bus_world b)) ->
  exists b', shadow b = Some (tt, b') /\ ok b' /\ settings b' = settings b /\ disks b' = disks b /\ frame b' = frame b /\
    copies ee (put_bytes nv NV (read_bytes (frame b) EEREV 256)) bz (machine (bus_world b')).
Proof.
  intros [B1 B2 B3 B4] Hc. unfold shadow. rewrite (bind_B _ _ _ b (frame b)) by reflexivity.
  eexists. split; [apply chip_run; reflexivity|]. split; [constructor; auto|]. split_and!; auto.
  apply (copies_ext ee (shadowed nv NV (Z.of_nat 256) (frame b) EEREV)); [apply shadowed_put|].
  apply nvram_write_copies; [exact B1|discriminate|discriminate|exact Hc].
Qed.

Lemma checksum_u32 l : Forall is_u8 l -> is_u32 (el_srom_checksum l).
Proof.
  intros Hl. unfold el_srom_checksum. assert (is_u32 0) as H0' by (split; lia). revert H0'. generalize 0.
  induction Hl as [|c l Hc Hl IH]; intros x Hx; cbn [fold_left]; [exact Hx|]. apply IH, checksum_byte_u32; assumption.
Qed.
Lemma drop_read m a k n : (k <= n)%nat -> drop k (read_bytes m a n) = read_bytes m (a + Z.of_nat k) (n - k).
Proof.
  intros Hk. replace n with (k + (n - k))%nat at 1 by lia. rewrite read_bytes_plus.
  rewrite <- (length_read_bytes m a k) at 1. apply drop_app_length.
Qed.
Lemma nth_read m a n i : (i < n)%nat -> nth i (read_bytes m a n) 0 = m (a + Z.of_nat i).
Proof. intros Hi. erewrite nth_lookup_Some; [reflexivity|]. apply read_bytes_lookup, Hi. Qed.

Lemma sealed_store m : mem_ok m -> let size := (m (EEREV + size_of_crc) .<< 8) .| m (EEREV + size_of_crc + 1) in
  sealed (read_bytes (store32 m (EEREV + crc) (el_srom_checksum (read_bytes m (EEREV + board_name) (Z.to_nat size)))) EEREV 256).
Proof.
  intros Hm size. set (sum := el_srom_checksum _). set (m1 := store32 m (EEREV + crc) sum).
  assert (same_outside (EEREV + 12) (EEREV + 16) m m1) as Ho by apply store32_outside.
  assert (crc_size (read_bytes m1 EEREV 256) = size) as Es.
  { unfold crc_size. rewrite !nth_read by lia. unfold size, size_of_crc. rewrite !Ho by (unfold EEREV; lia). reflexivity. }
  unfold sealed. rewrite Es. intros Hs.
  assert (0 <= size) as Hs0 by (unfold size; apply Z.lor_nonneg; split; [apply Z.shiftl_nonneg|]; apply Hm).
  assert (load32 (put_bytes (fun _ => 0) 0 (read_bytes m1 EEREV 256)) crc = load32 m1 (EEREV + crc)) as ->.
  { unfold load32. assert (forall i, 0 <= i < 256 -> put_bytes (fun _ => 0) 0 (read_bytes m1 EEREV 256) i = m1 (EEREV + i)) as Hp by (intros i; exact (put_read _ 0 m1 EEREV 256 i)).
    rewrite !Hp by (unfold crc; lia). rewrite !Z.add_assoc. reflexivity. }
  unfold m1 at 1. rewrite load_store32; [|exact Hm|apply checksum_u32, read_bytes_u8, Hm].
  unfold sum. f_equal. rewrite drop_read, take_read by lia. symmetry. apply read_bytes_ext. intros i Hi. symmetry. 
  change (EEREV + Z.of_nat (Z.to_nat 16)) with (EEREV + 16). unfold board_name. symmetry. apply Ho. lia.
Qed.

Lemma store_revision_spec b ee nv : (cycle < polls)%nat -> ok b -> copies ee nv 0 (machine (bus_world b)) -> marked (read_bytes (frame b) EEREV 256) ->
  exists b' rc, store_revision polls b = Some (tt, b') /\ ok b' /\ settings b' = settings b /\ disks b' = disks b /\
    read_bytes (frame b') EEREV 256 = rc /\ marked rc /\ sealed rc /\ Forall is_u8 rc /\
    copies (put_bytes ee 0 rc) (put_bytes nv NV rc) cycle (machine (bus_world b')).
Proof.
  intros Hp Hb Hc Hk. pose proof Hb as [B1 B2 B3 B4]. unfold store_revision. rewrite (bind_B _ _ _ b (frame b)) by reflexivity. cbv zeta.
  set (sum := el_srom_checksum _). set (m1 := store32 (frame b) (EEREV + crc) sum).
  assert (same_outside (EEREV + 12) (EEREV + 16) (frame b) m1) as Ho by apply store32_outside.
  assert (ok (set_frame m1 b)) as Hb1.
  { apply ok_set_frame; [exact Hb|apply store32_ok, B1|eapply same_outside_weaken; [exact Ho|lia|unfold EEREV, LITERALS; lia]]. }
  rewrite (bind_B _ _ b (set_frame m1 b) tt) by reflexivity.
  rewrite (bind_B _ _ (set_frame m1 b) (set_frame m1 b) m1) by reflexivity. set (rc := read_bytes m1 EEREV 256).
  assert (Forall is_u8 rc) as Hu by (apply read_bytes_u8, store32_ok, B1).
  destruct (store_copies polls ee nv rc (machine (bus_world b)) Hp Hu) as (s1 & E1 & C1);
    [unfold rc; rewrite length_read_bytes; lia|unfold rc; rewrite zlen_read_bytes; lia|exact Hc|].
  change (BLOCK_SIZE - 0x100) with 0. set (b1 := set_world (World (hose (bus_world b)) s1 (log (bus_world b))) (set_frame m1 b)).
  rewrite (bind_B _ _ (set_frame m1 b) b1 (zlen rc)) by (cbn [bus_world set_frame machine]; rewrite E1; reflexivity).
  assert (ok b1) as O1 by (destruct Hb1; constructor; assumption).
  destruct (shadow_spec b1 (put_bytes ee 0 rc) nv cycle O1 C1) as (b2 & E2 & O2 & S2 & D2 & F2 & C2). rewrite E2.
  assert (marked rc) as Mk.
  { apply marked_bytes. apply marked_bytes in Hk. apply (bytes_at_ext (frame b)); [|exact Hk]. intros x Hx.
    change (zlen (str "ELTEC" ++ [0])) with 6 in Hx. apply Ho. lia. }
  pose proof (sealed_store (frame b) B1) as Hs. cbv zeta in Hs. fold sum in Hs. fold m1 in Hs. fold rc in Hs.
  change (read_bytes (frame b1) EEREV 256) with rc in C2. exists b2, rc. rewrite F2. split_and!; auto.
Qed.

(** *** Together *)

Lemma dialogue_spec b ee nv : (cycle < polls)%nat -> ok b -> (7 <= line_ends (keys b))%nat -> copies ee nv 0 (machine (bus_world b)) ->
  marked (read_bytes (frame b) EEREV 256) ->
  exists b' rc rest, dialogue around_hex polls b = Some (tt, b') /\ ok b' /\ settings b' = set_input rest (settings b) /\ rest `suffix_of` keys b /\
    disks b' = disks b /\ read_bytes (frame b') EEREV 256 = rc /\ marked rc /\ sealed rc /\ Forall is_u8 rc /\
    copies (put_bytes ee 0 rc) (put_bytes nv NV rc) cycle (machine (bus_world b')).
Proof.
  intros Hp Hb Hn Hc Hm. destruct (local_enter_record b Hb Hn) as ([] & b1 & E1 & O1 & S1 & _). destruct S1 as [S1 S2 S3 S4 S5 S6].
  unfold dialogue. rewrite (bind_B _ _ _ _ _ E1).
  destruct (store_revision_spec b1 ee nv Hp O1 (S1 _ _ _ Hc)) as (b2 & rc & E2 & O2 & T2 & D2 & R2).
  { apply marked_bytes. apply marked_bytes in Hm. apply (bytes_at_ext (frame b)); [|exact Hm]. intros x Hx.
    change (zlen (str "ELTEC" ++ [0])) with 6 in Hx. replace x with (EEREV + (x - EEREV)) by lia. apply S5. lia. }
  exists b2, rc, (keys b1). split; [exact E2|]. split; [exact O2|]. split; [congruence|]. split; [exact S4|]. split; [congruence|]. exact R2.
Qed.

(** The operator's part: from the frame with both copies to the copies settled. *)
Definition act (f : bool * bool) : B (St := St) (C := C) unit :=
  (if (f.2 : bool) then dialogue around_hex polls else mret tt);; (if negb f.2 && f.1 then shadow else mret tt).

Lemma act_nothing b : act (false, false) b = Some (tt, b).
Proof. reflexivity. Qed.
Lemma act_copy b : act (true, false) b = shadow b.
Proof. reflexivity. Qed.
Lemma act_enter b : act (true, true) b = dialogue around_hex polls b.
Proof. unfold act. cbn [fst snd negb andb]. unfold mbind, B_bind. destruct (dialogue around_hex polls b) as [[[] b']|]; reflexivity. Qed.

Definition settled (b : board) (ee nv : mem) (d : decision) (rest : list Z) (b' : board) : Prop :=
  ok b' /\ decides ee nv (keys b) d rest /\ settings b' = set_input rest (settings b) /\ disks b' = disks b /\
  read_bytes (frame b') EEREV 256 = in_force d ee /\ marked (in_force d ee) /\
  exists bz, copies (after_ee d ee) (after_nv d ee nv) bz (machine (bus_world b')).

Lemma suffix_settings (rest : list Z) (s : env_state (C := C)) ks : set_input rest (set_input ks s) = set_input rest s.
Proof. reflexivity. Qed.

Lemma settle_record_spec b ee nv : (cycle < polls)%nat -> ok b -> mem_ok ee -> copies ee nv 0 (machine (bus_world b)) ->
  enough_keys ee nv (keys b) -> exists d rest b', settle_record around_hex polls b = Some (tt, b') /\ settled b ee nv d rest b'.
Proof.
  intros Hp Hb Hm Hc Hn. destruct (load_revision_spec b ee nv Hb Hm Hc) as (b1 & E1 & O1 & C1 & T1 & D1 & F1 & N1).
  destruct (check_magic_spec b1 O1) as (f & b2 & E2 & O2 & (W2 & T2 & D2 & _) & M2 & Hf). rewrite F1 in Hf.
  assert (settings b2 = settings b) as T by congruence.
  assert (f = true \/ agree (read_bytes (frame b2) EEREV 256) (read_bytes (frame b2) BUF 256) \/ (1 <= line_ends (keys b2))%nat) as Hask.
  { destruct f; [auto|]. right. destruct Hf as [_ ->]. rewrite F1, N1. destruct Hn as [[_ Ha]|[(_ & r & line & ks' & El & _)|Hl]]; [auto| |right; rewrite T; lia].
    right. rewrite T. pose proof (buf_readline_spec (console_buffer b) (keys b) (ok_buffer _ Hb) (ok_keys _ Hb)) as R. rewrite El in R.
    destruct R as (_ & _ & R & _). lia. }
  destruct (ask_copy_spec b2 f O2 Hask) as (g & b3 & E3 & O3 & [_ S2 S3 S4 _ S6] & F3 & W3 & Hg).
  assert (copies ee nv 0 (machine (bus_world b3))) as C3 by congruence.
  assert (settle_record around_hex polls b = act g b3) as ->.
  { unfold settle_record. rewrite (bind_B _ _ _ _ _ E1), (bind_B _ _ _ _ _ E2), (bind_B _ _ _ _ _ E3). reflexivity. }
  assert (settings b3 = set_input (keys b3) (settings b)) as T3 by congruence.
  assert (disks b3 = disks b) as D3 by congruence.
  assert (decides ee nv (keys b) Nothing (keys b3) -> f = false -> g = (false, false) -> exists d rest b', act g b3 = Some (tt, b') /\ settled b ee nv d rest b') as HN.
  { intros Hd -> ->. destruct Hf as [Mk E]. exists Nothing, (keys b3), b3. split; [apply act_nothing|]. unfold settled. rewrite F3, E, F1. split_and!; eauto. }
  assert ((~ marked (record_of ee) \/ ~ agree (record_of ee) (shadow_of nv) /\ exists r line,
       readline_into_buffer None (keys b) = Some (r, line, keys b3) /\ answer line = chr "R") -> g = (true, true) -> exists d rest b', act g b3 = Some (tt, b') /\ settled b ee nv d rest b') as HE.
  { intros Hd ->. assert (7 <= line_ends (keys b3))%nat as H7.
    { rewrite T in S3. destruct Hn as [[Mk Ha]|[(Mk & r & line & ks' & El & Hne)|Hl]]; [|exfalso|lia].
      - exfalso. destruct Hd as [Hd|[Hd _]]; [exact (Hd Mk)|exact (Hd Ha)].
      - destruct Hd as [Hd|(_ & r2 & line2 & El2 & ER)]; [exact (Hd Mk)|]. rewrite El in El2. injection El2 as _ <- _. exact (Hne ER). }
    rewrite act_enter. destruct (dialogue_spec b3 ee nv Hp O3 H7 C3) as (b4 & rc & rest & E4 & O4 & T4 & X4 & D4 & F4 & M4 & L4 & U4 & C4);
      [rewrite F3; exact M2|]. exists (Enter rc), rest, b4. split; [exact E4|]. split_and!; auto.
    - apply Entered; auto; [|rewrite <- F4; apply length_read_bytes|etrans; [exact X4|rewrite <- T; exact S4]].
      destruct Hd as [Hd|(Ha & r & line & Er & El)]; [auto|]. right. split; [exact Ha|]. exists r, line, (keys b3). auto.
    - rewrite T4, T3. reflexivity.
    - congruence.
    - eauto. }
  destruct f; [apply HE; [left; exact Hf|apply Hg]|]. destruct Hf as [Mk E]. rewrite E in *. rewrite F1, N1 in Hg.
  destruct Hg as [(Ha & -> & ->)|(Ha & k & line & El & ->)].
  { apply HN; auto. rewrite <- T. apply Agreed; assumption. }
  rewrite T in El. destruct (Z.eqb_spec (answer line) (chr "C")) as [EC|EC].
  - rewrite act_copy. destruct (shadow_spec b3 ee nv 0 O3 C3) as (b4 & E4 & O4 & T4 & D4 & F4 & C4).
    exists Copy, (keys b3), b4. split; [exact E4|]. rewrite F3, F1 in C4.
    split_and!; auto; [eapply Copied; eauto|congruence|congruence|rewrite F4, F3; exact F1|eauto].
  - destruct (Z.eqb_spec (answer line) (chr "R")) as [ER|ER].
    + apply HE; [|reflexivity]. right. split; [exact Ha|]. eauto.
    + apply HN; auto. eapply Declined; eauto.
Qed.

(** ** The environment, specified *)

Definition set_var (name v : list Z) (l : list entry) : list entry :=
  let l' := env_remove name l in if zlen (image (l' ++ [(name, v)])) <=? ENV_SIZE then l' ++ [(name, v)] else l'.
Definition default_var (name v : list Z) (l : list entry) : list entry :=
  match env_lookup name l with Some _ => l | None => set_var name v l end.
Definition address_of (rc : list Z) : list Z := take 6 (drop 0x68 rc).
Definition settled_vars (rc : list Z) (l : list entry) : list entry :=
  default_var (str "scsi_reset_time") (str "10") (default_var (str "ata_reset_time") (str "60")
    (set_var (str "ethaddr") (mac_text (address_of rc)) l)).

(** What the steps after the record leave alone; the variables go from [l] to [F l]. *)
Record kept (b b' : board) : Prop := Kept {
  kp_ok : ok b';
  kp_copies ee nv bz : copies ee nv bz (machine (bus_world b)) -> copies ee nv bz (machine (bus_world b'));
  kp_keys : keys b' = keys b;
  kp_record : read_bytes (frame b') EEREV 256 = read_bytes (frame b) EEREV 256
}.
Lemma kept_refl b : ok b -> kept b b.
Proof. constructor; auto. Qed.
Lemma kept_trans b1 b2 b3 : kept b1 b2 -> kept b2 b3 -> kept b1 b3.
Proof. intros [A1 A2 A3 A4] [B1 B2 B3 B4]. constructor; auto; congruence. Qed.

Definition vars (b : board) (l : list entry) : Prop := env_inv (edata (settings b)) l.

Lemma do_setenv_input fu (s s' : env_state (C := C)) name args r : plain name -> _do_setenv null_text fu s name args = Some (r, s') -> input s' = input s.
Proof.
  intros Hp. pose proof Hp as (_ & _ & _ & Hb). unfold _do_setenv. destruct (existsb _ name); [intros [= _ <-]; reflexivity|]. cbv zeta.
  destruct (setenv_search _ _ _ _ _) as [[[oldval env] nxt]|]; [|discriminate]. rewrite setenv_console_plain by exact Hp.
  rewrite (bool_decide_eq_false_2 (name = str "baudrate")) by exact Hb.
  assert (forall s1 : env_state (C := C), input s1 = input s -> (match args with
    | [] => Some (0, env_crc_update s1)
    | arg :: _ => match env_end fu (edata s1) 0 with
        | None => None
        | Some e => match append_var (edata s1) e name args with
            | None => Some (1, s1)
            | Some e => Some (0, setenv_mirror (env_crc_update (set_data s1 e)) name arg) end end end) = Some (r, s') -> input s' = input s) as Fin.
  { intros s1 E1. destruct args as [|arg args]; [intros [= _ <-]; exact E1|]. destruct (env_end fu (edata s1) 0) as [e|]; [|discriminate].
    destruct (append_var _ e name _) as [e'|]; intros [= _ <-]; [|exact E1]. unfold setenv_mirror. repeat case_bool_decide; exact E1. }
  destruct (0 <=? oldval).
  - destruct (delete_var fu (edata (bump_id s)) env nxt) as [e|]; [|discriminate]. apply Fin. reflexivity.
  - apply Fin. reflexivity.
Qed.

Lemma setvar_spec b l name v : (Z.to_nat ENV_SIZE < fuel)%nat -> ok b -> vars b l -> name_ok name -> plain name -> text_ok v -> v <> [] ->
  exists b', setvar null_text fuel name v b = Some (tt, b') /\ kept b b' /\ vars b' (set_var name v l) /\
    disks b' = disks b /\ eltec_board b' = eltec_board b.
Proof.
  intros Hf [B1 B2 B3 B4] Hv Hn Hp Ht Hne.
  destruct (do_setenv_spec null_text fuel (settings b) l name [v] Hv Hn) as (r & s' & E & _ & Hr); [constructor; [exact Ht|constructor]|exact Hp|exact Hf|].
  assert (input s' = keys b) as Hk by (eapply do_setenv_input; eassumption).
  unfold setvar. assert (setenv null_text fuel (settings b) name (Some v) = Some (r, s')) as -> by (destruct v; [congruence|exact E]).
  eexists. split; [reflexivity|]. split; [constructor; auto; constructor; auto; cbn; rewrite Hk; exact B3|]. split_and!; auto. unfold vars, set_var. cbn [settings set_settings].
  rewrite bool_decide_eq_false_2 in Hr by discriminate. cbv zeta in Hr.
  assert (args_value [v] = v) as Ev by (unfold args_value; cbn [args_text tl]; apply app_nil_r). rewrite Ev in Hr.
  destruct (_ <=? ENV_SIZE); apply Hr.
Qed.

Lemma getvar_spec b l name : vars b l -> name_ok name ->
  match env_lookup name l with
  | None => getvar name b = Some (None, b)
  | Some v => exists a, getvar name b = Some (Some a, b) /\ value_at a b = Some (v, b)
  end.
Proof.
  intros Hv Hn. pose proof (getenv_spec _ l name Hv Hn) as Hg. unfold getvar, option_B. cbv [mbind B_bind asks].
  destruct (env_lookup name l) as [v|] eqn:El; [|rewrite Hg; reflexivity].
  destruct Hg as (a & -> & _ & Hs). exists a. split; [reflexivity|]. unfold value_at, asks. do 2 f_equal. apply text_at_cstr; [exact Hs|].
  destruct (lookup_split name l v El) as (la & lb & -> & _). pose proof (inv_length _ _ Hv) as Hl. rewrite flat_app, length_app, length_flat_cons in Hl.
  unfold body in Hl. cbn [fst snd] in Hl. rewrite length_app in Hl. cbn [List.length] in Hl. lia.
Qed.

(** *** The node address *)

Lemma put_kept b a t : ok b -> BUF <= a -> a + zlen t <= LITERALS -> Forall is_u8 t ->
  exists b', put a t b = Some (tt, b') /\ kept b b' /\ settings b' = settings b /\ disks b' = disks b /\ eltec_board b' = eltec_board b.
Proof.
  intros Hb Ha Hz Ht. eexists. split; [reflexivity|]. split; [|auto].
  assert (same_outside BUF LITERALS (frame b) (put_bytes (frame b) a t)) as Ho by (apply same_outside_put; assumption).
  constructor; auto.
  - apply ok_set_frame; [exact Hb|apply put_bytes_ok; [apply Hb|exact Ht]|eapply same_outside_weaken; [exact Ho|unfold EEREV, BUF; lia|lia]].
  - cbn [frame set_frame]. apply read_bytes_ext. intros i Hi. apply Ho. unfold EEREV, BUF. lia.
Qed.

Lemma mac_text_length l : (List.length (mac_text l) <= 3 * List.length l)%nat.
Proof.
  induction l as [|v l IH]; [cbn; lia|]. destruct l as [|w l]; [cbn; lia|].
  change (mac_text (v :: w :: l)) with (pack_hex_byte v ++ chr ":" :: mac_text (w :: l)). rewrite length_app. cbn [List.length] in *.
  change (List.length (pack_hex_byte v)) with 2%nat. lia.
Qed.
Lemma text_nonzero t : Forall (fun c => is_u8 c /\ c <> 0) t -> text_ok t.
Proof. apply List.Forall_impl. tauto. Qed.
Lemma name_dec (n : list Z) : forallb (fun c => negb (c =? 0) && negb (c =? chr "=")) n = true -> name_ok n.
Proof.
  intros Hn. apply List.Forall_forall. intros c Hc. rewrite forallb_forall in Hn. specialize (Hn c Hc).
  apply andb_prop in Hn as [H1' H2']. apply negb_true_iff in H1', H2'. split; apply Z.eqb_neq; assumption.
Qed.

Lemma publish_spec b l : (Z.to_nat ENV_SIZE < fuel)%nat -> ok b -> vars b l ->
  exists b', publish_address null_text fuel b = Some (tt, b') /\ kept b b' /\ disks b' = disks b /\
    vars b' (set_var (str "ethaddr") (mac_text (address_of (read_bytes (frame b) EEREV 256))) l).
Proof.
  intros Hf Hb Hv. set (a := read_bytes (frame b) (EEREV + etheraddr) 6).
  assert (address_of (read_bytes (frame b) EEREV 256) = a) as ->.
  { unfold address_of. rewrite drop_read, take_read by lia. reflexivity. }
  assert (Forall is_u8 a) as Ha by (apply read_bytes_u8, Hb). pose proof (mac_text_ok a Ha) as Ht.
  assert (List.length a = 6%nat) as Hl by apply length_read_bytes. pose proof (mac_text_length a) as Hm.
  unfold publish_address. rewrite (bind_B _ _ _ b (frame b)) by reflexivity. fold a.
  rewrite (bind_B _ _ _ b (mac_text a, 17)) by (unfold option_B; rewrite print_bytes_text by assumption; reflexivity). cbn [fst].
  destruct (put_kept b BUF (mac_text a ++ [0]) Hb) as (b1 & E1 & K1 & T1 & D1 & _); [lia|zlen_simpl; change (zlen [0]) with 1; unfold zlen, BUF, LITERALS; lia| |].
  { apply Forall_app. split; [|constructor; [split; lia|constructor]].
    eapply List.Forall_impl; [|exact Ht]. intros c [Hc _]. exact Hc. }
  rewrite (bind_B _ _ _ _ _ E1).
  destruct (setvar_spec b1 l (str "ethaddr") (mac_text a) Hf (kp_ok _ _ K1)) as (b2 & E2 & K2 & V2 & D2 & _).
  - unfold vars. rewrite T1. exact Hv.
  - apply name_dec. reflexivity.
  - split_and!; discriminate.
  - apply text_nonzero, Ht.
  - destruct a as [|x [|y a]]; discriminate.
  - exists b2. split; [exact E2|]. split; [eapply kept_trans; eassumption|]. split; [congruence|exact V2].
Qed.

(** *** The kind of board *)

Lemma strstr_find m a s : mem_ok m -> bytes_at m LITERALS literals -> cstr m a s -> (List.length s < SCAN)%nat ->
  strstr SCAN m a L_75 = Some (match find_sub (str "75") s with Some i => a + Z.of_nat i | None => NULL end).
Proof.
  intros Hm Hl Hs Hn.
  assert (cstr m L_75 (str "75")) as H75.
  { apply bytes_cstr; [repeat constructor; discriminate|]. change literals with ((str "ELTEC" ++ [0]) ++ str "75" ++ [0]) in Hl.
    apply bytes_at_app in Hl as [_ Hl]. exact Hl. }
  unfold strstr. rewrite (strlen_spec SCAN m L_75 (str "75") H75) by (vm_compute; lia). change (zlen (str "75") =? 0) with false. cbn iota.
  rewrite (strlen_spec SCAN m a s Hs Hn). apply strstr_loop_spec; [exact Hs|exact H75|vm_compute; reflexivity|lia].
Qed.

Definition kind_of (name : list Z) : Z := match find_sub (str "75") name with Some _ => 750 | None => 740 end.

Lemma kept_kind k b b' : kept b b' -> kept b (set_kind k b').
Proof. intros [[A1 A2 A3 A4] K2 K3 K4]. constructor; auto. constructor; auto. Qed.

Lemma identify_spec b : ok b -> exists k, identify b = Some (k, set_kind k b) /\ kept b (set_kind k b) /\ (k = 750 \/ k = 740) /\
  forall name, cstr (frame b) (EEREV + board_name) name -> k = kind_of name.
Proof.
  intros Hb. pose proof Hb as [B1 _ _ B4].
  destruct (frame_string (frame b) (EEREV + board_name) B4 ltac:(unfold EEREV, board_name, LITERALS; lia)) as (s & Hs & Hn).
  pose proof (strstr_find _ _ s B1 B4 Hs Hn) as E. exists (kind_of s).
  assert ((if negb (match find_sub (str "75") s with Some i => EEREV + board_name + Z.of_nat i | None => NULL end =? NULL) then 750 else 740) = kind_of s) as Ek.
  { unfold kind_of. destruct (find_sub _ s); [|reflexivity]. rewrite (proj2 (Z.eqb_neq _ NULL)) by (unfold EEREV, board_name, NULL; lia). reflexivity. }
  split; [|split; [apply kept_kind, kept_refl, Hb|split]].
  - unfold identify. rewrite (bind_B _ _ _ b (frame b)) by reflexivity. erewrite bind_B by (unfold option_B; rewrite E; reflexivity).
    cbv zeta. rewrite Ek. reflexivity.
  - unfold kind_of. destruct (find_sub _ s); auto.
  - intros name Hname. rewrite (cstr_fun _ _ _ _ Hname Hs). reflexivity.
Qed.

(** *** Cache, times, disks *)

Lemma pci_run {A} (m : M (St := St) A) b : ok b -> (forall ee nv bz, quiet (copies ee nv bz) m) -> quiet (fun _ => True) m ->
  exists a w, pci m b = Some (a, set_world w b) /\ kept b (set_world w b).
Proof.
  intros [B1 B2 B3 B4] Hc Ht. destruct (Ht (bus_world b) I) as (a & w & E & _). unfold pci. rewrite E. exists a, w. split; [reflexivity|].
  constructor; auto; [constructor; auto|]. intros ee nv bz Hw. destruct (Hc ee nv bz (bus_world b) Hw) as (a' & w' & E' & Hw' & _).
  rewrite E in E'. injection E' as <- <-. exact Hw'.
Qed.

(** The cache waits for the controller of the machine at hand. *)
Lemma quiet_l2_any fu v : (l2 < fu)%nat -> quiet (fun _ => True) (l2_cache_enable (St := St) fu v).
Proof.
  intros Hf w _. unfold l2_cache_enable. destruct (negb (v =? 0)).
  - unfold l2_cpu_enable. set (s1 := mtspr SPRN_L2CR _ (machine w)). pose proof (l2_started s1 (u32 (v .| L2CR_I))) as Hl.
    destruct (l2_wait_returns (cycle := cycle) fu (mtspr SPRN_L2CR (u32 (v .| L2CR_I)) s1) (fun _ => True)) as (s2 & -> & _); auto; [lia|].
    cbn [mbind option_bind]. eauto 6.
  - assert (quiet (fun _ : St => True) l2_bridge_enable) as Q; [|exact (Q w I)].
    unfold l2_bridge_enable. apply quiet_bind; [apply quiet_find_device; auto|]. intros dev. destruct (dev =? -1); [apply quiet_ret|].
    repeat (first [apply quiet_ret | apply quiet_bind; [first [apply quiet_read|apply quiet_write|apply quiet_lift]; auto|intros] | progress cbv zeta]).
Qed.

Lemma start_cache_spec b l : (l2 < polls)%nat -> ok b -> vars b l ->
  exists b', start_cache null_text polls b = Some (tt, b') /\ kept b b' /\ settings b' = settings b /\ disks b' = disks b /\ eltec_board b' = eltec_board b.
Proof.
  intros Hp Hb Hv. unfold start_cache.
  assert (exists p c, getvar (str "l2cache") b = Some (p, b) /\ first_char null_text p b = Some (c, b)) as (p & c & E1 & E2).
  { pose proof (getvar_spec b l (str "l2cache") Hv (name_dec (str "l2cache") eq_refl)) as Hg. destruct (env_lookup _ l) as [v|].
    - destruct Hg as (a & -> & _). exists (Some a), (edata (settings b) a). split; reflexivity.
    - rewrite Hg. exists None, (cur null_text). split; reflexivity. }
  rewrite (bind_B _ _ _ _ _ E1), (bind_B _ _ _ _ _ E2). destruct (c =? chr "0"); [exists b; split; [reflexivity|]; split; [apply kept_refl, Hb|auto]|].
  rewrite (bind_B _ _ _ b (frame b)) by reflexivity.
  destruct (pci_run (l2_cache_enable polls (s32 (load32 (frame b) (EEREV + res)))) b Hb) as (a & w & E & K);
    [intros; apply quiet_l2, Hp|apply quiet_l2_any, Hp|].
  rewrite (bind_B _ _ _ _ _ E). exists (set_world w b). split; [reflexivity|]. split; [exact K|auto].
Qed.

(** A board without the variable: a 0 at address 0 decides about the cache. *)
Lemma cache_by_null b l : vars b l -> env_lookup (str "l2cache") l = None -> cur null_text = chr "0" ->
  start_cache null_text polls b = Some (tt, b).
Proof.
  intros Hv El En. pose proof (getvar_spec b l (str "l2cache") Hv (name_dec (str "l2cache") eq_refl)) as Hg. rewrite El in Hg.
  unfold start_cache. rewrite (bind_B _ _ _ _ _ Hg), (bind_B _ _ b b (cur null_text)) by reflexivity. rewrite En. reflexivity.
Qed.

Definition time_of (v : option (list Z)) (value : Z) : Z := match v with Some v => u32 (s32 (simple_strtoul v 10).1) | None => value end.

Lemma settle_time_spec b l name value t n : (Z.to_nat ENV_SIZE < fuel)%nat -> ok b -> vars b l -> name_ok name -> plain name ->
  vsprintf (str "%d") [Aint value] = Some (t, n) -> Forall (fun c => is_u8 c /\ c <> 0) t -> t <> [] -> zlen t < 256 ->
  exists b', settle_time null_text fuel name value b = Some (time_of (env_lookup name l) value, b') /\ kept b b' /\
    vars b' (default_var name t l) /\ disks b' = disks b /\ eltec_board b' = eltec_board b.
Proof.
  intros Hf Hb Hv Hn Hp Et Ht Hne Hz. unfold settle_time. pose proof (getvar_spec b l name Hv Hn) as Hg. unfold default_var.
  destruct (env_lookup name l) as [v|].
  - destruct Hg as (a & E1 & E2). rewrite (bind_B _ _ _ _ _ E1), (bind_B _ _ _ _ _ E2). exists b. split; [reflexivity|]. split; [apply kept_refl, Hb|auto].
  - rewrite (bind_B _ _ _ _ _ Hg). rewrite (bind_B _ _ b b (t, n)) by (unfold option_B; rewrite Et; reflexivity). cbn [fst].
    destruct (put_kept b BUF (t ++ [0]) Hb) as (b1 & E1 & K1 & T1 & D1 & L1); [lia|zlen_simpl; change (zlen [0]) with 1; unfold BUF, LITERALS; lia| |].
    { apply Forall_app. split; [|constructor; [split; lia|constructor]]. eapply List.Forall_impl; [|exact Ht]. intros c [Hc _]. exact Hc. }
    rewrite (bind_B _ _ _ _ _ E1).
    destruct (setvar_spec b1 l name t Hf (kp_ok _ _ K1)) as (b2 & E2 & K2 & V2 & D2 & L2); [unfold vars; rewrite T1; exact Hv|exact Hn|exact Hp|apply text_nonzero, Ht|exact Hne|].
    rewrite (bind_B _ _ _ _ _ E2). exists b2. split; [reflexivity|]. split; [eapply kept_trans; eassumption|]. split; [exact V2|]. split; congruence.
Qed.

Lemma kept_disks d b b' : kept b b' -> kept b (set_disks d b').
Proof. intros [[A1 A2 A3 A4] K2 K3 K4]. constructor; auto. constructor; auto. Qed.

Lemma settle_times_spec b l : (Z.to_nat ENV_SIZE < fuel)%nat -> ok b -> vars b l -> disks b = disk_defaults ->
  exists b', settle_times null_text fuel b = Some (tt, b') /\ kept b b' /\ eltec_board b' = eltec_board b /\
    vars b' (default_var (str "scsi_reset_time") (str "10") (default_var (str "ata_reset_time") (str "60") l)) /\
    disks b' = Disk (time_of (env_lookup (str "ata_reset_time") l) 60)
      (time_of (env_lookup (str "scsi_reset_time") (default_var (str "ata_reset_time") (str "60") l)) 10) PCI_DEVICE_ID_NCR_53C875 15 0x13.
Proof.
  intros Hf Hb Hv Hd. unfold settle_times. rewrite (bind_B _ _ b b (disks b)) by reflexivity. rewrite Hd. cbn [ata_reset_time disk_defaults].
  destruct (settle_time_spec b l (str "ata_reset_time") 60 (str "60") 2 Hf Hb Hv) as (b1 & E1 & K1 & V1 & D1 & L1);
    [apply name_dec; reflexivity|split_and!; discriminate|reflexivity|repeat constructor; discriminate|discriminate|reflexivity|].
  rewrite (bind_B _ _ _ _ _ E1). set (v1 := time_of _ 60). set (b2 := set_disks (Disk v1 10 PCI_DEVICE_ID_NCR_53C875 15 0x13) b1).
  rewrite (bind_B _ _ b1 b2 tt) by reflexivity. rewrite (bind_B _ _ b2 b2 (disks b2)) by reflexivity. change (scsi_reset_time (disks b2)) with 10.
  pose proof (kept_disks (disks b2) b b1 K1 : kept b b2) as K2.
  destruct (settle_time_spec b2 (default_var (str "ata_reset_time") (str "60") l) (str "scsi_reset_time") 10 (str "10") 2 Hf (kp_ok _ _ K2) V1)
    as (b3 & E3 & K3 & V3 & D3 & L3); [apply name_dec; reflexivity|split_and!; discriminate|reflexivity|repeat constructor; discriminate|discriminate|reflexivity|].
  rewrite (bind_B _ _ _ _ _ E3). eexists. split; [reflexivity|].
  split; [apply kept_disks; eapply kept_trans; eassumption|]. split; [exact (eq_trans L3 L1)|]. split; [exact V3|reflexivity].
Qed.

(** The steps on the PCI bus at the end: variables and times stay. *)
Record tail (b b' : board) : Prop := Tail {
  tl_kept : kept b b';
  tl_settings : settings b' = settings b;
  tl_kind : eltec_board b' = eltec_board b;
  tl_times : ata_reset_time (disks b') = ata_reset_time (disks b) /\ scsi_reset_time (disks b') = scsi_reset_time (disks b);
  tl_chip : (scsi_dev_id (disks b'), scsi_max_scsi_id (disks b'), scsi_sym53c8xx_ccf (disks b')) =
      (scsi_dev_id (disks b), scsi_max_scsi_id (disks b), scsi_sym53c8xx_ccf (disks b)) \/
    (scsi_dev_id (disks b'), scsi_max_scsi_id (disks b'), scsi_sym53c8xx_ccf (disks b')) = (PCI_DEVICE_ID_NCR_53C860, 7, 0x15)
}.
Lemma tail_refl b : ok b -> tail b b.
Proof. intros Hb. constructor; auto using kept_refl. Qed.
Lemma tail_trans b1 b2 b3 : tail b1 b2 -> tail b2 b3 -> tail b1 b3.
Proof.
  intros [A1 A2 A3 [A4 A4'] A5] [B1 B2 B3 [B4 B4'] B5]. constructor; [eapply kept_trans; eassumption|congruence|congruence|split; congruence|].
  destruct B5 as [->|B5]; [exact A5|right; exact B5].
Qed.
Definition closing {A} (m : B (St := St) (C := C) A) : Prop := forall b l, ok b -> vars b l -> exists a b', m b = Some (a, b') /\ tail b b'.
Lemma closing_ret {A} (a : A) : closing (mret a).
Proof. intros b l Hb _. exists a, b. split; [reflexivity|apply tail_refl, Hb]. Qed.
Lemma closing_bind {A A'} (m : B A) (f : A -> B A') : closing m -> (forall a, closing (f a)) -> closing (m ≫= f).
Proof.
  intros Hm Hf b l Hb Hv. destruct (Hm b l Hb Hv) as (a & b1 & E1 & T1).
  destruct (Hf a b1 l (kp_ok _ _ (tl_kept _ _ T1))) as (a2 & b2 & E2 & T2); [unfold vars; rewrite (tl_settings _ _ T1); exact Hv|].
  exists a2, b2. rewrite (bind_B _ _ _ _ _ E1). split; [exact E2|eapply tail_trans; eassumption].
Qed.
Lemma closing_pci {A} (m : M (St := St) A) : (forall ee nv bz, quiet (copies ee nv bz) m) -> quiet (fun _ => True) m -> closing (pci m).
Proof.
  intros Hc Ht b l Hb _. destruct (pci_run m b Hb Hc Ht) as (a & w & E & K). exists a, (set_world w b). split; [exact E|]. constructor; auto.
Qed.
Lemma closing_find v d : closing (find_device v d).
Proof. apply closing_pci; [intros; apply quiet_find_device; [apply copies_out|apply copies_in]|apply quiet_find_device; auto]. Qed.
Lemma closing_write dev off v : closing (wr_byte dev off v).
Proof. apply closing_pci; [intros; apply quiet_write, copies_out|apply quiet_write; auto]. Qed.
Lemma closing_getvar name : name_ok name -> closing (getvar name).
Proof.
  intros Hn b l Hb Hv. pose proof (getvar_spec b l name Hv Hn) as Hg. destruct (env_lookup name l); [destruct Hg as (a & Hg & _)|];
    do 2 eexists; (split; [exact Hg|apply tail_refl, Hb]).
Qed.
Lemma closing_value a : closing (value_at a).
Proof. intros b l Hb _. do 2 eexists. split; [reflexivity|apply tail_refl, Hb]. Qed.
Lemma closing_dma v bit bdf off : closing (dma_off_flag v bit bdf off).
Proof. unfold dma_off_flag. destruct (negb _); [apply closing_write|apply closing_ret]. Qed.
Lemma closing_setup_disks : closing setup_disks.
Proof.
  apply closing_bind; [apply closing_find|]. intros bdf. destruct (0 <? bdf); [|apply closing_ret].
  apply closing_bind; [apply closing_find|]. intros scsi. apply closing_bind.
  - destruct (0 <? scsi); [|apply closing_ret]. apply closing_bind; [|intros _; apply closing_write].
    intros b l Hb _. do 2 eexists. split; [reflexivity|]. constructor; auto. apply kept_disks, kept_refl, Hb.
  - intros _. apply closing_bind; [apply closing_getvar, name_dec; reflexivity|]. intros [a|]; [|apply closing_ret].
    apply closing_bind; [apply closing_value|]. intros v. cbv zeta. repeat (apply closing_bind; [apply closing_dma|intros _]). apply closing_dma.
Qed.

(** ** The whole routine *)

Definition name_in (rc name : list Z) : Prop := text_ok name /\ name ++ [0] `prefix_of` drop 0x10 rc.

(** What is known when it is done. *)
Record started (ee nv : mem) (l : list entry) (d : decision) (rest : list Z) (b' : board) : Prop := Started {
  sd_ok : ok b';
  sd_keys : keys b' = rest;
  sd_marked : marked (in_force d ee);
  sd_record : Forall is_u8 (in_force d ee) /\ List.length (in_force d ee) = 256%nat;
  sd_copies : exists bz, copies (after_ee d ee) (after_nv d ee nv) bz (machine (bus_world b'));
  sd_vars : vars b' (settled_vars (in_force d ee) l);
  sd_kind : (eltec_board b' = 750 \/ eltec_board b' = 740) /\ forall name, name_in (in_force d ee) name -> eltec_board b' = kind_of name;
  sd_times : ata_reset_time (disks b') = time_of (env_lookup (str "ata_reset_time") (set_var (str "ethaddr") (mac_text (address_of (in_force d ee))) l)) 60;
  sd_chip : (scsi_dev_id (disks b'), scsi_max_scsi_id (disks b'), scsi_sym53c8xx_ccf (disks b')) = (PCI_DEVICE_ID_NCR_53C875, 15, 0x13) \/
    (scsi_dev_id (disks b'), scsi_max_scsi_id (disks b'), scsi_sym53c8xx_ccf (disks b')) = (PCI_DEVICE_ID_NCR_53C860, 7, 0x15)
}.

Lemma name_in_frame m name : name_in (read_bytes m EEREV 256) name -> cstr m (EEREV + board_name) name.
Proof.
  intros [Ht [k Hk]]. rewrite drop_read in Hk by lia. apply bytes_cstr; [exact Ht|].
  assert (bytes_at m (EEREV + board_name) ((name ++ [0]) ++ k)) as Hb by (rewrite <- Hk; apply bytes_at_read).
  apply bytes_at_app in Hb as [Hb _]. exact Hb.
Qed.

Lemma misc_init_r_spec b ee nv l : (cycle < polls)%nat -> (l2 < polls)%nat -> (Z.to_nat ENV_SIZE < fuel)%nat ->
  ok b -> disks b = disk_defaults -> mem_ok ee -> copies ee nv 0 (machine (bus_world b)) -> vars b l -> enough_keys ee nv (keys b) ->
  exists d rest b', misc_init_r around_hex null_text polls fuel b = Some (0, b') /\ decides ee nv (keys b) d rest /\ started ee nv l d rest b'.
Proof.
  intros Hp1 Hp2 Hf Hb Hd Hm Hc Hv Hn.
  destruct (settle_record_spec b ee nv Hp1 Hb Hm Hc Hn) as (d & rest & b1 & E1 & O1 & Dec & T1 & D1 & F1 & Mk & bz & C1).
  destruct (publish_spec b1 l Hf O1) as (b2 & E2 & K2 & D2 & V2); [unfold vars; rewrite T1; exact Hv|]. rewrite F1 in V2.
  destruct (identify_spec b2 (kp_ok _ _ K2)) as (k & E3 & K3 & Hk & Hname). set (b3 := set_kind k b2) in *.
  destruct (start_cache_spec b3 _ Hp2 (kp_ok _ _ K3) V2) as (b4 & E4 & K4 & T4 & D4 & L4).
  destruct (settle_times_spec b4 (set_var (str "ethaddr") (mac_text (address_of (in_force d ee))) l) Hf (kp_ok _ _ K4)) as (b5 & E5 & K5 & L5 & V5 & D5);
    [unfold vars; rewrite T4; exact V2|rewrite D4; change (disks b3) with (disks b2); congruence|].
  destruct (closing_setup_disks b5 _ (kp_ok _ _ K5) V5) as ([] & b6 & E6 & [K6 T6 L6 [A6 S6] X6]).
  exists d, rest, b6. split; [|split; [exact Dec|]].
  - unfold misc_init_r. rewrite (bind_B _ _ _ _ _ E1), (bind_B _ _ _ _ _ E2), (bind_B _ _ _ _ _ E3), (bind_B _ _ _ _ _ E4), (bind_B _ _ _ _ _ E5), (bind_B _ _ _ _ _ E6). reflexivity.
  - pose proof (kept_trans _ _ _ (kept_trans _ _ _ (kept_trans _ _ _ (kept_trans _ _ _ K2 K3) K4) K5) K6) as [KO KC KK KF].
    assert (eltec_board b6 = k) as Lk by (rewrite L6, L5, L4; reflexivity).
    assert (Forall is_u8 (in_force d ee) /\ List.length (in_force d ee) = 256%nat) as Hr.
    { rewrite <- F1. split; [apply read_bytes_u8, O1|apply length_read_bytes]. }
    constructor; auto.
    + rewrite KK, T1. reflexivity.
    + exists bz. apply KC, C1.
    + unfold vars. rewrite T6. exact V5.
    + rewrite Lk. split; [exact Hk|]. intros name Hin. apply Hname. apply name_in_frame. rewrite (kp_record _ _ K2), F1. exact Hin.
    + rewrite A6, D5. reflexivity.
    + rewrite D5 in X6. exact X6.
Qed.

(** ** Main results *)

Hypothesis Hcycle : (cycle < polls)%nat.
Hypothesis Hl2 : (l2 < polls)%nat.
Hypothesis Hfuel : (Z.to_nat ENV_SIZE < fuel)%nat.

(** Power on: bytes in memory and on the line, the EEPROM ready, the environment loaded. *)
Record power_up (w : world (St := St)) (s : env_state (C := C)) (kb stack ee nv : mem) (l : list entry) : Prop := PowerUp {
  pu_stack : mem_ok stack;
  pu_buffer : mem_ok kb;
  pu_keys : Forall is_u8 (input s);
  pu_ee : mem_ok ee;
  pu_copies : copies ee nv 0 (machine w);
  pu_vars : env_inv (edata s) l
}.

Lemma literals_u8 : Forall is_u8 literals.
Proof. apply all_u8_spec. reflexivity. Qed.
Lemma start_ok w s kb stack ee nv l : power_up w s kb stack ee nv l -> ok (start w s kb stack).
Proof.
  intros [P1 P2 P3 _ _ _]. constructor; auto; cbn [frame start]; [apply put_bytes_ok; [exact P1|exact literals_u8]|apply put_bytes_at].
Qed.

Lemma boot w s kb stack ee nv l : power_up w s kb stack ee nv l -> enough_keys ee nv (input s) ->
  exists d rest b', misc_init_r around_hex null_text polls fuel (start w s kb stack) = Some (0, b') /\
    decides ee nv (input s) d rest /\ started ee nv l d rest b'.
Proof.
  intros P Hn. pose proof (start_ok _ _ _ _ _ _ _ P) as Hb. destruct P as [_ _ _ P4 P5 P6].
  exact (misc_init_r_spec (start w s kb stack) ee nv l Hcycle Hl2 Hfuel Hb eq_refl P4 P5 P6 Hn).
Qed.

(** *** The variables *)

Lemma lookup_set_ne n name v l : n <> name -> env_lookup n (set_var name v l) = env_lookup n l.
Proof.
  intros Hn. unfold set_var. cbv zeta. destruct (_ <=? _); [|apply lookup_remove_ne, Hn].
  rewrite lookup_app. cbn [fst]. rewrite bool_decide_eq_false_2 by congruence. rewrite lookup_remove_ne by exact Hn.
  destruct (env_lookup n l); reflexivity.
Qed.
Lemma lookup_default_ne n name v l : n <> name -> env_lookup n (default_var name v l) = env_lookup n l.
Proof. intros Hn. unfold default_var. destruct (env_lookup name l); [reflexivity|]. apply lookup_set_ne, Hn. Qed.

(** Room for a variable in place of its old value. *)
Definition room (name v : list Z) (l : list entry) : Prop := zlen (image (env_remove name l ++ [(name, v)])) <= ENV_SIZE.
Lemma lookup_set_eq name v l : Forall entry_ok l -> List.NoDup (map fst l) -> room name v l -> env_lookup name (set_var name v l) = Some v.
Proof.
  intros Ho Hd Hr. unfold set_var. cbv zeta. rewrite (proj2 (Z.leb_le _ _) Hr). destruct (remove_ok name l Ho Hd) as (_ & _ & Hin).
  rewrite lookup_app, lookup_not_in by exact Hin. cbn [fst snd]. rewrite bool_decide_eq_true_2; reflexivity.
Qed.

(** What the network code finds is the record's address. *)
Lemma network_address b rc l : vars b (settled_vars rc l) -> Forall entry_ok l -> List.NoDup (map fst l) -> Forall is_u8 rc -> List.length rc = 256%nat ->
  room (str "ethaddr") (mac_text (address_of rc)) l ->
  eth_getenv_enetaddr (edata (settings b)) (str "ethaddr") = Some (address_of rc, is_valid_ether_addr (address_of rc)).
Proof.
  intros Hv Ho Hd Hu Hlen Hr. pose proof (getvar_spec b _ (str "ethaddr") Hv (name_dec (str "ethaddr") eq_refl)) as Hg.
  unfold settled_vars in Hg. rewrite !lookup_default_ne, lookup_set_eq in Hg by (assumption || discriminate). destruct Hg as (a & E1 & E2).
  unfold getvar, option_B in E1. cbv [mbind B_bind asks] in E1. unfold eth_getenv_enetaddr.
  destruct (getenv (edata (settings b)) (str "ethaddr")) as [p|]; [|discriminate]. injection E1 as ->. cbn [mbind option_bind option_map].
  apply (f_equal (fun o : option (list Z * board) => match o with Some x => x.1 | None => [] end)) in E2.
  change (text_at (Z.to_nat ENV_SIZE) (edata (settings b)) a = mac_text (address_of rc)) in E2. rewrite E2. cbn [eth_parse_enetaddr].
  assert (List.length (address_of rc) = 6%nat) as H6 by (unfold address_of; rewrite length_take, length_drop; lia).
  rewrite <- H6, parse_bytes_text; [reflexivity|]. unfold address_of. apply Forall_take, Forall_drop, Hu.
Qed.


(** *** Starting again *)

Lemma image_snoc l p : zlen (image (l ++ [p])) = zlen (flat l) + zlen (body p) + 2.
Proof.
  rewrite zlen_image, zlen_flat_app, zlen_flat_cons. change (zlen (flat [])) with 0. pose proof (zlen_nonneg (flat l)).
  rewrite zlen_body. pose proof (zlen_nonneg p.1). pose proof (zlen_nonneg p.2). lia.
Qed.
Lemma remove_absent name l : env_lookup name l = None -> env_remove name l = l.
Proof. apply lookup_none. Qed.
Lemma set_var_absent name v l : env_lookup name l = None ->
  set_var name v l = if zlen (flat l) + zlen (body (name, v)) + 2 <=? ENV_SIZE then l ++ [(name, v)] else l.
Proof. intros E. unfold set_var. cbv zeta. rewrite remove_absent, image_snoc by exact E. reflexivity. Qed.

(** A default that is there, or found no room, changes nothing in a larger environment. *)
Lemma default_again name v l L : zlen (flat (default_var name v l)) <= zlen (flat L) -> env_lookup name L = env_lookup name (default_var name v l) ->
  default_var name v L = L.
Proof.
  intros Hz He. unfold default_var at 1. destruct (env_lookup name L) as [u|] eqn:EL; [reflexivity|].
  unfold default_var in Hz, He. destruct (env_lookup name l) as [u|] eqn:El; [congruence|]. rewrite set_var_absent in * by assumption.
  destruct (Z.leb_spec (zlen (flat l) + zlen (body (name, v)) + 2) ENV_SIZE) as [Hf|Hf].
  - rewrite lookup_app, El in He. cbn [fst] in He. rewrite bool_decide_eq_true_2 in He by reflexivity. discriminate.
  - rewrite (proj2 (Z.leb_gt _ _)) by lia. reflexivity.
Qed.
Lemma default_grows name v l : zlen (flat l) <= zlen (flat (default_var name v l)).
Proof.
  unfold default_var. destruct (env_lookup name l) eqn:El; [lia|]. rewrite set_var_absent by exact El.
  destruct (_ <=? _); [rewrite zlen_flat_app; pose proof (zlen_nonneg (flat [(name, v)])); lia|lia].
Qed.
Lemma set_again name v l L : Forall entry_ok l -> List.NoDup (map fst l) -> zlen (image L) <= ENV_SIZE ->
  zlen (flat (set_var name v l)) <= zlen (flat L) -> env_lookup name L = env_lookup name (set_var name v l) ->
  set_var name v L ≡ₚ L.
Proof.
  intros Ho Hd Hi Hz He. destruct (remove_ok name l Ho Hd) as (_ & _ & Hin). unfold set_var in Hz, He. cbv zeta in Hz, He. rewrite image_snoc in Hz, He.
  destruct (Z.leb_spec (zlen (flat (env_remove name l)) + zlen (body (name, v)) + 2) ENV_SIZE) as [Hf|Hf].
  - rewrite lookup_app, (lookup_not_in _ _ Hin) in He. cbn [fst snd] in He. rewrite bool_decide_eq_true_2 in He by reflexivity.
    destruct (lookup_split name L v He) as (la & lb & -> & _ & Er). unfold set_var. cbv zeta. rewrite Er, image_snoc.
    rewrite zlen_image, zlen_flat_app, zlen_flat_cons in Hi. rewrite zlen_flat_app. rewrite (proj2 (Z.leb_le _ _)) by lia.
    rewrite <- app_assoc. apply Permutation_app_head. symmetry. apply Permutation_cons_append.
  - rewrite (lookup_not_in _ _ Hin) in He. rewrite set_var_absent by exact He. rewrite (proj2 (Z.leb_gt _ _)) by lia. reflexivity.
Qed.
Lemma flat_permutation l L : l ≡ₚ L -> zlen (flat l) = zlen (flat L).
Proof.
  induction 1 as [|p l L _ IH|p q l|l L M _ IH1 _ IH2]; [reflexivity| | |congruence]; rewrite !zlen_flat_cons; lia.
Qed.

Lemma settled_again rc l : Forall entry_ok l -> List.NoDup (map fst l) -> zlen (image (settled_vars rc l)) <= ENV_SIZE ->
  settled_vars rc (settled_vars rc l) ≡ₚ settled_vars rc l.
Proof.
  intros Ho Hd Hi. unfold settled_vars in *. set (t := mac_text (address_of rc)) in *. set (A := set_var (str "ethaddr") t l) in *.
  set (D := default_var (str "ata_reset_time") (str "60") A) in *. set (L := default_var (str "scsi_reset_time") (str "10") D) in *.
  pose proof (default_grows (str "ata_reset_time") (str "60") A) as G1. fold D in G1.
  pose proof (default_grows (str "scsi_reset_time") (str "10") D) as G2. fold L in G2.
  assert (set_var (str "ethaddr") t L ≡ₚ L) as P.
  { apply (set_again _ _ l); [exact Ho|exact Hd|exact Hi|fold A; lia|]. fold A. unfold L, D. rewrite !lookup_default_ne by discriminate. reflexivity. }
  pose proof (flat_permutation _ _ P) as Z.
  assert (default_var (str "ata_reset_time") (str "60") (set_var (str "ethaddr") t L) = set_var (str "ethaddr") t L) as ->.
  { apply (default_again _ _ A); [fold D; lia|]. fold D. rewrite lookup_set_ne by discriminate. unfold L. apply lookup_default_ne. discriminate. }
  assert (default_var (str "scsi_reset_time") (str "10") (set_var (str "ethaddr") t L) = set_var (str "ethaddr") t L) as ->.
  { apply (default_again _ _ D); [fold L; lia|]. fold L. apply lookup_set_ne. discriminate. }
  exact P.
Qed.

(** The copies a decision leaves agree, unless it was to leave a difference. *)
Lemma put_record m a r n : List.length r = n -> read_bytes (put_bytes m a r) a n = r.
Proof. intros Hl. apply read_back; [exact Hl|apply put_bytes_at]. Qed.
Lemma record_after d ee : List.length (in_force d ee) = 256%nat -> record_of (after_ee d ee) = in_force d ee.
Proof. intros Hl. destruct d; try reflexivity. apply put_record, Hl. Qed.
Lemma shadow_after d ee nv : List.length (in_force d ee) = 256%nat -> d <> Nothing -> shadow_of (after_nv d ee nv) = in_force d ee.
Proof. intros Hl Hd. destruct d; [congruence| |]; apply put_record, Hl. Qed.

Lemma agree_refl r : agree r r.
Proof. reflexivity. Qed.

(** C6: What one start has settled, the next leaves alone. After a start in which the operator did not leave two different copies,
    the next power-up takes no key at all, keeps every cell of EEPROM and NVRAM, and publishes the same
    address; with the environment the first one left, it only changes the order of the variables. *)
Theorem second_start_quiet w s kb stack ee nv l : power_up w s kb stack ee nv l -> enough_keys ee nv (input s) ->
  exists d rest b', misc_init_r around_hex null_text polls fuel (start w s kb stack) = Some (0, b') /\ decides ee nv (input s) d rest /\
    forall w2 s2 kb2 stack2 l2', (d = Nothing -> agree (record_of ee) (shadow_of nv)) ->
      power_up w2 s2 kb2 stack2 (after_ee d ee) (after_nv d ee nv) l2' ->
      exists b2, misc_init_r around_hex null_text polls fuel (start w2 s2 kb2 stack2) = Some (0, b2) /\ keys b2 = input s2 /\
        (exists bz, copies (after_ee d ee) (after_nv d ee nv) bz (machine (bus_world b2))) /\
        vars b2 (settled_vars (in_force d ee) l2') /\
        (l2' = settled_vars (in_force d ee) l -> settled_vars (in_force d ee) l2' ≡ₚ l2').
Proof.
  intros P Hn. destruct (boot w s kb stack ee nv l P Hn) as (d & rest & b' & E & D & S). exists d, rest, b'. split; [exact E|]. split; [exact D|].
  intros w2 s2 kb2 stack2 l2' Hd P2. destruct S as [SO SK SM [SU SL] SC SV _ _ _]. pose proof (record_after d ee SL) as Er.
  assert (agree (record_of (after_ee d ee)) (shadow_of (after_nv d ee nv))) as Ha.
  { rewrite Er. destruct d as [| |r]; [exact (Hd eq_refl)| |]; rewrite shadow_after by (assumption || discriminate); apply agree_refl. }
  destruct (boot w2 s2 kb2 stack2 _ _ l2' P2) as (d2 & rest2 & b2 & E2 & D2 & S2); [left; rewrite Er at 1; auto|].
  assert (d2 = Nothing /\ rest2 = input s2) as [-> ->].
  { inversion D2 as [ | ? ? ? ? Hx | ? ? ? ? Hx | ? ? Hx]; subst; [auto|destruct (Hx Ha)|destruct (Hx Ha)|].
    destruct Hx as [Hx|[Hx _]]; [destruct Hx; rewrite Er; exact SM|destruct (Hx Ha)]. }
  destruct S2 as [_ K2 _ _ C2 V2 _ _ _]. cbn [in_force after_ee after_nv] in *. rewrite Er in V2.
  exists b2. split; [exact E2|]. split; [exact K2|]. split; [exact C2|]. split; [exact V2|]. intros ->.
  destruct (pu_vars _ _ _ _ _ _ _ P) as (_ & Ho & Hnd & _). apply settled_again; [exact Ho|exact Hnd|]. apply SV.
Qed.

Lemma read_split m a i n : 0 <= i < Z.of_nat n ->
  read_bytes m a n = read_bytes m a (Z.to_nat i) ++ m (a + i) :: read_bytes m (a + i + 1) (n - S (Z.to_nat i)).
Proof.
  intros Hi. replace n with (Z.to_nat i + S (n - S (Z.to_nat i)))%nat at 1 by lia. rewrite read_bytes_plus, Z2Nat.id by lia. reflexivity.
Qed.

(** C23: A shadow with one wrong byte does not go unnoticed: the start asks, and the answer C restores the shadow
    from the EEPROM and touches nothing else. *)
Theorem damaged_shadow_restored w s kb stack ee nv l i v ks : marked (record_of ee) -> shadow_of nv = record_of ee ->
  0 <= i < 256 -> is_u8 (nv (NV + i)) -> v <> nv (NV + i) ->
  power_up w s kb stack ee (upd nv (NV + i) v) l -> input s = [chr "c"; 13] ++ ks ->
  exists b' bz, misc_init_r around_hex null_text polls fuel (start w s kb stack) = Some (0, b') /\ keys b' = ks /\
    copies ee nv bz (machine (bus_world b')).
Proof.
  intros Hm Hs Hi Hu Hne P Hk. set (nv' := upd nv (NV + i) v) in *. pose proof (copies_u8 _ _ _ _ (pu_copies _ _ _ _ _ _ _ P)) as Hu'.
  assert (forall x, x <> NV + i -> nv' x = nv x) as Ho by (intros; apply upd_ne; assumption).
  assert (shadow_of nv' = read_bytes nv NV (Z.to_nat i) ++ v :: read_bytes nv (NV + i + 1) (256 - S (Z.to_nat i))) as E2.
  { unfold shadow_of. rewrite (read_split nv' NV i 256) by lia. unfold nv' at 2. rewrite upd_eq. f_equal; [|f_equal];
      apply read_bytes_ext; intros j Hj; apply Ho; lia. }
  assert (Forall is_u8 (shadow_of nv')) as Hb by (apply read_bytes_u8, Hu'). rewrite E2 in Hb. apply Forall_app in Hb as [Hb1 Hb2].
  assert (~ agree (record_of ee) (shadow_of nv')) as Ha.
  { unfold agree. rewrite <- Hs, E2. unfold shadow_of. rewrite (read_split nv NV i 256) by lia. intros E.
    apply Hne. symmetry. apply (checksum_change _ _ _ _ Hb1 (Forall_inv_tail Hb2) Hu (Forall_inv Hb2) E). }
  assert (readline_into_buffer None (input s) = Some (1, [chr "c"], ks)) as El by (rewrite Hk; reflexivity).
  destruct (boot w s kb stack ee nv' l P) as (d & rest & b' & E & D & S).
  { right. left. split; [exact Hm|]. exists 1, [chr "c"], ks. split; [exact El|discriminate]. }
  assert (d = Copy /\ rest = ks) as [-> ->].
  { inversion D as [Hx1 Hx2|r line rest' Hx1 Hx2 Hx3 Hx4|r line rest' Hx1 Hx2 Hx3 Hx4|rc rest' Hx]; subst.
    - destruct (Ha Hx2).
    - rewrite El in Hx3. injection Hx3 as _ <- _. destruct (Hx4 eq_refl).
    - rewrite El in Hx3. injection Hx3 as _ _ <-. auto.
    - destruct Hx as [Hx|[_ (r & line & ks' & Er & Hr & _)]]; [destruct (Hx Hm)|]. rewrite El in Er. injection Er as _ <- _. discriminate Hr. }
  destruct (sd_copies _ _ _ _ _ _ S) as [bz Hc]. exists b', bz. split; [exact E|]. split; [apply S|].
  eapply copies_ext; [|exact Hc]. intros x. cbn [after_nv in_force]. rewrite <- Hs.
  destruct (decide (NV <= x < NV + 256)) as [Hx|Hx].
  - replace x with (NV + (x - NV)) by lia. symmetry. apply put_read. lia.
  - rewrite put_bytes_outside by (unfold shadow_of; rewrite zlen_read_bytes; exact Hx). symmetry. apply Ho. lia.
Qed.
End start.

(** ** Concrete starts *)

(** A BAB750 with a record, the environment of [Env]'s examples and the keys given. *)
Definition ex_record : list Z :=
  read_bytes (put_bytes (put_bytes (put_bytes (fun _ => 0) magic (str "ELTEC")) board_name (str "V-BAB750")) etheraddr [0; 0; 0x5b; 1; 2; 3]) 0 256.
Definition ex_ee : mem := put_bytes (fun _ => 0xff) 0 ex_record.
Definition ex_nv : mem := put_bytes (fun _ => 0) NV ex_record.
Definition blank : mem := fun _ => 0xff.
Definition ex_world (ee nv : mem) : world (St := bench) := World local_hose (bench_with ee nv) [].
Definition ex_settings (ks : list Z) : env_state (C := unit) := set_input ks ex_state.

Lemma ex_record_u8 : Forall is_u8 ex_record.
Proof. apply all_u8_spec. vm_compute. reflexivity. Qed.
Lemma blank_ok : mem_ok blank.
Proof. intros x. unfold blank. split; lia. Qed.
Lemma ex_ee_ok : mem_ok ex_ee.
Proof. apply put_bytes_ok; [exact blank_ok|exact ex_record_u8]. Qed.
Lemma ex_nv_ok : mem_ok ex_nv.
Proof. apply put_bytes_ok; [apply zero_ok|exact ex_record_u8]. Qed.
Lemma ex_marked : marked (record_of ex_ee).
Proof. vm_compute. reflexivity. Qed.
Lemma ex_same : shadow_of ex_nv = record_of ex_ee.
Proof. vm_compute. reflexivity. Qed.
Lemma ex_agree : agree (record_of ex_ee) (shadow_of ex_nv).
Proof. unfold agree. rewrite ex_same. reflexivity. Qed.
Lemma ex_power_up ks ee nv : Forall is_u8 ks -> mem_ok ee -> mem_ok nv ->
  power_up (cycle := 3) (l2 := 5) (ex_world ee nv) (ex_settings ks) blank blank ee nv ex_vars.
Proof.
  intros Hk He Hn. constructor; [exact blank_ok|exact blank_ok|exact Hk|exact He|apply bench_copies, Hn|exact ex_env_inv].
Qed.

Abbreviation ex_start ks ee nv := (misc_init_r (St := bench) (C := unit) (fun _ => 0) [] 10 1100 (start (ex_world ee nv) (ex_settings ks) blank blank)).


Lemma second_start_quiet_witness :
  exists b2 bz, ex_start [13] ex_ee ex_nv = Some (0, b2) /\ input (settings b2) = [13] /\
    copies (cycle := 3) (l2 := 5) ex_ee ex_nv bz (machine (bus_world b2)).
Proof.
  destruct (second_start_quiet (cycle := 3) (l2 := 5) (fun _ => 0) [] 10 1100 ltac:(lia) ltac:(lia) ltac:(vm_compute; lia)
    (ex_world ex_ee ex_nv) (ex_settings []) blank blank ex_ee ex_nv ex_vars) as (d & rest & b' & E & D & Again).
  - apply ex_power_up; [constructor|exact ex_ee_ok|exact ex_nv_ok].
  - left. split; [exact ex_marked|exact ex_agree].
  - assert (d = Nothing) as ->.
    { destruct D as [|r line rest M N|r line rest M N|rc rest [M|[N _]]]; [reflexivity|destruct (N ex_agree)|destruct (N ex_agree)|destruct (M ex_marked)|destruct (N ex_agree)]. }
    destruct (Again (ex_world ex_ee ex_nv) (ex_settings [13]) blank blank ex_vars) as (b2 & E2 & K2 & [bz C2] & _).
    + intros _. exact ex_agree.
    + apply ex_power_up; [repeat constructor; lia|exact ex_ee_ok|exact ex_nv_ok].
    + exists b2, bz. split; [exact E2|]. split; [exact K2|exact C2].
Defined.

Lemma damaged_shadow_restored_witness :
  exists b' bz, ex_start [chr "c"; 13; chr "x"] ex_ee (upd ex_nv (NV + 0x6a) 0x5a) = Some (0, b') /\ input (settings b') = [chr "x"] /\
    copies (cycle := 3) (l2 := 5) ex_ee ex_nv bz (machine (bus_world b')).
Proof.
  apply (damaged_shadow_restored (cycle := 3) (l2 := 5) (fun _ => 0) [] 10 1100 ltac:(lia) ltac:(lia) ltac:(vm_compute; lia)
    (ex_world ex_ee (upd ex_nv (NV + 0x6a) 0x5a)) (ex_settings [chr "c"; 13; chr "x"]) blank blank ex_ee ex_nv ex_vars 0x6a 0x5a [chr "x"]).
  - exact ex_marked.
  - exact ex_same.
  - lia.
  - apply ex_nv_ok.
  - vm_compute. discriminate.
  - apply ex_power_up; [repeat constructor; vm_compute; congruence|exact ex_ee_ok|apply upd_ok; [exact ex_nv_ok|split; lia]].
  - reflexivity.
Defined.

(** Ctrl-C is not "no answer": the revision becomes a NUL. *)
Example break_is_an_answer :
  option_map (fun r => frame r.2 (EEREV + revision))
    (enter_revision (start (ex_world ex_ee ex_nv) (ex_settings [3; 13]) blank blank)) = Some 0.
Proof. vm_compute. reflexivity. Qed.
(** A key below '0', or a letter behind 'F', reads outside of the table. *)
Example hex_outside around : hex_value around (chr "/") = around (-1) /\ hex_value around (chr "g") = around 23.
Proof. split; reflexivity. Qed.
