(* ===== verification/Kermit.v ===== *)
(** * The Kermit receiver (k_recv of common/cmd_load.c)

    loadb receives a file in packets: a start character, a length, a sequence
    number, a type, the data and a check.  The receiver writes the data into
    memory as it arrives; a checkpoint of the place and of the escape state,
    taken when a new sequence number is seen, lets it start a packet
    again.  The serial line is the list of the characters still to be read and
    of those written; [None] waits for more. *)

From S2P Require Import Prelude CMem.

Definition START_CHAR : Z := 0x01.
Definition ETX_CHAR : Z := 0x03.
Definition END_CHAR : Z := 0x0D.
Definition SPACE : Z := 0x20.
Definition K_ESCAPE : Z := 0x23.
Definition SEND_TYPE : Z := chr "S".
Definition DATA_TYPE : Z := chr "D".
Definition ACK_TYPE : Z := chr "Y".
Definition NACK_TYPE : Z := chr "N".
Definition BREAK_TYPE : Z := chr "B".
Definition tochar (x : Z) : Z := u8 (x + SPACE).
Definition untochar (x : Z) : Z := u8 (x - SPACE).
Definition SEND_DATA_SIZE : Z := 20.

(** ** State *)

(** What the sender asked for. *)
Record params := Params { his_eol : Z; his_pad_count : Z; his_pad_char : Z; his_quote : Z }.
Definition set_eol (v : Z) (p : params) : params := Params v (his_pad_count p) (his_pad_char p) (his_quote p).
Definition set_pad_count (v : Z) (p : params) : params := Params (his_eol p) v (his_pad_char p) (his_quote p).
Definition set_pad_char (v : Z) (p : params) : params := Params (his_eol p) (his_pad_count p) v (his_quote p).
Definition set_quote (v : Z) (p : params) : params := Params (his_eol p) (his_pad_count p) (his_pad_char p) v.
Definition default_params : params := Params END_CHAR 0 0 K_ESCAPE.

(** Where the data goes; the variables named _saved are a second copy. *)
Record cursor := Cursor { os_data_state : Z; os_data_addr : Z; k_data_escape : bool }.
Record sink := Sink { now : cursor; saved : cursor; ram : mem }.

(** The locals of k_recv that live from packet to packet. *)
Record locals := Locals { k_state : Z; k_state_saved : Z; seq_n : Z; last_n : Z }.

Record kermit := Kermit {
  line : list Z; sent : list Z; par : params; data : sink; send_parms : list Z; send_ptr : Z; vars : locals
}.
Definition set_line (l : list Z) (s : kermit) : kermit :=
  Kermit l (sent s) (par s) (data s) (send_parms s) (send_ptr s) (vars s).
Definition set_sent (l : list Z) (s : kermit) : kermit :=
  Kermit (line s) l (par s) (data s) (send_parms s) (send_ptr s) (vars s).
Definition set_par (p : params) (s : kermit) : kermit :=
  Kermit (line s) (sent s) p (data s) (send_parms s) (send_ptr s) (vars s).
Definition set_data (d : sink) (s : kermit) : kermit :=
  Kermit (line s) (sent s) (par s) d (send_parms s) (send_ptr s) (vars s).
Definition set_parms (l : list Z) (p : Z) (s : kermit) : kermit :=
  Kermit (line s) (sent s) (par s) (data s) l p (vars s).
Definition set_vars (v : locals) (s : kermit) : kermit :=
  Kermit (line s) (sent s) (par s) (data s) (send_parms s) (send_ptr s) v.

(** ** Computations: the line may run dry ([None]) and a packet may be
    given up (the goto packet_error, [Some (None, _)]). *)

Definition K (A : Type) : Type := kermit -> option (option A * kermit).
#[export] Instance K_ret : MRet K := fun A a s => Some (Some a, s).
#[export] Instance K_bind : MBind K := fun A B k m s =>
  match m s with
  | Some (Some a, s) => k a s
  | Some (None, s) => Some (None, s)
  | None => None
  end.
Definition modify (f : kermit -> kermit) : K unit := fun s => Some (Some tt, f s).
Definition gets {A} (f : kermit -> A) : K A := fun s => Some (Some (f s), s).
Definition packet_error {A} : K A := fun s => Some (None, s).
(** The code after the label: what became of the packet. *)
Definition try {A} (m : K A) : K (option A) := fun s =>
  match m s with Some (r, s) => Some (Some r, s) | None => None end.

Definition getc : K Z := fun s =>
  match line s with [] => None | c :: l => Some (Some c, set_line l s) end.
(** A character below a blank ends the packet. *)
Definition get_char : K Z := c ← getc; if c .& 0xE0 =? 0 then packet_error else mret c.
Definition put (l : list Z) : K unit := modify (fun s => set_sent (sent s ++ l) s).

(** ** Sending *)

Fixpoint upto_nul (l : list Z) : list Z :=
  match l with [] => [] | c :: l => if c =? 0 then [] else c :: upto_nul l end.

Definition send_pad : K unit := p ← gets par; put (replicate (Z.to_nat (his_pad_count p)) (his_pad_char p)).

(** Escaped character to binary character. *)
Definition ktrans (c : Z) : Z :=
  if c .& 0x60 =? 0x40 then c .& not32 0x40
  else if c .& 0x7f =? 0x3f then c .| 0x40
  else c.

Definition fold_check (total : Z) : Z := (total + ((total .>> 6) .& 0x03)) .& 0x3f.
Definition chk1 (buffer : list Z) : Z := fold_check (fold_left Z.add (upto_nul buffer) 0).

Definition s1_sendpacket (packet : list Z) : K unit := send_pad;; put (upto_nul packet).

(** [a_b] from its second character, behind which the check is put. *)
Definition finish_packet (body : list Z) (eol : Z) : list Z := [START_CHAR] ++ body ++ [tochar (chk1 body); eol; 0].
Definition send_ack (n : Z) : K unit :=
  p ← gets par; s1_sendpacket (finish_packet [tochar 3; tochar n; ACK_TYPE] (his_eol p)).
Definition send_nack (n : Z) : K unit :=
  p ← gets par; s1_sendpacket (finish_packet [tochar 3; tochar n; NACK_TYPE] (his_eol p)).

(** ** The data behind the packets *)

Definition k_data_init (start : Z) (d : sink) : sink := Sink (Cursor 0 start false) (saved d) (ram d).
Definition k_data_save (d : sink) : sink := Sink (now d) (now d) (ram d).
Definition k_data_restore (d : sink) : sink := Sink (saved d) (saved d) (ram d).

Definition bin_data_char (c : Z) (d : sink) : sink :=
  let t := now d in
  if os_data_state t =? 0
  then Sink (Cursor (os_data_state t) (u32 (os_data_addr t + 1)) (k_data_escape t)) (saved d) (upd (ram d) (os_data_addr t) c)
  else d.
Definition set_escape (e : bool) (d : sink) : sink :=
  Sink (Cursor (os_data_state (now d)) (os_data_addr (now d)) e) (saved d) (ram d).
Definition k_data_char (quote c : Z) (d : sink) : sink :=
  if k_data_escape (now d) then set_escape false (bin_data_char (ktrans c) d)
  else if c =? quote then set_escape true d
  else bin_data_char c d.

(** ** The answer to the first packet *)

Definition parm (s : list Z) (i : nat) : Z := nth i s 0.
(** Each of his parameters: what is remembered and what is answered. *)
Definition negotiation (s : list Z) : list ((params -> params) * list Z) :=
  [ (id, [tochar 94]);
    (id, [tochar 1]);
    (set_pad_count (untochar (parm s 2)), [tochar 0]);
    (set_pad_char (ktrans (parm s 3)), [0x40]);
    (set_eol (untochar (parm s 4)), [tochar END_CHAR]);
    (set_quote (parm s 5), [chr "#"]);
    (id, [chr "N"]);
    (id, [chr "1"]);
    (id, [chr "N"]);
    (id, [tochar 2; tochar 0; tochar 94; tochar 94]) ].

Definition handle_send_packet (n : Z) : K unit :=
  s ← gets (fun s => s);
  let ptr := if send_ptr s =? SEND_DATA_SIZE - 1 then send_ptr s - 1 else send_ptr s in
  let steps := take (Z.to_nat ptr) (negotiation (send_parms s)) in
  let par := fold_left (fun p st => st.1 p) steps default_params in
  let answer := concat (map snd steps) in
  modify (fun s => set_parms (send_parms s) ptr (set_par par s));;
  s1_sendpacket (finish_packet ([tochar (3 + zlen answer); tochar n; ACK_TYPE] ++ answer) (his_eol par)).

(** ** k_recv *)

(** Waiting for the start character; [false] for Ctrl-C. *)
Fixpoint find_start (l : list Z) : option (bool * list Z) :=
  match l with
  | [] => None
  | c :: l => if c =? START_CHAR then Some (true, l) else if c =? ETX_CHAR then Some (false, l) else find_start l
  end.
Definition wait_start : K bool := fun s =>
  match find_start (line s) with Some (b, l) => Some (Some b, set_line l s) | None => None end.

(** A new sequence number is a new checkpoint, an old one goes back to it. *)
Definition check_sequence (s : kermit) : kermit :=
  let v := vars s in
  if seq_n v =? last_n v
  then set_vars (Locals (k_state_saved v) (k_state_saved v) (seq_n v) (last_n v)) (set_data (k_data_restore (data s)) s)
  else set_vars (Locals (k_state v) (k_state v) (seq_n v) (seq_n v)) (set_data (k_data_save (data s)) s).
Definition set_n (n : Z) (s : kermit) : kermit :=
  let v := vars s in set_vars (Locals (k_state v) (k_state_saved v) n (last_n v)) s.
Definition set_state (c : Z) (s : kermit) : kermit :=
  let v := vars s in set_vars (Locals c (k_state_saved v) (seq_n v) (last_n v)) s.

(** The length and the sequence number. *)
Definition k_start : K (Z * Z) :=
  c0 ← get_char;
  c1 ← get_char;
  modify (set_n (untochar c1));;
  modify check_sequence;;
  mret (c0, c1).

(** The type and, for a long packet, the length: the characters left and the sum. *)
Definition k_type (c0 c1 : Z) : K (Z * Z) :=
  c2 ← get_char;
  modify (set_state c2);;
  let sum := c0 + c1 + c2 in
  let length := untochar c0 - 1 - 1 in
  if length =? -2 then
    hi ← get_char;
    lo ← get_char;
    let sum := sum + hi + lo in
    let length := untochar hi * 95 + untochar lo in
    c ← get_char;
    if negb (c =? tochar (fold_check sum)) then packet_error else mret (length, sum + c)
  else mret (length, sum).

(** One more character of the rest of the packet. *)
Definition k_char (c : Z) (s : kermit) : kermit :=
  if k_state (vars s) =? DATA_TYPE then set_data (k_data_char (his_quote (par s)) c (data s)) s
  else if k_state (vars s) =? SEND_TYPE then
    let p := send_ptr s + 1 in
    set_parms (<[Z.to_nat (send_ptr s) := c]> (send_parms s)) (if SEND_DATA_SIZE <=? p then p - 1 else p) s
  else s.
Fixpoint k_data (n : nat) (sum : Z) : K Z :=
  match n with
  | O => mret sum
  | S n => c ← get_char; modify (k_char c);; k_data n (sum + c)
  end.

Definition k_check (sum : Z) : K unit :=
  c ← get_char;
  if negb (c =? tochar (fold_check sum)) then packet_error else mret tt.
Definition k_end : K unit := e ← getc; if negb (e =? END_CHAR) then packet_error else mret tt.

(** Between the sequence number and the end. *)
Definition k_body (c0 c1 : Z) : K unit :=
  h ← k_type c0 c1;
  sum ← k_data (Z.to_nat (h.1 - 1)) h.2;
  k_check sum.
Definition k_packet : K unit := c ← k_start; k_body c.1 c.2;; k_end.

(** The reply; [true] when the transmission is over. *)
Definition k_reply (ok : option unit) : K bool :=
  match ok with
  | None =>
      modify (fun s => let v := vars s in
        set_vars (Locals (k_state_saved v) (k_state_saved v) (seq_n v) (last_n v)) (set_data (k_data_restore (data s)) s));;
      v ← gets vars; send_nack (seq_n v);; mret false
  | Some _ =>
      v ← gets vars;
      if k_state v =? SEND_TYPE then handle_send_packet (seq_n v);; mret false
      else send_ack (seq_n v);; mret (k_state v =? BREAK_TYPE)
  end.

(** One packet: [None] for Ctrl-C. *)
Definition k_round : K (option bool) :=
  modify (fun s => set_parms (send_parms s) 0 s);;
  b ← wait_start;
  if negb (b : bool) then mret None
  else ok ← try k_packet; done ← k_reply ok; mret (Some done).

(** [fuel] bounds the packets; every one takes a character off the line. *)
Fixpoint k_loop (fuel : nat) (start : Z) : K Z :=
  match fuel with
  | O => fun _ => None
  | S fuel =>
      r ← k_round;
      match r with
      | None => mret 0
      | Some false => k_loop fuel start
      | Some true => d ← gets data; mret (u32 (os_data_addr (now d) - start))
      end
  end.

Definition k_recv (start : Z) : K Z := fun s =>
  (modify (fun s => set_data (k_data_save (k_data_init start (data s)))
                      (set_par default_params (set_vars (Locals 0 0 0 (-1)) s)));;
   k_loop (S (List.length (line s))) start) s.

(** * Properties *)

(** ** The packets of the protocol *)

Definition total (l : list Z) : Z := fold_left Z.add l 0.
Definition check_of (l : list Z) : Z := tochar (fold_check (total l)).
Definition checked (x : list Z) : bool := List.last x 0 =? check_of (removelast x).

(** A packet from its length to its check: a short one counts the characters
    behind the length, a long one (length 0) has two digits of base 95 and a
    check of its own for the header. *)
Definition framed (x : list Z) : bool :=
  match x with
  | l :: s :: t :: rest =>
      if l =? SPACE then
        match rest with
        | hi :: lo :: h :: rest =>
            (h =? check_of [l; s; t; hi; lo]) && (zlen rest =? Z.max 1 (untochar hi * 95 + untochar lo)) && checked x
        | _ => false
        end
      else (zlen rest =? Z.max 1 (untochar l - 2)) && checked x
  | _ => false
  end.
Definition seq_of (x : list Z) : Z := untochar (nth 1 x 0).
Definition type_of (x : list Z) : Z := nth 2 x 0.
Definition payload (x : list Z) : list Z := removelast (drop (if nth 0 x 0 =? SPACE then 6 else 3) x).

Definition printable (c : Z) : Prop := 32 <= c < 256.
Definition control (c : Z) : Prop := 0 <= c < 32.

Lemma printable_char c : printable c -> (c .& 0xE0 =? 0) = false.
Proof.
  unfold printable. intros Hc. apply negb_true_iff.
  assert (H := forall_below_spec 256 (fun c => (c <? 32) || negb (c .& 0xE0 =? 0)) eq_refl c ltac:(lia)).
  cbv beta in H. destruct (Z.ltb_spec c 32); [lia|exact H].
Qed.
Lemma control_char c : control c -> (c .& 0xE0 =? 0) = true.
Proof.
  unfold control. intros Hc.
  assert (H := forall_below_spec 256 (fun c => negb (c <? 32) || (c .& 0xE0 =? 0)) eq_refl c ltac:(lia)).
  cbv beta in H. destruct (Z.ltb_spec c 32); [exact H|lia].
Qed.
Lemma untochar_tochar n : 0 <= n < 224 -> untochar (tochar n) = n /\ printable (tochar n).
Proof.
  intros Hn. unfold untochar, tochar, SPACE, printable. rewrite (u8_small (n + 32)) by lia. rewrite u8_small by lia. lia.
Qed.
Lemma tochar_untochar c : printable c -> tochar (untochar c) = c /\ 0 <= untochar c < 224.
Proof.
  unfold untochar, tochar, SPACE, printable. intros Hc. rewrite (u8_small (c - 32)), u8_small by lia. lia.
Qed.

(** ** What a computation may do to the receiver while it reads *)

Abbreviation place s := (os_data_addr (now (data s))).

Record frame (k : Z) (s s' : kermit) : Prop := Frame {
  f_sent : sent s' = sent s;
  f_par : par s' = par s;
  f_saved : saved (data s') = saved (data s);
  f_parms : List.length (send_parms s') = List.length (send_parms s);
  f_seq : seq_n (vars s') = seq_n (vars s);
  f_last : last_n (vars s') = last_n (vars s);
  f_place : place s <= place s' <= place s + k;
  f_ram : same_outside (place s) (place s + k) (ram (data s)) (ram (data s'))
}.

Lemma frame_refl s : frame 0 s s.
Proof. constructor; try reflexivity; [lia|apply same_outside_refl]. Qed.
Lemma frame_trans k1 k2 s1 s2 s3 : frame k1 s1 s2 -> frame k2 s2 s3 -> frame (k1 + k2) s1 s3.
Proof.
  intros [] []. constructor; try congruence; [lia|].
  eapply same_outside_trans; eapply same_outside_weaken; eauto; lia.
Qed.
Lemma frame_weaken k k' s s' : k <= k' -> frame k s s' -> frame k' s s'.
Proof. intros Hk []. constructor; auto; [lia|eapply same_outside_weaken; eauto; lia]. Qed.
Lemma frame_line l s : frame 0 s (set_line l s).
Proof. constructor; try reflexivity; cbn; [lia|apply same_outside_refl]. Qed.

Lemma k_char_frame c s : place s + 1 < 2 ^ 32 -> 0 <= place s -> frame 1 s (k_char c s).
Proof.
  intros Hr H0. unfold k_char. case_match.
  - assert (Hu : u32 (place s + 1) = place s + 1) by (apply u32_small; lia).
    unfold k_data_char, bin_data_char, set_escape.
    repeat case_match; constructor; cbn in *; try reflexivity; rewrite ?Hu; try lia; try apply same_outside_refl;
      apply same_outside_upd; try apply same_outside_refl; lia.
  - case_match; [|eapply frame_weaken; [|apply frame_refl]; lia].
    constructor; cbn; try reflexivity; [apply length_insert|lia|apply same_outside_refl].
Qed.

(** [m] reads printable characters; at a control character it gives the packet up. *)
Definition reads {A} (m : K A) (Q : list Z -> A -> Prop) : Prop := forall s x c rest,
  line s = x ++ c :: rest -> Forall printable x -> control c -> 0 <= place s -> place s + zlen x < 2 ^ 32 ->
  exists r s' y z, m s = Some (r, s') /\ frame (zlen y) s s' /\
    match r with
    | None => x ++ [c] = y ++ z /\ line s' = z ++ rest
    | Some a => x = y ++ z /\ line s' = z ++ c :: rest /\ Q y a
    end.

Lemma reads_ret {A} (a : A) : reads (mret a) (fun y b => y = [] /\ b = a).
Proof.
  intros s x c rest Hl Hx Hc H0 Hr. exists (Some a), s, [], x. split; [reflexivity|]. split; [apply frame_refl|]. auto.
Qed.
Lemma reads_error {A} : reads (@packet_error A) (fun _ _ => False).
Proof.
  intros s x c rest Hl Hx Hc H0 Hr. exists None, s, [], (x ++ [c]). split; [reflexivity|]. split; [apply frame_refl|].
  rewrite <- app_assoc. auto.
Qed.
Lemma reads_char : reads get_char (fun y c => y = [c] /\ printable c).
Proof.
  intros s x c rest Hl Hx Hc H0 Hr. unfold get_char, getc, mbind, K_bind. rewrite Hl.
  destruct x as [|d x]; cbn [app].
  - rewrite control_char by exact Hc. exists None, (set_line rest s), [c], []. split; [reflexivity|].
    split; [apply (frame_weaken 0); [apply zlen_nonneg|apply frame_line]|auto].
  - rewrite printable_char by (eapply Forall_inv; exact Hx). exists (Some d), (set_line (x ++ c :: rest) s), [d], x.
    split; [reflexivity|]. split; [apply (frame_weaken 0); [apply zlen_nonneg|apply frame_line]|].
    split; [reflexivity|]. split; [reflexivity|]. split; [reflexivity|]. eapply Forall_inv; exact Hx.
Qed.
Lemma reads_bind {A B} (m : K A) (k : A -> K B) Q Q' :
  reads m Q -> (forall a, reads (k a) (Q' a)) ->
  reads (m ≫= k) (fun y b => exists a y1 y2, y = y1 ++ y2 /\ Q y1 a /\ Q' a y2 b).
Proof.
  intros Hm Hk s x c rest Hl Hx Hc H0 Hr.
  destruct (Hm s x c rest Hl Hx Hc H0 Hr) as (r & s1 & y & z & E & F & Hp). unfold mbind, K_bind. rewrite E.
  destruct r as [a|]; [|exists None, s1, y, z; auto].
  destruct Hp as (-> & Hl1 & HQ). apply Forall_app in Hx as [Hy Hz]. pose proof (f_place _ _ _ F). zlen_simpl.
  destruct (Hk a s1 z c rest Hl1 Hz Hc) as (r & s2 & y2 & z2 & E2 & F2 & Hp2); [lia..|].
  exists r, s2, (y ++ y2), z2. split; [exact E2|]. split; [rewrite zlen_app; eapply frame_trans; eauto|].
  destruct r as [b|]; [destruct Hp2 as (-> & Hl2 & HQ2)|destruct Hp2 as [Hz2 Hl2]].
  - split; [rewrite app_assoc; reflexivity|]. eauto 10.
  - split; [rewrite <- !app_assoc; congruence|auto].
Qed.

Lemma reads_step {B} (f : Z -> kermit -> kermit) (k : Z -> K B) Q :
  (forall c s, line (f c s) = line s) ->
  (forall c s, 0 <= place s -> place s + 1 < 2 ^ 32 -> frame 1 s (f c s)) ->
  (forall c, reads (k c) (Q c)) ->
  reads (c ← get_char; modify (f c);; k c) (fun y b => exists c y', y = c :: y' /\ Q c y' b).
Proof.
  intros Hf Ff Hk s x c rest Hl Hx Hc H0 Hr. unfold get_char, getc, mbind, K_bind, modify. rewrite Hl.
  destruct x as [|d x]; cbn [app].
  - rewrite control_char by exact Hc. exists None, (set_line rest s), [c], []. split; [reflexivity|].
    split; [apply (frame_weaken 0); [apply zlen_nonneg|apply frame_line]|auto].
  - rewrite printable_char by (eapply Forall_inv; exact Hx). cbn.
    zlen_simpl. assert (F1 := Ff d (set_line (x ++ c :: rest) s) H0 ltac:(cbn; lia)).
    pose proof (f_place _ _ _ F1) as Hp. cbn [place data set_line] in Hp.
    destruct (Hk d (f d (set_line (x ++ c :: rest) s)) x c rest) as (r & s' & y & z & E & F & Hq);
      [rewrite Hf; reflexivity|eapply Forall_inv_tail; exact Hx|exact Hc|cbn in *; lia|cbn in *; lia|].
    exists r, s', (d :: y), z. split; [exact E|].
    split; [rewrite zlen_cons, Z.add_comm; change (1 + zlen y) with (0 + (1 + zlen y)); rewrite Z.add_assoc;
            eapply frame_trans; [|exact F]; exact (frame_trans 0 1 _ _ _ (frame_line _ s) F1)|].
    destruct r as [b|].
    + destruct Hq as (-> & Hl' & HQ). eauto 10.
    + destruct Hq as [Hz Hl']. cbn. split; [congruence|auto].
Qed.

Lemma fold_add l : forall a, fold_left Z.add l a = a + fold_left Z.add l 0.
Proof.
  induction l as [|d l IH]; intros a; cbn [fold_left]; [lia|]. rewrite (IH (a + d)), (IH (0 + d)). lia.
Qed.
Lemma total_cons c l : total (c :: l) = c + total l.
Proof. unfold total. cbn [fold_left]. apply (fold_add l c). Qed.
Lemma total_app l k : total (l ++ k) = total l + total k.
Proof. induction l as [|c l IH]; [reflexivity|]. cbn [app]. rewrite !total_cons, IH. lia. Qed.

Lemma checked_snoc x c : checked (x ++ [c]) = (c =? check_of x).
Proof. unfold checked. rewrite last_last, removelast_last. reflexivity. Qed.

Lemma reads_post {A} (m : K A) (Q Q' : list Z -> A -> Prop) :
  reads m Q -> (forall y a, Q y a -> Q' y a) -> reads m Q'.
Proof.
  intros Hm HQ s x c rest Hl Hx Hc H0 Hr.
  destruct (Hm s x c rest Hl Hx Hc H0 Hr) as (r & s' & y & z & E & F & Hp).
  exists r, s', y, z. split; [exact E|]. split; [exact F|]. destruct r; [|exact Hp]. destruct Hp as (? & ? & ?). auto.
Qed.

Lemma k_char_line c s : line (k_char c s) = line s.
Proof. unfold k_char. repeat case_match; reflexivity. Qed.

Lemma reads_data n : forall sum, reads (k_data n sum) (fun y v => zlen y = Z.of_nat n /\ v = sum + total y).
Proof.
  induction n as [|n IH]; intros sum; cbn [k_data].
  - eapply reads_post; [apply reads_ret|]. intros y v [-> ->]. split; [reflexivity|]. change (total []) with 0. lia.
  - eapply reads_post.
    + apply (reads_step k_char (fun c => k_data n (sum + c))
               (fun c y v => zlen y = Z.of_nat n /\ v = sum + c + total y)).
      * apply k_char_line.
      * intros; apply k_char_frame; auto.
      * intros c. eapply reads_post; [apply IH|]. auto.
    + intros y v (c & y' & -> & Hn & ->). rewrite total_cons. zlen_simpl. lia.
Qed.

Lemma reads_char_then {B} (k : Z -> K B) Q :
  (forall c, reads (k c) (Q c)) -> reads (c ← get_char; k c) (fun y b => exists c y', y = c :: y' /\ Q c y' b).
Proof.
  intros Hk. eapply reads_post; [exact (reads_bind get_char k _ Q reads_char Hk)|].
  intros y b (c & y1 & y2 & -> & [-> _] & HQ). exists c, y2. auto.
Qed.

Lemma reads_check sum : reads (k_check sum) (fun y _ => y = [tochar (fold_check sum)]).
Proof.
  eapply reads_post; [apply reads_char_then; intros c|].
  - instantiate (1 := fun c y _ => y = [] /\ c = tochar (fold_check sum)). cbv beta.
    destruct (Z.eqb_spec c (tochar (fold_check sum))); cbn [negb].
    + eapply reads_post; [apply reads_ret|]. intros ? ? [-> ->]. auto.
    + eapply reads_post; [apply reads_error|]. intros ? ? [].
  - intros y _ (c & y2 & -> & -> & ->). reflexivity.
Qed.

(** The header: its characters, the length it announces, its sum. *)
Definition header_of (c0 c1 : Z) (y : list Z) (h : Z * Z) : Prop :=
  h.2 = c0 + c1 + total y /\
  ((untochar c0 <> 0 /\ h.1 = untochar c0 - 2 /\ exists t, y = [t]) \/
   (untochar c0 = 0 /\ exists t hi lo, h.1 = untochar hi * 95 + untochar lo /\
      y = [t; hi; lo; check_of [c0; c1; t; hi; lo]])).

Lemma set_state_frame c s : frame 0 s (set_state c s).
Proof. constructor; try reflexivity; cbn; [lia|apply same_outside_refl]. Qed.

Lemma reads_type c0 c1 : reads (k_type c0 c1) (header_of c0 c1).
Proof.
  eapply reads_post.
  - apply (reads_step set_state _ (fun t y h => header_of c0 c1 (t :: y) h)).
    + reflexivity.
    + intros. apply (frame_weaken 0); [lia|apply set_state_frame].
    + intros t. cbv zeta. destruct (Z.eqb_spec (untochar c0 - 1 - 1) (-2)) as [E|E].
      * assert (Ht : forall hi lo a, reads (if negb (a =? tochar (fold_check (c0 + c1 + t + hi + lo))) then packet_error
                   else mret (untochar hi * 95 + untochar lo, c0 + c1 + t + hi + lo + a))
                 (fun y h => y = [] /\ a = tochar (fold_check (c0 + c1 + t + hi + lo)) /\
                   h = (untochar hi * 95 + untochar lo, c0 + c1 + t + hi + lo + a))).
        { intros hi lo a. case_match; [eapply reads_post; [apply reads_error|]; intros ? ? []|].
          eapply reads_post; [apply reads_ret|]. intros ? ? [-> ->].
          split; [reflexivity|]. split; [|reflexivity]. apply Z.eqb_eq, negb_false_iff. assumption. }
        eapply reads_post;
          [exact (reads_char_then _ _ (fun hi => reads_char_then _ _ (fun lo => reads_char_then _ _ (Ht hi lo))))|].
        cbv beta. intros y h (hi & ? & -> & lo & ? & -> & c & ? & -> & -> & -> & ->).
        split; [cbn [snd]; rewrite !total_cons; change (total []) with 0; lia|]. right. split; [lia|].
        exists t, hi, lo. split; [reflexivity|]. unfold check_of.
        replace (total [c0; c1; t; hi; lo]) with (c0 + c1 + t + hi + lo); [reflexivity|].
        rewrite !total_cons. change (total []) with 0. lia.
      * eapply reads_post; [apply reads_ret|]. intros y h [-> ->].
        split; [cbn [snd]; rewrite total_cons; change (total []) with 0; lia|]. left. cbn [fst]. split; [lia|]. split; [lia|]. eauto.
  - intros y h (c & y' & -> & Hh). exact Hh.
Qed.

(** What the body reads is, with the first two characters, a framed packet. *)
Lemma untochar_zero c : printable c -> untochar c = 0 <-> c = SPACE.
Proof. unfold printable, untochar, SPACE. intros Hc. rewrite u8_small by lia. lia. Qed.

Lemma reads_body c0 c1 : printable c0 -> reads (k_body c0 c1) (fun y _ => framed (c0 :: c1 :: y) = true).
Proof.
  intros Hc. eapply reads_post.
  - eapply reads_bind; [apply reads_type|]. intros h. eapply reads_bind; [apply reads_data|]. intros sum. apply reads_check.
  - cbv beta. intros y _ ([len sum] & y1 & y2 & -> & [Hs Hh] & v & ds & y4 & -> & [Hn ->] & ->). cbn [fst snd] in *.
    assert (Hk : checked ((c0 :: c1 :: y1) ++ ds ++ [tochar (fold_check (sum + total ds))]) = true).
    { rewrite app_assoc, checked_snoc. apply Z.eqb_eq. unfold check_of. rewrite total_app, !total_cons, Hs. do 2 f_equal. lia. }
    destruct Hh as [(H0 & -> & t & ->)|(H0 & t & hi & lo & -> & ->)]; cbn [app framed] in *.
    + rewrite (proj2 (Z.eqb_neq c0 SPACE)) by (rewrite <- untochar_zero; auto). rewrite Hk, andb_true_r.
      apply Z.eqb_eq. zlen_simpl. lia.
    + rewrite (proj2 (Z.eqb_eq c0 SPACE)) by (rewrite <- untochar_zero; auto). rewrite Hk, Z.eqb_refl, andb_true_r. cbn [andb].
      apply Z.eqb_eq. zlen_simpl. lia.
Qed.

(** ** Reading a framed packet *)

Lemma get_char_run s c l : line s = c :: l -> printable c -> get_char s = Some (Some c, set_line l s).
Proof.
  intros Hl Hc. unfold get_char, getc, mbind, K_bind. rewrite Hl, printable_char by exact Hc. reflexivity.
Qed.
Lemma k_char_set_line c l s : k_char c (set_line l s) = set_line l (k_char c s).
Proof. unfold k_char. cbn. repeat case_match; reflexivity. Qed.

Definition k_chars (ds : list Z) (s : kermit) : kermit := fold_left (fun s c => k_char c s) ds s.
Lemma k_chars_set_line ds : forall l s, k_chars ds (set_line l s) = set_line l (k_chars ds s).
Proof. induction ds as [|c ds IH]; intros l s; [reflexivity|]. cbn. rewrite k_char_set_line. apply IH. Qed.
Lemma set_line_set_line l k s : set_line l (set_line k s) = set_line l s.
Proof. reflexivity. Qed.
Lemma set_line_same s : set_line (line s) s = s.
Proof. destruct s; reflexivity. Qed.
Lemma k_chars_line ds : forall s, line (k_chars ds s) = line s.
Proof. induction ds as [|c ds IH]; intros s; [reflexivity|]. cbn. rewrite IH. apply k_char_line. Qed.

Lemma k_data_run ds : forall sum s l, line s = ds ++ l -> Forall printable ds ->
  k_data (List.length ds) sum s = Some (Some (sum + total ds), set_line l (k_chars ds s)).
Proof.
  induction ds as [|c ds IH]; intros sum s l Hl Hp.
  - cbn in *. change (total []) with 0. rewrite Z.add_0_r, <- Hl, set_line_same. reflexivity.
  - cbn [List.length k_data]. unfold mbind, K_bind, modify.
    rewrite (get_char_run s c (ds ++ l)) by (auto; eapply Forall_inv; eauto).
    rewrite k_char_set_line, (IH _ _ l) by (auto; eapply Forall_inv_tail; eauto).
    rewrite k_chars_set_line, set_line_set_line, total_cons. do 3 f_equal. lia.
Qed.

Lemma snoc_cases (l : list Z) : (exists k c, l = k ++ [c]) \/ l = [].
Proof. destruct l as [|c l] using rev_ind; eauto. Qed.

(** The parts of a framed packet. *)
Lemma framed_parts c0 c1 y : framed (c0 :: c1 :: y) = true -> printable c0 ->
  exists t pre ds, y = (t :: pre) ++ ds ++ [check_of (c0 :: c1 :: t :: pre ++ ds)] /\
    payload (c0 :: c1 :: y) = ds /\ type_of (c0 :: c1 :: y) = t /\
    ((untochar c0 <> 0 /\ pre = [] /\ Z.to_nat (untochar c0 - 2 - 1) = List.length ds) \/
     (untochar c0 = 0 /\ exists hi lo, pre = [hi; lo; check_of [c0; c1; t; hi; lo]] /\
        Z.to_nat (untochar hi * 95 + untochar lo - 1) = List.length ds)).
Proof.
  intros Hf Hc. destruct y as [|t y]; [discriminate|]. cbn [framed] in Hf.
  destruct (Z.eqb_spec c0 SPACE) as [Es|Es]; pose proof (untochar_zero c0 Hc) as Hz.
  - destruct y as [|hi [|lo [|h y]]]; try discriminate. apply andb_prop in Hf as [Hf Hk]. apply andb_prop in Hf as [Hh Hn].
    apply Z.eqb_eq in Hh, Hn. destruct (snoc_cases y) as [(ds & k & ->)| ->]; [|rewrite zlen_nil in Hn; lia].
    change (c0 :: c1 :: t :: hi :: lo :: h :: ds ++ [k]) with ((c0 :: c1 :: t :: hi :: lo :: h :: ds) ++ [k]) in Hk.
    rewrite checked_snoc in Hk. apply Z.eqb_eq in Hk. subst h k.
    exists t, [hi; lo; check_of [c0; c1; t; hi; lo]], ds. split; [reflexivity|].
    split; [unfold payload; cbn [nth]; rewrite (proj2 (Z.eqb_eq _ _) Es); cbn [drop]; apply removelast_last|].
    split; [reflexivity|]. right. split; [tauto|]. exists hi, lo. split; [reflexivity|].
    rewrite zlen_app in Hn. change (zlen [check_of (c0 :: c1 :: t :: hi :: lo :: check_of [c0; c1; t; hi; lo] :: ds)]) with 1 in Hn.
    unfold zlen in Hn. lia.
  - apply andb_prop in Hf as [Hn Hk]. apply Z.eqb_eq in Hn.
    destruct (snoc_cases y) as [(ds & k & ->)| ->]; [|rewrite zlen_nil in Hn; lia].
    change (c0 :: c1 :: t :: ds ++ [k]) with ((c0 :: c1 :: t :: ds) ++ [k]) in Hk.
    rewrite checked_snoc in Hk. apply Z.eqb_eq in Hk. subst k.
    exists t, [], ds. split; [reflexivity|].
    split; [unfold payload; cbn [nth]; rewrite (proj2 (Z.eqb_neq _ _) Es); cbn [drop]; apply removelast_last|].
    split; [reflexivity|]. left. split; [tauto|]. split; [reflexivity|].
    rewrite zlen_app in Hn. change (zlen [check_of (c0 :: c1 :: t :: ds)]) with 1 in Hn.
    unfold zlen in Hn. lia.
Qed.

Lemma check_of_printable l : printable (check_of l).
Proof.
  unfold check_of. apply untochar_tochar. unfold fold_check. change 63 with (Z.ones 6). rewrite Z.land_ones by lia.
  assert (H := Z.mod_pos_bound (total l + ((total l .>> 6) .& 3)) (2 ^ 6) ltac:(lia)). change (2 ^ 6) with 64 in *. lia.
Qed.

Lemma k_body_run c0 c1 y l s :
  framed (c0 :: c1 :: y) = true -> Forall printable (c0 :: c1 :: y) -> line s = y ++ l ->
  k_body c0 c1 s = Some (Some tt, set_line l (k_chars (payload (c0 :: c1 :: y)) (set_state (type_of (c0 :: c1 :: y)) s))).
Proof.
  intros Hf Hp Hl. inversion Hp as [|? ? Hc0 Hp1]; subst. inversion Hp1 as [|? ? Hc1 Hp2]; subst.
  destruct (framed_parts c0 c1 y Hf Hc0) as (t & pre & ds & Ey & -> & -> & Hn).
  set (k := check_of (c0 :: c1 :: t :: pre ++ ds)) in *. rewrite Ey in Hl, Hp2. cbn [app] in Hl, Hp2.
  inversion Hp2 as [|? ? Ht Hp3]; subst. apply Forall_app in Hp3 as [Hpre Hds].
  apply Forall_app in Hds as [Hds Hk].
  assert (Hty : exists h, k_type c0 c1 s = Some (Some h, set_line (ds ++ [k] ++ l) (set_state t s)) /\
            Z.to_nat (h.1 - 1) = List.length ds /\ h.2 = total (c0 :: c1 :: t :: pre)).
  { unfold k_type, mbind, K_bind, modify. rewrite (get_char_run s t _ Hl Ht).
    destruct Hn as [(H0 & -> & Hn)|(H0 & hi & lo & -> & Hn)].
    - rewrite (proj2 (Z.eqb_neq (untochar c0 - 1 - 1) (-2))) by lia. eexists. split; [cbn [app]; rewrite <- app_assoc; reflexivity|].
      cbn [fst snd]. split; [rewrite <- Hn; f_equal; lia|]. rewrite !total_cons. change (total []) with 0. lia.
    - rewrite (proj2 (Z.eqb_eq (untochar c0 - 1 - 1) (-2))) by lia.
      inversion Hpre as [|? ? Hhi Hpre1]; subst. inversion Hpre1 as [|? ? Hlo Hpre2]; subst.
      erewrite (get_char_run _ hi) by (cbn; auto). erewrite (get_char_run _ lo) by (cbn; auto).
      erewrite (get_char_run _ (check_of [c0; c1; t; hi; lo])) by (cbn; auto using check_of_printable).
      assert (Es : check_of [c0; c1; t; hi; lo] = tochar (fold_check (c0 + c1 + t + hi + lo))).
      { unfold check_of. rewrite !total_cons. change (total []) with 0. do 2 f_equal. lia. }
      rewrite (proj2 (Z.eqb_eq _ _) Es). cbn [negb]. eexists. split; [cbn [app]; rewrite <- app_assoc; reflexivity|].
      cbn [fst snd]. split; [exact Hn|]. rewrite !total_cons. change (total []) with 0. lia. }
  destruct Hty as (h & E & Hh1 & Hh2). unfold k_body, mbind, K_bind at 1. rewrite E. unfold K_bind at 1. rewrite Hh1.
  rewrite (k_data_run ds _ _ ([k] ++ l)) by (cbn; auto). rewrite k_chars_set_line, set_line_set_line.
  unfold k_check, mbind, K_bind. rewrite (get_char_run (set_line ([k] ++ l) _) k l eq_refl (Forall_inv Hk)).
  replace (tochar (fold_check (h.2 + total ds))) with k; [rewrite Z.eqb_refl; reflexivity|].
  unfold k, check_of. rewrite Hh2. change (c0 :: c1 :: t :: pre ++ ds) with ((c0 :: c1 :: t :: pre) ++ ds).
  rewrite total_app. reflexivity.
Qed.

(** ** The replies *)

(** Padding, a framed packet with the sequence number, at most one end character. *)
Definition is_reply (kind n : Z) (rep : list Z) : Prop := exists pad body tail,
  rep = pad ++ START_CHAR :: body ++ tail /\ framed body = true /\ seq_of body = n /\ type_of body = kind /\ zlen tail <= 1.

Definition sends (m : K unit) (s : kermit) (kind n : Z) : Prop := exists rep,
  is_reply kind n rep /\ m s = Some (Some tt, set_sent (sent s ++ rep) s).

Lemma framed_short l s t d :
  l = tochar (zlen d + 3) -> zlen d <= 220 -> framed (l :: s :: t :: d ++ [check_of (l :: s :: t :: d)]) = true.
Proof.
  intros Hl Hd. zlen_simpl. destruct (untochar_tochar (zlen d + 3)) as [Hu Hp]; [lia|]. rewrite <- Hl in *.
  unfold framed. rewrite (proj2 (Z.eqb_neq l SPACE)) by (rewrite <- untochar_zero; auto; lia).
  change (l :: s :: t :: d ++ ?k) with ((l :: s :: t :: d) ++ k). rewrite checked_snoc, Z.eqb_refl, andb_true_r.
  apply Z.eqb_eq. zlen_simpl. lia.
Qed.

Lemma upto_nul_app l k : Forall (fun c => c <> 0) l -> upto_nul (l ++ k) = l ++ upto_nul k.
Proof.
  induction 1 as [|c l Hc Hl IH]; [reflexivity|]. cbn. rewrite (proj2 (Z.eqb_neq _ _) Hc), IH. reflexivity.
Qed.
Lemma chk1_check body : Forall (fun c => c <> 0) body -> tochar (chk1 body) = check_of body.
Proof. intros H. unfold chk1. rewrite <- (app_nil_r body) at 1. rewrite upto_nul_app, app_nil_r by exact H. reflexivity. Qed.

Lemma send_packet_run n kind d eol s :
  0 <= n < 224 -> kind <> 0 -> Forall (fun c => c <> 0) d -> zlen d <= 90 ->
  sends (s1_sendpacket (finish_packet ([tochar (3 + zlen d); tochar n; kind] ++ d) eol)) s kind n.
Proof.
  intros Hn Hk Hd Hl. zlen_simpl. destruct (untochar_tochar n Hn) as [Hu Hp].
  destruct (untochar_tochar (3 + zlen d)) as [Hul Hpl]; [lia|].
  set (body := [tochar (3 + zlen d); tochar n; kind] ++ d).
  assert (Hb : Forall (fun c => c <> 0) body).
  { unfold body, printable in *. repeat constructor; auto; lia. }
  exists (replicate (Z.to_nat (his_pad_count (par s))) (his_pad_char (par s)) ++ upto_nul (finish_packet body eol)).
  split; [|unfold s1_sendpacket, send_pad, put, modify, gets, mbind, K_bind; cbn; rewrite <- app_assoc; reflexivity].
  pose proof (check_of_printable body) as Hc. unfold printable in Hc.
  exists (replicate (Z.to_nat (his_pad_count (par s))) (his_pad_char (par s))), (body ++ [check_of body]),
    (if eol =? 0 then [] else [eol]).
  split; [|split; [|split; [|split]]].
  - f_equal. unfold finish_packet. rewrite chk1_check by exact Hb.
    rewrite (upto_nul_app [START_CHAR]) by (repeat constructor; discriminate).
    rewrite upto_nul_app by exact Hb. change [check_of body; eol; 0] with ([check_of body] ++ [eol; 0]).
    rewrite (upto_nul_app [check_of body]) by (repeat constructor; lia).
    rewrite <- app_assoc. cbn [upto_nul]. case_match; reflexivity.
  - apply (framed_short (tochar (3 + zlen d)) (tochar n) kind d); [f_equal; lia|lia].
  - exact Hu.
  - reflexivity.
  - unfold zlen. case_match; cbn; lia.
Qed.

Lemma send_ack_run n s : 0 <= n < 224 -> sends (send_ack n) s ACK_TYPE n.
Proof. intros Hn. apply (send_packet_run n ACK_TYPE [] (his_eol (par s)) s Hn); [discriminate|constructor|unfold zlen; cbn; lia]. Qed.
Lemma send_nack_run n s : 0 <= n < 224 -> sends (send_nack n) s NACK_TYPE n.
Proof. intros Hn. apply (send_packet_run n NACK_TYPE [] (his_eol (par s)) s Hn); [discriminate|constructor|unfold zlen; cbn; lia]. Qed.

(** The answer to the first packet: the quote character is his, if he names one. *)
Lemma answer_ok s k :
  Forall (fun c => c <> 0) (concat (map snd (take k (negotiation s)))) /\ zlen (concat (map snd (take k (negotiation s)))) <= 90.
Proof.
  assert (H : forall k, (k <= 10)%nat -> Forall (fun c => c <> 0) (concat (map snd (take k (negotiation s)))) /\
            zlen (concat (map snd (take k (negotiation s)))) <= 90).
  { intros j Hj. do 11 (destruct j as [|j]; [split; [repeat constructor; discriminate|unfold zlen; cbn; lia]|]). lia. }
  destruct (decide (k <= 10)%nat) as [Hk|Hk]; [apply H; exact Hk|].
  replace (take k (negotiation s)) with (take 10 (negotiation s)); [apply H; lia|].
  rewrite !take_ge by (cbn; lia). reflexivity.
Qed.

Definition negotiated (d : list Z) : Z := match d !! 5%nat with Some q => q | None => K_ESCAPE end.

Lemma negotiated_quote s k :
  his_quote (fold_left (fun p st => st.1 p) (take k (negotiation s)) default_params) = if (6 <=? k)%nat then parm s 5 else K_ESCAPE.
Proof. do 10 (destruct k as [|k]; [reflexivity|]). rewrite take_ge by (cbn; lia). reflexivity. Qed.

(** ** The specification: the bytes received so far, in lists *)

(** The data of a run of characters, and whether it ends inside an escape. *)
Fixpoint kdec (q : Z) (esc : bool) (l : list Z) : list Z * bool :=
  match l with
  | [] => ([], esc)
  | c :: l =>
      if esc then let r := kdec q false l in (ktrans c :: r.1, r.2)
      else if c =? q then kdec q true l
      else let r := kdec q false l in (c :: r.1, r.2)
  end.

(** The receiver: the last sequence number, what was received up to the
    checkpoint and up to now, the quote character. *)
Record receiver := Receiver { r_last : Z; r_check : list Z * bool; r_now : list Z * bool; r_quote : Z }.

Definition base (n : Z) (r : receiver) : list Z * bool := if n =? r_last r then r_check r else r_now r.
Definition advance (q : Z) (v : list Z * bool) (x : list Z) : list Z * bool :=
  if type_of x =? DATA_TYPE then let d := kdec q v.2 (payload x) in (v.1 ++ d.1, d.2) else v.
(** One attempt at a packet [x]: received, or damaged on the way. *)
Definition attempted (x : list Z) (good : bool) (r : receiver) : receiver :=
  let n := seq_of x in
  if good then Receiver n (base n r) (advance (r_quote r) (base n r) x) (if type_of x =? SEND_TYPE then negotiated (payload x) else r_quote r)
  else Receiver n (base n r) (base n r) (r_quote r).

Definition at_cursor (start : Z) (v : list Z * bool) : cursor := Cursor 0 (start + zlen v.1) v.2.

Record implements (start : Z) (r : receiver) (s : kermit) : Prop := Implements {
  i_last : last_n (vars s) = r_last r;
  i_now : now (data s) = at_cursor start (r_now r);
  i_check : saved (data s) = at_cursor start (r_check r);
  i_quote : his_quote (par s) = r_quote r;
  i_parms : List.length (send_parms s) = 20%nat;
  i_bytes : bytes_at (ram (data s)) start (r_now r).1;
  i_prefix : r_check r = r_now r \/ exists k, (r_now r).1 = (r_check r).1 ++ k
}.

Lemma base_bytes start n r s : implements start r s -> bytes_at (ram (data s)) start (base n r).1.
Proof.
  intros [_ _ _ _ _ Hb Hp]. unfold base. case_match; [|exact Hb].
  destruct Hp as [->|[k E]]; [exact Hb|]. rewrite E in Hb. apply bytes_at_app in Hb. tauto.
Qed.

Lemma kdec_app q l : forall e k, kdec q e (l ++ k) = ((kdec q e l).1 ++ (kdec q (kdec q e l).2 k).1, (kdec q (kdec q e l).2 k).2).
Proof.
  induction l as [|c l IH]; intros e k; [cbn; destruct (kdec q e k); reflexivity|]. cbn.
  destruct e; [|destruct (c =? q)]; rewrite ?IH; reflexivity.
Qed.
Lemma kdec_length q l : forall e, zlen (kdec q e l).1 <= zlen l.
Proof.
  induction l as [|c l IH]; intros e; cbn; [lia|]. pose proof (IH true). pose proof (IH false).
  zlen_simpl. destruct e; [|destruct (c =? q)]; cbn [fst]; zlen_simpl; lia.
Qed.

(** What the packet's data does to the receiver. *)
Lemma k_chars_data ds : forall s a e, k_state (vars s) = DATA_TYPE -> now (data s) = Cursor 0 a e ->
  0 <= a -> a + zlen ds < 2 ^ 32 ->
  let d := kdec (his_quote (par s)) e ds in
  k_chars ds s = set_data (Sink (Cursor 0 (a + zlen d.1) d.2) (saved (data s)) (put_bytes (ram (data s)) a d.1)) s.
Proof.
  induction ds as [|c ds IH]; intros s a e Hk Hn H0 Hr.
  - cbn. rewrite Z.add_0_r, <- Hn. destruct s as [? ? ? [] ? ? ?]. reflexivity.
  - zlen_simpl. cbn [k_chars fold_left]. change (fold_left _ ds ?s) with (k_chars ds s).
    unfold k_char at 1. rewrite Hk, Z.eqb_refl.
    assert (Hu : u32 (a + 1) = a + 1) by (apply u32_small; lia).
    unfold k_data_char, bin_data_char, set_escape. rewrite Hn. cbn [k_data_escape os_data_state os_data_addr Z.eqb now saved ram].
    cbn [kdec]. rewrite ?Hu. destruct e; [|destruct (c =? his_quote (par s))].
    all: match goal with |- k_chars _ (set_data (Sink (Cursor 0 ?b ?f) _ ?m) _) = _ =>
           rewrite (IH _ b f) by (cbn; auto; lia); cbn [par set_data data saved ram fst snd put_bytes] end.
    all: rewrite ?(zlen_cons (A := Z)), <- ?Z.add_assoc, ?(Z.add_comm 1); reflexivity.
Qed.

Lemma k_chars_send ds : forall s, k_state (vars s) = SEND_TYPE -> 0 <= send_ptr s < 20 ->
  List.length (send_parms s) = 20%nat ->
  exists l, k_chars ds s = set_parms l (Z.min 19 (send_ptr s + zlen ds)) s /\ List.length l = 20%nat /\
    forall i, (i < 19)%nat -> parm l i = if Z.of_nat i <? send_ptr s then parm (send_parms s) i
                               else match ds !! (i - Z.to_nat (send_ptr s))%nat with Some c => c | None => parm (send_parms s) i end.
Proof.
  induction ds as [|c ds IH]; intros s Hk Hp Hl.
  - exists (send_parms s). split; [|split; [exact Hl|intros i Hi; case_match; reflexivity]].
    cbn. rewrite zlen_nil, Z.add_0_r, Z.min_r by lia. destruct s; reflexivity.
  - cbn [k_chars fold_left]. change (fold_left _ ds ?s) with (k_chars ds s). unfold k_char at 1. rewrite Hk. cbn [Z.eqb].
    change (SEND_TYPE =? DATA_TYPE) with false. rewrite Z.eqb_refl. cbn beta iota zeta.
    set (p := if SEND_DATA_SIZE <=? send_ptr s + 1 then send_ptr s + 1 - 1 else send_ptr s + 1).
    assert (Ep : p = Z.min 19 (send_ptr s + 1)) by (unfold p, SEND_DATA_SIZE; case_z; lia).
    destruct (IH (set_parms (<[Z.to_nat (send_ptr s):=c]> (send_parms s)) p s)) as (l & E & Hl' & Hi);
      [exact Hk|cbn; lia|cbn; rewrite length_insert; exact Hl|].
    exists l. rewrite E. cbn [send_ptr set_parms] in *. zlen_simpl.
    split; [replace (Z.min 19 (p + zlen ds)) with (Z.min 19 (send_ptr s + (zlen ds + 1))) by lia; reflexivity|].
    split; [exact Hl'|]. intros i Hi19. rewrite (Hi i Hi19). unfold parm. cbn [send_parms set_parms].
    rewrite !nth_lookup.
    destruct (Z.ltb_spec (Z.of_nat i) p), (Z.ltb_spec (Z.of_nat i) (send_ptr s)); try lia.
    + rewrite list_lookup_insert_ne by lia. reflexivity.
    + assert (i = Z.to_nat (send_ptr s)) as -> by lia. rewrite Nat.sub_diag. rewrite list_lookup_insert_eq by lia. reflexivity.
    + replace (i - Z.to_nat (send_ptr s))%nat with (S (i - Z.to_nat p)) by lia. cbn [lookup list_lookup].
      rewrite list_lookup_insert_ne by lia. reflexivity.
Qed.

(** ** One attempt *)

(** Noise, then the packet or a damaged copy of it. *)
Record attempt := Attempt { noise : list Z; damage : option (list Z * Z) }.
Definition good (a : attempt) : bool := match damage a with None => true | Some _ => false end.
Definition quiet (c : Z) : Prop := c <> START_CHAR /\ c <> ETX_CHAR.
Definition on_line (x : list Z) (a : attempt) : list Z :=
  noise a ++ START_CHAR :: match damage a with None => x ++ [END_CHAR] | Some (x', c) => x' ++ [c] end.

(** Damage may change, drop and insert characters behind the length as long as the sequence
    number survives and the result is not a packet. *)
Definition attempt_ok (x : list Z) (a : attempt) : Prop :=
  Forall quiet (noise a) /\
  match damage a with
  | None => True
  | Some (x', c) => Forall printable x' /\ control c /\ quiet c /\
      x' !! 1%nat = Some (tochar (seq_of x)) /\ ~ (framed x' = true /\ c = END_CHAR)
  end.
(** A packet the sender sends. *)
Definition packet_ok (x : list Z) : Prop := framed x = true /\ Forall printable x.
#[export] Instance printable_dec c : Decision (printable c).
Proof. unfold printable. apply _. Defined.
#[export] Instance control_dec c : Decision (control c).
Proof. unfold control. apply _. Defined.
#[export] Instance quiet_dec c : Decision (quiet c).
Proof. unfold quiet. apply _. Defined.
#[export] Instance attempt_ok_dec x a : Decision (attempt_ok x a).
Proof. unfold attempt_ok. destruct (damage a) as [[? ?]|]; apply _. Defined.
#[export] Instance packet_ok_dec x : Decision (packet_ok x).
Proof. unfold packet_ok. apply _. Defined.
Definition attempt_size (x : list Z) (a : attempt) : Z :=
  match damage a with None => zlen x | Some (x', _) => zlen x' end.

Lemma quiet_printable c : printable c -> quiet c.
Proof. unfold printable, quiet, START_CHAR, ETX_CHAR. lia. Qed.
Lemma quiet_all l : Forall printable l -> Forall quiet l.
Proof. induction 1; constructor; auto using quiet_printable. Qed.
Lemma find_start_quiet j l : Forall quiet j -> find_start (j ++ START_CHAR :: l) = Some (true, l).
Proof.
  induction 1 as [|c j [H1 H2] Hj IH]; [reflexivity|]. cbn.
  rewrite (proj2 (Z.eqb_neq _ _) H1), (proj2 (Z.eqb_neq _ _) H2). exact IH.
Qed.

(** The state behind the sequence number. *)
Definition checked_in (start n : Z) (r : receiver) (s s1 : kermit) : Prop :=
  sent s1 = sent s /\ par s1 = par s /\ send_parms s1 = send_parms s /\ send_ptr s1 = send_ptr s /\
  data s1 = Sink (at_cursor start (base n r)) (at_cursor start (base n r)) (ram (data s)) /\
  seq_n (vars s1) = n /\ last_n (vars s1) = n.

Lemma k_start_run start r s c0 c1 l : implements start r s ->
  line s = c0 :: c1 :: l -> printable c0 -> printable c1 ->
  exists s1, k_start s = Some (Some (c0, c1), s1) /\ line s1 = l /\ checked_in start (untochar c1) r s s1.
Proof.
  intros [Hl Hn Hc _ _ _ _] Hline H0 H1. unfold k_start, mbind, K_bind, modify.
  erewrite get_char_run by eauto. erewrite get_char_run by (cbn; eauto).
  eexists. split; [reflexivity|]. unfold checked_in, check_sequence, base, set_n, k_data_restore, k_data_save. cbn.
  rewrite Hl. destruct (Z.eqb_spec (untochar c1) (r_last r)) as [E|E]; cbn; rewrite ?Hn, ?Hc; auto 10.
Qed.

Lemma k_packet_bad start r s x x' c rest :
  implements start r s -> line s = x' ++ c :: rest ->
  Forall printable x' -> control c -> quiet c -> x' !! 1%nat = Some (tochar (seq_of x)) ->
  ~ (framed x' = true /\ c = END_CHAR) -> 0 <= seq_of x < 224 -> 0 <= start ->
  start + zlen (base (seq_of x) r).1 + zlen x' < 2 ^ 32 ->
  let n := seq_of x in let b := start + zlen (base n r).1 in
  exists s' z, k_packet s = Some (None, s') /\ line s' = z ++ rest /\ Forall quiet z /\
    saved (data s') = at_cursor start (base n r) /\ sent s' = sent s /\ par s' = par s /\
    List.length (send_parms s') = 20%nat /\ seq_n (vars s') = n /\ last_n (vars s') = n /\
    same_outside b (b + zlen x') (ram (data s)) (ram (data s')).
Proof.
  intros Hi Hl Hx Hc Hqc Hseq Hbad Hn H0 Hr n b. destruct x' as [|l [|c1 y]]; try discriminate. injection Hseq as ->.
  destruct (untochar_tochar n Hn) as [Hu Hp]. fold n in Hl, Hx, Hbad, Hr.
  inversion Hx as [|? ? Hpl Hx1]; subst. inversion Hx1 as [|? ? _ Hy]; subst.
  destruct (k_start_run start r s l (tochar n) (y ++ c :: rest) Hi Hl Hpl Hp) as (s1 & E1 & L1 & Hs1).
  rewrite Hu in Hs1. destruct Hs1 as (S1 & P1 & M1 & _ & D1 & N1 & T1).
  pose proof (i_parms _ _ _ Hi) as Hlen. fold b in Hr. rewrite !zlen_cons in Hr. zlen_simpl.
  assert (Hpl1 : place s1 = b) by (rewrite D1; reflexivity).
  destruct (reads_body l (tochar n) Hpl s1 y c rest L1 Hy Hc) as (res & s2 & y1 & z & E2 & F & Hres);
    [rewrite Hpl1; unfold b; zlen_simpl; lia|rewrite Hpl1; lia|].
  assert (Hend : exists s' z', k_packet s = Some (None, s') /\ line s' = z' ++ rest /\ Forall quiet z' /\
            exists k, s' = set_line k s2).
  { unfold k_packet, mbind, K_bind. rewrite E1. cbn [fst snd]. rewrite E2. destruct res as [[]|].
    - destruct Hres as (Ey & L2 & Hf). rewrite Ey in Hy.
      apply Forall_app in Hy as [Hy1 Hz]. unfold k_end, getc, mbind, K_bind. rewrite L2. destruct z as [|d z]; cbn [app].
      + destruct (Z.eqb_spec c END_CHAR) as [->|_].
        * exfalso. apply Hbad. split; [|reflexivity]. rewrite Ey, app_nil_r. exact Hf.
        * exists (set_line rest s2), []. eauto 10.
      + inversion Hz as [|? ? Hd Hz']; subst. rewrite (proj2 (Z.eqb_neq d END_CHAR)) by (unfold printable, END_CHAR in *; lia).
        exists (set_line ((z ++ [c]) ++ rest) s2), (z ++ [c]). split; [rewrite <- app_assoc; reflexivity|].
        split; [reflexivity|]. split; [|eauto]. apply Forall_app. split; [apply quiet_all; exact Hz'|repeat constructor; apply Hqc].
    - destruct Hres as [Ey L2]. exists s2, z. split; [reflexivity|]. split; [exact L2|].
      split; [|exists (line s2); symmetry; apply set_line_same].
      assert (Hq : Forall quiet (y ++ [c])).
      { apply Forall_app. split; [apply quiet_all; exact Hy|repeat constructor; apply Hqc]. }
      rewrite Ey in Hq. apply Forall_app in Hq. tauto. }
  destruct Hend as (s' & z' & E & Hl' & Hq & k & ->). exists (set_line k s2), z'. destruct F as [Fs Fp Fv Fm Fn Ft Fa Fr].
  cbn [saved data set_line sent par send_parms vars ram] in *. rewrite Fv, Fs, Fp, Fm, Fn, Ft, D1, S1, P1, M1, N1, T1. cbn [saved].
  do 3 (split; [assumption|]). do 6 (split; [auto|]).
  rewrite Hpl1, D1 in Fr. cbn [ram] in Fr. eapply same_outside_weaken; [exact Fr|lia|].
  destruct res; [destruct Hres as (-> & _)|destruct Hres as [Ey _]; apply (f_equal zlen) in Ey]; rewrite ?zlen_app, ?zlen_cons, ?zlen_nil in *; zlen_simpl; lia.
Qed.

Lemma k_chars_other ds : forall s, k_state (vars s) <> DATA_TYPE -> k_state (vars s) <> SEND_TYPE -> k_chars ds s = s.
Proof.
  induction ds as [|c ds IH]; intros s H1 H2; [reflexivity|]. cbn. unfold k_char.
  rewrite (proj2 (Z.eqb_neq _ _) H1), (proj2 (Z.eqb_neq _ _) H2). apply IH; assumption.
Qed.

Lemma handle_send_run n s d : 0 <= n < 224 -> send_ptr s = Z.min 19 (zlen d) ->
  (forall i, (i < 19)%nat -> parm (send_parms s) i = match d !! i with Some c => c | None => parm (send_parms s) i end) ->
  exists rep p ptr, is_reply ACK_TYPE n rep /\ his_quote p = negotiated d /\
    handle_send_packet n s = Some (Some tt, set_sent (sent s ++ rep) (set_parms (send_parms s) ptr (set_par p s))).
Proof.
  intros Hn Hp Hd. unfold handle_send_packet, gets, modify, mbind, K_bind. zlen_simpl.
  set (ptr := if send_ptr s =? SEND_DATA_SIZE - 1 then send_ptr s - 1 else send_ptr s).
  set (p := fold_left _ _ _). destruct (answer_ok (send_parms s) (Z.to_nat ptr)) as [Hz Hl].
  destruct (send_packet_run n ACK_TYPE _ (his_eol p) (set_parms (send_parms s) ptr (set_par p s)) Hn ltac:(discriminate) Hz Hl)
    as (rep & Hrep & E).
  exists rep, p, ptr. split; [exact Hrep|]. split; [|exact E].
  unfold p. rewrite negotiated_quote. unfold negotiated. unfold ptr, SEND_DATA_SIZE, zlen in *.
  destruct (d !! 5%nat) eqn:E5; [pose proof (lookup_lt_Some _ _ _ E5)|pose proof (lookup_ge_None_1 _ _ E5)].
  - rewrite (proj2 (Nat.leb_le 6 _)) by (case_z; lia). rewrite (Hd 5%nat), E5 by lia. reflexivity.
  - rewrite (proj2 (Nat.leb_gt 6 _)) by (case_z; lia). reflexivity.
Qed.

Lemma put_bytes_spec m start (v : list Z) out : bytes_at m start v ->
  bytes_at (put_bytes m (start + zlen v) out) start (v ++ out).
Proof.
  intros H. apply bytes_at_app. split; [|apply put_bytes_at].
  eapply bytes_at_ext; [|exact H]. intros y Hy. apply put_bytes_outside. lia.
Qed.

(** A good packet, up to the reply. *)
Lemma k_packet_good start r s x rest :
  implements start r s -> packet_ok x -> line s = x ++ END_CHAR :: rest ->
  exists s1, k_packet s = Some (Some tt, set_line rest (k_chars (payload x) (set_state (type_of x) s1))) /\
    checked_in start (seq_of x) r s s1 /\ 0 <= seq_of x < 224.
Proof.
  intros Hi [Hf Hx] Hl. destruct x as [|c0 [|c1 y]]; try discriminate.
  inversion Hx as [|? ? H0 Hx1]; subst. inversion Hx1 as [|? ? H1 Hy]; subst.
  destruct (k_start_run start r s c0 c1 (y ++ END_CHAR :: rest) Hi Hl H0 H1) as (s1 & E1 & L1 & Hs1).
  exists s1. unfold k_packet, mbind, K_bind. rewrite E1. cbn [fst snd].
  rewrite (k_body_run c0 c1 y (END_CHAR :: rest) s1 Hf Hx) by exact L1.
  split; [reflexivity|]. split; [exact Hs1|apply tochar_untochar; exact H1].
Qed.

Lemma base_prefix start n r s : implements start r s -> 0 <= zlen (base n r).1.
Proof. intros. apply zlen_nonneg. Qed.

(** What one attempt leaves behind. *)
Definition attempt_result (start : Z) (r : receiver) (s : kermit) (x : list Z) (a : attempt) (rest : list Z) (s' : kermit) : Prop :=
  implements start (attempted x (good a) r) s' /\
  (exists z, line s' = z ++ rest /\ Forall quiet z /\ (good a = true -> z = [])) /\
  (exists rep, sent s' = sent s ++ rep /\ is_reply (if good a then ACK_TYPE else NACK_TYPE) (seq_of x) rep) /\
  let b := start + zlen (base (seq_of x) r).1 in same_outside b (b + attempt_size x a) (ram (data s)) (ram (data s')).

Lemma packet_size x : packet_ok x -> zlen (payload x) <= zlen x.
Proof.
  intros _. unfold payload, zlen. rewrite removelast_firstn_len, length_take, length_drop. lia.
Qed.

(** The characters of the data, for each type of packet. *)
Definition chars_result (start : Z) (r r' : receiver) (s s2 : kermit) (x : list Z) : Prop :=
  implements start r' s2 /\ sent s2 = sent s /\ seq_n (vars s2) = seq_of x /\ k_state (vars s2) = type_of x /\
  let b := start + zlen (base (seq_of x) r).1 in same_outside b (b + zlen x) (ram (data s)) (ram (data s2)).

Lemma chars_data start r s s1 x :
  implements start r s -> packet_ok x -> checked_in start (seq_of x) r s s1 -> type_of x = DATA_TYPE ->
  0 <= start -> start + zlen (base (seq_of x) r).1 + zlen x < 2 ^ 32 ->
  chars_result start r (attempted x true r) s (k_chars (payload x) (set_state (type_of x) s1)) x.
Proof.
  intros Hi Hx (S1 & P1 & M1 & T1 & D1 & N1 & L1) Et H0 Hr.
  pose proof (base_bytes start (seq_of x) r s Hi) as Hb. pose proof (packet_size x Hx). zlen_simpl.
  destruct Hi as [Il In Ic Iq Ip _ _].
  rewrite (k_chars_data (payload x) (set_state (type_of x) s1) (start + zlen (base (seq_of x) r).1) (base (seq_of x) r).2)
    by (cbn; rewrite ?D1; auto; lia).
  unfold attempted, advance. rewrite Et. change (DATA_TYPE =? DATA_TYPE) with true.
  change (DATA_TYPE =? SEND_TYPE) with false. cbn iota.
  split; [constructor; cbn|split; [|split; [|split]]]; cbn; rewrite ?P1, ?M1, ?D1, ?Iq; auto.
  - unfold at_cursor. cbn [fst snd]. rewrite zlen_app. f_equal. lia.
  - apply put_bytes_spec. exact Hb.
  - right. eauto.
  - eapply same_outside_weaken; [apply put_bytes_outside|lia|].
    pose proof (kdec_length (r_quote r) (payload x) (base (seq_of x) r).2). cbn. lia.
Qed.

Lemma chars_other start r s s1 x :
  implements start r s -> checked_in start (seq_of x) r s s1 -> type_of x <> DATA_TYPE -> type_of x <> SEND_TYPE ->
  chars_result start r (attempted x true r) s (k_chars (payload x) (set_state (type_of x) s1)) x.
Proof.
  intros Hi (S1 & P1 & M1 & T1 & D1 & N1 & L1) Nt Ns. pose proof (base_bytes start (seq_of x) r s Hi) as Hb.
  destruct Hi as [Il In Ic Iq Ip _ _]. rewrite (k_chars_other (payload x) (set_state (type_of x) s1)) by (cbn; auto).
  unfold attempted, advance. rewrite (proj2 (Z.eqb_neq _ _) Ns), (proj2 (Z.eqb_neq _ _) Nt).
  split; [constructor|split; [|split; [|split]]]; cbn; rewrite ?P1, ?M1, ?D1; auto with cmem.
Qed.

Lemma implements_line start r s l : implements start r s -> implements start r (set_line l s).
Proof. intros []. constructor; assumption. Qed.
Lemma implements_sent start r s l : implements start r s -> implements start r (set_sent l s).
Proof. intros []. constructor; assumption. Qed.

Lemma k_reply_ack n s : seq_n (vars s) = n -> 0 <= n < 224 -> k_state (vars s) <> SEND_TYPE -> exists rep,
  is_reply ACK_TYPE n rep /\ k_reply (Some tt) s = Some (Some (k_state (vars s) =? BREAK_TYPE), set_sent (sent s ++ rep) s).
Proof.
  intros Hv Hn Hs. destruct (send_ack_run n s Hn) as (rep & Hrep & E). exists rep. split; [exact Hrep|].
  unfold k_reply, mbind, K_bind, gets. rewrite (proj2 (Z.eqb_neq _ _) Hs), Hv, E. reflexivity.
Qed.

(** The first packet, reply included. *)
Lemma reply_send start r s s1 x rest :
  implements start r s -> checked_in start (seq_of x) r s s1 -> type_of x = SEND_TYPE -> 0 <= seq_of x < 224 -> send_ptr s = 0 ->
  exists rep s', is_reply ACK_TYPE (seq_of x) rep /\
    k_reply (Some tt) (set_line rest (k_chars (payload x) (set_state (type_of x) s1))) = Some (Some false, set_line rest s') /\
    implements start (attempted x true r) s' /\ sent s' = sent s ++ rep /\ ram (data s') = ram (data s).
Proof.
  intros Hi (S1 & P1 & M1 & T1 & D1 & N1 & L1) Es Hn Hp. pose proof (base_bytes start (seq_of x) r s Hi) as Hb.
  destruct Hi as [Il In Ic Iq Ip _ _]. zlen_simpl.
  destruct (k_chars_send (payload x) (set_state (type_of x) s1)) as (l & E & Hl & Hc);
    [cbn; auto|cbn; lia|cbn; congruence|]. cbn [send_ptr set_state set_vars] in E, Hc. rewrite T1, Hp in E, Hc.
  rewrite E, Es.
  destruct (handle_send_run (seq_of x) (set_line rest (set_parms l (Z.min 19 (0 + zlen (payload x))) (set_state SEND_TYPE s1))) (payload x) Hn)
    as (rep & p & ptr & Hrep & Hq & Eh).
  { cbn. lia. }
  { intros i Hi19. cbn. pose proof (Hc i Hi19) as Hci. rewrite (proj2 (Z.ltb_ge _ 0)), Nat.sub_0_r in Hci by lia.
    case_match; [exact Hci|reflexivity]. }
  exists rep, (set_sent (sent s ++ rep) (set_parms l ptr (set_par p (set_state SEND_TYPE s1)))).
  split; [exact Hrep|]. split; [|split; [|split; [reflexivity|cbn; rewrite D1; reflexivity]]].
  - unfold k_reply, mbind, K_bind, gets. cbn [vars set_line set_parms set_state set_vars k_state seq_n].
    change (SEND_TYPE =? SEND_TYPE) with true. cbn iota. rewrite N1, Eh. cbn. rewrite S1. reflexivity.
  - unfold attempted, advance. rewrite Es. change (SEND_TYPE =? DATA_TYPE) with false. change (SEND_TYPE =? SEND_TYPE) with true.
    cbn iota. constructor; cbn; rewrite ?D1; auto.
Qed.

(** A packet received. *)
Lemma round_good start r s x j rest :
  implements start r s -> packet_ok x -> line s = j ++ START_CHAR :: x ++ END_CHAR :: rest -> Forall quiet j ->
  0 <= start -> start + zlen (base (seq_of x) r).1 + zlen x < 2 ^ 32 ->
  exists s', k_round s = Some (Some (Some (type_of x =? BREAK_TYPE)), s') /\
    attempt_result start r s x (Attempt [] None) rest s'.
Proof.
  intros Hi Hx Hl Hj H0 Hr.
  set (s0 := set_line (x ++ END_CHAR :: rest) (set_parms (send_parms s) 0 s)).
  assert (Hi0 : implements start r s0) by (destruct Hi; constructor; assumption).
  destruct (k_packet_good start r s0 x rest Hi0 Hx eq_refl) as (s1 & E & Hs1 & Hn).
  assert (Hround : k_round s = match k_reply (Some tt) (set_line rest (k_chars (payload x) (set_state (type_of x) s1))) with
            Some (Some d, s) => Some (Some (Some d), s) | Some (None, s) => Some (None, s) | None => None end).
  { unfold k_round, mbind, K_bind, modify, wait_start. cbn [line set_parms]. rewrite Hl, (find_start_quiet j _ Hj). cbn [negb].
    unfold try. fold s0. change (set_line (x ++ END_CHAR :: rest) (set_parms (send_parms s) 0 s)) with s0. rewrite E. reflexivity. }
  rewrite Hround. assert (Hrest : exists z, rest = z ++ rest /\ Forall quiet z /\ (true = true -> z = [])) by (exists []; auto).
  destruct (decide (type_of x = SEND_TYPE)) as [Es|Ns].
  - destruct (reply_send start r s0 s1 x rest Hi0 Hs1 Es Hn eq_refl) as (rep & s' & Hrep & -> & Hi' & Hs & Hm).
    exists (set_line rest s'). rewrite Es. split; [reflexivity|]. split; [apply implements_line; exact Hi'|]. split; [exact Hrest|].
    split; [exists rep; split; [exact Hs|exact Hrep]|]. cbn. rewrite Hm. apply same_outside_refl.
  - assert (Hc : chars_result start r (attempted x true r) s0 (k_chars (payload x) (set_state (type_of x) s1)) x).
    { destruct (decide (type_of x = DATA_TYPE)); [apply chars_data|apply chars_other]; auto. }
    destruct Hc as (Hi' & Hs & Hv & Hk & Hm).
    destruct (k_reply_ack (seq_of x) (set_line rest (k_chars (payload x) (set_state (type_of x) s1)))) as (rep & Hrep & ->);
      [exact Hv|exact Hn|cbn [vars set_line]; rewrite Hk; exact Ns|].
    eexists. split; [cbn [vars set_line]; rewrite Hk; reflexivity|].
    split; [apply implements_sent, implements_line; exact Hi'|]. split; [exact Hrest|].
    split; [exists rep; split; [cbn; rewrite Hs; reflexivity|exact Hrep]|]. exact Hm.
Qed.

(** A damaged one. *)
Lemma round_bad start r s x x' c j rest :
  implements start r s -> packet_ok x -> attempt_ok x (Attempt [] (Some (x', c))) ->
  line s = j ++ START_CHAR :: x' ++ c :: rest -> Forall quiet j ->
  0 <= start -> start + zlen (base (seq_of x) r).1 + zlen x' < 2 ^ 32 ->
  exists s', k_round s = Some (Some (Some false), s') /\ attempt_result start r s x (Attempt [] (Some (x', c))) rest s'.
Proof.
  intros Hi Hx (_ & Hp & Hc & Hqc & Hseq & Hbad) Hl Hj H0 Hr.
  set (s0 := set_line (x' ++ c :: rest) (set_parms (send_parms s) 0 s)).
  assert (Hi0 : implements start r s0) by (destruct Hi; constructor; assumption).
  assert (Hn : 0 <= seq_of x < 224).
  { destruct Hx as [Hf Hx]. destruct x as [|c0 [|c1 y]]; try discriminate. apply tochar_untochar.
    apply Forall_inv_tail, Forall_inv in Hx. exact Hx. }
  destruct (k_packet_bad start r s0 x x' c rest Hi0 eq_refl Hp Hc Hqc Hseq Hbad Hn H0 Hr)
    as (s' & z & E & L & Hz & V & S & P & M & N & T & F).
  set (s2 := set_vars (Locals (k_state_saved (vars s')) (k_state_saved (vars s')) (seq_n (vars s')) (last_n (vars s')))
               (set_data (k_data_restore (data s')) s')).
  destruct (send_nack_run (seq_of x) s2 Hn) as (rep & Hrep & Es).
  exists (set_sent (sent s2 ++ rep) s2). split.
  { unfold k_round, mbind, K_bind, modify, wait_start. cbn [line set_parms]. rewrite Hl, (find_start_quiet j _ Hj). cbn [negb].
    unfold try. change (set_line (x' ++ c :: rest) (set_parms (send_parms s) 0 s)) with s0. rewrite E.
    unfold k_reply, mbind, K_bind, modify, gets. fold s2. cbn [vars s2 set_vars seq_n]. rewrite N, Es. reflexivity. }
  split; [|split; [exists z; split; [exact L|split; [exact Hz|discriminate]]|split; [exists rep; split; [cbn; rewrite S; reflexivity|exact Hrep]|exact F]]].
  apply implements_sent. unfold attempted. cbn [good damage]. destruct Hi0 as [Il In Ic Iq Ip Ib Ipre].
  constructor; cbn; auto; rewrite ?P; auto.
  eapply bytes_at_ext; [|apply (base_bytes start (seq_of x) r s Hi)]. intros y Hy. apply F. lia.
Qed.

Lemma round_run start r s x a j rest :
  implements start r s -> packet_ok x -> attempt_ok x a -> line s = j ++ on_line x a ++ rest -> Forall quiet j ->
  0 <= start -> start + zlen (base (seq_of x) r).1 + attempt_size x a < 2 ^ 32 ->
  exists s', k_round s = Some (Some (Some (good a && (type_of x =? BREAK_TYPE))), s') /\ attempt_result start r s x a rest s'.
Proof.
  intros Hi Hx Ha Hl Hj H0 Hr. destruct a as [nz [[x' c]|]]; unfold on_line in Hl; cbn [noise damage] in Hl.
  - apply (round_bad start r s x x' c (j ++ nz) rest Hi Hx); auto.
    + destruct Ha as [_ Ha]. split; [constructor|exact Ha].
    + rewrite Hl, <- !app_assoc. cbn [app]. rewrite <- app_assoc. reflexivity.
    + apply Forall_app. split; [exact Hj|apply Ha].
  - apply (round_good start r s x (j ++ nz) rest Hi Hx); auto.
    + rewrite Hl, <- !app_assoc. cbn [app]. rewrite <- app_assoc. reflexivity.
    + apply Forall_app. split; [exact Hj|apply Ha].
Qed.

(** ** A whole transfer *)

(** The attempts at one packet: any, the last one received. *)
Record delivery := Delivery { packet : list Z; before : list attempt; final_noise : list Z }.
Definition attempts (d : delivery) : list (list Z * attempt) := map (pair (packet d)) (before d ++ [Attempt (final_noise d) None]).
Definition chars (l : list (list Z * attempt)) : list Z := concat (map (fun xa => on_line xa.1 xa.2) l).

(** The receiver leaves with the first good copy of the last packet. *)
Definition delivery_ok (size : Z) (d : delivery) : Prop :=
  packet_ok (packet d) /\ (type_of (packet d) = BREAK_TYPE -> Forall (fun a => good a = false) (before d)) /\
  Forall (fun xa => attempt_ok xa.1 xa.2 /\ attempt_size xa.1 xa.2 <= size) (attempts d).

#[export] Instance delivery_ok_dec size d : Decision (delivery_ok size d).
Proof. unfold delivery_ok. apply _. Defined.

(** The packets of a file: one that starts the transmission, any but those two
    types, one that ends it; numbered modulo 64; the data is the file quoted
    with the character that the first packet names. *)
Definition transmission (file : list Z) (xs : list (list Z)) : Prop := exists x0 mid xb,
  xs = x0 :: mid ++ [xb] /\ type_of x0 = SEND_TYPE /\ type_of xb = BREAK_TYPE /\
  Forall (fun x => type_of x <> SEND_TYPE /\ type_of x <> BREAK_TYPE) mid /\
  (forall i x, xs !! i = Some x -> seq_of x = Z.of_nat i mod 64) /\
  kdec (negotiated (payload x0)) false (concat (map payload (filter (fun x => type_of x = DATA_TYPE) mid))) = (file, false).

Definition is_answer (xa : list Z * attempt) (rep : list Z) : Prop :=
  is_reply (if good xa.2 then ACK_TYPE else NACK_TYPE) (seq_of xa.1) rep.

Definition run_spec (r : receiver) (l : list (list Z * attempt)) : receiver :=
  fold_left (fun r xa => attempted xa.1 (good xa.2) r) l r.

(** The specification stays within [n] bytes. *)
Definition within (n : Z) (r : receiver) : Prop := zlen (r_check r).1 <= n /\ zlen (r_now r).1 <= n.
Definition always_within (n : Z) (r : receiver) (l : list (list Z * attempt)) : Prop :=
  forall k, within n (run_spec r (take k l)).

Lemma always_within_cons n r xa l : always_within n r (xa :: l) -> within n r /\ always_within n (attempted xa.1 (good xa.2) r) l.
Proof. intros H. split; [exact (H 0%nat)|]. intros k. exact (H (S k)). Qed.

Definition loop_result (start bound : Z) (r : receiver) (l : list (list Z * attempt)) (s s' : kermit) (rest : list Z) : Prop :=
  implements start (run_spec r l) s' /\ (exists j, line s' = j ++ rest /\ Forall quiet j) /\
  (exists reps, sent s' = sent s ++ concat reps /\ Forall2 is_answer l reps) /\
  same_outside start (start + bound) (ram (data s)) (ram (data s')).

Lemma base_within n m r : within n r -> zlen (base m r).1 <= n.
Proof. intros []. unfold base. case_match; assumption. Qed.

Lemma loop_run start n size l : forall r s j rest fuel,
  implements start r s -> always_within n r l ->
  Forall (fun xa => packet_ok xa.1 /\ attempt_ok xa.1 xa.2 /\ attempt_size xa.1 xa.2 <= size) l ->
  Forall (fun xa => type_of xa.1 <> BREAK_TYPE \/ good xa.2 = false) l ->
  line s = j ++ chars l ++ rest -> Forall quiet j -> 0 <= start -> 0 <= size -> start + n + size < 2 ^ 32 ->
  exists s', k_loop (List.length l + fuel) start s = k_loop fuel start s' /\ loop_result start (n + size) r l s s' rest.
Proof.
  induction l as [|[x a] l IH]; intros r s j rest fuel Hi Hw Hok Hnb Hl Hj H0 Hs Hr.
  - exists s. split; [reflexivity|]. split; [exact Hi|]. split; [eauto|].
    split; [exists []; rewrite app_nil_r; auto|apply same_outside_refl].
  - apply always_within_cons in Hw as [Hw Hw']. inversion Hok as [|? ? (Hx & Ha & Hsz) Hok']; subst.
    inversion Hnb as [|? ? Hb Hnb']; subst. cbn [fst snd] in *. pose proof (base_within n (seq_of x) r Hw).
    destruct (round_run start r s x a j (chars l ++ rest) Hi Hx Ha) as (s1 & E & Hi1 & (z & L1 & Hz & _) & (rep & S1 & Hrep) & F1);
      [rewrite Hl; unfold chars; cbn; rewrite <- !app_assoc; reflexivity|exact Hj|exact H0|lia|].
    replace (good a && (type_of x =? BREAK_TYPE)) with false in E
      by (symmetry; destruct Hb as [Hb|Hb]; [rewrite (proj2 (Z.eqb_neq _ _) Hb); apply andb_false_r|rewrite Hb; reflexivity]).
    destruct (IH (attempted x (good a) r) s1 z rest fuel Hi1 Hw' Hok' Hnb' L1 Hz H0 Hs Hr)
      as (s' & E' & Hi' & Hl' & (reps & S' & Hreps) & F').
    exists s'. split; [cbn [List.length Nat.add k_loop]; unfold mbind, K_bind; rewrite E; exact E'|].
    split; [exact Hi'|]. split; [exact Hl'|]. split.
    + exists (rep :: reps). split; [cbn; rewrite S', S1, <- app_assoc; reflexivity|constructor; [exact Hrep|exact Hreps]].
    + eapply same_outside_trans; [|exact F']. zlen_simpl. eapply same_outside_weaken; [exact F1|lia|lia].
Qed.

(** What the specification receives: at a packet's first attempt its number is new, later
    it is the last one. *)
Definition expecting (n : Z) (v : list Z * bool) (r : receiver) : Prop :=
  (r_last r <> n /\ r_now r = v) \/ (r_last r = n /\ r_check r = v).

Lemma base_expecting n v r : expecting n v r -> base n r = v.
Proof. intros [[H <-]|[H <-]]; unfold base; [rewrite (proj2 (Z.eqb_neq _ _)) by auto|rewrite H, Z.eqb_refl]; reflexivity. Qed.

Lemma advance_send q x v : type_of x = SEND_TYPE -> advance q v x = v.
Proof. intros E. unfold advance. rewrite E. reflexivity. Qed.

Lemma attempted_spec x g q v r : expecting (seq_of x) v r -> (type_of x = SEND_TYPE \/ r_quote r = q) ->
  let r' := attempted x g r in
  expecting (seq_of x) v r' /\ (type_of x = SEND_TYPE \/ r_quote r' = q) /\ r_check r' = v /\
  (r_now r' = v \/ r_now r' = advance q v x) /\
  (g = true -> r' = Receiver (seq_of x) v (advance q v x) (if type_of x =? SEND_TYPE then negotiated (payload x) else q)).
Proof.
  intros He Hq. unfold attempted. rewrite (base_expecting _ _ _ He).
  assert (Ha : advance (r_quote r) v x = advance q v x).
  { destruct Hq as [Hs|<-]; [rewrite !advance_send by exact Hs|]; reflexivity. }
  destruct g; cbn [r_last r_check r_now r_quote]; rewrite ?Ha.
  - split; [right; auto|]. split; [|split; [reflexivity|split; [auto|intros _]]].
    + destruct (Z.eqb_spec (type_of x) SEND_TYPE); [auto|]. destruct Hq; auto.
    + destruct Hq as [Hs| <-]; [rewrite Hs|]; reflexivity.
  - split; [right; auto|]. split; [exact Hq|]. split; [reflexivity|]. split; [auto|discriminate].
Qed.

Lemma delivered_spec (d : delivery) q v n r :
  expecting (seq_of (packet d)) v r -> (type_of (packet d) = SEND_TYPE \/ r_quote r = q) ->
  within n r -> zlen v.1 <= n -> zlen (advance q v (packet d)).1 <= n ->
  run_spec r (attempts d) = Receiver (seq_of (packet d)) v (advance q v (packet d))
      (if type_of (packet d) =? SEND_TYPE then negotiated (payload (packet d)) else q) /\
  always_within n r (attempts d).
Proof.
  destruct d as [x l nz]. unfold attempts. cbn [packet before final_noise]. revert r.
  induction l as [|a l IH]; intros r He Hq Hw Hv Ha.
  - cbn. destruct (attempted_spec x true q v r He Hq) as (_ & _ & Hc & Hn & Hg). split; [apply Hg; reflexivity|].
    intros [|[|k]]; [exact Hw| |]; change (within n (attempted x true r)); (split; [rewrite Hc|destruct Hn as [-> | ->]]; assumption).
  - cbn [map app run_spec fold_left fst snd].
    destruct (attempted_spec x (good a) q v r He Hq) as (He' & Hq' & Hc & Hn & _).
    destruct (IH (attempted x (good a) r) He' Hq') as [E W]; auto.
    { split; [rewrite Hc|destruct Hn as [-> | ->]]; assumption. }
    split; [exact E|]. intros [|k]; [exact Hw|exact (W k)].
Qed.

Lemma run_spec_app r l k : run_spec r (l ++ k) = run_spec (run_spec r l) k.
Proof. apply fold_left_app. Qed.
Lemma always_within_app n r l k : always_within n r l -> always_within n (run_spec r l) k -> always_within n r (l ++ k).
Proof.
  intros Hl Hk i. rewrite take_app. destruct (decide (i <= List.length l)%nat) as [Hi|Hi].
  - replace (i - List.length l)%nat with 0%nat by lia. rewrite take_0, app_nil_r. apply Hl.
  - rewrite run_spec_app, (take_ge l) by lia. apply Hk.
Qed.
Lemma always_within_prefix n r l k : always_within n r (l ++ k) -> always_within n r l.
Proof.
  intros H i. specialize (H (Nat.min i (List.length l))). rewrite take_app_le in H by lia.
  destruct (decide (i <= List.length l)%nat); [rewrite Nat.min_l in H by lia; exact H|].
  rewrite Nat.min_r in H by lia. rewrite (take_ge l i) by lia. rewrite take_ge in H by lia. exact H.
Qed.
Lemma always_within_end n r l : always_within n r l -> within n (run_spec r l).
Proof. intros H. specialize (H (List.length l)). rewrite take_ge in H by lia. exact H. Qed.

Fixpoint chained (n : Z) (xs : list (list Z)) : Prop :=
  match xs with [] => True | x :: xs => seq_of x <> n /\ chained (seq_of x) xs end.

Lemma chained_numbered xs : forall i, (forall k x, xs !! k = Some x -> seq_of x = (Z.of_nat (i + k)) mod 64) ->
  chained ((Z.of_nat i - 1) mod 64) xs.
Proof.
  induction xs as [|x xs IH]; intros i H; [exact I|]. assert (E := H 0%nat x eq_refl). rewrite Nat.add_0_r in E.
  split; [rewrite E; Z.div_mod_to_equations; lia|]. rewrite E. replace (Z.of_nat i) with (Z.of_nat (S i) - 1) by lia.
  apply IH. intros k y Hk. rewrite (H (S k) y Hk). f_equal. lia.
Qed.

Lemma advance_longer q v x : zlen v.1 <= zlen (advance q v x).1.
Proof. unfold advance. case_match; cbn [fst]; zlen_simpl; lia. Qed.
Lemma advances_longer q xs : forall v, zlen v.1 <= zlen (fold_left (advance q) xs v).1.
Proof.
  induction xs as [|x xs IH]; intros v; [cbn; lia|]. cbn. pose proof (IH (advance q v x)). pose proof (advance_longer q v x). lia.
Qed.
Lemma advances_spec q xs : forall v, let d := kdec q v.2 (concat (map payload (filter (fun x => type_of x = DATA_TYPE) xs))) in
  fold_left (advance q) xs v = (v.1 ++ d.1, d.2).
Proof.
  induction xs as [|x xs IH]; intros v; cbn [fold_left].
  - cbn. rewrite app_nil_r. destruct v; reflexivity.
  - rewrite IH. unfold advance. rewrite filter_cons. destruct (Z.eqb_spec (type_of x) DATA_TYPE) as [E|E].
    + rewrite decide_True by exact E. cbn [map concat fst snd]. rewrite kdec_app. cbn [fst snd]. rewrite app_assoc. reflexivity.
    + rewrite decide_False by exact E. reflexivity.
Qed.

Lemma deliveries_spec q n ds : forall r ys,
  chained (r_last r) (map packet ds ++ ys) -> Forall (fun d => type_of (packet d) <> SEND_TYPE) ds -> r_quote r = q ->
  within n r -> zlen (fold_left (advance q) (map packet ds) (r_now r)).1 <= n ->
  let r' := run_spec r (concat (map attempts ds)) in
  r_now r' = fold_left (advance q) (map packet ds) (r_now r) /\ r_quote r' = q /\ chained (r_last r') ys /\
  always_within n r (concat (map attempts ds)).
Proof.
  induction ds as [|d ds IH]; intros r ys Hc Hs Hq Hw Hn.
  - cbn in *. split; [reflexivity|]. split; [exact Hq|]. split; [exact Hc|]. intros k. rewrite take_nil. exact Hw.
  - cbn [map app chained fold_left concat] in *. destruct Hc as [Hne Hc]. inversion Hs as [|? ? Hd Hs']; subst.
    pose proof (advances_longer (r_quote r) (map packet ds) (advance (r_quote r) (r_now r) (packet d))).
    pose proof (advance_longer (r_quote r) (r_now r) (packet d)).
    destruct (delivered_spec d (r_quote r) (r_now r) n r) as [E W]; [left; auto|auto|exact Hw|lia|lia|].
    rewrite (proj2 (Z.eqb_neq _ _) Hd) in E. pose proof (always_within_end _ _ _ W) as We. rewrite E in We.
    destruct (IH (run_spec r (attempts d)) ys) as (E1 & E2 & E3 & E4); rewrite ?E; auto.
    rewrite run_spec_app. rewrite E in E1, E2, E3, E4. cbn [r_now r_quote] in *.
    split; [rewrite E; exact E1|]. split; [rewrite E; exact E2|]. split; [rewrite E; exact E3|].
    apply always_within_app; [exact W|rewrite E; exact E4].
Qed.

Lemma attempts_last d : attempts d = map (pair (packet d)) (before d) ++ [(packet d, Attempt (final_noise d) None)].
Proof. unfold attempts. apply map_app. Qed.

Lemma expecting_attempts x q v l : forall r, expecting (seq_of x) v r -> (type_of x = SEND_TYPE \/ r_quote r = q) ->
  expecting (seq_of x) v (run_spec r (map (pair x) l)).
Proof.
  induction l as [|a l IH]; intros r He Hq; [exact He|]. cbn [map run_spec fold_left fst snd].
  destruct (attempted_spec x (good a) q v r He Hq) as (He' & Hq' & _). apply IH; assumption.
Qed.

(** The deliveries of a transmission. *)
Lemma transmission_parts file ds : transmission file (map packet ds) ->
  exists d0 dm dx, ds = d0 :: dm ++ [dx] /\ type_of (packet d0) = SEND_TYPE /\ type_of (packet dx) = BREAK_TYPE /\
    Forall (fun d => type_of (packet d) <> SEND_TYPE /\ type_of (packet d) <> BREAK_TYPE) dm /\
    seq_of (packet d0) = 0 /\ chained 0 (map packet dm ++ [packet dx]) /\
    fold_left (advance (negotiated (payload (packet d0)))) (map packet dm) ([], false) = (file, false).
Proof.
  intros (x0 & mid & xb & E & Hs & Hb & Hmid & Hnum & Hdec).
  destruct ds as [|d0 ds]; [discriminate|]. cbn [map] in E. injection E as E0 E.
  apply map_eq_app in E as (dm & db & -> & Em & Eb). destruct db as [|dx [|]]; try discriminate. injection Eb as Eb.
  exists d0, dm, dx. subst x0 xb mid. split; [reflexivity|]. split; [exact Hs|]. split; [exact Hb|].
  split; [apply Forall_map in Hmid; exact Hmid|]. split; [apply (Hnum 0%nat); reflexivity|]. split.
  - change [packet dx] with (map packet [dx]). rewrite <- map_app.
    exact (chained_numbered _ 1 (fun k x Hk => Hnum (S k) x Hk)).
  - rewrite advances_spec. cbn [fst snd]. rewrite Hdec. reflexivity.
Qed.

(** The attempts of a transmission, but for the last one, in the specification. *)
Lemma transmission_spec file d0 dm dx :
  type_of (packet d0) = SEND_TYPE -> type_of (packet dx) = BREAK_TYPE ->
  Forall (fun d => type_of (packet d) <> SEND_TYPE /\ type_of (packet d) <> BREAK_TYPE) dm ->
  seq_of (packet d0) = 0 -> chained 0 (map packet dm ++ [packet dx]) ->
  fold_left (advance (negotiated (payload (packet d0)))) (map packet dm) ([], false) = (file, false) ->
  let r := Receiver (-1) ([], false) ([], false) K_ESCAPE in
  let l := concat (map attempts (d0 :: dm)) ++ map (pair (packet dx)) (before dx) in
  always_within (zlen file) r l /\ base (seq_of (packet dx)) (run_spec r l) = (file, false).
Proof.
  intros Hs Hb Hmid H0 Hch Ef r l. zlen_simpl.
  assert (Hw : within (zlen file) r) by (split; cbn; rewrite zlen_nil; lia).
  destruct (delivered_spec d0 K_ESCAPE ([], false) (zlen file) r) as [E W];
    [left; rewrite H0; split; [discriminate|reflexivity]|auto|exact Hw|cbn; rewrite zlen_nil; lia
    |rewrite advance_send by exact Hs; cbn; rewrite zlen_nil; lia|].
  rewrite Hs, advance_send in E by exact Hs. change (SEND_TYPE =? SEND_TYPE) with true in E. cbn iota in E.
  pose proof (always_within_end _ _ _ W) as We.
  destruct (deliveries_spec (negotiated (payload (packet d0))) (zlen file) dm (run_spec r (attempts d0)) [packet dx])
    as (E1 & E2 & E3 & E4);
    [rewrite E; cbn [r_last]; rewrite H0; exact Hch|eapply List.Forall_impl; [|exact Hmid]; intros ? [? ?]; assumption
    |rewrite E; reflexivity|exact We|rewrite E; cbn [r_now]; rewrite Ef; cbn; lia|].
  assert (Wall : always_within (zlen file) r (concat (map attempts (d0 :: dm)))) by (cbn; apply always_within_app; assumption).
  assert (Er : run_spec r (concat (map attempts (d0 :: dm))) = run_spec (run_spec r (attempts d0)) (concat (map attempts dm)))
    by apply run_spec_app.
  rewrite <- Er in E1, E2, E3. rewrite E in E1. cbn [r_now] in E1. rewrite Ef in E1.
  set (r2 := run_spec r (concat (map attempts (d0 :: dm)))) in *.
  assert (He : expecting (seq_of (packet dx)) (file, false) r2) by (left; split; [apply not_eq_sym, E3|exact E1]).
  assert (Hx : advance (negotiated (payload (packet d0))) (file, false) (packet dx) = (file, false))
    by (unfold advance; rewrite Hb; reflexivity).
  destruct (delivered_spec dx _ (file, false) (zlen file) r2 He (or_intror E2)) as [_ W2];
    [apply always_within_end; exact Wall|cbn; lia|rewrite Hx; cbn; lia|].
  rewrite attempts_last in W2. apply always_within_prefix in W2.
  split; [apply always_within_app; assumption|]. unfold l. rewrite run_spec_app. fold r2.
  apply base_expecting. eapply expecting_attempts; [exact He|right; exact E2].
Qed.

Lemma chars_app l k : chars (l ++ k) = chars l ++ chars k.
Proof. unfold chars. rewrite map_app. apply concat_app. Qed.
Lemma chars_cons x a l : chars ((x, a) :: l) = on_line x a ++ chars l.
Proof. reflexivity. Qed.
Lemma chars_length l : (List.length l <= List.length (chars l))%nat.
Proof.
  induction l as [|[x a] l IH]; [reflexivity|]. rewrite chars_cons. unfold on_line. rewrite !length_app. cbn. lia.
Qed.

Lemma k_loop_last start n r s x nz j rest fuel :
  implements start r s -> packet_ok x -> Forall quiet nz -> type_of x = BREAK_TYPE ->
  line s = j ++ on_line x (Attempt nz None) ++ rest -> Forall quiet j -> 0 <= start ->
  base (seq_of x) r = (n, false) -> start + zlen n + zlen x < 2 ^ 32 ->
  exists s' rep, k_loop (S fuel) start s = Some (Some (zlen n), s') /\ bytes_at (ram (data s')) start n /\ line s' = rest /\
    sent s' = sent s ++ rep /\ is_answer (x, Attempt nz None) rep /\
    same_outside start (start + (zlen n + zlen x)) (ram (data s)) (ram (data s')).
Proof.
  intros Hi Hx Hnz Hb Hl Hj H0 Hbase Hr. zlen_simpl.
  destruct (round_run start r s x (Attempt nz None) j rest Hi Hx) as (s' & E & Hi' & (z & L & _ & Hz) & (rep & S' & Hrep) & F);
    [split; [exact Hnz|exact I]|exact Hl|exact Hj|exact H0|rewrite Hbase; exact Hr|].
  rewrite Hz in L by reflexivity. cbn [good damage] in *. unfold attempted in Hi'. rewrite Hbase in Hi', F.
  assert (Ea : advance (r_quote r) (n, false) x = (n, false)) by (unfold advance; rewrite Hb; reflexivity).
  rewrite Ea in Hi'. exists s', rep. destruct Hi' as [_ In _ _ _ Ib _]. cbn [r_now fst] in *.
  split.
  { cbn [k_loop]. unfold mbind, K_bind. rewrite E, Hb. change (true && (BREAK_TYPE =? BREAK_TYPE)) with true. cbn iota.
    unfold gets. rewrite In. cbn [at_cursor os_data_addr fst]. replace (start + zlen n - start) with (zlen n) by lia.
    rewrite u32_small by lia. reflexivity. }
  split; [exact Ib|]. split; [exact L|]. split; [exact S'|]. split; [exact Hrep|].
  cbn in F. eapply same_outside_weaken; [exact F|lia|lia].
Qed.

Lemma deliveries_ok size ds dx :
  Forall (delivery_ok size) (ds ++ [dx]) -> Forall (fun d => type_of (packet d) <> BREAK_TYPE) ds -> type_of (packet dx) = BREAK_TYPE ->
  let l := concat (map attempts ds) ++ map (pair (packet dx)) (before dx) in
  Forall (fun xa => packet_ok xa.1 /\ attempt_ok xa.1 xa.2 /\ attempt_size xa.1 xa.2 <= size) l /\
  (packet_ok (packet dx) /\ Forall quiet (final_noise dx) /\ zlen (packet dx) <= size) /\
  Forall (fun xa => type_of xa.1 <> BREAK_TYPE \/ good xa.2 = false) l.
Proof.
  intros Hok Hnb Hb l. apply Forall_app in Hok as [Hok Hx]. apply Forall_inv in Hx as (Hp & Hd & Ha).
  rewrite attempts_last in Ha. apply Forall_app in Ha as [Ha Hz]. apply Forall_inv in Hz as [[Hz _] Hsz].
  split; [|split; [auto|]]; apply Forall_app; split.
  - apply Forall_concat, Forall_map. eapply List.Forall_impl; [|exact Hok]. intros d (Hq & _ & Hda).
    unfold attempts in *. apply Forall_map in Hda. apply Forall_map. eapply List.Forall_impl; [|exact Hda]. cbn. auto.
  - apply Forall_map in Ha. apply Forall_map. eapply List.Forall_impl; [|exact Ha]. cbn. auto.
  - apply Forall_concat, Forall_map. eapply List.Forall_impl; [|exact Hnb]. intros d Hq.
    unfold attempts. apply Forall_map. apply List.Forall_forall. cbn. auto.
  - apply Forall_map. eapply List.Forall_impl; [|exact (Hd Hb)]. cbn. auto.
Qed.

Lemma init_implements start s : List.length (send_parms s) = 20%nat ->
  implements start (Receiver (-1) ([], false) ([], false) K_ESCAPE)
    (set_data (k_data_save (k_data_init start (data s))) (set_par default_params (set_vars (Locals 0 0 0 (-1)) s))).
Proof.
  intros Hl. assert (E : Cursor 0 start false = at_cursor start ([], false)).
  { unfold at_cursor, zlen. cbn. f_equal. lia. }
  constructor; first [assumption|exact E|reflexivity|exact I|left; reflexivity].
Qed.


(** ** A sender *)

(** Control characters are folded behind the quote, which quotes itself. *)
Definition kenc (q c : Z) : list Z :=
  let c7 := c .& 0x7f in
  if (c7 <? 32) || (c7 =? 0x7f) then [q; c .^ 0x40]
  else if c7 =? q then [q; c]
  else [c].
Definition quotable (q : Z) : bool := ((33 <=? q) && (q <=? 62)) || ((96 <=? q) && (q <=? 126)).

Definition kenc_check (q c : Z) : bool :=
  negb (quotable q) ||
  (let k := kenc q c in
   let d := kdec q false k in
   bool_decide (d.1 = [c]) && negb d.2 && forallb (fun c => (32 <=? c) && (c <? 256)) k).
Lemma kenc_checked : forall_below 256 (fun q => forall_below 256 (kenc_check q)) = true.
Proof. vm_compute. reflexivity. Qed.

Lemma kenc_spec q c : quotable q = true -> is_u8 c -> kdec q false (kenc q c) = ([c], false) /\ Forall printable (kenc q c).
Proof.
  intros Hq Hc. assert (Hq256 : 0 <= q < Z.of_nat 256) by (unfold quotable in Hq; lia).
  assert (H := forall_below_spec 256 _ kenc_checked q Hq256). cbv beta in H.
  assert (H1 := forall_below_spec 256 _ H c Hc). unfold kenc_check in H1. rewrite Hq in H1. cbn [negb orb] in H1.
  apply andb_prop in H1 as [H1 Hp]. apply andb_prop in H1 as [H1 H2]. apply bool_decide_eq_true_1 in H1. apply negb_true_iff in H2.
  split; [destruct (kdec q false (kenc q c)); cbn in *; congruence|].
  rewrite forallb_forall in Hp. apply List.Forall_forall. intros y Hy. specialize (Hp y Hy). unfold printable. lia.
Qed.
Lemma kenc_file q file : quotable q = true -> Forall is_u8 file ->
  kdec q false (concat (map (kenc q) file)) = (file, false) /\ Forall printable (concat (map (kenc q) file)).
Proof.
  intros Hq. induction 1 as [|c file Hc _ [IH1 IH2]]; [split; [reflexivity|constructor]|]. cbn [map concat].
  destruct (kenc_spec q c Hq Hc) as [H1 H2]. rewrite kdec_app, H1. cbn [fst snd]. rewrite IH1.
  split; [reflexivity|apply Forall_app; auto].
Qed.

Definition packet_text (n t : Z) (d : list Z) : list Z :=
  let h := tochar (zlen d + 3) :: tochar n :: t :: d in h ++ [check_of h].

Lemma packet_text_ok n t d : 0 <= n < 64 -> printable t -> Forall printable d -> zlen d <= 91 ->
  packet_ok (packet_text n t d) /\ seq_of (packet_text n t d) = n /\ type_of (packet_text n t d) = t /\ payload (packet_text n t d) = d.
Proof.
  intros Hn Ht Hd Hl. zlen_simpl. destruct (untochar_tochar n) as [Hu Hp]; [lia|].
  destruct (untochar_tochar (zlen d + 3)) as [Hul Hpl]; [lia|].
  split; [split|split; [exact Hu|split; [reflexivity|]]].
  - apply framed_short; [reflexivity|lia].
  - unfold packet_text. apply Forall_app. split; [do 3 (constructor; [assumption|]); exact Hd|constructor; [apply check_of_printable|constructor]].
  - unfold payload, packet_text. cbn [app nth drop].
    rewrite (proj2 (Z.eqb_neq (tochar (zlen d + 3)) SPACE)) by (rewrite <- untochar_zero; [lia|exact Hpl]). apply removelast_last.
Qed.

Fixpoint numbered (i : Z) (l : list (Z * list Z)) : list (list Z) :=
  match l with [] => [] | (t, d) :: l => packet_text (i mod 64) t d :: numbered (i + 1) l end.

(** The parameters, a file name, the chunks, the end of file, the end. *)
Definition kermit_send (parms name : list Z) (chunks : list (list Z)) : list (list Z) :=
  numbered 0 ((SEND_TYPE, parms) :: ((chr "F", name) :: map (pair DATA_TYPE) chunks ++ [(chr "Z", [])]) ++ [(BREAK_TYPE, [])]).

Definition sendable (td : Z * list Z) : Prop := printable td.1 /\ Forall printable td.2 /\ zlen td.2 <= 91.

Lemma sendable_empty t : printable t -> sendable (t, []).
Proof. intros Ht. split; [exact Ht|]. cbn [snd]. split; [constructor|unfold zlen; cbn; lia]. Qed.

Lemma numbered_app l k : forall i, numbered i (l ++ k) = numbered i l ++ numbered (i + zlen l) k.
Proof.
  induction l as [|[t d] l IH]; intros i; cbn [app numbered]; [rewrite zlen_nil, Z.add_0_r; reflexivity|].
  rewrite IH, zlen_cons. do 3 f_equal. lia.
Qed.
Lemma numbered_ok l : Forall sendable l -> forall i, Forall packet_ok (numbered i l) /\
  (forall k x, numbered i l !! k = Some x -> seq_of x = (i + Z.of_nat k) mod 64) /\
  Forall2 (fun td x => type_of x = td.1 /\ payload x = td.2) l (numbered i l).
Proof.
  induction 1 as [|[t d] l (Ht & Hd & Hl) _ IH]; intros i; cbn [numbered].
  - split; [constructor|]. split; [intros k x Hk; discriminate|constructor].
  - destruct (IH (i + 1)) as (H1 & H2 & H3). cbn [fst snd] in *.
    destruct (packet_text_ok (i mod 64) t d (Z.mod_pos_bound i 64 ltac:(lia)) Ht Hd Hl) as (Hp & Hs & Hty & Hpl).
    split; [constructor; assumption|]. split; [|constructor; auto].
    intros [|k] x Hk; [injection Hk as <-; rewrite Hs; f_equal; lia|].
    rewrite (H2 k x Hk). f_equal. lia.
Qed.

Lemma data_payloads l xs : Forall2 (fun td x => type_of x = td.1 /\ payload x = td.2) l xs ->
  map payload (filter (fun x => type_of x = DATA_TYPE) xs) = map snd (filter (fun td => td.1 = DATA_TYPE) l).
Proof.
  induction 1 as [|[t d] x l xs [Ht Hd] _ IH]; [reflexivity|]. cbn [fst snd] in *. rewrite !filter_cons, Ht. cbn [fst].
  case_decide; [|exact IH]. cbn [map snd]. f_equal; [exact Hd|exact IH].
Qed.

(** What such a sender sends is a transmission of its file. *)
Lemma kermit_send_ok parms name chunks file :
  Forall printable parms -> zlen parms <= 91 -> Forall printable name -> zlen name <= 91 ->
  quotable (negotiated parms) = true -> Forall is_u8 file ->
  concat chunks = concat (map (kenc (negotiated parms)) file) -> Forall (fun d => zlen d <= 91) chunks ->
  transmission file (kermit_send parms name chunks) /\ Forall packet_ok (kermit_send parms name chunks).
Proof.
  intros Hp Hlp Hn Hln Hq Hf Hc Hl. destruct (kenc_file _ file Hq Hf) as [Hdec Hpr]. rewrite <- Hc in Hdec, Hpr.
  set (mid := (chr "F", name) :: map (pair DATA_TYPE) chunks ++ [(chr "Z", [])]).
  assert (Hpt : forall t, 32 <= t < 256 -> printable t) by auto.
  assert (Hm : Forall sendable mid).
  { constructor; [repeat split; cbn; auto; lia|]. apply Forall_app. split; [|constructor; [apply sendable_empty, Hpt; cbn; lia|constructor]].
    apply Forall_map. apply Forall_concat in Hpr. apply List.Forall_forall. intros d Hd. rewrite List.Forall_forall in Hpr, Hl.
    repeat split; cbn; auto; lia. }
  assert (Hs : Forall sendable ((SEND_TYPE, parms) :: mid ++ [(BREAK_TYPE, [])])).
  { constructor; [repeat split; cbn; auto; lia|]. apply Forall_app. split; [exact Hm|constructor; [apply sendable_empty, Hpt; cbn; lia|constructor]]. }
  destruct (numbered_ok _ Hs 0) as (Hok & Hseq & Hty). split; [|exact Hok].
  destruct (numbered_ok mid Hm 1) as (_ & _ & Hty1). clear Hty.
  destruct (packet_text_ok 0 SEND_TYPE parms) as (_ & _ & Ht0 & Hp0); [lia|unfold printable; cbn; lia|exact Hp|exact Hlp|].
  destruct (packet_text_ok ((1 + zlen mid) mod 64) BREAK_TYPE []) as (_ & _ & Htb & _);
    [apply Z.mod_pos_bound; lia|unfold printable; cbn; lia|constructor|unfold zlen; cbn; lia|].
  exists (packet_text 0 SEND_TYPE parms), (numbered 1 mid), (packet_text ((1 + zlen mid) mod 64) BREAK_TYPE []).
  split; [unfold kermit_send; fold mid; cbn [numbered]; rewrite numbered_app; reflexivity|].
  split; [exact Ht0|]. split; [exact Htb|]. split; [|split].
  - eapply Forall2_Forall_r; [exact Hty1|]. apply List.Forall_forall. intros [t d] Hin x [Hx _]. rewrite Hx. cbn [fst].
    destruct Hin as [[= <- <-]|Hin]; [split; discriminate|]. apply in_app_or in Hin as [Hin|[[= <- <-]|[]]]; [|split; discriminate].
    apply in_map_iff in Hin as (? & [= <- <-] & _). split; discriminate.
  - exact Hseq.
  - rewrite (data_payloads _ _ Hty1), Hp0. unfold mid. rewrite filter_cons, decide_False by discriminate.
    rewrite <- Hdec. do 2 f_equal. clear. induction chunks as [|d chunks IH]; [reflexivity|].
    cbn [map app]. rewrite filter_cons, decide_True by reflexivity. cbn [map snd]. f_equal. exact IH.
Qed.

(** ** A transfer over a bad line *)

Definition ex_file : list Z := [0; 65; 35; 127; 131; 255; 10].
Definition ex_parms : list Z := str "~* @-#N1".
Definition ex_chunks : list (list Z) :=
  let e := concat (map (kenc (chr "#")) ex_file) in [take 4 e; drop 4 e].
Definition ex_packets : list (list Z) := kermit_send ex_parms (str "vmlinux") ex_chunks.
(** The last character but one of the first data packet is hit, the packet comes again, twice. *)
Definition ex_deliveries : list delivery :=
  imap (fun i x => Delivery x
    (if (i =? 2)%nat then [Attempt [] (Some (<[4%nat := 33]> x, END_CHAR)); Attempt (str "??") None] else []) []) ex_packets.
Definition ex_kermit (l : list Z) : kermit :=
  Kermit l [] default_params (Sink (Cursor 0 0 false) (Cursor 0 0 false) (fun _ => 0xEE)) (replicate 20 0) 0 (Locals 0 0 0 0).

Lemma ex_deliveries_ok : bool_decide (Forall (delivery_ok 40) ex_deliveries /\ map packet ex_deliveries = ex_packets) = true.
Proof. vm_compute. reflexivity. Qed.


(** A length hit by noise, the packet then repeated: the receiver goes back to the
    checkpoint of the packet before, which it had acknowledged, and
    the second one lands on top of it. *)
Definition ex_lost : list Z :=
  let p n t d := START_CHAR :: packet_text n t d ++ [END_CHAR] in
  p 0 SEND_TYPE (str "~* @-#N1") ++ p 1 DATA_TYPE (str "AB") ++ [START_CHAR; 0x10] ++ tl (tl (p 2 DATA_TYPE (str "CD"))) ++
  p 2 DATA_TYPE (str "CD") ++ p 3 BREAK_TYPE [].
Example noise_in_length_loses_packet :
  option_map (fun r => (r.1, read_bytes (ram (data r.2)) 0x1000 4)) (k_recv 0x1000 (ex_kermit ex_lost))
  = Some (Some 2, str "CD" ++ [0xEE; 0xEE]).
Proof. vm_compute. reflexivity. Qed.
