(* ===== verification/Ymodem.v ===== *)
(** * The Y-modem receiver and the loadb and loady commands
    (common/xyzModem.c, do_load_serial_bin of common/cmd_load.c)

    A file arrives in blocks of 128 or 1024 bytes under a CRC or a sum.  The line
    is a list: a character that comes within two seconds, or such a silence
    ([None]); behind its end there is silence for ever.  A result of [None]
    means that the code leaves its buffer.  The counters that are only printed are
    left out. *)

From S2P Require Import Prelude CMem Strto Vsprintf Crc Load Kermit.

Definition SOH : Z := 0x01.
Definition STX : Z := 0x02.
Definition EOT : Z := 0x04.
Definition ACK : Z := 0x06.
Definition NAK : Z := 0x15.
Definition CAN : Z := 0x18.
Definition EOF : Z := 0x1A.
Definition xyzModem_MAX_RETRIES : nat := 20.
Definition xyzModem_MAX_RETRIES_WITH_CRC : Z := 10.
Definition xyzModem_CAN_COUNT : Z := 3.
Definition xyzModem_xmodem : Z := 1.
Definition xyzModem_ymodem : Z := 2.
Definition xyzModem_timeout : Z := -3.
Definition xyzModem_eof : Z := -4.
Definition xyzModem_cancel : Z := -5.
Definition xyzModem_frame : Z := -6.
Definition xyzModem_cksum : Z := -7.
Definition xyzModem_sequence : Z := -8.

(** ** State *)

(** [bufp] is an index of [pkt]. *)
Record buffer := Buffer { pkt : list Z; bufp : Z; len : Z }.
Record flags := Flags { crc_mode : bool; at_eof : bool; tx_ack : bool }.
Record counts := Counts { blk : Z; next_blk : Z; file_length : Z; read_length : Z }.
Record xyz := Xyz { input : list (option Z); output : list Z; mode : Z; buf : buffer; flag : flags; cnt : counts }.

Definition set_input (l : list (option Z)) (s : xyz) : xyz := Xyz l (output s) (mode s) (buf s) (flag s) (cnt s).
Definition putc (c : Z) (s : xyz) : xyz := Xyz (input s) (output s ++ [c]) (mode s) (buf s) (flag s) (cnt s).
Definition set_buf (b : buffer) (s : xyz) : xyz := Xyz (input s) (output s) (mode s) b (flag s) (cnt s).
Definition set_flag (f : flags) (s : xyz) : xyz := Xyz (input s) (output s) (mode s) (buf s) f (cnt s).
Definition set_cnt (c : counts) (s : xyz) : xyz := Xyz (input s) (output s) (mode s) (buf s) (flag s) c.
Definition set_len (n : Z) (s : xyz) : xyz := set_buf (Buffer (pkt (buf s)) (bufp (buf s)) n) s.
Definition set_bufp (p : Z) (s : xyz) : xyz := set_buf (Buffer (pkt (buf s)) p (len (buf s))) s.
Definition set_crc_mode (b : bool) (s : xyz) : xyz := set_flag (Flags b (at_eof (flag s)) (tx_ack (flag s))) s.
Definition set_at_eof (b : bool) (s : xyz) : xyz := set_flag (Flags (crc_mode (flag s)) b (tx_ack (flag s))) s.
Definition set_tx_ack (b : bool) (s : xyz) : xyz := set_flag (Flags (crc_mode (flag s)) (at_eof (flag s)) b) s.
Definition set_blk (b : Z) (s : xyz) : xyz := set_cnt (Counts b (next_blk (cnt s)) (file_length (cnt s)) (read_length (cnt s))) s.
Definition set_next_blk (b : Z) (s : xyz) : xyz := set_cnt (Counts (blk (cnt s)) b (file_length (cnt s)) (read_length (cnt s))) s.
Definition set_file_length (n : Z) (s : xyz) : xyz := set_cnt (Counts (blk (cnt s)) (next_blk (cnt s)) n (read_length (cnt s))) s.
Definition set_read_length (n : Z) (s : xyz) : xyz := set_cnt (Counts (blk (cnt s)) (next_blk (cnt s)) (file_length (cnt s)) n) s.

(** ** The line *)

Definition getc_timeout (l : list (option Z)) : option Z * list (option Z) :=
  match l with [] => (None, []) | c :: l => (c, l) end.
(** Wait for the line to go idle. *)
Fixpoint xyzModem_flush (l : list (option Z)) : list (option Z) :=
  match l with [] => [] | None :: l => l | Some _ :: l => xyzModem_flush l end.

(** [n] characters, or those before the silence. *)
Fixpoint get_chars (n : nat) (l : list (option Z)) : list Z * bool * list (option Z) :=
  match n with
  | O => ([], true, l)
  | S n =>
      match getc_timeout l with
      | (None, l) => ([], false, l)
      | (Some c, l) => let '(cs, ok, l) := get_chars n l in (c :: cs, ok, l)
      end
  end.

(** ** Numbers *)

Definition _is_hex (c : Z) : bool :=
  ((chr "0" <=? c) && (c <=? chr "9")) || ((chr "A" <=? c) && (c <=? chr "F")) || ((chr "a" <=? c) && (c <=? chr "f")).
Definition _from_hex (c : Z) : Z :=
  if (chr "0" <=? c) && (c <=? chr "9") then c - chr "0"
  else if (chr "a" <=? c) && (c <=? chr "f") then c - chr "a" + 0x0a
  else if (chr "A" <=? c) && (c <=? chr "F") then c - chr "A" + 0x0A
  else 0.
Definition _tolower (c : Z) : Z :=
  if (chr "A" <=? c) && (c <=? chr "Z") then c - chr "A" + chr "a" else c.

Fixpoint skip_blanks (s : list Z) : list Z :=
  match s with c :: s' => if c =? chr " " then skip_blanks s' else s | [] => [] end.

(** The digits up to NUL or a blank; [Some None] is a malformed number. *)
Fixpoint parse_digits (radix : Z) (s : list Z) (result : Z) : option (option Z) :=
  match s with
  | [] => None
  | c :: s =>
      if c =? 0 then Some (Some result)
      else if _is_hex c && (_from_hex c <? radix) then parse_digits radix s (u32 (result * radix + _from_hex c))
      else if c =? chr " " then Some (Some result)
      else Some None
  end.
(** Behind "0x" the next character is taken as a digit even if it is the NUL. *)
Definition parse_num (s : list Z) : option (option Z) :=
  match skip_blanks s with
  | c0 :: c1 :: s =>
      if (c0 =? chr "0") && (_tolower c1 =? chr "x") then
        match s with [] => None | c :: _ => if c =? 0 then Some None else parse_digits 16 s 0 end
      else parse_digits 10 (c0 :: c1 :: s) 0
  | s => parse_digits 10 s 0
  end.

(** ** One block *)

(** The start of a header: the start character, or the result of the search. *)
Fixpoint find_hdr (l : list (option Z)) (can_total hdr_chars : Z) : (Z + Z) * list (option Z) :=
  match l with
  | [] => (inl xyzModem_timeout, [])
  | None :: l => (inl xyzModem_timeout, xyzModem_flush l)
  | Some c :: l =>
      let hdr_chars := hdr_chars + 1 in
      if (c =? SOH) || (c =? STX) then (inr c, l)
      else if c =? CAN then
        if can_total + 1 =? xyzModem_CAN_COUNT then (inl xyzModem_cancel, l) else find_hdr l (can_total + 1) hdr_chars
      else if (c =? EOT) && (hdr_chars =? 1) then (inl xyzModem_eof, l)
      else find_hdr l can_total hdr_chars
  end.

(** The value of the check characters and what it must be. *)
Definition check_value (cs : list Z) : Z := fold_left (fun a c => (a .<< 8) .| c) cs 0.
Definition block_sum (crc : bool) (data : list Z) : Z :=
  if crc then cyg_crc16 data else u16 (fold_left Z.add data 0) .& 0xff.

(** The rest of a block behind its start character. *)
Definition read_block (c : Z) (s : xyz) : Z * xyz :=
  match getc_timeout (input s) with
  | (None, l) => (xyzModem_timeout, set_input l s)
  | (Some b, l) =>
      let s := set_blk b (set_input l s) in
      match getc_timeout (input s) with
      | (None, l) => (xyzModem_timeout, set_input l s)
      | (Some cblk, l) =>
          let n := if c =? SOH then 128 else 1024 in
          let '(data, ok, l) := get_chars (Z.to_nat n) l in
          let s := set_buf (Buffer (data ++ drop (length data) (pkt (buf s))) 0 n) (set_input l s) in
          if negb ok then (xyzModem_timeout, s)
          else
            let '(crc, ok, l) := get_chars (if crc_mode (flag s) then 2 else 1)%nat l in
            let s := set_input l s in
            if negb ok then (xyzModem_timeout, s)
            else if negb (b .^ cblk =? 0xFF) then (xyzModem_frame, set_input (xyzModem_flush l) s)
            else if check_value crc =? block_sum (crc_mode (flag s)) data then (0, s) else (xyzModem_cksum, s)
      end
  end.

Definition xyzModem_get_hdr (s : xyz) : Z * xyz :=
  let s := if tx_ack (flag s) then set_tx_ack false (putc ACK s) else s in
  match find_hdr (input s) 0 0 with
  | (inl stat, l) =>
      let s := set_input l s in
      (stat, if stat =? xyzModem_eof then putc ACK s else s)
  | (inr c, l) => read_block c (set_input l s)
  end.

(** ** The stream *)

Definition ask (s : xyz) : xyz := putc (if crc_mode (flag s) then chr "C" else NAK) s.

(** Behind the NUL of the file name. *)
Fixpoint skip_name (s : list Z) (p : Z) : option Z :=
  match s with [] => None | c :: s => if c =? 0 then Some (p + 1) else skip_name s (p + 1) end.

Definition file_header (s : xyz) : option xyz :=
  if blk (cnt s) =? 0 then
    p ← skip_name (drop (Z.to_nat (bufp (buf s))) (pkt (buf s))) (bufp (buf s));
    v ← parse_num (drop (Z.to_nat p) (pkt (buf s)));
    let s := set_bufp p s in
    let s := match v with Some n => set_file_length n s | None => s end in
    Some (set_tx_ack true s)
  else Some s.

(** The result, and *err when it is -1. *)
Fixpoint open_loop (retries : nat) (crc_retries stat : Z) (s : xyz) : option (Z * Z * xyz) :=
  match retries with
  | O => Some (-1, stat, s)
  | S retries =>
      let '(stat, s) := xyzModem_get_hdr s in
      if stat =? 0 then
        s ← file_header s;
        Some (0, 0, set_len 0 (set_next_blk 1 s))
      else if stat =? xyzModem_timeout then
        let crc_retries := crc_retries - 1 in
        let s := if crc_retries <=? 0 then set_crc_mode false s else s in
        open_loop retries crc_retries stat (ask s)
      else if stat =? xyzModem_cancel then Some (-1, stat, s)
      else open_loop retries crc_retries stat s
  end.

Definition xyzModem_stream_open (info_mode : Z) (s : xyz) : option (Z * Z * xyz) :=
  let s := Xyz (input s) (output s) info_mode (Buffer (pkt (buf s)) (bufp (buf s)) 0) (Flags true false false)
             (Counts (blk (cnt s)) (next_blk (cnt s)) 0 0) in
  let s := ask s in
  if info_mode =? xyzModem_xmodem then Some (0, 0, set_next_blk 1 s)
  else open_loop xyzModem_MAX_RETRIES xyzModem_MAX_RETRIES_WITH_CRC 0 s.

(** Padding at the end of a block of unknown use is cut off. *)
Fixpoint trim_eof (n : nat) (data : list Z) : Z :=
  match n with O => 0 | S n' => if nth n' data 0 =? EOF then trim_eof n' data else Z.of_nat n end.
Definition unpad (s : xyz) : xyz :=
  let data := drop (Z.to_nat (bufp (buf s))) (pkt (buf s)) in
  let n := len (buf s) in
  if (mode s =? xyzModem_xmodem) || (file_length (cnt s) =? 0) then
    if (nth (Z.to_nat (n - 1)) data 0 =? EOF) && (nth (Z.to_nat (n - 2)) data 0 =? EOF) && (nth (Z.to_nat (n - 3)) data 0 =? EOF)
    then set_len (trim_eof (Z.to_nat n) data) s else s
  else s.
(** The length in the header cuts the file. *)
Definition cut (s : xyz) : xyz :=
  if negb (mode s =? xyzModem_xmodem) && negb (file_length (cnt s) =? 0) then
    let s := set_read_length (u32 (read_length (cnt s) + len (buf s))) s in
    if file_length (cnt s) <? read_length (cnt s)
    then set_len (s32 (len (buf s) - (read_length (cnt s) - file_length (cnt s)))) s else s
  else s.

(** The next block that is new: the last status. *)
Fixpoint fetch (retries : nat) (stat : Z) (s : xyz) : Z * xyz :=
  match retries with
  | O => (stat, s)
  | S retries =>
      let '(stat, s) := xyzModem_get_hdr s in
      if (stat =? 0) && (blk (cnt s) =? next_blk (cnt s)) then
        (stat, cut (unpad (set_next_blk ((next_blk (cnt s) + 1) .& 0xFF) (set_tx_ack true s))))
      else if (stat =? 0) && (blk (cnt s) =? (next_blk (cnt s) - 1) .& 0xFF) then fetch retries stat (putc ACK s)
      else
        let stat := if stat =? 0 then xyzModem_sequence else stat in
        if stat =? xyzModem_cancel then (stat, s)
        else if stat =? xyzModem_eof then
          let s := putc ACK s in
          if mode s =? xyzModem_ymodem then
            let '(stat, s) := xyzModem_get_hdr (ask s) in
            (stat, set_at_eof true (putc ACK s))
          else (stat, set_at_eof true s)
        else fetch retries stat (ask s)
  end.

(** The bytes read, *err, the state; [fuel] bounds the blocks. *)
Fixpoint read_loop (fuel : nat) (size : Z) (total : list Z) (err : Z) (s : xyz) : option (list Z * Z * xyz) :=
  match fuel with
  | O => None
  | S fuel =>
      if at_eof (flag s) || (size <=? 0) then Some (total, err, s)
      else
        let '(stat, s) := if len (buf s) =? 0 then fetch xyzModem_MAX_RETRIES xyzModem_cancel s else (0, s) in
        if stat <? 0 then Some (total, stat, set_len (-1) s)
        else if at_eof (flag s) then read_loop fuel size total err s
        else
          let n := if size <? len (buf s) then size else len (buf s) in
          if n <? 0 then None
          else
            let p := bufp (buf s) in
            let data := take (Z.to_nat n) (drop (Z.to_nat p) (pkt (buf s))) in
            read_loop fuel (size - n) (total ++ data) err
              (set_buf (Buffer (pkt (buf s)) (p + n) (len (buf s) - n)) s)
  end.
Definition xyzModem_stream_read (size : Z) (err : Z) (s : xyz) : option (list Z * Z * xyz) :=
  read_loop (S (S (length (input s)))) size [] err s.

(** ** load_serial_ymodem and the command *)

(** What is waiting on the line, [n] characters of it. *)
Fixpoint gather (n : nat) (l : list (option Z)) : list (option Z) :=
  match n, l with S n, Some _ :: l => gather n l | _, _ => l end.

Definition stop_key (key : Z) : list (option Z) -> option (list (option Z)) :=
  fix wait l := match l with
                | [] => None
                | c :: l => if decide (c = Some key) then Some l else wait l
                end.

Section load.
Context {T : Type} `{LoadTarget T} (get_mem : T -> mem) (put_mem : mem -> T -> T).

(** while ((res = xyzModem_stream_read(...)) > 0): the size, or nothing when the flash refuses. *)
Fixpoint ymodem_loop (fuel : nat) (offset addr size err : Z) (s : xyz) (t : T) : option (option Z * xyz * T) :=
  match fuel with
  | O => None
  | S fuel =>
      '(bytes, err, s) ← xyzModem_stream_read 1024 err s;
      if zlen bytes <=? 0 then Some (Some size, s, t)
      else
        let store_addr := u32 (addr + offset) in
        let '(rc, t) := if is_flash store_addr t then flash_store bytes store_addr t
                        else (0, ram_store store_addr bytes t) in
        if negb (rc =? 0) then Some (None, s, t)
        else ymodem_loop fuel offset (u32 (addr + zlen bytes)) (size + zlen bytes) err s t
  end.

(** [late] characters are still waiting at the end. *)
Definition load_serial_ymodem (late : nat) (offset : Z) (s : xyz) (t : T) : option (Z * xyz * T) :=
  '(res, err, s) ← xyzModem_stream_open xyzModem_ymodem s;
  '(size, s, t) ← (if res =? 0 then ymodem_loop (S (S (length (input s)))) offset 0 0 err s t else Some (Some 0, s, t));
  match size with
  | None => Some (0xffffffff, s, t)
  | Some size =>
      '(text, _) ← vsprintf (str "%X") [Aint size];
      Some (offset, set_input (gather late (input s)) s, set_filesize text t)
  end.

Record loader := Loader { l_line : list (option Z); l_kermit : kermit; l_xyz : xyz; target : T; baudrates : list Z; load_addr : Z }.

Definition load_serial_bin (late : nat) (offset : Z) (l : loader) : option (Z * loader) :=
  let k := l_kermit l in
  let k := set_line (omap id (l_line l)) (set_data (Sink (now (data k)) (saved (data k)) (get_mem (target l))) k) in
  match k_recv offset k with
  | Some (Some size, k) =>
      '(text, _) ← vsprintf (str "%X") [Aint size];
      Some (offset, Loader (gather (Nat.min late 100) (map Some (line k))) k (l_xyz l)
                      (set_filesize text (put_mem (ram (data k)) (target l))) (baudrates l) (load_addr l))
  | _ => None
  end.

Definition set_load_addr (a : Z) (l : loader) : loader := Loader (l_line l) (l_kermit l) (l_xyz l) (target l) (baudrates l) a.
(** gd->baudrate and serial_setbrg(), then the wait for the key. *)
Definition switch_baudrate (baud key : Z) (l : loader) : option loader :=
  rest ← stop_key key (l_line l);
  Some (Loader rest (l_kermit l) (l_xyz l) (target l) (baudrates l ++ [baud]) (load_addr l)).

Definition CONFIG_SYS_LOAD_ADDR : Z := 0x1000000.
Definition bin_offset (loadaddr : option (list Z)) (argv : list (list Z)) : Z :=
  let offset := match loadaddr with Some s => (simple_strtoul s 16).1 | None => CONFIG_SYS_LOAD_ADDR end in
  match argv with _ :: a :: _ => (simple_strtoul a 16).1 | _ => offset end.
Definition bin_baudrate (argv : list (list Z)) (current : Z) : Z :=
  match argv with
  | [_; _; b] => let v := s32 (simple_strtoul b 10).1 in if v =? 0 then current else v
  | _ => current
  end.

(** The result code; [current] is gd->baudrate on entry. *)
Definition do_load_serial_bin (late : nat) (loadaddr : option (list Z)) (current : Z) (argv : list (list Z)) (l : loader)
  : option (Z * loader) :=
  let offset := bin_offset loadaddr argv in
  let load_baudrate := bin_baudrate argv current in
  l ← (if load_baudrate =? current then Some l else switch_baudrate load_baudrate 13 l);
  '(rcode, l) ← (if bool_decide (argv !! 0%nat = Some (str "loady")) then
      '(_, s, t) ← load_serial_ymodem late offset (set_input (l_line l) (l_xyz l)) (target l);
      Some (0, Loader (input s) (l_kermit l) s t (baudrates l) (load_addr l))
    else
      '(addr, l) ← load_serial_bin late offset l;
      if addr =? 0xffffffff then Some (1, set_load_addr 0 l) else Some (0, set_load_addr addr l));
  l ← (if load_baudrate =? current then Some l else switch_baudrate current 0x1B l);
  Some (rcode, l).
End load.

(** * Properties *)

(** ** What comes over the line *)

Definition block_size (c : Z) : Z := if c =? SOH then 128 else 1024.
Definition crc_chars (d : list Z) : list Z := [cyg_crc16 d .>> 8; cyg_crc16 d .& 0xff].
(** Noise in front of a block: no start, no cancel, and no end of transmission first. *)
Definition noise_ok (n : list Z) : Prop :=
  Forall (fun c => c <> SOH /\ c <> STX /\ c <> CAN) n /\ head n <> Some EOT.
Definition start_ok (c : Z) : Prop := c = SOH \/ c = STX.
Definition said (l : list Z) : list (option Z) := map Some l.

Definition block_seg (n : list Z) (c b : Z) (d : list Z) : list (option Z) :=
  said (n ++ c :: b :: b .^ 0xFF :: d ++ crc_chars d).

(** The ways in which a block is not received: silence, a block cut short, a block whose
    number and its complement disagree, a wrong CRC. *)
Inductive fails : list (option Z) -> Prop :=
| fails_silent n m : noise_ok n -> fails (said n ++ None :: said m ++ [None])
| fails_cut n c x : noise_ok n -> start_ok c -> zlen x < block_size c + 4 -> fails (said (n ++ c :: x) ++ [None])
| fails_frame n c b b' d k m : noise_ok n -> start_ok c -> zlen d = block_size c -> zlen k = 2 -> b .^ b' <> 0xFF ->
    fails (said (n ++ c :: b :: b' :: d ++ k ++ m) ++ [None])
| fails_sum n c b b' d k : noise_ok n -> start_ok c -> zlen d = block_size c -> zlen k = 2 -> b .^ b' = 0xFF ->
    check_value k <> cyg_crc16 d -> fails (said (n ++ c :: b :: b' :: d ++ k)).

(** What a received or failed header leaves alone. *)
Record core (s s' : xyz) : Prop := Core {
  c_mode : mode s' = mode s; c_crc : crc_mode (flag s') = crc_mode (flag s); c_eof : at_eof (flag s') = at_eof (flag s);
  c_next : next_blk (cnt s') = next_blk (cnt s); c_file : file_length (cnt s') = file_length (cnt s);
  c_read : read_length (cnt s') = read_length (cnt s); c_pkt : List.length (pkt (buf s')) = List.length (pkt (buf s))
}.
Lemma core_refl s : core s s. Proof. constructor; reflexivity. Qed.
Lemma core_trans s1 s2 s3 : core s1 s2 -> core s2 s3 -> core s1 s3.
Proof. intros [] []. constructor; congruence. Qed.

Lemma said_app l k : said (l ++ k) = said l ++ said k.
Proof. apply map_app. Qed.
Lemma get_chars_said cs : forall l, get_chars (List.length cs) (said cs ++ l) = (cs, true, l).
Proof. induction cs as [|c cs IH]; intros l; [reflexivity|]. cbn. rewrite IH. reflexivity. Qed.
Lemma get_chars_cut cs : forall n l, (List.length cs < n)%nat -> get_chars n (said cs ++ None :: l) = (cs, false, l).
Proof.
  induction cs as [|c cs IH]; intros [|n] l Hn; cbn in *; try lia; [reflexivity|]. rewrite IH by lia. reflexivity.
Qed.
Lemma flush_said m l : xyzModem_flush (said m ++ None :: l) = l.
Proof. induction m as [|c m IH]; [reflexivity|exact IH]. Qed.

Lemma find_hdr_skip n : forall can k l, Forall (fun c => c <> SOH /\ c <> STX /\ c <> CAN) n -> (1 <= k \/ head n <> Some EOT) -> 0 <= k ->
  exists k', find_hdr (said n ++ l) can k = find_hdr l can k' /\ k <= k'.
Proof.
  induction n as [|c n IH]; intros can k l Hn Hk H0; [exists k; split; [reflexivity|lia]|].
  apply Forall_cons_1 in Hn as [(H1 & H2 & H3) Hn]. cbn [said map app find_hdr].
  rewrite (proj2 (Z.eqb_neq _ _) H1), (proj2 (Z.eqb_neq _ _) H2), (proj2 (Z.eqb_neq _ _) H3). cbn [orb].
  replace ((c =? EOT) && (k + 1 =? 1)) with false.
  - destruct (IH can (k + 1) l Hn) as (k' & E & Hk'); [left; lia|lia|]. exists k'. split; [exact E|lia].
  - symmetry. destruct Hk as [Hk|Hk]; [rewrite (proj2 (Z.eqb_neq (k + 1) 1)) by lia; apply andb_false_r|].
    rewrite (proj2 (Z.eqb_neq c EOT)) by (cbn in Hk; congruence). reflexivity.
Qed.

Lemma find_hdr_start n c l : noise_ok n -> start_ok c -> find_hdr (said (n ++ [c]) ++ l) 0 0 = (inr c, l).
Proof.
  intros [Hn Hh] Hc. rewrite said_app, <- app_assoc. destruct (find_hdr_skip n 0 0 (said [c] ++ l) Hn (or_intror Hh)) as (k & -> & _); [lia|].
  cbn. destruct Hc as [-> | ->]; reflexivity.
Qed.
Lemma find_hdr_silent n m l : noise_ok n -> find_hdr (said n ++ None :: said m ++ None :: l) 0 0 = (inl xyzModem_timeout, l).
Proof.
  intros [Hn Hh]. destruct (find_hdr_skip n 0 0 (None :: said m ++ None :: l) Hn (or_intror Hh)) as (k & -> & _); [lia|].
  cbn. rewrite flush_said. reflexivity.
Qed.

(** The header of a call: the acknowledgement owed, then the search. *)
Definition acked (s : xyz) : xyz := if tx_ack (flag s) then set_tx_ack false (putc ACK s) else s.
Lemma acked_core s : core s (acked s) /\ input (acked s) = input s /\ tx_ack (flag (acked s)) = false.
Proof. unfold acked. destruct (tx_ack (flag s)) eqn:E; (split; [constructor; reflexivity|auto]). Qed.

Lemma get_hdr_start n c l s : noise_ok n -> start_ok c -> input s = said (n ++ [c]) ++ l ->
  xyzModem_get_hdr s = read_block c (set_input l (acked s)).
Proof.
  intros Hn Hc Hl. unfold xyzModem_get_hdr. fold (acked s). destruct (acked_core s) as (_ & E & _). rewrite E, Hl.
  rewrite find_hdr_start by assumption. reflexivity.
Qed.

Lemma read_block_data c s l b b' : input s = Some b :: Some b' :: l ->
  read_block c s =
    let s := set_blk b (set_input (Some b' :: l) s) in
    let '(d, ok, l) := get_chars (Z.to_nat (block_size c)) l in
    let s := set_buf (Buffer (d ++ drop (List.length d) (pkt (buf s))) 0 (block_size c)) (set_input l s) in
    if negb ok then (xyzModem_timeout, s)
    else
      let '(k, ok, l) := get_chars (if crc_mode (flag s) then 2 else 1)%nat l in
      let s := set_input l s in
      if negb ok then (xyzModem_timeout, s)
      else if negb (b .^ b' =? 0xFF) then (xyzModem_frame, set_input (xyzModem_flush l) s)
      else if check_value k =? block_sum (crc_mode (flag s)) d then (0, s) else (xyzModem_cksum, s).
Proof. intros Hl. unfold read_block. rewrite Hl. reflexivity. Qed.

Lemma pkt_kept d (p : list Z) : (List.length d <= List.length p)%nat -> List.length (d ++ drop (List.length d) p) = List.length p.
Proof. intros H. rewrite length_app, length_drop. lia. Qed.

Lemma block_size_nat c (d : list Z) : zlen d = block_size c -> Z.to_nat (block_size c) = List.length d /\ (List.length d <= 1024)%nat.
Proof. unfold zlen, block_size. case_z; lia. Qed.

(** A complete block of the right length, whatever it contains. *)
Lemma read_block_full c b b' d k l s : zlen d = block_size c -> zlen k = 2 ->
  input s = said (b :: b' :: d ++ k) ++ l -> crc_mode (flag s) = true -> List.length (pkt (buf s)) = 1024%nat ->
  exists s', core s s' /\ blk (cnt s') = b /\ buf s' = Buffer (d ++ drop (List.length d) (pkt (buf s))) 0 (zlen d) /\
    tx_ack (flag s') = tx_ack (flag s) /\ output s' = output s /\ input s' = l /\
    read_block c s = if negb (b .^ b' =? 0xFF) then (xyzModem_frame, set_input (xyzModem_flush l) s')
                     else if check_value k =? cyg_crc16 d then (0, s') else (xyzModem_cksum, s').
Proof.
  intros Hd Hk Hl Hc Hp. destruct (block_size_nat c d Hd) as [En Hn].
  rewrite (read_block_data c s (said (d ++ k) ++ l) b b') by exact Hl.
  rewrite En, said_app, <- app_assoc, get_chars_said. cbv zeta. cbn [negb flag set_buf set_input set_blk set_cnt]. rewrite Hc.
  assert (Hk2 : 2%nat = List.length k) by (unfold zlen in Hk; lia). pose proof (get_chars_said k l) as Eg. rewrite <- Hk2 in Eg. rewrite Eg. cbn [negb].
  eexists. split; [|split; [|split; [|split; [|split; [|split; [|reflexivity]]]]]]; try reflexivity.
  - constructor; try reflexivity. cbn. apply pkt_kept. lia.
  - cbn. rewrite Hd. reflexivity.
Qed.

(** A block cut short. *)
Lemma read_block_cut c x l s : zlen x < block_size c + 4 -> input s = said x ++ None :: l ->
  crc_mode (flag s) = true -> List.length (pkt (buf s)) = 1024%nat ->
  exists s', core s s' /\ input s' = l /\ tx_ack (flag s') = tx_ack (flag s) /\ read_block c s = (xyzModem_timeout, s').
Proof.
  intros Hx Hl Hc Hp.
  destruct x as [|b [|b' x]]; try (unfold read_block; rewrite Hl; eexists; split; [|split; [|split; [|reflexivity]]]; [constructor; reflexivity|reflexivity|reflexivity]).
  rewrite (read_block_data c s (said x ++ None :: l) b b') by exact Hl. cbv zeta.
  assert (Hs : block_size c = 128 \/ block_size c = 1024) by (unfold block_size; case_z; auto). zlen_simpl.
  destruct (decide (zlen x < block_size c)) as [Hlt|Hge].
  - rewrite (get_chars_cut x) by (unfold zlen in Hlt; lia). cbn [negb]. eexists.
    split; [|split; [|split; [|reflexivity]]]; [|reflexivity|reflexivity]. constructor; try reflexivity. cbn. apply pkt_kept.
    unfold zlen in *. lia.
  - set (d := take (Z.to_nat (block_size c)) x). set (k := drop (Z.to_nat (block_size c)) x).
    assert (Ex : x = d ++ k) by (symmetry; apply take_drop). assert (Ld : List.length d = Z.to_nat (block_size c)).
    { unfold d. rewrite length_take. unfold zlen in Hge. lia. }
    assert (Lk : (List.length k < 2)%nat) by (unfold k; rewrite length_drop; unfold zlen in *; lia).
    rewrite <- Ld, Ex, said_app, <- app_assoc, get_chars_said. cbn [negb flag set_buf set_input set_blk set_cnt]. rewrite Hc.
    rewrite (get_chars_cut k 2) by exact Lk. cbn [negb]. eexists.
    split; [|split; [|split; [|reflexivity]]]; [|reflexivity|reflexivity]. constructor; try reflexivity. cbn. apply pkt_kept. lia.
Qed.

Lemma crc_chars_value d : check_value (crc_chars d) = cyg_crc16 d.
Proof.
  unfold check_value, crc_chars. cbn [fold_left]. generalize (cyg_crc16 d). intros k. rewrite Z.shiftl_0_l, Z.lor_0_l.
  by_bits i. change 255 with (Z.ones 8). rewrite Z.testbit_ones by lia. destruct (Z.lt_ge_cases i 8).
  - rewrite (Z.testbit_neg_r _ (i - 8)) by lia. case_z; try lia. btauto.
  - rewrite Z.shiftr_spec by lia. replace (i - 8 + 8) with i by lia. case_z; try lia. btauto.
Qed.

Definition failed (stat : Z) : Prop := stat = xyzModem_timeout \/ stat = xyzModem_frame \/ stat = xyzModem_cksum.

Ltac line_eq := unfold said; repeat progress (rewrite ?map_app, <- ?app_assoc; cbn [map app]); reflexivity.

(** Behind the start of a block. *)
Lemma started n c x l s : noise_ok n -> start_ok c -> input s = said (n ++ c :: x) ++ l -> crc_mode (flag s) = true ->
  List.length (pkt (buf s)) = 1024%nat ->
  exists s1, xyzModem_get_hdr s = read_block c s1 /\ input s1 = said x ++ l /\ core s s1 /\
    crc_mode (flag s1) = true /\ List.length (pkt (buf s1)) = 1024%nat /\ tx_ack (flag s1) = false /\ pkt (buf s1) = pkt (buf s) .
Proof.
  intros Hn Hs Hl Hc Hp. destruct (acked_core s) as (Ha & _ & Ht). exists (set_input (said x ++ l) (acked s)). split.
  - apply (get_hdr_start n c); [exact Hn|exact Hs|]. rewrite Hl. line_eq.
  - assert (Ep : pkt (buf (acked s)) = pkt (buf s)) by (unfold acked; case_match; reflexivity).
    split; [reflexivity|]. split; [destruct Ha; constructor; assumption|]. cbn. rewrite (c_crc _ _ Ha), Ep. auto.
Qed.

Lemma get_hdr_fails g s l : fails g -> input s = g ++ l -> crc_mode (flag s) = true -> List.length (pkt (buf s)) = 1024%nat ->
  exists stat s', xyzModem_get_hdr s = (stat, s') /\ failed stat /\ input s' = l /\ core s s' /\ tx_ack (flag s') = false.
Proof.
  intros Hg Hl Hc Hp. destruct Hg as [n m Hn|n c x Hn Hs Hx|n c b b' d k m Hn Hs Hd Hk Hb|n c b b' d k Hn Hs Hd Hk Hb Hv].
  - destruct (acked_core s) as (Ha & Hin & Ht).
    exists xyzModem_timeout, (set_input l (acked s)). split; [|split; [left; reflexivity|split; [reflexivity|split; [|exact Ht]]]].
    + unfold xyzModem_get_hdr. fold (acked s). rewrite Hin, Hl, <- app_assoc. cbn [app]. rewrite <- app_assoc. cbn [app].
      rewrite find_hdr_silent by exact Hn. reflexivity.
    + destruct Ha; constructor; assumption.
  - destruct (started n c x (None :: l) s Hn Hs) as (s1 & -> & L1 & C1 & K1 & P1 & T1 & _);
      [rewrite Hl, <- app_assoc; reflexivity|exact Hc|exact Hp|].
    destruct (read_block_cut c x l s1 Hx L1 K1 P1) as (s' & C & L & T & ->). exists xyzModem_timeout, s'.
    split; [reflexivity|]. split; [left; reflexivity|]. split; [exact L|]. split; [eapply core_trans; eassumption|congruence].
  - destruct (started n c (b :: b' :: d ++ k) (said m ++ None :: l) s Hn Hs) as (s1 & -> & L1 & C1 & K1 & P1 & T1 & _);
      [rewrite Hl; line_eq|exact Hc|exact Hp|].
    destruct (read_block_full c b b' d k _ s1 Hd Hk L1 K1 P1) as (s' & C & _ & _ & T & _ & L & ->).
    rewrite (proj2 (Z.eqb_neq _ _) Hb), flush_said. cbn [negb]. exists xyzModem_frame, (set_input l s').
    split; [reflexivity|]. split; [right; left; reflexivity|]. split; [reflexivity|].
    split; [eapply core_trans; [exact C1|]; destruct C; constructor; assumption|cbn; congruence].
  - destruct (started n c (b :: b' :: d ++ k) l s Hn Hs Hl Hc Hp) as (s1 & -> & L1 & C1 & K1 & P1 & T1 & _).
    destruct (read_block_full c b b' d k _ s1 Hd Hk L1 K1 P1) as (s' & C & _ & _ & T & _ & L & ->).
    rewrite Hb, Z.eqb_refl, (proj2 (Z.eqb_neq _ _) Hv). cbn [negb]. exists xyzModem_cksum, s'.
    split; [reflexivity|]. split; [right; right; reflexivity|]. split; [exact L|]. split; [eapply core_trans; eassumption|congruence].
Qed.

Lemma get_hdr_block n c b d s l : noise_ok n -> start_ok c -> is_u8 b -> zlen d = block_size c ->
  input s = block_seg n c b d ++ l -> crc_mode (flag s) = true -> List.length (pkt (buf s)) = 1024%nat ->
  exists s', xyzModem_get_hdr s = (0, s') /\ input s' = l /\ core s s' /\ tx_ack (flag s') = false /\ blk (cnt s') = b /\
    buf s' = Buffer (d ++ drop (List.length d) (pkt (buf s))) 0 (zlen d).
Proof.
  intros Hn Hs Hb Hd Hl Hc Hp. destruct (started n c _ l s Hn Hs Hl Hc Hp) as (s1 & -> & L1 & C1 & K1 & P1 & T1 & E1).
  destruct (read_block_full c b (b .^ 0xFF) d (crc_chars d) l s1 Hd eq_refl L1 K1 P1) as (s' & C & B & U & T & _ & L & ->).
  replace (b .^ (b .^ 0xFF)) with 0xFF by (rewrite <- Z.lxor_assoc, Z.lxor_nilpotent; reflexivity).
  rewrite crc_chars_value, !Z.eqb_refl. cbn [negb]. exists s'. rewrite U, E1.
  split; [reflexivity|]. split; [exact L|]. split; [eapply core_trans; eassumption|]. split; [congruence|auto].
Qed.

(** ** Fetching the next block *)

(** An attempt that does not advance: a failure, or the block before once more. *)
Inductive miss := Failed (g : list (option Z)) | Again (n : list Z) (c : Z) (d : list Z).
Definition prev (b : Z) : Z := (b - 1) .& 0xFF.
Definition next (b : Z) : Z := (b + 1) .& 0xFF.
Definition miss_seg (b : Z) (m : miss) : list (option Z) :=
  match m with Failed g => g | Again n c d => block_seg n c (prev b) d end.
Definition miss_ok (m : miss) : Prop :=
  match m with Failed g => fails g | Again n c d => noise_ok n /\ start_ok c /\ zlen d = block_size c end.
Definition missed (b : Z) (ms : list miss) : list (option Z) := concat (map (miss_seg b) ms).

Record ready (b fl : Z) (s : xyz) : Prop := Ready {
  r_mode : mode s = xyzModem_ymodem; r_crc : crc_mode (flag s) = true; r_eof : at_eof (flag s) = false;
  r_next : next_blk (cnt s) = b; r_file : file_length (cnt s) = fl; r_pkt : List.length (pkt (buf s)) = 1024%nat
}.
Lemma ready_core b fl s s' : ready b fl s -> core s s' -> ready b fl s'.
Proof. intros [] []. constructor; congruence. Qed.

Lemma prev_facts b : is_u8 b -> is_u8 (prev b) /\ prev b <> b.
Proof.
  unfold is_u8, in_word, prev. change (2 ^ 8) with 256. intros Hb. change 255 with (Z.ones 8). rewrite Z.land_ones by lia.
  change (2 ^ 8) with 256. Z.div_mod_to_equations. lia.
Qed.
Lemma next_u8 b : is_u8 (next b).
Proof. unfold next. rewrite land_255. apply u8_range. Qed.

(** One miss: the receiver answers and is where it was. *)
Lemma fetch_miss b fl m s l retries stat : ready b fl s -> is_u8 b -> miss_ok m -> input s = miss_seg b m ++ l ->
  exists stat' s', fetch (S retries) stat s = fetch retries stat' s' /\ ready b fl s' /\ input s' = l /\
    read_length (cnt s') = read_length (cnt s).
Proof.
  intros Hr Hb Hm Hl. destruct (prev_facts b Hb) as [Hpb Hne]. cbn [fetch].
  destruct m as [g|n c d].
  - destruct (get_hdr_fails g s l Hm Hl (r_crc _ _ _ Hr) (r_pkt _ _ _ Hr)) as (st & s1 & -> & Hst & L & C & _).
    exists st, (ask s1). assert (st <> 0 /\ st <> xyzModem_cancel /\ st <> xyzModem_eof) as (H1 & H2 & H3)
      by (destruct Hst as [->|[-> | ->]]; repeat split; discriminate).
    rewrite (proj2 (Z.eqb_neq _ _) H1), (proj2 (Z.eqb_neq _ _) H2), (proj2 (Z.eqb_neq _ _) H3). cbn [andb].
    split; [reflexivity|]. split; [|split; [exact L|exact (c_read _ _ C)]].
    apply (ready_core b fl s1); [eapply ready_core; eassumption|constructor; reflexivity].
  - destruct Hm as (Hn & Hc & Hd).
    destruct (get_hdr_block n c (prev b) d s l Hn Hc Hpb Hd Hl (r_crc _ _ _ Hr) (r_pkt _ _ _ Hr)) as (s1 & -> & L & C & _ & B & _).
    assert (Hr1 : ready b fl s1) by (eapply ready_core; eassumption).
    rewrite B, (r_next _ _ _ Hr1), (proj2 (Z.eqb_neq _ _) Hne). fold (prev b). rewrite !Z.eqb_refl. cbn [andb].
    exists 0, (putc ACK s1). split; [reflexivity|]. split; [|split; [exact L|exact (c_read _ _ C)]].
    eapply ready_core; [exact Hr1|constructor; reflexivity].
Qed.

Lemma fetch_misses b fl ms : forall s l retries stat, ready b fl s -> is_u8 b -> Forall miss_ok ms ->
  input s = missed b ms ++ l ->
  exists stat' s', fetch (List.length ms + retries) stat s = fetch retries stat' s' /\ ready b fl s' /\ input s' = l /\
    read_length (cnt s') = read_length (cnt s).
Proof.
  induction ms as [|m ms IH]; intros s l retries stat Hr Hb Hm Hl; [exists stat, s; auto|].
  inversion Hm as [|? ? Hm1 Hm2]; subst. unfold missed in Hl. cbn [map concat] in Hl. rewrite <- app_assoc in Hl.
  destruct (fetch_miss b fl m s _ (List.length ms + retries) stat Hr Hb Hm1 Hl) as (st1 & s1 & E1 & R1 & L1 & N1).
  destruct (IH s1 l retries st1 R1 Hb Hm2 L1) as (st2 & s2 & E2 & R2 & L2 & N2).
  exists st2, s2. split; [cbn [List.length Nat.add]; congruence|]. split; [exact R2|]. split; [exact L2|congruence].
Qed.

Record block := Block { misses : list miss; b_noise : list Z; b_start : Z; b_data : list Z }.
Definition block_ok (b : block) : Prop :=
  Forall miss_ok (misses b) /\ (List.length (misses b) < xyzModem_MAX_RETRIES)%nat /\
  noise_ok (b_noise b) /\ start_ok (b_start b) /\ zlen (b_data b) = block_size (b_start b).
Definition block_line (nb : Z) (b : block) : list (option Z) :=
  missed nb (misses b) ++ block_seg (b_noise b) (b_start b) nb (b_data b).

(** The block that is expected, cut to the length of the file. *)
Lemma fetch_block nb fl b s l stat : ready nb fl s -> is_u8 nb -> block_ok b -> input s = block_line nb b ++ l ->
  0 <= read_length (cnt s) <= fl -> 0 < fl < 2147483648 ->
  exists s' tail, fetch xyzModem_MAX_RETRIES stat s = (0, s') /\ ready (next nb) fl s' /\ input s' = l /\
    read_length (cnt s') = read_length (cnt s) + zlen (b_data b) /\
    buf s' = Buffer (b_data b ++ tail) 0 (Z.min (zlen (b_data b)) (fl - read_length (cnt s))).
Proof.
  intros Hr Hb (Hms & Hn & Hnoise & Hst & Hd) Hl Hrl Hfl. unfold block_line in Hl. rewrite <- app_assoc in Hl.
  destruct (fetch_misses nb fl (misses b) s _ (xyzModem_MAX_RETRIES - List.length (misses b)) stat Hr Hb Hms Hl)
    as (st1 & s1 & E1 & R1 & L1 & N1).
  rewrite Nat.add_comm, Nat.sub_add in E1 by lia. rewrite E1.
  destruct (xyzModem_MAX_RETRIES - List.length (misses b))%nat as [|retries] eqn:Er; [lia|]. cbn [fetch].
  destruct (get_hdr_block _ _ nb _ s1 l Hnoise Hst Hb Hd L1 (r_crc _ _ _ R1) (r_pkt _ _ _ R1)) as (s2 & -> & L2 & C2 & _ & B2 & U2).
  assert (R2 : ready nb fl s2) by (eapply ready_core; eassumption). rewrite B2, (r_next _ _ _ R2), !Z.eqb_refl. cbn [andb]. fold (next nb).
  set (s3 := set_next_blk (next nb) (set_tx_ack true s2)).
  assert (R3 : ready (next nb) fl s3) by (destruct R2; constructor; first [assumption|reflexivity]).
  assert (N3 : read_length (cnt s3) = read_length (cnt s)) by (cbn; rewrite (c_read _ _ C2); exact N1).
  assert (U3 : buf s3 = buf s2) by reflexivity.
  destruct (block_size_nat _ _ Hd) as [_ Hlen]. assert (Hz : zlen (b_data b) <= 1024) by (unfold zlen; lia). zlen_simpl.
  exists (cut (unpad s3)), (drop (List.length (b_data b)) (pkt (buf s1))). split; [reflexivity|].
  unfold unpad. rewrite (r_mode _ _ _ R3), (r_file _ _ _ R3), (proj2 (Z.eqb_neq fl 0)) by lia.
  change (xyzModem_ymodem =? xyzModem_xmodem) with false. cbn [orb]. unfold cut. rewrite (r_mode _ _ _ R3), (r_file _ _ _ R3), (proj2 (Z.eqb_neq fl 0)) by lia.
  change (xyzModem_ymodem =? xyzModem_xmodem) with false. cbn [andb negb].
  assert (Eu : u32 (read_length (cnt s3) + len (buf s3)) = read_length (cnt s) + zlen (b_data b))
    by (rewrite N3, U3, U2; cbn [len]; apply u32_small; lia).
  rewrite Eu. cbn [file_length set_read_length set_cnt read_length cnt]. rewrite (r_file _ _ _ R3).
  destruct (Z.ltb_spec fl (read_length (cnt s) + zlen (b_data b))).
  - rewrite s32_small; cbn [buf set_read_length set_cnt]; rewrite U3, U2; cbn [len]; [|lia].
    split; [destruct R3; constructor; assumption|]. split; [exact L2|]. split; [reflexivity|].
    cbn. rewrite U2. cbn. f_equal. lia.
  - split; [destruct R3; constructor; assumption|]. split; [exact L2|]. split; [reflexivity|].
    cbn. rewrite U2. f_equal. lia.
Qed.

(** The end of the transmission. *)
Lemma fetch_eof nb fl ms s l stat : ready nb fl s -> is_u8 nb -> Forall miss_ok ms -> (List.length ms < xyzModem_MAX_RETRIES)%nat ->
  input s = missed nb ms ++ Some EOT :: l ->
  exists stat' s', fetch xyzModem_MAX_RETRIES stat s = (stat', s') /\ at_eof (flag s') = true.
Proof.
  intros Hr Hb Hms Hn Hl.
  destruct (fetch_misses nb fl ms s _ (xyzModem_MAX_RETRIES - List.length ms) stat Hr Hb Hms Hl) as (st1 & s1 & E1 & R1 & L1 & N1).
  rewrite Nat.add_comm, Nat.sub_add in E1 by lia. rewrite E1.
  destruct (xyzModem_MAX_RETRIES - List.length ms)%nat as [|retries] eqn:Er; [lia|]. cbn [fetch].
  destruct (acked_core s1) as (Ha & Hin & _).
  assert (Eh : xyzModem_get_hdr s1 = (xyzModem_eof, putc ACK (set_input l (acked s1)))).
  { unfold xyzModem_get_hdr. fold (acked s1). rewrite Hin, L1. reflexivity. }
  rewrite Eh. change (xyzModem_eof =? 0) with false. cbn [andb]. change (xyzModem_eof =? xyzModem_cancel) with false.
  change (xyzModem_eof =? xyzModem_eof) with true. cbn iota.
  replace (mode (putc ACK (putc ACK (set_input l (acked s1))))) with xyzModem_ymodem
    by (cbn; rewrite (c_mode _ _ Ha); symmetry; exact (r_mode _ _ _ R1)).
  change (xyzModem_ymodem =? xyzModem_ymodem) with true. cbn iota.
  destruct (xyzModem_get_hdr (ask (putc ACK (putc ACK (set_input l (acked s1)))))) as [st2 s2]. eauto.
Qed.

(** ** Reading the stream *)

(** The blocks carry the file, the last one padded. *)
Inductive covers : list Z -> list block -> Prop :=
| covers_end : covers [] []
| covers_last b f pad : b_data b = f ++ pad -> covers f [b]
| covers_more b f bs : covers f bs -> covers (b_data b ++ f) (b :: bs).

Fixpoint stream_line (nb : Z) (bs : list block) (ms : list miss) (rest : list (option Z)) : list (option Z) :=
  match bs with
  | [] => missed nb ms ++ Some EOT :: rest
  | b :: bs => block_line nb b ++ stream_line (next nb) bs ms rest
  end.

Definition pending (s : xyz) : list Z := take (Z.to_nat (len (buf s))) (drop (Z.to_nat (bufp (buf s))) (pkt (buf s))).

Section reading.
Context (fl : Z) (Hfl : 0 < fl < 2147483648) (ms : list miss) (Hms : Forall miss_ok ms)
  (Hlen : (List.length ms < xyzModem_MAX_RETRIES)%nat) (rest : list (option Z)).

Record streaming (f : list Z) (bs : list block) (s : xyz) : Prop := Streaming {
  st_ready : ready (next_blk (cnt s)) fl s; st_u8 : is_u8 (next_blk (cnt s));
  st_line : input s = stream_line (next_blk (cnt s)) bs ms rest;
  st_covers : covers f bs; st_ok : Forall block_ok bs;
  st_read : bs <> [] -> read_length (cnt s) + zlen f = fl /\ 0 <= read_length (cnt s);
  st_bufp : 0 <= bufp (buf s); st_pending : zlen (pending s) = len (buf s)
}.

Definition copied (n : Z) (s : xyz) : xyz := set_buf (Buffer (pkt (buf s)) (bufp (buf s) + n) (len (buf s) - n)) s.

Lemma copied_streaming f bs s n : streaming f bs s -> 0 <= n <= len (buf s) ->
  streaming f bs (copied n s) /\ pending (copied n s) = drop (Z.to_nat n) (pending s).
Proof.
  intros Hs Hn. assert (E : pending (copied n s) = drop (Z.to_nat n) (pending s)).
  { unfold pending, copied. cbn. pose proof (st_bufp _ _ _ Hs). rewrite skipn_firstn_comm, drop_drop. f_equal; [lia|]. f_equal. lia. }
  split; [|exact E]. pose proof (st_pending _ _ _ Hs) as Hp. destruct Hs. constructor; cbn; try assumption; try lia.
  - destruct st_ready0. constructor; assumption.
  - rewrite E. unfold zlen in *. rewrite length_drop. cbn. lia.
Qed.

(** What a read of [size] bytes does from a state with [l] bytes to come. *)
Definition reads_from (fuel : nat) (size : Z) (total : list Z) (err : Z) (s : xyz) (l : list Z) : Prop :=
  exists out l' err' s', read_loop fuel size total err s = Some (total ++ out, err', s') /\ l = out ++ l' /\
    ((zlen out = size /\ exists f bs, streaming f bs s' /\ l' = pending s' ++ f) \/
     (l' = [] /\ zlen out < size /\ at_eof (flag s') = true)).

Lemma reads_from_app fuel size total err s d l : 0 <= size ->
  reads_from fuel (size - zlen d) (total ++ d) err s l ->
  exists out l' err' s', read_loop fuel (size - zlen d) (total ++ d) err s = Some (total ++ out, err', s') /\ d ++ l = out ++ l' /\
    ((zlen out = size /\ exists f bs, streaming f bs s' /\ l' = pending s' ++ f) \/
     (l' = [] /\ zlen out < size /\ at_eof (flag s') = true)).
Proof.
  intros H0 (out & l' & err' & s' & E & -> & Hc). exists (d ++ out), l', err', s'. rewrite !app_assoc. split; [rewrite E, <- app_assoc; reflexivity|].
  split; [reflexivity|]. rewrite zlen_app. destruct Hc as [[Hz Hc]|(Hl & Hz & Hc)]; [left|right]; (split; [|]); auto; try lia.
  split; [lia|exact Hc].
Qed.

(** The copy at the end of a round. *)
Lemma read_copy fuel size total err s f bs :
  streaming f bs s -> 0 < size -> (1 <= fuel)%nat ->
  (len (buf s) < size -> forall d s1, d = pending s -> streaming f bs s1 -> pending s1 = [] -> len (buf s1) = 0 ->
     reads_from fuel (size - zlen d) (total ++ d) err s1 f) ->
  let n := if size <? len (buf s) then size else len (buf s) in
  exists out l' err' s', read_loop fuel (size - n) (total ++ take (Z.to_nat n) (drop (Z.to_nat (bufp (buf s))) (pkt (buf s)))) err (copied n s)
      = Some (total ++ out, err', s') /\ pending s ++ f = out ++ l' /\
    ((zlen out = size /\ exists f bs, streaming f bs s' /\ l' = pending s' ++ f) \/
     (l' = [] /\ zlen out < size /\ at_eof (flag s') = true)).
Proof.
  intros Hs H0 Hf IH n. pose proof (st_pending _ _ _ Hs) as Hp. zlen_simpl.
  assert (Hn : 0 <= n <= len (buf s)) by (unfold n; case_z; lia).
  destruct (copied_streaming f bs s n Hs Hn) as [Hs1 Hp1].
  assert (Ed : take (Z.to_nat n) (drop (Z.to_nat (bufp (buf s))) (pkt (buf s))) = take (Z.to_nat n) (pending s))
    by (unfold pending; rewrite take_take; f_equal; lia).
  rewrite Ed. destruct (Z.ltb_spec size (len (buf s))) as [Hlt|Hge]; [|destruct (decide (len (buf s) = size)) as [Heq|Hne]].
  1,2: assert (n = size) as -> by (unfold n; case_z; lia); exists (take (Z.to_nat size) (pending s)), (drop (Z.to_nat size) (pending s) ++ f), err, (copied size s);
    (split; [destruct fuel as [|fuel]; [lia|]; cbn [read_loop]; rewrite Z.sub_diag, orb_true_r; reflexivity|]);
    (split; [rewrite app_assoc, take_drop; reflexivity|]); left;
    (split; [unfold zlen in *; rewrite length_take; lia|]); exists f, bs; rewrite Hp1; auto.
  assert (En : n = len (buf s)) by (unfold n; case_z; lia).
  assert (Et : take (Z.to_nat n) (pending s) = pending s) by (apply take_ge; unfold zlen in *; lia). rewrite Et.
  replace (size - n) with (size - zlen (pending s)) by lia. apply reads_from_app; [lia|].
  apply IH; [lia|reflexivity|exact Hs1| |cbn; lia]. rewrite Hp1. apply drop_ge. unfold zlen in *. lia.
Qed.

Lemma covers_split b bs f : covers f (b :: bs) -> exists f1 f2, f = f1 ++ f2 /\ covers f2 bs /\
  zlen f1 = Z.min (zlen (b_data b)) (zlen f) /\ (exists tail, b_data b = f1 ++ tail) /\ (bs <> [] -> f1 = b_data b).
Proof.
  intros H. inversion H as [|? ? pad E|? f2 ? Hc]; subst.
  - exists f, []. rewrite app_nil_r. split; [reflexivity|]. split; [constructor|]. rewrite E. zlen_simpl.
    split; [lia|]. split; [eauto|congruence].
  - exists (b_data b), f2. split; [reflexivity|]. split; [exact Hc|]. zlen_simpl. split; [lia|]. split; [exists []; rewrite app_nil_r; reflexivity|auto].
Qed.

Lemma read_empty bs : forall f s fuel size total err, streaming f bs s -> len (buf s) = 0 -> 0 < size ->
  (List.length bs + 2 <= fuel)%nat -> reads_from fuel size total err s f.
Proof.
  induction bs as [|b bs IH]; intros f s fuel size total err Hs H0 Hsz Hfuel; unfold reads_from;
    (destruct fuel as [|fuel]; [cbn in Hfuel; lia|]); cbn [read_loop];
    rewrite (r_eof _ _ _ (st_ready _ _ _ Hs)), (proj2 (Z.leb_gt size 0) Hsz), H0; cbn [orb]; change (0 =? 0) with true; cbn iota.
  - destruct (fetch_eof (next_blk (cnt s)) fl ms s rest xyzModem_cancel (st_ready _ _ _ Hs) (st_u8 _ _ _ Hs) Hms Hlen (st_line _ _ _ Hs))
      as (st & s1 & -> & Heof). inversion_clear Hs. inversion st_covers0; subst.
    exists [], []. rewrite app_nil_r. change (zlen (@nil Z)) with 0. destruct (st <? 0); [do 2 eexists; split; [reflexivity|]; auto 10|].
    rewrite Heof. destruct fuel as [|fuel]; [cbn in Hfuel; lia|]. cbn [read_loop]. rewrite Heof. cbn [orb].
    do 2 eexists. split; [reflexivity|]. auto 10.
  - destruct (st_read _ _ _ Hs ltac:(discriminate)) as [Hrl Hrl0]. pose proof (st_ok _ _ _ Hs) as Hok.
    inversion Hok as [|? ? Hb Hbs]; subst. zlen_simpl.
    destruct (fetch_block (next_blk (cnt s)) fl b s (stream_line (next (next_blk (cnt s))) bs ms rest) xyzModem_cancel
                (st_ready _ _ _ Hs) (st_u8 _ _ _ Hs) Hb (st_line _ _ _ Hs)) as (s1 & tail & E & R1 & L1 & N1 & U1); [lia|exact Hfl|].
    destruct (covers_split b bs f (st_covers _ _ _ Hs)) as (f1 & f2 & -> & Hc & Hz1 & [t1 Ht1] & Hmore). rewrite zlen_app in Hrl, Hz1.
    assert (0 <= zlen f1 /\ 0 <= zlen f2 /\ 0 <= zlen (b_data b)) as (? & ? & ?) by (unfold zlen; lia).
    assert (Hs1 : streaming f2 bs s1 /\ pending s1 = f1).
    { assert (Ep : pending s1 = f1).
      { unfold pending. rewrite U1. cbn [len bufp pkt]. change (Z.to_nat 0) with 0%nat. rewrite drop_0, Ht1, <- app_assoc.
        rewrite <- Ht1. replace (Z.to_nat (Z.min (zlen (b_data b)) (fl - read_length (cnt s)))) with (List.length f1)
          by (replace (fl - read_length (cnt s)) with (zlen f1 + zlen f2) by lia; rewrite <- Hz1; unfold zlen; lia).
        apply take_app_length. }
      split; [|exact Ep]. pose proof (r_next _ _ _ R1) as En.
      constructor; rewrite ?En; auto using next_u8; rewrite ?U1; cbn [bufp len]; try lia.
      - intros Hne. rewrite N1, <- (Hmore Hne). zlen_simpl. lia.
      - rewrite Ep. lia. }
    destruct Hs1 as [Hs1 Ep]. rewrite E. change (0 <? 0) with false. cbn iota. rewrite (r_eof _ _ _ R1).
    assert (Hl1 : 0 <= len (buf s1)) by (rewrite U1; cbn; lia).
    assert (Hn : ((if size <? len (buf s1) then size else len (buf s1)) <? 0) = false) by (apply Z.ltb_ge; case_z; lia).
    rewrite Hn. rewrite <- Ep. apply read_copy with (bs := bs); [exact Hs1|exact Hsz|cbn in Hfuel; lia|].
    intros Hlt d s2 -> Hs2 _ Hl2. apply IH; [exact Hs2|exact Hl2| |cbn in Hfuel; lia].
    rewrite (st_pending _ _ _ Hs1). lia.
Qed.

Lemma stream_line_length bs : forall nb, (List.length bs + 1 <= List.length (stream_line nb bs ms rest))%nat.
Proof.
  induction bs as [|b bs IH]; intros nb; cbn [stream_line List.length]; rewrite length_app; [cbn; lia|].
  specialize (IH (next nb)). unfold block_line, block_seg, said. rewrite length_app, length_map, length_app. cbn. lia.
Qed.

(** One read returns the next [size] bytes of the file, or what is left of it. *)
Lemma stream_read_spec f bs s size err : streaming f bs s -> 0 < size ->
  exists out l' err' s', xyzModem_stream_read size err s = Some (out, err', s') /\ pending s ++ f = out ++ l' /\
    ((zlen out = size /\ exists f bs, streaming f bs s' /\ l' = pending s' ++ f) \/
     (l' = [] /\ zlen out < size /\ at_eof (flag s') = true)).
Proof.
  intros Hs Hsz. unfold xyzModem_stream_read. pose proof (stream_line_length bs (next_blk (cnt s))) as Hl. rewrite <- (st_line _ _ _ Hs) in Hl.
  destruct (decide (len (buf s) = 0)) as [H0|Hne].
  - assert (pending s = []) as ->.
    { pose proof (st_pending _ _ _ Hs) as Hp. rewrite H0 in Hp. destruct (pending s); [reflexivity|rewrite zlen_cons in Hp; zlen_simpl; lia]. }
    apply (read_empty bs f s _ size [] err Hs H0 Hsz). lia.
  - remember (S (List.length (input s))) as fuel eqn:Ef. cbn [read_loop].
    rewrite (r_eof _ _ _ (st_ready _ _ _ Hs)), (proj2 (Z.leb_gt size 0) Hsz), (proj2 (Z.eqb_neq _ _) Hne).
    cbn [orb]. change (0 <? 0) with false. cbn iota. rewrite (r_eof _ _ _ (st_ready _ _ _ Hs)).
    pose proof (st_pending _ _ _ Hs) as Hp. zlen_simpl.
    assert (Hn : ((if size <? len (buf s) then size else len (buf s)) <? 0) = false) by (apply Z.ltb_ge; case_z; lia).
    rewrite Hn. apply (read_copy _ size [] err s f bs Hs Hsz); [lia|].
    intros Hlt d s1 -> Hs1 _ Hl1. apply (read_empty bs f s1 _ _ _ _ Hs1 Hl1); [lia|lia].
Qed.
End reading.

(** ** The header of the file *)

Definition decimal (ds : list Z) : Z := fold_left (fun a c => a * 10 + (c - chr "0")) ds 0.
(** A name, NUL, the length, a blank or NUL, anything. *)
Definition header_ok (n : Z) (d : list Z) : Prop := exists name ds c pad,
  d = name ++ 0 :: ds ++ c :: pad /\ Forall (fun c => c <> 0) name /\ ds <> [] /\ Forall (fun c => 48 <= c <= 57) ds /\
  (c = 0 \/ c = chr " ") /\ decimal ds = n.

Lemma skip_name_spec name l : forall p, Forall (fun c => c <> 0) name -> skip_name (name ++ 0 :: l) p = Some (p + zlen name + 1).
Proof.
  induction name as [|c name IH]; intros p Hn; cbn [app skip_name]; [change (zlen (@nil Z)) with 0; rewrite Z.eqb_refl; f_equal; lia|].
  inversion Hn as [|? ? Hc Hn']; subst. rewrite (proj2 (Z.eqb_neq _ _) Hc), IH, zlen_cons by assumption. f_equal. lia.
Qed.

Lemma digit_facts c : 48 <= c <= 57 -> (c =? 0) = false /\ _is_hex c = true /\ _from_hex c = c - 48 /\ (c =? 32) = false /\ _tolower c = c.
Proof.
  intros Hc. unfold _is_hex, _from_hex, _tolower. cbn -[Z.sub].
  repeat match goal with |- context [?a <=? c] => destruct (Z.leb_spec a c) | |- context [c <=? ?a] => destruct (Z.leb_spec c a) end; try lia.
  all: cbn; rewrite ?(proj2 (Z.eqb_neq _ _)) by lia; auto.
Qed.

Lemma parse_digits_spec ds c l : forall a, Forall (fun c => 48 <= c <= 57) ds -> (c = 0 \/ c = chr " ") ->
  parse_digits 10 (ds ++ c :: l) (u32 a) = Some (Some (u32 (fold_left (fun a c => a * 10 + (c - chr "0")) ds a))).
Proof.
  induction ds as [|d ds IH]; intros a Hd Hc; cbn [app parse_digits fold_left].
  - destruct Hc as [-> | ->]; reflexivity.
  - inversion Hd as [|? ? H1 H2]; subst. destruct (digit_facts d H1) as (E0 & Eh & Ev & _ & _). rewrite E0, Eh, Ev.
    rewrite (proj2 (Z.ltb_lt (d - 48) 10)) by lia. cbn [andb]. change (chr "0") with 48.
    replace (u32 (u32 a * 10 + (d - 48))) with (u32 (a * 10 + (d - 48))).
    + apply IH; assumption.
    + unfold u32, wrap. rewrite Zplus_mod, (Zplus_mod (a mod _ * 10)), Zmult_mod_idemp_l. reflexivity.
Qed.

Lemma parse_num_spec ds c l : ds <> [] -> Forall (fun c => 48 <= c <= 57) ds -> (c = 0 \/ c = chr " ") -> decimal ds < 2 ^ 32 ->
  parse_num (ds ++ c :: l) = Some (Some (decimal ds)).
Proof.
  intros Hne Hd Hc Hn. destruct ds as [|d ds]; [congruence|].
  assert (Hv : forall ds a, 0 <= a -> Forall (fun c => 48 <= c <= 57) ds -> 0 <= fold_left (fun a c => a * 10 + (c - chr "0")) ds a).
  { induction ds0 as [|x xs IH]; intros a Ha Hx; [exact Ha|]. inversion Hx as [|? ? Hx1 Hx2]; subst. cbn [fold_left]. apply IH; [cbn; lia|exact Hx2]. }
  assert (E := parse_digits_spec (d :: ds) c l 0 Hd Hc). change (u32 0) with 0 in E. fold (decimal (d :: ds)) in E.
  rewrite u32_small in E by (split; [apply Hv; [lia|exact Hd]|exact Hn]).
  inversion Hd as [|? ? H1 H2]; subst. destruct (digit_facts d H1) as (_ & _ & _ & Eb & _).
  unfold parse_num. cbn [app skip_blanks] in *. change (chr " ") with 32. rewrite Eb.
  destruct (ds ++ c :: l) as [|c1 l'] eqn:El; [exact E|].
  assert (Hc1 : (_tolower c1 =? chr "x") = false).
  { destruct ds as [|d1 ds]; injection El as E1 _; subst c1; [destruct Hc as [-> | ->]; reflexivity|].
    inversion H2 as [|? ? H3 _]; subst. destruct (digit_facts d1 H3) as (_ & _ & _ & _ & ->). apply Z.eqb_neq. cbn. lia. }
  rewrite Hc1, andb_false_r. exact E.
Qed.

(** ** A whole transfer *)

Record header := Header { h_fails : list (list (option Z)); h_noise : list Z; h_start : Z; h_data : list Z }.
Definition header_line (h : header) : list (option Z) := concat (h_fails h) ++ block_seg (h_noise h) (h_start h) 0 (h_data h).
Definition header_sent (n : Z) (h : header) : Prop :=
  Forall fails (h_fails h) /\ Z.of_nat (List.length (h_fails h)) < xyzModem_MAX_RETRIES_WITH_CRC /\
  noise_ok (h_noise h) /\ start_ok (h_start h) /\ zlen (h_data h) = block_size (h_start h) /\ header_ok n (h_data h).

Lemma open_fails gs : forall s l retries crc stat, Forall fails gs -> Z.of_nat (List.length gs) < crc ->
  crc_mode (flag s) = true -> List.length (pkt (buf s)) = 1024%nat -> input s = concat gs ++ l ->
  exists stat' crc' s', open_loop (List.length gs + retries) crc stat s = open_loop retries crc' stat' s' /\ core s s' /\ input s' = l.
Proof.
  induction gs as [|g gs IH]; intros s l retries crc stat Hg Hcr Hc Hp Hl; [exists stat, crc, s; auto using core_refl|].
  inversion Hg as [|? ? Hg1 Hg2]; subst. cbn [concat] in Hl. rewrite <- app_assoc in Hl.
  destruct (get_hdr_fails g s _ Hg1 Hl Hc Hp) as (st & s1 & E & Hst & L & C & _). cbn [List.length Nat.add open_loop]. rewrite E.
  assert (Hs1 : crc_mode (flag s1) = true /\ List.length (pkt (buf s1)) = 1024%nat) by (rewrite (c_crc _ _ C), (c_pkt _ _ C); auto).
  cbn [List.length] in Hcr. destruct Hst as [->|[-> | ->]].
  - change (xyzModem_timeout =? 0) with false. change (xyzModem_timeout =? xyzModem_timeout) with true. cbn iota.
    rewrite (proj2 (Z.leb_gt (crc - 1) 0)) by lia.
    destruct (IH (ask s1) l retries (crc - 1) xyzModem_timeout Hg2) as (st' & crc' & s' & E' & C' & L'); [lia|apply Hs1|apply Hs1|exact L|].
    exists st', crc', s'. split; [exact E'|]. split; [|exact L']. eapply core_trans; [exact C|]. destruct C'. constructor; assumption.
  - change (xyzModem_frame =? 0) with false. change (xyzModem_frame =? xyzModem_timeout) with false. change (xyzModem_frame =? xyzModem_cancel) with false. cbn iota.
    destruct (IH s1 l retries crc xyzModem_frame Hg2) as (st' & crc' & s' & E' & C' & L'); [lia|apply Hs1|apply Hs1|exact L|].
    exists st', crc', s'. split; [exact E'|]. split; [eapply core_trans; eassumption|exact L'].
  - change (xyzModem_cksum =? 0) with false. change (xyzModem_cksum =? xyzModem_timeout) with false. change (xyzModem_cksum =? xyzModem_cancel) with false. cbn iota.
    destruct (IH s1 l retries crc xyzModem_cksum Hg2) as (st' & crc' & s' & E' & C' & L'); [lia|apply Hs1|apply Hs1|exact L|].
    exists st', crc', s'. split; [exact E'|]. split; [eapply core_trans; eassumption|exact L'].
Qed.

Lemma file_header_spec n d tail z s : header_ok n d -> 0 <= n < 2147483648 -> blk (cnt s) = 0 -> buf s = Buffer (d ++ tail) 0 z ->
  exists p, 0 <= p /\ file_header s = Some (set_tx_ack true (set_file_length n (set_bufp p s))).
Proof.
  intros (name & ds & c & pad & -> & Hname & Hne & Hds & Hc & Hv) Hrange Hb Hu. exists (0 + zlen name + 1). zlen_simpl. split; [lia|].
  unfold file_header. rewrite Hb, Hu. change (0 =? 0) with true. cbn iota. cbn [bufp pkt]. change (Z.to_nat 0) with 0%nat.
  replace ((name ++ 0 :: ds ++ c :: pad) ++ tail) with ((name ++ [0]) ++ ds ++ c :: pad ++ tail)
    by (rewrite <- !app_assoc; cbn [app]; rewrite <- app_assoc; reflexivity).
  rewrite drop_0, <- app_assoc at 1. cbn [app]. rewrite skip_name_spec by exact Hname. cbn [mbind option_bind].
  replace (Z.to_nat (0 + zlen name + 1)) with (List.length (name ++ [0])) by (rewrite length_app; unfold zlen; cbn; lia).
  rewrite drop_app_length, parse_num_spec by (auto; lia). cbn [mbind option_bind]. rewrite Hv. reflexivity.
Qed.

Lemma open_spec n h s l : header_sent n h -> 0 <= n < 2147483648 -> List.length (pkt (buf s)) = 1024%nat -> input s = header_line h ++ l ->
  exists s', xyzModem_stream_open xyzModem_ymodem s = Some (0, 0, s') /\ ready 1 n s' /\ input s' = l /\
    read_length (cnt s') = 0 /\ len (buf s') = 0 /\ 0 <= bufp (buf s').
Proof.
  intros (Hf & Hn & Hno & Hst & Hd & Hh) Hrange Hp Hl.
  unfold xyzModem_stream_open. change (xyzModem_ymodem =? xyzModem_xmodem) with false. cbn iota.
  set (s0 := ask _). unfold header_line in Hl. rewrite <- app_assoc in Hl.
  destruct (open_fails (h_fails h) s0 _ (xyzModem_MAX_RETRIES - List.length (h_fails h)) xyzModem_MAX_RETRIES_WITH_CRC 0 Hf Hn eq_refl Hp Hl)
    as (st & crc & s1 & E1 & C1 & L1).
  unfold xyzModem_MAX_RETRIES_WITH_CRC in Hn. rewrite Nat.add_comm, Nat.sub_add in E1 by (unfold xyzModem_MAX_RETRIES; lia). rewrite E1.
  destruct (xyzModem_MAX_RETRIES - List.length (h_fails h))%nat as [|retries] eqn:Er; [unfold xyzModem_MAX_RETRIES in Er; lia|].
  cbn [open_loop]. assert (Hs1 : crc_mode (flag s1) = true /\ List.length (pkt (buf s1)) = 1024%nat).
  { rewrite (c_crc _ _ C1), (c_pkt _ _ C1). auto. }
  destruct (get_hdr_block _ _ 0 _ s1 l Hno Hst ltac:(unfold in_word; lia) Hd L1 (proj1 Hs1) (proj2 Hs1)) as (s2 & -> & L2 & C2 & _ & B2 & U2).
  change (0 =? 0) with true. cbn iota.
  destruct (file_header_spec n _ _ _ s2 Hh Hrange B2 U2) as (q & Hq & ->). cbn [mbind option_bind]. eexists. split; [reflexivity|].
  pose proof (core_trans _ _ _ C1 C2) as [Cm Cc Ce Cn Cf Cr Cp]. split; [constructor; cbn; auto|].
  - rewrite U2. cbn [pkt]. rewrite pkt_kept; [apply Hs1|]. destruct (block_size_nat _ _ Hd). destruct Hs1 as [_ ->]. lia.
  - split; [exact L2|]. split; [exact Cr|]. split; [reflexivity|]. cbn. lia.
Qed.

Lemma vsprintf_X v : vsprintf (str "%X") [Aint v] =
  let out := [] ++ number (u32 v) 16 (-1) (-1) 0 in Some (out, zlen out).
Proof. reflexivity. Qed.

Section loop.
Context (fl : Z) (Hfl : 0 < fl < 2147483648) (ms : list miss) (Hms : Forall miss_ok ms)
  (Hlen : (List.length ms < xyzModem_MAX_RETRIES)%nat) (rest : list (option Z)).

Lemma read_at_eof size err s : at_eof (flag s) = true -> xyzModem_stream_read size err s = Some ([], err, s).
Proof. intros H. unfold xyzModem_stream_read. cbn [read_loop]. rewrite H. reflexivity. Qed.

Abbreviation memory := (mem * list Z)%type.

Lemma loop_spec fuel : forall f bs offset addr size err s m v, streaming fl ms rest f bs s ->
  0 <= offset -> 0 <= addr -> offset + addr + zlen (pending s ++ f) < 2 ^ 32 ->
  zlen (pending s ++ f) / 1024 + 2 <= Z.of_nat fuel ->
  exists s', ymodem_loop (T := memory) fuel offset addr size err s (m, v) =
    Some (Some (size + zlen (pending s ++ f)), s', (put_bytes m (offset + addr) (pending s ++ f), v)).
Proof.
  induction fuel as [|fuel IH]; intros f bs offset addr size err s m v Hs Ho Ha Hr Hf; [zlen_simpl; Z.div_mod_to_equations; lia|].
  destruct (stream_read_spec fl Hfl ms Hms Hlen rest f bs s 1024 err Hs ltac:(lia)) as (out & l' & err' & s1 & E & El & Hc).
  cbn [ymodem_loop]. rewrite E. cbn [mbind option_bind]. rewrite El in *. rewrite zlen_app in *. zlen_simpl.
  destruct Hc as [[Hz (f' & bs' & Hs1 & ->)]|(-> & Hz & Heof)].
  - rewrite (proj2 (Z.leb_gt (zlen out) 0)) by lia. cbn [is_flash ram_target ram_store negb]. change (0 =? 0) with true. cbn [negb].
    rewrite !u32_small by lia.
    destruct (IH f' bs' offset (addr + zlen out) (size + zlen out) err' s1 (put_bytes m (addr + offset) out) v Hs1) as [s' E'];
      [lia|lia|lia|Z.div_mod_to_equations; lia|].
    exists s'. cbn [fst snd]. rewrite E', (put_bytes_app m (offset + addr) out), (Z.add_comm addr offset), Z.add_assoc, Z.add_assoc. reflexivity.
  - rewrite app_nil_r. change (zlen (@nil Z)) with 0 in *. rewrite Z.add_0_r in *. destruct (Z.leb_spec (zlen out) 0) as [Hz0|Hz0].
    + destruct out; [|rewrite zlen_cons in Hz0; zlen_simpl; lia]. exists s1. change (zlen (@nil Z)) with 0. rewrite Z.add_0_r. reflexivity.
    + cbn [is_flash ram_target ram_store negb]. change (0 =? 0) with true. cbn [negb]. rewrite !u32_small by lia.
      destruct fuel as [|fuel]; [Z.div_mod_to_equations; lia|]. cbn [ymodem_loop]. rewrite (read_at_eof 1024 err' s1 Heof).
      cbn [mbind option_bind]. change (zlen (@nil Z) <=? 0) with true. cbn iota. exists s1. cbn [fst snd].
      rewrite (Z.add_comm addr offset). reflexivity.
Qed.
End loop.

Lemma covers_length f bs : covers f bs -> Forall block_ok bs -> zlen f <= 1024 * Z.of_nat (List.length bs).
Proof.
  assert (Hb : forall b, block_ok b -> zlen (b_data b) <= 1024).
  { intros b (_ & _ & _ & _ & Hd). destruct (block_size_nat _ _ Hd). unfold zlen. lia. }
  induction 1 as [|b f pad E|b f bs Hc IH]; intros Hok; [unfold zlen; cbn; lia| |]; inversion Hok as [|? ? H1 H2]; subst; specialize (Hb b H1).
  - rewrite E in Hb. zlen_simpl. cbn [List.length]. lia.
  - specialize (IH H2). zlen_simpl. cbn [List.length]. lia.
Qed.

(** C17: A Y-modem download delivers the file. Whatever silences, blocks cut short, framing errors,
    wrong CRCs and repeated blocks come before a good one (fewer than ten
    before the header, than twenty before a block), in blocks of 128 or 1024 bytes: memory
    at the offset holds the file, cut to the length in the header, and nothing else
    changes; filesize is set to the length. *)
Theorem ymodem_download offset file h bs ms rest s m v late :
  header_sent (zlen file) h -> covers file bs -> Forall block_ok bs ->
  Forall miss_ok ms -> (List.length ms < xyzModem_MAX_RETRIES)%nat ->
  input s = header_line h ++ stream_line 1 bs ms rest -> List.length (pkt (buf s)) = 1024%nat ->
  file <> [] -> zlen file < 2147483648 -> 0 <= offset -> offset + zlen file < 2 ^ 32 ->
  exists s', load_serial_ymodem late offset s (m, v) =
    Some (offset, s', (put_bytes m offset file, number (zlen file) 16 (-1) (-1) 0)).
Proof.
  intros Hh Hc Hok Hms Hlen Hl Hp Hne Hz Ho Hr.
  assert (Hfl : 0 < zlen file < 2147483648) by (destruct file; [congruence|rewrite zlen_cons in *; zlen_simpl; lia]).
  destruct (open_spec (zlen file) h s _ Hh ltac:(lia) Hp Hl) as (s1 & E1 & R1 & L1 & N1 & Z1 & P1).
  assert (Ep : pending s1 = []) by (unfold pending; rewrite Z1; reflexivity).
  assert (Hs1 : streaming (zlen file) ms rest file bs s1).
  { pose proof (r_next _ _ _ R1) as En. constructor; rewrite ?En; auto.
    - unfold in_word; lia.
    - intros _. rewrite N1. lia.
    - rewrite Ep, Z1. reflexivity. }
  destruct (loop_spec (zlen file) Hfl ms Hms Hlen rest (S (S (List.length (input s1)))) file bs offset 0 0 0 s1 m v Hs1 Ho ltac:(lia))
    as [s' E']; rewrite ?Ep in *; cbn [app] in *; [lia| |].
  { pose proof (covers_length file bs Hc Hok) as Hcl. pose proof (stream_line_length ms Hlen rest bs 1) as Hsl. rewrite <- L1 in Hsl.
    Z.div_mod_to_equations. lia. }
  exists (set_input (gather late (input s')) s'). unfold load_serial_ymodem. rewrite E1. cbn [mbind option_bind].
  change (0 =? 0) with true. cbn iota. rewrite E'. cbn [mbind option_bind]. rewrite vsprintf_X. cbn [mbind option_bind app set_filesize ram_target fst snd].
  rewrite Z.add_0_r, Z.add_0_l, u32_small by lia. reflexivity.
Qed.

(** ** A transfer over a bad line *)

#[export] Instance noise_ok_dec n : Decision (noise_ok n).
Proof. unfold noise_ok. apply _. Defined.
#[export] Instance start_ok_dec c : Decision (start_ok c).
Proof. unfold start_ok. apply _. Defined.

Definition padded (l : list Z) : list Z := take 128 (l ++ replicate 128 EOF).
Definition ex_yfile : list Z := map Z.of_nat (List.seq 1 130).
Definition ex_header : header := Header [said [0x55] ++ [None] ++ said [] ++ [None]] [] SOH (take 128 (str "vmlinux" ++ [0] ++ str "130 " ++ replicate 128 0)).
Definition ex_block1 : block := Block [Again [] SOH (take 128 ex_yfile)] [] SOH (take 128 ex_yfile).
Definition ex_bad : list (option Z) := said ([] ++ SOH :: 2 :: 0xFD :: take 128 ex_yfile ++ [0; 0]).
Definition ex_block2 : block := Block [Failed ex_bad] [0x7f] SOH (padded (drop 128 ex_yfile)).
Definition ex_xyz (l : list (option Z)) : xyz := Xyz l [] 0 (Buffer (replicate 1024 0) 0 0) (Flags false false false) (Counts 0 0 0 0).

Lemma ex_header_text : bool_decide (h_data ex_header = str "vmlinux" ++ 0 :: str "130" ++ chr " " :: replicate 116 0) = true.
Proof. vm_compute. reflexivity. Qed.
Lemma ex_header_sent : header_sent 130 ex_header.
Proof.
  split; [|split; [reflexivity|split; [|split; [|split; [reflexivity|]]]]].
  - constructor; [|constructor]. apply (fails_silent [0x55] []). apply (bool_decide_eq_true_1 _). reflexivity.
  - apply (bool_decide_eq_true_1 _). reflexivity.
  - apply (bool_decide_eq_true_1 _). reflexivity.
  - exists (str "vmlinux"), (str "130"), (chr " "), (replicate 116 0). split; [exact (bool_decide_eq_true_1 _ ex_header_text)|].
    repeat split; try (apply (bool_decide_eq_true_1 _); reflexivity); auto.
Qed.
Lemma ex_bad_fails : fails ex_bad.
Proof.
  apply (fails_sum [] SOH 2 0xFD (take 128 ex_yfile) [0; 0]); try reflexivity; try (apply (bool_decide_eq_true_1 _); reflexivity).
Qed.
Lemma ex_blocks_ok : Forall block_ok [ex_block1; ex_block2].
Proof.
  repeat constructor; try exact ex_bad_fails; try (apply (bool_decide_eq_true_1 _); reflexivity); try (cbn; lia).
Qed.

Lemma ymodem_download_witness : exists s',
  load_serial_ymodem 0 0x1000000 (ex_xyz (header_line ex_header ++ stream_line 1 [ex_block1; ex_block2] [] [])) (fun _ => 0, []) =
    Some (0x1000000, s', (put_bytes (fun _ => 0) 0x1000000 ex_yfile, str "82")).
Proof.
  destruct (ymodem_download 0x1000000 ex_yfile ex_header [ex_block1; ex_block2] [] []
    (ex_xyz (header_line ex_header ++ stream_line 1 [ex_block1; ex_block2] [] [])) (fun _ => 0) [] 0) as [s' E].
  - exact ex_header_sent.
  - apply (covers_more ex_block1 (drop 128 ex_yfile) [ex_block2]). apply (covers_last ex_block2 _ (replicate 126 EOF)). reflexivity.
  - exact ex_blocks_ok.
  - constructor.
  - vm_compute. lia.
  - reflexivity.
  - reflexivity.
  - discriminate.
  - reflexivity.
  - lia.
  - reflexivity.
  - exists s'. exact E.
Defined.

(** The sender falls silent behind a block that does not fill the caller's buffer: the
    read returns the block and leaves the length -1; the next read copies
    that many bytes. *)
Definition ex_silent : option (list Z * Z * xyz) :=
  '(_, _, s) ← xyzModem_stream_open xyzModem_ymodem (ex_xyz (header_line ex_header ++ block_line 1 ex_block1));
  xyzModem_stream_read 1024 0 s.
Example silence_leaves_length :
  match ex_silent with
  | Some (bytes, err, s) => bytes = take 128 ex_yfile /\ err = xyzModem_timeout /\ len (buf s) = -1 /\
      xyzModem_stream_read 1024 err s = None
  | None => False
  end.
Proof. vm_compute. auto. Qed.

(** ** The commands *)

Section commands.
Context {T : Type} `{LoadTarget T} (get_mem : T -> mem) (put_mem : mem -> T -> T) (late : nat) (loadaddr : option (list Z)) (current : Z).

(** loadb without a baud rate: what the receiver stored is in the memory of the
    target, filesize and load_addr are set; an offset of ~0 counts as an abort. *)
Lemma loadb_result argv l size k : (List.length argv <= 2)%nat -> argv !! 0%nat = Some (str "loadb") ->
  let offset := bin_offset loadaddr argv in
  k_recv offset (set_line (omap id (l_line l)) (set_data (Sink (now (data (l_kermit l))) (saved (data (l_kermit l))) (get_mem (target l))) (l_kermit l)))
    = Some (Some size, k) ->
  do_load_serial_bin get_mem put_mem late loadaddr current argv l =
    Some (if offset =? 0xffffffff then 1 else 0,
      Loader (gather (Nat.min late 100) (map Some (line k))) k (l_xyz l)
        (set_filesize (number (u32 size) 16 (-1) (-1) 0) (put_mem (ram (data k)) (target l))) (baudrates l)
        (if offset =? 0xffffffff then 0 else offset)).
Proof.
  intros Hl Hn offset E. unfold do_load_serial_bin, load_serial_bin. fold offset. rewrite Hn.
  assert (Eb : bin_baudrate argv current = current) by (destruct argv as [|? [|? [|? [|]]]]; try reflexivity; cbn in Hl; lia).
  rewrite Eb, Z.eqb_refl. cbn [mbind option_bind]. change (bool_decide (Some (str "loadb") = Some (str "loady"))) with false. cbn iota.
  rewrite E. cbn [mbind option_bind]. rewrite vsprintf_X. cbn [mbind option_bind app]. case_match; reflexivity.
Qed.

(** loady: the command reports success whatever became of the transfer. *)
Lemma loady_result argv l : argv !! 0%nat = Some (str "loady") -> bin_baudrate argv current = current ->
  do_load_serial_bin get_mem put_mem late loadaddr current argv l =
    match load_serial_ymodem late (bin_offset loadaddr argv) (set_input (l_line l) (l_xyz l)) (target l) with
    | Some (_, s, t) => Some (0, Loader (input s) (l_kermit l) s t (baudrates l) (load_addr l))
    | None => None
    end.
Proof.
  intros Hn Eb. unfold do_load_serial_bin. rewrite Eb, Z.eqb_refl, Hn. cbn [mbind option_bind].
  change (bool_decide (Some (str "loady") = Some (str "loady"))) with true. cbn iota.
  destruct (load_serial_ymodem late _ _ _) as [[[a s] t]|]; reflexivity.
Qed.
End commands.
